(* ===== verification/_CoqProject ===== *)
-Q . S2P
Prelude.v
SequenceNumber.v
BitWord.v
BitmapRange.v
BitmapWords.v
BitmapFacts.v
BitmapTheorems.v
SortedRange.v
Bytes.v
Guid.v
TimedEvent.v
Time.v
CacheChange.v
CDRMessage.v
CDRFacts.v
ParameterList.v
MessageReceiver.v
MessageReceiverFacts.v
MessageReceiverTheorems.v
MessageCreator.v
MessageWriting.v
MessageRoundtrip.v
DataFragPayload.v
Reassembly.v
GapBuilder.v
ChangeForReader.v
ReaderProxy.v
ReaderProxyFacts.v
ReaderProxyTheorems.v
WriterProxy.v
WriterProxyFacts.v
WriterProxyTheorems.v
ReaderHistory.v
ReaderHistoryFacts.v
ReaderHistoryTheorems.v
StatefulReader.v
StatefulReaderFacts.v
StatefulReaderInvariant.v
StatefulReaderSteps.v
StatefulReaderTheorems.v
ReaderProxyHistory.v
WriterHistory.v
LocatorSelector.v
LocatorSelectorTheorems.v
StatefulWriter.v
StatefulWriterLogic.v
StatefulWriterInvariant.v
StatefulWriterSteps.v
StatefulWriterMatching.v
StatefulWriterHistory.v
StatefulWriterTotal.v
StatefulWriterRequests.v
StatefulWriterTheorems.v
FlowQueue.v
FlowScheduler.v
FlowSchedulerLaws.v
FlowSchedulerTheorems.v
FlowController.v
FlowControllerFactory.v
FlowControllerFacts.v
FlowControllerTheorems.v
ReliableExchange.v
ResourceEvent.v
ResourceEventFacts.v
ResourceEventTheorems.v
ResourceLimitedVector.v
LivelinessManager.v
LivelinessManagerFacts.v
LivelinessManagerTheorems.v
TopicPayloadPool.v
TopicPayloadPoolFacts.v
TopicPayloadPoolTheorems.v
CacheChangePool.v
CacheChangePoolTheorems.v
