(* ===== verification/Prelude.v ===== *)
(** * Fast DDS: a verification library for the RTPS protocol core

    Fast DDS publishes samples over the RTPS protocol. A writer gives every sample
    (a change) the next sequence number, sends it in DATA or DATA_FRAG submessages
    and announces what it has in HEARTBEATs; a reader answers with ACKNACK and
    NACK_FRAG what it misses and is told in GAPs what it will never get. This
    library models that protocol core as the C++ code has it and proves what makes
    it reliable.

    ** The parts and their files

    File and function names are those under src/.

    - Machine integers, tactics, hints: this file. A fixed-width integer is a [Z]
      with the conversions of the language written out ([u32], [i64], ...).
    - [SequenceNumber]: include/fastdds/rtps/common/SequenceNumber.hpp. Two words,
      refined to one integer ([snz]).
    - [BitWord], [BitmapRange], [BitmapWords], [BitmapFacts], [BitmapTheorems]:
      include/fastdds/utils/fixed_size_bitmap.hpp, over the interface [BitmapItem]
      with the laws [BitmapItemLaws], instantiated by sequence and fragment numbers.
    - [SortedRange]: sorted containers and their lower bound.
    - [Bytes], [Guid], [Time], [TimedEvent], [CacheChange]: objects as octets,
      include/fastdds/rtps/common (identifiers, locators, times, changes) and the
      timers of src/cpp/rtps/resources. The list of missing fragments lives inside
      the payload buffer, as in the code; [Reassembly] proves it right.
    - [CDRMessage], [CDRFacts], [ParameterList]: src/cpp/rtps/messages/CDRMessage.cpp
      and the parameter lists, a state monad over a buffer with 32-bit positions in
      which an access outside of the buffer is no result.
    - [MessageReceiver], [MessageReceiverFacts], [MessageReceiverTheorems]:
      src/cpp/rtps/messages/MessageReceiver.cpp. What is handed to readers and
      writers is a list of events.
    - [MessageCreator], [MessageWriting], [MessageRoundtrip]:
      src/cpp/rtps/messages/RTPSMessageCreator.cpp and submessages/, against the
      receiver; [DataFragPayload]: what the receiver does not check.
    - [GapBuilder], [ChangeForReader], [ReaderProxy], [ReaderProxyFacts],
      [ReaderProxyTheorems]: the writer's view of a reader, src/cpp/rtps/writer
      (ReaderProxy.cpp, ChangeForReader.hpp) and messages/RTPSGapBuilder.cpp.
    - [WriterProxy], [WriterProxyFacts], [WriterProxyTheorems]: the reader's view of
      a writer, src/cpp/rtps/reader/WriterProxy.cpp.
    - [ReaderHistory], [ReaderHistoryFacts], [ReaderHistoryTheorems]: the ordered
      store of a reader, src/cpp/rtps/history.
    - [StatefulReader], [StatefulReaderFacts], [StatefulReaderInvariant],
      [StatefulReaderSteps], [StatefulReaderTheorems]: the reliable reader,
      src/cpp/rtps/reader/StatefulReader.cpp, which owns a [WriterProxy] per matched
      writer and a history. The history is reached through the class
      [ReaderHistoryOps], the virtual functions of the C++ class.
    - [WriterHistory]: the changes of a writer, src/cpp/rtps/history/WriterHistory.cpp,
      with their numbering and fragmentation.
    - [LocatorSelector], [LocatorSelectorTheorems]: the choice of locators,
      include/fastdds/rtps/common/LocatorSelector.hpp and [select_locators] of the
      transports.
    - [StatefulWriter]: the reliable writer, src/cpp/rtps/writer/StatefulWriter.cpp, a
      program over a state of three lists of [ReaderProxy], the history and the two
      selectors. A handler is a value of the monad [M]: it may end normally, end
      because the message group throws, or access a container out of range.
      [StatefulWriterLogic] has the rules for what every ending preserves,
      [ReaderProxyHistory] what the proxies promise to the writer,
      [StatefulWriterInvariant], [StatefulWriterSteps] and [StatefulWriterMatching]
      the invariant, [StatefulWriterTotal] and [StatefulWriterRequests] the logic of
      total correctness and what is proved with it, [StatefulWriterHistory] holes and
      fragments, [StatefulWriterTheorems] the theorems.
    - [FlowQueue], [FlowScheduler], [FlowSchedulerLaws], [FlowSchedulerTheorems],
      [FlowController], [FlowControllerFactory], [FlowControllerFacts],
      [FlowControllerTheorems]: the flow controllers, src/cpp/rtps/flowcontrol. The
      intrusive lists of samples are a store of links, [represents] relates it to
      sequences. The class [FlowScheduler] is the template parameter of the controller,
      with one instance per scheduler and the laws [SchedulerLaws]; the controller's
      theorems are proved against the laws. The asynchronous thread is cut at its
      mutexes, and [fc_run] interleaves its pieces with the calls of other threads.
    - [ReliableExchange]: a writer and a reader together, over one exchange of a
      heartbeat, the request it causes and the answers.
    - [ResourceEvent], [ResourceEventFacts], [ResourceEventTheorems]: the thread that
      runs the timed events, src/cpp/rtps/resources/ResourceEvent.cpp. A step is an
      atomic exchange of an owner or a region of the thread under its mutex; [re_run]
      interleaves them and lists the callbacks that are started.
    - [ResourceLimitedVector]: include/fastdds/utils/collections, with the addresses
      of the elements.
    - [LivelinessManager], [LivelinessManagerFacts], [LivelinessManagerTheorems]: the
      leases of writers, src/cpp/rtps/writer/LivelinessManager.cpp, with a timed event
      whose owner is an address in such a vector. The clock is a sequence of readings.
    - [TopicPayloadPool], [TopicPayloadPoolFacts], [TopicPayloadPoolTheorems]: the pool
      of the payloads of a topic, src/cpp/rtps/history/TopicPayloadPool.cpp and
      TopicPayloadPool_impl: nodes by address with their reference counters, the four
      memory policies, the answers of the allocator as arguments.
    - [CacheChangePool], [CacheChangePoolTheorems]: the pool of the changes of a
      history, src/cpp/rtps/history/CacheChangePool.cpp.
    ** State and effects

    An object is a record with the fields of the class; a member function takes and
    returns it. Calls to other components (timers, listeners, sending, pools) are
    values in a list of effects, and their answers are arguments. Code outside of the
    sources (transports, clock, content filters, security plugins) is an argument.
    Errors are results: [option] for what would be an access outside of a buffer,
    booleans and status values as the code returns them.

    ** What the theorems show

    - Representation: comparisons and arithmetic of sequence numbers are those of
      integers; every reachable bitmap is well formed, and its word-wise operations
      are the operations of a set; entity identifiers are totally ordered.
    - Safety of the input path: the receiver ends on any datagram without access outside
      of the buffer, and what it hands over is well formed but for the payload of a
      DATA_FRAG ([data_frag_payload_unchecked]). Messages the creator writes are read
      back as they were.
    - Reassembly: in a buffer that holds the links, fragments in any order, repeated or
      not, give the sample exactly when all are there, and the fragments asked for are
      those that are missing.
    - Proxies: through any interleaving of calls, timers, event thread and stop, both kinds of
      proxy keep their invariant; acknowledgements, requests, heartbeats and gaps
      act on the sets of numbers as the protocol means them to.
    - The reader: history and proxies agree in every reachable state; what becomes
      available is notified once and in order, and the application gets only
      complete samples. The steps are guarded by conditions on the
      messages (timestamps that grow with the numbers, GAPs that the code applies in
      full); two theorems show what happens without ([gap_exposes_incomplete_sample],
      [late_timestamp_hides_change]).
    - The writer: in every reachable state the proxies list changes of the history
      only; every requested change is sent again or announced as a gap; the listener
      is told of exactly what all the readers have; the gaps are the holes of the
      history; the fragments cover the payload; every enabled reader that a transport can
      reach is reached by the selected locators. Three theorems show runs that go wrong.
    - Flow control: the pointer structure implements queues through any interleaving,
      samples keep their order and none is lost, the thread empties the queues and no
      wake-up is missed; round robin is fair, priorities are respected, and the
      reservations are charged to the sender, but for a wrap and a stale note that two
      theorems show.
    - Both sides together: an exchange in which the answers arrive, in whatever order,
      gives the reader everything up to the writer's last change, as far as a request
      of 256 numbers goes ([exchange_repairs]).
    - Timers: no event is lost through any interleaving, a due event is triggered in
      the pass that finds it, a cancelled one stays quiet; events of a day or more are
      lost ([long_timer_is_lost]).
    - Liveliness: the reports to the callback add up to the status of the writers, the
      timer is that of the first writer to lose its liveliness, an assertion revives
      exactly the writers it concerns; a removal leaves the old deadline to the next
      writer, and a timer that expires inside of [add_writer] follows an invalid
      pointer.
    - Payloads: through any valid run a payload exists and keeps its contents while it is
      held, its counter is the number of its holders, none is lost, and what is handed
      out is free and large enough.
    - Changes: the pool of changes refuses one exactly when its maximum is in use, and what
      it hands out is free and as new; beyond 655250 changes in use the size of the next
      group is not defined ([growth_beyond_limit]).
    - Boundaries: the theorems about faults (fragment links and payloads outside of
      the buffer, lengths that wrap, unnormalised durations, a zero delay) state for
      which inputs the code leaves its intended behaviour.

    ** Fuel and bounds

    Loops that are not structural take fuel, always a number that the loop provably
    does not reach: the number of octets of a message for the submessages, the
    number of fragments plus one for the list of missing fragments, the distance to
    the low mark for notifications, the number of changes for loops over a history.
    Where a loop of the code may not end (the conversion of an unnormalised
    duration, the delivery of a fragmented sample) the theorem quantifies over the fuel. Sequence numbers are taken below
    2^63 - 2^32 ([sn_ok]), so that the next one exists.

    ** Not modelled

    Transports, the shared memory and data sharing, the security plugins, discovery,
    the DDS layer of factories, publishers and subscribers, dynamic types, XML
    profiles, persistence, statistics publication and logging: input and output,
    generated code, or wiring between the parts above. Mutexes are modelled for
    the flow controllers and the event thread only, as conditions on the steps; elsewhere the step relations
    interleave where the code releases them (the callbacks of the timers). What the
    writer asks of its flow controller is an effect of the writer, and what delivery
    answers is an argument of the controller's steps; the participant and the
    application's listener are parameters of the writer. *)

From Stdlib Require Import ZArith Lia ZifyBool.
From stdpp Require Import base numbers list option.

Open Scope Z_scope.

(** ** Machine integers

    A fixed-width integer of the C++ code is a [Z]; the functions below are the
    conversions the language applies on assignment. *)

Definition u8 (x : Z) : Z := x mod 2 ^ 8.
Definition u16 (x : Z) : Z := x mod 2 ^ 16.
Definition u32 (x : Z) : Z := x mod 2 ^ 32.
Definition u64 (x : Z) : Z := x mod 2 ^ 64.

(** Two's complement reading of the low [w] bits. *)
Definition sext (w x : Z) : Z :=
  let m := x mod 2 ^ w in if m <? 2 ^ (w - 1) then m else m - 2 ^ w.
Definition i16 (x : Z) : Z := sext 16 x.
Definition i32 (x : Z) : Z := sext 32 x.
Definition i64 (x : Z) : Z := sext 64 x.

Definition is_u8 (x : Z) : Prop := 0 <= x < 2 ^ 8.
Definition is_u16 (x : Z) : Prop := 0 <= x < 2 ^ 16.
Definition is_u32 (x : Z) : Prop := 0 <= x < 2 ^ 32.
Definition is_u64 (x : Z) : Prop := 0 <= x < 2 ^ 64.
Definition is_i32 (x : Z) : Prop := - 2 ^ 31 <= x < 2 ^ 31.

#[global] Instance is_u32_dec x : Decision (is_u32 x).
Proof. unfold is_u32. apply _. Defined.
#[global] Instance is_i32_dec x : Decision (is_i32 x).
Proof. unfold is_i32. apply _. Defined.
#[global] Instance is_u8_dec x : Decision (is_u8 x).
Proof. unfold is_u8. apply _. Defined.

Create HintDb fastdds discriminated.

(** [width] unfolds the machine-integer vocabulary down to linear facts. *)
Ltac width :=
  unfold is_u8, is_u16, is_u32, is_u64, is_i32 in *;
  change (2 ^ 8) with 256 in *; change (2 ^ 16) with 65536 in *;
  change (2 ^ 31) with 2147483648 in *; change (2 ^ 32) with 4294967296 in *;
  change (2 ^ 63) with 9223372036854775808 in *;
  change (2 ^ 64) with 18446744073709551616 in *.

Ltac zwidth := width; lia.

(** Splits every boolean conditional of the goal. *)
Ltac zif :=
  repeat match goal with |- context [if ?c then _ else _] => destruct c eqn:? end.

Lemma u32_small x : is_u32 x → u32 x = x.
Proof. intros. unfold u32. apply Z.mod_small. zwidth. Qed.

Lemma u32_range x : is_u32 (u32 x).
Proof. unfold u32, is_u32. apply Z.mod_pos_bound. lia. Qed.

Lemma u64_small x : is_u64 x → u64 x = x.
Proof. intros. unfold u64. apply Z.mod_small. zwidth. Qed.

Lemma sext_small w x : 0 < w → - 2 ^ (w - 1) <= x < 2 ^ (w - 1) → sext w x = x.
Proof.
  intros Hw Hx. unfold sext.
  assert (2 ^ w = 2 * 2 ^ (w - 1)) as E.
  { rewrite <- Z.pow_succ_r by lia. f_equal. lia. }
  destruct (Z.ltb_spec x 0) as [Hneg|Hpos].
  - replace (x mod 2 ^ w) with (x + 2 ^ w).
    + destruct (Z.ltb_spec (x + 2 ^ w) (2 ^ (w - 1))); lia.
    + apply Z.mod_unique with (-1); lia.
  - rewrite Z.mod_small by lia. destruct (Z.ltb_spec x (2 ^ (w - 1))); lia.
Qed.

Lemma i32_small x : is_i32 x → i32 x = x.
Proof. intros. unfold i32. apply sext_small; zwidth. Qed.

Lemma i32_range x : is_i32 (i32 x).
Proof.
  unfold i32, sext, is_i32. pose proof (Z.mod_pos_bound x (2 ^ 32) ltac:(lia)).
  change (32 - 1) with 31. destruct (Z.ltb_spec (x mod 2 ^ 32) (2 ^ 31)); zwidth.
Qed.

#[export] Hint Resolve u32_range i32_range : fastdds.
