(* ===== verification/SequenceNumber.v ===== *)
(** * SequenceNumber_t (include/fastdds/rtps/common/SequenceNumber.hpp)

    The two-word sequence number with its operators as the header writes them,
    and the refinement to the integer it denotes: every comparison operator is
    the order of [snz], every arithmetic operator is the arithmetic of [snz] as
    long as the result stays in range (the condition its [assert] checks). *)

From Stdlib Require Import ZArith Lia ZifyBool.
From stdpp Require Import base numbers list option.
From S2P Require Import Prelude.

Open Scope Z_scope.

Record SequenceNumber_t := SeqNum { high : Z; low : Z }.

#[global] Instance SequenceNumber_eq_dec : EqDecision SequenceNumber_t.
Proof. solve_decision. Defined.

(** [SequenceNumber_t()] *)
Definition sn_zero : SequenceNumber_t := SeqNum 0 0.

(** [explicit SequenceNumber_t(uint64_t u)] *)
Definition sn_of_u64 (u : Z) : SequenceNumber_t :=
  SeqNum (i32 (Z.shiftr u 32)) (u32 u).

Definition to64long (s : SequenceNumber_t) : Z :=
  u64 (u64 (Z.shiftl (u64 (high s)) 32) + low s).

(** [operator ++()] *)
Definition sn_incr (s : SequenceNumber_t) : SequenceNumber_t :=
  let low' := u32 (low s + 1) in
  if low' =? 0 then SeqNum (i32 (high s + 1)) low' else SeqNum (high s) low'.

(** [operator +=(int inc)] *)
Definition sn_add_assign (s : SequenceNumber_t) (inc : Z) : SequenceNumber_t :=
  let aux_low := low s in
  let low' := u32 (low s + u32 inc) in
  if low' <? aux_low then SeqNum (i32 (high s + 1)) low' else SeqNum (high s) low'.

(** [SequenceNumber_t::unknown()] *)
Definition sn_unknown : SequenceNumber_t := SeqNum (-1) 0.

Definition sn_eqb (sn1 sn2 : SequenceNumber_t) : bool :=
  (low sn1 =? low sn2) && (high sn1 =? high sn2).

Definition sn_neb (sn1 sn2 : SequenceNumber_t) : bool :=
  negb (low sn1 =? low sn2) || negb (high sn1 =? high sn2).

Definition sn_gtb (seq1 seq2 : SequenceNumber_t) : bool :=
  if high seq1 =? high seq2 then low seq1 >? low seq2 else high seq1 >? high seq2.

Definition sn_ltb (seq1 seq2 : SequenceNumber_t) : bool :=
  if high seq1 =? high seq2 then low seq1 <? low seq2 else high seq1 <? high seq2.

Definition sn_geb (seq1 seq2 : SequenceNumber_t) : bool :=
  if high seq1 =? high seq2 then low seq1 >=? low seq2 else high seq1 >? high seq2.

Definition sn_leb (seq1 seq2 : SequenceNumber_t) : bool :=
  if high seq1 =? high seq2 then low seq1 <=? low seq2 else high seq1 <? high seq2.

(** [operator -(const SequenceNumber_t&, uint32_t)] *)
Definition sn_sub_u32 (seq : SequenceNumber_t) (inc : Z) : SequenceNumber_t :=
  let res := SeqNum (high seq) (u32 (low seq - inc)) in
  if inc >? low seq then SeqNum (i32 (high res - 1)) (low res) else res.

(** [operator +(const SequenceNumber_t&, uint32_t)] *)
Definition sn_add_u32 (seq : SequenceNumber_t) (inc : Z) : SequenceNumber_t :=
  let res := SeqNum (high seq) (u32 (low seq + inc)) in
  if low res <? low seq then SeqNum (i32 (high res + 1)) (low res) else res.

(** [operator -(const SequenceNumber_t&, const SequenceNumber_t&)] *)
Definition sn_sub (minuend subtrahend : SequenceNumber_t) : SequenceNumber_t :=
  let res := SeqNum (i32 (high minuend - high subtrahend))
                    (u32 (low minuend - low subtrahend)) in
  if low minuend <? low subtrahend then SeqNum (i32 (high res - 1)) (low res) else res.

(** [SequenceNumberDiff::operator()] *)
Definition SequenceNumberDiff (a b : SequenceNumber_t) : Z := low (sn_sub a b).

(** [std::min] and [std::max] on sequence numbers *)
Definition sn_min (a b : SequenceNumber_t) : SequenceNumber_t := if sn_ltb b a then b else a.
Definition sn_max (a b : SequenceNumber_t) : SequenceNumber_t := if sn_ltb a b then b else a.

Declare Scope sn_scope.
Delimit Scope sn_scope with sn.
Bind Scope sn_scope with SequenceNumber_t.
Infix "=?" := sn_eqb : sn_scope.
Infix "<?" := sn_ltb : sn_scope.
Infix "<=?" := sn_leb : sn_scope.
Infix ">?" := sn_gtb : sn_scope.
Infix ">=?" := sn_geb : sn_scope.
Infix "+" := sn_add_u32 : sn_scope.
Infix "-" := sn_sub_u32 : sn_scope.

(** ** The integer a sequence number denotes *)

Definition snz (s : SequenceNumber_t) : Z := high s * 2 ^ 32 + low s.

(** Values the two fields can hold. *)
Definition sn_wf (s : SequenceNumber_t) : Prop := is_i32 (high s) ∧ is_u32 (low s).

#[global] Instance sn_wf_dec s : Decision (sn_wf s).
Proof. unfold sn_wf. apply _. Defined.

(** The sequence number of a given value. *)
Definition sn_of_Z (z : Z) : SequenceNumber_t := SeqNum (z / 2 ^ 32) (z mod 2 ^ 32).

(** Destructs the sequence numbers at hand and leaves linear arithmetic. *)
Ltac sn_cases :=
  unfold sn_wf, snz in *;
  repeat match goal with s : SequenceNumber_t |- _ => destruct s as [? ?] end;
  cbn [high low] in *; width.

Lemma sn_eqb_snz a b : sn_wf a → sn_wf b → (a =? b)%sn = (snz a =? snz b).
Proof. unfold sn_eqb. intros. sn_cases. lia. Qed.

Lemma sn_neb_snz a b : sn_wf a → sn_wf b → sn_neb a b = negb (snz a =? snz b).
Proof. unfold sn_neb. intros. sn_cases. lia. Qed.

Lemma sn_ltb_snz a b : sn_wf a → sn_wf b → (a <? b)%sn = (snz a <? snz b).
Proof. unfold sn_ltb. intros. sn_cases. zif; lia. Qed.

Lemma sn_leb_snz a b : sn_wf a → sn_wf b → (a <=? b)%sn = (snz a <=? snz b).
Proof. unfold sn_leb. intros. sn_cases. zif; lia. Qed.

Lemma sn_gtb_snz a b : sn_wf a → sn_wf b → (a >? b)%sn = (snz a >? snz b).
Proof. unfold sn_gtb. intros. sn_cases. zif; lia. Qed.

Lemma sn_geb_snz a b : sn_wf a → sn_wf b → (a >=? b)%sn = (snz a >=? snz b).
Proof. unfold sn_geb. intros. sn_cases. zif; lia. Qed.

Lemma sn_val_inj a b : sn_wf a → sn_wf b → snz a = snz b → a = b.
Proof. intros. sn_cases. f_equal; lia. Qed.

Lemma snz_range a : sn_wf a → - 2 ^ 63 <= snz a < 2 ^ 63.
Proof. intros. sn_cases. lia. Qed.

Lemma snz_of_Z z : snz (sn_of_Z z) = z.
Proof. unfold snz, sn_of_Z. cbn [high low]. pose proof (Z.div_mod z (2 ^ 32)). lia. Qed.

Lemma sn_of_Z_wf z : - 2 ^ 63 <= z < 2 ^ 63 → sn_wf (sn_of_Z z).
Proof.
  intros. unfold sn_wf, sn_of_Z. cbn [high low]. split.
  - unfold is_i32. split.
    + apply Z.div_le_lower_bound; zwidth.
    + apply Z.div_lt_upper_bound; zwidth.
  - apply u32_range.
Qed.

Lemma sn_of_snz a : sn_wf a → sn_of_Z (snz a) = a.
Proof.
  intros H. apply sn_val_inj; [apply sn_of_Z_wf, snz_range, H | done | apply snz_of_Z].
Qed.

(** A wrapped 32-bit addition, as the carry test of the operators sees it. *)
Lemma u32_add_cases x y :
  is_u32 x → is_u32 y →
  (x + y < 2 ^ 32 ∧ u32 (x + y) = x + y) ∨ (2 ^ 32 <= x + y ∧ u32 (x + y) = x + y - 2 ^ 32).
Proof.
  intros. destruct (Z.ltb_spec (x + y) (2 ^ 32)).
  - left. split; [done|]. apply u32_small. zwidth.
  - right. split; [done|]. unfold u32. symmetry. apply Z.mod_unique with 1; zwidth.
Qed.

Lemma u32_sub_cases x y :
  is_u32 x → is_u32 y →
  (y <= x ∧ u32 (x - y) = x - y) ∨ (x < y ∧ u32 (x - y) = x - y + 2 ^ 32).
Proof.
  intros. destruct (Z.leb_spec y x).
  - left. split; [done|]. apply u32_small. zwidth.
  - right. split; [done|]. unfold u32. symmetry. apply Z.mod_unique with (-1); zwidth.
Qed.

Lemma sn_add_u32_snz a n :
  sn_wf a → is_u32 n → snz a + n < 2 ^ 63 → sn_wf (a + n)%sn ∧ snz (a + n)%sn = snz a + n.
Proof.
  intros Ha Hn Hb. unfold sn_add_u32. cbn [high low].
  destruct (u32_add_cases (low a) n) as [[? ->]|[? ->]]; [apply Ha | done | |];
    zif; try (rewrite i32_small by (sn_cases; lia)); sn_cases; lia.
Qed.

Lemma sn_sub_u32_snz a n :
  sn_wf a → is_u32 n → - 2 ^ 63 <= snz a - n → sn_wf (a - n)%sn ∧ snz (a - n)%sn = snz a - n.
Proof.
  intros Ha Hn Hb. unfold sn_sub_u32. cbn [high low].
  destruct (u32_sub_cases (low a) n) as [[? ->]|[? ->]]; [apply Ha | done | |];
    zif; try (rewrite i32_small by (sn_cases; lia)); sn_cases; lia.
Qed.

Lemma sn_incr_add_u32 a : is_u32 (low a) → sn_incr a = (a + 1)%sn.
Proof.
  intros Ha. unfold sn_incr, sn_add_u32. cbn [high low].
  destruct (u32_add_cases (low a) 1) as [[? ->]|[? ->]]; [done | zwidth | |]; zif; zwidth || done.
Qed.

Lemma sn_add_assign_add_u32 a n : 0 <= n < 2 ^ 31 → sn_add_assign a n = (a + n)%sn.
Proof. intros Hn. unfold sn_add_assign, sn_add_u32. rewrite (u32_small n) by zwidth. done. Qed.

Lemma sn_sub_snz a b :
  sn_wf a → sn_wf b → 0 <= snz b <= snz a →
  sn_wf (sn_sub a b) ∧ snz (sn_sub a b) = snz a - snz b.
Proof.
  intros Ha Hb Hle. unfold sn_sub. cbn [high low].
  rewrite (i32_small (high a - high b)) by (sn_cases; lia).
  destruct (u32_sub_cases (low a) (low b)) as [[? ->]|[? ->]]; [apply Ha | apply Hb | |];
    zif; try (rewrite i32_small by (sn_cases; lia)); sn_cases; lia.
Qed.

(** The functor the bitmaps use keeps the low word of the difference only. *)
Lemma SequenceNumberDiff_snz a b :
  sn_wf a → sn_wf b → 0 <= snz b <= snz a → SequenceNumberDiff a b = u32 (snz a - snz b).
Proof.
  intros Ha Hb Hle. destruct (sn_sub_snz a b Ha Hb Hle) as [[_ Hlow] <-].
  unfold SequenceNumberDiff, u32, snz. rewrite Z.add_comm, Z.mod_add by done.
  symmetry. apply Z.mod_small, Hlow.
Qed.

Lemma to64long_snz a : sn_wf a → 0 <= snz a → to64long a = snz a.
Proof.
  intros Ha Hpos. unfold to64long. rewrite Z.shiftl_mul_pow2 by lia.
  rewrite (u64_small (high a)) by (sn_cases; lia).
  rewrite (u64_small (high a * 2 ^ 32)) by (sn_cases; lia).
  rewrite u64_small by (sn_cases; lia). done.
Qed.

Lemma sn_of_u64_to64long a : sn_wf a → sn_of_u64 (to64long a) = a.
Proof.
  intros Ha. unfold sn_of_u64, to64long. rewrite Z.shiftl_mul_pow2, Z.shiftr_div_pow2 by lia.
  unfold u64. rewrite Zmult_mod_idemp_l, Zplus_mod_idemp_l.
  set (v := high a * 2 ^ 32 + low a).
  assert (v mod 2 ^ 64 / 2 ^ 32 = high a mod 2 ^ 32) as ->.
  { subst v. change (2 ^ 64) with (2 ^ 32 * 2 ^ 32). rewrite Z.rem_mul_r by lia.
    rewrite (Z.add_comm (high a * 2 ^ 32)), Z.mod_add, Z.div_add by lia.
    rewrite (Z.div_small (low a)) by apply Ha. rewrite Z.mod_small by apply Ha.
    rewrite Z.add_0_l, (Z.mul_comm (2 ^ 32)), Z.div_add by lia.
    rewrite Z.div_small by apply Ha. done. }
  assert (u32 (v mod 2 ^ 64) = low a) as ->.
  { unfold u32. rewrite Z.mod_mod_divide by (by exists (2 ^ 32)).
    subst v. rewrite Z.add_comm, Z.mod_add by lia. apply Z.mod_small, Ha. }
  destruct a as [h l]. f_equal. rewrite <- (i32_small h) at 2 by apply Ha.
  unfold i32, sext. rewrite Z.mod_mod by lia. done.
Qed.

(** ** Sequence numbers in use

    [high] below its maximum: the condition under which the [assert]s of the
    increments hold for any 32-bit amount. *)

Definition sn_ok (s : SequenceNumber_t) : Prop := 0 <= high s < 2 ^ 31 - 1 ∧ is_u32 (low s).

#[global] Instance sn_ok_dec s : Decision (sn_ok s).
Proof. unfold sn_ok. apply _. Defined.

Lemma sn_ok_wf s : sn_ok s → sn_wf s.
Proof. unfold sn_ok. intros. sn_cases. lia. Qed.

Lemma sn_ok_iff s : sn_wf s → sn_ok s ↔ 0 <= snz s < 2 ^ 63 - 2 ^ 32.
Proof. unfold sn_ok. intros. sn_cases. lia. Qed.

Lemma sn_ok_range s : sn_ok s → 0 <= snz s < 2 ^ 63 - 2 ^ 32.
Proof. intros H. apply sn_ok_iff; [apply sn_ok_wf|]; done. Qed.

Lemma sn_ok_add s n : sn_ok s → is_u32 n → sn_wf (s + n)%sn ∧ snz (s + n)%sn = snz s + n.
Proof.
  intros H Hn. apply sn_add_u32_snz; [by apply sn_ok_wf|done|].
  apply sn_ok_range in H. zwidth.
Qed.

Lemma sn_ok_sub s n : sn_ok s → is_u32 n → n <= snz s → sn_ok (s - n)%sn ∧ snz (s - n)%sn = snz s - n.
Proof.
  intros H Hn Hle. pose proof (sn_ok_range _ H).
  destruct (sn_sub_u32_snz s n) as [Hwf E]; [by apply sn_ok_wf | done | zwidth |].
  split; [|done]. apply sn_ok_iff; [done|]. zwidth.
Qed.

Lemma sn_ok_zero : sn_ok sn_zero.
Proof. split; cbn; zwidth. Qed.

Lemma snz_zero : snz sn_zero = 0.
Proof. done. Qed.

Lemma sn_min_snz a b : sn_wf a → sn_wf b → snz (sn_min a b) = Z.min (snz a) (snz b).
Proof. intros. unfold sn_min. rewrite sn_ltb_snz by done. zif; lia. Qed.

Lemma sn_max_snz a b : sn_wf a → sn_wf b → snz (sn_max a b) = Z.max (snz a) (snz b).
Proof. intros. unfold sn_max. rewrite sn_ltb_snz by done. zif; lia. Qed.

Lemma sn_min_wf a b : sn_wf a → sn_wf b → sn_wf (sn_min a b).
Proof. intros. unfold sn_min. zif; done. Qed.

(** ** What the operators mean *)

(** The six comparison operators are the order of the 64-bit integers the two words
    denote, on every pair of representable sequence numbers. *)
Theorem sn_order_refines_Z a b :
  sn_wf a → sn_wf b →
  (a =? b)%sn = (snz a =? snz b) ∧ sn_neb a b = negb (snz a =? snz b) ∧
  (a <? b)%sn = (snz a <? snz b) ∧ (a <=? b)%sn = (snz a <=? snz b) ∧
  (a >? b)%sn = (snz a >? snz b) ∧ (a >=? b)%sn = (snz a >=? snz b).
Proof.
  intros. rewrite sn_eqb_snz, sn_neb_snz, sn_ltb_snz, sn_leb_snz, sn_gtb_snz, sn_geb_snz by done. done.
Qed.

(** Carry and borrow are right across the two words: while the conditions of the asserts
    hold, [++], [+=], [+ uint32_t], [- uint32_t] and the difference of two sequence numbers
    are integer addition and subtraction, and the difference functor of the bitmaps is the
    difference modulo 2^32. *)
Theorem sn_arith_refines_Z a b n :
  sn_ok a → sn_ok b → is_u32 n → snz b <= snz a →
  snz (sn_incr a) = snz a + 1 ∧
  (n < 2 ^ 31 → snz (sn_add_assign a n) = snz a + n) ∧
  snz (a + n)%sn = snz a + n ∧
  (n <= snz a → snz (a - n)%sn = snz a - n) ∧
  snz (sn_sub a b) = snz a - snz b ∧
  SequenceNumberDiff a b = (snz a - snz b) mod 2 ^ 32.
Proof.
  intros Ha Hb Hn Hle. pose proof (sn_ok_range _ Hb) as Hrb. split; [|split; [|split; [|split; [|split]]]].
  - rewrite sn_incr_add_u32 by apply Ha. apply sn_ok_add; [done|zwidth].
  - intros. rewrite sn_add_assign_add_u32 by zwidth. by apply sn_ok_add.
  - by apply sn_ok_add.
  - intros. by apply sn_ok_sub.
  - apply sn_sub_snz; [by apply sn_ok_wf.. | lia].
  - apply SequenceNumberDiff_snz; [by apply sn_ok_wf.. | lia].
Qed.

