(* ===== verification/BitWord.v ===== *)
(** * 32-bit words read from the most significant bit

    The RTPS bitmaps number the bits of a word from its most significant one:
    [wbit w j] is bit [j] in that numbering. This file relates the word
    operations the C++ code uses on bitmaps (masks, shifts, [__builtin_clz],
    isolating the lowest bit set) to [wbit]. *)

From Stdlib Require Import ZArith Lia ZifyBool.
From stdpp Require Import base numbers list option.
From S2P Require Import Prelude.

Open Scope Z_scope.

Definition wbit (w j : Z) : bool := Z.testbit w (31 - j).

(** [~x] on [uint32_t] *)
Definition u32_not (x : Z) : Z := u32 (Z.lnot x).

(** [x << n] on [uint32_t] *)
Definition u32_shl (x n : Z) : Z := u32 (Z.shiftl x n).

(** [std::numeric_limits<uint32_t>::max()] *)
Definition full_mask : Z := 4294967295.

(** [__builtin_clz]; its result is undefined on 0. *)
Definition clz (w : Z) : Z := 31 - Z.log2 w.

(** [bits & ~(bits - 1)] *)
Definition lowest_bit (bits : Z) : Z := Z.land bits (u32_not (u32 (bits - 1))).

Lemma testbit_u32 x i : 0 <= i → Z.testbit (u32 x) i = (i <? 32) && Z.testbit x i.
Proof.
  intros Hi. unfold u32. destruct (Z.ltb_spec i 32).
  - rewrite Z.mod_pow2_bits_low by lia. done.
  - rewrite Z.mod_pow2_bits_high by lia. done.
Qed.

Lemma testbit_high w i : is_u32 w → 32 <= i → Z.testbit w i = false.
Proof.
  intros Hw Hi. rewrite <- (u32_small w Hw), testbit_u32 by lia.
  destruct (Z.ltb_spec i 32); [lia | done].
Qed.

Lemma is_u32_bits x : 0 <= x → (∀ i, 32 <= i → Z.testbit x i = false) → is_u32 x.
Proof.
  intros Hx Hb. split; [done|]. destruct (Z.eq_dec x 0) as [->|]; [done|].
  apply Z.log2_lt_pow2; [lia|]. apply Z.nle_gt. intros Hl.
  pose proof (Z.bit_log2 x ltac:(lia)) as Ht. rewrite Hb in Ht by done. done.
Qed.

Lemma u32_not_range x : is_u32 (u32_not x).
Proof. apply u32_range. Qed.
Lemma u32_shl_range x n : is_u32 (u32_shl x n).
Proof. apply u32_range. Qed.

Lemma lor_range a b : is_u32 a → is_u32 b → is_u32 (Z.lor a b).
Proof.
  intros Ha Hb. apply is_u32_bits.
  - apply Z.lor_nonneg. split; [apply Ha | apply Hb].
  - intros i Hi. rewrite Z.lor_spec, (testbit_high a), (testbit_high b) by done. done.
Qed.

Lemma land_range a b : is_u32 a → 0 <= b → is_u32 (Z.land a b).
Proof.
  intros Ha Hb. apply is_u32_bits.
  - apply Z.land_nonneg. left. apply Ha.
  - intros i Hi. rewrite Z.land_spec, (testbit_high a) by done. done.
Qed.

Lemma shiftr_range a n : is_u32 a → 0 <= n → is_u32 (Z.shiftr a n).
Proof.
  intros Ha Hn. apply is_u32_bits.
  - apply Z.shiftr_nonneg, Ha.
  - intros i Hi. rewrite Z.shiftr_spec by lia. apply testbit_high; [done | lia].
Qed.

#[export] Hint Resolve u32_not_range u32_shl_range lor_range land_range shiftr_range : fastdds.

Lemma testbit_1 i : 0 <= i → Z.testbit 1 i = (i =? 0).
Proof. intros. change 1 with (2 ^ 0). rewrite Z.pow2_bits_eqb by lia. apply Z.eqb_sym. Qed.

Lemma wbit_0 j : wbit 0 j = false.
Proof. apply Z.bits_0. Qed.

Lemma wbit_lor a b j : wbit (Z.lor a b) j = wbit a j || wbit b j.
Proof. apply Z.lor_spec. Qed.

Lemma wbit_land a b j : wbit (Z.land a b) j = wbit a j && wbit b j.
Proof. apply Z.land_spec. Qed.

Lemma wbit_shl w n j :
  0 <= n → 0 <= j < 32 → wbit (u32_shl w n) j = (j + n <? 32) && wbit w (j + n).
Proof.
  intros. unfold wbit, u32_shl. rewrite testbit_u32, Z.shiftl_spec by lia.
  destruct (Z.ltb_spec (31 - j) 32); [|lia]. cbn [andb].
  replace (31 - j - n) with (31 - (j + n)) by lia. destruct (Z.ltb_spec (j + n) 32); [done|].
  rewrite Z.testbit_neg_r by lia. done.
Qed.

Lemma wbit_shr w n j :
  is_u32 w → 0 <= n → 0 <= j < 32 → wbit (Z.shiftr w n) j = (n <=? j) && wbit w (j - n).
Proof.
  intros Hw ??. unfold wbit. rewrite Z.shiftr_spec by lia.
  replace (31 - j + n) with (31 - (j - n)) by lia. destruct (Z.leb_spec n j); [done|].
  rewrite testbit_high by (done || lia). done.
Qed.

Lemma wbit_not w j : 0 <= j < 32 → wbit (u32_not w) j = negb (wbit w j).
Proof.
  intros. unfold wbit, u32_not. rewrite testbit_u32, Z.lnot_spec by lia.
  destruct (Z.ltb_spec (31 - j) 32); [done | lia].
Qed.

Lemma wbit_full j : 0 <= j < 32 → wbit full_mask j = true.
Proof.
  intros. unfold wbit, full_mask. change 4294967295 with (Z.ones 32).
  apply Z.ones_spec_low. lia.
Qed.

(** [1u << (31u - d)] *)
Lemma wbit_single d j : 0 <= d < 32 → 0 <= j < 32 → wbit (u32_shl 1 (31 - d)) j = (j =? d).
Proof.
  intros. rewrite wbit_shl by lia. unfold wbit.
  destruct (Z.ltb_spec (j + (31 - d)) 32); cbn [andb]; [|lia].
  rewrite testbit_1 by lia. lia.
Qed.

Lemma wbit_ext a b : is_u32 a → is_u32 b → (∀ j, 0 <= j < 32 → wbit a j = wbit b j) → a = b.
Proof.
  intros Ha Hb He. apply Z.bits_inj'. intros i Hi. destruct (Z.ltb_spec i 32).
  - specialize (He (31 - i) ltac:(lia)). unfold wbit in He.
    replace (31 - (31 - i)) with i in He by lia. done.
  - rewrite !testbit_high by done. done.
Qed.

Lemma wbit_zero w : is_u32 w → (∀ j, 0 <= j < 32 → wbit w j = false) → w = 0.
Proof.
  intros Hw Hb. apply wbit_ext; [done | zwidth |]. intros j Hj. rewrite Hb, wbit_0 by done. done.
Qed.

Lemma clz_range w : is_u32 w → w ≠ 0 → 0 <= clz w < 32.
Proof.
  intros Hw Hnz. unfold clz. pose proof (Z.log2_nonneg w).
  assert (Z.log2 w < 32) by (apply Z.log2_lt_pow2; zwidth). lia.
Qed.

Lemma wbit_clz w : is_u32 w → w ≠ 0 → wbit w (clz w) = true.
Proof.
  intros Hw Hnz. unfold wbit, clz. replace (31 - (31 - Z.log2 w)) with (Z.log2 w) by lia.
  apply Z.bit_log2. zwidth.
Qed.

Lemma wbit_before_clz w j : is_u32 w → w ≠ 0 → j < clz w → wbit w j = false.
Proof. intros Hw Hnz Hj. unfold wbit, clz in *. apply Z.bits_above_log2; zwidth. Qed.

Lemma testbit_double a i : 0 < i → Z.testbit (2 * a) i = Z.testbit a (i - 1).
Proof. intros. replace i with (Z.succ (i - 1)) at 1 by lia. apply Z.testbit_even_succ. lia. Qed.

Lemma testbit_double_1 a i : 0 < i → Z.testbit (2 * a + 1) i = Z.testbit a (i - 1).
Proof. intros. replace i with (Z.succ (i - 1)) at 1 by lia. apply Z.testbit_odd_succ. lia. Qed.

(** Subtracting one flips the bits up to the lowest bit set, and no others. *)
Lemma pred_bits (p : positive) :
  ∃ k, 0 <= k ∧ Z.testbit (Z.pos p) k = true ∧ (∀ i, 0 <= i < k → Z.testbit (Z.pos p) i = false) ∧
    ∀ i, 0 <= i → Z.testbit (Z.pos p - 1) i =
      if i <? k then true else if i =? k then false else Z.testbit (Z.pos p) i.
Proof.
  induction p as [p _|p (k & Hk & Ht & Hlo & Hp)|].
  - exists 0. split; [done|]. split; [done|]. split; [lia|]. intros i Hi.
    replace (Z.pos p~1 - 1) with (2 * Z.pos p) by lia. replace (Z.pos p~1) with (2 * Z.pos p + 1) by lia.
    destruct (Z.ltb_spec i 0); [lia|]. destruct (Z.eqb_spec i 0) as [->|]; [by destruct p|].
    rewrite testbit_double, testbit_double_1 by lia. done.
  - exists (k + 1). replace (Z.pos p~0) with (2 * Z.pos p) by lia. split; [lia|].
    replace (2 * Z.pos p - 1) with (2 * (Z.pos p - 1) + 1) by lia. split.
    { rewrite testbit_double by lia. by replace (k + 1 - 1) with k by lia. }
    split.
    { intros i Hi. destruct (Z.eq_dec i 0) as [->|]; [by destruct p|].
      rewrite testbit_double by lia. apply Hlo. lia. }
    intros i Hi. destruct (Z.eq_dec i 0) as [->|].
    { rewrite Z.testbit_odd_0. destruct (Z.ltb_spec 0 (k + 1)); [done | lia]. }
    rewrite testbit_double_1, testbit_double, Hp by lia. zif; try done; lia.
  - exists 0. split; [done|]. split; [done|]. split; [lia|]. intros i Hi.
    change (1 - 1) with 0. rewrite Z.bits_0, testbit_1 by done. zif; try done; lia.
Qed.

Lemma lowest_bit_pow2 w :
  is_u32 w → w ≠ 0 →
  ∃ k, 0 <= k < 32 ∧ lowest_bit w = 2 ^ k ∧ Z.testbit w k = true ∧
    ∀ i, 0 <= i < k → Z.testbit w i = false.
Proof.
  intros Hw Hnz. destruct w as [|p|p]; [done | | by destruct Hw].
  destruct (pred_bits p) as (k & Hk & Ht & Hlo & Hp). exists k.
  assert (k < 32) as Hk32.
  { apply Z.nle_gt. intros Hge. by rewrite (testbit_high _ k Hw Hge) in Ht. }
  split; [lia|]. split; [|done].
  apply Z.bits_inj'. intros i Hi. rewrite Z.pow2_bits_eqb by lia.
  unfold lowest_bit, u32_not. rewrite Z.land_spec, testbit_u32, Z.lnot_spec, testbit_u32, Hp by lia.
  destruct (Z.ltb_spec i 32).
  - cbn [andb]. destruct (Z.ltb_spec i k).
    { rewrite Hlo by lia. lia. }
    destruct (Z.eqb_spec i k) as [->|]; [rewrite Ht; lia|]. destruct (Z.testbit _ i); cbn; lia.
  - rewrite testbit_high by done. lia.
Qed.

(** [__builtin_clz(bits & ~(bits - 1))] is the last position set. *)
Lemma clz_lowest_bit w :
  is_u32 w → w ≠ 0 →
  0 <= clz (lowest_bit w) < 32 ∧ wbit w (clz (lowest_bit w)) = true ∧
  ∀ j, clz (lowest_bit w) < j < 32 → wbit w j = false.
Proof.
  intros Hw Hnz. destruct (lowest_bit_pow2 w Hw Hnz) as (k & Hk & -> & Ht & Hlo).
  unfold clz, wbit. rewrite Z.log2_pow2 by lia. split; [lia|]. split.
  - by replace (31 - (31 - k)) with k by lia.
  - intros j Hj. apply Hlo. lia.
Qed.

Lemma shiftr_5 d : Z.shiftr d 5 = d / 32.
Proof. rewrite Z.shiftr_div_pow2 by lia. done. Qed.

Lemma land_31 d : Z.land d 31 = d mod 32.
Proof. change 31 with (Z.ones 5). rewrite Z.land_ones by lia. done. Qed.
