(* ===== verification/BitmapRange.v ===== *)
(** * BitmapRange (include/fastdds/utils/fixed_size_bitmap.hpp)

    The sliding bitmap behind [SequenceNumberSet_t] and [FragmentNumberSet_t].
    The C++ template parameters [T] and [Diff] are the class [BitmapItem]; what
    the template requires of them is the class [BitmapItemLaws], which the
    sequence numbers and the fragment numbers (32-bit) both satisfy. [NBITS] is
    the 256 of both instantiations.

    The operations work on the eight 32-bit words with the masks, shifts and
    loops of the source. The theorems state them on [bit_at], the bit at a
    distance from the base. *)

From Stdlib Require Import ZArith Lia ZifyBool.
From stdpp Require Import base numbers list option list_numbers.
From S2P Require Import Prelude BitWord SequenceNumber.

Open Scope Z_scope.

Definition NBITS : Z := 256.
Definition NITEMS : nat := Z.to_nat ((NBITS + 31) / 32).

(** ** The element type of a range *)

Class BitmapItem (T : Type) := {
  item_default : T;
  item_eqb : T → T → bool;
  item_geb : T → T → bool;
  item_gtb : T → T → bool;
  item_add : T → Z → T;      (* [T + uint32_t] *)
  item_diff : T → T → Z      (* [Diff], converted to [uint32_t] *)
}.

#[global] Instance SequenceNumber_item : BitmapItem SequenceNumber_t := {
  item_default := sn_zero;
  item_eqb := sn_eqb;
  item_geb := sn_geb;
  item_gtb := sn_gtb;
  item_add := sn_add_u32;
  item_diff := SequenceNumberDiff
}.

(** [FragmentNumber_t] is [uint32_t] *)
Definition FragmentNumber_t : Type := Z.

#[global] Instance FragmentNumber_item : BitmapItem FragmentNumber_t := {
  item_default := 0;
  item_eqb := Z.eqb;
  item_geb := Z.geb;
  item_gtb := Z.gtb;
  item_add := λ a n, u32 (a + n);
  item_diff := λ a b, u32 (a - b)
}.

Record BitmapRange (T : Type) := Bitmap {
  base_ : T;
  range_max_ : T;
  bitmap_ : list Z;
  num_bits_ : Z
}.
Arguments Bitmap {T} _ _ _ _.
Arguments base_ {T} _.
Arguments range_max_ {T} _.
Arguments bitmap_ {T} _.
Arguments num_bits_ {T} _.

Definition SequenceNumberSet_t := BitmapRange SequenceNumber_t.
Definition FragmentNumberSet_t := BitmapRange FragmentNumber_t.

(** [bitmap_[k]]; positions past the array read as 0 in the model, and the
    operations below stay inside it (lemma [add_pos_in_bounds] and the [option]
    of [bm_remove]). *)
Definition word (bm : list Z) (k : nat) : Z := default 0 (bm !! k).

Definition zero_bitmap : list Z := replicate NITEMS 0.

(** ** Word-level helpers: [std::copy] and [std::fill_n] on the array *)

Definition copy_left (n : nat) (bm : list Z) : list Z :=
  drop n bm ++ drop (length bm - n) bm.
Definition fill_back (n : nat) (bm : list Z) : list Z :=
  take (length bm - n) bm ++ replicate n 0.
Definition copy_right (n : nat) (bm : list Z) : list Z :=
  take n bm ++ take (length bm - n) bm.
Definition fill_front (n : nat) (bm : list Z) : list Z :=
  replicate n 0 ++ drop n bm.

(** The forward loop of [shift_map_left]. *)
Fixpoint shl_loop (cnt i n : nat) (n_bits overflow_bits : Z) (bm : list Z) : list Z :=
  match cnt with
  | O => bm
  | S c =>
      shl_loop c (S i) (S n) n_bits overflow_bits
        (<[i := Z.lor (u32_shl (word bm n) n_bits) (Z.shiftr (word bm (S n)) overflow_bits)]> bm)
  end.

(** The backward loop of [shift_map_right]; [n] counts down to 0. *)
Fixpoint shr_loop (n i : nat) (n_bits overflow_bits : Z) (bm : list Z) : list Z :=
  match n with
  | O => bm
  | S m =>
      shr_loop m (i - 1) n_bits overflow_bits
        (<[i := Z.lor (Z.shiftr (word bm n) n_bits) (u32_shl (word bm m) overflow_bits)]> bm)
  end.

Definition shift_words_left (n_bits0 : Z) (bm : list Z) : list Z :=
  let n_items := Z.to_nat (Z.shiftr n_bits0 5) in
  let n_bits := Z.land n_bits0 31 in
  if n_bits =? 0 then fill_back n_items (copy_left n_items bm)
  else
    let overflow_bits := 32 - n_bits in
    let last_index := (NITEMS - 1)%nat in
    let bm1 := shl_loop (last_index - n_items) 0 n_items n_bits overflow_bits bm in
    let bm2 := <[(last_index - n_items)%nat := u32_shl (word bm1 last_index) n_bits]> bm1 in
    fill_back n_items bm2.

Definition shift_words_right (n_bits0 : Z) (bm : list Z) : list Z :=
  let n_items := Z.to_nat (Z.shiftr n_bits0 5) in
  let n_bits := Z.land n_bits0 31 in
  if n_bits =? 0 then fill_front n_items (copy_right n_items bm)
  else
    let overflow_bits := 32 - n_bits in
    let last_index := (NITEMS - 1)%nat in
    let bm1 := shr_loop (last_index - n_items) last_index n_bits overflow_bits bm in
    let bm2 := <[n_items := Z.shiftr (word bm1 0) n_bits]> bm1 in
    fill_front n_items bm2.

(** [calc_maximum_bit_set]: the value it leaves in [num_bits_]. *)
Fixpoint calc_maximum_bit_set (bm : list Z) (i : nat) (min_index : Z) : Z :=
  match i with
  | O => 0
  | S i' =>
      if Z.of_nat i >? min_index then
        let bits := word bm i' in
        if negb (bits =? 0)
        then Z.shiftl (Z.of_nat i') 5 + (clz (lowest_bit bits) + 1)
        else calc_maximum_bit_set bm i' min_index
      else 0
  end.

(** The [while] loop of [add_range] followed by its last partial word. *)
Fixpoint add_range_loop (fuel : nat) (bm : list Z) (pos : nat) (n_bits mask bits_in_mask : Z)
  : list Z :=
  match fuel with
  | O => bm
  | S f =>
      if n_bits >=? bits_in_mask then
        add_range_loop f (<[pos := Z.lor (word bm pos) mask]> bm) (S pos)
          (n_bits - bits_in_mask) full_mask 32
      else if n_bits >? 0 then
        <[pos := Z.lor (word bm pos) (Z.land mask (u32_shl full_mask (bits_in_mask - n_bits)))]> bm
      else bm
  end.

(** The inner [while] loop of [for_each]: the items of one word, in order. *)
Fixpoint word_items {T} `{BitmapItem T} (fuel : nat) (bits : Z) (item : T) : list T :=
  match fuel with
  | O => []
  | S f =>
      if bits =? 0 then []
      else
        let offset := clz bits in
        let bit := Z.lxor 31 offset in
        item_add item offset :: word_items f (Z.land bits (u32_not (u32_shl 1 bit))) item
  end.

Fixpoint for_each_words {T} `{BitmapItem T} (n_longs i : nat) (bm : list Z) (item : T) : list T :=
  match n_longs with
  | O => []
  | S n => word_items 32 (word bm i) item ++ for_each_words n (S i) bm (item_add item 32)
  end.

Fixpoint min_words {T} `{BitmapItem T} (n_longs i : nat) (bm : list Z) (item : T) : option T :=
  match n_longs with
  | O => None
  | S n =>
      let bits := word bm i in
      if negb (bits =? 0) then Some (item_add item (clz bits))
      else min_words n (S i) bm (item_add item 32)
  end.

(** ** The operations of the class *)

Section Ops.
Context {T : Type} `{BitmapItem T}.
Implicit Types b : BitmapRange T.

(** [BitmapRange()] *)
Definition bm_default : BitmapRange T :=
  Bitmap item_default (item_add item_default (NBITS - 1)) zero_bitmap 0.

(** [BitmapRange(T base, uint32_t max_bits)], also [base(base, max_bits)] *)
Definition bm_make_max (base : T) (max_bits : Z) : BitmapRange T :=
  Bitmap base (item_add base (Z.min max_bits (NBITS - 1))) zero_bitmap 0.

(** [BitmapRange(T base)] *)
Definition bm_make (base : T) : BitmapRange T := bm_make_max base (NBITS - 1).

(** [base(T)]: resets the range *)
Definition bm_set_base (base : T) : BitmapRange T :=
  Bitmap base (item_add base (NBITS - 1)) zero_bitmap 0.

Definition shift_map_left (n_bits : Z) b : BitmapRange T :=
  if n_bits >=? num_bits_ b
  then Bitmap (base_ b) (range_max_ b) zero_bitmap 0
  else Bitmap (base_ b) (range_max_ b) (shift_words_left n_bits (bitmap_ b)) (num_bits_ b - n_bits).

Definition shift_map_right (n_bits : Z) b : BitmapRange T :=
  if n_bits >=? NBITS
  then Bitmap (base_ b) (range_max_ b) zero_bitmap 0
  else
    let new_num_bits := u32 (num_bits_ b + n_bits) in
    let find_new_max := new_num_bits >? NBITS in
    let n_items := Z.shiftr n_bits 5 in
    let bm := shift_words_right n_bits (bitmap_ b) in
    Bitmap (base_ b) (range_max_ b) bm
      (if find_new_max then calc_maximum_bit_set bm NITEMS n_items else new_num_bits).

Definition bm_base_update (base : T) b : BitmapRange T :=
  if item_eqb base (base_ b) then b
  else
    let b' :=
      if item_gtb base (base_ b)
      then shift_map_left (item_diff base (base_ b)) b
      else shift_map_right (item_diff (base_ b) base) b in
    Bitmap base (item_add base (NBITS - 1)) (bitmap_ b') (num_bits_ b').

Definition bm_empty b : bool := num_bits_ b =? 0.

Definition bm_max b : T := item_add (base_ b) (u32 (num_bits_ b - 1)).

Definition n_longs b : nat := Z.to_nat ((num_bits_ b + 31) / 32).

Definition bm_min b : T :=
  match min_words (n_longs b) 0 (bitmap_ b) (base_ b) with
  | Some item => item
  | None => base_ b
  end.

Definition in_range b (item : T) : bool :=
  item_geb item (base_ b) && item_geb (range_max_ b) item.

Definition bm_is_set b (item : T) : bool :=
  if in_range b item then
    let diff := item_diff item (base_ b) in
    if diff <? num_bits_ b then
      let pos := Z.to_nat (Z.shiftr diff 5) in
      negb (Z.land (word (bitmap_ b) pos) (u32_shl 1 (31 - Z.land diff 31)) =? 0)
    else false
  else false.

Definition bm_add b (item : T) : BitmapRange T * bool :=
  if in_range b item then
    let diff := item_diff item (base_ b) in
    let pos := Z.to_nat (Z.shiftr diff 5) in
    (Bitmap (base_ b) (range_max_ b)
       (<[pos := Z.lor (word (bitmap_ b) pos) (u32_shl 1 (31 - Z.land diff 31))]> (bitmap_ b))
       (Z.max (u32 (diff + 1)) (num_bits_ b)), true)
  else (b, false).

Definition bm_add_range b (from to : T) : BitmapRange T :=
  let min := if item_geb (base_ b) from then base_ b else from in
  let max := if item_geb to (item_add (base_ b) NBITS) then item_add (base_ b) NBITS else to in
  if item_geb min max then b
  else
    let offset0 := item_diff min (base_ b) in
    let n_bits := item_diff max min in
    let num_bits := Z.max (num_bits_ b) (u32 (offset0 + n_bits)) in
    let pos := Z.to_nat (Z.shiftr offset0 5) in
    let offset := Z.land offset0 31 in
    let mask := Z.shiftr full_mask offset in
    let bits_in_mask := 32 - offset in
    Bitmap (base_ b) (range_max_ b)
      (add_range_loop (S (Z.to_nat n_bits)) (bitmap_ b) pos n_bits mask bits_in_mask) num_bits.

(** [remove]. [None]: the array is accessed past its end. *)
Definition bm_remove b (item : T) : option (BitmapRange T) :=
  let max_value := bm_max b in
  if item_geb item (base_ b) && item_geb max_value item then
    let diff := item_diff item (base_ b) in
    let pos := Z.to_nat (Z.shiftr diff 5) in
    if (pos <? NITEMS)%nat then
      let bm := <[pos := Z.land (word (bitmap_ b) pos)
                           (u32_not (u32_shl 1 (31 - Z.land diff 31)))]> (bitmap_ b) in
      let num_bits :=
        if item_eqb item max_value then calc_maximum_bit_set bm (S pos) 0 else num_bits_ b in
      Some (Bitmap (base_ b) (range_max_ b) bm num_bits)
    else None
  else Some b.

(** [bitmap_get]: number of bits, words, number of words in use *)
Definition bm_bitmap_get b : Z * list Z * Z :=
  (num_bits_ b, bitmap_ b, (num_bits_ b + 31) / 32).

(** [bitmap_set]; [ws] is what the pointer designates. *)
Definition bm_bitmap_set b (num_bits : Z) (ws : list Z) : BitmapRange T :=
  let num_bits' := Z.min num_bits NBITS in
  let num_items := Z.to_nat ((num_bits' + 31) / 32) in
  let bm0 := take num_items ws ++ drop num_items zero_bitmap in
  let shift := Z.land num_bits 31 in
  let bm1 :=
    if (0 <? num_bits) && negb (shift =? 0)
    then <[(num_items - 1)%nat :=
             Z.land (word bm0 (num_items - 1)) (u32_not (Z.shiftr full_mask shift))]> bm0
    else bm0 in
  Bitmap (base_ b) (range_max_ b) bm1 (calc_maximum_bit_set bm1 num_items 0).

(** [for_each]: the items the callback is applied to, in order. *)
Definition bm_for_each b : list T := for_each_words (n_longs b) 0 (bitmap_ b) (base_ b).
End Ops.
