(* ===== verification/BitmapWords.v ===== *)
(** * The word array of a bitmap, bit by bit

    [bit_at bm i] is the bit at distance [i] from the base of the range. Each
    word-level routine of [BitmapRange] (array shifts, range masks, search of
    the last bit, enumeration) is characterised by its effect on [bit_at]. *)

From Stdlib Require Import ZArith Lia ZifyBool.
From stdpp Require Import base numbers list option list_numbers.
From S2P Require Import Prelude BitWord SequenceNumber BitmapRange.

Open Scope Z_scope.

Definition bit_at (bm : list Z) (i : Z) : bool := wbit (word bm (Z.to_nat (i / 32))) (i mod 32).

(** A well-formed array: eight 32-bit words. *)
Definition words_ok (bm : list Z) : Prop := length bm = NITEMS ∧ Forall is_u32 bm.

Lemma word_u32 bm k : Forall is_u32 bm → is_u32 (word bm k).
Proof.
  intros HF. unfold word. destruct (bm !! k) as [w|] eqn:E; cbn; [|zwidth].
  by eapply Forall_lookup_1.
Qed.

Lemma word_ge bm k : (length bm <= k)%nat → word bm k = 0.
Proof. intros. unfold word. by rewrite lookup_ge_None_2. Qed.

Lemma word_insert bm i k x :
  (i < length bm)%nat → word (<[i:=x]> bm) k = if decide (k = i) then x else word bm k.
Proof.
  intros Hi. unfold word. case_decide as E; [subst|].
  - by rewrite list_lookup_insert_eq.
  - by rewrite list_lookup_insert_ne.
Qed.

Lemma words_ok_insert bm i x : words_ok bm → is_u32 x → words_ok (<[i:=x]> bm).
Proof.
  intros [Hl HF] Hx. split; [by rewrite length_insert|]. by apply Forall_insert.
Qed.

Lemma words_ok_zero : words_ok zero_bitmap.
Proof. split; [done|]. apply Forall_replicate. zwidth. Qed.

Lemma words_ok_word bm k : words_ok bm → is_u32 (word bm k).
Proof. intros [_ ?]. by apply word_u32. Qed.

#[export] Hint Resolve words_ok_insert words_ok_zero words_ok_word word_u32 : fastdds.

Lemma bit_at_zero i : bit_at zero_bitmap i = false.
Proof.
  unfold bit_at, word, zero_bitmap. destruct (_ !! _) as [w|] eqn:E; cbn; [|apply wbit_0].
  apply lookup_replicate in E as [-> _]. apply wbit_0.
Qed.

(** Reading a bit given by word and position. *)
Lemma bit_at_word bm k j : 0 <= j < 32 → bit_at bm (32 * Z.of_nat k + j) = wbit (word bm k) j.
Proof.
  intros. unfold bit_at. rewrite Z.mul_comm, Z.div_add_l, (Z.div_small j), Z.add_0_r by lia.
  rewrite Z.add_comm, Z.mod_add, Z.mod_small by lia. by rewrite Nat2Z.id.
Qed.

(** Every bit index is a word index and a position. *)
Lemma bit_index i : 0 <= i → ∃ k j, i = 32 * Z.of_nat k + j ∧ 0 <= j < 32 ∧ k = Z.to_nat (i / 32) ∧ j = i mod 32.
Proof.
  intros. exists (Z.to_nat (i / 32)), (i mod 32).
  pose proof (Z.div_mod i 32). pose proof (Z.mod_pos_bound i 32). pose proof (Z.div_pos i 32).
  rewrite Z2Nat.id by lia. lia.
Qed.

Lemma bit_at_ge bm i : words_ok bm → 256 <= i → bit_at bm i = false.
Proof.
  intros [Hl _] Hi. destruct (bit_index i) as (k & j & -> & Hj & _ & _); [lia|].
  rewrite bit_at_word, word_ge, wbit_0; [done | | done].
  rewrite Hl. change NITEMS with 8%nat. lia.
Qed.

Lemma bit_at_insert bm k x i :
  words_ok bm → (k < NITEMS)%nat → 0 <= i →
  bit_at (<[k:=x]> bm) i = if i / 32 =? Z.of_nat k then wbit x (i mod 32) else bit_at bm i.
Proof.
  intros [Hl _] Hk Hi. unfold bit_at. rewrite word_insert by lia.
  pose proof (Z.div_pos i 32). case_decide; destruct (Z.eqb_spec (i / 32) (Z.of_nat k)); try done; lia.
Qed.

(** ** Setting and clearing one bit *)

Lemma pos_lt_NITEMS d : 0 <= d < 256 → (Z.to_nat (d / 32) < NITEMS)%nat.
Proof.
  intros. change NITEMS with 8%nat. assert (d / 32 < 8) by (apply Z.div_lt_upper_bound; lia). lia.
Qed.

Lemma bit_at_set bm d i :
  words_ok bm → 0 <= d < 256 → 0 <= i →
  let pos := Z.to_nat (Z.shiftr d 5) in
  bit_at (<[pos := Z.lor (word bm pos) (u32_shl 1 (31 - Z.land d 31))]> bm) i
  = (i =? d) || bit_at bm i.
Proof.
  intros Hok Hd Hi pos. subst pos. rewrite shiftr_5, land_31.
  pose proof (Z.mod_pos_bound d 32). pose proof (Z.mod_pos_bound i 32).
  rewrite bit_at_insert; [|done| by apply pos_lt_NITEMS | done].
  rewrite Z2Nat.id by (apply Z.div_pos; lia).
  destruct (Z.eqb_spec (i / 32) (d / 32)) as [E|E].
  - rewrite wbit_lor, wbit_single by lia. unfold bit_at. rewrite <- E, orb_comm.
    f_equal. pose proof (Z.div_mod i 32). pose proof (Z.div_mod d 32). lia.
  - destruct (Z.eqb_spec i d); [by subst | done].
Qed.

Lemma bit_at_clear bm d i :
  words_ok bm → 0 <= d < 256 → 0 <= i →
  let pos := Z.to_nat (Z.shiftr d 5) in
  bit_at (<[pos := Z.land (word bm pos) (u32_not (u32_shl 1 (31 - Z.land d 31)))]> bm) i
  = negb (i =? d) && bit_at bm i.
Proof.
  intros Hok Hd Hi pos. subst pos. rewrite shiftr_5, land_31.
  pose proof (Z.mod_pos_bound d 32). pose proof (Z.mod_pos_bound i 32).
  rewrite bit_at_insert; [|done| by apply pos_lt_NITEMS | done].
  rewrite Z2Nat.id by (apply Z.div_pos; lia).
  destruct (Z.eqb_spec (i / 32) (d / 32)) as [E|E].
  - rewrite wbit_land, wbit_not, wbit_single by lia. unfold bit_at. rewrite <- E, andb_comm.
    f_equal. pose proof (Z.div_mod i 32). pose proof (Z.div_mod d 32). lia.
  - destruct (Z.eqb_spec i d); [by subst | done].
Qed.

(** The test of [is_set]. *)
Lemma bit_test bm d :
  words_ok bm → 0 <= d →
  negb (Z.land (word bm (Z.to_nat (Z.shiftr d 5))) (u32_shl 1 (31 - Z.land d 31)) =? 0) = bit_at bm d.
Proof.
  intros Hok Hd. rewrite shiftr_5, land_31. pose proof (Z.mod_pos_bound d 32). unfold bit_at.
  set (w := word bm _). set (j := d mod 32) in *. assert (is_u32 w) by (subst w; auto with fastdds).
  destruct (Z.eqb_spec (Z.land w (u32_shl 1 (31 - j))) 0) as [E|E]; cbn [negb].
  - apply (f_equal (λ x, wbit x j)) in E. rewrite wbit_land, wbit_single, wbit_0 in E by lia.
    destruct (wbit w j); [|done]. rewrite Z.eqb_refl in E. done.
  - symmetry. apply not_false_is_true. intros Hf. apply E, wbit_zero.
    + apply land_range; [done|]. apply u32_shl_range.
    + intros j' Hj'. rewrite wbit_land, wbit_single by lia.
      destruct (Z.eqb_spec j' j) as [->|]; [by rewrite Hf | by destruct (wbit w j')].
Qed.

(** ** Shifting the array *)

Lemma word_fill_back n bm k :
  (n <= length bm)%nat → word (fill_back n bm) k = if decide (k < length bm - n)%nat then word bm k else 0.
Proof.
  intros Hn. unfold word, fill_back. case_decide.
  - rewrite lookup_app_l by (rewrite length_take; lia). by rewrite lookup_take_lt.
  - rewrite lookup_app_r by (rewrite length_take; lia). rewrite length_take.
    destruct (replicate n 0 !! _) as [w|] eqn:E; [|done]. by apply lookup_replicate in E as [-> _].
Qed.

Lemma word_fill_front n bm k :
  (n <= length bm)%nat → word (fill_front n bm) k = if decide (k < n)%nat then 0 else word bm k.
Proof.
  intros Hn. unfold word, fill_front. case_decide.
  - rewrite lookup_app_l by (rewrite length_replicate; lia).
    by rewrite lookup_replicate_2.
  - rewrite lookup_app_r by (rewrite length_replicate; lia).
    rewrite lookup_drop, length_replicate. do 2 f_equal. lia.
Qed.

Lemma word_copy_left n bm k :
  (n <= length bm)%nat → (k < length bm - n)%nat → word (copy_left n bm) k = word bm (k + n).
Proof.
  intros Hn Hk. unfold word, copy_left. rewrite lookup_app_l by (rewrite length_drop; lia).
  rewrite lookup_drop. do 2 f_equal. lia.
Qed.

Lemma word_copy_right n bm k :
  (n <= length bm)%nat → (n <= k)%nat → word (copy_right n bm) k = if decide (k < length bm)%nat then word bm (k - n) else 0.
Proof.
  intros Hn Hk. unfold word, copy_right. rewrite lookup_app_r by (rewrite length_take; lia).
  rewrite length_take, Nat.min_l by lia. case_decide.
  - by rewrite lookup_take_lt by lia.
  - rewrite lookup_take_ge by lia. done.
Qed.

Lemma words_ok_fill_back n bm : (n <= NITEMS)%nat → words_ok bm → words_ok (fill_back n bm).
Proof.
  intros Hn [Hl HF]. unfold fill_back. split.
  - rewrite length_app, length_take, length_replicate. lia.
  - apply Forall_app. split; [by apply Forall_take | apply Forall_replicate; zwidth].
Qed.

Lemma words_ok_fill_front n bm : (n <= NITEMS)%nat → words_ok bm → words_ok (fill_front n bm).
Proof.
  intros Hn [Hl HF]. unfold fill_front. split.
  - rewrite length_app, length_drop, length_replicate. lia.
  - apply Forall_app. split; [apply Forall_replicate; zwidth | by apply Forall_drop].
Qed.

Lemma words_ok_copy_left n bm : (n <= NITEMS)%nat → words_ok bm → words_ok (copy_left n bm).
Proof.
  intros Hn [Hl HF]. unfold copy_left. split.
  - rewrite length_app, !length_drop. lia.
  - apply Forall_app. split; by apply Forall_drop.
Qed.

Lemma words_ok_copy_right n bm : (n <= NITEMS)%nat → words_ok bm → words_ok (copy_right n bm).
Proof.
  intros Hn [Hl HF]. unfold copy_right. split.
  - rewrite length_app, !length_take. lia.
  - apply Forall_app. split; by apply Forall_take.
Qed.

Lemma words_ok_shl_loop cnt i n r ov bm :
  0 <= ov → words_ok bm → words_ok (shl_loop cnt i n r ov bm).
Proof.
  intros Hov. revert i n bm. induction cnt as [|cnt IH]; intros i n bm Hok; [done|]. cbn.
  apply IH, words_ok_insert; [done|]. auto with fastdds.
Qed.

Lemma words_ok_shr_loop n i r ov bm :
  0 <= r → words_ok bm → words_ok (shr_loop n i r ov bm).
Proof.
  intros Hov. revert i bm. induction n as [|n IH]; intros i bm Hok; [done|]. cbn [shr_loop].
  apply IH, words_ok_insert; [done|]. auto with fastdds.
Qed.

(** The loop reads each word before it overwrites it. *)
Lemma word_shl_loop cnt i n r ov bm k :
  (i <= n)%nat → (i + cnt <= length bm)%nat →
  word (shl_loop cnt i n r ov bm) k =
    if decide (i <= k < i + cnt)%nat
    then Z.lor (u32_shl (word bm (k + (n - i))) r) (Z.shiftr (word bm (k + (n - i) + 1)) ov)
    else word bm k.
Proof.
  revert i n bm. induction cnt as [|cnt IH]; intros i n bm Hin Hlen; cbn [shl_loop].
  - case_decide; [lia | done].
  - rewrite IH by (rewrite ?length_insert; lia). case_decide as E1.
    + rewrite !word_insert by lia. repeat case_decide; try lia.
      replace (k + (S n - S i))%nat with (k + (n - i))%nat by lia. done.
    + rewrite word_insert by lia. repeat case_decide; try lia.
      subst k. do 3 f_equal; f_equal; lia.
Qed.

Lemma word_shr_loop n i r ov bm k :
  (n <= i)%nat → (i < length bm)%nat →
  word (shr_loop n i r ov bm) k =
    if decide (i - n < k <= i)%nat
    then Z.lor (Z.shiftr (word bm (k - (i - n))) r) (u32_shl (word bm (k - (i - n) - 1)) ov)
    else word bm k.
Proof.
  revert i bm. induction n as [|n IH]; intros i bm Hin Hlen; cbn [shr_loop].
  - case_decide; [lia | done].
  - rewrite IH by (rewrite ?length_insert; lia). case_decide as E1.
    + rewrite !word_insert by lia. repeat case_decide; try lia.
      replace (i - 1 - n)%nat with (i - S n)%nat by lia. done.
    + rewrite word_insert by lia. repeat case_decide; try lia.
      subst k. do 3 f_equal; f_equal; lia.
Qed.

(** [n_bits] split as the code splits it. *)
Lemma shift_split n :
  0 <= n < 256 →
  ∃ q r, n = 32 * Z.of_nat q + r ∧ 0 <= r < 32 ∧ (q < 8)%nat ∧
    Z.to_nat (Z.shiftr n 5) = q ∧ Z.land n 31 = r.
Proof.
  intros Hn. destruct (bit_index n) as (q & r & E & Hr & Hq & Hr'); [lia|].
  exists q, r. rewrite shiftr_5, land_31. repeat split; try done || lia.
Qed.

Lemma word_shift_left bm n q r k :
  words_ok bm → n = 32 * Z.of_nat q + r → 0 <= r < 32 → (q < 8)%nat → (k < 8)%nat →
  word (shift_words_left n bm) k =
    Z.lor (u32_shl (word bm (k + q)) r) (if r =? 0 then 0 else Z.shiftr (word bm (k + q + 1)) (32 - r)).
Proof.
  intros Hok -> Hr Hq Hk. destruct (shift_split (32 * Z.of_nat q + r)) as (q' & r' & E & Hr' & Hq' & Es & El); [lia|].
  assert (q' = q ∧ r' = r) as [-> ->] by lia. unfold shift_words_left. rewrite Es, El.
  pose proof (proj1 Hok) as Hl. change NITEMS with 8%nat in *. destruct (Z.eqb_spec r 0) as [->|Hr0].
  - pose proof (proj1 (words_ok_copy_left q bm ltac:(change NITEMS with 8%nat; lia) Hok)) as Hl'.
    change NITEMS with 8%nat in Hl'. rewrite Z.lor_0_r, word_fill_back, Hl' by lia. unfold u32_shl. rewrite Z.shiftl_0_r, u32_small by auto with fastdds.
    case_decide; [apply word_copy_left; lia | by rewrite word_ge by lia].
  - cbn [Nat.sub]. set (bm1 := shl_loop _ _ _ _ _ _).
    assert (words_ok bm1) as Hok1 by (apply words_ok_shl_loop; [lia | done]).
    assert (∀ j, word bm1 j = if decide (j < 7 - q)%nat
              then Z.lor (u32_shl (word bm (j + q)) r) (Z.shiftr (word bm (j + q + 1)) (32 - r))
              else word bm j) as Hw1.
    { intros j. subst bm1. rewrite word_shl_loop by lia. rewrite Nat.sub_0_r.
      repeat case_decide; try lia; done. }
    pose proof (proj1 Hok1) as Hl1. change NITEMS with 8%nat in Hl1.
    rewrite word_fill_back, length_insert, Hl1 by (rewrite length_insert; lia).
    case_decide.
    + rewrite word_insert by lia. case_decide; [subst k|].
      * rewrite Hw1. case_decide; [lia|]. replace (7 - q + q)%nat with 7%nat by lia.
        rewrite (word_ge bm (7 + 1)), Z.shiftr_0_l, Z.lor_0_r by lia. done.
      * rewrite Hw1. case_decide; [done | lia].
    + rewrite !(word_ge bm) by lia. rewrite Z.shiftr_0_l. unfold u32_shl. by rewrite Z.shiftl_0_l.
Qed.

Lemma word_shift_right bm n q r k :
  words_ok bm → n = 32 * Z.of_nat q + r → 0 <= r < 32 → (q < 8)%nat → (k < 8)%nat →
  word (shift_words_right n bm) k =
    if decide (k < q)%nat then 0
    else Z.lor (Z.shiftr (word bm (k - q)) r)
               (if (r =? 0) || (k =? q)%nat then 0 else u32_shl (word bm (k - q - 1)) (32 - r)).
Proof.
  intros Hok -> Hr Hq Hk. destruct (shift_split (32 * Z.of_nat q + r)) as (q' & r' & E & Hr' & Hq' & Es & El); [lia|].
  assert (q' = q ∧ r' = r) as [-> ->] by lia. unfold shift_words_right. rewrite Es, El.
  pose proof (proj1 Hok) as Hl. change NITEMS with 8%nat in *. destruct (Z.eqb_spec r 0) as [->|Hr0].
  - pose proof (proj1 (words_ok_copy_right q bm ltac:(change NITEMS with 8%nat; lia) Hok)) as Hl'.
    change NITEMS with 8%nat in Hl'. rewrite word_fill_front by lia.
    rewrite orb_true_l, Z.lor_0_r, Z.shiftr_0_r. case_decide; [done|].
    rewrite word_copy_right by lia. case_decide; [done | lia].
  - cbn [Nat.sub orb]. set (bm1 := shr_loop _ _ _ _ _).
    assert (words_ok bm1) as Hok1 by (apply words_ok_shr_loop; [lia | done]).
    assert (∀ j, word bm1 j = if decide (q < j <= 7)%nat
              then Z.lor (Z.shiftr (word bm (j - q)) r) (u32_shl (word bm (j - q - 1)) (32 - r))
              else word bm j) as Hw1.
    { intros j. subst bm1. rewrite word_shr_loop by lia.
      replace (7 - (7 - q))%nat with q by lia. done. }
    pose proof (proj1 Hok1) as Hl1. change NITEMS with 8%nat in Hl1.
    rewrite word_fill_front by (rewrite length_insert; lia). case_decide; [done|].
    rewrite word_insert by lia. rewrite !Hw1. destruct (Nat.eqb_spec k q) as [->|].
    + repeat case_decide; try lia; try done. by rewrite Nat.sub_diag, Z.lor_0_r.
    + repeat case_decide; try lia; done.
Qed.

Lemma bit_at_shift_left bm n i :
  words_ok bm → 0 <= n < 256 → 0 <= i < 256 → bit_at (shift_words_left n bm) i = bit_at bm (i + n).
Proof.
  intros Hok Hn Hi. destruct (shift_split n Hn) as (q & r & -> & Hr & Hq & _).
  destruct (bit_index i) as (k & j & -> & Hj & _); [lia|].
  rewrite bit_at_word, (word_shift_left bm _ q r) by (done || lia).
  rewrite wbit_lor, wbit_shl by lia. destruct (Z.ltb_spec (j + r) 32).
  - replace (32 * Z.of_nat k + j + (32 * Z.of_nat q + r)) with (32 * Z.of_nat (k + q) + (j + r)) by lia.
    rewrite bit_at_word by lia. cbn [andb]. destruct (Z.eqb_spec r 0); [by rewrite wbit_0, orb_false_r|].
    rewrite wbit_shr by (auto with fastdds || lia).
    destruct (Z.leb_spec (32 - r) j); [lia|]. by rewrite orb_false_r.
  - replace (32 * Z.of_nat k + j + (32 * Z.of_nat q + r)) with (32 * Z.of_nat (k + q + 1) + (j + r - 32)) by lia.
    rewrite bit_at_word by lia. cbn [andb orb]. destruct (Z.eqb_spec r 0); [lia|].
    rewrite wbit_shr by (auto with fastdds || lia).
    destruct (Z.leb_spec (32 - r) j); [|lia]. cbn [andb]. f_equal. lia.
Qed.

Lemma bit_at_shift_right bm n i :
  words_ok bm → 0 <= n < 256 → 0 <= i < 256 →
  bit_at (shift_words_right n bm) i = (n <=? i) && bit_at bm (i - n).
Proof.
  intros Hok Hn Hi. destruct (shift_split n Hn) as (q & r & -> & Hr & Hq & _).
  destruct (bit_index i) as (k & j & -> & Hj & _); [lia|].
  rewrite bit_at_word, (word_shift_right bm _ q r) by (done || lia).
  case_decide; [rewrite wbit_0; destruct (Z.leb_spec (32 * Z.of_nat q + r) (32 * Z.of_nat k + j)); [lia | done]|].
  rewrite wbit_lor, wbit_shr by (auto with fastdds || lia). destruct (Z.leb_spec r j).
  - replace (32 * Z.of_nat k + j - (32 * Z.of_nat q + r)) with (32 * Z.of_nat (k - q) + (j - r)) by lia.
    destruct (Z.leb_spec (32 * Z.of_nat q + r) (32 * Z.of_nat k + j)); [|lia].
    rewrite bit_at_word by lia. cbn [andb]. zif; [by rewrite wbit_0, orb_false_r|].
    rewrite wbit_shl by lia. destruct (Z.ltb_spec (j + (32 - r)) 32); [lia|]. by rewrite orb_false_r.
  - cbn [andb orb]. destruct (Nat.eqb_spec k q) as [->|].
    + rewrite orb_true_r, wbit_0. destruct (Z.leb_spec (32 * Z.of_nat q + r) (32 * Z.of_nat q + j)); [lia | done].
    + destruct (Z.eqb_spec r 0); [lia|]. cbn [orb].
      replace (32 * Z.of_nat k + j - (32 * Z.of_nat q + r)) with (32 * Z.of_nat (k - q - 1) + (j + (32 - r))) by lia.
      destruct (Z.leb_spec (32 * Z.of_nat q + r) (32 * Z.of_nat k + j)); [|lia].
      rewrite bit_at_word, wbit_shl by lia. destruct (Z.ltb_spec (j + (32 - r)) 32); [done | lia].
Qed.

Lemma words_ok_shift_left n bm : 0 <= n < 256 → words_ok bm → words_ok (shift_words_left n bm).
Proof.
  intros Hn Hok. destruct (shift_split n Hn) as (q & r & _ & Hr & Hq & Es & El).
  unfold shift_words_left. rewrite Es, El.
  assert (q <= NITEMS)%nat by (change NITEMS with 8%nat; lia). zif.
  - by apply words_ok_fill_back, words_ok_copy_left.
  - apply words_ok_fill_back; [done|]. apply words_ok_insert; [|auto with fastdds].
    apply words_ok_shl_loop; [lia | done].
Qed.

Lemma words_ok_shift_right n bm : 0 <= n < 256 → words_ok bm → words_ok (shift_words_right n bm).
Proof.
  intros Hn Hok. destruct (shift_split n Hn) as (q & r & _ & Hr & Hq & Es & El).
  unfold shift_words_right. rewrite Es, El.
  assert (q <= NITEMS)%nat by (change NITEMS with 8%nat; lia). zif.
  - by apply words_ok_fill_front, words_ok_copy_right.
  - apply words_ok_fill_front; [done|]. apply words_ok_insert.
    + apply words_ok_shr_loop; [lia | done].
    + apply shiftr_range; [|lia]. apply words_ok_word, words_ok_shr_loop; [lia | done].
Qed.

(** ** Setting a range *)

Lemma full_mask_range : is_u32 full_mask.
Proof. unfold full_mask. zwidth. Qed.

#[export] Hint Resolve full_mask_range : fastdds.

Lemma add_range_loop_spec fuel : ∀ bm pos n o,
  words_ok bm → 0 <= o < 32 → 0 <= n → 32 * Z.of_nat pos + o + n <= 256 → n < Z.of_nat fuel →
  let res := add_range_loop fuel bm pos n (Z.shiftr full_mask o) (32 - o) in
  words_ok res ∧
  ∀ i, 0 <= i → bit_at res i =
    bit_at bm i || ((32 * Z.of_nat pos + o <=? i) && (i <? 32 * Z.of_nat pos + o + n)).
Proof.
  induction fuel as [|fuel IH]; intros bm pos n o Hok Ho Hn Hb Hf res; [lia|]. subst res.
  cbn [add_range_loop].
  assert (∀ x i, words_ok bm → (pos < 8)%nat → 0 <= i → bit_at (<[pos:=Z.lor (word bm pos) x]> bm) i
    = bit_at bm i || ((i / 32 =? Z.of_nat pos) && wbit x (i mod 32))) as Hins.
  { intros x i _ Hp Hi. rewrite bit_at_insert by done. unfold bit_at. rewrite wbit_lor.
    destruct (Z.eqb_spec (i / 32) (Z.of_nat pos)) as [E|E]; cbn [andb].
    - by rewrite E, Nat2Z.id.
    - by rewrite orb_false_r. }
  assert (∀ j, 0 <= j < 32 → wbit (Z.shiftr full_mask o) j = (o <=? j)) as Hmask.
  { intros j Hj. rewrite wbit_shr by (auto with fastdds || lia). destruct (Z.leb_spec o j); [|done].
    rewrite wbit_full by lia. done. }
  destruct (Z.geb_spec n (32 - o)) as [Hge|Hlt].
  - specialize (IH (<[pos := Z.lor (word bm pos) (Z.shiftr full_mask o)]> bm) (S pos) (n - (32 - o)) 0).
    destruct IH as [Hok' Hbits]; [|lia..|].
    { apply words_ok_insert; [done|]. apply lor_range; [auto with fastdds|].
      apply shiftr_range; [apply full_mask_range | lia]. }
    rewrite Z.shiftr_0_r in Hok', Hbits. split; [done|]. intros i Hi.
    rewrite Hbits, Hins by (done || lia). pose proof (Z.mod_pos_bound i 32). pose proof (Z.div_mod i 32).
    rewrite Hmask by lia. destruct (bit_at bm i); [done|]. cbn [orb]. lia.
  - destruct (Z.gtb_spec n 0) as [Hpos|Hz].
    + split.
      { apply words_ok_insert; [done|]. apply lor_range; [auto with fastdds|]. apply land_range.
        - apply shiftr_range; [apply full_mask_range | lia].
        - apply u32_shl_range. }
      intros i Hi. rewrite Hins by (done || lia). pose proof (Z.mod_pos_bound i 32). pose proof (Z.div_mod i 32).
      rewrite wbit_land, Hmask, wbit_shl by lia. destruct (bit_at bm i); [done|]. cbn [orb].
      destruct (Z.ltb_spec (i mod 32 + (32 - o - n)) 32); [|lia].
      rewrite wbit_full by lia. lia.
    + split; [done|]. intros i Hi. destruct (bit_at bm i); [done|]. cbn [orb]. lia.
Qed.

(** ** Searching the last bit set *)

Lemma calc_maximum_bit_set_spec bm i m :
  words_ok bm → (i <= 8)%nat → 0 <= m →
  let r := calc_maximum_bit_set bm i m in
  (r = 0 ∧ ∀ b, 32 * m <= b < 32 * Z.of_nat i → bit_at bm b = false) ∨
  (32 * m < r <= 32 * Z.of_nat i ∧ bit_at bm (r - 1) = true ∧
   ∀ b, r <= b < 32 * Z.of_nat i → bit_at bm b = false).
Proof.
  intros Hok Hi Hm. induction i as [|i IH]; cbn -[Z.of_nat Z.mul]; [left; split; [done|lia]|].
  destruct (Z.gtb_spec (Z.of_nat (S i)) m) as [Hgt|Hle]; [|left; split; [done|lia]].
  assert (is_u32 (word bm i)) as Hw by auto with fastdds.
  destruct (Z.eqb_spec (word bm i) 0) as [Hz|Hnz]; cbn [negb].
  - assert (∀ b, 32 * Z.of_nat i <= b < 32 * Z.of_nat (S i) → bit_at bm b = false) as Hzero.
    { intros b Hb. replace b with (32 * Z.of_nat i + (b - 32 * Z.of_nat i)) by lia.
      rewrite bit_at_word by lia. rewrite Hz. apply wbit_0. }
    destruct IH as [[-> H0]|(Hr & Ht & Hf)]; [lia| left | right].
    + split; [done|]. intros b Hb. destruct (Z.ltb_spec b (32 * Z.of_nat i)); [apply H0 | apply Hzero]; lia.
    + split; [lia|]. split; [done|]. intros b Hb.
      destruct (Z.ltb_spec b (32 * Z.of_nat i)); [apply Hf | apply Hzero]; lia.
  - right. destruct (clz_lowest_bit _ Hw Hnz) as (Hc & Ht & Hf). set (c := clz _) in *.
    rewrite Z.shiftl_mul_pow2 by lia. change (2 ^ 5) with 32. split; [lia|]. split.
    + replace (Z.of_nat i * 32 + (c + 1) - 1) with (32 * Z.of_nat i + c) by lia. by rewrite bit_at_word by lia.
    + intros b Hb. replace b with (32 * Z.of_nat i + (b - 32 * Z.of_nat i)) by lia.
      rewrite bit_at_word by lia. apply Hf. lia.
Qed.

(** ** Enumerating the bits set *)

Lemma lxor_31 o : 0 <= o < 32 → Z.lxor 31 o = 31 - o.
Proof.
  intros Ho. assert (∃ n : nat, (n < 32)%nat ∧ o = Z.of_nat n) as (n & Hn & ->).
  { exists (Z.to_nat o). lia. }
  do 32 (destruct n as [|n]; [reflexivity|]). lia.
Qed.

Lemma filter_seqZ_ext (f g : Z → bool) lo n :
  (∀ j, lo <= j < lo + n → f j = g j) → List.filter f (seqZ lo n) = List.filter g (seqZ lo n).
Proof.
  intros Hfg. apply List.filter_ext_in. intros j Hj. apply Hfg.
  apply list_elem_of_In, elem_of_seqZ in Hj. lia.
Qed.

Lemma filter_seqZ_nil (f : Z → bool) lo n :
  (∀ j, lo <= j < lo + n → f j = false) → List.filter f (seqZ lo n) = [].
Proof.
  intros Hf. rewrite (filter_seqZ_ext f (λ _, false)) by done.
  generalize (seqZ lo n). intros l. by induction l.
Qed.

Lemma filter_seqZ_split (f : Z → bool) lo c n :
  lo <= c < lo + n → (∀ j, lo <= j < c → f j = false) → f c = true →
  List.filter f (seqZ lo n) = c :: List.filter f (seqZ (c + 1) (lo + n - (c + 1))).
Proof.
  intros Hc Hlo Hf. replace n with ((c - lo) + (lo + n - c)) at 1 by lia.
  rewrite seqZ_app by lia. rewrite List.filter_app.
  assert (List.filter f (seqZ lo (c - lo)) = []) as -> by (apply filter_seqZ_nil; intros j Hj; apply Hlo; lia).
  replace (lo + (c - lo)) with c by lia. rewrite (seqZ_cons c) by lia. cbn. rewrite Hf.
  f_equal. f_equal. f_equal; lia.
Qed.

(** The loop that clears the most significant bit at each round visits the bits
    set from left to right, and 32 rounds suffice. *)
Lemma word_items_spec {T} `{BitmapItem T} fuel : ∀ bits lo (item : T),
  is_u32 bits → 0 <= lo <= 32 → (∀ j, 0 <= j < lo → wbit bits j = false) → 32 - lo <= Z.of_nat fuel →
  word_items fuel bits item = item_add item <$> List.filter (wbit bits) (seqZ lo (32 - lo)).
Proof.
  induction fuel as [|fuel IH]; intros bits lo item Hb Hlo Hz Hf; cbn [word_items].
  { replace (32 - lo) with 0 by lia. done. }
  destruct (Z.eqb_spec bits 0) as [->|Hnz].
  { rewrite filter_seqZ_nil; [done|]. intros. apply wbit_0. }
  pose proof (clz_range bits Hb Hnz) as Hc. pose proof (wbit_clz bits Hb Hnz) as Ht.
  pose proof (wbit_before_clz bits) as Hbef. rewrite lxor_31 by done. set (c := clz bits) in *.
  assert (lo <= c) as Hloc.
  { apply Z.nlt_ge. intros Hlt. rewrite Hz in Ht by lia. done. }
  set (bits' := Z.land _ _).
  assert (is_u32 bits') as Hb'.
  { apply land_range; [done | apply u32_not_range]. }
  assert (∀ j, 0 <= j < 32 → wbit bits' j = negb (j =? c) && wbit bits j) as Hw.
  { intros j Hj. subst bits'. rewrite wbit_land, wbit_not, wbit_single by lia. apply andb_comm. }
  rewrite (IH bits' (c + 1)); [| done | lia | | lia].
  - rewrite (filter_seqZ_split (wbit bits) lo c); [|lia | | done].
    + cbn. f_equal. f_equal. replace (lo + (32 - lo) - (c + 1)) with (32 - (c + 1)) by lia.
      apply filter_seqZ_ext. intros j Hj. rewrite Hw by lia.
      destruct (Z.eqb_spec j c); [lia | done].
    + intros j Hj. apply Hbef; [done..|lia].
  - intros j Hj. rewrite Hw by lia. destruct (Z.eqb_spec j c); [done|]. cbn.
    apply Hbef; [done..|lia].
Qed.

Lemma word_items_nil {T} `{BitmapItem T} fuel (item : T) : word_items fuel 0 item = [].
Proof. by destruct fuel. Qed.

Lemma word_items_cons {T} `{BitmapItem T} fuel bits (item : T) :
  bits ≠ 0 → ∃ l, word_items (S fuel) bits item = item_add item (clz bits) :: l.
Proof. intros Hnz. cbn. destruct (Z.eqb_spec bits 0); [done | eauto]. Qed.

(** [min()] is the first item [for_each] visits. *)
Lemma min_words_head {T} `{BitmapItem T} n : ∀ i bm (item : T),
  min_words n i bm item = head (for_each_words n i bm item).
Proof.
  induction n as [|n IH]; intros i bm item; [done|]. cbn [min_words for_each_words].
  destruct (Z.eqb_spec (word bm i) 0) as [E|E]; cbn [negb].
  - rewrite E, word_items_nil. apply IH.
  - destruct (word_items_cons 31 (word bm i) item E) as [l ->]. done.
Qed.

(** Arrays with the same bits are the same. *)
Lemma words_ext a b :
  words_ok a → words_ok b → (∀ i, 0 <= i < 256 → bit_at a i = bit_at b i) → a = b.
Proof.
  intros Ha Hb He. apply list_eq_same_length with NITEMS; [apply Hb | apply Ha |].
  intros k x y Hk Hx Hy. assert (word a k = x) as <- by (unfold word; by rewrite Hx).
  assert (word b k = y) as <- by (unfold word; by rewrite Hy).
  apply wbit_ext; [by apply words_ok_word..|]. intros j Hj. rewrite <- !bit_at_word by done.
  apply He. change NITEMS with 8%nat in Hk. lia.
Qed.
