(* ===== verification/BitmapFacts.v ===== *)
(** * What the bitmap ranges guarantee

    [bm_ok] is the class invariant of [BitmapRange]; [bm_bits b z] says that the
    element of value [z] is present. Every operation is shown to preserve the
    invariant and to have the intended effect on the elements present. *)

From Stdlib Require Import ZArith Lia ZifyBool.
From stdpp Require Import base numbers list option list_numbers.
From S2P Require Import Prelude BitWord SequenceNumber BitmapRange BitmapWords.

Open Scope Z_scope.

(** ** What the template asks of its element type *)

Class BitmapItemLaws (T : Type) `{BitmapItem T} := {
  item_val : T → Z;
  item_wf : T → Prop;
  item_bound : Z;
  item_val_range a : item_wf a → 0 <= item_val a < item_bound;
  item_val_inj a b : item_wf a → item_wf b → item_val a = item_val b → a = b;
  item_eqb_val a b : item_wf a → item_wf b → item_eqb a b = (item_val a =? item_val b);
  item_geb_val a b : item_wf a → item_wf b → item_geb a b = (item_val a >=? item_val b);
  item_gtb_val a b : item_wf a → item_wf b → item_gtb a b = (item_val a >? item_val b);
  item_diff_val a b : item_wf a → item_wf b → item_val b <= item_val a →
    item_diff a b = u32 (item_val a - item_val b);
  item_add_val a n : item_wf a → is_u32 n → item_val a + n < item_bound →
    item_wf (item_add a n) ∧ item_val (item_add a n) = item_val a + n
}.

#[global] Program Instance SequenceNumber_laws : BitmapItemLaws SequenceNumber_t := {
  item_val := snz;
  item_wf := λ s, sn_wf s ∧ 0 <= snz s;
  item_bound := 2 ^ 63
}.
Next Obligation. intros a [Ha ?]. pose proof (snz_range a Ha). lia. Qed.
Next Obligation. intros a b [] []. by apply sn_val_inj. Qed.
Next Obligation. intros a b [] []. by apply sn_eqb_snz. Qed.
Next Obligation. intros a b [] []. by apply sn_geb_snz. Qed.
Next Obligation. intros a b [] []. by apply sn_gtb_snz. Qed.
Next Obligation. intros a b [] [] ?. apply SequenceNumberDiff_snz; [done..|lia]. Qed.
Next Obligation.
  intros a n [Ha ?] Hn ?. destruct (sn_add_u32_snz a n Ha Hn ltac:(lia)) as [Hwf E].
  cbn in *. rewrite E. split; [split; [done | zwidth] | done].
Qed.

#[global] Program Instance FragmentNumber_laws : BitmapItemLaws FragmentNumber_t := {
  item_val := λ a, a;
  item_wf := is_u32;
  item_bound := 2 ^ 32
}.
Next Obligation. intros a Ha. apply Ha. Qed.
Next Obligation. done. Qed.
Next Obligation. done. Qed.
Next Obligation. done. Qed.
Next Obligation. done. Qed.
Next Obligation. done. Qed.
Next Obligation.
  cbn. intros a n Ha Hn ?. rewrite u32_small by zwidth. split; [zwidth | done].
Qed.

Section Facts.
Context {T : Type} `{BitmapItemLaws T}.
Implicit Types b : BitmapRange T.

(** The class invariant: [num_bits_] is one more than the last bit set (0 when
    there is none), and the window fits the element type. *)
Record bm_ok b : Prop := {
  ok_words : words_ok (bitmap_ b);
  ok_num : 0 <= num_bits_ b <= 256;
  ok_high : ∀ i, num_bits_ b <= i < 256 → bit_at (bitmap_ b) i = false;
  ok_last : 0 < num_bits_ b → bit_at (bitmap_ b) (num_bits_ b - 1) = true;
  ok_base : item_wf (base_ b);
  ok_room : item_val (base_ b) + 256 < item_bound;
  ok_max : item_wf (range_max_ b);
  ok_window : item_val (base_ b) <= item_val (range_max_ b) <= item_val (base_ b) + 255
}.

(** Element of value [z] present (what [for_each] visits). *)
Definition bm_bits b (z : Z) : bool :=
  (item_val (base_ b) <=? z) && bit_at (bitmap_ b) (z - item_val (base_ b)).

(** Element of value [z] reported by [is_set]. *)
Definition bm_mem b (z : Z) : bool := (z <=? item_val (range_max_ b)) && bm_bits b z.

Lemma bm_bits_bound b z : bm_ok b → bm_bits b z = true →
  item_val (base_ b) <= z < item_val (base_ b) + num_bits_ b.
Proof.
  intros Hok Hb. unfold bm_bits in Hb. apply andb_prop in Hb as [Hle Hb].
  destruct (Z.ltb_spec z (item_val (base_ b) + num_bits_ b)); [lia|].
  destruct (Z.ltb_spec (z - item_val (base_ b)) 256).
  - rewrite (ok_high b Hok) in Hb by lia. done.
  - rewrite bit_at_ge in Hb by (apply Hok || lia). done.
Qed.

Lemma in_range_spec b x :
  bm_ok b → item_wf x →
  in_range b x = (item_val (base_ b) <=? item_val x) && (item_val x <=? item_val (range_max_ b)).
Proof.
  intros Hok Hx. unfold in_range. rewrite !item_geb_val by (apply Hok || done). lia.
Qed.

Lemma diff_in_range b x :
  bm_ok b → item_wf x → in_range b x = true →
  item_diff x (base_ b) = item_val x - item_val (base_ b) ∧ 0 <= item_val x - item_val (base_ b) < 256.
Proof.
  intros Hok Hx Hr. rewrite in_range_spec in Hr by done. pose proof (ok_window b Hok).
  rewrite item_diff_val by (apply Hok || done || lia). rewrite u32_small by zwidth. lia.
Qed.

(** The index [add] and [is_set] use is inside the array. *)
Lemma add_pos_in_bounds b x :
  bm_ok b → item_wf x → in_range b x = true →
  (Z.to_nat (Z.shiftr (item_diff x (base_ b)) 5) < NITEMS)%nat.
Proof.
  intros Hok Hx Hr. destruct (diff_in_range b x Hok Hx Hr) as [-> ?].
  rewrite shiftr_5. by apply pos_lt_NITEMS.
Qed.

Lemma bm_is_set_spec b x : bm_ok b → item_wf x → bm_is_set b x = bm_mem b (item_val x).
Proof.
  intros Hok Hx. unfold bm_is_set, bm_mem, bm_bits.
  destruct (in_range b x) eqn:Hr.
  - destruct (diff_in_range b x Hok Hx Hr) as [-> Hd]. rewrite in_range_spec in Hr by done.
    replace (item_val x <=? item_val (range_max_ b)) with true by lia.
    replace (item_val (base_ b) <=? item_val x) with true by lia. cbn [andb].
    destruct (Z.ltb_spec (item_val x - item_val (base_ b)) (num_bits_ b)).
    + apply bit_test; [apply Hok | lia].
    + symmetry. apply (ok_high b Hok). lia.
  - rewrite in_range_spec in Hr by done.
    destruct (item_val x <=? item_val (range_max_ b)); [|done].
    rewrite andb_true_r in Hr. by rewrite Hr.
Qed.

(** *** Construction *)

Lemma bm_fresh_ok base n :
  item_wf base → 0 <= n <= 255 → item_val base + 256 < item_bound →
  bm_ok (Bitmap base (item_add base n) zero_bitmap 0).
Proof.
  intros Hb Hn Hroom. destruct (item_add_val base n) as [Hwf E]; [done | zwidth | lia |].
  constructor; cbn; try done; try lia.
  - apply words_ok_zero.
  - intros. apply bit_at_zero.
Qed.

Lemma bm_make_max_ok base n :
  item_wf base → 0 <= n → item_val base + 256 < item_bound → bm_ok (bm_make_max base n).
Proof. intros. unfold bm_make_max, NBITS. apply bm_fresh_ok; [done | lia | done]. Qed.

Lemma bm_make_ok base : item_wf base → item_val base + 256 < item_bound → bm_ok (bm_make base).
Proof. intros. apply bm_make_max_ok; done. Qed.

Lemma bm_set_base_ok base : item_wf base → item_val base + 256 < item_bound → bm_ok (bm_set_base base).
Proof. intros. apply bm_fresh_ok; [done | unfold NBITS; lia | done]. Qed.

Lemma bm_bits_make base z : bm_bits (bm_make base) z = false.
Proof. unfold bm_bits. cbn. by rewrite bit_at_zero, andb_false_r. Qed.

Lemma bm_bits_set_base base z : bm_bits (bm_set_base base) z = false.
Proof. unfold bm_bits. cbn. by rewrite bit_at_zero, andb_false_r. Qed.

(** [empty()] says that no element is present. *)
Lemma bm_empty_spec b : bm_ok b → bm_empty b = true ↔ ∀ z, bm_bits b z = false.
Proof.
  intros Hok. unfold bm_empty. pose proof (ok_num b Hok). split.
  - intros Hz z. apply not_true_is_false. intros Hb. apply bm_bits_bound in Hb; [lia | done].
  - intros Hall. apply Z.eqb_eq. destruct (Z.eq_dec (num_bits_ b) 0); [done|].
    pose proof (ok_last b Hok ltac:(lia)) as Hl.
    specialize (Hall (item_val (base_ b) + (num_bits_ b - 1))). unfold bm_bits in Hall.
    replace (item_val (base_ b) + (num_bits_ b - 1) - item_val (base_ b)) with (num_bits_ b - 1) in Hall by lia.
    rewrite Hl in Hall. lia.
Qed.

Lemma bm_max_spec b :
  bm_ok b → bm_empty b = false →
  item_wf (bm_max b) ∧ item_val (bm_max b) = item_val (base_ b) + num_bits_ b - 1 ∧
  bm_bits b (item_val (bm_max b)) = true ∧ ∀ z, item_val (bm_max b) < z → bm_bits b z = false.
Proof.
  intros Hok He. unfold bm_empty in He. pose proof (ok_num b Hok). pose proof (ok_room b Hok).
  unfold bm_max. rewrite u32_small by zwidth.
  destruct (item_add_val (base_ b) (num_bits_ b - 1)) as [Hwf E]; [apply Hok | zwidth | lia |].
  rewrite E. split; [done|]. split; [lia|]. split.
  - unfold bm_bits. replace (_ <=? _) with true by lia. cbn [andb].
    replace (_ + _ - _) with (num_bits_ b - 1) by lia. apply Hok. lia.
  - intros z Hz. apply not_true_is_false. intros Hb. apply bm_bits_bound in Hb; [lia | done].
Qed.

(** *** [add] *)

Lemma bm_add_spec b x :
  bm_ok b → item_wf x →
  snd (bm_add b x) = in_range b x ∧ bm_ok (fst (bm_add b x)) ∧
  base_ (fst (bm_add b x)) = base_ b ∧ range_max_ (fst (bm_add b x)) = range_max_ b ∧
  ∀ z, bm_bits (fst (bm_add b x)) z = (in_range b x && (z =? item_val x)) || bm_bits b z.
Proof.
  intros Hok Hx. unfold bm_add. destruct (in_range b x) eqn:Hr; cbn [fst snd]; [|done].
  destruct (diff_in_range b x Hok Hx Hr) as [-> Hd]. rewrite in_range_spec in Hr by done.
  set (d := item_val x - item_val (base_ b)) in *.
  pose proof (bit_at_set (bitmap_ b) d) as Hset. cbn in Hset.
  split; [done|]. split; [|split; [done|split; [done|]]].
  - rewrite (u32_small (d + 1)) by zwidth. pose proof (ok_num b Hok).
    constructor; cbn; try apply Hok.
    + apply words_ok_insert; [apply Hok|]. apply lor_range; [apply words_ok_word, Hok | apply u32_shl_range].
    + lia.
    + intros i Hi. rewrite Hset by (apply Hok || lia). rewrite (ok_high b Hok) by lia. lia.
    + intros _. rewrite Hset by (apply Hok || lia).
      destruct (Z.eqb_spec (Z.max (d + 1) (num_bits_ b) - 1) d); [done|].
      replace (Z.max (d + 1) (num_bits_ b)) with (num_bits_ b) by lia. apply Hok. lia.
  - intros z. unfold bm_bits. cbn. destruct (Z.leb_spec (item_val (base_ b)) z); cbn [andb]; [|lia].
    rewrite Hset by (apply Hok || lia). f_equal. lia.
Qed.

(** *** [add_range] *)

Lemma bm_add_range_spec b from to :
  bm_ok b → item_wf from → item_wf to →
  bm_ok (bm_add_range b from to) ∧
  base_ (bm_add_range b from to) = base_ b ∧ range_max_ (bm_add_range b from to) = range_max_ b ∧
  ∀ z, bm_bits (bm_add_range b from to) z =
    bm_bits b z || ((Z.max (item_val from) (item_val (base_ b)) <=? z) &&
                    (z <? Z.min (item_val to) (item_val (base_ b) + 256))).
Proof.
  intros Hok Hf Ht. pose proof (ok_room b Hok) as Hroom. pose proof (ok_base b Hok) as Hbase.
  pose proof (ok_num b Hok) as Hnum.
  destruct (item_add_val (base_ b) NBITS) as [Hwe Ee]; [done | unfold NBITS; zwidth | unfold NBITS; lia |].
  unfold bm_add_range.
  set (mn := if item_geb (base_ b) from then base_ b else from).
  set (mx := if item_geb to (item_add (base_ b) NBITS) then item_add (base_ b) NBITS else to).
  assert (item_wf mn ∧ item_val mn = Z.max (item_val from) (item_val (base_ b))) as [Hwmn Emn].
  { subst mn. rewrite item_geb_val by done. zif; split; done || lia. }
  assert (item_wf mx ∧ item_val mx = Z.min (item_val to) (item_val (base_ b) + 256)) as [Hwmx Emx].
  { subst mx. rewrite item_geb_val, Ee by done. unfold NBITS in *. zif; split; done || lia. }
  rewrite item_geb_val, <- Emn, <- Emx by done. clearbody mn mx.
  destruct (Z.geb_spec (item_val mn) (item_val mx)) as [Hge|Hlt].
  - split; [done|]. split; [done|]. split; [done|]. intros z. destruct (bm_bits b z); [done|]. cbn [orb]. lia.
  - rewrite !item_diff_val by (done || lia).
    set (o := item_val mn - item_val (base_ b)). set (n := item_val mx - item_val mn).
    rewrite (u32_small o), (u32_small n), (u32_small (o + n)), shiftr_5, land_31 by (subst o n; zwidth).
    destruct (add_range_loop_spec (S (Z.to_nat n)) (bitmap_ b) (Z.to_nat (o / 32)) n (o mod 32))
      as [Hw Hbits].
    { apply Hok. } { apply Z.mod_pos_bound. lia. } { subst n; lia. }
    { rewrite Z2Nat.id by (apply Z.div_pos; subst o; lia). pose proof (Z.div_mod o 32). subst o n; lia. }
    { lia. }
    assert (32 * Z.of_nat (Z.to_nat (o / 32)) + o mod 32 = o) as Eo.
    { rewrite Z2Nat.id by (apply Z.div_pos; subst o; lia). pose proof (Z.div_mod o 32). lia. }
    rewrite Eo in Hbits. set (bm' := add_range_loop _ _ _ _ _ _) in *. clearbody bm'.
    assert (0 <= o ∧ 0 < n ∧ o + n <= 256) as Hon by (subst o n; lia).
    split; [|split; [done|split; [done|]]].
    + constructor; cbn; try apply Hok; try done || lia.
      * intros i Hi. rewrite Hbits, (ok_high b Hok) by lia. lia.
      * intros _. rewrite Hbits by lia. destruct (Z.leb_spec (num_bits_ b) (o + n)).
        { replace (Z.max _ _) with (o + n) by lia. destruct (bit_at _ _); [done|]. cbn [orb]. lia. }
        { replace (Z.max _ _) with (num_bits_ b) by lia. rewrite (ok_last b Hok) by lia. done. }
    + intros z. unfold bm_bits. cbn. destruct (Z.leb_spec (item_val (base_ b)) z); cbn [andb orb]; [|lia].
      rewrite Hbits by lia. f_equal. subst o n. lia.
Qed.

(** *** [remove] *)

(** Recomputing [num_bits_] re-establishes the invariant. *)
Lemma calc_maximum_ok b bm i :
  bm_ok b → words_ok bm → (i <= 8)%nat → (∀ j, 32 * Z.of_nat i <= j < 256 → bit_at bm j = false) →
  bm_ok (Bitmap (base_ b) (range_max_ b) bm (calc_maximum_bit_set bm i 0)).
Proof.
  intros Hok Hw Hi Hhi. pose proof (calc_maximum_bit_set_spec bm i 0 Hw Hi ltac:(lia)) as Hc. cbn in Hc.
  destruct Hc as [[-> Hf]|(Hr & Ht & Hf)]; constructor; cbn; try apply Hok; try done || lia.
  - intros j Hj. destruct (Z.ltb_spec j (32 * Z.of_nat i)); [apply Hf | apply Hhi]; lia.
  - intros j Hj. destruct (Z.ltb_spec j (32 * Z.of_nat i)); [apply Hf | apply Hhi]; lia.
Qed.

Lemma bm_remove_spec b x :
  bm_ok b → item_wf x → bm_empty b = false →
  ∃ b', bm_remove b x = Some b' ∧ bm_ok b' ∧ base_ b' = base_ b ∧ range_max_ b' = range_max_ b ∧
    ∀ z, bm_bits b' z = negb (z =? item_val x) && bm_bits b z.
Proof.
  intros Hok Hx He. destruct (bm_max_spec b Hok He) as (Hwm & Em & _ & _).
  pose proof (ok_num b Hok) as Hnum. unfold bm_empty in He. unfold bm_remove.
  rewrite !item_geb_val, item_eqb_val by (done || apply Hok).
  destruct ((item_val x >=? item_val (base_ b)) && (item_val (bm_max b) >=? item_val x)) eqn:Hr.
  - rewrite item_diff_val by (done || apply Hok || lia).
    set (d := item_val x - item_val (base_ b)). rewrite (u32_small d) by (subst d; zwidth).
    assert (0 <= d < 256) as Hd by (subst d; lia).
    pose proof (bit_at_clear (bitmap_ b) d) as Hclr. cbn in Hclr.
    replace (_ <? NITEMS)%nat with true
      by (symmetry; apply Nat.ltb_lt; rewrite shiftr_5; by apply pos_lt_NITEMS).
    set (bm := <[_ := _]> (bitmap_ b)) in *.
    assert (words_ok bm) as Hw.
    { subst bm. apply words_ok_insert; [apply Hok|]. apply land_range; [apply words_ok_word, Hok | apply u32_not_range]. }
    eexists. split; [done|]. cbn [base_ range_max_]. split; [|split; [done|split; [done|]]].
    + destruct (Z.eqb_spec (item_val x) (item_val (bm_max b))) as [Ex|Ex].
      * apply calc_maximum_ok; [done | done | |].
        { rewrite shiftr_5. pose proof (pos_lt_NITEMS d Hd). change NITEMS with 8%nat in *. lia. }
        intros j Hj. assert (num_bits_ b = d + 1) as En by (subst d; lia).
        assert (d < j) as Hjd.
        { rewrite shiftr_5 in Hj. pose proof (Z.div_mod d 32). pose proof (Z.mod_pos_bound d 32).
          rewrite Nat2Z.inj_succ, Z2Nat.id in Hj by (apply Z.div_pos; lia). lia. }
        rewrite Hclr by (apply Hok || lia). rewrite (ok_high b Hok) by lia. apply andb_false_r.
      * constructor; cbn; try apply Hok; try done.
        { intros j Hj. rewrite Hclr by (apply Hok || lia). rewrite (ok_high b Hok) by lia. apply andb_false_r. }
        { intros Hn. rewrite Hclr by (apply Hok || lia). rewrite (ok_last b Hok) by lia. subst d. lia. }
    + intros z. unfold bm_bits. cbn. destruct (Z.leb_spec (item_val (base_ b)) z); cbn [andb]; [|lia].
      rewrite Hclr by (apply Hok || lia). f_equal. subst d. lia.
  - exists b. split; [done|]. split; [done|]. split; [done|]. split; [done|]. intros z.
    destruct (Z.eqb_spec z (item_val x)) as [->|]; [|done]. cbn [negb andb].
    apply not_true_is_false. intros Hb. apply bm_bits_bound in Hb; [lia | done].
Qed.

(** *** [base_update] *)

Definition bm_rebase b' (base : T) : BitmapRange T :=
  Bitmap base (item_add base (NBITS - 1)) (bitmap_ b') (num_bits_ b').

(** A shifted array under a new base. *)
Lemma bm_rebase_ok base bm n :
  words_ok bm → 0 <= n <= 256 → (∀ i, n <= i < 256 → bit_at bm i = false) →
  (0 < n → bit_at bm (n - 1) = true) → item_wf base → item_val base + 256 < item_bound →
  bm_ok (Bitmap base (item_add base (NBITS - 1)) bm n).
Proof.
  intros Hw Hn Hhi Hl Hb Hr.
  destruct (item_add_val base (NBITS - 1)) as [Hwf E]; [done | unfold NBITS; zwidth | unfold NBITS; lia |].
  change (NBITS - 1) with 255 in *. constructor; cbn; done || lia.
Qed.

Lemma bm_shift_left_bits b n i :
  bm_ok b → 0 <= n → 0 <= i →
  bit_at (bitmap_ (shift_map_left n b)) i = (i <? 256) && bit_at (bitmap_ b) (i + n).
Proof.
  intros Hok Hn Hi. pose proof (ok_num b Hok). unfold shift_map_left.
  destruct (Z.geb_spec n (num_bits_ b)); cbn [bitmap_].
  - rewrite bit_at_zero. destruct (Z.ltb_spec (i + n) 256).
    + rewrite (ok_high b Hok) by lia. by rewrite andb_false_r.
    + rewrite bit_at_ge by (apply Hok || lia). by rewrite andb_false_r.
  - destruct (Z.ltb_spec i 256).
    + apply bit_at_shift_left; [apply Hok | lia..].
    + apply bit_at_ge; [|done]. apply words_ok_shift_left; [lia | apply Hok].
Qed.

Lemma bm_shift_right_bits b n i :
  bm_ok b → 0 <= n → 0 <= i →
  bit_at (bitmap_ (shift_map_right n b)) i = (i <? 256) && (n <=? i) && bit_at (bitmap_ b) (i - n).
Proof.
  intros Hok Hn Hi. unfold shift_map_right, NBITS. destruct (Z.geb_spec n 256); cbn [bitmap_].
  - rewrite bit_at_zero. destruct (i <? 256) eqn:?; destruct (n <=? i) eqn:?; done || lia.
  - destruct (Z.ltb_spec i 256).
    + apply bit_at_shift_right; [apply Hok | lia..].
    + apply bit_at_ge; [|done]. apply words_ok_shift_right; [lia | apply Hok].
Qed.

Lemma bm_rebase_left_ok b base n :
  bm_ok b → 0 <= n → item_wf base → item_val base + 256 < item_bound →
  bm_ok (bm_rebase (shift_map_left n b) base).
Proof.
  intros Hok Hn Hb Hr. pose proof (ok_num b Hok). pose proof (bm_shift_left_bits b n) as Hbits.
  unfold bm_rebase. unfold shift_map_left in *. destruct (Z.geb_spec n (num_bits_ b)); cbn [bitmap_ num_bits_] in *.
  - apply bm_fresh_ok; [done | unfold NBITS; lia | done].
  - apply bm_rebase_ok; try done || lia.
    + apply words_ok_shift_left; [lia | apply Hok].
    + intros i Hi. rewrite Hbits by (done || lia). destruct (Z.ltb_spec (i + n) 256).
      * rewrite (ok_high b Hok) by lia. by rewrite andb_false_r.
      * rewrite bit_at_ge by (apply Hok || lia). by rewrite andb_false_r.
    + intros _. rewrite Hbits by (done || lia). replace (_ + n) with (num_bits_ b - 1) by lia.
      rewrite (ok_last b Hok) by lia. lia.
Qed.

Lemma bm_rebase_right_ok b base n :
  bm_ok b → bm_empty b = false → 0 <= n → item_wf base → item_val base + 256 < item_bound →
  bm_ok (bm_rebase (shift_map_right n b) base).
Proof.
  intros Hok He Hn Hb Hr. unfold bm_empty in He. pose proof (ok_num b Hok).
  pose proof (bm_shift_right_bits b n) as Hbits. unfold bm_rebase. unfold shift_map_right, NBITS in *.
  destruct (Z.geb_spec n 256); cbn [bitmap_ num_bits_] in *.
  { apply bm_fresh_ok; [done | lia | done]. }
  rewrite u32_small in * by zwidth. set (bm := shift_words_right n (bitmap_ b)) in *.
  assert (words_ok bm) as Hw by (apply words_ok_shift_right; [lia | apply Hok]).
  destruct (Z.gtb_spec (num_bits_ b + n) 256).
  - assert (0 <= Z.shiftr n 5) as Hq by (apply Z.shiftr_nonneg; lia).
    assert (32 * Z.shiftr n 5 <= n) as Hle by (rewrite shiftr_5; apply Z.mul_div_le; lia).
    pose proof (calc_maximum_bit_set_spec bm NITEMS (Z.shiftr n 5) Hw ltac:(reflexivity) Hq) as Hc.
    cbn zeta in Hc. change (32 * Z.of_nat NITEMS) with 256 in Hc.
    destruct Hc as [[-> Hf]|(Hrr & Ht & Hf)]; apply bm_rebase_ok; try done || lia.
    intros i Hi. destruct (Z.ltb_spec i (32 * Z.shiftr n 5)); [|apply Hf; lia].
    rewrite Hbits by (done || lia). destruct (Z.leb_spec n i); [lia|]. by rewrite andb_false_r.
  - apply bm_rebase_ok; try done || lia.
    + intros i Hi. rewrite Hbits by (done || lia). rewrite (ok_high b Hok) by lia. apply andb_false_r.
    + intros _. rewrite Hbits by (done || lia). replace (_ - n) with (num_bits_ b - 1) by lia.
      rewrite (ok_last b Hok) by lia. lia.
Qed.

Lemma bm_base_update_spec b base :
  bm_ok b → item_wf base → item_val base + 256 < item_bound →
  Z.abs (item_val base - item_val (base_ b)) < 2 ^ 32 →
  (item_val base < item_val (base_ b) → bm_empty b = false) →
  (item_val base = item_val (base_ b) → item_val (range_max_ b) = item_val base + 255) →
  bm_ok (bm_base_update base b) ∧ base_ (bm_base_update base b) = base ∧
  item_val (range_max_ (bm_base_update base b)) = item_val base + 255 ∧
  ∀ z, bm_bits (bm_base_update base b) z =
    (item_val base <=? z) && (z <? item_val base + 256) && bm_bits b z.
Proof.
  intros Hok Hb Hroom Hd Hne Heq. pose proof (ok_base b Hok) as Hbb. pose proof (ok_num b Hok) as Hnum.
  destruct (item_add_val base (NBITS - 1)) as [Hwm Em]; [done | unfold NBITS; zwidth | unfold NBITS; lia |].
  unfold NBITS in Em. unfold bm_base_update. rewrite item_eqb_val by done.
  destruct (Z.eqb_spec (item_val base) (item_val (base_ b))) as [E|E].
  - split; [done|]. split; [by apply item_val_inj|]. split; [auto|]. intros z.
    destruct (bm_bits b z) eqn:Ez; [|by rewrite andb_false_r]. apply bm_bits_bound in Ez; [lia | done].
  - rewrite item_gtb_val by done. destruct (Z.gtb_spec (item_val base) (item_val (base_ b))) as [Hgt|Hlt].
    + rewrite item_diff_val, u32_small by (done || zwidth). set (n := item_val base - item_val (base_ b)).
      split; [apply (bm_rebase_left_ok b base n); done || (subst n; lia)|]. split; [done|]. split; [done|].
      intros z. unfold bm_bits. cbn. destruct (Z.leb_spec (item_val base) z); cbn [andb]; [|done].
      rewrite bm_shift_left_bits by (done || (subst n; lia)). subst n.
      replace (item_val (base_ b) <=? z) with true by lia.
      replace (z - item_val base + (item_val base - item_val (base_ b))) with (z - item_val (base_ b)) by lia.
      f_equal. lia.
    + rewrite item_diff_val, u32_small by (done || zwidth). set (n := item_val (base_ b) - item_val base).
      split; [apply (bm_rebase_right_ok b base n); done || (subst n; lia) || (apply Hne; lia)|].
      split; [done|]. split; [done|].
      intros z. unfold bm_bits. cbn. destruct (Z.leb_spec (item_val base) z); cbn [andb]; [|done].
      rewrite bm_shift_right_bits by (done || (subst n; lia)). subst n.
      replace (z - item_val base - (item_val (base_ b) - item_val base)) with (z - item_val (base_ b)) by lia.
      rewrite <- andb_assoc. f_equal; [lia|]. f_equal. lia.
Qed.

(** *** [for_each] and [min] *)

Lemma word_items_val bits (item : T) lo :
  is_u32 bits → item_wf item → item_val item + 32 <= item_bound → lo = item_val item →
  Forall item_wf (word_items 32 bits item) ∧
  item_val <$> word_items 32 bits item = List.filter (λ z, wbit bits (z - lo)) (seqZ lo 32).
Proof.
  intros Hb Hi Hr ->. rewrite (word_items_spec 32 bits 0) by (done || lia). rewrite Z.sub_0_r.
  assert (Forall (λ j, 0 <= j < 32) (List.filter (wbit bits) (seqZ 0 32))) as Hj.
  { apply List.Forall_forall. intros j [Hj _]%List.filter_In.
    apply list_elem_of_In, elem_of_seqZ in Hj. lia. }
  assert (Forall (λ j, item_wf (item_add item j) ∧ item_val (item_add item j) = item_val item + j)
            (List.filter (wbit bits) (seqZ 0 32))) as Hv.
  { eapply Forall_impl; [exact Hj|]. intros j ?. cbn in *. apply item_add_val; [done | zwidth | lia]. }
  split; [apply Forall_fmap; eapply Forall_impl; [exact Hv | by intros ? []]|].
  rewrite <- list_fmap_compose. transitivity ((λ j, item_val item + j) <$> List.filter (wbit bits) (seqZ 0 32)).
  { apply list_fmap_ext. intros k j Hk. eapply Forall_lookup_1 in Hv as [_ ?]; done. }
  assert (seqZ (item_val item) 32 = Z.add (item_val item) <$> seqZ 0 32) as ->
    by (rewrite fmap_add_seqZ; f_equal; lia).
  generalize (seqZ 0 32). intros l. induction l as [|j l IH]; [done|]. cbn.
  replace (item_val item + j - item_val item) with j by lia. destruct (wbit bits j); cbn; by rewrite IH.
Qed.

Lemma for_each_words_val n : ∀ i bm (item : T),
  Forall is_u32 bm → item_wf item → item_val item + 32 * Z.of_nat n < item_bound →
  Forall item_wf (for_each_words n i bm item) ∧
  item_val <$> for_each_words n i bm item =
    List.filter (λ z, bit_at bm (32 * Z.of_nat i + (z - item_val item))) (seqZ (item_val item) (32 * Z.of_nat n)).
Proof.
  induction n as [|n IH]; intros i bm item Hbm Hi Hr; [done|]. cbn [for_each_words].
  destruct (word_items_val (word bm i) item (item_val item)) as [HF1 E1];
    [by apply word_u32 | done | lia | done |].
  destruct (item_add_val item 32) as [Hwf Ev]; [done | zwidth | lia |].
  destruct (IH (S i) bm (item_add item 32)) as [HF2 E2]; [done | done | lia |].
  split; [by apply Forall_app|]. rewrite fmap_app, E1, E2, Ev.
  replace (32 * Z.of_nat (S n)) with (32 + 32 * Z.of_nat n) by lia.
  rewrite seqZ_app, List.filter_app by lia. f_equal.
  - apply filter_seqZ_ext. intros z Hz. by rewrite bit_at_word by lia.
  - apply filter_seqZ_ext. intros z Hz. f_equal. lia.
Qed.

Lemma bm_for_each_val b :
  bm_ok b →
  Forall item_wf (bm_for_each b) ∧
  item_val <$> bm_for_each b = List.filter (bm_bits b) (seqZ (item_val (base_ b)) 256).
Proof.
  intros Hok. pose proof (ok_num b Hok). pose proof (ok_room b Hok).
  assert (0 <= (num_bits_ b + 31) / 32 ∧ 32 * ((num_bits_ b + 31) / 32) <= 256 ∧
          num_bits_ b <= 32 * ((num_bits_ b + 31) / 32)) as Hq.
  { pose proof (Z.div_mod (num_bits_ b + 31) 32). pose proof (Z.mod_pos_bound (num_bits_ b + 31) 32).
    assert ((num_bits_ b + 31) / 32 <= 8) by (apply Z.lt_succ_r, Z.div_lt_upper_bound; lia). lia. }
  unfold bm_for_each, n_longs. destruct (for_each_words_val (Z.to_nat ((num_bits_ b + 31) / 32)) 0 (bitmap_ b) (base_ b))
    as [HF E]; [apply (ok_words b Hok) | apply Hok | lia |].
  split; [done|]. rewrite E, Z2Nat.id by lia. set (q := 32 * _) in *.
  replace 256 with (q + (256 - q)) by lia. rewrite seqZ_app, List.filter_app by lia.
  rewrite (filter_seqZ_nil (bm_bits b) (_ + q)), app_nil_r.
  - apply filter_seqZ_ext. intros z Hz. unfold bm_bits.
    replace (item_val (base_ b) <=? z) with true by lia. cbn [andb]. done.
  - intros z Hz. apply not_true_is_false. intros Hb. apply bm_bits_bound in Hb; [lia | done].
Qed.

Lemma bm_for_each_elem b x :
  bm_ok b → item_wf x → x ∈ bm_for_each b ↔ bm_bits b (item_val x) = true.
Proof.
  intros Hok Hx. destruct (bm_for_each_val b Hok) as [HF E]. split.
  - intros Hin. assert (item_val x ∈ item_val <$> bm_for_each b) as Hv by (by apply list_elem_of_fmap_2).
    rewrite E in Hv. by apply list_elem_of_In, List.filter_In in Hv as [_ ?].
  - intros Hb. assert (item_val x ∈ item_val <$> bm_for_each b) as Hv.
    { rewrite E. apply list_elem_of_In, List.filter_In. split; [|done].
      apply list_elem_of_In, elem_of_seqZ. apply bm_bits_bound in Hb; [|done].
      pose proof (ok_num b Hok). lia. }
    apply list_elem_of_fmap in Hv as (y & Ey & Hy).
    rewrite (item_val_inj x y); [done | done | | done]. rewrite Forall_forall in HF. by apply HF.
Qed.

Lemma bm_min_head b : bm_min b = default (base_ b) (head (bm_for_each b)).
Proof. unfold bm_min. rewrite min_words_head. unfold bm_for_each. by destruct (head _). Qed.

Lemma bm_min_spec b :
  bm_ok b → bm_empty b = false →
  item_wf (bm_min b) ∧ bm_bits b (item_val (bm_min b)) = true ∧
  ∀ z, z < item_val (bm_min b) → bm_bits b z = false.
Proof.
  intros Hok He. destruct (bm_for_each_val b Hok) as [HF E]. destruct (bm_max_spec b Hok He) as (_ & _ & Hmax & _).
  rewrite bm_min_head. destruct (bm_for_each b) as [|x l] eqn:El; cbn.
  { pose proof (bm_bits_bound _ _ Hok Hmax) as Hbd. cbn in E. symmetry in E.
    assert (item_val (bm_max b) ∈ ([] : list Z)) as Hin; [|by apply not_elem_of_nil in Hin].
    rewrite <- E. apply list_elem_of_In, List.filter_In. split; [|done].
    apply list_elem_of_In, elem_of_seqZ. pose proof (ok_num b Hok). lia. }
  cbn in E. apply Forall_cons in HF as [Hx _]. split; [done|].
  assert (bm_bits b (item_val x) = true) as Hbx.
  { apply bm_for_each_elem; [done..|]. rewrite El. left. }
  split; [done|]. intros z Hz. apply not_true_is_false. intros Hb.
  pose proof (bm_bits_bound _ _ Hok Hb) as Hbd. pose proof (bm_bits_bound _ _ Hok Hbx) as Hbdx.
  pose proof (ok_num b Hok).
  (* the least element present is the head of the filtered interval *)
  set (lo := item_val (base_ b)) in *.
  replace 256 with ((z - lo + 1) + (255 - (z - lo))) in E by lia.
  rewrite seqZ_app, List.filter_app in E by lia.
  destruct (List.filter (bm_bits b) (seqZ lo (z - lo + 1))) as [|y l'] eqn:Ef.
  - assert (z ∈ ([] : list Z)) as Hin; [|by apply not_elem_of_nil in Hin].
    rewrite <- Ef. apply list_elem_of_In, List.filter_In. split; [|done].
    apply list_elem_of_In, elem_of_seqZ. lia.
  - cbn in E. injection E as E _. assert (y ∈ y :: l') as Hy by left. rewrite <- Ef in Hy.
    apply list_elem_of_In, List.filter_In in Hy as [Hy _]. apply list_elem_of_In, elem_of_seqZ in Hy. lia.
Qed.

(** *** [bitmap_set] and [bitmap_get] *)

Lemma bitmap_set_bits b n ws :
  0 <= n <= 256 → Forall is_u32 ws → (Z.to_nat ((n + 31) / 32) <= length ws)%nat →
  words_ok (bitmap_ (bm_bitmap_set b n ws)) ∧
  ∀ i, 0 <= i < 256 → bit_at (bitmap_ (bm_bitmap_set b n ws)) i = (i <? n) && bit_at ws i.
Proof.
  intros Hn Hws Hlen. unfold bm_bitmap_set, NBITS. rewrite Z.min_l by lia. cbn [bitmap_].
  pose proof (Z.div_mod (n + 31) 32). pose proof (Z.mod_pos_bound (n + 31) 32).
  assert (0 <= (n + 31) / 32 <= 8) as Hq.
  { split; [apply Z.div_pos; lia|]. apply Z.lt_succ_r, Z.div_lt_upper_bound; lia. }
  set (q := Z.to_nat ((n + 31) / 32)) in *.
  set (bm0 := take q ws ++ drop q zero_bitmap).
  assert (words_ok bm0) as Hok0.
  { split.
    - subst bm0. rewrite length_app, length_take, length_drop. unfold zero_bitmap.
      rewrite length_replicate. change NITEMS with 8%nat. lia.
    - apply Forall_app. split; [by apply Forall_take | apply Forall_drop, words_ok_zero]. }
  assert (∀ k, word bm0 k = if decide (k < q)%nat then word ws k else 0) as Hw0.
  { intros k. unfold word, bm0. case_decide.
    - rewrite lookup_app_l by (rewrite length_take; lia). by rewrite lookup_take_lt.
    - rewrite lookup_app_r by (rewrite length_take; lia). rewrite lookup_drop.
      destruct (zero_bitmap !! _) as [w|] eqn:E; [|done]. by apply lookup_replicate in E as [-> _]. }
  assert (∀ i, 0 <= i → bit_at bm0 i = (i <? 32 * Z.of_nat q) && bit_at ws i) as Hb0.
  { intros i Hi. destruct (bit_index i Hi) as (k & j & -> & Hj & _). rewrite !bit_at_word, Hw0 by done.
    case_decide; destruct (Z.ltb_spec (32 * Z.of_nat k + j) (32 * Z.of_nat q)); try lia; done || apply wbit_0. }
  rewrite land_31. pose proof (Z.mod_pos_bound n 32). pose proof (Z.div_mod n 32).
  destruct ((0 <? n) && negb (n mod 32 =? 0)) eqn:Hcond.
  - assert (is_u32 (Z.shiftr full_mask (n mod 32))) as Hsh by (apply shiftr_range; [apply full_mask_range | lia]).
    assert (Z.of_nat q = n / 32 + 1) as Eq.
    { subst q. rewrite Z2Nat.id by lia. symmetry. apply Z.div_unique with (n mod 32 - 1); lia. }
    split.
    { apply words_ok_insert; [done|]. apply land_range; [by apply words_ok_word | apply u32_not_range]. }
    intros i Hi. rewrite bit_at_insert by (done || (change NITEMS with 8%nat; lia)).
    pose proof (Z.mod_pos_bound i 32). pose proof (Z.div_mod i 32).
    rewrite Hb0 by lia. replace (Z.of_nat (q - 1)) with (n / 32) by lia.
    destruct (Z.eqb_spec (i / 32) (n / 32)) as [E|E].
    + rewrite wbit_land, wbit_not, wbit_shr by (done || lia || apply full_mask_range).
      assert (wbit (word bm0 (q - 1)) (i mod 32) = bit_at bm0 i) as ->.
      { unfold bit_at. do 2 f_equal. lia. }
      rewrite Hb0 by lia. destruct (bit_at ws i); [|by rewrite !andb_false_r].
      destruct (Z.leb_spec (n mod 32) (i mod 32)); [rewrite wbit_full by lia|]; cbn [andb negb]; lia.
    + destruct (bit_at ws i); [|by rewrite !andb_false_r]. rewrite !andb_true_r. lia.
  - split; [done|]. intros i Hi. rewrite Hb0 by lia. f_equal.
    assert (32 * Z.of_nat q = n) as ->; [|done]. subst q. rewrite Z2Nat.id by lia.
    assert (n mod 32 = 0) by lia. pose proof (Z.div_unique (n + 31) 32 (n / 32) 31). lia.
Qed.

Lemma bm_bitmap_set_spec b n ws :
  bm_ok b → 0 <= n <= 256 → Forall is_u32 ws → (Z.to_nat ((n + 31) / 32) <= length ws)%nat →
  bm_ok (bm_bitmap_set b n ws) ∧ base_ (bm_bitmap_set b n ws) = base_ b ∧
  range_max_ (bm_bitmap_set b n ws) = range_max_ b ∧
  ∀ z, bm_bits (bm_bitmap_set b n ws) z =
    (item_val (base_ b) <=? z) && (z <? item_val (base_ b) + n) && bit_at ws (z - item_val (base_ b)).
Proof.
  intros Hok Hn Hws Hlen. destruct (bitmap_set_bits b n ws Hn Hws Hlen) as [Hw Hb].
  split; [|split; [done|split; [done|]]].
  - unfold bm_bitmap_set in *. cbn [bitmap_] in *. unfold NBITS in *. rewrite Z.min_l in * by lia.
    apply calc_maximum_ok; [done | done | |].
    + assert ((n + 31) / 32 < 9) by (apply Z.div_lt_upper_bound; lia). lia.
    + intros j Hj. pose proof (Z.div_mod (n + 31) 32). pose proof (Z.mod_pos_bound (n + 31) 32).
      assert (0 <= (n + 31) / 32) by (apply Z.div_pos; lia). rewrite Z2Nat.id in Hj by lia.
      rewrite Hb by lia. lia.
  - intros z. unfold bm_bits. cbn [base_]. change (base_ (bm_bitmap_set b n ws)) with (base_ b).
    destruct (Z.leb_spec (item_val (base_ b)) z); [|done]. cbn [andb].
    destruct (Z.ltb_spec (z - item_val (base_ b)) 256).
    + rewrite Hb by lia. f_equal. lia.
    + rewrite bit_at_ge by (done || lia). lia.
Qed.

(** The words a range hands out determine it: what [bitmap_set] reads back
    from [bitmap_get] is the bitmap and the number of bits. *)
Lemma bitmap_set_get b b0 :
  bm_ok b → bm_ok b0 →
  bitmap_ (bm_bitmap_set b0 (num_bits_ b) (bitmap_ b)) = bitmap_ b ∧
  num_bits_ (bm_bitmap_set b0 (num_bits_ b) (bitmap_ b)) = num_bits_ b.
Proof.
  intros Hok Hok0. pose proof (ok_num b Hok) as Hn. destruct (ok_words b Hok) as [Hlen HF].
  assert (Z.to_nat ((num_bits_ b + 31) / 32) <= length (bitmap_ b))%nat as Hl.
  { rewrite Hlen. change NITEMS with 8%nat.
    assert ((num_bits_ b + 31) / 32 < 9) by (apply Z.div_lt_upper_bound; lia). lia. }
  destruct (bitmap_set_bits b0 (num_bits_ b) (bitmap_ b) Hn HF Hl) as [Hw Hb].
  assert (bitmap_ (bm_bitmap_set b0 (num_bits_ b) (bitmap_ b)) = bitmap_ b) as E.
  { apply words_ext; [done | apply Hok |]. intros i Hi. rewrite Hb by done.
    destruct (Z.ltb_spec i (num_bits_ b)); [done|]. rewrite (ok_high b Hok) by lia. done. }
  split; [done|]. destruct (bm_bitmap_set_spec b0 (num_bits_ b) (bitmap_ b) Hok0 Hn HF Hl) as [Hok' _].
  set (n' := num_bits_ (bm_bitmap_set _ _ _)) in *. pose proof (ok_num _ Hok') as Hn'.
  pose proof (ok_high _ Hok') as Hh'. pose proof (ok_last _ Hok') as Hl'. fold n' in Hn', Hh', Hl'.
  rewrite E in *. pose proof (ok_high b Hok) as Hh. pose proof (ok_last b Hok) as Hlast.
  destruct (Z.lt_trichotomy n' (num_bits_ b)) as [Hlt|[?|Hgt]]; [|done|].
  - specialize (Hh' (num_bits_ b - 1)). rewrite Hlast in Hh' by lia. discriminate Hh'; lia.
  - specialize (Hh (n' - 1)). rewrite Hl' in Hh by lia. discriminate Hh; lia.
Qed.
End Facts.
