(* ===== verification/BitmapTheorems.v ===== *)
(** * Properties of the bitmap ranges

    The statements about [BitmapRange] that the rest of the protocol relies on,
    for both of its instantiations, and what its corner cases do. *)

From Stdlib Require Import ZArith Lia ZifyBool.
From stdpp Require Import base numbers list option list_numbers.
From S2P Require Import Prelude BitWord SequenceNumber BitmapRange BitmapWords BitmapFacts.

Open Scope Z_scope.

(** ** The ranges a program can build *)

Section Reachable.
Context {T : Type} `{BitmapItemLaws T}.

(** One call on a range, with the arguments the element type admits. The
    range moves down only when it is not empty: an empty one that moves down is
    among the corner cases at the end of the file. *)
Inductive bm_step : BitmapRange T → BitmapRange T → Prop :=
| step_set_base b base :
    item_wf base → item_val base + 256 < item_bound → bm_step b (bm_set_base base)
| step_set_base_max b base n :
    item_wf base → 0 <= n → item_val base + 256 < item_bound → bm_step b (bm_make_max base n)
| step_add b x : item_wf x → bm_step b (fst (bm_add b x))
| step_add_range b from to : item_wf from → item_wf to → bm_step b (bm_add_range b from to)
| step_remove b x b' : item_wf x → bm_empty b = false → bm_remove b x = Some b' → bm_step b b'
| step_base_update b base :
    item_wf base → item_val base + 256 < item_bound →
    Z.abs (item_val base - item_val (base_ b)) < 2 ^ 32 →
    item_val base ≠ item_val (base_ b) →
    (item_val base < item_val (base_ b) → bm_empty b = false) → bm_step b (bm_base_update base b)
| step_bitmap_set b n ws :
    0 <= n <= 256 → Forall is_u32 ws → (Z.to_nat ((n + 31) / 32) <= length ws)%nat →
    bm_step b (bm_bitmap_set b n ws).

Inductive bm_reachable : BitmapRange T → Prop :=
| reach_make base : item_wf base → item_val base + 256 < item_bound → bm_reachable (bm_make base)
| reach_step b b' : bm_reachable b → bm_step b b' → bm_reachable b'.

Lemma bm_step_ok b b' : bm_ok b → bm_step b b' → bm_ok b'.
Proof.
  intros Hok Hs. destruct Hs as [b base Hb Hr|b base n Hb Hn Hr|b x Hx|b f t Hf Ht|b x b' Hx He E|b base Hb Hr Hd Hne He|b n ws Hn Hws Hl].
  - by apply bm_set_base_ok.
  - by apply bm_make_max_ok.
  - by apply bm_add_spec.
  - by apply bm_add_range_spec.
  - destruct (bm_remove_spec b x Hok Hx He) as (b2 & E2 & Hok2 & _). congruence.
  - apply bm_base_update_spec; done || lia.
  - by apply bm_bitmap_set_spec.
Qed.

(** Every range a program reaches is well formed: [num_bits_] is one past the last bit
    set, no bit is set at or after it, the words are 32-bit and the window of 256 elements
    starts at the base. *)
Theorem bitmap_reachable_ok b : bm_reachable b → bm_ok b.
Proof. induction 1 as [base Hb Hr|b b' _ IH Hs]; [by apply bm_make_ok | by eapply bm_step_ok]. Qed.
End Reachable.

(** ** Sliding the window *)

(** [base_update] slides the window: the elements present afterwards are those that were
      present and lie in the 256 positions from the new base on, whichever way the base
      moves, and the range stays well formed. *)
Lemma base_update_slides {T} `{BitmapItemLaws T} (b : BitmapRange T) base :
  bm_ok b → item_wf base → item_val base + 256 < item_bound →
  Z.abs (item_val base - item_val (base_ b)) < 2 ^ 32 →
  item_val base ≠ item_val (base_ b) → bm_empty b = false →
  bm_ok (bm_base_update base b) ∧ base_ (bm_base_update base b) = base ∧
  ∀ x, item_wf x →
    x ∈ bm_for_each (bm_base_update base b) ↔
    x ∈ bm_for_each b ∧ item_val base <= item_val x < item_val base + 256.
Proof.
  intros Hok Hb Hroom Hd Hne He.
  destruct (bm_base_update_spec b base) as (Hok' & Eb & _ & Hbits); [done..|lia|].
  split; [done|]. split; [done|]. intros x Hx. rewrite !bm_for_each_elem, Hbits by done.
  rewrite !andb_true_iff. lia.
Qed.

Definition frags_40_79 : FragmentNumberSet_t := bm_add_range (bm_make (T := FragmentNumber_t) 40) 40 80.

Lemma frags_40_79_ok : bm_ok frags_40_79.
Proof. apply bm_add_range_spec; [apply bm_make_ok|..]; cbn; zwidth. Qed.

(** ** Ranges and single additions *)

Section AddLoop.
Context {T : Type} `{BitmapItemLaws T}.

(** [for (T i = from; i < to; i++) add(i);], which the documentation of
    [add_range] names as its meaning; [n] is the number of rounds. *)
Fixpoint add_each (n : nat) (b : BitmapRange T) (i : T) : BitmapRange T :=
  match n with
  | O => b
  | S n' => add_each n' (fst (bm_add b i)) (item_add i 1)
  end.

(** Well-formed ranges are determined by base, limit and elements. *)
Lemma bm_ext (a b : BitmapRange T) :
  bm_ok a → bm_ok b → base_ a = base_ b → range_max_ a = range_max_ b →
  (∀ z, bm_bits a z = bm_bits b z) → a = b.
Proof.
  intros Ha Hb Eb Er Hbits. destruct a as [ab am aw an], b as [bb bm bw bn]. cbn in *. subst bb bm.
  assert (∀ i, 0 <= i → bit_at aw i = bit_at bw i) as Hw.
  { intros i Hi. specialize (Hbits (item_val ab + i)). unfold bm_bits in Hbits. cbn in Hbits.
    replace (item_val ab + i - item_val ab) with i in Hbits by lia.
    replace (item_val ab <=? item_val ab + i) with true in Hbits by lia. done. }
  assert (aw = bw) as ->.
  { apply words_ext; [apply (ok_words _ Ha) | apply (ok_words _ Hb)|]. intros i Hi. apply Hw. lia. }
  f_equal. pose proof (ok_num _ Ha). pose proof (ok_num _ Hb). pose proof (ok_high _ Ha) as Hha.
  pose proof (ok_high _ Hb) as Hhb. pose proof (ok_last _ Ha) as Hla. pose proof (ok_last _ Hb) as Hlb.
  cbn in *. destruct (Z.lt_trichotomy an bn) as [Hlt|[?|Hgt]]; [|done|].
  - specialize (Hha (bn - 1)). rewrite Hlb in Hha by lia. discriminate Hha; lia.
  - specialize (Hhb (an - 1)). rewrite Hla in Hhb by lia. discriminate Hhb; lia.
Qed.

Lemma add_each_bits n : ∀ (b : BitmapRange T) i,
  bm_ok b → item_wf i → item_val i + Z.of_nat n < item_bound →
  bm_ok (add_each n b i) ∧ base_ (add_each n b i) = base_ b ∧
  range_max_ (add_each n b i) = range_max_ b ∧
  ∀ z, bm_bits (add_each n b i) z =
    bm_bits b z || ((Z.max (item_val i) (item_val (base_ b)) <=? z) && (z <? item_val i + Z.of_nat n) &&
                    (z <=? item_val (range_max_ b))).
Proof.
  induction n as [|n IH]; intros b i Hok Hi Hn; cbn [add_each].
  { split; [done|]. split; [done|]. split; [done|]. intros z. destruct (bm_bits b z); [done|]. cbn [orb]. lia. }
  destruct (bm_add_spec b i Hok Hi) as (_ & Hok' & Eb & Er & Hbits).
  destruct (item_add_val i 1) as [Hwf Ev]; [done | zwidth | lia |].
  destruct (IH (fst (bm_add b i)) (item_add i 1)) as (Hok2 & Eb2 & Er2 & Hbits2); [done | done | lia |].
  split; [done|]. split; [congruence|]. split; [congruence|]. intros z.
  rewrite Hbits2, Hbits, Ev, Eb, Er, in_range_spec by done. destruct (bm_bits b z); [by rewrite orb_true_r|].
  rewrite orb_false_r. cbn [orb]. lia.
Qed.
End AddLoop.

(** C37. [add_range] is the loop of [add] calls its documentation names, as long as the range is
      not limited to fewer than 256 elements: both leave the same range. *)
Theorem add_range_is_add_each {T} `{BitmapItemLaws T} (b : BitmapRange T) from to :
  bm_ok b → item_val (range_max_ b) = item_val (base_ b) + 255 →
  item_wf from → item_wf to → item_val from <= item_val to →
  bm_add_range b from to = add_each (Z.to_nat (item_val to - item_val from)) b from.
Proof.
  intros Hok Hfull Hf Ht Hle. pose proof (item_val_range to Ht).
  destruct (bm_add_range_spec b from to Hok Hf Ht) as (Hok1 & Eb1 & Er1 & Hb1).
  destruct (add_each_bits (Z.to_nat (item_val to - item_val from)) b from) as (Hok2 & Eb2 & Er2 & Hb2);
    [done | done | lia |].
  apply bm_ext; [done | done | congruence | congruence |]. intros z. rewrite Hb1, Hb2.
  destruct (bm_bits b z); [done|]. cbn [orb]. lia.
Qed.

Lemma add_range_is_add_each_witness :
  let b := bm_make (SeqNum 0 10) in
  bm_add_range b (SeqNum 0 3) (SeqNum 0 60)
  = add_each (Z.to_nat (item_val (SeqNum 0 60) - item_val (SeqNum 0 3))) b (SeqNum 0 3).
Proof.
  apply add_range_is_add_each; [apply bm_make_ok | ..]; by vm_compute.
Defined.

(** [for_each] visits exactly the elements [is_set] reports, each once and in increasing
      order: the values visited are the increasing list of those of the window that are
      set. *)
Lemma for_each_enumerates {T} `{BitmapItemLaws T} (b : BitmapRange T) :
  bm_ok b → item_val (range_max_ b) = item_val (base_ b) + 255 →
  item_val <$> bm_for_each b = List.filter (bm_mem b) (seqZ (item_val (base_ b)) 256) ∧
  ∀ x, item_wf x → x ∈ bm_for_each b ↔ bm_is_set b x = true.
Proof.
  intros Hok Hfull. destruct (bm_for_each_val b Hok) as [_ E].
  assert (∀ z, bm_mem b z = bm_bits b z) as Hmem.
  { intros z. unfold bm_mem. destruct (bm_bits b z) eqn:Eb; [|by rewrite andb_false_r].
    apply bm_bits_bound in Eb; [|done]. pose proof (ok_num b Hok). lia. }
  split.
  - rewrite E. apply filter_seqZ_ext. intros z _. by rewrite Hmem.
  - intros x Hx. by rewrite bm_for_each_elem, bm_is_set_spec, Hmem.
Qed.

(** Reading a bitmap back from its serialized words: [bitmap_set] applied to what
      [bitmap_get] returns, on a range with the same base and limit, rebuilds the range. *)
Theorem bitmap_get_set_roundtrip {T} `{BitmapItemLaws T} (b b0 : BitmapRange T) :
  bm_ok b → bm_ok b0 → base_ b0 = base_ b → range_max_ b0 = range_max_ b →
  let '(num_bits, words, _) := bm_bitmap_get b in bm_bitmap_set b0 num_bits words = b.
Proof.
  intros Hok Hok0 Eb Er. cbn. destruct (bitmap_set_get b b0 Hok Hok0) as [Ew En].
  destruct (bm_bitmap_set b0 (num_bits_ b) (bitmap_ b)) as [b' m' w' n'] eqn:E.
  assert (b' = base_ b0 ∧ m' = range_max_ b0) as [-> ->] by (unfold bm_bitmap_set in E; by injection E).
  cbn in *. destruct b. cbn in *. congruence.
Qed.

Lemma bitmap_get_set_roundtrip_witness :
  bm_bitmap_set (bm_make (T := FragmentNumber_t) 40) (num_bits_ frags_40_79) (bitmap_ frags_40_79) = frags_40_79.
Proof.
  apply (bitmap_get_set_roundtrip frags_40_79 (bm_make (T := FragmentNumber_t) 40));
    [apply frags_40_79_ok | apply bm_make_ok; by vm_compute | done | done].
Defined.

(** ** Corner cases *)

(** Moving the base of an empty range down by fewer than 256 positions leaves a range that
      says it is not empty although no element is present: [num_bits_] takes the distance. *)
Theorem base_update_empty_reports_elements {T} `{BitmapItemLaws T} (b : BitmapRange T) base :
  bm_ok b → bm_empty b = true → item_wf base →
  0 < item_val (base_ b) - item_val base < 256 →
  bm_empty (bm_base_update base b) = false ∧ ∀ z, bm_bits (bm_base_update base b) z = false.
Proof.
  intros Hok He Hb Hd. pose proof (proj1 (bm_empty_spec b Hok) He) as Hnone. unfold bm_empty in *.
  assert (num_bits_ b = 0) as En by lia. pose proof (ok_base b Hok) as Hbb.
  unfold bm_base_update. rewrite item_eqb_val, item_gtb_val by done.
  destruct (Z.eqb_spec (item_val base) (item_val (base_ b))) as [|_]; [lia|].
  destruct (Z.gtb_spec (item_val base) (item_val (base_ b))) as [|_]; [lia|].
  rewrite item_diff_val, u32_small by (done || zwidth). set (n := item_val (base_ b) - item_val base) in *.
  pose proof (bm_shift_right_bits b n) as Hbits. split.
  - cbn [num_bits_]. unfold shift_map_right, NBITS. rewrite En, Z.add_0_l.
    destruct (Z.geb_spec n 256); [lia|]. cbn [num_bits_]. rewrite u32_small by zwidth.
    destruct (Z.gtb_spec n 256); lia.
  - intros z. unfold bm_bits. cbn [base_ bitmap_]. destruct (Z.leb_spec (item_val base) z); [|done].
    rewrite Hbits by (done || lia). destruct (Z.leb_spec n (z - item_val base)); [|by rewrite andb_false_r].
    specialize (Hnone z). unfold bm_bits in Hnone. replace (item_val (base_ b) <=? z) with true in Hnone by lia.
    cbn [andb] in *. replace (z - item_val base - n) with (z - item_val (base_ b)) by lia.
    rewrite Hnone. apply andb_false_r.
Qed.

Lemma base_update_empty_reports_elements_witness :
  let b := bm_make (T := FragmentNumber_t) 40 in
  bm_empty (bm_base_update (1 : FragmentNumber_t) b) = false ∧
  bm_bits (bm_base_update (1 : FragmentNumber_t) b) 20 = false.
Proof.
  intros b. destruct (base_update_empty_reports_elements b (1 : FragmentNumber_t)) as [He Hb];
    [apply bm_make_ok; by vm_compute | by vm_compute.. | exact (conj He (Hb 20))].
Defined.

(** [remove] on an empty sequence number set: an element at 256 positions or more from the
      base passes the range check (the maximum of an empty set is computed as
      [base + (0 - 1)] in 32 bits) and the word array is indexed past its end. *)
Theorem remove_on_empty_set_out_of_bounds (b : SequenceNumberSet_t) x :
  bm_ok b → bm_empty b = true → sn_ok (base_ b) → sn_wf x →
  snz (base_ b) + 256 <= snz x < snz (base_ b) + 2 ^ 32 →
  bm_remove b x = None.
Proof.
  intros Hok He Hbase Hx Hd. unfold bm_empty in He. assert (num_bits_ b = 0) as En by lia.
  pose proof (sn_ok_range _ Hbase) as Hr.
  destruct (sn_ok_add (base_ b) 4294967295 Hbase ltac:(zwidth)) as [Hwm Em].
  unfold bm_remove, bm_max. rewrite En. change (u32 (0 - 1)) with 4294967295.
  cbn [item_geb item_eqb item_add item_diff SequenceNumber_item].
  rewrite !sn_geb_snz, Em by (done || by apply sn_ok_wf).
  replace ((snz x >=? snz (base_ b)) && (snz (base_ b) + 4294967295 >=? snz x)) with true by zwidth.
  rewrite SequenceNumberDiff_snz by (done || lia || by apply sn_ok_wf). rewrite u32_small, shiftr_5 by zwidth.
  assert (8 <= (snz x - snz (base_ b)) / 32) by (apply Z.div_le_lower_bound; lia).
  replace (_ <? NITEMS)%nat with false; [done|]. symmetry. apply Nat.ltb_ge. change NITEMS with 8%nat. lia.
Qed.

(** On a range limited to fewer than 256 elements, [add_range] is not the loop of [add]
      calls of its documentation: it sets elements past the limit, which [for_each] then
      visits and [is_set] denies. *)
Theorem add_range_passes_range_limit {T} `{BitmapItemLaws T} base n to :
  item_wf base → 0 <= n < 255 → item_val base + 256 < item_bound → item_wf to →
  item_val base + n + 1 < item_val to <= item_val base + 256 →
  let b := bm_add_range (bm_make_max base n) base to in
  let last := item_add base (n + 1) in
  last ∈ bm_for_each b ∧ bm_is_set b last = false ∧ snd (bm_add (bm_make_max base n) last) = false.
Proof.
  intros Hb Hn Hroom Ht Hto b last. pose proof (bm_make_max_ok base n Hb ltac:(lia) Hroom) as Hok0.
  destruct (bm_add_range_spec (bm_make_max base n) base to Hok0 Hb Ht) as (Hok & Eb & Er & Hbits).
  fold b in Hok, Eb, Er, Hbits. destruct (item_add_val base (n + 1)) as [Hwl El]; [done | zwidth | lia |].
  destruct (item_add_val base n) as [Hwn En]; [done | zwidth | lia |].
  assert (item_val (range_max_ (bm_make_max base n)) = item_val base + n) as Em.
  { unfold bm_make_max, NBITS. cbn [range_max_]. rewrite Z.min_l by lia. done. }
  fold last in Hwl, El. split; [|split].
  - apply bm_for_each_elem; [done..|]. rewrite Hbits, El. cbn [base_ bm_make_max].
    destruct (bm_bits _ _); [done|]. cbn [orb]. lia.
  - rewrite bm_is_set_spec by done. unfold bm_mem. rewrite Er, Em, El. lia.
  - destruct (bm_add_spec (bm_make_max base n) last Hok0 Hwl) as [-> _].
    rewrite in_range_spec by done. rewrite Em, El. cbn [base_ bm_make_max]. lia.
Qed.

Lemma add_range_passes_range_limit_witness :
  let b := bm_add_range (bm_make_max (1 : FragmentNumber_t) 10) (1 : FragmentNumber_t) (100 : FragmentNumber_t) in
  let last := item_add (1 : FragmentNumber_t) (10 + 1) in
  last ∈ bm_for_each b ∧ bm_is_set b last = false ∧
  snd (bm_add (bm_make_max (1 : FragmentNumber_t) 10) last) = false.
Proof. apply add_range_passes_range_limit; by vm_compute. Defined.
