(* ===== verification/SortedRange.v ===== *)
(** * Sorted ranges

    The containers of the proxies are sorted by sequence number and accessed
    with [std::lower_bound], [insert] and [erase] at the position found. The
    position is the partition point of the comparison; the lemmas say what it is
    on a range sorted by an integer key. *)

From Stdlib Require Import ZArith Lia ZifyBool Sorting.Sorted.
From stdpp Require Import base numbers list option sorting.
From S2P Require Import Prelude.

Open Scope Z_scope.

(** [std::lower_bound(first, last, x, comp)]: the number of leading elements for
    which the comparison [p] holds. *)
Fixpoint lower_bound {A} (p : A → bool) (l : list A) : nat :=
  match l with
  | [] => 0
  | a :: l' => if p a then S (lower_bound p l') else 0
  end.

(** [c.insert(pos, x)] *)
Definition insert_at {A} (n : nat) (x : A) (l : list A) : list A := take n l ++ x :: drop n l.

(** [c.erase(pos)] *)
Definition erase_at {A} (n : nat) (l : list A) : list A := take n l ++ drop (S n) l.

Lemma elem_of_insert_at {A} n (x : A) (l : list A) (a : A) : a ∈ insert_at n x l ↔ a = x ∨ a ∈ l.
Proof.
  unfold insert_at. rewrite elem_of_app, elem_of_cons. rewrite <- (take_drop n l) at 3.
  rewrite elem_of_app. tauto.
Qed.

Section Keyed.
Context {A : Type} (key : A → Z).

Definition ksorted (l : list A) : Prop := StronglySorted (λ a b, key a < key b) l.

Lemma ksorted_nil : ksorted [].
Proof. constructor. Qed.

Lemma ksorted_cons a l : ksorted (a :: l) ↔ ksorted l ∧ Forall (λ b, key a < key b) l.
Proof.
  unfold ksorted. split; [intros Hs; inversion Hs; subst; done | intros []; by constructor].
Qed.

Lemma ksorted_app l1 l2 :
  ksorted (l1 ++ l2) ↔ ksorted l1 ∧ ksorted l2 ∧ ∀ a b, a ∈ l1 → b ∈ l2 → key a < key b.
Proof.
  induction l1 as [|a l1 IH]; cbn [app].
  - split; [intros Hs; split_and!; [apply ksorted_nil | done | intros ? ? []%not_elem_of_nil] | by intros (_ & ? & _)].
  - rewrite !ksorted_cons, IH, Forall_app, !Forall_forall. split.
    + intros ((Hs1 & Hs2 & Hlt) & Ha1 & Ha2). split_and!; [done..|].
      intros x b [->|Hx]%elem_of_cons Hb; [by apply Ha2 | by apply Hlt].
    + intros ((Hs1 & Ha1) & Hs2 & Hlt). split_and!; [done | done | | done |].
      * intros x b Hx Hb. apply Hlt; [by apply elem_of_cons; right | done].
      * intros b Hb. apply Hlt; [by apply elem_of_cons; left | done].
Qed.

Lemma ksorted_key_inj l a b : ksorted l → a ∈ l → b ∈ l → key a = key b → a = b.
Proof.
  induction l as [|c l IH]; [by intros _ ?%elem_of_nil|]. rewrite ksorted_cons, Forall_forall.
  intros [Hs Hc] [->|Ha]%elem_of_cons [->|Hb]%elem_of_cons E; [done | | | by apply IH].
  - specialize (Hc b Hb). lia.
  - specialize (Hc a Ha). lia.
Qed.

(** The position found splits the range at the key searched for. *)
Lemma lower_bound_split (p : A → bool) k l :
  ksorted l → (∀ a, a ∈ l → p a = (key a <? k)) →
  Forall (λ a, key a < k) (take (lower_bound p l) l) ∧
  Forall (λ a, k <= key a) (drop (lower_bound p l) l).
Proof.
  induction l as [|a l IH]; [done|]. rewrite ksorted_cons. intros [Hs Ha] Hp. cbn [lower_bound].
  rewrite (Hp a) by (by apply elem_of_cons; left). destruct (Z.ltb_spec (key a) k) as [Hlt|Hge].
  - cbn [take drop]. destruct IH as [Ht Hd]; [done | intros b Hb; apply Hp; by apply elem_of_cons; right |].
    split; [by constructor | done].
  - cbn [take drop]. split; [done|]. constructor; [done|].
    eapply Forall_impl; [exact Ha|]. cbn. lia.
Qed.

Lemma lower_bound_length (p : A → bool) l : (lower_bound p l <= length l)%nat.
Proof. induction l as [|a l IH]; cbn; [done|]. destruct (p a); lia. Qed.

Lemma lower_bound_drop_sorted n l : ksorted l → ksorted (drop n l).
Proof. intros Hs. rewrite <- (take_drop n l) in Hs. by apply ksorted_app in Hs as (_ & ? & _). Qed.

(** [lower_bound] and then a comparison of the element found: the search of an
    ordered container. *)
Lemma lower_bound_lookup (p : A → bool) k l a :
  ksorted l → (∀ b, b ∈ l → p b = (key b <? k)) → a ∈ l → key a = k →
  l !! lower_bound p l = Some a.
Proof.
  intros Hs Hp Ha Hk. induction l as [|c l IH]; [by apply elem_of_nil in Ha|].
  apply ksorted_cons in Hs as [Hs Hc]. cbn [lower_bound].
  rewrite (Hp c) by (by apply elem_of_cons; left). destruct (Z.ltb_spec (key c) k) as [Hlt|Hge].
  - cbn. apply IH; [done | intros b Hb; apply Hp; by apply elem_of_cons; right |].
    apply elem_of_cons in Ha as [->|Ha]; [lia | done].
  - cbn. apply elem_of_cons in Ha as [->|Ha]; [done|].
    rewrite Forall_forall in Hc. specialize (Hc a Ha). lia.
Qed.

Lemma insert_at_sorted (p : A → bool) k l x :
  ksorted l → (∀ b, b ∈ l → p b = (key b <? k)) → key x = k → (∀ b, b ∈ l → key b ≠ k) →
  ksorted (insert_at (lower_bound p l) x l).
Proof.
  intros Hs Hp Hx Hnew. destruct (lower_bound_split p k l Hs Hp) as [Ht Hd].
  rewrite Forall_forall in Ht, Hd. unfold insert_at. apply ksorted_app.
  pose proof Hs as Hs'. rewrite <- (take_drop (lower_bound p l) l) in Hs'.
  apply ksorted_app in Hs' as (Hs1 & Hs2 & _). split; [done|].
  assert (∀ b, b ∈ drop (lower_bound p l) l → k < key b) as Hgt.
  { intros b Hb. specialize (Hd b Hb). assert (b ∈ l) as Hin by (by eapply subseteq_drop).
    specialize (Hnew b Hin). lia. }
  split.
  - apply ksorted_cons. split; [done|]. apply Forall_forall. rewrite Hx. done.
  - intros a b Ha [->|Hb]%elem_of_cons; [rewrite Hx; by apply Ht|].
    specialize (Ht a Ha). specialize (Hgt b Hb). lia.
Qed.
End Keyed.
