(* ===== verification/Bytes.v ===== *)
(** * Objects as sequences of octets

    An octet is a [Z] in the range of [uint8_t]. The target is little endian
    ([FASTDDS_IS_BIG_ENDIAN_TARGET] is 0): the object representation of an
    unsigned integer is its little-endian split. *)

From Stdlib Require Import ZArith Lia ZifyBool.
From stdpp Require Import base numbers list option.
From S2P Require Import Prelude.

Open Scope Z_scope.

(** Object representation of an [n]-byte integer, and the integer read from one. *)
Fixpoint le_split (n : nat) (z : Z) : list Z :=
  match n with
  | O => []
  | S n' => z mod 256 :: le_split n' (z / 256)
  end.

Fixpoint le_combine (bs : list Z) : Z :=
  match bs with
  | [] => 0
  | b :: bs' => b + 256 * le_combine bs'
  end.

(** Sign of [memcmp] on two objects of the same size. *)
Fixpoint memcmp (a b : list Z) : Z :=
  match a, b with
  | x :: a', y :: b' => if x <? y then -1 else if x >? y then 1 else memcmp a' b'
  | _, _ => 0
  end.

Lemma le_split_length n z : length (le_split n z) = n.
Proof. revert z. induction n as [|n IH]; intros z; cbn; [done|]. by rewrite IH. Qed.

Lemma le_split_u8 n z : Forall is_u8 (le_split n z).
Proof.
  revert z. induction n as [|n IH]; intros z; cbn; [done|]. constructor; [|done].
  pose proof (Z.mod_pos_bound z 256). zwidth.
Qed.

Lemma le_combine_split n z : le_combine (le_split n z) = z mod 2 ^ (8 * Z.of_nat n).
Proof.
  revert z. induction n as [|n IH]; intros z; [by rewrite Z.mod_1_r|]. cbn [le_split le_combine].
  rewrite IH, Nat2Z.inj_succ. replace (8 * Z.succ (Z.of_nat n)) with (8 + 8 * Z.of_nat n) by lia.
  rewrite Z.pow_add_r by lia. change (2 ^ 8) with 256. rewrite Z.rem_mul_r by lia. done.
Qed.

Lemma le_split_combine bs : Forall is_u8 bs → le_split (length bs) (le_combine bs) = bs.
Proof.
  induction 1 as [|b bs Hb _ IH]; cbn [length le_split le_combine]; [done|].
  rewrite (Z.mul_comm 256), Z.mod_add, Z.div_add by lia. rewrite Z.div_small, Z.mod_small by zwidth.
  by rewrite Z.add_0_l, IH.
Qed.

Lemma le_combine_range bs : Forall is_u8 bs → 0 <= le_combine bs < 2 ^ (8 * Z.of_nat (length bs)).
Proof.
  induction 1 as [|b bs Hb _ IH]; cbn [length le_combine]; [lia|]. rewrite Nat2Z.inj_succ.
  replace (8 * Z.succ (Z.of_nat (length bs))) with (8 + 8 * Z.of_nat (length bs)) by lia.
  rewrite Z.pow_add_r by lia. change (2 ^ 8) with 256. zwidth.
Qed.

Lemma le_combine_split_small n z : 0 <= z < 2 ^ (8 * Z.of_nat n) → le_combine (le_split n z) = z.
Proof. intros. rewrite le_combine_split. by apply Z.mod_small. Qed.

Lemma memcmp_eq a b : length a = length b → memcmp a b = 0 ↔ a = b.
Proof.
  revert b. induction a as [|x a IH]; intros [|y b] Hl; cbn in Hl |- *; try done.
  injection Hl as Hl. specialize (IH b Hl).
  destruct (Z.ltb_spec x y); [|destruct (Z.gtb_spec x y)]; [split; [lia | intros [= ]; lia].. |].
  rewrite IH. assert (x = y) as -> by lia. split; [by intros -> | by intros [= ->]].
Qed.

Lemma memcmp_swap a b : length a = length b → memcmp b a = - memcmp a b.
Proof.
  revert b. induction a as [|x a IH]; intros [|y b] Hl; cbn in Hl |- *; try done.
  injection Hl as Hl.
  destruct (Z.ltb_spec x y); [|destruct (Z.gtb_spec x y)]; zif; try lia. by apply IH.
Qed.

Lemma memcmp_trans a b c :
  length a = length b → length b = length c → memcmp a b <= 0 → memcmp b c <= 0 →
  memcmp a c <= 0 ∧ (memcmp a c = 0 → memcmp a b = 0 ∧ memcmp b c = 0).
Proof.
  revert b c. induction a as [|x a IH]; intros [|y b] [|z c] Hab Hbc; cbn in Hab, Hbc |- *; try done.
  injection Hab as Hab. injection Hbc as Hbc. specialize (IH b c Hab Hbc).
  repeat match goal with |- context [if ?c then _ else _] => destruct c eqn:? end; try lia; tauto.
Qed.

(** ** Memory blocks

    A block of memory is the list of its octets; an access outside of it has no
    result. *)

Definition mem_load (m : list Z) (off len : Z) : option (list Z) :=
  if (0 <=? off) && (0 <=? len) && (off + len <=? Z.of_nat (length m))
  then Some (take (Z.to_nat len) (drop (Z.to_nat off) m)) else None.

Definition mem_store (m : list Z) (off : Z) (bs : list Z) : option (list Z) :=
  if (0 <=? off) && (off + Z.of_nat (length bs) <=? Z.of_nat (length m))
  then Some (take (Z.to_nat off) m ++ bs ++ drop (Z.to_nat off + length bs) m) else None.

Definition load32 (m : list Z) (off : Z) : option Z := bs ← mem_load m off 4; Some (le_combine bs).
Definition store32 (m : list Z) (off v : Z) : option (list Z) := mem_store m off (le_split 4 v).

Lemma mem_load_Some m off len :
  0 <= off → 0 <= len → off + len <= Z.of_nat (length m) →
  mem_load m off len = Some (take (Z.to_nat len) (drop (Z.to_nat off) m)).
Proof.
  intros. unfold mem_load. destruct (Z.leb_spec 0 off), (Z.leb_spec 0 len), (Z.leb_spec (off + len) (Z.of_nat (length m))); done || lia.
Qed.

Lemma mem_load_None m off len : Z.of_nat (length m) < off + len → mem_load m off len = None.
Proof. intros. unfold mem_load. destruct (Z.leb_spec (off + len) (Z.of_nat (length m))); [lia|]. by rewrite andb_false_r. Qed.

Lemma mem_load_inv m off len bs :
  mem_load m off len = Some bs → 0 <= off ∧ Z.of_nat (length bs) = len ∧ off + len <= Z.of_nat (length m) ∧ bs ⊆ m.
Proof.
  unfold mem_load. destruct (_ && _) eqn:E; [|done]. apply andb_prop in E as [E E3]. apply andb_prop in E as [E1 E2].
  intros [= <-]. rewrite length_take, length_drop. split_and!; [lia | lia | lia |].
  intros x Hx. apply (subseteq_drop (Z.to_nat off)). by apply (subseteq_take (Z.to_nat len)).
Qed.

Lemma mem_store_Some m off bs :
  0 <= off → off + Z.of_nat (length bs) <= Z.of_nat (length m) →
  mem_store m off bs = Some (take (Z.to_nat off) m ++ bs ++ drop (Z.to_nat off + length bs) m).
Proof.
  intros. unfold mem_store. destruct (Z.leb_spec 0 off), (Z.leb_spec (off + Z.of_nat (length bs)) (Z.of_nat (length m))); done || lia.
Qed.

Lemma u8_sub (bs m : list Z) : bs ⊆ m → Forall is_u8 m → Forall is_u8 bs.
Proof. intros Hs Hm. rewrite Forall_forall in Hm |- *. intros x Hx%list_elem_of_In. apply Hm. rewrite <- list_elem_of_In. by apply Hs. Qed.

(** The octets of a block after a store. *)
Lemma mem_store_lookup m off bs m' :
  mem_store m off bs = Some m' →
  length m' = length m ∧
  (∀ j : nat, Z.of_nat j < off ∨ off + Z.of_nat (length bs) <= Z.of_nat j → m' !! j = m !! j) ∧
  (∀ j : nat, (j < length bs)%nat → m' !! (Z.to_nat off + j)%nat = bs !! j).
Proof.
  unfold mem_store. destruct (_ && _) eqn:E; [|done]. apply andb_prop in E as [E1 E2]. intros [= <-].
  assert (length (take (Z.to_nat off) m) = Z.to_nat off) as Ht by (rewrite length_take; lia). split_and!.
  - rewrite !length_app, Ht, length_drop. lia.
  - intros j [Hj|Hj].
    + rewrite lookup_app_l, lookup_take_lt by lia. done.
    + rewrite !lookup_app_r by lia. rewrite lookup_drop. f_equal. lia.
  - intros j Hj. rewrite lookup_app_r, Ht by lia. rewrite lookup_app_l by lia. f_equal. lia.
Qed.

(** A load depends only on the octets it loads. *)
Lemma mem_load_agree m m' off len :
  length m = length m' → (∀ j : nat, off <= Z.of_nat j < off + len → m !! j = m' !! j) →
  mem_load m off len = mem_load m' off len.
Proof.
  intros Hl Hag. unfold mem_load. rewrite Hl. destruct (_ && _) eqn:E; [|done]. apply andb_prop in E as [E E3].
  apply andb_prop in E as [E1 E2]. f_equal. apply list_eq. intros j. destruct (decide (j < Z.to_nat len)%nat).
  - rewrite !lookup_take_lt, !lookup_drop by lia. apply Hag. lia.
  - rewrite !lookup_take_ge by lia. done.
Qed.

Lemma store32_spec m off v :
  0 <= off → off + 4 <= Z.of_nat (length m) → is_u32 v →
  ∃ m', store32 m off v = Some m' ∧ length m' = length m ∧ load32 m' off = Some v ∧
    ∀ j : nat, Z.of_nat j < off ∨ off + 4 <= Z.of_nat j → m' !! j = m !! j.
Proof.
  intros H0 H1 Hv. unfold store32, load32. destruct (mem_store m off (le_split 4 v)) as [m'|] eqn:E.
  2: { rewrite mem_store_Some in E by (rewrite ?le_split_length; lia). done. }
  destruct (mem_store_lookup _ _ _ _ E) as (Hl & Hout & Hin). rewrite le_split_length in *.
  exists m'. split_and!; [done | done | | done]. rewrite mem_load_Some by lia. cbn [mbind option_bind].
  replace (take (Z.to_nat 4) (drop (Z.to_nat off) m')) with (le_split 4 v); [by rewrite le_combine_split_small|].
  apply list_eq. intros j. destruct (decide (j < 4)%nat).
  - rewrite lookup_take_lt, lookup_drop by lia. symmetry. by apply Hin.
  - rewrite lookup_take_ge by lia. apply lookup_ge_None. rewrite le_split_length. lia.
Qed.

Lemma align_down x : 0 <= x < 2 ^ 32 → Z.land x (2 ^ 32 - 4) = x - x mod 4.
Proof.
  intros Hx. change (2 ^ 32 - 4) with (Z.shiftl (Z.ones 30) 2).
  assert (x - x mod 4 = Z.shiftl (Z.shiftr x 2) 2) as ->.
  { rewrite Z.shiftl_mul_pow2, Z.shiftr_div_pow2 by lia. change (2 ^ 2) with 4. pose proof (Z.div_mod x 4 ltac:(lia)). lia. }
  apply Z.bits_inj'. intros i Hi. rewrite Z.land_spec, !Z.shiftl_spec by lia. destruct (Z.leb_spec 2 i).
  - rewrite Z.shiftr_spec, Z.testbit_ones_nonneg by lia. replace (i - 2 + 2) with i by lia.
    destruct (Z.ltb_spec (i - 2) 30); [apply andb_true_r|]. rewrite (Z.bits_above_log2 x i); [done | lia |].
    destruct (Z.eq_dec x 0) as [->|]; [cbn; lia|]. apply Z.lt_le_trans with 32; [apply Z.log2_lt_pow2; lia | lia].
  - rewrite !(Z.testbit_neg_r _ (i - 2)) by lia. apply andb_false_r.
Qed.
