(* ===== verification/Guid.v ===== *)
(** * Entity identifiers and locators

    [EntityId_t], [GuidPrefix_t] and [GUID_t] (include/fastdds/rtps/common) as
    octet arrays with the operators the containers of the library use, and
    [Locator_t]. The target is little endian. *)

From Stdlib Require Import ZArith Lia ZifyBool.
From stdpp Require Import base numbers list option.
From S2P Require Import Prelude Bytes.

Open Scope Z_scope.

(** ** EntityId_t *)

Record EntityId_t := EntityId { ent_value : list Z }.

#[global] Instance EntityId_eq_dec : EqDecision EntityId_t.
Proof. solve_decision. Defined.

Definition ent_ok (e : EntityId_t) : Prop := length (ent_value e) = 4%nat ∧ Forall is_u8 (ent_value e).

(** [reverse()]: the swaps of the first with the last and of the middle octets. *)
Definition ent_reverse (v : list Z) : list Z :=
  match v with
  | [v0; v1; v2; v3] => [v3; v2; v1; v0]
  | _ => v
  end.

(** [EntityId_t(uint32_t id)]: copies the object representation and reverses it. *)
Definition ent_of_u32 (id : Z) : EntityId_t := EntityId (ent_reverse (le_split 4 id)).

Definition c_EntityId_Unknown : EntityId_t := ent_of_u32 0.
Definition c_EntityId_RTPSParticipant : EntityId_t := ent_of_u32 0x000001c1.
Definition c_EntityId_SPDPWriter : EntityId_t := ent_of_u32 0x000100c2.
Definition c_EntityId_SPDPReader : EntityId_t := ent_of_u32 0x000100c7.

(** [to_uint32()]: reinterprets the octets and swaps them back. *)
Definition ent_to_uint32 (e : EntityId_t) : Z :=
  let res := le_combine (ent_value e) in
  Z.lor (Z.lor (Z.lor (Z.shiftr res 24) (Z.land 0x0000ff00 (Z.shiftr res 8)))
               (Z.land 0x00ff0000 (u32 (Z.shiftl res 8))))
        (u32 (Z.shiftl res 24)).

Definition ent_is_reader (e : EntityId_t) : bool := negb (Z.land 4 (ent_to_uint32 e) =? 0).
Definition ent_is_writer (e : EntityId_t) : bool :=
  negb (Z.land 2 (ent_to_uint32 e) =? 0) && negb (ent_is_reader e).

Definition ent_cmp (a b : EntityId_t) : Z := memcmp (ent_value a) (ent_value b).
Definition ent_eqb (a b : EntityId_t) : bool := ent_cmp a b =? 0.
Definition ent_neb (a b : EntityId_t) : bool := negb (ent_eqb a b).
Definition ent_ltb (a b : EntityId_t) : bool := memcmp (ent_value a) (ent_value b) <? 0.

(** ** GuidPrefix_t *)

Record GuidPrefix_t := GuidPrefix { pfx_value : list Z }.

#[global] Instance GuidPrefix_eq_dec : EqDecision GuidPrefix_t.
Proof. solve_decision. Defined.

Definition pfx_ok (p : GuidPrefix_t) : Prop := length (pfx_value p) = 12%nat ∧ Forall is_u8 (pfx_value p).

Definition c_GuidPrefix_Unknown : GuidPrefix_t := GuidPrefix (replicate 12 0).

Definition pfx_cmp (a b : GuidPrefix_t) : Z := memcmp (pfx_value a) (pfx_value b).
Definition pfx_eqb (a b : GuidPrefix_t) : bool := memcmp (pfx_value a) (pfx_value b) =? 0.
Definition pfx_neb (a b : GuidPrefix_t) : bool := negb (memcmp (pfx_value a) (pfx_value b) =? 0).

(** ** GUID_t *)

Record GUID_t := Guid { guidPrefix : GuidPrefix_t; entityId : EntityId_t }.

#[global] Instance GUID_eq_dec : EqDecision GUID_t.
Proof. solve_decision. Defined.

Definition guid_ok (g : GUID_t) : Prop := pfx_ok (guidPrefix g) ∧ ent_ok (entityId g).

Definition c_Guid_Unknown : GUID_t := Guid c_GuidPrefix_Unknown c_EntityId_Unknown.

Definition guid_is_builtin (g : GUID_t) : bool := nth 3 (ent_value (entityId g)) 0 >=? 0xC0.

Definition guid_eqb (g1 g2 : GUID_t) : bool :=
  if pfx_eqb (guidPrefix g1) (guidPrefix g2) && ent_eqb (entityId g1) (entityId g2) then true else false.

Definition guid_neb (g1 g2 : GUID_t) : bool :=
  if pfx_neb (guidPrefix g1) (guidPrefix g2) || ent_neb (entityId g1) (entityId g2) then true else false.

Definition guid_ltb (g1 g2 : GUID_t) : bool :=
  let prefix_cmp := pfx_cmp (guidPrefix g1) (guidPrefix g2) in
  if prefix_cmp <? 0 then true
  else if prefix_cmp >? 0 then false
  else ent_ltb (entityId g1) (entityId g2).

(** ** Locator_t *)

Record Locator_t := Locator { loc_kind : Z; loc_port : Z; loc_address : list Z }.

#[global] Instance Locator_eq_dec : EqDecision Locator_t.
Proof. solve_decision. Defined.

Definition LOCATOR_KIND_INVALID : Z := -1.
Definition LOCATOR_KIND_UDPv4 : Z := 1.
Definition LOCATOR_KIND_UDPv6 : Z := 2.
Definition LOCATOR_KIND_TCPv4 : Z := 4.
Definition LOCATOR_KIND_TCPv6 : Z := 8.

Definition loc_default : Locator_t := Locator LOCATOR_KIND_UDPv4 0 (replicate 16 0).

Definition loc_eqb (a b : Locator_t) : bool :=
  if negb (loc_kind a =? loc_kind b) then false
  else if negb (loc_port a =? loc_port b) then false
  else if negb (bool_decide (loc_address a = loc_address b)) then false
  else true.

Definition IsAddressDefined (loc : Locator_t) : bool :=
  if (loc_kind loc =? LOCATOR_KIND_UDPv4) || (loc_kind loc =? LOCATOR_KIND_TCPv4)
  then existsb (λ o, negb (o =? 0)) (take 4 (drop 12 (loc_address loc)))
  else if (loc_kind loc =? LOCATOR_KIND_UDPv6) || (loc_kind loc =? LOCATOR_KIND_TCPv6)
  then existsb (λ o, negb (o =? 0)) (loc_address loc)
  else false.

Definition IsLocatorValid (loc : Locator_t) : bool := 0 <=? loc_kind loc.

Definition loc_ok (l : Locator_t) : Prop :=
  is_i32 (loc_kind l) ∧ is_u32 (loc_port l) ∧ length (loc_address l) = 16%nat ∧ Forall is_u8 (loc_address l).

(** ** LocatorSelectorEntry (include/fastdds/rtps/common/LocatorSelectorEntry.hpp) *)

Record LocatorSelectorEntry := {
  remote_guid : GUID_t;
  unicast : list Locator_t;
  multicast : list Locator_t;
  state_unicast : list nat;
  state_multicast : list nat;
  enabled : bool;
  transport_should_process : bool
}.

Definition entry_make : LocatorSelectorEntry :=
  {| remote_guid := c_Guid_Unknown; unicast := []; multicast := []; state_unicast := []; state_multicast := [];
     enabled := false; transport_should_process := false |}.

Definition entry_enable (should_enable : bool) (e : LocatorSelectorEntry) : LocatorSelectorEntry :=
  {| remote_guid := remote_guid e; unicast := unicast e; multicast := multicast e;
     state_unicast := state_unicast e; state_multicast := state_multicast e;
     enabled := should_enable && guid_neb (remote_guid e) c_Guid_Unknown;
     transport_should_process := transport_should_process e |}.

Definition entry_reset (e : LocatorSelectorEntry) : LocatorSelectorEntry :=
  {| remote_guid := remote_guid e; unicast := unicast e; multicast := multicast e;
     state_unicast := []; state_multicast := []; enabled := enabled e;
     transport_should_process := transport_should_process e |}.

(** Assignment of the GUID and of the two lists of locators. *)
Definition entry_assign (guid : GUID_t) (uni multi : list Locator_t) (e : LocatorSelectorEntry) : LocatorSelectorEntry :=
  {| remote_guid := guid; unicast := uni; multicast := multi;
     state_unicast := state_unicast e; state_multicast := state_multicast e; enabled := enabled e;
     transport_should_process := transport_should_process e |}.

(** ** Facts *)

Lemma ent_eqb_eq a b : ent_ok a → ent_ok b → ent_eqb a b = true ↔ a = b.
Proof.
  intros [La _] [Lb _]. unfold ent_eqb, ent_cmp. rewrite Z.eqb_eq, memcmp_eq by congruence.
  destruct a, b. cbn. split; [by intros -> | by intros [= ->]].
Qed.

Lemma pfx_eqb_eq a b : pfx_ok a → pfx_ok b → pfx_eqb a b = true ↔ a = b.
Proof.
  intros [La _] [Lb _]. unfold pfx_eqb. rewrite Z.eqb_eq, memcmp_eq by congruence.
  destruct a, b. cbn. split; [by intros -> | by intros [= ->]].
Qed.

Lemma guid_eqb_eq g1 g2 : guid_ok g1 → guid_ok g2 → guid_eqb g1 g2 = true ↔ g1 = g2.
Proof.
  intros [? ?] [? ?]. unfold guid_eqb. destruct (pfx_eqb _ _ && ent_eqb _ _) eqn:E.
  - apply andb_prop in E as [Hp He]. rewrite pfx_eqb_eq in Hp by done. rewrite ent_eqb_eq in He by done.
    destruct g1, g2; cbn in *. split; congruence.
  - split; [done|]. intros ->. apply andb_false_iff in E as [E|E]; exfalso.
    + apply eq_true_false_abs in E; [done|]. by apply pfx_eqb_eq.
    + apply eq_true_false_abs in E; [done|]. by apply ent_eqb_eq.
Qed.

Lemma guid_ltb_memcmp g1 g2 :
  guid_ok g1 → guid_ok g2 →
  guid_ltb g1 g2 = (memcmp (pfx_value (guidPrefix g1) ++ ent_value (entityId g1))
                           (pfx_value (guidPrefix g2) ++ ent_value (entityId g2)) <? 0).
Proof.
  intros [[Lp1 _] _] [[Lp2 _] _]. unfold guid_ltb, pfx_cmp, ent_ltb.
  assert (∀ p1 p2 e1 e2, length p1 = length p2 →
    memcmp (p1 ++ e1) (p2 ++ e2) = if memcmp p1 p2 =? 0 then memcmp e1 e2 else memcmp p1 p2) as Happ.
  { clear. induction p1 as [|x p1 IH]; intros [|y p2] e1 e2 Hl; cbn in Hl |- *; try done.
    injection Hl as Hl. rewrite IH by done. destruct (x <? y), (x >? y); done. }
  rewrite Happ by congruence. zif; lia.
Qed.

(** A field of eight bits above a smaller value: the disjunction is the sum. *)
Lemma lor_add_high a b k : 0 <= k → 0 <= a < 2 ^ k → Z.lor a (b * 2 ^ k) = a + b * 2 ^ k.
Proof.
  intros Hk Ha. rewrite <- Z.shiftl_mul_pow2 by done. symmetry. apply Z.add_nocarry_lor.
  apply Z.bits_inj'. intros i Hi. rewrite Z.land_spec, Z.bits_0, Z.shiftl_spec by done.
  destruct (Z.ltb_spec i k).
  - rewrite (Z.testbit_neg_r b) by lia. apply andb_false_r.
  - destruct (Z.eq_dec a 0) as [->|]; [by rewrite Z.testbit_0_l|].
    rewrite Z.bits_above_log2; [done | lia |].
    apply Z.lt_le_trans with k; [|done]. apply Z.log2_lt_pow2; lia.
Qed.

(** Selecting the second and the third octet of a word. *)
Lemma land_byte x k : 0 <= k → Z.land (255 * 2 ^ k) x = (x / 2 ^ k) mod 256 * 2 ^ k.
Proof.
  intros Hk. rewrite <- !Z.shiftl_mul_pow2, <- Z.shiftr_div_pow2 by done.
  change 256 with (2 ^ 8). rewrite <- Z.land_ones by lia. change 255 with (Z.ones 8).
  apply Z.bits_inj'. intros i Hi. rewrite Z.land_spec, !Z.shiftl_spec, Z.land_spec by done.
  destruct (Z.ltb_spec i k); [by rewrite !(Z.testbit_neg_r _ (i - k)) by lia|].
  rewrite Z.shiftr_spec by lia. replace (i - k + k) with i by lia. apply andb_comm.
Qed.

Lemma ent_to_uint32_bytes b0 b1 b2 b3 :
  Forall is_u8 [b0; b1; b2; b3] →
  ent_to_uint32 (EntityId [b0; b1; b2; b3]) = b3 + b2 * 2 ^ 8 + b1 * 2 ^ 16 + b0 * 2 ^ 24.
Proof.
  rewrite !Forall_cons_iff. intros (H0 & H1 & H2 & H3 & _). unfold ent_to_uint32. cbn [ent_value le_combine].
  set (res := b0 + _). assert (res = b0 + b1 * 2 ^ 8 + b2 * 2 ^ 16 + b3 * 2 ^ 24) as Er by (subst res; lia).
  change 65280 with (255 * 2 ^ 8). change 16711680 with (255 * 2 ^ 16). rewrite !land_byte by lia.
  rewrite !Z.shiftr_div_pow2, !Z.shiftl_mul_pow2 by lia. unfold u32.
  assert (res / 2 ^ 24 = b3) as -> by (symmetry; apply Z.div_unique with (b0 + b1 * 2 ^ 8 + b2 * 2 ^ 16); zwidth).
  assert (res / 2 ^ 8 / 2 ^ 8 = b2 + b3 * 2 ^ 8) as ->.
  { rewrite Z.div_div by lia. symmetry. apply Z.div_unique with (b0 + b1 * 2 ^ 8); zwidth. }
  assert ((res * 2 ^ 8) mod 2 ^ 32 / 2 ^ 16 = b1 + b2 * 2 ^ 8) as ->.
  { replace ((res * 2 ^ 8) mod 2 ^ 32) with (b0 * 2 ^ 8 + b1 * 2 ^ 16 + b2 * 2 ^ 24).
    - symmetry. apply Z.div_unique with (b0 * 2 ^ 8); zwidth.
    - apply Z.mod_unique with b3; zwidth. }
  assert ((res * 2 ^ 24) mod 2 ^ 32 = b0 * 2 ^ 24) as ->.
  { symmetry. apply Z.mod_unique with (b1 + b2 * 2 ^ 8 + b3 * 2 ^ 16); zwidth. }
  change (2 ^ 8) with 256 in *. rewrite !Z.mod_add by lia. rewrite !(Z.mod_small _ 256) by zwidth.
  change 256 with (2 ^ 8).
  rewrite (lor_add_high b3) by zwidth. rewrite (lor_add_high (b3 + b2 * 2 ^ 8)) by zwidth.
  by rewrite lor_add_high by zwidth.
Qed.

(** ** Properties *)

(** An entity id is the big-endian octets of its 32-bit value whatever the order of the
    target: construction from an integer and [to_uint32] are inverse to each other. *)
Theorem ent_u32_roundtrip id e :
  is_u32 id → ent_ok e →
  ent_to_uint32 (ent_of_u32 id) = id ∧ ent_of_u32 (ent_to_uint32 e) = e.
Proof.
  intros Hid He. assert (∀ e', ent_ok e' → ent_of_u32 (ent_to_uint32 e') = e') as Hback.
  { intros [v] [Hl Hv]. cbn in Hl, Hv. destruct v as [|b0 [|b1 [|b2 [|b3 [|]]]]]; try done.
    rewrite ent_to_uint32_bytes by done. unfold ent_of_u32. f_equal.
    replace (b3 + _ + _ + _) with (le_combine [b3; b2; b1; b0]) by (cbn [le_combine]; lia).
    assert (Forall is_u8 [b3; b2; b1; b0]) as Hr by (rewrite !Forall_cons_iff in Hv |- *; tauto).
    pose proof (le_split_combine _ Hr) as E. cbn [length] in E. rewrite E. done. }
  split; [|by apply Hback].
  assert (Forall is_u8 (ent_reverse (le_split 4 id))) as Hr.
  { pose proof (le_split_u8 4 id) as Hs. cbn [le_split ent_reverse] in *. rewrite !Forall_cons_iff in Hs |- *. tauto. }
  unfold ent_of_u32. pose proof (le_combine_split_small 4 id Hid) as E.
  cbn [le_split ent_reverse le_combine] in *. rewrite ent_to_uint32_bytes by done. lia.
Qed.

Lemma ent_u32_roundtrip_witness :
  ent_to_uint32 (ent_of_u32 0x000100c2) = 0x000100c2 ∧ ent_of_u32 (ent_to_uint32 c_EntityId_SPDPReader) = c_EntityId_SPDPReader.
Proof.
  apply ent_u32_roundtrip; [by vm_compute|]. split; [done|]. repeat constructor; by vm_compute.
Defined.

Lemma guid_ok_unknown_prefix n : guid_ok (Guid c_GuidPrefix_Unknown (ent_of_u32 n)).
Proof.
  split; [split; [done | repeat constructor; by vm_compute]|]. split; [done|].
  pose proof (le_split_u8 4 n) as Hs. cbn [entityId ent_of_u32 ent_value le_split ent_reverse] in *.
  rewrite !Forall_cons_iff in Hs |- *. tauto.
Qed.

(** The order of GUIDs that the maps of the library use is a strict total order whose
    equivalence is equality of the identifiers. *)
Lemma guid_order_total g1 g2 g3 :
  guid_ok g1 → guid_ok g2 → guid_ok g3 →
  guid_ltb g1 g1 = false ∧
  (guid_ltb g1 g2 = true → guid_ltb g2 g3 = true → guid_ltb g1 g3 = true) ∧
  (guid_ltb g1 g2 = false → guid_ltb g2 g1 = false → g1 = g2) ∧
  (guid_eqb g1 g2 = true ↔ g1 = g2) ∧ guid_neb g1 g2 = negb (guid_eqb g1 g2).
Proof.
  intros H1 H2 H3. rewrite !guid_ltb_memcmp by done.
  set (bytes g := pfx_value (guidPrefix g) ++ ent_value (entityId g)).
  assert (∀ g, guid_ok g → length (bytes g) = 16%nat) as Hlen.
  { intros g [[Lp _] [Le _]]. unfold bytes. by rewrite length_app, Lp, Le. }
  pose proof (Hlen _ H1) as L1. pose proof (Hlen _ H2) as L2. pose proof (Hlen _ H3) as L3.
  fold (bytes g1) (bytes g2) (bytes g3). split; [|split; [|split; [|split]]].
  - rewrite (proj2 (memcmp_eq (bytes g1) (bytes g1) eq_refl) eq_refl). done.
  - intros H12 H23. destruct (memcmp_trans (bytes g1) (bytes g2) (bytes g3)) as [Hle Hz]; [congruence.. | lia | lia |].
    destruct (Z.eq_dec (memcmp (bytes g1) (bytes g3)) 0) as [E|]; [apply Hz in E; lia | lia].
  - intros H12 H21. rewrite memcmp_swap in H21 by congruence.
    assert (bytes g1 = bytes g2) as E by (apply memcmp_eq; [congruence | lia]).
    destruct H1 as [[Lp1 _] _], H2 as [[Lp2 _] _]. unfold bytes in E.
    apply app_inj_1 in E as [Ep Ee]; [|congruence]. destruct g1 as [[] []], g2 as [[] []]. cbn in *. congruence.
  - by apply guid_eqb_eq.
  - unfold guid_neb, guid_eqb, pfx_neb, ent_neb, pfx_eqb. destruct (memcmp _ _ =? 0), (ent_eqb _ _); done.
Qed.

