(* ===== verification/TimedEvent.v ===== *)
(** * Timed events (src/cpp/rtps/resources/TimedEventImpl.cpp, TimedEvent.cpp)

    A timed event is the state machine INACTIVE, READY, WAITING that the owner
    of the event and the thread of the event service move with atomic
    exchanges. Time points are nanoseconds, intervals microseconds.

    The functions of [TimedEvent] also talk to the event service; what they tell
    it is returned next to the new state. *)

From Stdlib Require Import ZArith Lia ZifyBool.
From stdpp Require Import base numbers list option.
From S2P Require Import Prelude.

Open Scope Z_scope.

(** [dds::Duration_t] *)
Record Duration_t := Duration { dur_seconds : Z; dur_nanosec : Z }.

(** [TimeConv::Duration_t2MicroSecondsInt64]: the quotient of the nanoseconds is computed in
    double precision and truncated, which is exact for a 32-bit numerator. *)
Definition Duration_t2MicroSecondsInt64 (t : Duration_t) : Z :=
  dur_nanosec t / 1000 + dur_seconds t * 1000000.

Inductive TimerState := INACTIVE | READY | WAITING.

#[global] Instance TimerState_eq_dec : EqDecision TimerState.
Proof. solve_decision. Defined.

Record TimedEventImpl := TimedEventMk {
  te_interval : Z;
  te_next : Z;
  te_state : TimerState
}.

#[global] Instance TimedEventImpl_eq_dec : EqDecision TimedEventImpl.
Proof. solve_decision. Defined.

Definition te_set_state (s : TimerState) (e : TimedEventImpl) : TimedEventImpl :=
  TimedEventMk (te_interval e) (te_next e) s.
Definition te_set_next (t : Z) (e : TimedEventImpl) : TimedEventImpl :=
  TimedEventMk (te_interval e) t (te_state e).
Definition te_set_interval (i : Z) (e : TimedEventImpl) : TimedEventImpl :=
  TimedEventMk i (te_next e) (te_state e).

(** [now] is the reading of the steady clock at construction. *)
Definition te_make (interval now : Z) : TimedEventImpl := TimedEventMk interval now INACTIVE.

Definition te_go_ready (e : TimedEventImpl) : bool * TimedEventImpl :=
  if decide (te_state e = INACTIVE) then (true, te_set_state READY e) else (false, e).

Definition te_go_cancel (e : TimedEventImpl) : bool * TimedEventImpl :=
  (bool_decide (te_state e ≠ INACTIVE), te_set_state INACTIVE e).

(** The second component is the value left in [expected] by the exchange. *)
Definition te_update (current_time cancel_time : Z) (e : TimedEventImpl) : bool * TimedEventImpl :=
  if decide (te_state e = READY)
  then (true, te_set_next (current_time + 1000 * te_interval e) (te_set_state WAITING e))
  else let expected := te_state e in
       if decide (expected = INACTIVE)
       then (false, te_set_next cancel_time e)
       else (true, e).

(** [trigger] of an event that has a callback. The callback runs while the event is INACTIVE
    and may restart or cancel it: it is a function on the event that says whether to restart. *)
Definition te_trigger (callback : TimedEventImpl → bool * TimedEventImpl)
    (current_time cancel_time : Z) (e : TimedEventImpl) : TimedEventImpl :=
  if decide (te_state e = WAITING) then
    let (restart, e') := callback (te_set_state INACTIVE e) in
    if restart then
      if decide (te_state e' = INACTIVE)
      then te_set_next (current_time + 1000 * te_interval e') (te_set_state WAITING e')
      else te_set_next cancel_time e'
    else te_set_next cancel_time e'
  else te_set_next cancel_time e.

(** What the event thread does to an event, one exchange at a time: [update], the exchange of
    [trigger] before the callback, the one after a callback that asks for a restart ([restarts]
    says whether the callback ever does), and the time that [trigger] sets at its end. The owner
    may act on the event between any two of them. *)
Inductive te_thread (restarts : bool) : TimedEventImpl → TimedEventImpl → Prop :=
| te_thread_update current_time cancel_time e : te_thread restarts e (snd (te_update current_time cancel_time e))
| te_thread_trigger e : te_state e = WAITING → te_thread restarts e (te_set_state INACTIVE e)
| te_thread_restart current_time e :
    restarts = true → te_state e = INACTIVE →
    te_thread restarts e (te_set_next (current_time + 1000 * te_interval e) (te_set_state WAITING e))
| te_thread_end cancel_time e : te_thread restarts e (te_set_next cancel_time e).

Lemma te_thread_inactive e e' : te_thread false e e' → te_state e = INACTIVE → te_state e' = INACTIVE.
Proof. intros [] E; try done. unfold te_update. rewrite E. done. Qed.

Lemma te_thread_not_ready b e e' : te_thread b e e' → te_state e ≠ READY → te_state e' ≠ READY.
Proof.
  intros Ht E. destruct Ht as [now cancel e|e Hw|now e _ Hi|cancel e]; try done.
  unfold te_update. rewrite decide_False by done. by destruct (decide (te_state e = INACTIVE)).
Qed.

Definition te_update_interval (interval : Duration_t) (e : TimedEventImpl) : TimedEventImpl :=
  te_set_interval (Duration_t2MicroSecondsInt64 interval) e.

(** [interval] is a whole number of milliseconds, which a double holds exactly. *)
Definition te_update_interval_millisec (interval : Z) (e : TimedEventImpl) : TimedEventImpl :=
  te_set_interval (interval * 1000) e.

Definition te_getIntervalMsec (e : TimedEventImpl) : Z := Z.quot (te_interval e) 1000.

(** ** TimedEvent *)

(** What an event asks of the event service. *)
Inductive ServiceCall := Notify | RegisterTimer | UnregisterTimer.

Definition te_cancel_timer (e : TimedEventImpl) : TimedEventImpl * list ServiceCall :=
  let (cancelled, e') := te_go_cancel e in (e', if cancelled then [Notify] else []).

Definition te_restart_timer (e : TimedEventImpl) : TimedEventImpl * list ServiceCall :=
  let (ready, e') := te_go_ready e in (e', if ready then [Notify] else []).

Definition te_recreate_timer (e : TimedEventImpl) : TimedEventImpl * list ServiceCall :=
  let calls := [UnregisterTimer] in
  let (_, e') := te_go_cancel e in
  (e', calls ++ [RegisterTimer]).
