(* ===== verification/Time.v ===== *)
(** * RTPS time (src/cpp/rtps/common/Time_t.cpp, include/fastdds/rtps/common/Time_t.hpp)

    A time is kept both as a fraction of a second in units of 2^-32 s and in
    nanoseconds. The conversion from nanoseconds searches for a fraction that
    converts back to them with a loop; its model takes the number of rounds
    allowed as fuel. *)

From Stdlib Require Import ZArith Lia ZifyBool.
From stdpp Require Import base numbers list option.
From S2P Require Import Prelude TimedEvent.

Open Scope Z_scope.

Definition C_FRACTIONS_PER_SEC : Z := 4294967296.
Definition C_NANOSECONDS_PER_SEC : Z := 1000000000.

Definition frac_to_nano (fractions : Z) : Z :=
  u32 (u64 (fractions * C_NANOSECONDS_PER_SEC) / C_FRACTIONS_PER_SEC).

Definition nano_to_frac (nanosecs : Z) : Z :=
  u32 (u64 (nanosecs * C_FRACTIONS_PER_SEC) / C_NANOSECONDS_PER_SEC).

Record Time_t := Time { seconds_ : Z; fraction_ : Z; nanosec_ : Z }.

#[global] Instance Time_eq_dec : EqDecision Time_t.
Proof. solve_decision. Defined.

Definition time_zero : Time_t := Time 0 0 0.

Definition set_fraction (frac : Z) (t : Time_t) : Time_t :=
  Time (seconds_ t) frac (if frac =? 0xffffffff then 0xffffffff else frac_to_nano frac).

(** The loop of [set_nanosec]: the fraction it stops at. *)
Fixpoint nano_loop (fuel : nat) (nanos fraction nano_check : Z) : option Z :=
  if nano_check =? nanos then Some fraction
  else match fuel with
       | O => None
       | S fuel' => let fraction' := u32 (fraction + 1) in
                    nano_loop fuel' nanos fraction' (frac_to_nano fraction')
       end.

Definition set_nanosec (fuel : nat) (nanos : Z) (t : Time_t) : option Time_t :=
  let frac := if nanos =? 0xffffffff then 0xffffffff else nano_to_frac nanos in
  if negb (frac =? 0xffffffff)
  then f ← nano_loop fuel nanos frac (frac_to_nano frac); Some (Time (seconds_ t) f nanos)
  else Some (Time (seconds_ t) frac nanos).

(** [Time_t(int32_t sec, uint32_t frac)] *)
Definition time_make (sec frac : Z) : Time_t := set_fraction frac (Time sec 0 0).

Definition c_RTPSTimeInfinite : Time_t := time_make 0x7fffffff 0xffffffff.
Definition c_RTPSTimeZero : Time_t := time_make 0 0.
Definition c_RTPSTimeInvalid : Time_t := time_make (-1) 0xffffffff.

(** [Time_t(const dds::Time_t&)] and [from_duration_t] *)
Definition time_from_duration (fuel : nat) (d : Duration_t) : option Time_t :=
  set_nanosec fuel (dur_nanosec d) (Time (dur_seconds d) 0 0).

Definition time_to_duration (t : Time_t) : Duration_t := Duration (seconds_ t) (nanosec_ t).

Definition time_eqb (t1 t2 : Time_t) : bool :=
  if negb (seconds_ t1 =? seconds_ t2) then false
  else if negb (fraction_ t1 =? fraction_ t2) then false else true.

Definition time_ltb (t1 t2 : Time_t) : bool :=
  if seconds_ t1 <? seconds_ t2 then true
  else if seconds_ t1 >? seconds_ t2 then false
  else if fraction_ t1 <? fraction_ t2 then true else false.

Definition time_leb (t1 t2 : Time_t) : bool :=
  if seconds_ t1 <? seconds_ t2 then true
  else if seconds_ t1 >? seconds_ t2 then false
  else if fraction_ t1 <=? fraction_ t2 then true else false.

Definition time_to_ns (t : Time_t) : Z :=
  if time_eqb t c_RTPSTimeInfinite then -1
  else if time_eqb t c_RTPSTimeInvalid then -2
  else i64 (i64 (seconds_ t * C_NANOSECONDS_PER_SEC) + nanosec_ t).

(** The setter of the nanoseconds *)
Definition time_nanosec (fuel : nat) (nanos : Z) (t : Time_t) : option Time_t :=
  set_nanosec fuel (if nanos >=? C_NANOSECONDS_PER_SEC then nanos mod C_NANOSECONDS_PER_SEC else nanos) t.

Definition time_from_ns (fuel : nat) (nanosecs : Z) (t : Time_t) : option Time_t :=
  if nanosecs =? -1 then Some c_RTPSTimeInfinite
  else if nanosecs =? -2 then Some c_RTPSTimeInvalid
  else time_nanosec fuel (u32 (Z.rem nanosecs 1000000000))
         (Time (i32 (Z.quot nanosecs 1000000000)) (fraction_ t) (nanosec_ t)).

Definition time_add (ta tb : Time_t) : Time_t :=
  let result := time_make (i32 (seconds_ ta + seconds_ tb)) (u32 (fraction_ ta + fraction_ tb)) in
  if fraction_ result <? fraction_ ta
  then Time (i32 (seconds_ result + 1)) (fraction_ result) (nanosec_ result) else result.

Definition time_sub (ta tb : Time_t) : Time_t :=
  let result := time_make (i32 (seconds_ ta - seconds_ tb)) (u32 (fraction_ ta - fraction_ tb)) in
  if fraction_ result >? fraction_ ta
  then Time (i32 (seconds_ result - 1)) (fraction_ result) (nanosec_ result) else result.

(** ** Facts *)

Lemma frac_to_nano_val f : is_u32 f → frac_to_nano f = f * 1000000000 / 2 ^ 32.
Proof.
  intros Hf. unfold frac_to_nano, C_NANOSECONDS_PER_SEC, C_FRACTIONS_PER_SEC. rewrite u64_small by zwidth.
  apply u32_small. split; [apply Z.div_pos; zwidth|]. apply Z.div_lt_upper_bound; zwidth.
Qed.

Lemma frac_to_nano_lt f : is_u32 f → 0 <= frac_to_nano f < 1000000000.
Proof.
  intros Hf. rewrite frac_to_nano_val by done. split; [apply Z.div_pos; zwidth|].
  apply Z.div_lt_upper_bound; zwidth.
Qed.

Lemma nano_to_frac_val n : 0 <= n < 1000000000 → nano_to_frac n = n * 2 ^ 32 / 1000000000 ∧ 0 <= nano_to_frac n < 2 ^ 32 - 4.
Proof.
  intros Hn. unfold nano_to_frac, C_NANOSECONDS_PER_SEC, C_FRACTIONS_PER_SEC. rewrite u64_small by zwidth.
  assert (0 <= n * 4294967296 / 1000000000 < 2 ^ 32 - 4) as Hr.
  { split; [apply Z.div_pos; lia|]. apply Z.div_lt_upper_bound; zwidth. }
  rewrite u32_small by zwidth. done.
Qed.

(** One step suffices: the fraction found or the next one converts back to the nanoseconds. *)
Lemma nano_step n :
  0 <= n < 1000000000 →
  frac_to_nano (nano_to_frac n) = n ∨
  frac_to_nano (nano_to_frac n) ≠ n ∧ frac_to_nano (nano_to_frac n + 1) = n.
Proof.
  intros Hn. destruct (nano_to_frac_val n Hn) as [E Hr]. set (f := nano_to_frac n) in *.
  rewrite !frac_to_nano_val by zwidth.
  pose proof (Z.div_mod (n * 2 ^ 32) 1000000000 ltac:(lia)) as Hd.
  pose proof (Z.mod_pos_bound (n * 2 ^ 32) 1000000000 ltac:(lia)) as Hm. rewrite <- E in Hd.
  destruct (Z.eq_dec (f * 1000000000 / 2 ^ 32) n) as [|Hne]; [by left|]. right. split; [done|].
  symmetry. apply Z.div_unique with ((f + 1) * 1000000000 - 2 ^ 32 * n); [|lia]. left.
  change (2 ^ 32) with 4294967296 in *. lia.
Qed.

Lemma set_nanosec_spec fuel n t :
  0 <= n < 1000000000 → (0 < fuel)%nat →
  ∃ f, set_nanosec fuel n t = Some (Time (seconds_ t) f n) ∧ is_u32 f ∧ f <> 0xffffffff ∧ frac_to_nano f = n.
Proof.
  intros Hn Hf. destruct (nano_to_frac_val n Hn) as [E Hr]. unfold set_nanosec.
  replace (n =? 4294967295) with false by lia. replace (nano_to_frac n =? 4294967295) with false by (change (2 ^ 32) with 4294967296 in *; lia).
  cbn [negb]. destruct fuel as [|fuel]; [lia|]. cbn [nano_loop].
  destruct (nano_step n Hn) as [E1|[Hne E1]].
  - exists (nano_to_frac n). rewrite E1, Z.eqb_refl. split; [done|]. split_and!; zwidth || done.
  - exists (nano_to_frac n + 1). rewrite (proj2 (Z.eqb_neq _ _) Hne). rewrite (u32_small (nano_to_frac n + 1)) by zwidth.
    rewrite E1. destruct fuel; cbn [nano_loop]; rewrite Z.eqb_refl; (split; [done|]); split_and!; zwidth || done.
Qed.

(** ** Properties *)

(** Nanoseconds below one second always convert: the search for the fraction ends after at
    most one step, and the fraction found converts back to the same nanoseconds. *)
Theorem nanosec_conversion_terminates fuel n t :
  0 <= n < 1000000000 → (0 < fuel)%nat →
  ∃ f, set_nanosec fuel n t = Some (Time (seconds_ t) f n) ∧ nanosec_ (set_fraction f t) = n.
Proof.
  intros Hn Hf. destruct (set_nanosec_spec fuel n t Hn Hf) as (f & E & Hu & Hne & Ef). exists f. split; [done|].
  cbn. rewrite (proj2 (Z.eqb_neq _ _) Hne). done.
Qed.

Lemma nano_loop_diverges fuel n : ∀ f, 1000000000 <= n → is_u32 f → nano_loop fuel n f (frac_to_nano f) = None.
Proof.
  induction fuel as [|fuel IH]; intros f Hn Hf; cbn [nano_loop]; pose proof (frac_to_nano_lt f Hf);
    (destruct (Z.eqb_spec (frac_to_nano f) n); [lia|]); [done|]. apply IH; [done | apply u32_range].
Qed.

(** A duration whose nanoseconds are not normalised hangs the conversion to an RTPS time:
    with one second or more in the nanoseconds field (the value for infinite apart) no number of
    rounds makes the search end. *)
Theorem unnormalised_duration_never_converts fuel sec n :
  1000000000 <= n < 2 ^ 32 - 1 → nano_to_frac n ≠ 0xffffffff →
  time_from_duration fuel (Duration sec n) = None.
Proof.
  intros Hn Hne. unfold time_from_duration, set_nanosec. cbn [dur_nanosec dur_seconds].
  change (2 ^ 32) with 4294967296 in Hn. replace (n =? 4294967295) with false by lia.
  rewrite (proj2 (Z.eqb_neq _ _) Hne). cbn [negb]. rewrite nano_loop_diverges; [done | lia | apply u32_range].
Qed.

Lemma unnormalised_duration_never_converts_witness : time_from_duration 5000 (Duration 0 1500000000) = None.
Proof. apply unnormalised_duration_never_converts; by vm_compute. Defined.

(** Nanosecond counts round-trip: a non-negative count of a representable number of seconds
    comes back from [to_ns] after [from_ns]. *)
Lemma ns_roundtrip ns t :
  0 <= ns < 2 ^ 31 * 1000000000 → ∃ t', time_from_ns 1 ns t = Some t' ∧ time_to_ns t' = ns.
Proof.
  intros Hns. pose proof (Z.quot_rem' ns 1000000000) as Hqr. pose proof (Z.rem_bound_pos ns 1000000000 ltac:(lia) ltac:(lia)) as Hr.
  assert (0 <= Z.quot ns 1000000000 < 2 ^ 31) as Hq by (change (2 ^ 31) with 2147483648 in *; lia).
  unfold time_from_ns. replace (ns =? -1) with false by lia. replace (ns =? -2) with false by lia.
  unfold time_nanosec, C_NANOSECONDS_PER_SEC. rewrite (u32_small (Z.rem ns 1000000000)) by zwidth.
  replace (Z.rem ns 1000000000 >=? 1000000000) with false by lia. rewrite i32_small by zwidth.
  destruct (set_nanosec_spec 1 (Z.rem ns 1000000000) (Time (Z.quot ns 1000000000) (fraction_ t) (nanosec_ t)))
    as (f & -> & Hu & Hne & _); [lia | lia |].
  eexists. split; [done|]. unfold time_to_ns, time_eqb. cbn [seconds_ fraction_ nanosec_ c_RTPSTimeInfinite c_RTPSTimeInvalid time_make set_fraction].
  replace (f =? 4294967295) with false by (by symmetry; apply Z.eqb_neq). cbn [negb].
  replace (negb (Z.quot ns 1000000000 =? -1)) with true by lia.
  assert (i64 (i64 (Z.quot ns 1000000000 * C_NANOSECONDS_PER_SEC) + Z.rem ns 1000000000) = ns) as ->.
  { unfold C_NANOSECONDS_PER_SEC, i64. 
    rewrite (sext_small 64 (Z.quot ns 1000000000 * 1000000000)) by (change (2 ^ (64 - 1)) with 9223372036854775808; zwidth).
    rewrite sext_small by (change (2 ^ (64 - 1)) with 9223372036854775808; zwidth). lia. }
  by destruct (negb _).
Qed.

