(* ===== verification/CacheChange.v ===== *)
(** * CacheChange_t (include/fastdds/rtps/common/CacheChange.hpp)

    A change of the history with its serialized payload, and the reassembly of
    fragmented changes. While fragments are missing, the list of the missing ones
    is threaded through the payload buffer itself: the first aligned word of the
    bytes of a missing fragment holds the index of the next missing one. The
    payload is therefore modelled as the memory block it is, and an access
    outside of it has no result. *)

From Stdlib Require Import ZArith Lia ZifyBool.
From stdpp Require Import base numbers list option list_numbers.
From S2P Require Import Prelude SequenceNumber BitmapRange Bytes Guid Time.

Open Scope Z_scope.

Inductive ChangeKind_t := ALIVE | NOT_ALIVE_DISPOSED | NOT_ALIVE_UNREGISTERED | NOT_ALIVE_DISPOSED_UNREGISTERED.

#[global] Instance ChangeKind_eq_dec : EqDecision ChangeKind_t.
Proof. solve_decision. Defined.

(** [data] is the block of [max_size] octets. *)
Record SerializedPayload_t := Payload {
  pl_encapsulation : Z;
  pl_length : Z;
  pl_data : list Z;
  pl_is_serialized_key : bool
}.

Definition pl_default : SerializedPayload_t := Payload 0 0 [] false.

(** The instance handle is unset or sixteen octets. *)
Definition InstanceHandle_t : Type := option (list Z).

Record CacheChange_t := {
  cc_kind : ChangeKind_t;
  writerGUID : GUID_t;
  instanceHandle : InstanceHandle_t;
  sequenceNumber : SequenceNumber_t;
  serializedPayload : SerializedPayload_t;
  inline_qos : SerializedPayload_t;
  sourceTimestamp : Time_t;
  vendor_id : list Z;
  fragment_size_ : Z;
  fragment_count_ : Z;
  first_missing_fragment_ : Z
}.

Definition cc_set_fragments (payload : SerializedPayload_t) (fragment_size fragment_count first_missing : Z)
    (c : CacheChange_t) : CacheChange_t :=
  {| cc_kind := cc_kind c; writerGUID := writerGUID c; instanceHandle := instanceHandle c;
     sequenceNumber := sequenceNumber c; serializedPayload := payload; inline_qos := inline_qos c;
     sourceTimestamp := sourceTimestamp c; vendor_id := vendor_id c;
     fragment_size_ := fragment_size; fragment_count_ := fragment_count;
     first_missing_fragment_ := first_missing |}.

Definition is_fully_assembled (c : CacheChange_t) : bool := first_missing_fragment_ c >=? fragment_count_ c.

Definition contains_first_fragment (c : CacheChange_t) : bool := 0 <? first_missing_fragment_ c.

(** Offset of the link of a fragment: the mask [~3u] is a 32-bit constant. *)
Definition next_fragment_pointer (fragment_size fragment_index : Z) : Z :=
  Z.land (u64 (u64 (fragment_size * fragment_index) + 3)) 0xfffffffc.

Definition get_next_missing_fragment (data : list Z) (fragment_size fragment_index : Z) : option Z :=
  load32 data (next_fragment_pointer fragment_size fragment_index).

Definition set_next_missing_fragment (data : list Z) (fragment_size fragment_index next_fragment_index : Z) :
    option (list Z) :=
  store32 data (next_fragment_pointer fragment_size fragment_index) next_fragment_index.

(** The loop [for (i = 1; i <= fragment_count_; i++) set_next_missing_fragment(i - 1, i);] with
    [n] rounds left. *)
Fixpoint create_fragment_list (n : nat) (fragment_size i : Z) (data : list Z) : option (list Z) :=
  match n with
  | O => Some data
  | S n' => data' ← set_next_missing_fragment data fragment_size (i - 1) i;
            create_fragment_list n' fragment_size (i + 1) data'
  end.

Definition setFragmentSize (fragment_size : Z) (create : bool) (c : CacheChange_t) : option CacheChange_t :=
  let payload := serializedPayload c in
  if fragment_size >? 0 then
    let count := u32 (pl_length payload + fragment_size - 1) / fragment_size in
    if create then
      data ← create_fragment_list (Z.to_nat count) fragment_size 1 (pl_data payload);
      Some (cc_set_fragments (Payload (pl_encapsulation payload) (pl_length payload) data (pl_is_serialized_key payload))
              fragment_size count 0 c)
    else Some (cc_set_fragments payload fragment_size count count c)
  else Some (cc_set_fragments payload fragment_size 0 0 c).

(** [while (f < last) f = get_next_missing_fragment(f);] returns the fragment it stops at and
    whether it moved. *)
Fixpoint skip_missing (fuel : nat) (data : list Z) (fragment_size last f : Z) (changed : bool) : option (Z * bool) :=
  if f <? last then
    match fuel with
    | O => None
    | S fuel' => next ← get_next_missing_fragment data fragment_size f;
                 skip_missing fuel' data fragment_size last next true
    end
  else Some (f, changed).

(** The search for the missing fragment previous to [initial], and the removal of the ones up to
    [last] from the list. *)
Fixpoint unlink_missing (fuel : nat) (data : list Z) (fragment_size initial last current : Z) : option (list Z * bool) :=
  if current <? initial then
    match fuel with
    | O => None
    | S fuel' =>
        next ← get_next_missing_fragment data fragment_size current;
        if next >=? initial then
          '(next', changed) ← skip_missing fuel' data fragment_size last next false;
          if (changed : bool) then
            data' ← set_next_missing_fragment data fragment_size current next'; Some (data', true)
          else Some (data, false)
        else unlink_missing fuel' data fragment_size initial last next
    end
  else Some (data, false).

(** The loops visit increasing fragment indexes below the count when the list is intact; the fuel
    is one more than the number of fragments. *)
Definition received_fragments (initial_fragment num_of_fragments : Z) (c : CacheChange_t) : option (bool * CacheChange_t) :=
  let payload := serializedPayload c in
  let fs := fragment_size_ c in
  let count := fragment_count_ c in
  let fuel := S (Z.to_nat count) in
  if (fs >? 0) && (initial_fragment <? count) then
    let last := u32 (initial_fragment + num_of_fragments) in
    let last := if last >? count then count else last in
    if initial_fragment <=? first_missing_fragment_ c then
      '(first, changed) ← skip_missing fuel (pl_data payload) fs last (first_missing_fragment_ c) false;
      Some (changed, cc_set_fragments payload fs count first c)
    else
      '(data, changed) ← unlink_missing fuel (pl_data payload) fs initial_fragment last (first_missing_fragment_ c);
      Some (changed, cc_set_fragments (Payload (pl_encapsulation payload) (pl_length payload) data (pl_is_serialized_key payload))
                       fs count (first_missing_fragment_ c) c)
  else Some (false, c).

(** [add_fragments]; the incoming payload is a block of exactly its [length] octets. *)
Definition add_fragments (incoming : SerializedPayload_t) (fragment_starting_num fragments_in_submessage : Z)
    (c : CacheChange_t) : option (bool * CacheChange_t) :=
  let payload := serializedPayload c in
  let original_offset := u32 (u32 (fragment_starting_num - 1) * fragment_size_ c) in
  let incoming_length := u32 (fragment_size_ c * fragments_in_submessage) in
  let last_fragment_index := u32 (fragment_starting_num + fragments_in_submessage - 1) in
  if negb (Bool.eqb (pl_is_serialized_key payload) (pl_is_serialized_key incoming)) then Some (false, c)
  else if last_fragment_index >? fragment_count_ c then Some (false, c)
  else if (last_fragment_index <? fragment_count_ c) && (pl_length incoming <? incoming_length) then Some (false, c)
  else
    let incoming_length := if last_fragment_index <? fragment_count_ c then incoming_length
                           else u32 (pl_length payload - original_offset) in
    if u32 (original_offset + incoming_length) >? pl_length payload then Some (false, c)
    else
      '(changed, c') ← received_fragments (u32 (fragment_starting_num - 1)) fragments_in_submessage c;
      if (changed : bool) then
        bs ← mem_load (pl_data incoming) 0 incoming_length;
        data ← mem_store (pl_data (serializedPayload c')) original_offset bs;
        let c'' := cc_set_fragments (Payload (pl_encapsulation payload) (pl_length payload) data (pl_is_serialized_key payload))
                     (fragment_size_ c') (fragment_count_ c') (first_missing_fragment_ c') c' in
        Some (is_fully_assembled c'', c'')
      else Some (is_fully_assembled c', c').

(** The loop of [get_missing_fragments] over the list of missing fragments. *)
Fixpoint missing_fragments_loop (fuel : nat) (data : list Z) (fragment_size count current : Z)
    (frag_sns : FragmentNumberSet_t) : option FragmentNumberSet_t :=
  if current <? count then
    match fuel with
    | O => None
    | S fuel' =>
        next ← get_next_missing_fragment data fragment_size current;
        missing_fragments_loop fuel' data fragment_size count next (fst (bm_add frag_sns (u32 (current + 1) : FragmentNumber_t)))
    end
  else Some frag_sns.

Definition get_missing_fragments (c : CacheChange_t) : option FragmentNumberSet_t :=
  missing_fragments_loop (S (Z.to_nat (fragment_count_ c))) (pl_data (serializedPayload c)) (fragment_size_ c)
    (fragment_count_ c) (first_missing_fragment_ c) (bm_set_base (u32 (first_missing_fragment_ c + 1) : FragmentNumber_t)).
