(* ===== verification/CDRMessage.v ===== *)
(** * CDRMessage (src/cpp/rtps/messages/CDRMessage.cpp, include/fastdds/rtps/common/CDRMessage_t.hpp)

    Reading and writing of the fields of RTPS messages. A function works on a
    message and may access its buffer outside of the allocated block: it is a
    computation in a monad with the message as state, without result on such an
    access. The output argument of a read function is an argument, the value it
    has before the call, and part of the result; a pointer that may be null is an
    option. The message itself is never null.

    Positions and lengths are [uint32_t] and wrap around. The blocks are smaller
    than 2^32 bytes, so that a loop over [buffer[pos + i]] leaves the block before
    its index wraps: it is the access to the whole range. *)

From Stdlib Require Import ZArith Lia ZifyBool.
From stdpp Require Import base numbers list option list_numbers.
From S2P Require Import Prelude SequenceNumber BitmapRange Bytes Guid Time.

Open Scope Z_scope.

Inductive Endianness_t := BIGEND | LITTLEEND.

#[global] Instance Endianness_eq_dec : EqDecision Endianness_t.
Proof. solve_decision. Defined.

(** The target is little endian. *)
Definition DEFAULT_ENDIAN : Endianness_t := LITTLEEND.

Definition RTPSMESSAGE_COMMON_RTPS_PAYLOAD_SIZE : Z := 536.
Definition RTPSMESSAGE_HEADER_SIZE : Z := 20.
Definition RTPSMESSAGE_SUBMESSAGEHEADER_SIZE : Z := 4.
Definition RTPSMESSAGE_OCTETSTOINLINEQOS_DATASUBMSG : Z := 16.
Definition RTPSMESSAGE_OCTETSTOINLINEQOS_DATAFRAGSUBMSG : Z := 28.

(** [msg_buffer] is the block the pointer designates, [None] the null pointer. *)
Record CDRMessage_t := {
  msg_buffer : option (list Z);
  msg_pos : Z;
  msg_max_size : Z;
  msg_reserved_size : Z;
  msg_length : Z;
  msg_endian : Endianness_t;
  msg_wraps : bool
}.

Definition msg_block (m : CDRMessage_t) : list Z := default [] (msg_buffer m).

Definition msg_set_pos (p : Z) (m : CDRMessage_t) : CDRMessage_t :=
  {| msg_buffer := msg_buffer m; msg_pos := p; msg_max_size := msg_max_size m;
     msg_reserved_size := msg_reserved_size m; msg_length := msg_length m; msg_endian := msg_endian m;
     msg_wraps := msg_wraps m |}.

Definition msg_set_endian (e : Endianness_t) (m : CDRMessage_t) : CDRMessage_t :=
  {| msg_buffer := msg_buffer m; msg_pos := msg_pos m; msg_max_size := msg_max_size m;
     msg_reserved_size := msg_reserved_size m; msg_length := msg_length m; msg_endian := e;
     msg_wraps := msg_wraps m |}.

Section Allocation.
(** What [malloc] returns for a size: a block with arbitrary contents, or nothing. *)
Context (malloc : Z → option (list Z)).

Definition msg_make (size : Z) : CDRMessage_t :=
  {| msg_buffer := if negb (size =? 0) then malloc size else None; msg_pos := 0; msg_max_size := size;
     msg_reserved_size := size; msg_length := 0; msg_endian := DEFAULT_ENDIAN; msg_wraps := false |}.

Definition initCDRMsg (payload_size : Z) (m : CDRMessage_t) : CDRMessage_t :=
  let '(buffer, max_size) :=
    match msg_buffer m with
    | None => let size := u32 (payload_size + RTPSMESSAGE_COMMON_RTPS_PAYLOAD_SIZE) in (malloc size, size)
    | Some b => (Some b, msg_max_size m)
    end in
  {| msg_buffer := buffer; msg_pos := 0; msg_max_size := max_size; msg_reserved_size := msg_reserved_size m;
     msg_length := 0; msg_endian := DEFAULT_ENDIAN; msg_wraps := msg_wraps m |}.
End Allocation.

(** [init]: the message of a block of [size] octets. *)
Definition msg_init (block : list Z) (size : Z) : CDRMessage_t :=
  {| msg_buffer := Some block; msg_pos := 0; msg_max_size := size; msg_reserved_size := size;
     msg_length := 0; msg_endian := DEFAULT_ENDIAN; msg_wraps := true |}.

(** ** The monad *)

Definition CDR (A : Type) : Type := CDRMessage_t → option (A * CDRMessage_t).

#[global] Instance CDR_ret : MRet CDR := λ A a m, Some (a, m).
#[global] Instance CDR_bind : MBind CDR := λ A B k c m, match c m with Some (a, m') => k a m' | None => None end.
#[global] Instance CDR_fmap : FMap CDR := λ A B f c m, match c m with Some (a, m') => Some (f a, m') | None => None end.

Definition get_msg : CDR CDRMessage_t := λ m, Some (m, m).
Definition put_msg (m' : CDRMessage_t) : CDR () := λ _, Some ((), m').
Definition modify_msg (f : CDRMessage_t → CDRMessage_t) : CDR () := λ m, Some ((), f m).
Definition cdr_fault {A} : CDR A := λ _, None.
Definition cdr_option {A} (o : option A) : CDR A := λ m, match o with Some a => Some (a, m) | None => None end.

(** [msg->pos += n] *)
Definition advance (n : Z) : CDR () := modify_msg (λ m, msg_set_pos (u32 (msg_pos m + n)) m).

(** [msg->pos = (msg->pos + 3u) & ~3u] *)
Definition align4 : CDR () := modify_msg (λ m, msg_set_pos (Z.land (u32 (msg_pos m + 3)) (2 ^ 32 - 4)) m).

(** The octets from the position on. *)
Definition peek (len : Z) : CDR (list Z) := λ m, bs ← mem_load (msg_block m) (msg_pos m) len; Some (bs, m).

(** Whether the message has [len] octets left: [msg->pos + len <= msg->length]. *)
Definition has_left (len : Z) (m : CDRMessage_t) : bool := negb (u32 (msg_pos m + len) >? msg_length m).

(** ** Reading *)

(** Copies [length] octets to the object [o], whose size limits them. *)
Definition readData (o : option (list Z)) (length : Z) : CDR (bool * option (list Z)) :=
  m ← get_msg;
  if negb (has_left length m) then mret (false, o)
  else if 0 <? length then
    match o with
    | None => mret (false, None)
    | Some dest =>
        bs ← peek length;
        dest' ← cdr_option (mem_store dest 0 bs);
        advance length;; mret (true, Some dest')
    end
  else mret (true, o).

(** The octets in reverse; the callers have checked the length. *)
Definition readDataReversed (length : Z) : CDR (list Z) :=
  bs ← peek length; advance length;; mret (rev bs).

(** The octets of an object of [size] octets, in the order of the target. *)
Definition read_object (size : Z) : CDR (list Z) :=
  m ← get_msg;
  if decide (msg_endian m = DEFAULT_ENDIAN) then bs ← peek size; advance size;; mret bs
  else readDataReversed size.

Definition readInt32 (lo : Z) : CDR (bool * Z) :=
  m ← get_msg;
  if negb (has_left 4 m) then mret (false, lo)
  else dest ← read_object 4; mret (true, i32 (le_combine dest)).

Definition readUInt32 (ulo : Z) : CDR (bool * Z) :=
  m ← get_msg;
  if negb (has_left 4 m) then mret (false, ulo)
  else dest ← read_object 4; mret (true, le_combine dest).

Definition readInt64 (lolo : Z) : CDR (bool * Z) :=
  m ← get_msg;
  if negb (has_left 8 m) then mret (false, lolo)
  else dest ← read_object 8; mret (true, i64 (le_combine dest)).

Definition readUInt64 (ulolo : Z) : CDR (bool * Z) :=
  m ← get_msg;
  if negb (has_left 8 m) then mret (false, ulolo)
  else dest ← read_object 8; mret (true, le_combine dest).

(** The two octets, exchanged for the other byte order. *)
Definition read_pair : CDR (list Z) :=
  m ← get_msg; bs ← peek 2; advance 2;;
  mret (if decide (msg_endian m = DEFAULT_ENDIAN) then bs else rev bs).

Definition readInt16 (v : Z) : CDR (bool * Z) :=
  m ← get_msg;
  if negb (has_left 2 m) then mret (false, v) else o ← read_pair; mret (true, i16 (le_combine o)).

Definition readUInt16 (v : Z) : CDR (bool * Z) :=
  m ← get_msg;
  if negb (has_left 2 m) then mret (false, v) else o ← read_pair; mret (true, le_combine o).

Definition readOctet (o : Z) : CDR (bool * Z) :=
  m ← get_msg;
  if negb (has_left 1 m) then mret (false, o)
  else bs ← peek 1; advance 1;; mret (true, le_combine bs).

Definition readEntityId (id : EntityId_t) : CDR (bool * EntityId_t) :=
  m ← get_msg;
  if negb (has_left 4 m) then mret (false, id)
  else bs ← peek 4; advance 4;; mret (true, EntityId bs).

(** The size is assigned: four octets are left when it is read. *)
Definition read_array_with_max_size (arr : list Z) (max_size : Z) : CDR (bool * list Z) :=
  m ← get_msg;
  if negb (has_left 4 m) then mret (false, arr)
  else
    '(valid, datasize) ← readUInt32 0;
    if max_size <? datasize then mret (false, arr)
    else
      '(valid2, arr') ← readData (Some arr) datasize;
      align4;; mret (valid && valid2, default arr arr').

Definition readSequenceNumber (sn : SequenceNumber_t) : CDR (bool * SequenceNumber_t) :=
  m ← get_msg;
  if negb (has_left 8 m) then mret (false, sn)
  else
    '(valid, h) ← readInt32 (high sn);
    '(valid2, l) ← readUInt32 (low sn);
    mret (valid && valid2, SeqNum h l).

(** [for (i = 0; valid && (i < n_longs); ++i) valid &= readUInt32(msg, &bitmap[i])]: the words
    read. *)
Fixpoint read_words (n_longs : nat) (valid : bool) : CDR (bool * list Z) :=
  match n_longs with
  | O => mret (valid, [])
  | S n =>
      if valid then
        '(valid', w) ← readUInt32 0;
        '(valid'', ws) ← read_words n valid';
        mret (valid'', w :: ws)
      else mret (valid, [])
  end.

Definition readSequenceNumberSet : CDR SequenceNumberSet_t :=
  '(v1, seqNum) ← readSequenceNumber sn_zero;
  '(v2, n) ← readUInt32 0;
  let valid := v1 && v2 && (n <=? 256) && (0 <=? high seqNum) in
  let numBits := if valid && (high seqNum =? 2 ^ 31 - 1) then Z.min n (2 ^ 32 - 1 - low seqNum) else n in
  let n_longs := u32 (numBits + 31) / 32 in
  p ← read_words (if valid then Z.to_nat n_longs else O) valid;
  let '(valid, bitmap) := p : bool * list Z in
  mret (if valid then bm_bitmap_set (bm_make_max seqNum numBits) numBits bitmap
        else bm_make sn_unknown).

Definition readFragmentNumberSet (fns : FragmentNumberSet_t) : CDR (bool * FragmentNumberSet_t) :=
  '(v1, base) ← readUInt32 0;
  '(v2, numBits) ← readUInt32 0;
  let valid := v1 && v2 && (numBits <=? 256) in
  let n_longs := u32 (numBits + 31) / 32 in
  p ← read_words (if valid then Z.to_nat n_longs else O) valid;
  let '(valid, bitmap) := p : bool * list Z in
  mret (valid, if valid then bm_bitmap_set (bm_set_base base) numBits bitmap else fns).

Definition readTimestamp (ts : Time_t) : CDR (bool * Time_t) :=
  '(v1, seconds) ← readInt32 (seconds_ ts);
  '(v2, frac) ← readUInt32 0;
  mret (v1 && v2, set_fraction frac (Time seconds (fraction_ ts) (nanosec_ ts))).

Definition read_locator (loc : Locator_t) : CDR (bool * Locator_t) :=
  m ← get_msg;
  if negb (has_left 24 m) then mret (false, loc)
  else
    '(v1, kind) ← readInt32 (loc_kind loc);
    '(v2, port) ← readUInt32 (loc_port loc);
    '(v3, address) ← readData (Some (loc_address loc)) 16;
    mret (v1 && v2 && v3, Locator kind port (default [] address)).

(** [LocatorList::push_back] *)
Definition locators_push_back (loc : Locator_t) (l : list Locator_t) : list Locator_t :=
  if existsb (λ x, bool_decide (loc = x)) l then l else l ++ [loc].

Fixpoint read_locators (n : nat) (valid : bool) (l : list Locator_t) : CDR (bool * list Locator_t) :=
  match n with
  | O => mret (valid, l)
  | S n' => '(v, loc) ← read_locator loc_default;
            read_locators n' (valid && v) (locators_push_back loc l)
  end.

Definition read_locator_list (l : list Locator_t) : CDR (bool * list Locator_t) :=
  '(valid, locator_list_size) ← readUInt32 0;
  read_locators (Z.to_nat locator_list_size) valid l.

(** [std::vector::resize] *)
Definition vec_resize (n : Z) (v : list Z) : list Z := take (Z.to_nat n) v ++ replicate (Z.to_nat n - length v) 0.

Definition readOctetVector (ocvec : list Z) : CDR (bool * list Z) :=
  m ← get_msg;
  if negb (has_left 4 m) then mret (false, ocvec)
  else
    '(valid, vecsize) ← readUInt32 0;
    '(valid2, v) ← readData (Some (vec_resize vecsize ocvec)) vecsize;
    align4;; mret (valid && valid2, default [] v).

(** The characters of the string, which excludes the terminator. *)
Definition read_string (stri : list Z) : CDR (bool * list Z) :=
  '(valid, str_size) ← readUInt32 1;
  m ← get_msg;
  if negb (has_left str_size m) then mret (false, stri)
  else
    s ← (if 1 <? str_size then peek (str_size - 1) else mret []);
    advance str_size;; align4;; mret (valid, s).

(** ** Writing *)

Definition hasSpace (length : Z) (m : CDRMessage_t) : bool := u32 (msg_pos m + length) <=? msg_max_size m.

(** Writes octets at the position. *)
Definition poke (bs : list Z) : CDR () := λ m,
  b ← mem_store (msg_block m) (msg_pos m) bs;
  Some ((), {| msg_buffer := match msg_buffer m with Some _ => Some b | None => None end; msg_pos := msg_pos m;
               msg_max_size := msg_max_size m; msg_reserved_size := msg_reserved_size m;
               msg_length := msg_length m; msg_endian := msg_endian m; msg_wraps := msg_wraps m |}).

(** [msg->pos += n; msg->length += n] *)
Definition grow (n : Z) : CDR () := modify_msg (λ m,
  {| msg_buffer := msg_buffer m; msg_pos := u32 (msg_pos m + n); msg_max_size := msg_max_size m;
     msg_reserved_size := msg_reserved_size m; msg_length := u32 (msg_length m + n);
     msg_endian := msg_endian m; msg_wraps := msg_wraps m |}).

Definition copyToBuffer (data : list Z) (reverse : bool) : CDR () :=
  poke (if reverse then rev data else data);; grow (Z.of_nat (length data)).

(** The first [length] octets of the block [data]. *)
Definition addData (data : option (list Z)) (length : Z) : CDR bool :=
  m ← get_msg;
  if negb (hasSpace length m) || ((0 <? length) && bool_decide (data = None)) then mret false
  else bs ← cdr_option (mem_load (default [] data) 0 length); copyToBuffer bs false;; mret true.

Definition addDataReversed (data : list Z) (length : Z) : CDR bool :=
  m ← get_msg;
  if negb (hasSpace length m) then mret false
  else bs ← cdr_option (mem_load data 0 length); copyToBuffer bs true;; mret true.

(** [addPrimitive] of an integer of [size] octets. *)
Definition addPrimitive (size : nat) (value : Z) : CDR bool :=
  m ← get_msg;
  if negb (hasSpace (Z.of_nat size) m) then mret false
  else copyToBuffer (le_split size value) (bool_decide (msg_endian m ≠ DEFAULT_ENDIAN));; mret true.

Definition addOctet (O : Z) : CDR bool := addPrimitive 1 O.
Definition addUInt16 (us : Z) : CDR bool := addPrimitive 2 us.
Definition addInt32 (lo : Z) : CDR bool := addPrimitive 4 lo.
Definition addUInt32 (ulo : Z) : CDR bool := addPrimitive 4 ulo.
Definition addInt64 (lolo : Z) : CDR bool := addPrimitive 8 lolo.
Definition addUInt64 (ulolo : Z) : CDR bool := addPrimitive 8 ulolo.

(** [n] octets with value zero. *)
Fixpoint addZeros (n : nat) (valid : bool) : CDR bool :=
  match n with
  | O => mret valid
  | S n' => v ← addOctet 0; addZeros n' (valid && v)
  end.

(** [final_size] is computed with [size_t]. *)
Definition addOctetVector (ocvec : list Z) (add_final_padding : bool) : CDR bool :=
  m ← get_msg;
  let size := Z.of_nat (length ocvec) in
  let rest := size mod 4 in
  let final_size := u32 (msg_pos m + 4) + size + (if add_final_padding && negb (rest =? 0) then 4 - rest else 0) in
  if final_size >? msg_max_size m then mret false
  else
    v1 ← addUInt32 (u32 size);
    v2 ← addData (Some ocvec) (u32 size);
    if add_final_padding then m' ← get_msg; addZeros (Z.to_nat (u64 (final_size - msg_pos m'))) (v1 && v2)
    else mret (v1 && v2).

Definition addEntityId (ID : EntityId_t) : CDR bool :=
  m ← get_msg;
  if u32 (msg_pos m + 4) >? msg_max_size m then mret false
  else poke (ent_value ID);; grow 4;; mret true.

Definition addSequenceNumber (sn : SequenceNumber_t) : CDR bool :=
  addInt32 (high sn);; addUInt32 (low sn);; mret true.

Fixpoint add_words (ws : list Z) : CDR () :=
  match ws with
  | [] => mret ()
  | w :: ws' => addUInt32 w;; add_words ws'
  end.

Definition addSequenceNumberSet (sns : SequenceNumberSet_t) : CDR bool :=
  addSequenceNumber (base_ sns);;
  if bm_empty sns then addUInt32 0;; mret true
  else
    let '(numBits, bitmap, n_longs) := bm_bitmap_get sns in
    addUInt32 numBits;; add_words (take (Z.to_nat n_longs) bitmap);; mret true.

Definition addFragmentNumberSet (fns : FragmentNumberSet_t) : CDR bool :=
  if base_ fns =? 0 then mret false
  else
    addUInt32 (base_ fns);;
    if bm_empty fns then addUInt32 0;; mret true
    else
      let '(numBits, bitmap, n_longs) := bm_bitmap_get fns in
      addUInt32 numBits;; add_words (take (Z.to_nat n_longs) bitmap);; mret true.

Definition add_locator (loc : Locator_t) : CDR bool :=
  addInt32 (loc_kind loc);; addUInt32 (loc_port loc);; addData (Some (loc_address loc)) 16;; mret true.

Fixpoint add_locators (l : list Locator_t) (valid : bool) : CDR bool :=
  match l with
  | [] => mret valid
  | loc :: l' => v ← add_locator loc; add_locators l' (valid && v)
  end.

Definition add_locator_list (l : list Locator_t) : CDR bool :=
  valid ← addUInt32 (u32 (Z.of_nat (length l))); add_locators l valid.

(** The string is given without its terminator. *)
Definition add_string (in_str : list Z) : CDR bool :=
  let str_siz := u32 (Z.of_nat (length in_str) + 1) in
  v1 ← addUInt32 str_siz;
  v2 ← addData (Some (in_str ++ [0])) str_siz;
  addZeros (Z.to_nat (Z.land (- str_siz) 3)) (v1 && v2).

Definition appendMsg (second : CDRMessage_t) : CDR bool := addData (msg_buffer second) (msg_length second).
