(* ===== verification/CDRFacts.v ===== *)
(** * Reading and writing messages: facts

    [safe s s' f R]: on a message with the block [B] and the length [L] whose
    position is at most [s] octets past its end, [f] accesses only octets of the
    block, leaves the position at most [s'] octets past the end and returns a value
    that satisfies [R]. The rules compose along the code; the hints of the
    database [cdr] close the cases of the primitive reads. *)

From Stdlib Require Import ZArith Lia ZifyBool.
From stdpp Require Import base numbers list option list_numbers.
From S2P Require Import Prelude SequenceNumber BitmapRange BitmapFacts Bytes Guid Time CDRMessage.

Open Scope Z_scope.

Create HintDb cdr discriminated.

(** ** Reading stays inside of the block *)

Section Safe.
Context (B : list Z) (L : Z).

Record msg_in (s : Z) (m : CDRMessage_t) : Prop := {
  in_block : msg_block m = B;
  in_length : msg_length m = L;
  in_pos : 0 <= msg_pos m <= L + s
}.

(** The block holds the message, and the message is not absurdly long. *)
Definition block_ok : Prop := 0 <= L <= 2 ^ 31 ∧ L <= Z.of_nat (length B) ∧ Forall is_u8 B.

Definition slack_ok (s : Z) : Prop := 0 <= s <= 2 ^ 30.

Definition safe {A} (s s' : Z) (f : CDR A) (R : A → Prop) : Prop :=
  ∀ m, msg_in s m → ∃ a m', f m = Some (a, m') ∧ msg_in s' m' ∧ R a.

Lemma safe_ret {A} s (a : A) (R : A → Prop) : R a → safe s s (mret a) R.
Proof. intros Ha m Hm. by exists a, m. Qed.

Lemma safe_bind {A C} s s1 s2 (f : CDR A) (g : A → CDR C) R1 R2 :
  safe s s1 f R1 → (∀ a, R1 a → safe s1 s2 (g a) R2) → safe s s2 (f ≫= g) R2.
Proof.
  intros Hf Hg m Hm. destruct (Hf m Hm) as (a & m1 & E1 & Hm1 & Ha). destruct (Hg a Ha m1 Hm1) as (c & m2 & E2 & Hm2 & Hc).
  exists c, m2. split; [|done]. unfold mbind, CDR_bind. by rewrite E1.
Qed.

Lemma safe_weaken {A} s s1 s2 (f : CDR A) (R R' : A → Prop) :
  safe s s1 f R → s1 <= s2 → (∀ a, R a → R' a) → safe s s2 f R'.
Proof.
  intros Hf Hs HR m Hm. destruct (Hf m Hm) as (a & m1 & E1 & [] & Ha). exists a, m1. split; [done|]. split; [|by apply HR].
  constructor; [done | done | lia].
Qed.

Lemma safe_get s (R : CDRMessage_t → Prop) : (∀ m, msg_in s m → R m) → safe s s get_msg R.
Proof. intros HR m Hm. exists m, m. split; [done|]. split; [done | by apply HR]. Qed.

(** The value of the message is available to the continuation. *)
Lemma safe_get_bind {C} s s2 (g : CDRMessage_t → CDR C) R :
  (∀ m, msg_in s m → ∃ a m', g m m = Some (a, m') ∧ msg_in s2 m' ∧ R a) → safe s s2 (get_msg ≫= g) R.
Proof. intros Hg m Hm. apply Hg, Hm. Qed.

Lemma safe_if {A} s s' (b : bool) (f g : CDR A) R :
  (b = true → safe s s' f R) → (b = false → safe s s' g R) → safe s s' (if b then f else g) R.
Proof. destruct b; auto. Qed.

Lemma safe_endian s e : safe s s (modify_msg (msg_set_endian e)) (λ _, True).
Proof. intros m Hm. exists (), (msg_set_endian e m). split; [done|]. split; [|done]. by destruct Hm. Qed.

Context (HB : block_ok).

Lemma has_left_spec s n m : slack_ok s → 0 <= n <= 2 ^ 29 → msg_in s m → has_left n m = (msg_pos m + n <=? L).
Proof using HB.
  intros [Hs0 Hs] Hn [_ El Hp]. destruct HB as [HL _]. unfold has_left. rewrite El. change (2 ^ 31) with 2147483648 in *.
  change (2 ^ 30) with 1073741824 in *. change (2 ^ 29) with 536870912 in *. rewrite u32_small by zwidth. lia.
Qed.

(** The octets read at a position inside of the message. *)
Lemma peek_spec s n m : msg_in s m → 0 <= n → msg_pos m + n <= L →
  ∃ bs, peek n m = Some (bs, m) ∧ mem_load B (msg_pos m) n = Some bs ∧ Z.of_nat (length bs) = n ∧ Forall is_u8 bs.
Proof using HB.
  intros [Eb El Hp] Hn Hle. destruct HB as (HL & Hlen & H8). unfold peek. rewrite Eb.
  rewrite mem_load_Some by lia. eexists. split; [done|]. split; [done|]. rewrite length_take, length_drop. split; [lia|].
  by apply Forall_take, Forall_drop.
Qed.

Lemma advance_in s n m : slack_ok s → 0 <= n <= 2 ^ 29 → msg_in s m → msg_pos m + n <= L →
  advance n m = Some ((), msg_set_pos (msg_pos m + n) m) ∧ msg_in 0 (msg_set_pos (msg_pos m + n) m).
Proof using HB.
  intros [Hs0 Hs] Hn [Eb El Hp] Hle. destruct HB as [HL _]. unfold advance, modify_msg. change (2 ^ 31) with 2147483648 in *.
  rewrite u32_small by zwidth. split; [done|]. constructor; [done | done | cbn; lia].
Qed.

Lemma msg_in_mono s s' m : s <= s' → msg_in s m → msg_in s' m.
Proof. intros Hle []. constructor; [done | done | lia]. Qed.

(** [msg->pos += n] without a check *)
Lemma safe_advance s n : slack_ok s → slack_ok (s + n) → 0 <= n → safe s (s + n) (advance n) (λ _, True).
Proof using HB.
  intros [Hs0 Hs] [_ Hn] Hn0 m [Eb El Hp]. destruct HB as [HL _]. eexists _, _. split; [done|]. split; [|done].
  constructor; [done | done |]. cbn. change (2 ^ 31) with 2147483648 in *. change (2 ^ 30) with 1073741824 in *.
  rewrite u32_small by zwidth. lia.
Qed.

Lemma read_object_spec s n m : slack_ok s → 0 <= n <= 8 → msg_in s m → msg_pos m + n <= L →
  ∃ bs, mem_load B (msg_pos m) n = Some bs ∧ Z.of_nat (length bs) = n ∧ Forall is_u8 bs ∧
    read_object n m = Some (if decide (msg_endian m = DEFAULT_ENDIAN) then bs else rev bs, msg_set_pos (msg_pos m + n) m) ∧
    msg_in 0 (msg_set_pos (msg_pos m + n) m).
Proof using HB.
  intros Hs Hn Hm Hle. destruct (peek_spec s n m Hm ltac:(lia) Hle) as (bs & Ep & El & Hlen & H8).
  destruct (advance_in s n m Hs ltac:(lia) Hm Hle) as [Ea Hin]. exists bs. split_and!; [done | done | done | | done].
  unfold read_object, readDataReversed, mbind, CDR_bind, get_msg. destruct (decide _); rewrite Ep, Ea; done.
Qed.

(** A read of [n] octets: a check of the length and the value of the octets. *)
Lemma safe_read {A} s n (d : A) (f : CDR (bool * A)) (R : A → Prop) :
  slack_ok s → 0 <= n <= 2 ^ 29 →
  (∀ m, msg_in s m → has_left n m = false → f m = Some ((false, d), m)) →
  (∀ m, msg_in s m → msg_pos m + n <= L → has_left n m = true →
     ∃ a m', f m = Some ((true, a), m') ∧ msg_in 0 m' ∧ R a) →
  safe s s f (λ r, if r.1 then R r.2 else r.2 = d).
Proof using HB.
  intros Hs Hn Hno Hyes m Hm. pose proof (has_left_spec s n m Hs Hn Hm) as E. destruct (has_left n m) eqn:Eh.
  - destruct (Hyes m Hm) as (a & m' & Ef & Hin & HR); [lia | done |]. exists (true, a), m'. split; [done|].
    split; [|done]. apply msg_in_mono with 0; [apply Hs | done].
  - exists (false, d), m. split; [by apply Hno | done].
Qed.

Ltac read_int s n :=
  apply (safe_read s n); [done | done | by intros m Hm E; unfold mbind, CDR_bind, get_msg; rewrite E |];
  let m := fresh "m" in let Hm := fresh "Hm" in let Hle := fresh "Hle" in let E := fresh "E" in
  intros m Hm Hle E;
  let bs := fresh "bs" in let Hlen := fresh "Hlen" in let H8 := fresh "H8" in let Er := fresh "Er" in let Hin := fresh "Hin" in
  destruct (read_object_spec s n m) as (bs & _ & Hlen & H8 & Er & Hin); [done | done | done | done |];
  eexists _, _; split; [unfold mbind, CDR_bind, get_msg; rewrite E; cbn [negb]; rewrite Er; done |]; split; [done |].

Lemma order_range e (bs : list Z) n : Z.of_nat (length bs) = n → Forall is_u8 bs →
  0 <= le_combine (if decide (e = DEFAULT_ENDIAN) then bs else rev bs) < 2 ^ (8 * n).
Proof.
  intros Hn H8. rewrite <- Hn. destruct (decide _); [by apply le_combine_range|]. rewrite <- length_rev.
  apply le_combine_range. by apply Forall_rev.
Qed.

Lemma safe_readUInt32 s d : slack_ok s → safe s s (readUInt32 d) (λ r, if r.1 then is_u32 r.2 else r.2 = d).
Proof using HB.
  intros Hs. unfold readUInt32. read_int s 4. by apply (order_range _ _ 4).
Qed.

Lemma safe_readInt32 s d : slack_ok s → safe s s (readInt32 d) (λ r, if r.1 then is_i32 r.2 else r.2 = d).
Proof using HB. intros Hs. unfold readInt32. read_int s 4. apply i32_range. Qed.

Lemma safe_readUInt64 s d : slack_ok s → safe s s (readUInt64 d) (λ r, if r.1 then is_u64 r.2 else r.2 = d).
Proof using HB. intros Hs. unfold readUInt64. read_int s 8. by apply (order_range _ _ 8). Qed.

Lemma read_pair_spec s m : slack_ok s → msg_in s m → msg_pos m + 2 <= L →
  ∃ bs, read_pair m = Some (bs, msg_set_pos (msg_pos m + 2) m) ∧ 0 <= le_combine bs < 2 ^ 16 ∧ msg_in 0 (msg_set_pos (msg_pos m + 2) m).
Proof using HB.
  intros Hs Hm Hle. destruct (peek_spec s 2 m Hm ltac:(lia) Hle) as (bs & Ep & _ & Hlen & H8).
  destruct (advance_in s 2 m Hs ltac:(lia) Hm Hle) as [Ea Hin].
  exists (if decide (msg_endian m = DEFAULT_ENDIAN) then bs else rev bs). split; [|split; [|done]].
  - unfold read_pair, mbind, CDR_bind, get_msg. rewrite Ep, Ea. done.
  - by apply (order_range _ _ 2).
Qed.

Ltac read_short s :=
  apply (safe_read s 2); [done | done | by intros m Hm E; unfold mbind, CDR_bind, get_msg; rewrite E |];
  let m := fresh "m" in let Hm := fresh "Hm" in let Hle := fresh "Hle" in let E := fresh "E" in
  intros m Hm Hle E;
  let bs := fresh "bs" in let Er := fresh "Er" in let Hr := fresh "Hr" in let Hin := fresh "Hin" in
  destruct (read_pair_spec s m) as (bs & Er & Hr & Hin); [done | done | done |];
  eexists _, _; split; [unfold mbind, CDR_bind, get_msg; rewrite E; cbn [negb]; rewrite Er; done |]; split; [done |].

Lemma safe_readUInt16 s d : slack_ok s → safe s s (readUInt16 d) (λ r, if r.1 then is_u16 r.2 else r.2 = d).
Proof using HB. intros Hs. unfold readUInt16. read_short s. done. Qed.

Definition is_i16 (x : Z) : Prop := - 2 ^ 15 <= x < 2 ^ 15.

Lemma i16_range x : is_i16 (i16 x).
Proof.
  unfold is_i16, i16, sext. pose proof (Z.mod_pos_bound x (2 ^ 16) ltac:(lia)). change (16 - 1) with 15.
  destruct (Z.ltb_spec (x mod 2 ^ 16) (2 ^ 15)); zwidth.
Qed.

Lemma safe_readInt16 s d : slack_ok s → safe s s (readInt16 d) (λ r, if r.1 then is_i16 r.2 else r.2 = d).
Proof using HB. intros Hs. unfold readInt16. read_short s. apply i16_range. Qed.

(** Reads that take the octets as they are. *)
Ltac read_octets s n :=
  apply (safe_read s n); [done | done | by intros m Hm E; unfold mbind, CDR_bind, get_msg; rewrite E |];
  let m := fresh "m" in let Hm := fresh "Hm" in let Hle := fresh "Hle" in let E := fresh "E" in
  intros m Hm Hle E;
  let bs := fresh "bs" in let Ep := fresh "Ep" in let Hlen := fresh "Hlen" in let H8 := fresh "H8" in
  let Ea := fresh "Ea" in let Hin := fresh "Hin" in
  destruct (peek_spec s n m) as (bs & Ep & _ & Hlen & H8); [done | done | done |];
  destruct (advance_in s n m) as [Ea Hin]; [done | done | done | done |];
  eexists _, _; split; [unfold mbind, CDR_bind, get_msg; rewrite E; cbn [negb]; rewrite Ep, Ea; done |]; split; [done |].

Lemma safe_readOctet s d : slack_ok s → safe s s (readOctet d) (λ r, if r.1 then is_u8 r.2 else r.2 = d).
Proof using HB.
  intros Hs. unfold readOctet. read_octets s 1. pose proof (le_combine_range bs H8) as Hr. rewrite Hlen in Hr. done.
Qed.

Lemma safe_readEntityId s d : slack_ok s → safe s s (readEntityId d) (λ r, if r.1 then ent_ok r.2 else r.2 = d).
Proof using HB. intros Hs. unfold readEntityId. read_octets s 4. split; [cbn [ent_value]; lia | done]. Qed.

(** The contents of an object of [n] octets. *)
Definition octets (n : Z) (o : option (list Z)) : Prop := ∃ bs, o = Some bs ∧ Z.of_nat (length bs) = n ∧ Forall is_u8 bs.

(** [readData] to an object of the size read. *)
Lemma safe_readData s n dest :
  slack_ok s → 0 < n <= 2 ^ 29 → Z.of_nat (length dest) = n →
  safe s s (readData (Some dest) n) (λ r, if r.1 then octets n r.2 else r.2 = Some dest).
Proof using HB.
  intros Hs Hn Hd. unfold readData. apply (safe_read s n); [done | lia | |].
  - intros m Hm E. unfold mbind, CDR_bind, get_msg. by rewrite E.
  - intros m Hm Hle E. destruct (peek_spec s n m) as (bs & Ep & _ & Hlen & H8); [done | lia | done |].
    destruct (advance_in s n m) as [Ea Hin]; [done | lia | done | done |].
    assert (mem_store dest 0 bs = Some bs) as Est.
    { rewrite mem_store_Some by lia. cbn [take app Z.to_nat Nat.add]. rewrite drop_ge by lia. by rewrite app_nil_r. }
    exists (Some bs), (msg_set_pos (msg_pos m + n) m). split; [|split; [done | by exists bs]].
    unfold mbind, CDR_bind, get_msg. rewrite E. cbn [negb]. destruct (Z.ltb_spec 0 n); [|lia].
    rewrite Ep. unfold cdr_option. rewrite Est, Ea. done.
Qed.

(** A number read, or the one there was. *)
Definition sn_read (d : SequenceNumber_t) (r : bool * SequenceNumber_t) : Prop :=
  if r.1 then sn_wf r.2 else r.2 = d.

Lemma safe_readSequenceNumber s d : slack_ok s → safe s s (readSequenceNumber d) (sn_read d).
Proof using HB.
  intros Hs. unfold readSequenceNumber. apply safe_get_bind. intros m Hm.
  pose proof (has_left_spec s 8 m Hs ltac:(lia) Hm) as E8. destruct (has_left 8 m); cbn [negb].
  2: { exists (false, d), m. done. }
  destruct (read_object_spec s 4 m) as (b1 & _ & L1 & U1 & E1 & I1); [done | lia | done | lia |].
  set (m1 := msg_set_pos (msg_pos m + 4) m) in *.
  destruct (read_object_spec 0 4 m1) as (b2 & _ & L2 & U2 & E2 & I2); [done | lia | done | cbn; lia |].
  pose proof (has_left_spec s 4 m Hs ltac:(lia) Hm) as El1. pose proof (has_left_spec 0 4 m1 ltac:(done) ltac:(lia) I1) as El2.
  cbn [msg_pos m1 msg_set_pos] in El2. eexists _, _. split.
  - unfold readInt32, readUInt32, mbind, CDR_bind, get_msg. rewrite El1. replace (_ <=? L) with true by lia. cbn [negb].
    rewrite E1. cbn. fold m1. rewrite El2. replace (_ <=? L) with true by lia. cbn [negb]. rewrite E2. done.
  - split; [apply msg_in_mono with 0; [apply Hs | done]|]. unfold sn_read. cbn [fst snd andb].
    split; cbn [high low]; [apply i32_range | by apply (order_range _ _ 4)].
Qed.

Lemma safe_read_words s n : slack_ok s → ∀ valid, safe s s (read_words n valid)
  (λ r, r.1 = true → valid = true ∧ length r.2 = n ∧ Forall is_u32 r.2).
Proof using HB.
  intros Hs. induction n as [|n IH]; intros valid; cbn [read_words]; [by apply safe_ret|].
  destruct valid; [|by apply safe_ret]. eapply safe_bind; [by apply safe_readUInt32|]. intros [v w] Hw. cbn in Hw.
  eapply safe_bind; [apply IH|]. intros [v2 ws] Hws. apply safe_ret. cbn in *. intros ->.
  destruct (Hws eq_refl) as (-> & Hlen & H32). split; [done|]. split; [by rewrite Hlen | by constructor].
Qed.

(** A set read from a message. *)
Definition set_read (b : SequenceNumberSet_t) : Prop :=
  b = bm_make sn_unknown ∨
  sn_wf (base_ b) ∧ 0 <= snz (base_ b) ∧ (snz (base_ b) + 256 < 2 ^ 63 → bm_ok b).

Lemma words_of_bits n : 0 <= n <= 256 → u32 (n + 31) / 32 = (n + 31) / 32 ∧ 0 <= (n + 31) / 32 <= 8.
Proof.
  intros Hn. rewrite u32_small by zwidth. split; [done|]. split; [apply Z.div_pos; lia|].
  apply Z.lt_succ_r, Z.div_lt_upper_bound; lia.
Qed.

Lemma safe_readSequenceNumberSet s : slack_ok s → safe s s readSequenceNumberSet set_read.
Proof using HB.
  intros Hs. unfold readSequenceNumberSet. eapply safe_bind; [by apply safe_readSequenceNumber|]. intros [v1 sn] Hsn.
  eapply safe_bind; [by apply safe_readUInt32|]. intros [v2 n] Hn. cbn [fst snd] in *. cbn zeta.
  set (valid := v1 && v2 && (n <=? 256) && (0 <=? high sn)). set (bits := if valid && _ then _ else n).
  eapply safe_bind; [by apply safe_read_words|]. intros [v3 ws] Hws. cbn [fst snd] in Hws. apply safe_ret.
  destruct v3; [|by left]. destruct (Hws eq_refl) as (Hv & Hlen & H32). right. rewrite Hv in Hlen.
  assert (v1 = true ∧ v2 = true ∧ n <= 256 ∧ 0 <= high sn) as (-> & -> & Hn256 & Hh).
  { unfold valid in Hv. rewrite !andb_true_iff in Hv. lia. }
  unfold sn_read in Hsn. cbn [fst snd] in Hsn. change (base_ (bm_bitmap_set (bm_make_max sn bits) bits ws)) with sn.
  assert (0 <= snz sn) as Hpos by (unfold snz; destruct Hsn as [_ ?]; zwidth).
  split; [done|]. split; [done|]. intros Hroom.
  assert (0 <= bits <= 256) as Hbits.
  { unfold bits. destruct Hsn as [_ Hl]. destruct (valid && _); [|zwidth]. split; [apply Z.min_glb; zwidth | lia]. }
  destruct (words_of_bits bits Hbits) as [E Hw].
  apply bm_bitmap_set_spec; [|done | done |].
  - apply bm_make_max_ok; [by split | lia | done].
  - rewrite Hlen, E. done.
Qed.

Lemma safe_readFragmentNumberSet s d : slack_ok s → safe s s (readFragmentNumberSet d) (λ _, True).
Proof using HB.
  intros Hs. unfold readFragmentNumberSet. eapply safe_bind; [by apply safe_readUInt32|]. intros [v1 base] _.
  eapply safe_bind; [by apply safe_readUInt32|]. intros [v2 n] _.
  eapply safe_bind; [by apply safe_read_words|]. intros [v3 ws] _. by apply safe_ret.
Qed.

Lemma safe_readTimestamp s d : slack_ok s → safe s s (readTimestamp d) (λ _, True).
Proof using HB.
  intros Hs. unfold readTimestamp. eapply safe_bind; [by apply safe_readInt32|]. intros [v1 sec] _.
  eapply safe_bind; [by apply safe_readUInt32|]. intros [v2 frac] _. by apply safe_ret.
Qed.

Lemma safe_read_locator s d :
  slack_ok s → length (loc_address d) = 16%nat → safe s s (read_locator d) (λ r, length (loc_address r.2) = 16%nat).
Proof using HB.
  intros Hs Hd. unfold read_locator. apply safe_get_bind. intros m Hm. destruct (has_left 24 m); cbn [negb].
  2: { exists (false, d), m. done. }
  assert (safe s s ('(v1, kind) ← readInt32 (loc_kind d); '(v2, port) ← readUInt32 (loc_port d);
    '(v3, address) ← readData (Some (loc_address d)) 16;
    mret (v1 && v2 && v3, Locator kind port (default [] address))) (λ r, length (loc_address r.2) = 16%nat)) as H; [|by apply H].
  eapply safe_bind; [by apply safe_readInt32|]. intros [v1 kind] _. eapply safe_bind; [by apply safe_readUInt32|]. intros [v2 port] _.
  eapply safe_bind; [apply (safe_readData s 16); [done | lia | by rewrite Hd]|]. intros [v3 addr] Ha. apply safe_ret.
  cbn [fst snd] in *. destruct v3; [destruct Ha as (bs & -> & Hl & _); cbn; lia | by rewrite Ha].
Qed.

Lemma safe_read_locators s n : slack_ok s → ∀ valid l, safe s s (read_locators n valid l) (λ _, True).
Proof using HB.
  intros Hs. induction n as [|n IH]; intros valid l; cbn [read_locators]; [by apply safe_ret|].
  eapply safe_bind; [by apply safe_read_locator|]. intros [v loc] _. apply IH.
Qed.

Lemma safe_read_locator_list s l : slack_ok s → safe s s (read_locator_list l) (λ _, True).
Proof using HB.
  intros Hs. unfold read_locator_list. eapply safe_bind; [by apply safe_readUInt32|]. intros [v n] _. by apply safe_read_locators.
Qed.
End Safe.

#[export] Hint Resolve safe_readUInt32 safe_readInt32 safe_readUInt64 safe_readUInt16 safe_readInt16 safe_readOctet
  safe_readEntityId safe_readSequenceNumber safe_readSequenceNumberSet safe_readFragmentNumberSet safe_readTimestamp
  safe_read_locator safe_endian : cdr.

(** ** Lengths read from the message *)

Lemma readUInt32_value m n v :
  0 <= msg_pos m → msg_pos m + 4 <= msg_length m → msg_length m < 2 ^ 31 → msg_endian m = LITTLEEND →
  is_u32 n → mem_load (msg_block m) (msg_pos m) 4 = Some (le_split 4 n) →
  readUInt32 v m = Some ((true, n), msg_set_pos (msg_pos m + 4) m).
Proof.
  intros H0 H4 H31 He Hn Hld. unfold readUInt32, read_object, peek, advance, modify_msg, mret, CDR_ret, mbind, CDR_bind, get_msg, has_left.
  rewrite u32_small by zwidth. replace (msg_pos m + 4 >? msg_length m) with false by lia. cbn [negb]. rewrite decide_True by done.
  rewrite Hld. cbn [option_bind]. by rewrite le_combine_split_small, u32_small by (done || zwidth).
Qed.

(** C40. The check of [read_string] that the characters are in the message wraps around: a length
    near 2^32 passes it and the characters are read from outside of the buffer. *)
Theorem read_string_length_wraps stri m n :
  0 <= msg_pos m → msg_pos m + 4 <= msg_length m → msg_length m < 2 ^ 31 → msg_endian m = LITTLEEND →
  is_u32 n → mem_load (msg_block m) (msg_pos m) 4 = Some (le_split 4 n) →
  2 ^ 32 <= msg_pos m + 4 + n → Z.of_nat (length (msg_block m)) < msg_pos m + 4 + (n - 1) →
  read_string stri m = None.
Proof.
  intros H0 H4 H31 He Hn Hld Hwrap Hout. unfold read_string. unfold mbind at 1, CDR_bind at 1. rewrite (readUInt32_value m n) by done.
  unfold mbind, CDR_bind, get_msg, has_left. cbn [msg_set_pos msg_pos msg_length].
  assert (u32 (msg_pos m + 4 + n) = msg_pos m + 4 + n - 2 ^ 32) as ->.
  { unfold u32. symmetry. apply (Z.mod_unique _ _ 1); zwidth. }
  replace (_ >? msg_length m) with false by zwidth. cbn [negb]. replace (1 <? n) with true by zwidth.
  unfold peek. change (msg_block _) with (msg_block m). cbn [msg_set_pos msg_pos]. by rewrite mem_load_None by lia.
Qed.

Lemma read_string_length_wraps_witness :
  read_string [] (msg_set_pos 0 {| msg_buffer := Some (le_split 4 (2 ^ 32 - 4) ++ [0; 0; 0; 0]); msg_pos := 0; msg_max_size := 8;
    msg_reserved_size := 8; msg_length := 8; msg_endian := LITTLEEND; msg_wraps := false |}) = None.
Proof. apply (read_string_length_wraps [] _ (2 ^ 32 - 4)); cbn; (done || zwidth). Defined.
