(* ===== verification/ParameterList.v ===== *)
(** * Parameter lists (src/cpp/fastdds/core/policy/ParameterList.hpp and .cpp, ParameterSerializer.hpp)

    The parameters that precede the payload of a DATA or DATA_FRAG submessage
    (inline QoS), and the search of a key in a serialized parameter list. *)

From Stdlib Require Import ZArith Lia ZifyBool.
From stdpp Require Import base numbers list option list_numbers.
From S2P Require Import Prelude SequenceNumber BitmapRange Bytes Guid Time CacheChange CDRMessage CDRFacts.

Open Scope Z_scope.

Definition PID_SENTINEL : Z := 0x0001.
Definition PID_KEY_HASH : Z := 0x0070.
Definition PID_STATUS_INFO : Z := 0x0071.
Definition PID_RELATED_SAMPLE_IDENTITY : Z := 0x0083.
Definition PID_CUSTOM_RELATED_SAMPLE_IDENTITY : Z := 0x800f.
Definition PID_RPC_MORE_REPLIES : Z := 0x8400.

Definition PL_CDR_BE : Z := 0x0002.
Definition PL_CDR_LE : Z := 0x0003.

Definition c_VendorId_Unknown : list Z := [0x00; 0x00].
Definition c_VendorId_eProsima : list Z := [0x01; 0x0F].
Definition c_VendorId_rti_connext : list Z := [0x01; 0x01].

(** A change under construction, with the part of its write parameters the inline QoS set. *)
Record ReceivedChange := {
  rc_change : CacheChange_t;
  rc_sample_identity : option (GUID_t * SequenceNumber_t);
  rc_has_more_replies : bool
}.

Definition rc_update (f : CacheChange_t → CacheChange_t) (ch : ReceivedChange) : ReceivedChange :=
  {| rc_change := f (rc_change ch); rc_sample_identity := rc_sample_identity ch; rc_has_more_replies := rc_has_more_replies ch |}.

Definition cc_set_kind (k : ChangeKind_t) (c : CacheChange_t) : CacheChange_t :=
  {| cc_kind := k; writerGUID := writerGUID c; instanceHandle := instanceHandle c;
     sequenceNumber := sequenceNumber c; serializedPayload := serializedPayload c; inline_qos := inline_qos c;
     sourceTimestamp := sourceTimestamp c; vendor_id := vendor_id c; fragment_size_ := fragment_size_ c;
     fragment_count_ := fragment_count_ c; first_missing_fragment_ := first_missing_fragment_ c |}.

Definition cc_set_handle (h : InstanceHandle_t) (c : CacheChange_t) : CacheChange_t :=
  {| cc_kind := cc_kind c; writerGUID := writerGUID c; instanceHandle := h;
     sequenceNumber := sequenceNumber c; serializedPayload := serializedPayload c; inline_qos := inline_qos c;
     sourceTimestamp := sourceTimestamp c; vendor_id := vendor_id c; fragment_size_ := fragment_size_ c;
     fragment_count_ := fragment_count_ c; first_missing_fragment_ := first_missing_fragment_ c |}.

(** ** Reading a list *)

Section Reading.
Context {St : Type} (processor : Z → Z → St → CDR (bool * St)).

(** The loop; [fuel] bounds the number of parameters, and no result is given when it runs out. *)
Fixpoint read_parameters (fuel : nat) (original_pos qos_size : Z) (st : St) : CDR (bool * Z * St) :=
  match fuel with
  | O => cdr_fault
  | S fuel' =>
      modify_msg (msg_set_pos (u32 (original_pos + qos_size)));;
      '(v1, pid) ← readUInt16 PID_SENTINEL;
      '(v2, plength0) ← readUInt16 0;
      let is_sentinel := pid =? PID_SENTINEL in
      let plength := if is_sentinel then 0 else plength0 in
      let qos_size' := Z.land (u32 (u32 (qos_size + (4 + plength)) + 3)) (2 ^ 32 - 4) in
      m ← get_msg;
      if negb (v1 && v2) || (u32 (msg_pos m + plength) >? msg_length m) then mret (false, qos_size', st)
      else if is_sentinel then mret (true, qos_size', st)
      else
        p ← processor pid plength st;
        let '(ok, st') := p : bool * St in
        if ok then read_parameters fuel' original_pos qos_size' st' else mret (false, qos_size', st')
  end.

(** Every parameter takes four octets at least: the fuel is the length of the message. *)
Definition readParameterListfromCDRMsg (use_encapsulation : bool) (st : St) : CDR (bool * Z * St) :=
  ok ← (if use_encapsulation then
          advance 1;;
          '(_, encapsulation) ← readOctet 0;
          if encapsulation =? PL_CDR_BE then modify_msg (msg_set_endian BIGEND);; advance 2;; mret true
          else if encapsulation =? PL_CDR_LE then modify_msg (msg_set_endian LITTLEEND);; advance 2;; mret true
          else mret false
        else mret true);
  if negb ok then mret (false, 0, st)
  else m ← get_msg; read_parameters (S (Z.to_nat (msg_length m))) (msg_pos m) 0 st.
End Reading.

(** ** Inline QoS *)

(** [ParameterSerializer<ParameterKey_t>::read_content_from_cdr_message] *)
Definition read_parameter_key (plength : Z) : CDR (bool * list Z) :=
  if plength <? 16 then mret (false, replicate 16 0)
  else '(v, key) ← readData (Some (replicate 16 0)) 16; mret (v, default [] key).

(** [ParameterSerializer<ParameterStatusInfo_t>::read_content_from_cdr_message] *)
Definition read_parameter_status (plength : Z) : CDR (bool * Z) :=
  if plength <? 4 then mret (false, 0)
  else
    '(v1, _) ← readOctet 0;
    '(v2, _) ← readOctet 0;
    '(v3, _) ← readOctet 0;
    '(v4, status) ← readOctet 0;
    mret (v1 && v2 && v3 && v4, status).

(** [ParameterSerializer<ParameterSampleIdentity_t>::read_content_from_cdr_message] *)
Definition read_parameter_sample_identity (plength : Z) : CDR (bool * (GUID_t * SequenceNumber_t)) :=
  if plength <? 24 then mret (false, (c_Guid_Unknown, sn_unknown))
  else
    '(v1, prefix) ← readData (Some (pfx_value c_GuidPrefix_Unknown)) 12;
    '(v2, entity) ← readData (Some (ent_value c_EntityId_Unknown)) 4;
    '(v3, h) ← readInt32 (high sn_unknown);
    '(v4, l) ← readUInt32 (low sn_unknown);
    mret (v1 && v2 && v3 && v4,
          (Guid (GuidPrefix (default [] prefix)) (EntityId (default [] entity)), SeqNum h l)).

(** The function [parameter_process] of [updateCacheChangeFromInlineQos]. *)
Definition parameter_process (pid plength : Z) (change : ReceivedChange) : CDR (bool * ReceivedChange) :=
  let vendor := vendor_id (rc_change change) in
  if pid =? PID_KEY_HASH then
    p ← read_parameter_key plength;
    let '(ok, key) := p : bool * list Z in
    mret (if ok then (true, rc_update (cc_set_handle (Some key)) change) else (false, change))
  else if (pid =? PID_CUSTOM_RELATED_SAMPLE_IDENTITY) || (pid =? PID_RELATED_SAMPLE_IDENTITY) then
    if (pid =? PID_CUSTOM_RELATED_SAMPLE_IDENTITY) &&
       bool_decide (c_VendorId_eProsima ≠ vendor) && bool_decide (c_VendorId_rti_connext ≠ vendor)
    then mret (true, change)
    else if plength >=? 24 then
      p ← read_parameter_sample_identity plength;
      let '(ok, id) := p : bool * (GUID_t * SequenceNumber_t) in
      mret (if ok then (true, {| rc_change := rc_change change; rc_sample_identity := Some id;
                                 rc_has_more_replies := rc_has_more_replies change |})
            else (false, change))
    else mret (true, change)
  else if pid =? PID_RPC_MORE_REPLIES then
    mret (true, if bool_decide (c_VendorId_eProsima ≠ vendor) then change
                else {| rc_change := rc_change change; rc_sample_identity := rc_sample_identity change;
                        rc_has_more_replies := true |})
  else if pid =? PID_STATUS_INFO then
    p ← read_parameter_status plength;
    let '(ok, status) := p : bool * Z in
    mret (if ok then
            (true, if status =? 1 then rc_update (cc_set_kind NOT_ALIVE_DISPOSED) change
                   else if status =? 2 then rc_update (cc_set_kind NOT_ALIVE_UNREGISTERED) change
                   else if status =? 3 then rc_update (cc_set_kind NOT_ALIVE_DISPOSED_UNREGISTERED) change
                   else change)
          else (false, change))
  else mret (true, change).

(** The result, the number of octets of the list and the change. *)
Definition updateCacheChangeFromInlineQos (change : ReceivedChange) : CDR (bool * Z * ReceivedChange) :=
  readParameterListfromCDRMsg parameter_process false change.

(** ** Facts *)

Section Facts.
Context (B : list Z) (L : Z) (HB : block_ok B L).
Context {St : Type} (processor : Z → Z → St → CDR (bool * St)) (P : St → Prop).
Context (s : Z) (Hs : slack_ok s) (Hs3 : 3 <= s).
Context (Hproc : ∀ pid plength st, P st → is_u16 plength → safe B L s s (processor pid plength st) (λ r, P r.2)).

(** The list is read with the fuel given, inside of the message; when it is complete, the octets
    counted are those between the position before and the position after it. *)
Lemma read_parameters_spec fuel : ∀ orig qos st m,
  P st → msg_block m = B → msg_length m = L → 0 <= orig → 0 <= qos → qos mod 4 = 0 → orig + qos <= L + s →
  L - (orig + qos) < Z.of_nat fuel → (0 < fuel)%nat →
  ∃ ok q st' m', read_parameters processor fuel orig qos st m = Some ((ok, q, st'), m') ∧ msg_in B L s m' ∧ P st' ∧
    (ok = true → msg_pos m' = orig + q ∧ orig + q <= L ∧ qos <= q).
Proof using HB Hs Hs3 Hproc.
  destruct HB as (HL & _). destruct Hs as [Hs0 Hs1]. change (2 ^ 31) with 2147483648 in *. change (2 ^ 30) with 1073741824 in *.
  induction fuel as [|fuel IH]; intros orig qos st m HP Eb El Ho Hq Hq4 Hle Hfuel Hpos; [lia|]. cbn [read_parameters].
  set (m0 := msg_set_pos (u32 (orig + qos)) m).
  assert (msg_in B L s m0) as Hm0 by (constructor; [done | done | cbn; rewrite u32_small by zwidth; lia]).
  unfold mbind at 1, CDR_bind at 1. unfold modify_msg at 1. fold m0.
  destruct (safe_readUInt16 B L HB s PID_SENTINEL Hs m0 Hm0) as ([v1 pid] & m1 & E1 & Hm1 & Hpid).
  unfold mbind at 1, CDR_bind at 1. rewrite E1.
  destruct (safe_readUInt16 B L HB s 0 Hs m1 Hm1) as ([v2 pl0] & m2 & E2 & Hm2 & Hpl).
  unfold mbind at 1, CDR_bind at 1. rewrite E2. cbn [fst snd] in *.
  set (plength := if pid =? PID_SENTINEL then 0 else pl0). set (q' := Z.land _ _).
  unfold mbind at 1, CDR_bind at 1. unfold get_msg at 1.
  assert (is_u16 plength) as Hpl16.
  { unfold plength. destruct (pid =? PID_SENTINEL); [zwidth|]. destruct v2; [done | subst pl0; zwidth]. }
  destruct (negb (v1 && v2) || (u32 (msg_pos m2 + plength) >? msg_length m2)) eqn:Eguard.
  { exists false, q', st, m2. split_and!; done. }
  apply orb_false_iff in Eguard as [Ev Egt]. apply negb_false_iff, andb_prop in Ev as [-> ->].
  assert (msg_pos m2 = orig + qos + 4 ∧ msg_pos m2 <= L) as [Ep2 Hp2].
  { clear -E1 E2 Hm0 Hm1 Hm2 HB Hs Hle Ho Hq HL Hs1. unfold readUInt16, mbind, CDR_bind, get_msg in E1, E2.
    destruct (has_left 2 m0) eqn:Eh0; cbn [negb] in E1; [|done].
    destruct (has_left 2 m1) eqn:Eh1; cbn [negb] in E2; [|done].
    rewrite (has_left_spec B L HB s 2 m0 Hs ltac:(lia) Hm0) in Eh0. rewrite (has_left_spec B L HB s 2 m1 Hs ltac:(lia) Hm1) in Eh1.
    destruct (read_pair_spec B L HB s m0 Hs Hm0 ltac:(lia)) as (b0 & R0 & _ & _).
    destruct (read_pair_spec B L HB s m1 Hs Hm1 ltac:(lia)) as (b1 & R1 & _ & _).
    rewrite R0 in E1. rewrite R1 in E2. injection E1 as _ <-. injection E2 as _ <-. cbn [msg_pos msg_set_pos m0] in *.
    rewrite u32_small in * by zwidth. lia. }
  rewrite (in_length B L s m2 Hm2) in Egt. rewrite u32_small in Egt by zwidth.
  assert (q' = qos + 4 + plength + 3 - (qos + 4 + plength + 3) mod 4) as Eq'.
  { unfold q'. rewrite (u32_small (qos + _)) by zwidth. rewrite u32_small by zwidth. rewrite align_down by zwidth.
    replace (qos + (4 + plength) + 3) with (qos + 4 + plength + 3) by lia. done. }
  pose proof (Z.mod_pos_bound (qos + 4 + plength + 3) 4 ltac:(lia)) as Hmod.
  assert (0 <= plength < 65536) as Hplr by done.
  destruct (pid =? PID_SENTINEL) eqn:Esen.
  - exists true, q', st, m2. split_and!; [done | done | done |]. intros _.
    assert (q' = qos + 4); [|lia]. rewrite Eq'. unfold plength.
    replace (qos + 4 + 0 + 3) with (3 + (qos / 4 + 1) * 4) by (pose proof (Z.div_mod qos 4 ltac:(lia)); lia).
    rewrite Z.mod_add by lia. change (3 mod 4) with 3. pose proof (Z.div_mod qos 4 ltac:(lia)). lia.
  - destruct (Hproc pid plength st HP Hpl16 m2 Hm2) as ([ok st'] & m3 & E3 & Hm3 & HP'). cbn [fst snd] in HP'.
    unfold mbind at 1, CDR_bind at 1. rewrite E3. destruct ok; [|exists false, q', st', m3; split_and!; done].
    destruct (IH orig q' st' m3) as (ok & q & st2 & m4 & E4 & Hm4 & HP2 & Hok); [done | apply Hm3 | apply Hm3 | done | lia | | lia | lia | lia |].
    + rewrite Eq'. rewrite <- (Zminus_mod_idemp_l _ _ 4), Z.sub_diag. done.
    + exists ok, q, st2, m4. split_and!; [done | done | done|]. intros Ht. specialize (Hok Ht). lia.
Qed.
End Facts.

(** What the inline QoS leave alone. *)
Definition same_sample (c c' : CacheChange_t) : Prop :=
  writerGUID c' = writerGUID c ∧ sequenceNumber c' = sequenceNumber c ∧ serializedPayload c' = serializedPayload c ∧
  inline_qos c' = inline_qos c ∧ sourceTimestamp c' = sourceTimestamp c ∧ vendor_id c' = vendor_id c ∧
  fragment_size_ c' = fragment_size_ c ∧ fragment_count_ c' = fragment_count_ c ∧
  first_missing_fragment_ c' = first_missing_fragment_ c.

Section InlineQos.
Context (B : list Z) (L : Z) (HB : block_ok B L) (s : Z) (Hs : slack_ok s).

Lemma safe_read_parameter_key plength : safe B L s s (read_parameter_key plength) (λ _, True).
Proof using HB Hs.
  unfold read_parameter_key. destruct (plength <? 16); [by apply safe_ret|].
  eapply safe_bind; [apply (safe_readData B L HB s 16); [done | lia | done]|]. intros [v k] _. by apply safe_ret.
Qed.

Lemma safe_read_parameter_status plength : safe B L s s (read_parameter_status plength) (λ _, True).
Proof using HB Hs.
  unfold read_parameter_status. destruct (plength <? 4); [by apply safe_ret|].
  do 4 (eapply safe_bind; [by apply safe_readOctet|]; intros [? ?] _). by apply safe_ret.
Qed.

Lemma safe_read_parameter_sample_identity plength : safe B L s s (read_parameter_sample_identity plength) (λ _, True).
Proof using HB Hs.
  unfold read_parameter_sample_identity. destruct (plength <? 24); [by apply safe_ret|].
  eapply safe_bind; [apply (safe_readData B L HB s 12); [done | lia | done]|]. intros [v1 k1] _.
  eapply safe_bind; [apply (safe_readData B L HB s 4); [done | lia | done]|]. intros [v2 k2] _.
  eapply safe_bind; [by apply safe_readInt32|]. intros [? ?] _.
  eapply safe_bind; [by apply safe_readUInt32|]. intros [? ?] _. by apply safe_ret.
Qed.

Lemma safe_parameter_process c pid plength ch :
  same_sample c (rc_change ch) →
  safe B L s s (parameter_process pid plength ch) (λ r, same_sample c (rc_change r.2)).
Proof using HB Hs.
  intros Hc. unfold parameter_process. cbn zeta. destruct (pid =? PID_KEY_HASH).
  { eapply safe_bind; [apply safe_read_parameter_key|]. intros [[] key] _; by apply safe_ret. }
  destruct (_ || _).
  { destruct (_ && _); [by apply safe_ret|]. destruct (plength >=? 24); [|by apply safe_ret].
    eapply safe_bind; [apply safe_read_parameter_sample_identity|]. intros [[] id] _; by apply safe_ret. }
  destruct (pid =? PID_RPC_MORE_REPLIES).
  { apply safe_ret. cbn. by destruct (bool_decide _). }
  destruct (pid =? PID_STATUS_INFO); [|by apply safe_ret].
  eapply safe_bind; [apply safe_read_parameter_status|]. intros [[] st] _; apply safe_ret; cbn; [|done].
  by destruct (st =? 1), (st =? 2), (st =? 3).
Qed.

(** Reading the inline QoS of a submessage. *)
Lemma inline_qos_spec ch m :
  3 <= s → msg_in B L s m →
  ∃ ok q ch' m', updateCacheChangeFromInlineQos ch m = Some ((ok, q, ch'), m') ∧ msg_in B L s m' ∧
    same_sample (rc_change ch) (rc_change ch') ∧
    (ok = true → msg_pos m' = msg_pos m + q ∧ msg_pos m' <= L ∧ 0 <= q).
Proof using HB Hs.
  intros Hs3 Hm. pose proof Hm as [Eb El Hp]. destruct HB as (HL & _).
  unfold updateCacheChangeFromInlineQos, readParameterListfromCDRMsg, mbind, CDR_bind, get_msg, mret, CDR_ret. cbn [negb].
  destruct (read_parameters_spec B L HB parameter_process (λ st, same_sample (rc_change ch) (rc_change st)) s Hs Hs3
    (λ pid pl st H _, safe_parameter_process (rc_change ch) pid pl st H) (S (Z.to_nat (msg_length m))) (msg_pos m) 0 ch m)
    as (ok & q & ch' & m' & E & Hm' & HP & Hok); [repeat split | done | done | lia | lia | done | lia | lia | lia |].
  exists ok, q, ch', m'. split_and!; [done | done | done|]. intros Ht. specialize (Hok Ht). lia.
Qed.
End InlineQos.
