(* ===== verification/MessageReceiver.v ===== *)
(** * MessageReceiver (src/cpp/rtps/messages/MessageReceiver.cpp)

    Parsing of a received RTPS message and its distribution to the endpoints of a
    participant. The build is the default one: without security, with statistics.

    What the receiver asks of the participant and of its endpoints is a record of
    operations, [Environment]; their answers may depend on everything handed to
    them before. What the receiver hands to the endpoints is a list of events. A
    function of the receiver works on the message in the monad of [CDRMessage]. *)

From Stdlib Require Import ZArith Lia ZifyBool.
From stdpp Require Import base numbers list option list_numbers.
From S2P Require Import Prelude SequenceNumber BitmapRange Bytes Guid Time CacheChange CDRMessage ParameterList.

Open Scope Z_scope.

(** [SubmessageId] *)
Definition PAD : Z := 0x01.
Definition ACKNACK : Z := 0x06.
Definition HEARTBEAT : Z := 0x07.
Definition GAP : Z := 0x08.
Definition INFO_TS : Z := 0x09.
Definition INFO_SRC : Z := 0x0c.
Definition INFO_DST : Z := 0x0e.
Definition NACK_FRAG : Z := 0x12.
Definition HEARTBEAT_FRAG : Z := 0x13.
Definition DATA : Z := 0x15.
Definition DATA_FRAG : Z := 0x16.
Definition FASTDDS_STATISTICS_NETWORK_SUBMESSAGE : Z := 0x80.

Definition RTPSMESSAGE_DATA_MIN_LENGTH : Z := 24.
Definition RTPSMESSAGE_DATA_EXTRA_INLINEQOS_SIZE : Z := 4.
Definition INFO_SRC_SUBMSG_LENGTH : Z := 20.
Definition LOCATOR_KIND_SHM : Z := 16.

Definition c_ProtocolVersion : Z * Z := (2, 2).

Record SubmessageHeader_t := {
  submessageId : Z;
  submessageLength : Z;
  flags : Z;
  is_last : bool
}.

Definition smh_default : SubmessageHeader_t :=
  {| submessageId := 0; submessageLength := 0; flags := 0; is_last := false |}.

Definition flag (i : Z) (smh : SubmessageHeader_t) : bool := Z.testbit (flags smh) i.

(** [StatisticsSubmessageData]; its size with the padding of the compiler. *)
Record StatisticsSubmessageData := {
  st_destination : Locator_t;
  st_ts_seconds : Z;
  st_ts_fraction : Z;
  st_sequence : Z;
  st_bytes : Z;
  st_bytes_high : Z
}.

Definition statistics_submessage_data_length : Z := 56.
Definition statistics_submessage_length : Z := RTPSMESSAGE_SUBMESSAGEHEADER_SIZE + statistics_submessage_data_length.

(** Endpoints are pointers: integers that identify them. *)
Inductive RecvEvent :=
  | ProcessData (reader : Z) (change : ReceivedChange)
  | ProcessDataFrag (reader : Z) (change : ReceivedChange) (sampleSize fragmentStartingNum fragmentsInSubmessage : Z)
  | ProcessHeartbeat (reader : Z) (writerGUID : GUID_t) (HBCount : Z) (firstSN lastSN : SequenceNumber_t)
      (finalFlag livelinessFlag : bool) (vendor : list Z)
  | ProcessGap (reader : Z) (writerGUID : GUID_t) (gapStart : SequenceNumber_t) (gapList : SequenceNumberSet_t) (vendor : list Z)
  | ProcessAcknack (writer : Z) (writerGUID readerGUID : GUID_t) (Ackcount : Z) (SNSet : SequenceNumberSet_t)
      (finalFlag : bool) (vendor : list Z)
  | ProcessNackFrag (writer : Z) (writerGUID readerGUID : GUID_t) (Ackcount : Z) (writerSN : SequenceNumber_t)
      (fnState : FragmentNumberSet_t) (vendor : list Z)
  | NetworkStatistics (source : GuidPrefix_t) (source_locator reception_locator : Locator_t)
      (data : StatisticsSubmessageData) (datagram_size : Z)
  | AssertLiveliness (source : GuidPrefix_t).

(** The participant and its endpoints. The answer of [process_acknack] and [process_nack_frag] is
    whether the writer is the one addressed, and then its result. *)
Record Environment := {
  participant_prefix : GuidPrefix_t;
  is_participant_ignored : list RecvEvent → GuidPrefix_t → bool;
  process_acknack : list RecvEvent → RecvEvent → option bool;
  process_nack_frag : list RecvEvent → RecvEvent → option bool
}.

(** The readers are listed in the order of iteration of the map. *)
Record MessageReceiver := {
  associated_writers_ : list Z;
  associated_readers_ : list (EntityId_t * list Z);
  source_version_ : Z * Z;
  source_vendor_id_ : list Z;
  source_guid_prefix_ : GuidPrefix_t;
  dest_guid_prefix_ : GuidPrefix_t;
  have_timestamp_ : bool;
  timestamp_ : Time_t
}.

Definition mr_make : MessageReceiver :=
  {| associated_writers_ := []; associated_readers_ := []; source_version_ := c_ProtocolVersion;
     source_vendor_id_ := c_VendorId_Unknown; source_guid_prefix_ := c_GuidPrefix_Unknown;
     dest_guid_prefix_ := c_GuidPrefix_Unknown; have_timestamp_ := false; timestamp_ := c_RTPSTimeInvalid |}.

Definition mr_set_endpoints ws rs (r : MessageReceiver) : MessageReceiver :=
  {| associated_writers_ := ws; associated_readers_ := rs; source_version_ := source_version_ r;
     source_vendor_id_ := source_vendor_id_ r; source_guid_prefix_ := source_guid_prefix_ r;
     dest_guid_prefix_ := dest_guid_prefix_ r; have_timestamp_ := have_timestamp_ r; timestamp_ := timestamp_ r |}.

Definition mr_set_source version vendor prefix (r : MessageReceiver) : MessageReceiver :=
  {| associated_writers_ := associated_writers_ r; associated_readers_ := associated_readers_ r;
     source_version_ := version; source_vendor_id_ := vendor; source_guid_prefix_ := prefix;
     dest_guid_prefix_ := dest_guid_prefix_ r; have_timestamp_ := have_timestamp_ r; timestamp_ := timestamp_ r |}.

Definition mr_set_dest prefix (r : MessageReceiver) : MessageReceiver :=
  {| associated_writers_ := associated_writers_ r; associated_readers_ := associated_readers_ r;
     source_version_ := source_version_ r; source_vendor_id_ := source_vendor_id_ r;
     source_guid_prefix_ := source_guid_prefix_ r; dest_guid_prefix_ := prefix;
     have_timestamp_ := have_timestamp_ r; timestamp_ := timestamp_ r |}.

Definition mr_set_timestamp have ts (r : MessageReceiver) : MessageReceiver :=
  {| associated_writers_ := associated_writers_ r; associated_readers_ := associated_readers_ r;
     source_version_ := source_version_ r; source_vendor_id_ := source_vendor_id_ r;
     source_guid_prefix_ := source_guid_prefix_ r; dest_guid_prefix_ := dest_guid_prefix_ r;
     have_timestamp_ := have; timestamp_ := ts |}.

(** ** Endpoints *)

(** [associateEndpoint] of a writer and of a reader. *)
Definition associate_writer (writer : Z) (r : MessageReceiver) : MessageReceiver :=
  if existsb (Z.eqb writer) (associated_writers_ r) then r
  else mr_set_endpoints (associated_writers_ r ++ [writer]) (associated_readers_ r) r.

(** [associated_readers_.find(id)] *)
Fixpoint find_readers (id : EntityId_t) (rs : list (EntityId_t * list Z)) : option (list Z) :=
  match rs with
  | [] => None
  | (k, v) :: rs' => if ent_eqb id k then Some v else find_readers id rs'
  end.

Definition associate_reader (id : EntityId_t) (reader : Z) (r : MessageReceiver) : MessageReceiver :=
  match find_readers id (associated_readers_ r) with
  | None => mr_set_endpoints (associated_writers_ r) (associated_readers_ r ++ [(id, [reader])]) r
  | Some v =>
      if existsb (Z.eqb reader) v then r
      else mr_set_endpoints (associated_writers_ r)
             ((λ '(k, v), if ent_eqb id k then (k, v ++ [reader]) else (k, v)) <$> associated_readers_ r) r
  end.

(** Removal of the first occurrence. *)
Fixpoint erase_first (x : Z) (l : list Z) : list Z :=
  match l with
  | [] => []
  | y :: l' => if x =? y then l' else y :: erase_first x l'
  end.

(** [removeEndpoint] of a writer and of a reader; a set of readers that gets empty is removed. *)
Definition remove_writer (writer : Z) (r : MessageReceiver) : MessageReceiver :=
  mr_set_endpoints (erase_first writer (associated_writers_ r)) (associated_readers_ r) r.

Definition remove_reader (id : EntityId_t) (reader : Z) (r : MessageReceiver) : MessageReceiver :=
  match find_readers id (associated_readers_ r) with
  | None => r
  | Some v =>
      if existsb (Z.eqb reader) v then
        let v' := erase_first reader v in
        mr_set_endpoints (associated_writers_ r)
          (if decide (v' = []) then List.filter (λ '(k, _), negb (ent_eqb id k)) (associated_readers_ r)
           else (λ '(k, v), if ent_eqb id k then (k, v') else (k, v)) <$> associated_readers_ r) r
      else r
  end.

(** Whether a reader accepts the message, and the first one. *)
Definition willAReaderAcceptMsgDirectedTo (readerID : EntityId_t) (r : MessageReceiver) : bool * option Z :=
  match associated_readers_ r with
  | [] => (false, None)
  | rs =>
      if ent_neb readerID c_EntityId_Unknown then
        match find_readers readerID rs with
        | Some v => (true, head v)
        | None => (false, None)
        end
      else match head (concat (snd <$> rs)) with
           | Some x => (true, Some x)
           | None => (false, None)
           end
  end.

(** The readers the callback is applied to, in order. *)
Definition findAllReaders (readerID : EntityId_t) (r : MessageReceiver) : list Z :=
  if ent_neb readerID c_EntityId_Unknown then default [] (find_readers readerID (associated_readers_ r))
  else concat (snd <$> associated_readers_ r).

(** ** Headers *)

Definition mr_reset (r : MessageReceiver) : MessageReceiver :=
  {| associated_writers_ := associated_writers_ r; associated_readers_ := associated_readers_ r;
     source_version_ := c_ProtocolVersion; source_vendor_id_ := c_VendorId_Unknown;
     source_guid_prefix_ := c_GuidPrefix_Unknown; dest_guid_prefix_ := c_GuidPrefix_Unknown;
     have_timestamp_ := false; timestamp_ := c_RTPSTimeInvalid |}.

(** [msg->buffer[msg->pos]] *)
Definition octet_at_pos : CDR Z := bs ← peek 1; mret (le_combine bs).

(** The four characters RTPS. *)
Definition rtps_magic : list Z := [0x52; 0x54; 0x50; 0x53].

Definition checkRTPSHeader (r : MessageReceiver) : CDR (bool * MessageReceiver) :=
  m ← get_msg;
  magic ← cdr_option (mem_load (msg_block m) 0 4);
  if negb (bool_decide (magic = rtps_magic)) then mret (false, r)
  else
    advance 4;;
    major ← octet_at_pos;
    if negb (major =? fst c_ProtocolVersion) then mret (false, r)
    else
      advance 1;;
      minor ← octet_at_pos;
      advance 1;;
      vendor0 ← octet_at_pos;
      advance 1;;
      vendor1 ← octet_at_pos;
      advance 1;;
      '(_, prefix) ← readData (Some (pfx_value (source_guid_prefix_ r))) 12;
      let r1 := mr_set_source (major, minor) [vendor0; vendor1] (GuidPrefix (default [] prefix)) r in
      mret (true, mr_set_timestamp false (timestamp_ r1) r1).

Definition readSubmessageHeader (smh : SubmessageHeader_t) : CDR (bool * SubmessageHeader_t) :=
  m ← get_msg;
  if u32 (msg_length m - msg_pos m) <? 4 then mret (false, smh)
  else
    id ← octet_at_pos;
    advance 1;;
    fl ← octet_at_pos;
    advance 1;;
    modify_msg (msg_set_endian (if Z.testbit fl 0 then LITTLEEND else BIGEND));;
    '(_, length) ← readUInt16 0;
    m ← get_msg;
    if u32 (msg_pos m + length) >? msg_length m then
      mret (false, {| submessageId := id; submessageLength := submessageLength smh; flags := fl; is_last := is_last smh |})
    else
      mret (true,
        if (length =? 0) && negb (id =? INFO_TS) && negb (id =? PAD)
        then {| submessageId := id; submessageLength := u32 (msg_length m - msg_pos m); flags := fl; is_last := true |}
        else {| submessageId := id; submessageLength := length; flags := fl; is_last := false |}).

(** Every submessage assigns the byte order of its flags. *)
Definition set_flag_endian (smh : SubmessageHeader_t) : CDR () :=
  modify_msg (msg_set_endian (if flag 0 smh then LITTLEEND else BIGEND)).

(** ** DATA and DATA_FRAG *)

(** A pointer to the message with a length: what lies there of the block. *)
Definition msg_slice (m : CDRMessage_t) (pos len : Z) : list Z :=
  let rest := drop (Z.to_nat pos) (msg_block m) in take (Z.to_nat (Z.min len (Z.of_nat (length rest)))) rest.

(** [CacheChange_t ch; ch.kind = ALIVE; ...] *)
Definition received_change (writer : GUID_t) (sn : SequenceNumber_t) (vendor : list Z) : ReceivedChange :=
  {| rc_change := {| cc_kind := ALIVE; writerGUID := writer; instanceHandle := None; sequenceNumber := sn;
                     serializedPayload := pl_default; inline_qos := pl_default; sourceTimestamp := time_zero;
                     vendor_id := vendor; fragment_size_ := 0; fragment_count_ := 0; first_missing_fragment_ := 0 |};
     rc_sample_identity := None; rc_has_more_replies := false |}.

Definition cc_set_inline_qos (p : SerializedPayload_t) (c : CacheChange_t) : CacheChange_t :=
  {| cc_kind := cc_kind c; writerGUID := writerGUID c; instanceHandle := instanceHandle c;
     sequenceNumber := sequenceNumber c; serializedPayload := serializedPayload c; inline_qos := p;
     sourceTimestamp := sourceTimestamp c; vendor_id := vendor_id c; fragment_size_ := fragment_size_ c;
     fragment_count_ := fragment_count_ c; first_missing_fragment_ := first_missing_fragment_ c |}.

Definition cc_set_payload (p : SerializedPayload_t) (c : CacheChange_t) : CacheChange_t :=
  cc_set_fragments p (fragment_size_ c) (fragment_count_ c) (first_missing_fragment_ c) c.

Definition cc_set_timestamp (t : Time_t) (c : CacheChange_t) : CacheChange_t :=
  {| cc_kind := cc_kind c; writerGUID := writerGUID c; instanceHandle := instanceHandle c;
     sequenceNumber := sequenceNumber c; serializedPayload := serializedPayload c; inline_qos := inline_qos c;
     sourceTimestamp := t; vendor_id := vendor_id c; fragment_size_ := fragment_size_ c;
     fragment_count_ := fragment_count_ c; first_missing_fragment_ := first_missing_fragment_ c |}.

(** [if (inlineQosFlag)]: the result, the size of the list and the change. *)
Definition read_inline_qos (inlineQosFlag endiannessFlag : bool) (ch : ReceivedChange) : CDR (bool * Z * ReceivedChange) :=
  if inlineQosFlag then
    p ← updateCacheChangeFromInlineQos ch;
    let '(ok, inlineQosSize, ch') := p : bool * Z * ReceivedChange in
    if ok : bool then
      m ← get_msg;
      mret (true, inlineQosSize, rc_update (cc_set_inline_qos
        (Payload (if endiannessFlag then PL_CDR_LE else PL_CDR_BE) inlineQosSize
           (msg_slice m (u32 (msg_pos m - inlineQosSize)) inlineQosSize) false)) ch')
    else mret (false, inlineQosSize, ch')
  else mret (true, 0, ch).

(** [if (octetsToInlineQos > size) ...]: whether the jump stays in the message. *)
Definition jump_to_inline_qos (octetsToInlineQos size : Z) : CDR bool :=
  if octetsToInlineQos >? size then
    advance (octetsToInlineQos - size);;
    m ← get_msg; mret (negb (msg_pos m >? msg_length m))
  else mret true.

(** The payload of [payload_size] octets at the position, when it is in the message. *)
Definition take_payload (payload_size : Z) (keyFlag : bool) : CDR (option SerializedPayload_t) :=
  m ← get_msg;
  let next_pos := u32 (msg_pos m + payload_size) in
  if (msg_length m >=? next_pos) && (payload_size >? 0) then
    modify_msg (msg_set_pos next_pos);;
    mret (Some (Payload 0 payload_size (msg_slice m (msg_pos m) payload_size) keyFlag))
  else mret None.

Definition with_timestamp (r : MessageReceiver) (ch : ReceivedChange) : ReceivedChange :=
  if have_timestamp_ r then rc_update (cc_set_timestamp (timestamp_ r)) ch else ch.

(** The result, the entity of the writer and what is handed to the readers. *)
Definition proc_Submsg_Data (smh : SubmessageHeader_t) (r : MessageReceiver) : CDR (bool * EntityId_t * list RecvEvent) :=
  if submessageLength smh <? RTPSMESSAGE_DATA_MIN_LENGTH then mret (false, c_EntityId_Unknown, [])
  else
    let endiannessFlag := flag 0 smh in
    let inlineQosFlag := flag 1 smh in
    let dataFlag := flag 2 smh in
    let keyFlag := flag 3 smh in
    if keyFlag && dataFlag then mret (false, c_EntityId_Unknown, [])
    else
      set_flag_endian smh;;
      advance 2;;
      '(v1, octetsToInlineQos) ← readInt16 0;
      '(v2, readerID) ← readEntityId c_EntityId_Unknown;
      if negb (fst (willAReaderAcceptMsgDirectedTo readerID r)) then mret (false, c_EntityId_Unknown, [])
      else
        '(v3, writerID) ← readEntityId c_EntityId_Unknown;
        '(v4, sn) ← readSequenceNumber sn_zero;
        if negb (v1 && v2 && v3 && v4) then mret (false, writerID, [])
        else if (sn <=? sn_zero)%sn then mret (false, writerID, [])
        else
          let ch := received_change (Guid (source_guid_prefix_ r) writerID) sn (source_vendor_id_ r) in
          inside ← jump_to_inline_qos octetsToInlineQos RTPSMESSAGE_OCTETSTOINLINEQOS_DATASUBMSG;
          if negb inside then mret (false, writerID, [])
          else
            q ← read_inline_qos inlineQosFlag endiannessFlag ch;
            let '(ok, inlineQosSize, ch) := q : bool * Z * ReceivedChange in
            if negb ok then mret (false, writerID, [])
            else
              payload ← (if dataFlag || keyFlag then
                           let submsg_no_payload_size := u32 (RTPSMESSAGE_DATA_EXTRA_INLINEQOS_SIZE + octetsToInlineQos + inlineQosSize) in
                           if submessageLength smh <? submsg_no_payload_size then mret None
                           else take_payload (u32 (submessageLength smh - submsg_no_payload_size)) keyFlag
                         else mret (Some (serializedPayload (rc_change ch))));
              match payload : option SerializedPayload_t with
              | None => mret (false, writerID, [])
              | Some p =>
                  let ch := with_timestamp r (rc_update (cc_set_payload p) ch) in
                  mret (true, writerID, (λ reader, ProcessData reader ch) <$> findAllReaders readerID r)
              end.

(** The fields that follow the sequence number of a DATA_FRAG. *)
Record FragmentHeader := {
  fh_starting_num : Z;
  fh_fragments_in_submessage : Z;
  fh_fragment_size : Z;
  fh_sample_size : Z
}.

Definition read_fragment_header : CDR (bool * FragmentHeader) :=
  '(v1, fragmentStartingNum) ← readUInt32 0;
  '(v2, fragmentsInSubmessage) ← readUInt16 0;
  '(v3, fragmentSize) ← readUInt16 0;
  '(v4, sampleSize) ← readUInt32 0;
  mret (v1 && v2 && v3 && v4,
        {| fh_starting_num := fragmentStartingNum; fh_fragments_in_submessage := fragmentsInSubmessage;
           fh_fragment_size := fragmentSize; fh_sample_size := sampleSize |}).

Definition proc_Submsg_DataFrag (smh : SubmessageHeader_t) (r : MessageReceiver) : CDR (bool * list RecvEvent) :=
  if submessageLength smh <? RTPSMESSAGE_DATA_MIN_LENGTH then mret (false, [])
  else
    let endiannessFlag := flag 0 smh in
    let inlineQosFlag := flag 1 smh in
    let keyFlag := flag 2 smh in
    set_flag_endian smh;;
    advance 2;;
    '(v1, octetsToInlineQos) ← readInt16 0;
    '(v2, readerID) ← readEntityId c_EntityId_Unknown;
    if negb (fst (willAReaderAcceptMsgDirectedTo readerID r)) then mret (false, [])
    else
      '(v3, writerID) ← readEntityId c_EntityId_Unknown;
      '(v4, sn) ← readSequenceNumber sn_zero;
      if (sn <=? sn_zero)%sn then mret (false, [])
      else
        '(v5, fh) ← read_fragment_header;
        if negb (v1 && v2 && v3 && v4 && v5) then mret (false, [])
        else
          let ch := received_change (Guid (source_guid_prefix_ r) writerID) sn (source_vendor_id_ r) in
          inside ← jump_to_inline_qos octetsToInlineQos RTPSMESSAGE_OCTETSTOINLINEQOS_DATAFRAGSUBMSG;
          if negb inside then mret (false, [])
          else
            q ← read_inline_qos inlineQosFlag endiannessFlag ch;
            let '(ok, inlineQosSize, ch) := q : bool * Z * ReceivedChange in
            if negb ok then mret (false, [])
            else
              payload ← take_payload (u32 (submessageLength smh -
                          u32 (RTPSMESSAGE_DATA_EXTRA_INLINEQOS_SIZE + octetsToInlineQos + inlineQosSize))) keyFlag;
              match payload : option SerializedPayload_t with
              | None => mret (false, [])
              | Some p =>
                  c ← cdr_option (setFragmentSize (fh_fragment_size fh) false (cc_set_payload p (rc_change ch)));
                  let ch := with_timestamp r (rc_update (λ _, c) ch) in
                  mret (true, (λ reader, ProcessDataFrag reader ch (fh_sample_size fh) (fh_starting_num fh)
                                           (fh_fragments_in_submessage fh)) <$> findAllReaders readerID r)
              end.

(** ** The other submessages *)

Definition proc_Submsg_Heartbeat (smh : SubmessageHeader_t) (r : MessageReceiver) : CDR (bool * list RecvEvent) :=
  let finalFlag := flag 1 smh in
  let livelinessFlag := flag 2 smh in
  set_flag_endian smh;;
  '(_, readerID) ← readEntityId c_EntityId_Unknown;
  '(_, writerID) ← readEntityId c_EntityId_Unknown;
  '(_, firstSN) ← readSequenceNumber sn_zero;
  '(_, lastSN) ← readSequenceNumber sn_zero;
  if (firstSN <=? sn_zero)%sn then mret (false, [])
  else if (lastSN <? firstSN)%sn && sn_neb lastSN (firstSN - 1)%sn then mret (false, [])
  else
    c ← readUInt32 0;
    let '(valid, HBCount) := c : bool * Z in
    if negb valid then mret (false, [])
    else mret (true, (λ reader, ProcessHeartbeat reader (Guid (source_guid_prefix_ r) writerID) HBCount firstSN lastSN
                                  finalFlag livelinessFlag (source_vendor_id_ r)) <$> findAllReaders readerID r).

Definition proc_Submsg_Gap (smh : SubmessageHeader_t) (r : MessageReceiver) : CDR (bool * list RecvEvent) :=
  set_flag_endian smh;;
  '(_, readerID) ← readEntityId c_EntityId_Unknown;
  '(_, writerID) ← readEntityId c_EntityId_Unknown;
  '(_, gapStart) ← readSequenceNumber sn_zero;
  gapList ← readSequenceNumberSet;
  if (gapStart <=? sn_zero)%sn then mret (false, [])
  else mret (true, (λ reader, ProcessGap reader (Guid (source_guid_prefix_ r) writerID) gapStart gapList
                                (source_vendor_id_ r)) <$> findAllReaders readerID r).

Definition proc_Submsg_InfoTS (smh : SubmessageHeader_t) (r : MessageReceiver) : CDR (bool * MessageReceiver) :=
  set_flag_endian smh;;
  if negb (flag 1 smh) then '(_, ts) ← readTimestamp (timestamp_ r); mret (true, mr_set_timestamp true ts r)
  else mret (true, mr_set_timestamp false (timestamp_ r) r).

Definition proc_Submsg_InfoDST (smh : SubmessageHeader_t) (r : MessageReceiver) : CDR (bool * MessageReceiver) :=
  set_flag_endian smh;;
  '(_, p) ← readData (Some (pfx_value c_GuidPrefix_Unknown)) 12;
  let guidP := GuidPrefix (default [] p) in
  mret (true, if pfx_neb guidP c_GuidPrefix_Unknown then mr_set_dest guidP r else r).

Definition proc_Submsg_InfoSRC (smh : SubmessageHeader_t) (r : MessageReceiver) : CDR (bool * MessageReceiver) :=
  set_flag_endian smh;;
  if submessageLength smh =? INFO_SRC_SUBMSG_LENGTH then
    advance 4;;
    '(_, major) ← readOctet (fst (source_version_ r));
    '(_, minor) ← readOctet (snd (source_version_ r));
    '(_, vendor) ← readData (Some (source_vendor_id_ r)) 2;
    '(_, prefix) ← readData (Some (pfx_value (source_guid_prefix_ r))) 12;
    mret (true, mr_set_source (major, minor) (default [] vendor) (GuidPrefix (default [] prefix)) r)
  else mret (false, r).

Section Receiver.
Context (env : Environment).

(** The writers are asked in order until one answers. *)
Fixpoint offer_to_writers (ask : list RecvEvent → RecvEvent → option bool) (event : Z → RecvEvent)
    (before : list RecvEvent) (ws : list Z) : bool * list RecvEvent :=
  match ws with
  | [] => (false, [])
  | w :: ws' =>
      match ask before (event w) with
      | Some result => (result, [event w])
      | None => let '(result, events) := offer_to_writers ask event (before ++ [event w]) ws' in (result, event w :: events)
      end
  end.

Definition proc_Submsg_Acknack (smh : SubmessageHeader_t) (before : list RecvEvent) (r : MessageReceiver) :
    CDR (bool * list RecvEvent) :=
  let finalFlag := flag 1 smh in
  set_flag_endian smh;;
  '(_, readerID) ← readEntityId c_EntityId_Unknown;
  '(_, writerID) ← readEntityId c_EntityId_Unknown;
  SNSet ← readSequenceNumberSet;
  c ← readUInt32 0;
  let '(valid, Ackcount) := c : bool * Z in
  if negb valid then mret (false, [])
  else mret (offer_to_writers (process_acknack env)
               (λ w, ProcessAcknack w (Guid (dest_guid_prefix_ r) writerID) (Guid (source_guid_prefix_ r) readerID)
                       Ackcount SNSet finalFlag (source_vendor_id_ r)) before (associated_writers_ r)).

Definition proc_Submsg_NackFrag (smh : SubmessageHeader_t) (before : list RecvEvent) (r : MessageReceiver) :
    CDR (bool * list RecvEvent) :=
  set_flag_endian smh;;
  '(_, readerID) ← readEntityId c_EntityId_Unknown;
  '(_, writerID) ← readEntityId c_EntityId_Unknown;
  '(_, writerSN) ← readSequenceNumber sn_zero;
  '(_, fnState) ← readFragmentNumberSet bm_default;
  c ← readUInt32 0;
  let '(valid, Ackcount) := c : bool * Z in
  if negb valid then mret (false, [])
  else mret (offer_to_writers (process_nack_frag env)
               (λ w, ProcessNackFrag w (Guid (dest_guid_prefix_ r) writerID) (Guid (source_guid_prefix_ r) readerID)
                       Ackcount writerSN fnState (source_vendor_id_ r)) before (associated_writers_ r)).

(** HEARTBEAT_FRAG is accepted and ignored. *)
Definition proc_Submsg_HeartbeatFrag : CDR bool := mret true.

(** ** Statistics *)

(** [read_statistics_submessage]: takes the submessage off the end of the message. *)
Definition read_statistics_submessage : CDR StatisticsSubmessageData :=
  '(_, destination) ← read_locator loc_default;
  '(_, seconds) ← readInt32 0;
  '(_, fraction) ← readUInt32 0;
  '(_, sequence) ← readUInt64 0;
  '(_, bytes) ← readUInt64 0;
  '(_, bytes_high) ← readUInt16 0;
  modify_msg (λ m, let length := u32 (msg_length m - statistics_submessage_length) in
    {| msg_buffer := msg_buffer m; msg_pos := length; msg_max_size := msg_max_size m;
       msg_reserved_size := msg_reserved_size m; msg_length := length; msg_endian := msg_endian m;
       msg_wraps := msg_wraps m |});;
  mret {| st_destination := destination; st_ts_seconds := seconds; st_ts_fraction := fraction;
          st_sequence := sequence; st_bytes := bytes; st_bytes_high := bytes_high |}.

(** The search for the statistics submessage. *)
Fixpoint statistics_loop (fuel : nat) (source_locator reception_locator : Locator_t) (msg_length0 : Z)
    (r : MessageReceiver) : CDR (list RecvEvent) :=
  m ← get_msg;
  if msg_pos m <? msg_length0 then
    match fuel with
    | O => cdr_fault
    | S fuel' =>
        h ← readSubmessageHeader smh_default;
        let '(ok, header) := h : bool * SubmessageHeader_t in
        if negb ok then mret []
        else if submessageId header =? FASTDDS_STATISTICS_NETWORK_SUBMESSAGE then
          m ← get_msg;
          if negb (submessageLength header =? statistics_submessage_data_length) ||
             (u32 (msg_pos m + submessageLength header) >? msg_length0) then mret []
          else
            data ← read_statistics_submessage;
            mret [NetworkStatistics (source_guid_prefix_ r) source_locator reception_locator data msg_length0]
        else if is_last header then mret []
        else
          advance (Z.land (u32 (submessageLength header + 3)) (2 ^ 32 - 4));;
          statistics_loop fuel' source_locator reception_locator msg_length0 r
    end
  else mret [].

Definition notify_network_statistics (source_locator reception_locator : Locator_t) (r : MessageReceiver) : CDR (list RecvEvent) :=
  if bool_decide (c_VendorId_eProsima ≠ source_vendor_id_ r) || (loc_kind source_locator =? LOCATOR_KIND_SHM) then mret []
  else
    m ← get_msg;
    events ← statistics_loop (S (Z.to_nat (msg_length m))) source_locator reception_locator (msg_length m) r;
    modify_msg (msg_set_pos (msg_pos m));; mret events.

(** ** A message *)

(** The [switch] on the kind of the submessage: whether to go on, the receiver, what has been handed
    to the endpoints and whether the submessages of the source are ignored from now on. *)
Definition process_submessage (submsgh : SubmessageHeader_t) (ignore_submessages : bool) (before : list RecvEvent)
    (r : MessageReceiver) : CDR (bool * MessageReceiver * list RecvEvent * bool) :=
  let id := submessageId submsgh in
  let to_us := negb (pfx_neb (dest_guid_prefix_ r) (participant_prefix env)) in
  let deliver (c : CDR (bool * list RecvEvent)) : CDR (bool * MessageReceiver * list RecvEvent * bool) :=
    if to_us then '(valid, events) ← c; mret (valid, r, events, ignore_submessages)
    else mret (true, r, [], ignore_submessages) in
  if id =? DATA then
    if to_us then
      d ← proc_Submsg_Data submsgh r;
      let '(valid, writerId, events) := d : bool * EntityId_t * list RecvEvent in
      mret (valid, r, events,
            if valid && ent_eqb writerId c_EntityId_SPDPWriter
            then is_participant_ignored env (before ++ events) (source_guid_prefix_ r) else ignore_submessages)
    else mret (true, r, [], ignore_submessages)
  else if id =? DATA_FRAG then deliver (proc_Submsg_DataFrag submsgh r)
  else if id =? GAP then deliver (proc_Submsg_Gap submsgh r)
  else if id =? ACKNACK then deliver (proc_Submsg_Acknack submsgh before r)
  else if id =? NACK_FRAG then deliver (proc_Submsg_NackFrag submsgh before r)
  else if id =? HEARTBEAT then deliver (proc_Submsg_Heartbeat submsgh r)
  else if id =? HEARTBEAT_FRAG then deliver (v ← proc_Submsg_HeartbeatFrag; mret (v, []))
  else if id =? INFO_DST then '(valid, r') ← proc_Submsg_InfoDST submsgh r; mret (valid, r', [], ignore_submessages)
  else if id =? INFO_SRC then
    '(valid, r') ← proc_Submsg_InfoSRC submsgh r;
    mret (valid, r', [], is_participant_ignored env before (source_guid_prefix_ r'))
  else if id =? INFO_TS then '(valid, r') ← proc_Submsg_InfoTS submsgh r; mret (valid, r', [], ignore_submessages)
  else mret (true, r, [], ignore_submessages).

(** The loop over the submessages: the receiver, the events, and whether the loop was left with
    [break] or at the end of the message. *)
Fixpoint process_submessages (fuel : nat) (ignore_submessages : bool) (events : list RecvEvent) (r : MessageReceiver) :
    CDR (MessageReceiver * list RecvEvent * bool) :=
  m ← get_msg;
  if msg_pos m <? msg_length m then
    match fuel with
    | O => cdr_fault
    | S fuel' =>
        h ← readSubmessageHeader smh_default;
        let '(ok, submsgh) := h : bool * SubmessageHeader_t in
        if negb ok then mret (r, events, false)
        else
          m ← get_msg;
          let next_msg_pos := u32 (msg_pos m + Z.land (u32 (submessageLength submsgh + 3)) (2 ^ 32 - 4)) in
          p ← (if ignore_submessages && negb (submessageId submsgh =? INFO_SRC)
               then mret (true, r, [], ignore_submessages)
               else process_submessage submsgh ignore_submessages events r);
          let '(valid, r', events', ignore') := p : bool * MessageReceiver * list RecvEvent * bool in
          if negb valid || is_last submsgh then mret (r', events ++ events', true)
          else
            modify_msg (msg_set_pos next_msg_pos);;
            process_submessages fuel' ignore' (events ++ events') r'
    end
  else mret (r, events, true).

(** Every submessage takes four octets at least: the fuel is the length of the message. *)
Definition processCDRMsg (source_locator reception_locator : Locator_t) (r : MessageReceiver) :
    CDR (MessageReceiver * list RecvEvent) :=
  m ← get_msg;
  if msg_length m <? RTPSMESSAGE_HEADER_SIZE then mret (r, [])
  else
    let r := mr_set_dest (participant_prefix env) (mr_reset r) in
    modify_msg (msg_set_pos 0);;
    h ← checkRTPSHeader r;
    let '(ok, r) := h : bool * MessageReceiver in
    if negb ok then mret (r, [])
    else
      let ignore_submessages := is_participant_ignored env [] (source_guid_prefix_ r) in
      stats ← (if negb ignore_submessages then notify_network_statistics source_locator reception_locator r else mret []);
      m ← get_msg;
      p ← process_submessages (S (Z.to_nat (msg_length m))) ignore_submessages stats r;
      let '(r', events, finished) := p : MessageReceiver * list RecvEvent * bool in
      mret (r', if finished then events ++ [AssertLiveliness (source_guid_prefix_ r')] else events).
End Receiver.
