(* ===== verification/MessageReceiverFacts.v ===== *)
(** * What the message receiver accepts

    For any message and any answers of the participant and its endpoints: the
    functions of the receiver read only octets of the message, the loops end, and
    what is handed to the endpoints is well formed. *)

From Stdlib Require Import ZArith Lia ZifyBool.
From stdpp Require Import base numbers list option list_numbers.
From S2P Require Import Prelude SequenceNumber BitmapRange BitmapFacts Bytes Guid Time CacheChange.
From S2P Require Import CDRMessage CDRFacts ParameterList MessageReceiver.

Open Scope Z_scope.

(** A payload that lies in the message. *)
Definition in_message (B : list Z) (L : Z) (p : SerializedPayload_t) : Prop :=
  ∃ off, 0 <= off ∧ 0 <= pl_length p ∧ off + pl_length p <= L ∧
    mem_load B off (pl_length p) = Some (pl_data p).

(** What the endpoints may rely on. *)
Definition event_ok (B : list Z) (L : Z) (e : RecvEvent) : Prop :=
  match e with
  | ProcessData _ ch =>
      sn_wf (sequenceNumber (rc_change ch)) ∧ 0 < snz (sequenceNumber (rc_change ch)) ∧
      in_message B L (serializedPayload (rc_change ch)) ∧ in_message B L (inline_qos (rc_change ch))
  | ProcessDataFrag _ ch _ _ _ =>
      sn_wf (sequenceNumber (rc_change ch)) ∧ 0 < snz (sequenceNumber (rc_change ch)) ∧ in_message B L (inline_qos (rc_change ch))
  | ProcessHeartbeat _ _ count first last _ _ _ =>
      is_u32 count ∧ sn_wf first ∧ sn_wf last ∧ 0 < snz first ∧ snz first - 1 <= snz last
  | ProcessGap _ _ start list _ => sn_wf start ∧ 0 < snz start ∧ set_read list
  | ProcessAcknack _ _ _ count set _ _ => is_u32 count ∧ set_read set
  | ProcessNackFrag _ _ _ count sn _ _ => is_u32 count ∧ sn_wf sn
  | NetworkStatistics _ _ _ _ _ | AssertLiveliness _ => True
  end.

Definition recv_ok (r : MessageReceiver) : Prop :=
  length (pfx_value (source_guid_prefix_ r)) = 12%nat ∧ length (source_vendor_id_ r) = 2%nat.

Lemma in_message_mono B L L' p : L' <= L → in_message B L' p → in_message B L p.
Proof. intros Hle (off & ? & ? & ? & ?). exists off. split_and!; done || lia. Qed.

Lemma event_ok_mono B L L' e : L' <= L → event_ok B L' e → event_ok B L e.
Proof. intros Hle. destruct e; cbn; try done; intros; destruct_and?; split_and?; eauto using in_message_mono. Qed.

Section Facts.
Context (B : list Z) (L : Z) (HB : block_ok B L) (HL : 20 <= L <= 2 ^ 30).

Lemma in_message_empty e k : in_message B L (Payload e 0 [] k).
Proof using HB HL.
  exists 0. cbn. split_and!; [lia..|]. rewrite mem_load_Some; [done | lia | lia |]. destruct HB as (_ & ? & _). lia.
Qed.

(** ** Headers *)

Lemma octet_at_pos_spec s m : msg_in B L s m → msg_pos m + 1 <= L → ∃ o, octet_at_pos m = Some (o, m) ∧ is_u8 o.
Proof using HB.
  intros Hm Hle. destruct (peek_spec B L HB s 1 m Hm ltac:(lia) Hle) as (bs & Ep & _ & Hlen & H8).
  exists (le_combine bs). split; [unfold octet_at_pos, mbind, CDR_bind; by rewrite Ep|].
  pose proof (le_combine_range bs H8) as Hr. rewrite Hlen in Hr. done.
Qed.

(** One step of a computation whose result is known. *)
Lemma bind_step {A C} (f : CDR A) (g : A → CDR C) m a m1 : f m = Some (a, m1) → (f ≫= g) m = g a m1.
Proof. intros E. unfold mbind, CDR_bind. by rewrite E. Qed.

Lemma header_spec smh m :
  msg_in B L 3 m → msg_pos m < L →
  ∃ ok h m', readSubmessageHeader smh m = Some ((ok, h), m') ∧ msg_block m' = B ∧ msg_length m' = L ∧
    (ok = true → msg_pos m' = msg_pos m + 4 ∧ 0 <= submessageLength h ∧ msg_pos m' + submessageLength h <= L).
Proof using HB HL.
  intros Hm Hlt. pose proof Hm as [Eb El Hp]. destruct HB as (HL31 & _). change (2 ^ 31) with 2147483648 in *. change (2 ^ 30) with 1073741824 in *.
  unfold readSubmessageHeader. rewrite (bind_step _ _ m m m) by done. rewrite El, u32_small by zwidth.
  destruct (Z.ltb_spec (L - msg_pos m) 4); [by exists false, smh, m|].
  destruct (octet_at_pos_spec 3 m Hm ltac:(lia)) as (id & E1 & _). rewrite (bind_step _ _ _ _ _ E1).
  destruct (advance_in B L HB 3 1 m ltac:(done) ltac:(lia) Hm ltac:(lia)) as [E2 Hm2]. rewrite (bind_step _ _ _ _ _ E2).
  set (m2 := msg_set_pos (msg_pos m + 1) m) in *.
  destruct (octet_at_pos_spec 0 m2 Hm2 ltac:(cbn; lia)) as (fl & E3 & _). rewrite (bind_step _ _ _ _ _ E3).
  destruct (advance_in B L HB 0 1 m2 ltac:(done) ltac:(lia) Hm2 ltac:(cbn; lia)) as [E4 Hm4]. rewrite (bind_step _ _ _ _ _ E4).
  set (m4 := msg_set_pos (msg_pos m2 + 1) m2) in *.
  rewrite (bind_step _ _ m4 () (msg_set_endian (if Z.testbit fl 0 then LITTLEEND else BIGEND) m4)) by done.
  set (m5 := msg_set_endian _ m4). assert (msg_in B L 0 m5) as Hm5 by (by destruct Hm4).
  assert (msg_pos m5 = msg_pos m + 2) as Ep5 by (cbn; lia).
  destruct (read_pair_spec B L HB 0 m5 ltac:(done) Hm5 ltac:(lia)) as (bs & E6 & Hr & Hm6). set (m6 := msg_set_pos (msg_pos m5 + 2) m5) in *.
  assert (readUInt16 0 m5 = Some ((true, le_combine bs), m6)) as E7.
  { unfold readUInt16. rewrite (bind_step _ _ m5 m5 m5) by done. rewrite (has_left_spec B L HB 0 2 m5) by (done || lia).
    destruct (Z.leb_spec (msg_pos m5 + 2) L); [|lia]. cbn [negb]. by rewrite (bind_step _ _ _ _ _ E6). }
  rewrite (bind_step _ _ _ _ _ E7). rewrite (bind_step _ _ m6 m6 m6) by done.
  assert (msg_pos m6 = msg_pos m + 4) as Ep6 by (cbn; lia). rewrite (in_length _ _ _ _ Hm6), Ep6. rewrite u32_small by zwidth.
  destruct (Z.gtb_spec (msg_pos m + 4 + le_combine bs) L).
  { eexists false, _, m6. split; [done|]. split; [apply Hm6|]. split; [apply Hm6 | done]. }
  eexists true, _, m6. split; [done|]. split; [apply Hm6|]. split; [apply Hm6|]. intros _. rewrite u32_small by zwidth.
  split; [done|]. destruct (_ && _ && _); cbn [submessageLength]; lia.
Qed.

(** ** Payloads and inline QoS *)

Lemma safe_flag_endian s smh : safe B L s s (set_flag_endian smh) (λ _, True).
Proof. apply safe_endian. Qed.

Lemma safe_jump s o size : slack_ok s → slack_ok (s + 32768) → is_i16 o → 0 <= size →
  safe B L s (s + 32768) (jump_to_inline_qos o size) (λ _, True).
Proof using HB.
  intros Hs Hs' Ho Hsz. unfold is_i16 in Ho. change (2 ^ 15) with 32768 in Ho. unfold jump_to_inline_qos. destruct (Z.gtb_spec o size).
  - eapply safe_weaken with (s1 := s + (o - size)) (R := λ _, True); [|lia | done].
    eapply safe_bind; [apply safe_advance; [done | done | | lia]|].
    + destruct Hs, Hs'. split; lia.
    + intros _ _. eapply safe_bind; [by apply safe_get|]. intros m _. by apply safe_ret.
  - eapply safe_weaken with (s1 := s) (R := λ _, True); [by apply safe_ret | lia | done].
Qed.

Lemma slice_in_message m off len e k s :
  msg_in B L s m → 0 <= off → 0 <= len → off + len <= L → in_message B L (Payload e len (msg_slice m off len) k).
Proof using HB HL.
  intros [Eb _ _] Ho Hl Hle. exists off. cbn [pl_length pl_data]. split_and!; [done..|].
  destruct HB as (_ & ? & _).
  unfold msg_slice. rewrite Eb. cbn zeta. rewrite length_drop, Z.min_l by lia. apply mem_load_Some; [done | done | lia].
Qed.

Lemma same_sample_refl c : same_sample c c.
Proof. repeat split. Qed.

(** The change keeps its identity, and the inline QoS lie in the message. *)
Definition with_qos (c : CacheChange_t) (r : bool * Z * ReceivedChange) : Prop :=
  let '(ok, q, ch) := r in
  ok = true → writerGUID (rc_change ch) = writerGUID c ∧ sequenceNumber (rc_change ch) = sequenceNumber c ∧
    serializedPayload (rc_change ch) = serializedPayload c ∧ in_message B L (inline_qos (rc_change ch)) ∧ 0 <= q.

Lemma safe_read_inline_qos s b e ch :
  slack_ok s → 3 <= s → in_message B L (inline_qos (rc_change ch)) →
  safe B L s s (read_inline_qos b e ch) (with_qos (rc_change ch)).
Proof using HB HL.
  intros Hs Hs3 Hq m Hm. unfold read_inline_qos. destruct b; [|by exists (true, 0, ch), m].
  destruct (inline_qos_spec B L HB s Hs ch m Hs3 Hm) as (ok & q & ch' & m' & E & Hm' & Hsame & Hok).
  rewrite (bind_step _ _ _ _ _ E). destruct ok; [|by exists (false, q, ch'), m'].
  destruct (Hok eq_refl) as (Ep & Hle & Hq0). rewrite (bind_step _ _ m' m' m') by done. eexists _, m'. split; [done|]. split; [done|].
  intros _. cbn [rc_update rc_change cc_set_inline_qos writerGUID sequenceNumber inline_qos serializedPayload].
  destruct Hsame as (E1 & E2 & E3 & _). split_and!; [done | done | done | | done]. destruct Hm as [_ _ Hp]. destruct HB as (H31 & _).
  apply slice_in_message with s; [done | apply u32_range | done |]. change (2 ^ 31) with 2147483648 in H31. rewrite u32_small by zwidth. lia.
Qed.

Lemma safe_take_payload s ps k : slack_ok s → is_u32 ps → safe B L s s (take_payload ps k) (λ _, True).
Proof using HB HL.
  intros Hs Hps m Hm. unfold take_payload. rewrite (bind_step _ _ m m m) by done. pose proof Hm as [Eb El Hp]. rewrite El.
  destruct (Z.geb_spec L (u32 (msg_pos m + ps))); cbn [andb]; [|by exists None, m].
  destruct (ps >? 0); [|by exists None, m]. eexists _, _. split; [done|]. split; [|done].
  constructor; [done | done | cbn]. pose proof (u32_range (msg_pos m + ps)) as Hr. destruct Hs as [Hs0 _]. unfold is_u32 in Hr. lia.
Qed.

(** A payload whose end does not wrap around lies in the message. *)
Lemma safe_take_payload_in s ps k : slack_ok s → 0 <= ps <= L → 
  safe B L s s (take_payload ps k) (λ p, match p with Some p => in_message B L p | None => True end).
Proof using HB HL.
  intros Hs Hps m Hm. unfold take_payload. rewrite (bind_step _ _ m m m) by done. pose proof Hm as [Eb El Hp]. rewrite El.
  destruct Hs as [Hs0 Hs1]. change (2 ^ 30) with 1073741824 in *. rewrite u32_small by zwidth.
  destruct (Z.geb_spec L (msg_pos m + ps)); cbn [andb]; [|by exists None, m].
  destruct (ps >? 0); [|by exists None, m]. eexists _, _. split; [done|]. split.
  - constructor; [done | done | cbn; lia].
  - apply slice_in_message with s; [done | lia | lia | lia].
Qed.

Definition events_ok (es : list RecvEvent) : Prop := Forall (event_ok B L) es.

Lemma events_ok_readers (f : Z → RecvEvent) (rs : list Z) : (∀ x, event_ok B L (f x)) → events_ok (f <$> rs).
Proof. intros H. apply Forall_fmap. by apply Forall_true. Qed.

Lemma slack_small s : 0 <= s <= 100000 → slack_ok s.
Proof. unfold slack_ok. change (2 ^ 30) with 1073741824. lia. Qed.

(** ** Handlers *)

Lemma slack_0 : slack_ok 0. Proof. done. Qed.
Lemma slack_2 : slack_ok 2. Proof. done. Qed.
Lemma slack_4 : slack_ok 4. Proof. done. Qed.
Lemma slack_jump : slack_ok (2 + 32768). Proof. done. Qed.
Hint Resolve slack_0 slack_2 slack_4 slack_jump safe_flag_endian : cdr.

(** Goes over the next read of the code. *)
Tactic Notation "rd" simple_intropattern(x) simple_intropattern(h) :=
  eapply safe_bind; [solve [eauto 3 with cdr] |]; intros x h; cbn [fst snd] in *.

Definition valid_events (r : bool * list RecvEvent) : Prop := events_ok r.2.

Lemma safe_none s b : safe B L s s (mret (b, [])) valid_events.
Proof. apply safe_ret. apply Forall_nil_2. Qed.

Lemma sn_pos (v : bool) sn : sn_read sn_zero (v, sn) → (sn <=? sn_zero)%sn = false → sn_wf sn ∧ 0 < snz sn.
Proof.
  intros Hr Hle. assert (sn_wf sn) as Hw by (destruct v; cbn in Hr; [done | subst sn; apply sn_ok_wf, sn_ok_zero]).
  rewrite sn_leb_snz, snz_zero in Hle by (done || apply sn_ok_wf, sn_ok_zero). split; [done | lia].
Qed.

Lemma sn_read_wf (v : bool) sn : sn_read sn_zero (v, sn) → sn_wf sn.
Proof. intros Hr. destruct v; cbn in Hr; [done | subst sn; apply sn_ok_wf, sn_ok_zero]. Qed.

Lemma safe_heartbeat smh r : safe B L 0 0 (proc_Submsg_Heartbeat smh r) valid_events.
Proof using HB.
  unfold proc_Submsg_Heartbeat. cbn zeta. rd _ _. rd [? ?] _. rd [? ?] _. rd [v1 first] Hr2. rd [v2 last] Hr3.
  destruct ((first <=? sn_zero)%sn) eqn:E1; [apply safe_none|]. destruct (_ && sn_neb _ _) eqn:E2; [apply safe_none|].
  rd [v c] Hc. destruct (negb _) eqn:Ev; [apply safe_none|]. apply safe_ret. apply negb_false_iff in Ev as ->.
  apply events_ok_readers. intros x. cbn. destruct (sn_pos _ _ Hr2 E1) as [Hw1 Hp1]. pose proof (sn_read_wf _ _ Hr3) as Hw2.
  split_and!; [done | done | done | done |]. rewrite sn_ltb_snz in E2 by done.
  destruct (sn_sub_u32_snz first 1 Hw1) as [Hw3 E3]; [zwidth | zwidth |]. rewrite sn_neb_snz in E2 by done. lia.
Qed.

Lemma safe_gap smh r : safe B L 0 0 (proc_Submsg_Gap smh r) valid_events.
Proof using HB.
  unfold proc_Submsg_Gap. rd _ _. rd [? ?] _. rd [? ?] _. rd [v1 start] Hr2. eapply safe_bind; [by apply safe_readSequenceNumberSet|]. intros set Hset.
  destruct ((_ <=? sn_zero)%sn) eqn:E1; [apply safe_none|]. apply safe_ret.
  apply events_ok_readers. intros x. cbn. destruct (sn_pos _ _ Hr2 E1). done.
Qed.

Lemma offer_ok ask f before ws : (∀ w, event_ok B L (f w)) → events_ok (offer_to_writers ask f before ws).2.
Proof.
  intros Hf. revert before. induction ws as [|w ws IH]; intros before; cbn; [apply Forall_nil_2|].
  destruct (ask before (f w)); cbn; [by repeat constructor|].
  specialize (IH (before ++ [f w])). destruct (offer_to_writers _ _ _ _) as [b es]. by constructor.
Qed.

Lemma safe_acknack env smh before r : safe B L 0 0 (proc_Submsg_Acknack env smh before r) valid_events.
Proof using HB.
  unfold proc_Submsg_Acknack. cbn zeta. rd _ _. rd [? ?] _. rd [? ?] _. eapply safe_bind; [by apply safe_readSequenceNumberSet|]. intros set Hset.
  rd [v c] Hc. destruct (negb _) eqn:Ev; [apply safe_none|]. apply negb_false_iff in Ev as ->. apply safe_ret. by apply offer_ok.
Qed.

Lemma safe_nackfrag env smh before r : safe B L 0 0 (proc_Submsg_NackFrag env smh before r) valid_events.
Proof using HB.
  unfold proc_Submsg_NackFrag. rd _ _. rd [? ?] _. rd [? ?] _. rd [v1 sn] Hsn. eapply safe_bind; [by apply safe_readFragmentNumberSet|]. intros [vf set] _.
  rd [v c] Hc. destruct (negb _) eqn:Ev; [apply safe_none|]. apply negb_false_iff in Ev as ->. apply safe_ret. apply offer_ok.
  intros w. split; [done | by eapply sn_read_wf].
Qed.

Lemma safe_info_ts smh r : recv_ok r → safe B L 0 0 (proc_Submsg_InfoTS smh r) (λ x, recv_ok x.2).
Proof using HB.
  intros Hr. unfold proc_Submsg_InfoTS. rd _ _. destruct (negb _); [|by apply safe_ret].
  eapply safe_bind; [by apply safe_readTimestamp|]. intros [v t] _. by apply safe_ret.
Qed.

Lemma safe_info_dst smh r : recv_ok r → safe B L 0 0 (proc_Submsg_InfoDST smh r) (λ x, recv_ok x.2).
Proof using HB.
  intros Hr. unfold proc_Submsg_InfoDST. rd _ _.
  eapply safe_bind; [apply (safe_readData B L HB 0 12); [done | lia | done]|]. intros [v p] _. apply safe_ret. cbn.
  by destruct (pfx_neb _ _).
Qed.

Lemma octets_length n (o : option (list Z)) d (v : bool) : Z.of_nat (length d) = n →
  (if v then octets n o else o = Some d) → Z.of_nat (length (default [] o)) = n.
Proof. intros Hd Ho. destruct v; [destruct Ho as (bs & -> & Hl & _); done | by rewrite Ho]. Qed.

Lemma safe_info_src smh r : recv_ok r → safe B L 0 4 (proc_Submsg_InfoSRC smh r) (λ x, recv_ok x.2).
Proof using HB.
  intros [Hp Hv]. unfold proc_Submsg_InfoSRC. rd _ _. destruct (_ =? _).
  - eapply safe_bind; [apply (safe_advance B L HB 0 4); done|]. intros _ _. change (0 + 4) with 4. rd [? ?] _. rd [? ?] _.
    eapply safe_bind; [apply (safe_readData B L HB 4 2); [done | lia | lia]|]. intros [v1 o1] H1.
    eapply safe_bind; [apply (safe_readData B L HB 4 12); [done | lia | lia]|]. intros [v2 o2] H2. apply safe_ret. cbn in *.
    apply octets_length in H1; [|lia]. apply octets_length in H2; [|lia]. split; cbn; lia.
  - eapply safe_weaken with (s1 := 0) (R := λ x, recv_ok x.2); [by apply safe_ret | lia | done].
Qed.

Definition valid_data (r : bool * EntityId_t * list RecvEvent) : Prop := events_ok r.2.

Lemma safe_no_data s s' b w : s <= s' → safe B L s s' (mret (b, w, [])) valid_data.
Proof. intros Hs. eapply safe_weaken; [by apply safe_ret with (R := valid_data); apply Forall_nil_2 | done | done]. Qed.

Lemma safe_no_frag s s' b : s <= s' → safe B L s s' (mret (b, [])) valid_events.
Proof. intros Hs. eapply safe_weaken; [apply safe_none | done | done]. Qed.

(** The payload of a DATA submessage. *)
Lemma safe_data_payload (has k : bool) sl o q p0 :
  0 <= sl <= L → in_message B L p0 →
  safe B L 32770 32770
    (if has then
       let no_payload := u32 (RTPSMESSAGE_DATA_EXTRA_INLINEQOS_SIZE + o + q) in
       if sl <? no_payload then mret None else take_payload (u32 (sl - no_payload)) k
     else mret (Some p0)) (λ p, match p with Some p => in_message B L p | None => True end).
Proof using HB HL.
  intros Hsl Hp0. destruct has; [|by apply safe_ret]. cbn zeta. set (n := u32 _).
  pose proof (u32_range (RTPSMESSAGE_DATA_EXTRA_INLINEQOS_SIZE + o + q)) as Hn. fold n in Hn.
  destruct (Z.ltb_spec sl n); [by apply safe_ret|]. change (2 ^ 30) with 1073741824 in *. rewrite u32_small by zwidth.
  apply safe_take_payload_in; [done|]. unfold is_u32 in Hn. lia.
Qed.

Lemma received_in_message w sn v : in_message B L (inline_qos (rc_change (received_change w sn v))).
Proof using HB HL. apply in_message_empty. Qed.

Lemma timestamp_same r ch : 
  let ch' := with_timestamp r ch in
  sequenceNumber (rc_change ch') = sequenceNumber (rc_change ch) ∧
  serializedPayload (rc_change ch') = serializedPayload (rc_change ch) ∧ inline_qos (rc_change ch') = inline_qos (rc_change ch).
Proof. unfold with_timestamp. by destruct (have_timestamp_ r). Qed.

Lemma safe_data smh r : 0 <= submessageLength smh <= L → safe B L 0 32770 (proc_Submsg_Data smh r) valid_data.
Proof using HB HL.
  intros Hsl. unfold proc_Submsg_Data. destruct (_ <? _); [by apply safe_no_data|]. cbn zeta.
  destruct (flag 3 smh && flag 2 smh); [by apply safe_no_data|]. rd _ _.
  eapply safe_bind; [apply (safe_advance B L HB 0 2); done|]. intros _ _. change (0 + 2) with 2.
  rd [v1 o] Ho. rd [v2 rid] _. destruct (negb _); [by apply safe_no_data|]. rd [v3 wid] _. rd [v4 sn] Hsn.
  destruct (negb _) eqn:Ev; [by apply safe_no_data|]. destruct ((sn <=? sn_zero)%sn) eqn:Esn; [by apply safe_no_data|].
  destruct (sn_pos _ _ Hsn Esn) as [Hwf Hpos]. apply negb_false_iff in Ev. rewrite !andb_true_iff in Ev. destruct Ev as [[[-> _] _] _].
  eapply safe_bind; [apply (safe_jump 2 o); [done | done | done | done]|]. intros inside _. change (2 + 32768) with 32770.
  destruct (negb inside); [by apply safe_no_data|]. set (ch := received_change _ _ _).
  eapply safe_bind; [apply (safe_read_inline_qos 32770 _ _ ch); [done | done | apply received_in_message]|].
  intros [[ok q] ch'] Hq. destruct ok; [|by apply safe_no_data]. cbn [negb]. destruct (Hq eq_refl) as (_ & Esq & Esp & Hqos & Hq0).
  assert (in_message B L (serializedPayload (rc_change ch'))) as Hp0 by (rewrite Esp; apply in_message_empty).
  eapply safe_bind; [by apply (safe_data_payload (flag 2 smh || flag 3 smh) (flag 3 smh))|]. intros [p|] Hp; [|by apply safe_no_data].
  apply safe_ret. apply events_ok_readers. intros x. cbn. destruct (timestamp_same r (rc_update (cc_set_payload p) ch')) as (-> & -> & ->).
  cbn. rewrite Esq. done.
Qed.

Lemma safe_fragment_header s : slack_ok s → safe B L s s read_fragment_header (λ _, True).
Proof using HB. intros Hs. unfold read_fragment_header. rd [? ?] _. rd [? ?] _. rd [? ?] _. rd [? ?] _. by apply safe_ret. Qed.

Lemma set_fragment_size_Some fs c :
  ∃ c', setFragmentSize fs false c = Some c' ∧ sequenceNumber c' = sequenceNumber c ∧ inline_qos c' = inline_qos c.
Proof. unfold setFragmentSize. destruct (fs >? 0); eexists; (split; [done|]); done. Qed.

Lemma safe_data_frag smh r : safe B L 0 32770 (proc_Submsg_DataFrag smh r) valid_events.
Proof using HB HL.
  unfold proc_Submsg_DataFrag. destruct (_ <? _); [by apply safe_no_frag|]. cbn zeta. rd _ _.
  eapply safe_bind; [apply (safe_advance B L HB 0 2); done|]. intros _ _. change (0 + 2) with 2.
  rd [v1 o] Ho. rd [v2 rid] _. destruct (negb _); [by apply safe_no_frag|]. rd [v3 wid] _. rd [v4 sn] Hsn.
  destruct ((sn <=? sn_zero)%sn) eqn:Esn; [by apply safe_no_frag|]. destruct (sn_pos _ _ Hsn Esn) as [Hwf Hpos].
  eapply safe_bind; [by apply safe_fragment_header|]. intros [v5 fh] _.
  destruct (negb _) eqn:Ev; [by apply safe_no_frag|]. apply negb_false_iff in Ev. rewrite !andb_true_iff in Ev. destruct Ev as [[[[-> _] _] _] _].
  eapply safe_bind; [apply (safe_jump 2 o); [done | done | done | done]|]. intros inside _. change (2 + 32768) with 32770.
  destruct (negb inside); [by apply safe_no_frag|]. set (ch := received_change _ _ _).
  eapply safe_bind; [apply (safe_read_inline_qos 32770 _ _ ch); [done | done | apply received_in_message]|].
  intros [[ok q] ch'] Hq. destruct ok; [|by apply safe_no_frag]. cbn [negb]. destruct (Hq eq_refl) as (_ & Esq & _ & Hqos & Hq0).
  eapply safe_bind; [apply safe_take_payload; [done | apply u32_range]|]. intros [p|] _; [|by apply safe_no_frag].
  destruct (set_fragment_size_Some (fh_fragment_size fh) (cc_set_payload p (rc_change ch'))) as (c & Ec & E1 & E2).
  rewrite Ec. eapply safe_bind; [by apply (safe_ret B L 32770 c (λ x, x = c))|]. intros ? ->.
  apply safe_ret. apply events_ok_readers. intros x. cbn. destruct (timestamp_same r (rc_update (λ _, c) ch')) as (-> & _ & ->).
  cbn. rewrite E1, E2. cbn. rewrite Esq. done.
Qed.

(** ** The submessages *)

Definition step_ok (x : bool * MessageReceiver * list RecvEvent * bool) : Prop :=
  let '(_, r, es, _) := x in recv_ok r ∧ events_ok es.

Lemma safe_process_submessage env smh ig before r :
  recv_ok r → 0 <= submessageLength smh <= L → safe B L 0 32770 (process_submessage env smh ig before r) step_ok.
Proof using HB HL.
  intros Hr Hsl. unfold process_submessage. cbn zeta. set (to_us := negb _).
  assert (∀ b, safe B L 0 32770 (mret (b, r, [], ig)) step_ok) as Hnone.
  { intros b. eapply safe_weaken; [apply safe_ret with (R := step_ok); split; [done | apply Forall_nil_2] | lia | done]. }
  assert (∀ s c, s <= 32770 → safe B L 0 s c valid_events → safe B L 0 32770
    (if to_us then '(valid, events) ← c; mret (valid, r, events, ig) else mret (true, r, [], ig)) step_ok) as Hdel.
  { intros s c Hs Hc. destruct to_us; [|done]. eapply safe_bind; [eapply safe_weaken; [done | exact Hs | by intros ? H; exact H]|].
    intros [v es] He. by apply safe_ret. }
  assert (∀ s c (f : bool → MessageReceiver → bool), s <= 32770 → safe B L 0 s c (λ x, recv_ok x.2) →
    safe B L 0 32770 ('(valid, r') ← c; mret (valid, r', [], f valid r')) step_ok) as Hinfo.
  { intros s c f Hs Hc. eapply safe_bind; [eapply safe_weaken; [done | exact Hs | by intros ? H; exact H]|].
    intros [v r'] He. apply safe_ret. split; [done | apply Forall_nil_2]. }
  destruct (_ =? DATA).
  { destruct to_us; [|done]. eapply safe_bind; [by apply safe_data|]. intros [[v w] es] He. apply safe_ret. by split. }
  destruct (_ =? DATA_FRAG); [apply (Hdel 32770); [lia | apply safe_data_frag]|].
  destruct (_ =? GAP); [apply (Hdel 0); [lia | apply safe_gap]|].
  destruct (_ =? ACKNACK); [apply (Hdel 0); [lia | apply safe_acknack]|].
  destruct (_ =? NACK_FRAG); [apply (Hdel 0); [lia | apply safe_nackfrag]|].
  destruct (_ =? HEARTBEAT); [apply (Hdel 0); [lia | apply safe_heartbeat]|].
  destruct (_ =? HEARTBEAT_FRAG).
  { apply (Hdel 0); [lia|]. eapply safe_bind; [by apply (safe_ret B L 0 true (λ _, True))|]. intros v _. apply safe_none. }
  destruct (_ =? INFO_DST); [apply (Hinfo 0 _ (λ _ _, ig)); [lia | by apply safe_info_dst]|].
  destruct (_ =? INFO_SRC); [apply (Hinfo 4 _ (λ _ r', is_participant_ignored env before (source_guid_prefix_ r'))); [lia | by apply safe_info_src]|].
  destruct (_ =? INFO_TS); [apply (Hinfo 0 _ (λ _ _, ig)); [lia | by apply safe_info_ts]|]. done.
Qed.

(** The position of the next submessage. *)
Lemma next_position p len : 0 <= p → 0 <= len → p + len <= L →
  let next := u32 (p + Z.land (u32 (len + 3)) (2 ^ 32 - 4)) in p + len <= next <= L + 3.
Proof using HL.
  intros Hp Hlen Hle. change (2 ^ 30) with 1073741824 in *. rewrite (u32_small (len + 3)) by zwidth. rewrite align_down by zwidth.
  pose proof (Z.mod_pos_bound (len + 3) 4 ltac:(lia)). rewrite u32_small by zwidth. lia.
Qed.

(** The loop ends, whatever the message holds. *)
Lemma process_submessages_spec env fuel : ∀ ig es r m,
  recv_ok r → events_ok es → msg_in B L 3 m → L - msg_pos m < Z.of_nat fuel →
  ∃ r' es' fin m', process_submessages env fuel ig es r m = Some ((r', es', fin), m') ∧ msg_block m' = B ∧ events_ok es'.
Proof using HB HL.
  induction fuel as [|fuel IH]; intros ig es r m Hr He Hm Hf; cbn [process_submessages]; rewrite (bind_step _ _ m m m) by done;
    rewrite (in_length _ _ _ _ Hm).
  { destruct (Z.ltb_spec (msg_pos m) L); [lia|]. exists r, es, true, m. split_and!; [done | apply Hm | done]. }
  destruct (Z.ltb_spec (msg_pos m) L); [|exists r, es, true, m; split_and!; [done | apply Hm | done]].
  destruct (header_spec smh_default m Hm ltac:(lia)) as (ok & h & m1 & E1 & Eb1 & El1 & Hok).
  rewrite (bind_step _ _ _ _ _ E1). destruct ok; cbn [negb]; [|exists r, es, false, m1; done].
  destruct (Hok eq_refl) as (Ep1 & Hh0 & Hh1). clear Hok. pose proof (in_pos _ _ _ _ Hm) as Hp.
  assert (msg_in B L 0 m1) as Hm1 by (constructor; [done | done | lia]). rewrite (bind_step _ _ m1 m1 m1) by done.
  pose proof (next_position (msg_pos m1) (submessageLength h) ltac:(lia) Hh0 Hh1) as Hnext. cbn zeta in Hnext. set (next := u32 _) in *.
  assert (safe B L 0 32770 (if ig && negb (submessageId h =? INFO_SRC) then mret (true, r, [], ig)
    else process_submessage env h ig es r) step_ok) as Hstep.
  { destruct (_ && _); [|apply safe_process_submessage; [done | lia]].
    eapply safe_weaken; [apply safe_ret with (R := step_ok); split; [done | apply Forall_nil_2] | lia | done]. }
  destruct (Hstep m1 Hm1) as ([[[v r'] es'] ig'] & m2 & E2 & Hm2 & [Hr' He']). rewrite (bind_step _ _ _ _ _ E2).
  assert (events_ok (es ++ es')) as Hee by (by apply Forall_app).
  destruct (negb v || is_last h); [exists r', (es ++ es'), true, m2; split_and!; [done | apply Hm2 | done]|].
  rewrite (bind_step _ _ m2 () (msg_set_pos next m2)) by done. apply IH; [done | done | | cbn; lia].
  destruct Hm2. constructor; [done | done | cbn; lia].
Qed.

(** ** The header of the message *)

(** [x = msg->buffer[msg->pos]; msg->pos++;] *)
Lemma octet_step m : msg_in B L 0 m → msg_pos m + 1 <= L →
  ∃ o m', msg_in B L 0 m' ∧ msg_pos m' = msg_pos m + 1 ∧ octet_at_pos m = Some (o, m) ∧ advance 1 m = Some ((), m').
Proof using HB.
  intros Hm Hle. destruct (octet_at_pos_spec 0 m Hm Hle) as (o & Eo & _).
  destruct (advance_in B L HB 0 1 m ltac:(done) ltac:(lia) Hm Hle) as [Ea Hm']. eexists o, _. done.
Qed.

Lemma read_data_pos n dest m v o m' :
  msg_in B L 0 m → 0 < n <= 2 ^ 29 → msg_pos m + n <= L → readData (Some dest) n m = Some ((v, o), m') → msg_pos m' = msg_pos m + n.
Proof using HB.
  intros Hm Hn Hle. unfold readData. rewrite (bind_step _ _ m m m) by done. rewrite (has_left_spec B L HB 0 n m) by (done || lia).
  destruct (Z.leb_spec (msg_pos m + n) L); cbn [negb]; [|lia]. destruct (Z.ltb_spec 0 n); [|lia].
  destruct (peek_spec B L HB 0 n m Hm ltac:(lia) ltac:(lia)) as (bs & Ek & _). rewrite (bind_step _ _ _ _ _ Ek).
  destruct (mem_store dest 0 bs) as [d|]; [|done]. rewrite (bind_step (cdr_option (Some d)) _ m d m eq_refl).
  destruct (advance_in B L HB 0 n m ltac:(done) ltac:(lia) Hm ltac:(lia)) as [Ea _]. rewrite (bind_step _ _ _ _ _ Ea).
  intros [= _ _ <-]. cbn. lia.
Qed.

Lemma check_header_spec r m :
  msg_block m = B → msg_length m = L → msg_pos m = 0 → recv_ok r →
  ∃ ok r' m', checkRTPSHeader r m = Some ((ok, r'), m') ∧ msg_in B L 0 m' ∧ recv_ok r' ∧ (ok = true → msg_pos m' = 20).
Proof using HB HL.
  intros Eb El Ep Hr. assert (msg_in B L 0 m) as Hm by (constructor; [done | done | lia]).
  unfold checkRTPSHeader. rewrite (bind_step _ _ m m m) by done. rewrite Eb. destruct HB as (_ & HlenB & _).
  rewrite (mem_load_Some B 0 4) by lia. rewrite (bind_step (cdr_option (Some _)) _ m _ m eq_refl).
  destruct (negb _); [by exists false, r, m|].
  destruct (advance_in B L HB 0 4 m ltac:(done) ltac:(lia) Hm ltac:(lia)) as [E1 Hm1]. rewrite (bind_step _ _ _ _ _ E1).
  assert (msg_pos (msg_set_pos (msg_pos m + 4) m) = 4) as Ep1 by (cbn; lia). set (m1 := msg_set_pos _ m) in *. clearbody m1.
  destruct (octet_step m1 Hm1 ltac:(lia)) as (o1 & m2 & Hm2 & Ep2 & Eo1 & Ea1). rewrite (bind_step _ _ _ _ _ Eo1).
  destruct (negb _); [by exists false, r, m1|]. rewrite (bind_step _ _ _ _ _ Ea1).
  destruct (octet_step m2 Hm2 ltac:(lia)) as (o2 & m3 & Hm3 & Ep3 & Eo2 & Ea2). rewrite (bind_step _ _ _ _ _ Eo2), (bind_step _ _ _ _ _ Ea2).
  destruct (octet_step m3 Hm3 ltac:(lia)) as (o3 & m4 & Hm4 & Ep4 & Eo3 & Ea3). rewrite (bind_step _ _ _ _ _ Eo3), (bind_step _ _ _ _ _ Ea3).
  destruct (octet_step m4 Hm4 ltac:(lia)) as (o4 & m5 & Hm5 & Ep5 & Eo4 & Ea4). rewrite (bind_step _ _ _ _ _ Eo4), (bind_step _ _ _ _ _ Ea4).
  destruct Hr as [Hp Hv].
  destruct (safe_readData B L HB 0 12 (pfx_value (source_guid_prefix_ r)) ltac:(done) ltac:(lia) ltac:(lia) m5 Hm5) as ([v o] & m6 & E6 & Hm6 & Ho).
  pose proof (read_data_pos 12 _ m5 v o m6 Hm5 ltac:(lia) ltac:(lia) E6) as Ep6.
  rewrite (bind_step _ _ _ _ _ E6). eexists true, _, m6. split; [done|]. split; [done|]. cbn [fst snd] in Ho.
  apply octets_length in Ho; [|lia]. split; [split; cbn; lia | lia].
Qed.

(** ** Statistics *)

(** Afterwards the message may be shorter. *)
Lemma statistics_submessage_spec m :
  msg_in B L 0 m → 4 <= msg_pos m → msg_pos m + 56 <= L →
  ∃ d m', read_statistics_submessage m = Some (d, m') ∧ msg_block m' = B ∧ msg_length m' = L - 60.
Proof using HB HL.
  intros Hm Hp4 Hle. unfold read_statistics_submessage.
  assert (safe B L 0 0 ('(_, a) ← read_locator loc_default; '(_, b) ← readInt32 0; '(_, c) ← readUInt32 0;
    '(_, d) ← readUInt64 0; '(_, e) ← readUInt64 0; '(_, f) ← readUInt16 0; mret (a, b, c, d, e, f)) (λ _, True)) as H.
  { eapply safe_bind; [by apply safe_read_locator|]. intros [? ?] _. rd [? ?] _. rd [? ?] _. rd [? ?] _. rd [? ?] _. rd [? ?] _. by apply safe_ret. }
  destruct (H m Hm) as ([[[[[a b] c] d] e] f] & m' & E & Hm' & _).
  unfold mbind, CDR_bind in E |- *.
  destruct (read_locator loc_default m) as [[[? ?] m1]|]; [|done]. destruct (readInt32 0 m1) as [[[? ?] m2]|]; [|done].
  destruct (readUInt32 0 m2) as [[[? ?] m3]|]; [|done]. destruct (readUInt64 0 m3) as [[[? ?] m4]|]; [|done].
  destruct (readUInt64 0 m4) as [[[? ?] m5]|]; [|done]. destruct (readUInt16 0 m5) as [[[? ?] m6]|]; [|done].
  injection E as _ _ _ _ _ _ ->. eexists _, _. split; [done|]. split; [apply Hm'|]. cbn [msg_length].
  rewrite (in_length _ _ _ _ Hm'). unfold statistics_submessage_length, RTPSMESSAGE_SUBMESSAGEHEADER_SIZE, statistics_submessage_data_length.
  change (2 ^ 30) with 1073741824 in *. rewrite u32_small by zwidth. lia.
Qed.

Lemma statistics_loop_spec sl rl r fuel : ∀ m,
  msg_in B L 3 m → 20 <= msg_pos m → L - msg_pos m < Z.of_nat fuel →
  ∃ es m', statistics_loop fuel sl rl L r m = Some (es, m') ∧ msg_block m' = B ∧ (msg_length m' = L ∨ msg_length m' = L - 60 ∧ 80 <= L) ∧
    Forall (λ e, ∃ a b c d f, e = NetworkStatistics a b c d f) es.
Proof using HB HL.
  induction fuel as [|fuel IH]; intros m Hm H20 Hf; cbn [statistics_loop]; rewrite (bind_step _ _ m m m) by done.
  { destruct (Z.ltb_spec (msg_pos m) L); [lia|]. exists [], m. split_and!; [done | apply Hm | left; apply Hm | apply Forall_nil_2]. }
  destruct (Z.ltb_spec (msg_pos m) L); [|exists [], m; split_and!; [done | apply Hm | left; apply Hm | apply Forall_nil_2]].
  destruct (header_spec smh_default m Hm ltac:(lia)) as (ok & h & m1 & E1 & Eb1 & El1 & Hok). pose proof (in_pos _ _ _ _ Hm) as Hp.
  rewrite (bind_step _ _ _ _ _ E1). destruct ok; cbn [negb]; [|exists [], m1; split_and!; [done | done | by left | apply Forall_nil_2]].
  destruct (Hok eq_refl) as (Ep1 & Hh0 & Hh1). clear Hok.
  assert (msg_in B L 0 m1) as Hm1 by (constructor; [done | done | lia]). destruct (_ =? FASTDDS_STATISTICS_NETWORK_SUBMESSAGE).
  - rewrite (bind_step _ _ m1 m1 m1) by done. change (2 ^ 30) with 1073741824 in *. rewrite u32_small by zwidth.
    destruct (_ || _) eqn:Eg; [exists [], m1; split_and!; [done | done | by left | apply Forall_nil_2]|].
    apply orb_false_iff in Eg as [Eg1 Eg2]. apply negb_false_iff, Z.eqb_eq in Eg1. unfold statistics_submessage_data_length in Eg1.
    destruct (statistics_submessage_spec m1 Hm1 ltac:(lia) ltac:(lia)) as (d & m2 & E2 & Eb2 & El2).
    rewrite (bind_step _ _ _ _ _ E2). eexists _, m2. split; [done|]. split; [done|]. split; [right; lia|].
    apply Forall_singleton. by eexists _, _, _, _, _.
  - destruct (is_last h); [exists [], m1; split_and!; [done | done | by left | apply Forall_nil_2]|].
    pose proof (next_position (msg_pos m1) (submessageLength h) ltac:(lia) Hh0 Hh1) as Hnext. cbn zeta in Hnext.
    rewrite (bind_step _ _ m1 () (msg_set_pos (u32 (msg_pos m1 + Z.land (u32 (submessageLength h + 3)) (2 ^ 32 - 4))) m1)) by done.
    apply IH; [constructor; [done | done | cbn; lia] | cbn; lia | cbn; lia].
Qed.
End Facts.
