(* ===== verification/MessageReceiverTheorems.v ===== *)
(** * Correctness of the message receiver

    Every message is processed within its bounds and in a bounded number of steps,
    and what the endpoints get of it is well formed; the exception is the payload
    of DATA_FRAG submessages. *)

From Stdlib Require Import ZArith Lia ZifyBool.
From stdpp Require Import base numbers list option list_numbers.
From S2P Require Import Prelude SequenceNumber BitmapRange BitmapFacts Bytes Guid Time CacheChange.
From S2P Require Import CDRMessage CDRFacts ParameterList MessageReceiver MessageReceiverFacts.

Open Scope Z_scope.

(** A message as the transport delivers it: [length] octets of a buffer. *)
Record received (m : CDRMessage_t) : Prop := {
  rv_length : 0 <= msg_length m <= 2 ^ 30;
  rv_buffer : msg_length m <= Z.of_nat (length (msg_block m));
  rv_octets : Forall is_u8 (msg_block m)
}.

Lemma received_block m L' : received m → 0 <= L' <= msg_length m → block_ok (msg_block m) L'.
Proof. intros [] HL. split; [|split; [lia | done]]. change (2 ^ 30) with 1073741824 in *. change (2 ^ 31) with 2147483648. lia. Qed.

(** The statistics submessage may shorten the message. *)
Lemma notify_spec sl rl r m :
  received m → 20 <= msg_length m → msg_pos m = 20 →
  ∃ es m', notify_network_statistics sl rl r m = Some (es, m') ∧ msg_block m' = msg_block m ∧ msg_pos m' = 20 ∧
    20 <= msg_length m' <= msg_length m ∧ Forall (λ e, ∃ a b c d f, e = NetworkStatistics a b c d f) es.
Proof.
  intros Hm HL Hp. pose proof (received_block m (msg_length m) Hm ltac:(lia)) as HB. pose proof (rv_length m Hm) as Hlen.
  unfold notify_network_statistics. destruct (_ || _).
  { exists [], m. split_and!; [done | done | done | lia | lia | apply Forall_nil_2]. }
  rewrite (bind_step _ _ m m m) by done.
  destruct (statistics_loop_spec (msg_block m) (msg_length m) HB ltac:(lia) sl rl r (S (Z.to_nat (msg_length m))) m)
    as (es & m' & E & Eb & El & He); [constructor; [done | done | lia] | lia | lia |].
  rewrite (bind_step _ _ _ _ _ E). eexists es, _. split; [done|]. cbn. split_and!; [done | done | lia | lia | done].
Qed.

Lemma process_spec env sl rl r m :
  received m →
  ∃ r' es m', processCDRMsg env sl rl r m = Some ((r', es), m') ∧ msg_block m' = msg_block m ∧
    Forall (event_ok (msg_block m) (msg_length m)) es.
Proof.
  intros Hm. pose proof (received_block m (msg_length m) Hm ltac:(pose proof (rv_length m Hm); lia)) as HB. pose proof (rv_length m Hm) as Hlen.
  unfold processCDRMsg. rewrite (bind_step _ _ m m m) by done. unfold RTPSMESSAGE_HEADER_SIZE.
  destruct (Z.ltb_spec (msg_length m) 20); [exists r, [], m; split_and!; [done | done | apply Forall_nil_2]|].
  cbn zeta. rewrite (bind_step _ _ m () (msg_set_pos 0 m)) by done. set (r0 := mr_set_dest _ (mr_reset r)).
  destruct (check_header_spec (msg_block m) (msg_length m) HB ltac:(lia) r0 (msg_set_pos 0 m)) as (ok & r1 & m1 & E1 & Hm1 & Hr1 & Hok); [done.. |].
  rewrite (bind_step _ _ _ _ _ E1). destruct ok; cbn [negb]; [|exists r1, [], m1; split_and!; [done | apply Hm1 | apply Forall_nil_2]].
  specialize (Hok eq_refl). destruct Hm1 as [Eb1 El1 _].
  assert (received m1) as Hrv1 by (constructor; rewrite ?Eb1, ?El1; apply Hm).
  set (ig := is_participant_ignored env [] _).
  assert (∃ es m2, (if negb ig then notify_network_statistics sl rl r1 else mret []) m1 = Some (es, m2) ∧ msg_block m2 = msg_block m1 ∧
    msg_pos m2 = 20 ∧ 20 <= msg_length m2 <= msg_length m1 ∧ Forall (λ e, ∃ a b c d f, e = NetworkStatistics a b c d f) es)
    as (es0 & m2 & E2 & Eb2 & Ep2 & El2 & He0).
  { destruct (negb ig); [apply notify_spec; [done | lia | done]|].
    exists [], m1. split_and!; [done | done | done | lia | lia | apply Forall_nil_2]. }
  rewrite (bind_step _ _ _ _ _ E2). rewrite (bind_step _ _ m2 m2 m2) by done. rewrite El1 in El2. rewrite Eb1 in Eb2.
  pose proof (received_block m (msg_length m2) Hm ltac:(lia)) as HB2.
  destruct (process_submessages_spec (msg_block m) (msg_length m2) HB2 ltac:(lia) env (S (Z.to_nat (msg_length m2))) ig es0 r1 m2)
    as (r' & es & fin & m3 & E3 & Eb3 & He3); [done | | constructor; [done | done | lia] | lia |].
  { eapply Forall_impl; [exact He0|]. intros e (? & ? & ? & ? & ? & ->). done. }
  rewrite (bind_step _ _ _ _ _ E3). eexists r', _, m3. split; [done|]. split; [done|].
  assert (Forall (event_ok (msg_block m) (msg_length m)) es) as Hes.
  { eapply Forall_impl; [exact He3|]. intros e. apply event_ok_mono. lia. }
  destruct fin; [|done]. apply Forall_app. split; [done|]. by apply Forall_singleton.
Qed.

(** C13. The receiver itself is safe on any message: whatever its octets are and whatever the participant and
    its endpoints answer, [processCDRMsg] (the headers, the submessages and their parameter lists) ends,
    never reads outside of the octets received, and does not change them. What a reader then does with
    the payload it is handed is not part of it; for DATA_FRAG see [data_frag_payload_unchecked]. *)
Theorem any_message_is_processed env sl rl r m :
  received m → ∃ r' es m', processCDRMsg env sl rl r m = Some ((r', es), m') ∧ msg_block m' = msg_block m.
Proof. intros Hm. destruct (process_spec env sl rl r m Hm) as (r' & es & m' & E & Eb & _). by exists r', es, m'. Qed.

(** A participant with the prefix 2, 2, ..., two readers and a writer, and the header of a message of
    the participant 1, 2, ..., 12. *)
Definition test_env : Environment := {|
  participant_prefix := GuidPrefix (replicate 12 2);
  is_participant_ignored := λ _ _, false;
  process_acknack := λ _ _, Some true;
  process_nack_frag := λ _ _, None
|}.

Definition test_receiver : MessageReceiver :=
  associate_writer 30 (associate_reader (EntityId [0; 0; 1; 7]) 20 (associate_reader (EntityId [0; 0; 1; 4]) 10 mr_make)).

Definition test_header : list Z := rtps_magic ++ [2; 2; 1; 15] ++ seqZ 1 12.

Definition test_message (octets : list Z) : CDRMessage_t :=
  {| msg_buffer := Some (test_header ++ octets); msg_pos := 0; msg_max_size := Z.of_nat (length (test_header ++ octets));
     msg_reserved_size := Z.of_nat (length (test_header ++ octets)); msg_length := Z.of_nat (length (test_header ++ octets));
     msg_endian := LITTLEEND; msg_wraps := true |}.

Lemma test_message_received octets : bool_decide (Forall is_u8 octets ∧ (length octets <= 1000)%nat) = true → received (test_message octets).
Proof.
  intros [Hu Hl]%bool_decide_eq_true.
  constructor; unfold msg_block; cbn [msg_length msg_buffer test_message default].
  - rewrite length_app. change (length test_header) with 20%nat. change (2 ^ 30) with 1073741824. lia.
  - done.
  - apply Forall_app. split; [by apply (bool_decide_unpack _) | done].
Qed.

(** DATA with number 5 for all the readers, four octets of payload. *)
Definition test_data : list Z :=
  [0x15; 5; 24; 0] ++ [0; 0; 16; 0] ++ [0; 0; 0; 0] ++ [0; 0; 1; 2] ++ [0; 0; 0; 0] ++ [5; 0; 0; 0] ++ [11; 12; 13; 14].

Lemma any_message_is_processed_witness :
  ∃ r' es m', processCDRMsg test_env loc_default loc_default test_receiver (test_message test_data) = Some ((r', es), m') ∧
    msg_block m' = test_header ++ test_data.
Proof. apply (any_message_is_processed test_env loc_default loc_default test_receiver (test_message test_data)). by apply test_message_received. Defined.

(** C27. What the endpoints get, whatever the message: the sequence number of a DATA or DATA_FRAG is positive
    and its inline QoS lies in the octets received, and so does the payload of a DATA; the numbers of a
    heartbeat start above zero and end at most one below their start; the start of a gap is positive; the
    set of a GAP or ACKNACK is the unknown set, or has a base that is not negative and is well formed when
    the base is below 2^63 - 256; the number of a NACK_FRAG has the width of its two words; counts have 32
    bits. Nothing is said of identifiers, of the set of a NACK_FRAG and of the payload of a DATA_FRAG. *)
Theorem handed_over_is_well_formed env sl rl r m r' es m' :
  received m → processCDRMsg env sl rl r m = Some ((r', es), m') → Forall (event_ok (msg_block m) (msg_length m)) es.
Proof. intros Hm E. destruct (process_spec env sl rl r m Hm) as (r2 & es2 & m2 & E2 & _ & He). rewrite E in E2. by injection E2 as _ -> _. Qed.

Lemma handed_over_is_well_formed_witness :
  ∃ ch, processCDRMsg test_env loc_default loc_default test_receiver (test_message test_data) =
    Some ((mr_set_source (2, 2) [1; 15] (GuidPrefix (seqZ 1 12)) (mr_set_dest (participant_prefix test_env) test_receiver),
           [ProcessData 10 ch; ProcessData 20 ch; AssertLiveliness (GuidPrefix (seqZ 1 12))]),
          msg_set_pos 48 (test_message test_data)) ∧
    sequenceNumber (rc_change ch) = SeqNum 0 5 ∧ pl_data (serializedPayload (rc_change ch)) = [11; 12; 13; 14] ∧
    event_ok (msg_block (test_message test_data)) (msg_length (test_message test_data)) (ProcessData 10 ch).
Proof.
  eexists. split; [by vm_compute|]. split; [done|]. split; [done|].
  refine (proj1 (proj1 (Forall_cons_iff _ _ _) (handed_over_is_well_formed test_env loc_default loc_default test_receiver
    (test_message test_data) _ _ _ _ _))); [by apply test_message_received | by vm_compute].
Defined.

(** ** DATA_FRAG *)

(** A DATA_FRAG that declares 24 octets, less than the 32 octets of its own fields. *)
Definition test_data_frag : list Z :=
  [0x16; 1; 24; 0] ++ [0; 0; 28; 0] ++ [0; 0; 0; 0] ++ [0; 0; 1; 2] ++ [0; 0; 0; 0] ++ [5; 0; 0; 0] ++
  [1; 0; 0; 0] ++ [1; 0] ++ [100; 0] ++ [232; 3; 0; 0].

(** The change of 1000 octets a reader reassembles, in fragments of 100 octets. *)
Definition test_reassembled : option CacheChange_t :=
  setFragmentSize 100 true (cc_set_payload (Payload 0 1000 (replicate 1000 0) false)
    (rc_change (received_change (Guid (GuidPrefix (seqZ 1 12)) (EntityId [0; 0; 1; 2])) (SeqNum 0 5) [1; 15]))).

(** An instance of what [proc_Submsg_DataFrag] does not check: a submessage of 24 octets, in a
    message of 56 octets, is accepted with a payload of 4294967288 octets that starts at the end of
    the message, and adding it to the change under reassembly copies from outside of the message. *)
Theorem data_frag_payload_outside_message :
  ∃ r' ch m', processCDRMsg test_env loc_default loc_default test_receiver (test_message test_data_frag) =
    Some ((r', [ProcessDataFrag 10 ch 1000 1 1; ProcessDataFrag 20 ch 1000 1 1]), m') ∧
    msg_length (test_message test_data_frag) = 56 ∧
    pl_length (serializedPayload (rc_change ch)) = 4294967288 ∧ pl_data (serializedPayload (rc_change ch)) = [] ∧
    is_Some test_reassembled ∧ (c ← test_reassembled; add_fragments (serializedPayload (rc_change ch)) 1 1 c) = None.
Proof.
  eexists _, _, _. split; [by vm_compute|]. split; [done|]. split; [done|]. split; [done|].
  split; [apply (bool_decide_unpack _); by vm_compute | by vm_compute].
Qed.
