(* ===== verification/MessageCreator.v ===== *)
(** * RTPSMessageCreator (src/cpp/rtps/messages/RTPSMessageCreator.cpp, submessages/*.hpp)

    Serialization of the RTPS header and of the submessages without payload. As in
    the code, the results of the functions of [CDRMessage] are ignored: the callers
    make sure that the message has room. *)

From Stdlib Require Import ZArith Lia ZifyBool.
From stdpp Require Import base numbers list option list_numbers.
From S2P Require Import Prelude SequenceNumber BitmapRange Bytes Guid Time CDRMessage ParameterList MessageReceiver.

Open Scope Z_scope.

(** [msg->length = msg->pos] *)
Definition set_length_to_pos : CDR () := modify_msg (λ m,
  {| msg_buffer := msg_buffer m; msg_pos := msg_pos m; msg_max_size := msg_max_size m;
     msg_reserved_size := msg_reserved_size m; msg_length := msg_pos m; msg_endian := msg_endian m;
     msg_wraps := msg_wraps m |}).

Definition addHeader_version (guidPrefix : GuidPrefix_t) (version : Z * Z) (vendorId : list Z) : CDR bool :=
  addOctet 0x52;; addOctet 0x54;; addOctet 0x50;; addOctet 0x53;;
  addOctet (fst version);; addOctet (snd version);;
  addOctet (nth 0 vendorId 0);; addOctet (nth 1 vendorId 0);;
  addData (Some (pfx_value guidPrefix)) 12;;
  set_length_to_pos;; mret true.

Definition addHeader (guidPrefix : GuidPrefix_t) : CDR bool :=
  addHeader_version guidPrefix c_ProtocolVersion c_VendorId_eProsima.

Definition addSubmessageHeader (id flags size : Z) : CDR bool :=
  modify_msg (msg_set_endian LITTLEEND);;
  addOctet id;; addOctet (Z.lor flags 1);; addUInt16 size;;
  set_length_to_pos;; mret true.

Definition addSubmessageInfoTS (time : Time_t) (invalidateFlag : bool) : CDR bool :=
  modify_msg (msg_set_endian LITTLEEND);;
  addOctet INFO_TS;; addOctet (if invalidateFlag then 3 else 1);; addUInt16 (if invalidateFlag then 0 else 8);;
  if negb invalidateFlag then addInt32 (seconds_ time);; addUInt32 (fraction_ time);; mret true else mret true.

Definition addSubmessageInfoSRC (version : Z * Z) (vendorId : list Z) (guidPrefix : GuidPrefix_t) : CDR bool :=
  modify_msg (msg_set_endian LITTLEEND);;
  addOctet INFO_SRC;; addOctet 1;; addUInt16 20;; addUInt32 0;;
  addOctet (fst version);; addOctet (snd version);;
  addOctet (nth 0 vendorId 0);; addOctet (nth 1 vendorId 0);;
  addData (Some (pfx_value guidPrefix)) 12;; mret true.

Definition addSubmessageInfoDST (guidP : GuidPrefix_t) : CDR bool :=
  modify_msg (msg_set_endian LITTLEEND);;
  addOctet INFO_DST;; addOctet 1;; addUInt16 12;;
  addData (Some (pfx_value guidP)) 12;; mret true.

(** The octets of the size of the submessage, at the position reserved for them. *)
Definition patch_size (size_pos size : Z) : CDR () := λ m,
  b ← mem_store (msg_block m) size_pos
        (if decide (msg_endian m = DEFAULT_ENDIAN) then le_split 2 size else rev (le_split 2 size));
  Some ((), {| msg_buffer := match msg_buffer m with Some _ => Some b | None => None end; msg_pos := msg_pos m;
               msg_max_size := msg_max_size m; msg_reserved_size := msg_reserved_size m;
               msg_length := msg_length m; msg_endian := msg_endian m; msg_wraps := msg_wraps m |}).

(** A submessage whose size is known after its contents have been added. *)
Definition sized_submessage (id flags : Z) (body : CDR ()) : CDR bool :=
  m ← get_msg;
  let old_endianess := msg_endian m in
  modify_msg (msg_set_endian LITTLEEND);;
  addOctet id;; addOctet flags;;
  m1 ← get_msg;
  let submessage_size_pos := msg_pos m1 in
  addUInt16 0;;
  m2 ← get_msg;
  let position_size_count_size := msg_pos m2 in
  body;;
  m3 ← get_msg;
  patch_size submessage_size_pos (u16 (u32 (msg_pos m3 - position_size_count_size)));;
  modify_msg (msg_set_endian old_endianess);; mret true.

Definition addSubmessageHeartbeat (readerId writerId : EntityId_t) (firstSN lastSN : SequenceNumber_t) (count : Z)
    (isFinal livelinessFlag : bool) : CDR bool :=
  sized_submessage HEARTBEAT (Z.lor (Z.lor 1 (if isFinal then 2 else 0)) (if livelinessFlag then 4 else 0))
    (addEntityId readerId;; addEntityId writerId;; addSequenceNumber firstSN;; addSequenceNumber lastSN;;
     addInt32 (i32 count);; mret ()).

Definition addSubmessageHeartbeatFrag (readerId writerId : EntityId_t) (firstSN : SequenceNumber_t)
    (lastFN : FragmentNumber_t) (count : Z) : CDR bool :=
  sized_submessage HEARTBEAT_FRAG 1
    (addEntityId readerId;; addEntityId writerId;; addSequenceNumber firstSN;; addUInt32 lastFN;;
     addInt32 (i32 count);; mret ()).

Definition addSubmessageAcknack (readerId writerId : EntityId_t) (SNSet : SequenceNumberSet_t) (count : Z)
    (finalFlag : bool) : CDR bool :=
  sized_submessage ACKNACK (Z.lor 1 (if finalFlag then 2 else 0))
    (addEntityId readerId;; addEntityId writerId;; addSequenceNumberSet SNSet;; addInt32 count;; mret ()).

Definition addSubmessageNackFrag (readerId writerId : EntityId_t) (writerSN : SequenceNumber_t)
    (fnState : FragmentNumberSet_t) (count : Z) : CDR bool :=
  sized_submessage NACK_FRAG 1
    (addEntityId readerId;; addEntityId writerId;; addSequenceNumber writerSN;; addFragmentNumberSet fnState;;
     addUInt32 (u32 count);; mret ()).

Definition addSubmessageGap (seqNumFirst : SequenceNumber_t) (seqNumList : SequenceNumberSet_t)
    (readerId writerId : EntityId_t) : CDR bool :=
  sized_submessage GAP 1
    (addEntityId readerId;; addEntityId writerId;; addSequenceNumber seqNumFirst;; addSequenceNumberSet seqNumList;; mret ()).

Definition addMessageHeartbeat (guidprefix remoteGuidprefix : GuidPrefix_t) (readerId writerId : EntityId_t)
    (firstSN lastSN : SequenceNumber_t) (count : Z) (isFinal livelinessFlag : bool) : CDR bool :=
  addHeader guidprefix;; addSubmessageInfoDST remoteGuidprefix;;
  addSubmessageHeartbeat readerId writerId firstSN lastSN count isFinal livelinessFlag;;
  set_length_to_pos;; mret true.

Definition addMessageAcknack (guidprefix remoteGuidPrefix : GuidPrefix_t) (readerId writerId : EntityId_t)
    (SNSet : SequenceNumberSet_t) (count : Z) (finalFlag : bool) : CDR bool :=
  addHeader guidprefix;; addSubmessageInfoDST remoteGuidPrefix;;
  addSubmessageAcknack readerId writerId SNSet count finalFlag;;
  set_length_to_pos;; mret true.

Definition addMessageNackFrag (guidprefix remoteGuidPrefix : GuidPrefix_t) (readerId writerId : EntityId_t)
    (writerSN : SequenceNumber_t) (fnState : FragmentNumberSet_t) (count : Z) : CDR bool :=
  addHeader guidprefix;; addSubmessageInfoDST remoteGuidPrefix;;
  addSubmessageNackFrag readerId writerId writerSN fnState count;;
  set_length_to_pos;; mret true.

(** [now] is the time the clock gives. *)
Definition addMessageGap (now : Time_t) (guidprefix remoteGuidPrefix : GuidPrefix_t) (seqNumFirst : SequenceNumber_t)
    (seqNumList : SequenceNumberSet_t) (readerId writerId : EntityId_t) : CDR bool :=
  addHeader guidprefix;; addSubmessageInfoDST remoteGuidPrefix;; addSubmessageInfoTS now false;;
  addSubmessageGap seqNumFirst seqNumList readerId writerId;; mret true.
