(* ===== verification/MessageWriting.v ===== *)
(** * What the message creator writes

    [appends f bs]: on a message with room for them, [f] appends the octets [bs].
    The octets of a submessage are those of its header with the size of its body,
    followed by the body. *)

From Stdlib Require Import ZArith Lia ZifyBool.
From stdpp Require Import base numbers list option list_numbers.
From S2P Require Import Prelude SequenceNumber BitmapRange BitmapFacts Bytes Guid Time CDRMessage CDRFacts ParameterList.
From S2P Require Import MessageReceiver MessageReceiverFacts MessageCreator.

Open Scope Z_scope.

(** A message under construction. *)
Record writing (m : CDRMessage_t) : Prop := {
  wr_buffer : ∃ b, msg_buffer m = Some b ∧ msg_max_size m <= Z.of_nat (length b);
  wr_pos : 0 <= msg_pos m;
  wr_max : msg_max_size m < 2 ^ 32;
  wr_length : msg_length m = msg_pos m;
  wr_endian : msg_endian m = LITTLEEND
}.

(** The message with octets appended. *)
Definition put (bs : list Z) (m : CDRMessage_t) : CDRMessage_t :=
  {| msg_buffer := (λ b, take (Z.to_nat (msg_pos m)) b ++ bs ++ drop (Z.to_nat (msg_pos m) + length bs) b) <$> msg_buffer m;
     msg_pos := msg_pos m + Z.of_nat (length bs); msg_max_size := msg_max_size m;
     msg_reserved_size := msg_reserved_size m; msg_length := msg_length m + Z.of_nat (length bs);
     msg_endian := msg_endian m; msg_wraps := msg_wraps m |}.

Definition room (n : Z) (m : CDRMessage_t) : Prop := msg_pos m + n <= msg_max_size m.

Lemma put_writing bs m : writing m → room (Z.of_nat (length bs)) m → writing (put bs m).
Proof.
  intros [(b & Eb & Hb) Hp Hmax Hl He] Hroom. unfold room in Hroom. constructor; cbn; [|lia | done | lia | done].
  rewrite Eb. cbn. eexists. split; [done|]. rewrite !length_app, length_take, length_drop. lia.
Qed.

Lemma put_nil m : writing m → put [] m = m.
Proof.
  intros [(b & Eb & Hb) Hp Hmax Hl He]. destruct m as [mb mp mm mr ml me mw]. cbn in *. subst mb. unfold put. cbn.
  rewrite Nat.add_0_r, take_drop, !Z.add_0_r. done.
Qed.

Lemma put_put bs1 bs2 m : writing m → room (Z.of_nat (length (bs1 ++ bs2))) m → put bs2 (put bs1 m) = put (bs1 ++ bs2) m.
Proof.
  intros [(b & Eb & Hb) Hp Hmax Hl He] Hroom. unfold room in Hroom. rewrite length_app in Hroom.
  unfold put. cbn. rewrite Eb. cbn. rewrite length_app. f_equal; [|lia..]. f_equal.
  replace (Z.to_nat (msg_pos m + Z.of_nat (length bs1))) with (Z.to_nat (msg_pos m) + length bs1)%nat by lia.
  set (p := Z.to_nat (msg_pos m)). assert (length (take p b) = p) as Hlp by (rewrite length_take; lia).
  rewrite (app_assoc _ bs1). rewrite take_app_length' by (rewrite length_app; lia).
  rewrite <- !app_assoc. do 3 f_equal. rewrite (app_assoc (take p b)), drop_app_ge by (rewrite length_app; lia).
  rewrite length_app, Hlp, drop_drop. f_equal. lia.
Qed.

Definition appends {A} (f : CDR A) (bs : list Z) : Prop :=
  ∀ m, writing m → room (Z.of_nat (length bs)) m → ∃ a, f m = Some (a, put bs m).

Lemma appends_bind {A C} (f : CDR A) (g : A → CDR C) bs1 bs2 :
  appends f bs1 → (∀ a, appends (g a) bs2) → appends (f ≫= g) (bs1 ++ bs2).
Proof.
  intros Hf Hg m Hm Hroom. unfold room in *. pose proof Hroom as Hroom'. rewrite length_app in Hroom.
  destruct (Hf m Hm) as [a Ea]; [unfold room; lia|]. rewrite (bind_step _ _ _ _ _ Ea).
  destruct (Hg a (put bs1 m)) as [c Ec]; [apply put_writing; [done | unfold room; lia] | unfold room; cbn; lia |].
  exists c. rewrite Ec. by rewrite put_put.
Qed.

Lemma appends_ret {A} (a : A) : appends (mret a) [].
Proof. intros m Hm _. exists a. by rewrite put_nil. Qed.

(** The last step of a sequence appends nothing. *)
Lemma appends_then_ret {A C} (f : CDR A) (g : A → CDR C) bs : appends f bs → (∀ a, appends (g a) []) → appends (f ≫= g) bs.
Proof. intros Hf Hg. rewrite <- (app_nil_r bs). by apply appends_bind. Qed.

(** *** Primitives *)

Lemma has_space n m : writing m → 0 <= n → room n m → hasSpace n m = true.
Proof. intros [_ Hp Hmax _ _] Hn Hroom. unfold room in Hroom. unfold hasSpace. rewrite u32_small by zwidth. lia. Qed.

Lemma poke_grow bs m : writing m → room (Z.of_nat (length bs)) m →
  (poke bs;; grow (Z.of_nat (length bs))) m = Some ((), put bs m).
Proof.
  intros [(b & Eb & Hb) Hp Hmax Hl He] Hroom. unfold room in Hroom. unfold mbind, CDR_bind, poke, msg_block. rewrite Eb. cbn [from_option id].
  rewrite mem_store_Some by lia. unfold put, grow, modify_msg. rewrite Eb. cbn -[u32]. rewrite !u32_small by zwidth. done.
Qed.

Lemma appends_copy bs : appends (copyToBuffer bs false) bs.
Proof. intros m Hm Hroom. exists (). by apply poke_grow. Qed.

Lemma appends_primitive n v : appends (addPrimitive n v) (le_split n v).
Proof.
  intros m Hm Hroom. rewrite le_split_length in Hroom. exists true. unfold addPrimitive. rewrite (bind_step _ _ m m m) by done.
  rewrite has_space by (done || lia). cbn [negb]. rewrite bool_decide_eq_false_2 by (rewrite (wr_endian m Hm); by intros []).
  destruct (appends_copy (le_split n v) m Hm) as [[] E]; [by rewrite le_split_length|]. by rewrite (bind_step _ _ _ _ _ E).
Qed.

Lemma appends_data bs : Z.of_nat (length bs) < 2 ^ 32 → appends (addData (Some bs) (Z.of_nat (length bs))) bs.
Proof.
  intros Hlen m Hm Hroom. exists true. unfold addData. rewrite (bind_step _ _ m m m) by done. rewrite has_space by (done || lia).
  rewrite bool_decide_eq_false_2 by done. rewrite andb_false_r. cbn [negb orb from_option id].
  rewrite mem_load_Some by lia. change (Z.to_nat 0) with 0%nat. rewrite drop_0, Nat2Z.id, take_ge by lia. rewrite (bind_step (cdr_option (Some bs)) _ m bs m eq_refl).
  destruct (appends_copy bs m Hm Hroom) as [[] E]. by rewrite (bind_step _ _ _ _ _ E).
Qed.

Lemma appends_octet v : is_u8 v → appends (addOctet v) [v].
Proof. intros Hv. pose proof (appends_primitive 1 v) as H. cbn in H. rewrite Z.mod_small in H by zwidth. exact H. Qed.

Lemma appends_entity id : ent_ok id → appends (addEntityId id) (ent_value id).
Proof.
  intros [Hlen _] m Hm Hroom. exists true. unfold addEntityId. rewrite (bind_step _ _ m m m) by done. rewrite Hlen in Hroom.
  unfold room in Hroom. pose proof (wr_pos m Hm). pose proof (wr_max m Hm). rewrite u32_small by zwidth.
  destruct (Z.gtb_spec (msg_pos m + 4) (msg_max_size m)); [lia|].
  pose proof (poke_grow (ent_value id) m Hm ltac:(unfold room; rewrite Hlen; lia)) as E. rewrite Hlen in E. change (Z.of_nat 4) with 4 in E.
  unfold mbind, CDR_bind in *. destruct (poke (ent_value id) m) as [[? m1]|]; [|done]. by rewrite E.
Qed.

Definition enc_sn (sn : SequenceNumber_t) : list Z := le_split 4 (high sn) ++ le_split 4 (low sn).

Lemma appends_sn sn : appends (addSequenceNumber sn) (enc_sn sn).
Proof.
  unfold addSequenceNumber, enc_sn. apply appends_bind; [apply appends_primitive|]. intros _.
  apply appends_then_ret; [apply appends_primitive|]. intros _. apply appends_ret.
Qed.

Definition enc_words (ws : list Z) : list Z := concat (le_split 4 <$> ws).

Lemma appends_words ws : appends (add_words ws) (enc_words ws).
Proof.
  unfold enc_words. induction ws as [|w ws IH]; cbn [add_words fmap list_fmap concat]; [apply appends_ret|].
  apply appends_bind; [apply appends_primitive|]. intros _. apply IH.
Qed.

Definition enc_set (b : SequenceNumberSet_t) : list Z :=
  enc_sn (base_ b) ++ le_split 4 (num_bits_ b) ++ enc_words (take (Z.to_nat ((num_bits_ b + 31) / 32)) (bitmap_ b)).

Lemma appends_set b : appends (addSequenceNumberSet b) (enc_set b).
Proof.
  unfold addSequenceNumberSet, enc_set. apply appends_bind; [apply appends_sn|]. intros _.
  unfold bm_empty. destruct (Z.eqb_spec (num_bits_ b) 0) as [E|Hne].
  - rewrite E. cbn [Z.to_nat]. change ((0 + 31) / 32) with 0. cbn [take Z.to_nat]. rewrite app_nil_r.
    apply appends_then_ret; [apply appends_primitive|]. intros _. apply appends_ret.
  - cbn [bm_bitmap_get]. apply appends_bind; [apply appends_primitive|]. intros _.
    apply appends_then_ret; [apply appends_words|]. intros _. apply appends_ret.
Qed.

(** *** Submessages *)

(** The octets of a submessage. *)
Definition submessage (id flags : Z) (body : list Z) : list Z := [id; flags] ++ le_split 2 (Z.of_nat (length body)) ++ body.

Lemma set_endian_writing m : writing m → msg_set_endian LITTLEEND m = m.
Proof. intros Hm. pose proof (wr_endian m Hm). destruct m. cbn in *. by subst. Qed.

Lemma appends_endian : appends (modify_msg (msg_set_endian LITTLEEND)) [].
Proof. intros m Hm _. exists (). rewrite put_nil by done. unfold modify_msg. by rewrite set_endian_writing. Qed.

Lemma set_length_writing m : writing m → set_length_to_pos m = Some ((), m).
Proof. intros Hm. pose proof (wr_length m Hm). unfold set_length_to_pos, modify_msg. destruct m. cbn in *. by subst. Qed.

Lemma appends_set_length : appends set_length_to_pos [].
Proof. intros m Hm _. exists (). rewrite put_nil by done. by apply set_length_writing. Qed.

Lemma patch_put a c m size :
  writing m → room (Z.of_nat (length (a ++ [0; 0] ++ c))) m →
  patch_size (msg_pos m + Z.of_nat (length a)) size (put (a ++ [0; 0] ++ c) m) = Some ((), put (a ++ le_split 2 size ++ c) m).
Proof.
  intros [(b & Eb & Hb) Hp Hmax Hl He] Hroom. unfold room in Hroom. rewrite !length_app in Hroom. cbn [length] in Hroom.
  unfold patch_size, put, msg_block. cbn [msg_buffer msg_endian]. rewrite Eb, He. rewrite decide_True by done. cbn [fmap option_fmap option_map from_option id].
  set (p := Z.to_nat (msg_pos m)). assert (length (take p b) = p) as Hlp by (rewrite length_take; lia).
  rewrite !length_app, le_split_length. cbn [length]. set (rest := drop _ b).
  rewrite mem_store_Some; [|lia|rewrite le_split_length, !length_app; cbn [length]; rewrite Hlp; lia].
  rewrite le_split_length. replace (Z.to_nat (msg_pos m + Z.of_nat (length a))) with (p + length a)%nat by lia.
  cbn [mbind option_bind]. do 4 f_equal.
  rewrite <- !app_assoc. rewrite (app_assoc (take p b) a). rewrite take_app_length' by (rewrite length_app; lia).
  rewrite <- !app_assoc. do 3 f_equal. rewrite (app_assoc (take p b)), (app_assoc (take p b ++ a)).
  rewrite drop_app_length' by (rewrite !length_app; cbn; lia). done.
Qed.

Lemma appends_sized id fl body bs :
  is_u8 id → is_u8 fl → appends body bs → Z.of_nat (length bs) < 2 ^ 16 →
  appends (sized_submessage id fl body) (submessage id fl bs).
Proof.
  intros Hid Hfl Hbody Hlen m Hm Hroom. exists true. unfold submessage in *. rewrite !length_app, le_split_length in Hroom. cbn [length] in Hroom.
  unfold room in Hroom. unfold sized_submessage. rewrite (bind_step _ _ m m m) by done. cbn zeta. rewrite (wr_endian m Hm).
  rewrite (bind_step _ _ m () m) by (unfold modify_msg; by rewrite set_endian_writing).
  destruct (appends_octet id Hid m Hm) as [v1 E1]; [unfold room; cbn; lia|]. rewrite (bind_step _ _ _ _ _ E1).
  assert (writing (put [id] m)) as Hm0 by (apply put_writing; [done | unfold room; cbn; lia]).
  destruct (appends_octet fl Hfl (put [id] m) Hm0) as [v2 E2]; [unfold room; cbn; lia|]. rewrite (bind_step _ _ _ _ _ E2).
  rewrite put_put by (done || (unfold room; cbn; lia)). cbn [app]. set (m1 := put [id; fl] m). rewrite (bind_step _ _ m1 m1 m1) by done.
  assert (writing m1) as Hm1 by (apply put_writing; [done | unfold room; cbn; lia]).
  destruct (appends_primitive 2 0 m1 Hm1) as [v3 E3]; [unfold room; cbn; lia|]. unfold addUInt16. rewrite (bind_step _ _ _ _ _ E3).
  change (le_split 2 0) with [0; 0]. assert (put [0; 0] m1 = put ([id; fl] ++ [0; 0]) m) as -> by (apply put_put; [done | unfold room; cbn; lia]).
  set (m2 := put _ m).
  rewrite (bind_step _ _ m2 m2 m2) by done. assert (writing m2) as Hm2 by (apply put_writing; [done | unfold room; cbn; lia]).
  destruct (Hbody m2 Hm2) as [v4 E4]; [unfold room; cbn; lia|]. rewrite (bind_step _ _ _ _ _ E4).
  assert (put bs m2 = put ([id; fl] ++ [0; 0] ++ bs) m) as -> by (unfold m2; rewrite put_put by (done || (unfold room; cbn; lia)); done).
  set (m3 := put _ m).
  rewrite (bind_step _ _ m3 m3 m3) by done.
  assert (u16 (u32 (msg_pos m3 - msg_pos m2)) = Z.of_nat (length bs)) as Esz.
  { unfold m3, m2. cbn [msg_pos put app length]. pose proof (wr_pos m Hm). pose proof (wr_max m Hm). rewrite u32_small by zwidth.
    unfold u16. rewrite Z.mod_small by zwidth. lia. }
  rewrite Esz. pose proof (patch_put [id; fl] bs m (Z.of_nat (length bs)) Hm ltac:(unfold room; rewrite !length_app; cbn; lia)) as Ep.
  cbn [length] in Ep. fold m3 in Ep. change (msg_pos m1) with (msg_pos m + Z.of_nat 2). rewrite (bind_step _ _ _ _ _ Ep).
  assert (writing (put ([id; fl] ++ le_split 2 (Z.of_nat (length bs)) ++ bs) m)) as Hm4.
  { apply put_writing; [done|]. unfold room. rewrite !length_app, le_split_length. cbn. lia. }
  set (m4 := put _ m) in *. unfold mbind, CDR_bind, modify_msg, mret, CDR_ret. by rewrite set_endian_writing.
Qed.

(** *** The messages *)

Definition enc_header (p : GuidPrefix_t) : list Z := rtps_magic ++ [2; 2; 1; 15] ++ pfx_value p.

Lemma appends_prefix p : pfx_ok p → appends (addData (Some (pfx_value p)) 12) (pfx_value p).
Proof. intros [Hlen _]. replace 12 with (Z.of_nat (length (pfx_value p))) by (rewrite Hlen; done). apply appends_data. rewrite Hlen. done. Qed.

Lemma appends_octet_then {C} v (g : bool → CDR C) bs : is_u8 v → (∀ a, appends (g a) bs) → appends (addOctet v ≫= g) (v :: bs).
Proof. intros Hv Hg. apply (appends_bind _ _ [v] bs); [by apply appends_octet | done]. Qed.

Lemma appends_header p : pfx_ok p → appends (addHeader p) (enc_header p).
Proof.
  intros Hp. unfold addHeader, addHeader_version, enc_header, rtps_magic. cbn [app].
  repeat (apply appends_octet_then; [done|]; intros _).
  apply appends_then_ret; [by apply appends_prefix|]. intros _. apply appends_then_ret; [apply appends_set_length|]. intros _. apply appends_ret.
Qed.

Definition enc_info_dst (p : GuidPrefix_t) : list Z := submessage INFO_DST 1 (pfx_value p).

Lemma appends_info_dst p : pfx_ok p → appends (addSubmessageInfoDST p) (enc_info_dst p).
Proof.
  intros Hp. unfold addSubmessageInfoDST, enc_info_dst, submessage. pose proof Hp as [Hlen _]. rewrite Hlen.
  apply (appends_bind _ _ []); [apply appends_endian|]. intros _. cbn [app].
  do 2 (apply appends_octet_then; [done|]; intros _). apply appends_bind; [apply appends_primitive|]. intros _.
  apply appends_then_ret; [by apply appends_prefix|]. intros _. apply appends_ret.
Qed.

Definition heartbeat_body (rid wid : EntityId_t) (first last : SequenceNumber_t) (count : Z) : list Z :=
  ent_value rid ++ ent_value wid ++ enc_sn first ++ enc_sn last ++ le_split 4 (i32 count).

Definition acknack_body (rid wid : EntityId_t) (set : SequenceNumberSet_t) (count : Z) : list Z :=
  ent_value rid ++ ent_value wid ++ enc_set set ++ le_split 4 count.

Definition gap_body (start : SequenceNumber_t) (set : SequenceNumberSet_t) (rid wid : EntityId_t) : list Z :=
  ent_value rid ++ ent_value wid ++ enc_sn start ++ enc_set set.

Lemma enc_sn_length sn : length (enc_sn sn) = 8%nat.
Proof. unfold enc_sn. by rewrite length_app, !le_split_length. Qed.

Lemma enc_words_length ws : length (enc_words ws) = (4 * length ws)%nat.
Proof.
  induction ws as [|w ws IH]; [done|]. change (enc_words (w :: ws)) with (le_split 4 w ++ enc_words ws).
  rewrite length_app, le_split_length, IH. cbn [length]. lia.
Qed.

Lemma enc_set_length b : bm_ok b → (length (enc_set b) <= 44)%nat.
Proof.
  intros Hok. unfold enc_set. rewrite !length_app, enc_sn_length, le_split_length, enc_words_length, length_take.
  pose proof (ok_num b Hok). assert ((num_bits_ b + 31) / 32 < 9) by (apply Z.div_lt_upper_bound; lia). lia.
Qed.

Definition hb_flags (isFinal live : bool) : Z := Z.lor (Z.lor 1 (if isFinal then 2 else 0)) (if live then 4 else 0).
Definition an_flags (isFinal : bool) : Z := Z.lor 1 (if isFinal then 2 else 0).

(** The octets of the messages. *)
Definition heartbeat_message p q rid wid first last count isFinal live : list Z :=
  enc_header p ++ enc_info_dst q ++ submessage HEARTBEAT (hb_flags isFinal live) (heartbeat_body rid wid first last count).

Definition acknack_message p q rid wid set count isFinal : list Z :=
  enc_header p ++ enc_info_dst q ++ submessage ACKNACK (an_flags isFinal) (acknack_body rid wid set count).

Lemma appends_heartbeat rid wid first last count isFinal live :
  ent_ok rid → ent_ok wid →
  appends (addSubmessageHeartbeat rid wid first last count isFinal live)
    (submessage HEARTBEAT (hb_flags isFinal live) (heartbeat_body rid wid first last count)).
Proof.
  intros Hr Hw. apply appends_sized; [done | by destruct isFinal, live | |].
  - unfold heartbeat_body. do 2 (apply appends_bind; [by apply appends_entity|]; intros _).
    do 2 (apply appends_bind; [apply appends_sn|]; intros _). apply appends_then_ret; [apply appends_primitive|]. intros _. apply appends_ret.
  - destruct Hr as [Hr _], Hw as [Hw _]. unfold heartbeat_body. rewrite !length_app, Hr, Hw, !enc_sn_length, le_split_length. done.
Qed.

Lemma appends_acknack rid wid set count isFinal :
  ent_ok rid → ent_ok wid → bm_ok set →
  appends (addSubmessageAcknack rid wid set count isFinal) (submessage ACKNACK (an_flags isFinal) (acknack_body rid wid set count)).
Proof.
  intros Hr Hw Hset. apply appends_sized; [done | by destruct isFinal | |].
  - unfold acknack_body. do 2 (apply appends_bind; [by apply appends_entity|]; intros _).
    apply appends_bind; [apply appends_set|]. intros _. apply appends_then_ret; [apply appends_primitive|]. intros _. apply appends_ret.
  - destruct Hr as [Hr _], Hw as [Hw _]. pose proof (enc_set_length set Hset). unfold acknack_body.
    rewrite !length_app, Hr, Hw, le_split_length. change (2 ^ 16) with 65536. lia.
Qed.

Lemma appends_message {C} (f : CDR C) p q bs :
  pfx_ok p → pfx_ok q → appends f bs →
  appends (addHeader p;; addSubmessageInfoDST q;; f;; set_length_to_pos;; mret true) (enc_header p ++ enc_info_dst q ++ bs).
Proof.
  intros Hp Hq Hf. apply appends_bind; [by apply appends_header|]. intros _. apply appends_bind; [by apply appends_info_dst|]. intros _.
  apply appends_then_ret; [done|]. intros _. apply appends_then_ret; [apply appends_set_length|]. intros _. apply appends_ret.
Qed.
