(* ===== verification/MessageRoundtrip.v ===== *)
(** * What is sent is what is received

    [parses f bs a]: on a message whose next octets are [bs], [f] reads exactly
    them and returns [a]. The functions of the receiver parse the octets the
    message creator appends: a HEARTBEAT and an ACKNACK built by a participant
    reach the endpoints of the other participant with the values they were built
    from. *)

From Stdlib Require Import ZArith Lia ZifyBool.
From stdpp Require Import base numbers list option list_numbers.
From S2P Require Import Prelude SequenceNumber BitmapRange BitmapWords BitmapFacts Bytes Guid Time CDRMessage CDRFacts ParameterList.
From S2P Require Import MessageReceiver MessageReceiverFacts MessageCreator MessageWriting.

Open Scope Z_scope.

(** The rest of the message is [tail]. *)
Record reading (m : CDRMessage_t) (tail : list Z) : Prop := {
  rd_pos : 0 <= msg_pos m;
  rd_tail : ∃ junk, drop (Z.to_nat (msg_pos m)) (msg_block m) = tail ++ junk;
  rd_length : msg_length m = msg_pos m + Z.of_nat (length tail);
  rd_block : msg_length m <= Z.of_nat (length (msg_block m));
  rd_small : msg_length m <= 2 ^ 30;
  rd_endian : msg_endian m = LITTLEEND
}.

Definition skip (bs : list Z) (m : CDRMessage_t) : CDRMessage_t := msg_set_pos (msg_pos m + Z.of_nat (length bs)) m.

Lemma reading_skip bs tail m : reading m (bs ++ tail) → reading (skip bs m) tail.
Proof.
  intros [Hp (junk & Ej) Hl Hb Hs He]. rewrite length_app in Hl. constructor; [cbn; lia | | cbn; lia | done | done | done].
  exists junk. change (msg_block (skip bs m)) with (msg_block m). change (msg_pos (skip bs m)) with (msg_pos m + Z.of_nat (length bs)).
  replace (Z.to_nat (msg_pos m + Z.of_nat (length bs))) with (Z.to_nat (msg_pos m) + length bs)%nat by lia.
  rewrite <- drop_drop, Ej, <- app_assoc, drop_app_length. done.
Qed.

Lemma skip_skip b1 b2 m : skip b2 (skip b1 m) = skip (b1 ++ b2) m.
Proof. unfold skip, msg_set_pos. cbn. rewrite length_app. f_equal. lia. Qed.

Lemma skip_nil m : skip [] m = m.
Proof. unfold skip, msg_set_pos. cbn. rewrite Z.add_0_r. by destruct m. Qed.

Definition parses {A} (f : CDR A) (bs : list Z) (a : A) : Prop :=
  ∀ m tail, reading m (bs ++ tail) → f m = Some (a, skip bs m).

Lemma parses_bind {A C} (f : CDR A) (g : A → CDR C) b1 b2 a c :
  parses f b1 a → parses (g a) b2 c → parses (f ≫= g) (b1 ++ b2) c.
Proof.
  intros Hf Hg m tail Hm. rewrite <- app_assoc in Hm. rewrite (bind_step _ _ _ _ _ (Hf m _ Hm)).
  rewrite (Hg (skip b1 m) tail) by (by apply reading_skip). by rewrite skip_skip.
Qed.

Lemma parses_ret {A} (a : A) : parses (mret a) [] a.
Proof. intros m tail _. by rewrite skip_nil. Qed.

Lemma parses_last {A C} (f : CDR A) (g : A → CDR C) bs a c : parses f bs a → parses (g a) [] c → parses (f ≫= g) bs c.
Proof. intros Hf Hg. rewrite <- (app_nil_r bs). by eapply parses_bind. Qed.

Lemma parses_first {A C} (f : CDR A) (g : A → CDR C) bs a c : parses f [] a → parses (g a) bs c → parses (f ≫= g) bs c.
Proof. intros Hf Hg. change bs with ([] ++ bs). by eapply parses_bind. Qed.

(** *** Primitives *)

Lemma reading_left bs tail m : reading m (bs ++ tail) → has_left (Z.of_nat (length bs)) m = true.
Proof.
  intros [Hp _ Hl _ Hs _]. rewrite length_app in Hl. change (2 ^ 30) with 1073741824 in Hs. unfold has_left. rewrite u32_small by zwidth. lia.
Qed.

Lemma reading_peek bs tail m : reading m (bs ++ tail) → peek (Z.of_nat (length bs)) m = Some (bs, m).
Proof.
  intros [Hp (junk & Ej) Hl Hb Hs _]. rewrite length_app in Hl. unfold peek. rewrite mem_load_Some by lia.
  rewrite Ej, <- app_assoc, Nat2Z.id, take_app_length. done.
Qed.

Lemma reading_advance bs tail m : reading m (bs ++ tail) → advance (Z.of_nat (length bs)) m = Some ((), skip bs m).
Proof.
  intros [Hp _ Hl _ Hs _]. rewrite length_app in Hl. change (2 ^ 30) with 1073741824 in Hs. unfold advance, modify_msg, skip.
  rewrite u32_small by zwidth. done.
Qed.

Lemma parses_object bs n : Z.of_nat (length bs) = n → parses (read_object n) bs bs.
Proof.
  intros <- m tail Hm. unfold read_object. rewrite (bind_step _ _ m m m) by done. rewrite (rd_endian _ _ Hm), decide_True by done.
  rewrite (bind_step _ _ _ _ _ (reading_peek _ _ _ Hm)), (bind_step _ _ _ _ _ (reading_advance _ _ _ Hm)). done.
Qed.

Lemma parses_uint32 d v : is_u32 v → parses (readUInt32 d) (le_split 4 v) (true, v).
Proof.
  intros Hv m tail Hm. unfold readUInt32. rewrite (bind_step _ _ m m m) by done. pose proof (reading_left _ _ _ Hm) as Hleft.
  rewrite le_split_length in Hleft. change (Z.of_nat 4) with 4 in Hleft. rewrite Hleft. cbn [negb].
  rewrite (bind_step _ _ _ _ _ (parses_object (le_split 4 v) 4 ltac:(by rewrite le_split_length) m tail Hm)).
  by rewrite le_combine_split_small.
Qed.

Lemma parses_int32 d v : is_i32 v → parses (readInt32 d) (le_split 4 v) (true, v).
Proof.
  intros Hv m tail Hm. unfold readInt32. rewrite (bind_step _ _ m m m) by done. pose proof (reading_left _ _ _ Hm) as Hleft.
  rewrite le_split_length in Hleft. change (Z.of_nat 4) with 4 in Hleft. rewrite Hleft. cbn [negb].
  rewrite (bind_step _ _ _ _ _ (parses_object (le_split 4 v) 4 ltac:(by rewrite le_split_length) m tail Hm)).
  rewrite le_combine_split. change (8 * Z.of_nat 4) with 32.
  assert (i32 (v mod 2 ^ 32) = v) as ->; [|done]. rewrite <- (i32_small v Hv) at 2. unfold i32, sext. by rewrite Z.mod_mod.
Qed.

Lemma parses_uint16 d v : is_u16 v → parses (readUInt16 d) (le_split 2 v) (true, v).
Proof.
  intros Hv m tail Hm. unfold readUInt16. rewrite (bind_step _ _ m m m) by done. pose proof (reading_left _ _ _ Hm) as Hleft.
  pose proof (reading_peek _ _ _ Hm) as Hpk. pose proof (reading_advance _ _ _ Hm) as Hadv.
  rewrite le_split_length in Hleft, Hpk, Hadv. change (Z.of_nat 2) with 2 in *. rewrite Hleft. cbn [negb].
  unfold read_pair, mbind, CDR_bind, get_msg. rewrite Hpk, Hadv. rewrite (rd_endian _ _ Hm), decide_True by done. cbn [mret CDR_ret].
  unfold mret, CDR_ret. by rewrite le_combine_split_small.
Qed.

Lemma parses_entity d id : ent_ok id → parses (readEntityId d) (ent_value id) (true, id).
Proof.
  intros [Hlen _] m tail Hm. unfold readEntityId. rewrite (bind_step _ _ m m m) by done. pose proof (reading_left _ _ _ Hm) as Hleft.
  pose proof (reading_peek _ _ _ Hm) as Hpk. pose proof (reading_advance _ _ _ Hm) as Hadv. rewrite Hlen in Hleft, Hpk, Hadv.
  change (Z.of_nat 4) with 4 in *. rewrite Hleft. cbn [negb]. rewrite (bind_step _ _ _ _ _ Hpk), (bind_step _ _ _ _ _ Hadv). by destruct id.
Qed.

Lemma parses_data dest bs n :
  Z.of_nat (length bs) = n → 0 < n → length dest = length bs → parses (readData (Some dest) n) bs (true, Some bs).
Proof.
  intros <- Hn Hd m tail Hm. unfold readData. rewrite (bind_step _ _ m m m) by done. rewrite (reading_left _ _ _ Hm). cbn [negb].
  destruct (Z.ltb_spec 0 (Z.of_nat (length bs))); [|lia]. rewrite (bind_step _ _ _ _ _ (reading_peek _ _ _ Hm)).
  assert (mem_store dest 0 bs = Some bs) as Est.
  { rewrite mem_store_Some by lia. cbn [take app Z.to_nat Nat.add]. rewrite drop_ge by lia. by rewrite app_nil_r. }
  rewrite Est, (bind_step (cdr_option (Some bs)) _ m bs m eq_refl), (bind_step _ _ _ _ _ (reading_advance _ _ _ Hm)). done.
Qed.

(** *** Sequence numbers and sets *)

Lemma parses_sn d sn : sn_wf sn → parses (readSequenceNumber d) (enc_sn sn) (true, sn).
Proof.
  intros [Hh Hl] m tail Hm. unfold readSequenceNumber. rewrite (bind_step _ _ m m m) by done. pose proof (reading_left _ _ _ Hm) as Hleft.
  rewrite enc_sn_length in Hleft. change (Z.of_nat 8) with 8 in Hleft. rewrite Hleft. cbn [negb].
  assert (parses ('(valid, h) ← readInt32 (high d); '(valid2, l) ← readUInt32 (low d); mret (valid && valid2, SeqNum h l))
    (enc_sn sn) (true, sn)) as H; [|by eapply H].
  unfold enc_sn. eapply parses_bind; [by apply parses_int32|]. eapply parses_last; [by apply parses_uint32|].
  destruct sn. apply parses_ret.
Qed.

Lemma parses_words ws : Forall is_u32 ws → parses (read_words (length ws) true) (enc_words ws) (true, ws).
Proof.
  induction 1 as [|w ws Hw _ IH]; cbn [length read_words]; [apply parses_ret|].
  change (enc_words (w :: ws)) with (le_split 4 w ++ enc_words ws). eapply parses_bind; [by apply parses_uint32|].
  eapply parses_last; [apply IH|]. apply parses_ret.
Qed.

(** The set the other side gets. *)
Definition set_received (b : SequenceNumberSet_t) : SequenceNumberSet_t :=
  bm_bitmap_set (bm_make_max (base_ b) (num_bits_ b)) (num_bits_ b) (take (Z.to_nat ((num_bits_ b + 31) / 32)) (bitmap_ b)).

Lemma parses_set b : bm_ok b → sn_ok (base_ b) → parses readSequenceNumberSet (enc_set b) (set_received b).
Proof.
  intros Hok Hb. pose proof (ok_num b Hok) as Hn. destruct (words_of_bits (num_bits_ b) Hn) as [Ew Hw]. destruct (ok_words b Hok) as [Hlen H32].
  unfold readSequenceNumberSet, enc_set. eapply parses_bind; [apply parses_sn, sn_ok_wf, Hb|].
  eapply parses_bind; [apply parses_uint32; zwidth|]. cbn [fst snd]. destruct Hb as [Hh Hl].
  replace (num_bits_ b <=? 256) with true by lia. replace (0 <=? high (base_ b)) with true by lia. cbn [andb].
  destruct (Z.eqb_spec (high (base_ b)) (2 ^ 31 - 1)); [lia|]. rewrite Ew.
  eapply parses_last.
  - set (ws := take _ (bitmap_ b)). replace (Z.to_nat ((num_bits_ b + 31) / 32)) with (length ws).
    + apply parses_words. by apply Forall_take.
    + unfold ws. rewrite length_take. change NITEMS with 8%nat in Hlen. lia.
  - apply parses_ret.
Qed.

(** It has the same base and the same elements. *)
Lemma set_received_same b : bm_ok b → sn_ok (base_ b) →
  base_ (set_received b) = base_ b ∧ bm_ok (set_received b) ∧ ∀ z, bm_bits (set_received b) z = bm_bits b z.
Proof.
  intros Hok Hb. pose proof (ok_num b Hok) as Hn. destruct (words_of_bits (num_bits_ b) Hn) as [Ew Hw]. destruct (ok_words b Hok) as [Hlen H32].
  pose proof (sn_ok_range _ Hb). unfold set_received. set (ws := take _ (bitmap_ b)). change NITEMS with 8%nat in Hlen.
  assert (length ws = Z.to_nat ((num_bits_ b + 31) / 32)) as Elw by (unfold ws; rewrite length_take; lia).
  destruct (bm_bitmap_set_spec (bm_make_max (base_ b) (num_bits_ b)) (num_bits_ b) ws) as (Hok' & Eb & _ & Hbits).
  - apply bm_make_max_ok; [apply Hok | lia |]. cbn. zwidth.
  - lia.
  - by apply Forall_take.
  - lia.
  - split; [done|]. split; [done|]. intros z. rewrite Hbits. cbn [base_ bm_make_max]. unfold bm_bits.
    destruct (Z.leb_spec (item_val (base_ b)) z); [|done]. cbn [andb]. set (i := z - item_val (base_ b)).
    destruct (Z.ltb_spec z (item_val (base_ b) + num_bits_ b)); cbn [andb].
    + unfold bit_at, word. f_equal. f_equal. unfold ws. rewrite lookup_take_lt; [done|].
      pose proof (Z.div_mod (num_bits_ b + 31) 32). pose proof (Z.mod_pos_bound (num_bits_ b + 31) 32).
      pose proof (Z.div_mod i 32). pose proof (Z.mod_pos_bound i 32). lia.
    + destruct (Z.ltb_spec i 256); [rewrite (ok_high b Hok) by lia; done | rewrite bit_at_ge; [done | apply Hok | lia]].
Qed.

(** ** Submessages *)

Lemma reading_little tail m : reading m tail → msg_set_endian LITTLEEND m = m.
Proof. intros Hm. pose proof (rd_endian _ _ Hm). destruct m. cbn in *. by subst. Qed.

Lemma parses_flag_endian smh : flag 0 smh = true → parses (set_flag_endian smh) [] ().
Proof. intros Hf m tail Hm. unfold set_flag_endian, modify_msg. by rewrite Hf, (reading_little _ _ Hm), skip_nil. Qed.

Lemma parses_octet_at o tail m : is_u8 o → reading m (o :: tail) → octet_at_pos m = Some (o, m) ∧ advance 1 m = Some ((), skip [o] m).
Proof.
  intros Ho Hm. change (o :: tail) with ([o] ++ tail) in Hm. pose proof (reading_peek _ _ _ Hm) as Hpk. pose proof (reading_advance _ _ _ Hm) as Hadv.
  change (Z.of_nat (length [o])) with 1 in *. split; [|done]. unfold octet_at_pos. rewrite (bind_step _ _ _ _ _ Hpk). cbn [le_combine].
  by rewrite Z.mul_0_r, Z.add_0_r.
Qed.

(** The header of a submessage with the flag of the byte order and a body. *)
Lemma header_parsed d id fl body tail m :
  is_u8 id → is_u8 fl → Z.testbit fl 0 = true → 0 < Z.of_nat (length body) < 2 ^ 16 →
  reading m (submessage id fl body ++ tail) →
  readSubmessageHeader d m =
    Some ((true, {| submessageId := id; submessageLength := Z.of_nat (length body); flags := fl; is_last := false |}),
          msg_set_pos (msg_pos m + 4) m) ∧
  reading (msg_set_pos (msg_pos m + 4) m) (body ++ tail).
Proof.
  intros Hid Hfl Hbit Hlen Hm. set (n := Z.of_nat (length body)) in *. unfold submessage in Hm. fold n in Hm. cbn [app] in Hm. rewrite <- app_assoc in Hm.
  assert (reading (msg_set_pos (msg_pos m + 4) m) (body ++ tail)) as Hm4.
  { change (msg_set_pos (msg_pos m + 4) m) with (skip (id :: fl :: le_split 2 n) m). by apply reading_skip. }
  split; [|done]. destruct (parses_octet_at id _ m Hid Hm) as [E1 E2].
  assert (reading (skip [id] m) (fl :: le_split 2 n ++ body ++ tail)) as Hm1 by (by apply reading_skip).
  destruct (parses_octet_at fl _ _ Hfl Hm1) as [E3 E4].
  assert (reading (skip [fl] (skip [id] m)) (le_split 2 n ++ body ++ tail)) as Hm2 by (by apply reading_skip). rewrite skip_skip in E4, Hm2. cbn [app] in E4, Hm2.
  unfold readSubmessageHeader. rewrite (bind_step _ _ m m m) by done.
  pose proof (rd_length _ _ Hm) as Hl. cbn [length] in Hl. rewrite !length_app, le_split_length in Hl. pose proof (rd_small _ _ Hm) as Hs. pose proof (rd_pos _ _ Hm) as Hp.
  change (2 ^ 30) with 1073741824 in Hs. fold n in Hl. rewrite u32_small by zwidth. destruct (Z.ltb_spec (msg_length m - msg_pos m) 4); [lia|].
  rewrite (bind_step _ _ _ _ _ E1), (bind_step _ _ _ _ _ E2), (bind_step _ _ _ _ _ E3), (bind_step _ _ _ _ _ E4). rewrite Hbit.
  rewrite (bind_step _ _ _ () (skip [id; fl] m)) by (unfold modify_msg; by rewrite (reading_little _ _ Hm2)).
  rewrite (bind_step _ _ _ _ _ (parses_uint16 0 n ltac:(zwidth) _ _ Hm2)). rewrite skip_skip.
  change (skip ([id; fl] ++ le_split 2 n) m) with (msg_set_pos (msg_pos m + 4) m). set (m4 := msg_set_pos _ m) in *. rewrite (bind_step _ _ m4 m4 m4) by done.
  change (msg_pos m4) with (msg_pos m + 4). change (msg_length m4) with (msg_length m). rewrite u32_small by zwidth.
  destruct (Z.gtb_spec (msg_pos m + 4 + n) (msg_length m)); [lia|]. destruct (Z.eqb_spec n 0); [lia|]. done.
Qed.

(** [smh] is the header of a submessage. *)
Definition header_of (id fl : Z) (body : list Z) : SubmessageHeader_t :=
  {| submessageId := id; submessageLength := Z.of_nat (length body); flags := fl; is_last := false |}.

Lemma next_of_body p n : 0 <= p → 0 <= n → p + n <= 2 ^ 30 → n mod 4 = 0 →
  u32 (p + Z.land (u32 (n + 3)) (2 ^ 32 - 4)) = p + n.
Proof.
  intros Hp Hn Hle H4. change (2 ^ 30) with 1073741824 in Hle. rewrite (u32_small (n + 3)) by zwidth. rewrite align_down by zwidth.
  assert ((n + 3) mod 4 = 3) as E.
  { rewrite <- (Zplus_mod_idemp_l n), H4. done. }
  rewrite E. rewrite u32_small by zwidth. lia.
Qed.

(** One round of the loop. *)
Lemma loop_round env fuel es r id fl body tail m r' es' ig' :
  is_u8 id → is_u8 fl → Z.testbit fl 0 = true → 0 < Z.of_nat (length body) < 2 ^ 16 → Z.of_nat (length body) mod 4 = 0 →
  reading m (submessage id fl body ++ tail) →
  (∀ m1, reading m1 (body ++ tail) → ∃ bs, process_submessage env (header_of id fl body) false es r m1 = Some ((true, r', es', ig'), skip bs m1)) →
  process_submessages env (S fuel) false es r m =
    process_submessages env fuel ig' (es ++ es') r' (skip (submessage id fl body) m).
Proof.
  intros Hid Hfl Hbit Hlen H4 Hm Hstep. cbn [process_submessages]. rewrite (bind_step _ _ m m m) by done.
  pose proof (rd_length _ _ Hm) as Hl. pose proof (rd_pos _ _ Hm) as Hp. pose proof (rd_small _ _ Hm) as Hs.
  assert (Z.of_nat (length (submessage id fl body)) = 4 + Z.of_nat (length body)) as Esub.
  { unfold submessage. rewrite !length_app, le_split_length. cbn. lia. }
  rewrite length_app in Hl. destruct (Z.ltb_spec (msg_pos m) (msg_length m)); [|lia].
  destruct (header_parsed smh_default id fl body tail m Hid Hfl Hbit Hlen Hm) as [Eh Hm1].
  rewrite (bind_step _ _ _ _ _ Eh). cbn [negb]. set (m1 := msg_set_pos (msg_pos m + 4) m) in *. rewrite (bind_step _ _ m1 m1 m1) by done. cbn [andb].
  fold (header_of id fl body). destruct (Hstep m1 Hm1) as [bs Eb]. rewrite (bind_step _ _ _ _ _ Eb). cbn [negb orb is_last header_of submessageLength].
  change (msg_pos m1) with (msg_pos m + 4). rewrite next_of_body by (done || lia).
  rewrite (bind_step _ _ _ () (skip (submessage id fl body) m)); [done|].
  unfold modify_msg, skip. rewrite Esub, Z.add_assoc. done.
Qed.

Lemma loop_end env fuel ig es r m : reading m [] → process_submessages env fuel ig es r m = Some ((r, es, true), m).
Proof.
  intros Hm. pose proof (rd_length _ _ Hm) as Hl. cbn in Hl. destruct fuel; cbn [process_submessages]; rewrite (bind_step _ _ m m m) by done;
    (destruct (Z.ltb_spec (msg_pos m) (msg_length m)); [lia | done]).
Qed.

(** A round of the search for statistics. *)
Lemma statistics_round fuel sl rl L r id fl body tail m :
  is_u8 id → is_u8 fl → Z.testbit fl 0 = true → 0 < Z.of_nat (length body) < 2 ^ 16 → Z.of_nat (length body) mod 4 = 0 →
  id ≠ FASTDDS_STATISTICS_NETWORK_SUBMESSAGE → L = msg_length m →
  reading m (submessage id fl body ++ tail) →
  statistics_loop (S fuel) sl rl L r m = statistics_loop fuel sl rl L r (skip (submessage id fl body) m).
Proof.
  intros Hid Hfl Hbit Hlen H4 Hne -> Hm. cbn [statistics_loop]. rewrite (bind_step _ _ m m m) by done.
  pose proof (rd_length _ _ Hm) as Hl. pose proof (rd_pos _ _ Hm) as Hp. pose proof (rd_small _ _ Hm) as Hs.
  assert (Z.of_nat (length (submessage id fl body)) = 4 + Z.of_nat (length body)) as Esub.
  { unfold submessage. rewrite !length_app, le_split_length. cbn. lia. }
  rewrite length_app in Hl. destruct (Z.ltb_spec (msg_pos m) (msg_length m)); [|lia].
  destruct (header_parsed smh_default id fl body tail m Hid Hfl Hbit Hlen Hm) as [Eh Hm1].
  rewrite (bind_step _ _ _ _ _ Eh). cbn [negb submessageId is_last submessageLength]. destruct (Z.eqb_spec id FASTDDS_STATISTICS_NETWORK_SUBMESSAGE); [done|].
  rewrite (bind_step _ _ _ () (skip (submessage id fl body) m)); [done|].
  unfold advance, modify_msg. cbn [msg_pos msg_set_pos]. rewrite next_of_body by (done || lia).
  unfold skip. rewrite Esub, Z.add_assoc. done.
Qed.

Lemma statistics_end fuel sl rl r m : reading m [] → statistics_loop fuel sl rl (msg_length m) r m = Some ([], m).
Proof.
  intros Hm. pose proof (rd_length _ _ Hm) as Hl. cbn in Hl. destruct fuel; cbn [statistics_loop]; rewrite (bind_step _ _ m m m) by done;
    (destruct (Z.ltb_spec (msg_pos m) (msg_length m)); [lia | done]).
Qed.

(** ** Messages *)

Lemma memcmp_refl l : memcmp l l = 0.
Proof. by apply memcmp_eq. Qed.

Lemma pfx_neb_refl p : pfx_neb p p = false.
Proof. unfold pfx_neb. by rewrite memcmp_refl. Qed.

Lemma header_checked r p tail m :
  pfx_ok p → length (pfx_value (source_guid_prefix_ r)) = 12%nat → msg_pos m = 0 → reading m (enc_header p ++ tail) →
  checkRTPSHeader r m = Some ((true, mr_set_timestamp false (timestamp_ r) (mr_set_source (2, 2) [1; 15] p r)), skip (enc_header p) m).
Proof.
  intros [Hp _] Hr H0 Hm. unfold checkRTPSHeader. rewrite (bind_step _ _ m m m) by done.
  assert (mem_load (msg_block m) 0 4 = Some rtps_magic) as Emag.
  { assert (reading m (rtps_magic ++ [2; 2; 1; 15] ++ pfx_value p ++ tail)) as Hm' by (unfold enc_header in Hm; by rewrite <- !app_assoc in Hm).
    pose proof (reading_peek _ _ _ Hm') as Hpk. unfold peek in Hpk. rewrite H0 in Hpk. change (Z.of_nat (length rtps_magic)) with 4 in Hpk.
    destruct (mem_load (msg_block m) 0 4); [|done]. by injection Hpk as ->. }
  rewrite Emag, (bind_step (cdr_option (Some rtps_magic)) _ m rtps_magic m eq_refl). rewrite bool_decide_eq_true_2 by done. cbn [negb].
  unfold enc_header in *. set (tl := pfx_value p ++ tail).
  assert (reading m (rtps_magic ++ [2; 2; 1; 15] ++ tl)) as Hm0 by (by rewrite <- !app_assoc in Hm).
  pose proof (reading_advance _ _ _ Hm0) as Ea. change (Z.of_nat (length rtps_magic)) with 4 in Ea. rewrite (bind_step _ _ _ _ _ Ea).
  apply reading_skip in Hm0. set (m0 := skip rtps_magic m) in *.
  destruct (parses_octet_at 2 (2 :: 1 :: 15 :: tl) m0 ltac:(done) Hm0) as [Eo1 Ea1]. rewrite (bind_step _ _ _ _ _ Eo1). cbn [fst c_ProtocolVersion Z.eqb Pos.eqb negb].
  rewrite (bind_step _ _ _ _ _ Ea1). apply (reading_skip [2]) in Hm0. set (m1 := skip [2] m0) in *.
  destruct (parses_octet_at 2 (1 :: 15 :: tl) m1 ltac:(done) Hm0) as [Eo2 Ea2]. rewrite (bind_step _ _ _ _ _ Eo2), (bind_step _ _ _ _ _ Ea2).
  apply (reading_skip [2]) in Hm0. set (m2 := skip [2] m1) in *.
  destruct (parses_octet_at 1 (15 :: tl) m2 ltac:(done) Hm0) as [Eo3 Ea3]. rewrite (bind_step _ _ _ _ _ Eo3), (bind_step _ _ _ _ _ Ea3).
  apply (reading_skip [1]) in Hm0. set (m3 := skip [1] m2) in *.
  destruct (parses_octet_at 15 tl m3 ltac:(done) Hm0) as [Eo4 Ea4]. rewrite (bind_step _ _ _ _ _ Eo4), (bind_step _ _ _ _ _ Ea4).
  apply (reading_skip [15]) in Hm0. set (m4 := skip [15] m3) in *.
  rewrite (bind_step _ _ _ _ _ (parses_data (pfx_value (source_guid_prefix_ r)) (pfx_value p) 12 ltac:(by rewrite Hp) ltac:(lia) ltac:(by rewrite Hr, Hp) m4 tail Hm0)).
  unfold m4, m3, m2, m1, m0. rewrite !skip_skip. cbn [app from_option id]. by destruct p.
Qed.

Lemma info_dst_step env q r es tail m :
  pfx_ok q → dest_guid_prefix_ r = q → reading m (pfx_value q ++ tail) →
  process_submessage env (header_of INFO_DST 1 (pfx_value q)) false es r m = Some ((true, r, [], false), skip (pfx_value q) m).
Proof.
  intros [Hq _] Hd Hm. unfold process_submessage. cbn [submessageId header_of INFO_DST Z.eqb Pos.eqb DATA DATA_FRAG GAP ACKNACK NACK_FRAG HEARTBEAT HEARTBEAT_FRAG].
  assert (parses (proc_Submsg_InfoDST (header_of INFO_DST 1 (pfx_value q)) r) (pfx_value q) (true, r)) as Hp.
  { unfold proc_Submsg_InfoDST. eapply parses_first; [by apply parses_flag_endian|].
    eapply parses_last; [apply parses_data; [by rewrite Hq | done | by rewrite Hq]|]. cbn [from_option id].
    assert ((if pfx_neb (GuidPrefix (pfx_value q)) c_GuidPrefix_Unknown then mr_set_dest (GuidPrefix (pfx_value q)) r else r) = r) as ->.
    { destruct (pfx_neb _ _); [|done]. destruct r, q. cbn in *. by subst. }
    apply parses_ret. }
  by rewrite (bind_step _ _ _ _ _ (Hp m tail Hm)).
Qed.

Lemma hb_flag_0 f l : Z.testbit (hb_flags f l) 0 = true.
Proof. by destruct f, l. Qed.
Lemma hb_flag_1 f l : Z.testbit (hb_flags f l) 1 = f.
Proof. by destruct f, l. Qed.
Lemma hb_flag_2 f l : Z.testbit (hb_flags f l) 2 = l.
Proof. by destruct f, l. Qed.

Definition heartbeat_events (r : MessageReceiver) (p : GuidPrefix_t) rid wid first last count isFinal live : list RecvEvent :=
  (λ reader, ProcessHeartbeat reader (Guid p wid) count first last isFinal live [1; 15]) <$> findAllReaders rid r.

Lemma heartbeat_step env rid wid first last count isFinal live es r tail m :
  ent_ok rid → ent_ok wid → sn_wf first → sn_wf last → 0 < snz first → snz first - 1 <= snz last → is_u32 count →
  dest_guid_prefix_ r = participant_prefix env → source_vendor_id_ r = [1; 15] →
  reading m (heartbeat_body rid wid first last count ++ tail) →
  process_submessage env (header_of HEARTBEAT (hb_flags isFinal live) (heartbeat_body rid wid first last count)) false es r m =
    Some ((true, r, heartbeat_events r (source_guid_prefix_ r) rid wid first last count isFinal live, false),
          skip (heartbeat_body rid wid first last count) m).
Proof.
  intros Hrid Hwid Hf Hl Hpos Hle Hc Hd Hv Hm. unfold process_submessage. set (smh := header_of _ _ _).
  cbn [submessageId smh header_of HEARTBEAT Z.eqb Pos.eqb DATA DATA_FRAG GAP ACKNACK NACK_FRAG]. rewrite Hd, pfx_neb_refl. cbn [negb].
  assert (parses (proc_Submsg_Heartbeat smh r) (heartbeat_body rid wid first last count)
    (true, heartbeat_events r (source_guid_prefix_ r) rid wid first last count isFinal live)) as Hp.
  { unfold proc_Submsg_Heartbeat, heartbeat_body. cbn zeta. eapply parses_first; [apply parses_flag_endian, hb_flag_0|].
    eapply parses_bind; [by apply parses_entity|]. eapply parses_bind; [by apply parses_entity|].
    eapply parses_bind; [by apply parses_sn|]. eapply parses_bind; [by apply parses_sn|].
    rewrite sn_leb_snz, snz_zero by first [done | apply sn_ok_wf, sn_ok_zero]. destruct (Z.leb_spec (snz first) 0); [lia|].
    destruct (sn_sub_u32_snz first 1 Hf) as [Hw1 E1]; [zwidth | zwidth |]. rewrite sn_ltb_snz, sn_neb_snz by done.
    replace (_ && _) with false by lia.
    assert (le_split 4 (i32 count) = le_split 4 count) as ->.
    { rewrite <- (le_split_combine (le_split 4 (i32 count))), <- (le_split_combine (le_split 4 count)) by apply le_split_u8.
      rewrite !le_split_length, !le_combine_split. f_equal. change (8 * Z.of_nat 4) with 32. unfold i32, sext.
      change (32 - 1) with 31. destruct (_ <? 2 ^ 31); [by rewrite Z.mod_mod|]. rewrite Zminus_mod, Z.mod_same, Z.sub_0_r, !Z.mod_mod by done. done. }
    eapply parses_last; [by apply parses_uint32|]. cbn [negb]. unfold heartbeat_events, flag. cbn [flags smh header_of].
    rewrite hb_flag_1, hb_flag_2, Hv. apply parses_ret. }
  by rewrite (bind_step _ _ _ _ _ (Hp m tail Hm)).
Qed.

(** The last submessage, whether its handler succeeds or not. *)
Lemma loop_last env fuel es r id fl body m r' es' ig' v :
  is_u8 id → is_u8 fl → Z.testbit fl 0 = true → 0 < Z.of_nat (length body) < 2 ^ 16 → Z.of_nat (length body) mod 4 = 0 →
  reading m (submessage id fl body) →
  (∀ m1, reading m1 body → ∃ bs, process_submessage env (header_of id fl body) false es r m1 = Some ((v, r', es', ig'), skip bs m1)) →
  ∃ m', process_submessages env (S fuel) false es r m = Some ((r', es ++ es', true), m').
Proof.
  intros Hid Hfl Hbit Hlen H4 Hm Hstep. rewrite <- (app_nil_r (submessage id fl body)) in Hm. destruct v.
  - rewrite (loop_round env fuel es r id fl body [] m r' es' ig'); [|done..|].
    + rewrite loop_end; [by eexists | by apply reading_skip].
    + intros m1. rewrite app_nil_r. apply Hstep.
  - cbn [process_submessages]. rewrite (bind_step _ _ m m m) by done. pose proof (rd_length _ _ Hm) as Hl. rewrite app_nil_r in Hl.
    destruct (Z.ltb_spec (msg_pos m) (msg_length m)); [|unfold submessage in Hl; rewrite length_app in Hl; cbn [length] in Hl; lia].
    destruct (header_parsed smh_default id fl body [] m Hid Hfl Hbit Hlen Hm) as [Eh Hm1]. rewrite app_nil_r in Hm1.
    rewrite (bind_step _ _ _ _ _ Eh). cbn [negb andb]. set (m1 := msg_set_pos (msg_pos m + 4) m) in *. rewrite (bind_step _ _ m1 m1 m1) by done.
    fold (header_of id fl body). destruct (Hstep m1 Hm1) as [bs Eb]. rewrite (bind_step _ _ _ _ _ Eb). by eexists.
Qed.

(** The receiver after the header of a message of [p]. *)
Definition receiver_of (env : Environment) (p : GuidPrefix_t) (r : MessageReceiver) : MessageReceiver :=
  mr_set_timestamp false c_RTPSTimeInvalid
    (mr_set_source (2, 2) [1; 15] p (mr_set_dest (participant_prefix env) (mr_reset r))).

Lemma message_processed env sl rl r p id fl body m v es' :
  let q := participant_prefix env in
  pfx_ok p → pfx_ok q → is_participant_ignored env [] p = false →
  is_u8 id → is_u8 fl → Z.testbit fl 0 = true → 0 < Z.of_nat (length body) < 2 ^ 16 → Z.of_nat (length body) mod 4 = 0 →
  id ≠ FASTDDS_STATISTICS_NETWORK_SUBMESSAGE →
  reading (msg_set_pos 0 m) (enc_header p ++ enc_info_dst q ++ submessage id fl body) →
  (∀ m1, reading m1 body → ∃ bs, process_submessage env (header_of id fl body) false [] (receiver_of env p r) m1 =
     Some ((v, receiver_of env p r, es', false), skip bs m1)) →
  ∃ m', processCDRMsg env sl rl r m = Some ((receiver_of env p r, es' ++ [AssertLiveliness p]), m').
Proof.
  intros q Hp Hq Hig Hid Hfl Hbit Hlen H4 Hst Hm Hstep. unfold processCDRMsg. rewrite (bind_step _ _ m m m) by done.
  pose proof (rd_length _ _ Hm) as Hl. cbn [msg_length msg_set_pos msg_pos] in Hl. rewrite !length_app in Hl.
  assert (length (enc_header p) = 20%nat) as Eh by (unfold enc_header; rewrite !length_app; destruct Hp as [-> _]; done).
  rewrite Eh in Hl. unfold RTPSMESSAGE_HEADER_SIZE. destruct (Z.ltb_spec (msg_length m) 20); [lia|]. cbn zeta.
  rewrite (bind_step _ _ m () (msg_set_pos 0 m)) by done. set (m0 := msg_set_pos 0 m) in *. set (r0 := mr_set_dest _ (mr_reset r)).
  rewrite (bind_step _ _ _ _ _ (header_checked r0 p _ m0 Hp ltac:(done) ltac:(done) Hm)). cbn [negb].
  change (mr_set_timestamp false _ _) with (receiver_of env p r). change (source_guid_prefix_ (receiver_of env p r)) with p. rewrite Hig. cbn [negb].
  apply reading_skip in Hm. set (m1 := skip (enc_header p) m0) in *. set (dst := enc_info_dst q) in *. set (sub := submessage id fl body) in *.
  assert (reading (skip dst m1) sub) as Hm2 by (by apply reading_skip).
  pose proof Hq as [Hq12 _].
  assert (notify_network_statistics sl rl (receiver_of env p r) m1 = Some ([], m1)) as Estat.
  { unfold notify_network_statistics. destruct (_ || _); [done|]. rewrite (bind_step _ _ m1 m1 m1) by done.
    assert (statistics_loop (S (Z.to_nat (msg_length m1))) sl rl (msg_length m1) (receiver_of env p r) m1 = Some ([], skip sub (skip dst m1))) as Eloop.
    { unfold dst, enc_info_dst. rewrite (statistics_round _ _ _ _ _ INFO_DST 1 (pfx_value q) sub m1); [|done..| by rewrite Hq12 | by rewrite Hq12 | done | done | done].
      fold dst. assert (∃ n, Z.to_nat (msg_length m1) = S n) as [n ->].
      { exists (pred (Z.to_nat (msg_length m1))). change (msg_length m1) with (msg_length m). lia. }
      change (msg_length m1) with (msg_length (skip dst m1)). unfold sub. rewrite (statistics_round _ _ _ _ _ id fl body [] (skip dst m1)); [|done..| by rewrite app_nil_r].
      change (msg_length (skip dst m1)) with (msg_length (skip (submessage id fl body) (skip dst m1))). apply statistics_end. apply reading_skip. by rewrite app_nil_r. }
    rewrite (bind_step _ _ _ _ _ Eloop). by destruct m. }
  rewrite (bind_step _ _ _ _ _ Estat), (bind_step _ _ m1 m1 m1) by done.
  unfold dst, enc_info_dst in Hm.
  assert (∃ n, Z.to_nat (msg_length m1) = S n) as [n ->].
  { exists (pred (Z.to_nat (msg_length m1))). change (msg_length m1) with (msg_length m). lia. }
  assert (process_submessages env (S (S n)) false [] (receiver_of env p r) m1 = process_submessages env (S n) false [] (receiver_of env p r) (skip dst m1)) as Er.
  { rewrite (loop_round env (S n) [] _ INFO_DST 1 (pfx_value q) sub m1 (receiver_of env p r) [] false); [done | done..| by rewrite Hq12 | by rewrite Hq12 | done |].
    intros m2 Hm2'. exists (pfx_value q). by apply (info_dst_step env q _ [] sub). }
  destruct (loop_last env n [] (receiver_of env p r) id fl body (skip dst m1) (receiver_of env p r) es' false v) as [m' E]; [done..|].
  rewrite E in Er. cbn [app] in Er. rewrite (bind_step _ _ _ _ _ Er). by eexists.
Qed.

(** The message read back from its start. *)
Lemma put_reading bs m : writing m → msg_pos m = 0 → room (Z.of_nat (length bs)) m → Z.of_nat (length bs) <= 2 ^ 30 →
  reading (msg_set_pos 0 (put bs m)) bs.
Proof.
  intros [(b & Eb & Hb) Hp Hmax Hl He] H0 Hroom Hs. unfold room in Hroom.
  constructor; cbn [msg_pos msg_length msg_endian msg_set_pos put]; [lia | | lia | | lia | done].
  - exists (drop (length bs) b). unfold msg_block. cbn. rewrite Eb, H0. done.
  - unfold msg_block. cbn [msg_buffer msg_set_pos put]. rewrite Eb, H0. cbn [fmap option_fmap option_map from_option id].
    change (Z.to_nat 0) with 0%nat. rewrite take_0. cbn [app Nat.add]. rewrite length_app, length_drop. lia.
Qed.

(** A message of the size of the largest one built here. *)
Definition fresh_message (m : CDRMessage_t) : Prop := writing m ∧ msg_pos m = 0 ∧ room 200 m.

(** A HEARTBEAT message built by a participant for another one is understood: processing it hands
    over to every reader addressed, once, exactly the values it was built from, as coming from the
    participant that built it. *)
Lemma heartbeat_roundtrip env sl rl r p rid wid first last count isFinal live m :
  fresh_message m → pfx_ok p → pfx_ok (participant_prefix env) → is_participant_ignored env [] p = false →
  ent_ok rid → ent_ok wid → sn_wf first → sn_wf last → 0 < snz first → snz first - 1 <= snz last → is_u32 count →
  ∃ ok m1 r' m2, addMessageHeartbeat p (participant_prefix env) rid wid first last count isFinal live m = Some (ok, m1) ∧
    processCDRMsg env sl rl r m1 =
      Some ((r', ((λ reader, ProcessHeartbeat reader (Guid p wid) count first last isFinal live c_VendorId_eProsima) <$> findAllReaders rid r)
                 ++ [AssertLiveliness p]), m2).
Proof.
  intros (Hw & H0 & Hroom) Hp Hq Hig Hrid Hwid Hf Hl Hpos Hle Hc. unfold room in Hroom. set (q := participant_prefix env) in *.
  set (body := heartbeat_body rid wid first last count). set (sub := submessage HEARTBEAT (hb_flags isFinal live) body).
  assert (length body = 28%nat) as Eb.
  { unfold body, heartbeat_body. rewrite !length_app, !enc_sn_length, le_split_length. destruct Hrid as [-> _], Hwid as [-> _]. done. }
  assert (length (enc_header p ++ enc_info_dst q ++ sub) = 68%nat) as Elen.
  { unfold enc_header, enc_info_dst, sub, submessage. rewrite !length_app, !le_split_length, Eb. destruct Hp as [-> _], Hq as [-> _]. done. }
  destruct (appends_message _ p q sub Hp Hq (appends_heartbeat rid wid first last count isFinal live Hrid Hwid) m Hw) as [ok E1]; [unfold room; lia|].
  set (m1 := put _ m) in E1.
  destruct (message_processed env sl rl r p HEARTBEAT (hb_flags isFinal live) body m1 true
    (heartbeat_events (receiver_of env p r) p rid wid first last count isFinal live)) as [m2 E2];
    [done | done | done | done | by destruct isFinal, live | apply hb_flag_0 | rewrite Eb; done | rewrite Eb; done | done | | |].
  - refine (put_reading (enc_header p ++ enc_info_dst q ++ sub) m Hw H0 _ _); [unfold room; rewrite Elen; lia | by rewrite Elen].
  - intros m' Hm'. exists body. apply (heartbeat_step env rid wid first last count isFinal live [] (receiver_of env p r) []);
      [done..|]. by rewrite app_nil_r.
  - by exists ok, m1, (receiver_of env p r), m2.
Qed.

Definition empty_message : CDRMessage_t := msg_init (replicate 300 0) 300.

Lemma empty_message_fresh : fresh_message empty_message.
Proof.
  split; [|done]. constructor; [|done | done | done | done].
  exists (replicate 300 0). done.
Qed.

(** The participant, its endpoints and the sender of the examples. *)
Definition example_env : Environment := {|
  participant_prefix := GuidPrefix (replicate 12 2);
  is_participant_ignored := λ _ _, false;
  process_acknack := λ _ _, Some true;
  process_nack_frag := λ _ _, None
|}.

Definition example_receiver : MessageReceiver :=
  associate_writer 30 (associate_reader (EntityId [0; 0; 1; 7]) 20 (associate_reader (EntityId [0; 0; 1; 4]) 10 mr_make)).

Definition example_sender : GuidPrefix_t := GuidPrefix (seqZ 1 12).

Lemma example_sender_ok : pfx_ok example_sender.
Proof. split; [done | by apply (bool_decide_unpack _)]. Qed.

Lemma example_env_ok : pfx_ok (participant_prefix example_env).
Proof. split; [done | by apply (bool_decide_unpack _)]. Qed.

Lemma example_entity_ok a b c d : bool_decide (Forall is_u8 [a; b; c; d]) = true → ent_ok (EntityId [a; b; c; d]).
Proof. intros H%bool_decide_eq_true. done. Qed.

(** ** ACKNACK *)

Lemma an_flag_0 f : Z.testbit (an_flags f) 0 = true.
Proof. by destruct f. Qed.
Lemma an_flag_1 f : Z.testbit (an_flags f) 1 = f.
Proof. by destruct f. Qed.

Definition acknack_event (q p : GuidPrefix_t) rid wid set count (isFinal : bool) (w : Z) : RecvEvent :=
  ProcessAcknack w (Guid q wid) (Guid p rid) count set isFinal c_VendorId_eProsima.

Lemma acknack_step env rid wid set count isFinal r m :
  ent_ok rid → ent_ok wid → bm_ok set → sn_ok (base_ set) → is_u32 count →
  dest_guid_prefix_ r = participant_prefix env → source_vendor_id_ r = c_VendorId_eProsima →
  reading m (acknack_body rid wid set count) →
  let '(v, es) := offer_to_writers (process_acknack env)
    (acknack_event (participant_prefix env) (source_guid_prefix_ r) rid wid (set_received set) count isFinal) [] (associated_writers_ r) in
  process_submessage env (header_of ACKNACK (an_flags isFinal) (acknack_body rid wid set count)) false [] r m =
    Some ((v, r, es, false), skip (acknack_body rid wid set count) m).
Proof.
  intros Hrid Hwid Hset Hb Hc Hd Hv Hm. destruct (offer_to_writers _ _ _ _) as [v es] eqn:Eo. unfold process_submessage. set (smh := header_of _ _ _).
  cbn [submessageId smh header_of ACKNACK Z.eqb Pos.eqb DATA DATA_FRAG GAP]. rewrite Hd, pfx_neb_refl. cbn [negb].
  assert (parses (proc_Submsg_Acknack env smh [] r) (acknack_body rid wid set count) (v, es)) as Hp.
  { unfold proc_Submsg_Acknack, acknack_body. cbn zeta. eapply parses_first; [apply parses_flag_endian, an_flag_0|].
    eapply parses_bind; [by apply parses_entity|]. eapply parses_bind; [by apply parses_entity|].
    eapply parses_bind; [by apply parses_set|]. eapply parses_last; [by apply parses_uint32|]. cbn [negb].
    unfold flag. cbn [flags smh header_of]. rewrite an_flag_1, Hv, Hd. unfold acknack_event in Eo. rewrite Eo. apply parses_ret. }
  rewrite <- (app_nil_r (acknack_body _ _ _ _)) in Hm. by rewrite (bind_step _ _ _ _ _ (Hp m [] Hm)).
Qed.

Lemma acknack_body_length rid wid set count : ent_ok rid → ent_ok wid → bm_ok set →
  (24 <= length (acknack_body rid wid set count) <= 56)%nat ∧ Z.of_nat (length (acknack_body rid wid set count)) mod 4 = 0.
Proof.
  intros [Hr _] [Hw _] Hset. unfold acknack_body. pose proof (enc_set_length set Hset). split.
  - rewrite !length_app, Hr, Hw, le_split_length. unfold enc_set in *. rewrite !length_app, enc_sn_length, le_split_length in *. lia.
  - unfold enc_set. rewrite !length_app, Hr, Hw, !le_split_length, enc_sn_length, enc_words_length. set (k := length (take _ _)).
    replace (Z.of_nat _) with (Z.of_nat (6 + k) * 4) by lia. apply Z.mod_mul. done.
Qed.

(** C26. An ACKNACK message built by a participant for another one is understood: the writers of the
    other participant are asked in order, until one answers, with the values the message was built
    from and a set with the same base and the same elements. *)
Theorem acknack_roundtrip env sl rl r p rid wid set count isFinal m :
  fresh_message m → pfx_ok p → pfx_ok (participant_prefix env) → is_participant_ignored env [] p = false →
  ent_ok rid → ent_ok wid → bm_ok set → sn_ok (base_ set) → is_u32 count →
  ∃ ok m1 r' m2 set', addMessageAcknack p (participant_prefix env) rid wid set count isFinal m = Some (ok, m1) ∧
    processCDRMsg env sl rl r m1 =
      Some ((r', snd (offer_to_writers (process_acknack env)
                        (λ w, ProcessAcknack w (Guid (participant_prefix env) wid) (Guid p rid) count set' isFinal c_VendorId_eProsima)
                        [] (associated_writers_ r)) ++ [AssertLiveliness p]), m2) ∧
    base_ set' = base_ set ∧ ∀ z, bm_bits set' z = bm_bits set z.
Proof.
  intros (Hw & H0 & Hroom) Hp Hq Hig Hrid Hwid Hset Hb Hc. unfold room in Hroom. set (q := participant_prefix env) in *.
  set (body := acknack_body rid wid set count). set (sub := submessage ACKNACK (an_flags isFinal) body).
  destruct (acknack_body_length rid wid set count Hrid Hwid Hset) as [Hlb H4]. fold body in Hlb, H4.
  assert (Z.of_nat (length (enc_header p ++ enc_info_dst q ++ sub)) = 40 + Z.of_nat (length body)) as Elen.
  { unfold enc_header, enc_info_dst, sub, submessage. rewrite !length_app, !le_split_length. destruct Hp as [-> _], Hq as [-> _]. cbn. lia. }
  destruct (appends_message _ p q sub Hp Hq (appends_acknack rid wid set count isFinal Hrid Hwid Hset) m Hw) as [ok E1]; [unfold room; lia|].
  set (m1 := put _ m) in E1. destruct (set_received_same set Hset Hb) as (Ebase & _ & Hbits).
  pose proof (λ m' Hm', acknack_step env rid wid set count isFinal (receiver_of env p r) m' Hrid Hwid Hset Hb Hc eq_refl eq_refl Hm') as Hstep.
  change (source_guid_prefix_ (receiver_of env p r)) with p in Hstep. change (associated_writers_ (receiver_of env p r)) with (associated_writers_ r) in Hstep.
  destruct (offer_to_writers _ _ _ _) as [v es] eqn:Eo.
  destruct (message_processed env sl rl r p ACKNACK (an_flags isFinal) body m1 v es) as [m2 E2];
    [done | done | done | done | by destruct isFinal | apply an_flag_0 | change (2 ^ 16) with 65536; lia | done | done | | |].
  - refine (put_reading (enc_header p ++ enc_info_dst q ++ sub) m Hw H0 _ _); [unfold room; lia | change (2 ^ 30) with 1073741824; lia].
  - intros m' Hm'. exists body. by apply Hstep.
  - exists ok, m1, (receiver_of env p r), m2, (set_received set). split; [done|]. split; [|done].
    unfold acknack_event in Eo. fold q in Eo. rewrite Eo. done.
Qed.

Definition example_set : SequenceNumberSet_t := foldl (λ b n, fst (bm_add b (SeqNum 0 n))) (bm_make (SeqNum 0 3)) [3; 5; 70].

Lemma example_set_ok : bm_ok example_set.
Proof.
  unfold example_set. cbn [foldl]. repeat (apply bm_add_spec; [|split; [split; cbn; zwidth | by vm_compute]]).
  apply bm_make_ok; [split; [split; cbn; zwidth | by vm_compute] | by vm_compute].
Qed.

Lemma acknack_roundtrip_witness :
  ∃ ok m1 r' m2 set', addMessageAcknack example_sender (participant_prefix example_env) (EntityId [0; 0; 1; 7]) (EntityId [0; 0; 1; 2])
      example_set 7 true empty_message = Some (ok, m1) ∧
    processCDRMsg example_env loc_default loc_default example_receiver m1 =
      Some ((r', [ProcessAcknack 30 (Guid (participant_prefix example_env) (EntityId [0; 0; 1; 2])) (Guid example_sender (EntityId [0; 0; 1; 7]))
                    7 set' true c_VendorId_eProsima; AssertLiveliness example_sender]), m2) ∧
    base_ set' = base_ example_set ∧ ∀ z, bm_bits set' z = bm_bits example_set z.
Proof.
  apply (acknack_roundtrip example_env loc_default loc_default example_receiver example_sender (EntityId [0; 0; 1; 7]) (EntityId [0; 0; 1; 2]));
    [apply empty_message_fresh | apply example_sender_ok | apply example_env_ok | done | by apply example_entity_ok |
     by apply example_entity_ok | apply example_set_ok | by apply (bool_decide_unpack _) | zwidth].
Defined.
