(* ===== verification/DataFragPayload.v ===== *)
(** * The payload of a DATA_FRAG is not checked against its submessage

    [proc_Submsg_DataFrag] computes the size of the payload as what is left of the
    length in the submessage header, in 32 bits and without the check that
    [proc_Submsg_Data] makes. A submessage whose header declares fewer octets than
    the fields before the payload take is accepted with a payload larger than any
    message. *)

From Stdlib Require Import ZArith Lia ZifyBool.
From stdpp Require Import base numbers list option list_numbers.
From S2P Require Import Prelude SequenceNumber BitmapRange Bytes Guid Time CacheChange CDRMessage CDRFacts ParameterList.
From S2P Require Import MessageReceiver MessageReceiverFacts MessageCreator MessageWriting MessageRoundtrip.

Open Scope Z_scope.

(** The octets of a DATA_FRAG from its extra flags to the size of its sample. *)
Definition frag_body (x y octetsToInlineQos : Z) (rid wid : EntityId_t) (sn : SequenceNumber_t) (start n fsize size : Z) : list Z :=
  [x; y] ++ le_split 2 octetsToInlineQos ++ ent_value rid ++ ent_value wid ++ enc_sn sn ++
  le_split 4 start ++ le_split 2 n ++ le_split 2 fsize ++ le_split 4 size.

Lemma parses_int16 d v : 0 <= v < 2 ^ 15 → parses (readInt16 d) (le_split 2 v) (true, v).
Proof.
  intros Hv m tail Hm. assert (is_u16 v) as Hu by (unfold is_u16; zwidth). pose proof (parses_uint16 d v Hu m tail Hm) as H.
  revert H. unfold readInt16, readUInt16. rewrite !(bind_step _ _ m m m) by done. pose proof (reading_left _ _ _ Hm) as Hleft.
  rewrite le_split_length in Hleft. change (Z.of_nat 2) with 2 in Hleft. rewrite Hleft. cbn [negb].
  unfold mbind, CDR_bind. destruct (read_pair m) as [[o m1]|]; [|done]. unfold mret, CDR_ret. intros [= -> ->].
  assert (i16 v = v) as ->; [|done]. unfold i16, sext. rewrite Z.mod_small by zwidth. zif; [done | zwidth].
Qed.

Lemma parses_advance bs n : Z.of_nat (length bs) = n → parses (advance n) bs ().
Proof. intros <- m tail Hm. by apply (reading_advance bs tail). Qed.

Lemma parses_fragment_header start n fsize size :
  is_u32 start → is_u16 n → is_u16 fsize → is_u32 size →
  parses read_fragment_header (le_split 4 start ++ le_split 2 n ++ le_split 2 fsize ++ le_split 4 size)
    (true, {| fh_starting_num := start; fh_fragments_in_submessage := n; fh_fragment_size := fsize; fh_sample_size := size |}).
Proof.
  intros H1 H2 H3 H4. unfold read_fragment_header.
  eapply parses_bind; [by apply parses_uint32|]. eapply parses_bind; [by apply parses_uint16|].
  eapply parses_bind; [by apply parses_uint16|]. eapply parses_last; [by apply parses_uint32|]. apply parses_ret.
Qed.

Lemma parses_jump bs : parses (jump_to_inline_qos (28 + Z.of_nat (length bs)) 28) bs true.
Proof.
  intros m tail Hm. unfold jump_to_inline_qos. destruct (Z.gtb_spec (28 + Z.of_nat (length bs)) 28) as [Hgt|Hle].
  - rewrite (bind_step _ _ _ _ _ (parses_advance bs (28 + Z.of_nat (length bs) - 28) ltac:(lia) m tail Hm)).
    pose proof (reading_skip _ _ _ Hm) as Hs. unfold mbind, CDR_bind, get_msg, mret, CDR_ret.
    pose proof (rd_length _ _ Hs). destruct (Z.gtb_spec (msg_pos (skip bs m)) (msg_length (skip bs m))); [lia | done].
  - assert (bs = []) as -> by (destruct bs; cbn in *; [done | lia]). by rewrite skip_nil.
Qed.

(** A payload of a wrapped size: the end is computed before the start. *)
Lemma take_payload_wraps size k m tail :
  reading m tail → 2 ^ 32 - msg_pos m <= size < 2 ^ 32 → 0 < size →
  ∃ p m', take_payload size k m = Some (Some p, m') ∧ pl_length p = size.
Proof.
  intros [Hp _ Hl _ Hs _] Hsize Hpos. unfold take_payload, mbind, CDR_bind, get_msg, modify_msg, mret, CDR_ret.
  assert (u32 (msg_pos m + size) = msg_pos m + size - 2 ^ 32) as ->.
  { unfold u32. rewrite <- (Z.mod_small (msg_pos m + size - 2 ^ 32) (2 ^ 32)) by zwidth.
    replace (msg_pos m + size) with (msg_pos m + size - 2 ^ 32 + 1 * 2 ^ 32) at 1 by lia. by rewrite Z.mod_add. }
  destruct (Z.geb_spec (msg_length m) (msg_pos m + size - 2 ^ 32)); [|lia]. destruct (Z.gtb_spec size 0); [|lia]. cbn [andb].
  by eexists _, _.
Qed.

(** One step of a handler that [H] says can be parsed. *)
Ltac parse H Hr :=
  rewrite (bind_step _ _ _ _ _ (H _ _ Hr)); apply reading_skip in Hr.

(** C39. The size of the payload of a DATA_FRAG is not checked. Take any little-endian DATA_FRAG with a positive
    number and without inline QoS, for a reader of the participant and wherever it stands in a message,
    whose header declares at least the 24 octets the code asks for but fewer than its fields and the
    octets to skip before the payload take (at most 2^15). It is accepted, and the payload that is
    handed to the readers has the missing octets less than 2^32, far more than the message has. *)
Theorem data_frag_payload_unchecked smh r x y rid wid sn start n fsize size extra tail m :
  let o := 28 + Z.of_nat (length extra) in
  reading m (frag_body x y o rid wid sn start n fsize size ++ extra ++ tail) →
  flag 0 smh = true → flag 1 smh = false → RTPSMESSAGE_DATA_MIN_LENGTH <= submessageLength smh < 4 + o → o < 2 ^ 15 →
  ent_ok rid → ent_ok wid → sn_wf sn → 0 < snz sn → is_u32 start → is_u16 n → is_u16 fsize → is_u32 size →
  fst (willAReaderAcceptMsgDirectedTo rid r) = true →
  ∃ ch m', proc_Submsg_DataFrag smh r m =
      Some ((true, (λ reader, ProcessDataFrag reader ch size start n) <$> findAllReaders rid r), m') ∧
    pl_length (serializedPayload (rc_change ch)) = 2 ^ 32 - (4 + o - submessageLength smh) ∧
    msg_length m < pl_length (serializedPayload (rc_change ch)).
Proof.
  intros o Hm Hf0 Hf1 HL Ho Hrid Hwid Hsn Hpos H1 H2 H3 H4 Hacc. unfold frag_body in Hm.
  rewrite <- !app_assoc in Hm. unfold RTPSMESSAGE_DATA_MIN_LENGTH in HL.
  unfold proc_Submsg_DataFrag, RTPSMESSAGE_DATA_MIN_LENGTH. destruct (Z.ltb_spec (submessageLength smh) 24); [lia|]. cbv zeta.
  assert (reading m ([x; y] ++ le_split 2 o ++ ent_value rid ++ ent_value wid ++ enc_sn sn ++
    (le_split 4 start ++ le_split 2 n ++ le_split 2 fsize ++ le_split 4 size) ++ extra ++ tail)) as Hr by (by rewrite <- !app_assoc).
  assert (0 <= o < 2 ^ 15) as Ho' by lia.
  rewrite (bind_step _ _ _ _ _ (parses_flag_endian smh Hf0 m _ Hm)), skip_nil.
  parse (parses_advance [x; y] 2 eq_refl) Hr. parse (parses_int16 0 o Ho') Hr. parse (parses_entity c_EntityId_Unknown rid Hrid) Hr.
  rewrite Hacc. cbn [negb]. parse (parses_entity c_EntityId_Unknown wid Hwid) Hr. parse (parses_sn sn_zero sn Hsn) Hr.
  rewrite sn_leb_snz, snz_zero by first [done | apply sn_ok_wf, sn_ok_zero]. destruct (Z.leb_spec (snz sn) 0); [lia|].
  parse (parses_fragment_header start n fsize size H1 H2 H3 H4) Hr. cbn [andb negb].
  change RTPSMESSAGE_OCTETSTOINLINEQOS_DATAFRAGSUBMSG with 28. parse (parses_jump extra) Hr. cbn [negb]. rewrite Hf1.
  unfold read_inline_qos. rewrite (bind_step (mret _) _ _ _ _ eq_refl). cbn [negb].
  set (m1 := skip extra _) in *.
  assert (msg_pos m1 = msg_pos m + 4 + o ∧ msg_length m1 = msg_length m) as [Epos Elen].
  { subst m1. split; [|done]. cbn [skip msg_set_pos msg_pos]. rewrite !length_app, !le_split_length, enc_sn_length.
    destruct Hrid as [-> _], Hwid as [-> _]. cbn [length]. lia. }
  pose proof (rd_pos _ _ Hm). pose proof (rd_small _ _ Hr) as Hsmall. change (2 ^ 30) with 1073741824 in Hsmall.
  change RTPSMESSAGE_DATA_EXTRA_INLINEQOS_SIZE with 4.
  assert (u32 (submessageLength smh - u32 (4 + o + 0)) = 2 ^ 32 - (4 + o - submessageLength smh)) as ->.
  { rewrite (u32_small (4 + o + 0)) by zwidth. unfold u32.
    rewrite <- (Z.mod_small (2 ^ 32 - (4 + o - submessageLength smh)) (2 ^ 32)) by zwidth.
    replace (2 ^ 32 - (4 + o - submessageLength smh)) with (submessageLength smh - (4 + o + 0) + 1 * 2 ^ 32) by lia. by rewrite Z.mod_add. }
  destruct (take_payload_wraps (2 ^ 32 - (4 + o - submessageLength smh)) (flag 2 smh) m1 tail Hr) as (p & m' & Ep & El); [zwidth | zwidth|].
  rewrite (bind_step _ _ _ _ _ Ep). cbn [fh_fragment_size fh_sample_size fh_starting_num fh_fragments_in_submessage].
  assert (∃ c, setFragmentSize fsize false (cc_set_payload p (rc_change
    (received_change (Guid (source_guid_prefix_ r) wid) sn (source_vendor_id_ r)))) = Some c ∧ serializedPayload c = p) as (c & Ec & Ecp).
  { unfold setFragmentSize. destruct (fsize >? 0); eexists; split; done. }
  rewrite Ec. eexists _, m'. split; [done|].
  assert (∀ ch, serializedPayload (rc_change (with_timestamp r ch)) = serializedPayload (rc_change ch)) as Ets
    by (intros ch; unfold with_timestamp; by destruct (have_timestamp_ r)).
  rewrite Ets. cbn [rc_update rc_change]. rewrite Ecp, El. split; [done|]. rewrite <- Elen. zwidth.
Qed.

(** A DATA_FRAG that declares 24 octets, eight less than its fields take. *)
Definition example_frag : list Z :=
  frag_body 0 0 28 (EntityId [0; 0; 1; 4]) (EntityId [0; 0; 1; 2]) (SeqNum 0 5) 1 1 100 1000.
Definition example_frag_message : CDRMessage_t := msg_set_pos 0 (put example_frag empty_message).

Lemma data_frag_payload_unchecked_witness :
  ∃ ch m', proc_Submsg_DataFrag {| submessageId := 0x16; submessageLength := 24; flags := 1; is_last := false |} example_receiver
      example_frag_message = Some ((true, [ProcessDataFrag 10 ch 1000 1 1]), m') ∧
    pl_length (serializedPayload (rc_change ch)) = 2 ^ 32 - 8 ∧
    msg_length example_frag_message < pl_length (serializedPayload (rc_change ch)).
Proof.
  apply (data_frag_payload_unchecked {| submessageId := 0x16; submessageLength := 24; flags := 1; is_last := false |} example_receiver
    0 0 (EntityId [0; 0; 1; 4]) (EntityId [0; 0; 1; 2]) (SeqNum 0 5) 1 1 100 1000 [] [] example_frag_message);
    try (vm_compute; first [reflexivity | done | split; done]); try (by apply example_entity_ok).
  destruct empty_message_fresh as (Hw & H0 & _).
  apply (put_reading example_frag empty_message Hw H0); by vm_compute.
Defined.
