(* ===== verification/Reassembly.v ===== *)
(** * Reassembly of fragmented changes

    Correctness of the list of missing fragments that [CacheChange_t] threads
    through its payload buffer (include/fastdds/rtps/common/CacheChange.hpp).
    [links data f l] is the representation predicate: from the fragment [f] on, the
    links found in the buffer visit exactly the fragments of [l]. Links live inside
    of the octets of the missing fragments, so that removing fragments from the
    list and copying their octets do not disturb the rest of it. *)

From Stdlib Require Import ZArith Lia ZifyBool Sorting.Sorted.
From stdpp Require Import base numbers list option list_numbers.
From S2P Require Import Prelude SequenceNumber BitmapRange BitmapFacts Bytes Guid Time CacheChange.

Open Scope Z_scope.

(** Number of fragments of [fs] octets of a payload of [len] octets. *)
Definition fragments_of (fs len : Z) : Z := (len + fs - 1) / fs.

(** The sizes for which the links are inside of the buffer of [cap] octets, each one inside of its
    fragment or, for the last one, after the payload. *)
Record geometry (fs len cap : Z) : Prop := {
  geo_fs : 0 < fs < 2 ^ 16;
  geo_link : fs mod 4 = 0 ∨ 7 <= fs;
  geo_len : 0 < len <= cap;
  geo_last : next_fragment_pointer fs (fragments_of fs len - 1) + 4 <= cap;
  geo_cap : cap <= 2 ^ 31
}.

Section List_of_missing.
Context (fs len cap : Z) (Hgeo : geometry fs len cap).

Abbreviation count := (fragments_of fs len).
Abbreviation link := (next_fragment_pointer fs).

Lemma count_bounds : 0 < count ∧ fs * (count - 1) < len <= fs * count.
Proof.
  destruct Hgeo as [Hfs _ Hlen _ _]. unfold fragments_of. pose proof (Z.div_mod (len + fs - 1) fs ltac:(lia)) as E.
  pose proof (Z.mod_pos_bound (len + fs - 1) fs ltac:(lia)). nia.
Qed.

Lemma link_bounds i : 0 <= i < count → fs * i <= link i ∧ link i + 4 <= cap ∧ (i + 1 < count → link i + 4 <= fs * (i + 1)).
Proof.
  intros Hi. pose proof count_bounds as [_ Hc]. destruct Hgeo as [Hfs Hal Hlen Hlast Hcap].
  assert (fs * i <= fs * (count - 1)) by (apply Z.mul_le_mono_nonneg_l; lia). assert (0 <= fs * i) by (apply Z.mul_nonneg_nonneg; lia).
  assert (link i = fs * i + 3 - (fs * i + 3) mod 4) as El.
  { unfold next_fragment_pointer. change 0xfffffffc with (2 ^ 32 - 4). rewrite (u64_small (fs * i)), (u64_small (fs * i + 3)) by zwidth. apply align_down. zwidth. }
  pose proof (Z.mod_pos_bound (fs * i + 3) 4 ltac:(lia)).
  assert (i + 1 < count → link i + 4 <= fs * (i + 1)) as Hin.
  { intros _. rewrite El. destruct Hal as [H4|H7]; [|lia].
    rewrite (Z.add_mod (fs * i)), (Z.mul_mod fs), H4 by lia. change ((0 * (i mod 4)) mod 4 + 3 mod 4) with 3. change (3 mod 4) with 3.
    pose proof (Z.div_mod fs 4 ltac:(lia)). lia. }
  split; [lia|]. split; [|done]. destruct (Z.eq_dec i (count - 1)) as [->|]; [done|].
  assert (fs * (i + 1) <= fs * (count - 1)) by (apply Z.mul_le_mono_nonneg_l; lia). lia.
Qed.

Lemma links_apart i j : 0 <= i < count → 0 <= j < count → i ≠ j → link i + 4 <= link j ∨ link j + 4 <= link i.
Proof.
  intros Hi Hj Hne. pose proof (link_bounds i Hi) as (? & _ & Hi'). pose proof (link_bounds j Hj) as (? & _ & Hj').
  destruct Hgeo as [Hfs _ _ _ _]. destruct (Z.lt_total i j) as [Hlt|[?|Hlt]]; [|done|].
  - assert (fs * (i + 1) <= fs * j) by (apply Z.mul_le_mono_nonneg_l; lia). lia.
  - assert (fs * (j + 1) <= fs * i) by (apply Z.mul_le_mono_nonneg_l; lia). lia.
Qed.

(** The links from [f] on visit the fragments of [l] and stop at the number of fragments. *)
Fixpoint links (data : list Z) (f : Z) (l : list Z) : Prop :=
  match l with
  | [] => f = count
  | i :: l' => f = i ∧ ∃ next, get_next_missing_fragment data fs i = Some next ∧ links data next l'
  end.

Definition indexes (l : list Z) : Prop := StronglySorted Z.lt l ∧ Forall (λ i, 0 <= i < count) l.

Lemma indexes_tail i l : indexes (i :: l) → 0 <= i < count ∧ indexes l ∧ Forall (Z.lt i) l.
Proof. intros [Hs Hr]. apply StronglySorted_inv in Hs as [Hs Hi]. apply Forall_cons in Hr as [Hr Hrs]. split; [done|]. by split. Qed.

Lemma filter_keeps (Q : Z → Prop) (P : Z → bool) l : Forall Q l → Forall Q (filter P l).
Proof. induction 1 as [|i l Hi _ IH]; [done|]. rewrite filter_cons. case_decide; [by constructor | done]. Qed.

Lemma indexes_filter (P : Z → bool) l : indexes l → indexes (filter P l).
Proof.
  intros [Hs Hr]. split; [|by apply filter_keeps]. induction Hs as [|i l Hs IH Hi]; [constructor|].
  apply Forall_cons in Hr as [_ Hr]. rewrite filter_cons. case_decide; [|auto]. constructor; [auto | by apply filter_keeps].
Qed.

Lemma indexes_length l : indexes l → Z.of_nat (length l) <= count.
Proof.
  pose proof count_bounds as [Hc _]. intros [Hs Hr].
  assert (∀ a, a <= count → Forall (λ i, a <= i) l → Z.of_nat (length l) <= count - a) as H.
  { induction Hs as [|i l Hs IH Hi]; intros a Hac Ha; [cbn; lia|]. apply Forall_cons in Hr as [Hri Hr]. apply Forall_cons in Ha as [Ha _].
    cbn [length]. assert (Z.of_nat (length l) <= count - (i + 1)); [|lia]. apply IH; [done | lia |].
    eapply Forall_impl; [exact Hi|]. cbn. lia. }
  rewrite <- (Z.sub_0_r count). apply H; [lia|]. eapply Forall_impl; [exact Hr|]. cbn. lia.
Qed.

(** Blocks that differ at most in octets which are not links of [l]. *)
Definition same_links (l : list Z) (data data' : list Z) : Prop :=
  length data' = length data ∧
  ∀ i (j : nat), i ∈ l → link i <= Z.of_nat j < link i + 4 → data' !! j = data !! j.

Lemma next_agree i data data' :
  length data' = length data → (∀ j : nat, link i <= Z.of_nat j < link i + 4 → data' !! j = data !! j) →
  get_next_missing_fragment data' fs i = get_next_missing_fragment data fs i.
Proof. intros Hl H. unfold get_next_missing_fragment, load32. by rewrite (mem_load_agree data' data) by done. Qed.

Lemma links_frame data data' f l : same_links l data data' → links data f l → links data' f l.
Proof.
  intros [Hlen Hsame]. revert f. induction l as [|i l IH]; intros f; cbn [links]; [done|]. intros [-> (next & En & Hl)].
  split; [done|]. exists next. split.
  - rewrite <- En. apply next_agree; [done|]. intros j Hj. apply (Hsame i); [left | done].
  - apply IH; [|done]. intros k j Hk. apply Hsame. by right.
Qed.

(** ** The loops *)

Ltac istrue := rewrite ?Is_true_true in *; lia.

Lemma filter_all (P : Z → bool) l : Forall P l → filter P l = l.
Proof. induction 1 as [|i l Hi _ IH]; [done|]. rewrite filter_cons_True by done. by f_equal. Qed.

Lemma filter_nil_iff (P : Z → bool) l : filter P l = [] ↔ ∀ i, i ∈ l → P i = false.
Proof.
  induction l as [|i l IH]; [split; [by intros _ i Hi%not_elem_of_nil | done]|]. rewrite filter_cons. split.
  - case_decide as Hi; [done|]. intros H k [->|Hk]%elem_of_cons; [by destruct (P i) | by apply IH].
  - intros H. rewrite decide_False by (rewrite (H i ltac:(left)); exact id). apply IH. intros k Hk. apply H. by right.
Qed.

Lemma existsb_none (P : Z → bool) l : Forall (λ i, P i = false) l → existsb P l = false.
Proof. induction 1 as [|i l Hi _ IH]; [done|]. cbn. by rewrite Hi. Qed.

(** [while (f < last) f = get_next_missing_fragment(f)] drops the fragments before [last]. *)
Lemma skip_missing_spec data last l : last <= count → indexes l → ∀ fuel f changed, links data f l → (length l <= fuel)%nat →
  ∃ f', skip_missing fuel data fs last f changed = Some (f', changed || existsb (λ i, i <? last) l) ∧
    links data f' (filter (λ i, last <=? i) l).
Proof.
  intros Hlast. induction l as [|i l IH]; intros Hix fuel f changed Hl Hfuel.
  - cbn in Hl. subst f. exists count. cbn [existsb]. rewrite orb_false_r. split; [|done].
    destruct fuel; cbn [skip_missing]; by replace (count <? last) with false by lia.
  - destruct Hl as [-> (next & En & Hl)]. destruct (indexes_tail _ _ Hix) as (Hi & Hix' & Hlt). cbn [existsb length] in *.
    destruct fuel as [|fuel]; [lia|]. cbn [skip_missing]. destruct (Z.ltb_spec i last).
    + rewrite En. cbn [mbind option_bind]. destruct (IH Hix' fuel next true Hl ltac:(lia)) as (f' & -> & Hf').
      exists f'. rewrite filter_cons_False by istrue. by rewrite orb_true_r.
    + exists i. assert (Forall (λ k, last <=? k) l) as Hge by (eapply Forall_impl; [exact Hlt|]; cbn; intros; istrue).
      rewrite filter_cons_True by istrue. rewrite (filter_all _ l Hge). split; [|by split; [|exists next]].
      rewrite (existsb_none _ l); [by rewrite !orb_false_r|]. eapply Forall_impl; [exact Hlt|]. cbn. lia.
Qed.

Lemma links_head data f l : indexes l → links data f l → 0 <= f <= count.
Proof. pose proof count_bounds as [? _]. destruct l as [|i l]; [cbn; lia|]. intros (? & _)%indexes_tail [-> _]. lia. Qed.

(** Whether a fragment is one of the received ones, which go from [initial] to [last]. *)
Definition received (initial last i : Z) : bool := (initial <=? i) && (i <? last).
Definition still_missing (initial last : Z) (l : list Z) : list Z := filter (λ i, negb (received initial last i)) l.

Lemma still_missing_cons initial last i l :
  still_missing initial last (i :: l) = if received initial last i then still_missing initial last l else i :: still_missing initial last l.
Proof. unfold still_missing. rewrite filter_cons. by destruct (received initial last i). Qed.

(** After [initial], the fragments that remain are the ones from [last] on. *)
Lemma still_missing_after initial last l : Forall (λ i, initial <= i) l →
  still_missing initial last l = filter (λ i, last <=? i) l ∧
  existsb (received initial last) l = existsb (λ i, i <? last) l.
Proof.
  induction 1 as [|i l Hi _ [IH1 IH2]]; [done|]. rewrite still_missing_cons. cbn [existsb]. rewrite IH2, IH1.
  unfold received. replace (initial <=? i) with true by lia. cbn [andb]. split; [|done].
  destruct (Z.ltb_spec i last); [rewrite filter_cons_False by istrue | rewrite filter_cons_True by istrue]; done.
Qed.

Lemma existsb_false_keep last l : existsb (λ i, i <? last) l = false → filter (λ i, last <=? i) l = l.
Proof.
  induction l as [|i l IH]; [done|]. cbn [existsb]. intros [H1 H2]%orb_false_elim. rewrite filter_cons_True by istrue. by rewrite IH.
Qed.

(** The block changes at most in links of [l]. *)
Definition only_links (l : list Z) (data data' : list Z) : Prop :=
  length data' = length data ∧
  ∀ j : nat, (∀ i, i ∈ l → ¬ link i <= Z.of_nat j < link i + 4) → data' !! j = data !! j.

Lemma only_links_refl l data : only_links l data data.
Proof. done. Qed.

(** Setting the link of the fragment before the removed ones. *)
Lemma relink data i f' l : Z.of_nat (length data) = cap → indexes (i :: l) → links data f' l →
  ∃ data', set_next_missing_fragment data fs i f' = Some data' ∧ links data' i (i :: l) ∧ only_links (i :: l) data data'.
Proof.
  intros Hcap Hix Hl. destruct (indexes_tail _ _ Hix) as (Hi & Hix' & Hlt). pose proof (link_bounds i Hi) as (? & ? & _).
  pose proof (links_head _ _ _ Hix' Hl). pose proof count_bounds as [? ?]. destruct Hgeo as [Hfs _ Hlen _ Hc].
  destruct (store32_spec data (link i) f') as (data' & E & Hlen' & Hload & Hout); [nia | lia | assert (count <= fs * count) by nia; zwidth |].
  exists data'. split; [done|]. split.
  - split; [done|]. exists f'. split; [done|]. apply (links_frame data); [|done]. split; [done|].
    intros k j Hk Hj. apply Hout. rewrite Forall_forall in Hlt. pose proof (Hlt k Hk).
    destruct Hix' as [_ Hr]. rewrite Forall_forall in Hr. pose proof (links_apart i k Hi (Hr k Hk) ltac:(lia)). lia.
  - split; [done|]. intros j Hj. apply Hout. specialize (Hj i ltac:(left)). lia.
Qed.

(** The search for the fragment before [initial] and the removal of the ones before [last]. *)
Lemma unlink_missing_spec data initial last l :
  Z.of_nat (length data) = cap → last <= count → initial < count → indexes l →
  ∀ fuel f, links data f l → (length l <= fuel)%nat → f < initial →
  ∃ data', unlink_missing fuel data fs initial last f = Some (data', existsb (received initial last) l) ∧
    links data' f (still_missing initial last l) ∧ only_links (still_missing initial last l) data data'.
Proof.
  intros Hcap Hlast Hinit. induction l as [|i l IH]; intros Hix fuel f Hl Hfuel Hf; [cbn in Hl; lia|].
  destruct Hl as [-> (next & En & Hl)]. destruct (indexes_tail _ _ Hix) as (Hi & Hix' & Hlt). cbn [length] in Hfuel.
  destruct fuel as [|fuel]; [lia|]. cbn [unlink_missing existsb]. replace (i <? initial) with true by lia. rewrite En. cbn [mbind option_bind].
  rewrite still_missing_cons. replace (received initial last i) with false by (unfold received; lia). cbn [orb].
  destruct (Z.geb_spec next initial) as [Hn|Hn].
  - assert (Forall (λ k, initial <= k) l) as Hge.
    { destruct l as [|k l]; [done|]. destruct Hl as [-> _]. apply indexes_tail in Hix' as (_ & _ & Hk). constructor; [done|].
      eapply Forall_impl; [exact Hk|]. cbn. lia. }
    destruct (still_missing_after initial last l Hge) as [-> ->].
    destruct (skip_missing_spec data last l Hlast Hix' fuel next false Hl ltac:(lia)) as (f' & -> & Hf'). cbn [mbind option_bind orb].
    destruct (existsb (λ k, k <? last) l) eqn:Ex.
    + destruct (relink data i f' (filter (λ k, last <=? k) l)) as (data' & -> & Hl' & Hon); [done | | done | exists data'; split; [done|]; split; [exact Hl' | exact Hon]].
      split; [constructor; [by apply indexes_filter | by apply filter_keeps] | constructor; [done | by apply indexes_filter]].
    + exists data. rewrite (existsb_false_keep _ _ Ex). split_and!; [done | split; [done | by exists next] | apply only_links_refl].
  - destruct (IH Hix' fuel next Hl ltac:(lia) ltac:(lia)) as (data' & -> & Hl' & Hlen & Hon). exists data'. split; [done|]. split; [|split; [done|]].
    + split; [done|]. exists next. split; [|done]. rewrite <- En. apply next_agree; [done|]. intros j Hj. apply Hon. intros k [_ Hk]%list_elem_of_filter.
      rewrite Forall_forall in Hlt. pose proof (Hlt k Hk). destruct Hix' as [_ Hr]. rewrite Forall_forall in Hr.
      pose proof (links_apart i k Hi (Hr k Hk) ltac:(lia)). lia.
    + intros j Hj. apply Hon. intros k Hk. apply Hj. by right.
Qed.

(** ** The change *)

Lemma existsb_received_elem initial last l : existsb (received initial last) l = false → ∀ i, i ∈ l → received initial last i = false.
Proof.
  intros H i Hi. destruct (received initial last i) eqn:E; [|done]. rewrite <- H. symmetry. apply existsb_exists. exists i. split; [by apply list_elem_of_In | done].
Qed.

Lemma elem_still_missing initial last l i : i ∈ still_missing initial last l ↔ received initial last i = false ∧ i ∈ l.
Proof. unfold still_missing. rewrite list_elem_of_filter, Is_true_true, negb_true_iff. done. Qed.

(** The fields [received_fragments] and [add_fragments] leave alone. *)
Definition same_shape (c c' : CacheChange_t) : Prop :=
  fragment_size_ c' = fragment_size_ c ∧ fragment_count_ c' = fragment_count_ c ∧
  pl_length (serializedPayload c') = pl_length (serializedPayload c) ∧
  pl_is_serialized_key (serializedPayload c') = pl_is_serialized_key (serializedPayload c).

Abbreviation data_of c := (pl_data (serializedPayload c)).

Lemma received_fragments_spec initial n l c :
  fragment_size_ c = fs → fragment_count_ c = count → Z.of_nat (length (data_of c)) = cap →
  indexes l → links (data_of c) (first_missing_fragment_ c) l → 0 <= initial → 0 < n → initial + n <= count →
  ∃ c', received_fragments initial n c = Some (existsb (received initial (initial + n)) l, c') ∧ same_shape c c' ∧
    links (data_of c') (first_missing_fragment_ c') (still_missing initial (initial + n) l) ∧
    only_links (still_missing initial (initial + n) l) (data_of c) (data_of c').
Proof.
  intros Efs Ecount Hcap Hix Hl H0 Hn Hle. pose proof count_bounds as [? ?]. pose proof (indexes_length l Hix).
  assert (count <= fs * count) by (destruct Hgeo; nia). destruct Hgeo as [Hfs _ Hlen _ Hc]. unfold received_fragments. rewrite Efs, Ecount.
  replace (fs >? 0) with true by lia. replace (initial <? count) with true by lia. cbn [andb]. rewrite u32_small by zwidth.
  replace (initial + n >? count) with false by lia. destruct (Z.leb_spec initial (first_missing_fragment_ c)) as [Hf|Hf].
  - assert (Forall (λ k, initial <= k) l) as Hge.
    { destruct l as [|k l]; [done|]. destruct Hl as [Ef _]. apply indexes_tail in Hix as (_ & _ & Hk). constructor; [lia|].
      eapply Forall_impl; [exact Hk|]. cbn. lia. }
    destruct (still_missing_after initial (initial + n) l Hge) as [-> ->].
    destruct (skip_missing_spec (data_of c) (initial + n) l Hle Hix (S (Z.to_nat count)) _ false Hl ltac:(lia)) as (f' & -> & Hf').
    eexists. split; [done|]. split; [unfold same_shape; cbn; by rewrite Efs, Ecount|]. by split.
  - destruct (unlink_missing_spec (data_of c) initial (initial + n) l Hcap Hle ltac:(lia) Hix (S (Z.to_nat count)) _ Hl ltac:(lia) Hf) as (data' & -> & Hl' & Hon).
    eexists. split; [done|]. split; [unfold same_shape; cbn; by rewrite Efs, Ecount|]. by split.
Qed.

(** The octets of a fragment hold no links of other fragments. *)
Lemma octet_no_link i k (j : nat) : 0 <= i < count → 0 <= k < count → i ≠ k →
  fs * i <= Z.of_nat j < fs * (i + 1) → ¬ link k <= Z.of_nat j < link k + 4.
Proof.
  intros Hi Hk Hne Hj. pose proof (link_bounds k Hk) as (? & _ & Hk'). destruct Hgeo as [Hfs _ _ _ _].
  destruct (Z.lt_total i k) as [Hlt|[?|Hlt]]; [|done|].
  - assert (fs * (i + 1) <= fs * k) by (apply Z.mul_le_mono_nonneg_l; lia). lia.
  - assert (fs * (k + 1) <= fs * i) by (apply Z.mul_le_mono_nonneg_l; lia). lia.
Qed.

(** The octets of the fragments which are not missing are the ones of the sample [s]. *)
Definition assembled (s data l : list Z) : Prop :=
  ∀ i (j : nat), 0 <= i < count → i ∉ l → fs * i <= Z.of_nat j < fs * (i + 1) → Z.of_nat j < len → data !! j = s !! j.

Lemma assembled_relinked s data data' l l' : indexes l' → (∀ i, i ∈ l' → i ∈ l) → only_links l' data data' →
  assembled s data l → assembled s data' l.
Proof.
  intros [_ Hr] Hsub [_ Hon] Hs i j Hi Hil Hj Hjl. rewrite Hon; [by apply (Hs i)|]. intros k Hk. rewrite Forall_forall in Hr.
  apply (octet_no_link i); [done | by apply Hr | intros -> | done]. auto.
Qed.

(** The copy of the octets of the fragments from [k0] on. *)
Lemma copied s k0 n data data' l :
  Z.of_nat (length s) = len → 0 <= k0 → 0 < n → k0 + n <= count → indexes l → assembled s data l →
  mem_store data (fs * k0) (take (Z.to_nat (fs * n)) (drop (Z.to_nat (fs * k0)) s)) = Some data' →
  assembled s data' (still_missing k0 (k0 + n) l) ∧ same_links (still_missing k0 (k0 + n) l) data data'.
Proof.
  intros Hs H0 Hn Hle [_ Hr] Has E. destruct (mem_store_lookup _ _ _ _ E) as (Hlen & Hout & Hin).
  assert (0 < fs) as Hfs by (destruct Hgeo; lia). assert (0 <= fs * k0) by nia. rewrite length_take, length_drop in Hout, Hin.
  assert (fs * (k0 + n) = fs * k0 + fs * n) as Eend by lia. split; [|split; [done|]].
  - intros i j Hi Hil Hj Hjl. destruct (received k0 (k0 + n) i) eqn:Er; unfold received in Er.
    + assert (fs * k0 <= fs * i) by (apply Z.mul_le_mono_nonneg_l; lia). assert (fs * (i + 1) <= fs * (k0 + n)) by (apply Z.mul_le_mono_nonneg_l; lia).
      replace j with (Z.to_nat (fs * k0) + (j - Z.to_nat (fs * k0)))%nat at 1 by lia. rewrite Hin by lia.
      rewrite lookup_take_lt, lookup_drop by lia. f_equal. lia.
    + rewrite Hout; [apply (Has i); [done | | done | done]; rewrite elem_still_missing in Hil; unfold received in Hil; tauto|].
      destruct (Z.lt_ge_cases i k0).
      * assert (fs * (i + 1) <= fs * k0) by (apply Z.mul_le_mono_nonneg_l; lia). lia.
      * assert (fs * (k0 + n) <= fs * i) by (apply Z.mul_le_mono_nonneg_l; lia). lia.
  - intros k j [Hk Hkl]%elem_still_missing Hj. rewrite Forall_forall in Hr. pose proof (Hr k Hkl) as Hkr.
    pose proof (link_bounds k Hkr) as (? & _ & Hk'). unfold received in Hk. apply Hout. destruct (Z.lt_ge_cases k k0).
    + assert (fs * (k + 1) <= fs * k0) by (apply Z.mul_le_mono_nonneg_l; lia). lia.
    + assert (fs * (k0 + n) <= fs * k) by (apply Z.mul_le_mono_nonneg_l; lia). lia.
Qed.

(** A change that is being reassembled from the sample [s], with the fragments of [l] missing. *)
Record reassembling (s : list Z) (key : bool) (l : list Z) (c : CacheChange_t) : Prop := {
  ra_fs : fragment_size_ c = fs;
  ra_count : fragment_count_ c = count;
  ra_length : pl_length (serializedPayload c) = len;
  ra_cap : Z.of_nat (length (data_of c)) = cap;
  ra_key : pl_is_serialized_key (serializedPayload c) = key;
  ra_indexes : indexes l;
  ra_links : links (data_of c) (first_missing_fragment_ c) l;
  ra_octets : assembled s (data_of c) l
}.

(** A submessage that carries [n] fragments of the sample from the number [k] on. *)
Definition carries (s : list Z) (key : bool) (a : SerializedPayload_t * Z * Z) : Prop :=
  let '(p, k, n) := a in
  1 <= k ∧ 1 <= n ∧ k + n - 1 <= count ∧ pl_is_serialized_key p = key ∧
  pl_data p = take (Z.to_nat (fs * n)) (drop (Z.to_nat (fs * (k - 1))) s) ∧ pl_length p = Z.of_nat (length (pl_data p)).

Lemma fully_assembled_iff s key l c : reassembling s key l c → is_fully_assembled c = true ↔ l = [].
Proof.
  intros [_ Hc _ _ _ Hix Hl _]. unfold is_fully_assembled. rewrite Hc. destruct l as [|i l]; [cbn in Hl; split; [done | lia]|].
  apply indexes_tail in Hix as (Hi & _). destruct Hl as [-> _]. split; [lia | done].
Qed.

Lemma add_fragments_spec s key l c p k n :
  Z.of_nat (length s) = len → reassembling s key l c → carries s key (p, k, n) →
  ∃ c', add_fragments p k n c = Some (is_fully_assembled c', c') ∧ reassembling s key (still_missing (k - 1) (k - 1 + n) l) c'.
Proof.
  intros Hs [Efs Ecount Elen Hcap Ekey Hix Hl Has] (Hk & Hn & Hkn & Hkey & Hp & Hpl). pose proof count_bounds as [? ?].
  assert (count <= fs * count) by (destruct Hgeo; nia). pose proof Hgeo as [Hfs _ Hlen _ Hc].
  assert (fs * (k - 1) <= fs * (count - 1)) by (apply Z.mul_le_mono_nonneg_l; lia). assert (0 <= fs * (k - 1)) by (apply Z.mul_nonneg_nonneg; lia).
  assert (fs * (k - 1 + n) <= fs * count) by (apply Z.mul_le_mono_nonneg_l; lia). assert (0 <= fs * n) by (apply Z.mul_nonneg_nonneg; lia).
  set (off := fs * (k - 1)) in *. assert (Z.of_nat (length (pl_data p)) = Z.min (fs * n) (len - off)) as Elp by (rewrite Hp, length_take, length_drop; lia).
  assert (fs * (k - 1 + n) = off + fs * n) as Eend by (unfold off; lia).
  unfold add_fragments. rewrite Efs, Ecount, Elen, Ekey, Hkey, eqb_reflx. cbn [negb].
  rewrite (u32_small (k - 1)) by zwidth. rewrite (Z.mul_comm (k - 1)). fold off. rewrite (u32_small off), (u32_small (fs * n)), (u32_small (k + n - 1)) by zwidth.
  replace (k + n - 1 >? count) with false by lia.
  assert ((if k + n - 1 <? count then fs * n else u32 (len - off)) = Z.of_nat (length (pl_data p)) ∧ (k + n - 1 <? count) && (pl_length p <? fs * n) = false) as [-> ->].
  { destruct (Z.ltb_spec (k + n - 1) count).
    - assert (fs * (k - 1 + n) <= fs * (count - 1)) by (apply Z.mul_le_mono_nonneg_l; lia). rewrite Hpl. split; [lia|]. cbn [andb]. lia.
    - replace (k - 1 + n) with count in * by lia. rewrite u32_small by zwidth. split; [lia | done]. }
  rewrite u32_small by zwidth. replace (off + _ >? len) with false by lia.
  destruct (received_fragments_spec (k - 1) n l c) as (c' & -> & (Hs1 & Hs2 & Hs3 & Hs4) & Hl' & Hon); try done; try lia. cbn [mbind option_bind].
  set (l' := still_missing (k - 1) (k - 1 + n) l) in *. assert (indexes l') as Hix' by by apply indexes_filter.
  assert (assembled s (data_of c') l) as Has'.
  { apply (assembled_relinked s (data_of c) _ l l'); try done. intros i [_ Hi]%elem_still_missing. done. }
  destruct (existsb _ l) eqn:Ex.
  - rewrite mem_load_Some by lia. change (Z.to_nat 0) with 0%nat. rewrite drop_0, Nat2Z.id, take_ge by lia. cbn [mbind option_bind].
    destruct (mem_store (data_of c') off (pl_data p)) as [data|] eqn:Est; [|by rewrite mem_store_Some in Est by (destruct Hon; lia)].
    rewrite Hp in Est. destruct (copied s (k - 1) n (data_of c') data l) as [Has'' Hsame]; try done; try lia. cbn [mbind option_bind].
    eexists. split; [done|]. split; cbn; try congruence; try assumption; [destruct Hon, Hsame; lia | by apply (links_frame (data_of c'))].
  - exists c'. split; [done|]. split; try congruence; try assumption; [destruct Hon; lia|]. intros i j Hi Hil. apply (Has' i j Hi). intros Hil'. apply Hil.
    apply elem_still_missing. split; [by apply (existsb_received_elem _ _ l) | done].
Qed.

(** ** All the fragments *)

Lemma seqZ_sorted (n : nat) a : StronglySorted Z.lt (seqZ a (Z.of_nat n)).
Proof.
  revert a. induction n as [|n IH]; intros a; [constructor|]. rewrite seqZ_cons by lia. replace (Z.pred (Z.of_nat (S n))) with (Z.of_nat n) by lia.
  constructor; [apply IH|]. apply Forall_forall. intros x Hx%elem_of_seqZ. lia.
Qed.

Lemma indexes_seqZ a n : 0 <= a → 0 <= n → a + n <= count → indexes (seqZ a n).
Proof.
  intros Ha Hn Hle. split; [rewrite <- (Z2Nat.id n) by lia; apply seqZ_sorted|]. apply Forall_forall. intros x Hx%elem_of_seqZ. lia.
Qed.

Lemma create_fragment_list_spec (n : nat) : ∀ i data, 1 <= i → i - 1 + Z.of_nat n = count → Z.of_nat (length data) = cap →
  ∃ data', create_fragment_list n fs i data = Some data' ∧ links data' (i - 1) (seqZ (i - 1) (Z.of_nat n)) ∧
    only_links (seqZ (i - 1) (Z.of_nat n)) data data'.
Proof.
  pose proof count_bounds as [? ?]. assert (count <= fs * count) by (destruct Hgeo; nia). pose proof Hgeo as [Hfs _ Hlen _ Hc].
  induction n as [|n IH]; intros i data Hi Hn Hcap; [exists data; split; [done|]; split; [change (i - 1 = count); lia | apply only_links_refl]|].
  cbn [create_fragment_list]. pose proof (link_bounds (i - 1) ltac:(lia)) as (? & ? & _).
  destruct (store32_spec data (link (i - 1)) i) as (data1 & E1 & Hlen1 & Hload & Hout1); [nia | lia | zwidth |].
  unfold set_next_missing_fragment. rewrite E1. cbn [mbind option_bind].
  destruct (IH (i + 1) data1) as (data' & E' & Hl' & Hlen' & Hon'); [lia | lia | lia |]. replace (i + 1 - 1) with i in * by lia.
  rewrite seqZ_cons by lia. replace (Z.succ (i - 1)) with i by lia. replace (Z.pred (Z.of_nat (S n))) with (Z.of_nat n) by lia.
  exists data'. split; [done|]. split; [split; [done|]|split; [congruence|]].
  - exists i. split; [|done]. unfold get_next_missing_fragment in *. rewrite <- Hload. apply (next_agree (i - 1)); [done|].
    intros j Hj. apply Hon'. intros k Hk%elem_of_seqZ. pose proof (links_apart (i - 1) k ltac:(lia) ltac:(lia) ltac:(lia)). lia.
  - intros j Hj. rewrite Hon' by (intros k Hk; apply Hj; by right). apply Hout1. specialize (Hj (i - 1) ltac:(left)). lia.
Qed.

(** A new change misses every fragment. *)
Lemma setFragmentSize_spec s c :
  pl_length (serializedPayload c) = len → Z.of_nat (length (data_of c)) = cap →
  ∃ c', setFragmentSize fs true c = Some c' ∧ reassembling s (pl_is_serialized_key (serializedPayload c)) (seqZ 0 count) c'.
Proof.
  intros Elen Hcap. pose proof count_bounds as [? _]. pose proof Hgeo as [Hfs _ Hlen _ Hc]. unfold setFragmentSize.
  replace (fs >? 0) with true by lia. rewrite Elen, u32_small by zwidth. fold count.
  destruct (create_fragment_list_spec (Z.to_nat count) 1 (data_of c)) as (data & -> & Hl & Hdl & _); [lia | lia | done |].
  rewrite Z2Nat.id in Hl by lia. eexists. split; [done|]. split; cbn; try done; [lia | apply indexes_seqZ; lia |].
  intros i j Hi Hil. destruct Hil. apply elem_of_seqZ. lia.
Qed.

(** Fragment submessages in the order they arrive; the result is the one of the last call. *)
Fixpoint receive_all (arrivals : list (SerializedPayload_t * Z * Z)) (st : bool * CacheChange_t) : option (bool * CacheChange_t) :=
  match arrivals with
  | [] => Some st
  | (p, k, n) :: arrivals' => st' ← add_fragments p k n (snd st); receive_all arrivals' st'
  end.

Definition covered (arrivals : list (SerializedPayload_t * Z * Z)) (i : Z) : bool :=
  existsb (λ '(_, k, n), received (k - 1) (k - 1 + n) i) arrivals.

Lemma receive_all_spec s key arrivals : Z.of_nat (length s) = len → Forall (carries s key) arrivals → ∀ l c, reassembling s key l c →
  ∃ c', receive_all arrivals (is_fully_assembled c, c) = Some (is_fully_assembled c', c') ∧
    reassembling s key (filter (λ i, negb (covered arrivals i)) l) c'.
Proof.
  intros Hs. induction 1 as [|[[p k] n] arrivals Ha _ IH]; intros l c Hc; cbn [receive_all].
  - exists c. split; [done|]. rewrite filter_all; [done|]. by apply Forall_forall.
  - cbn [snd]. destruct (add_fragments_spec s key l c p k n Hs Hc Ha) as (c1 & -> & Hc1). cbn [mbind option_bind].
    destruct (IH _ _ Hc1) as (c' & -> & Hc'). exists c'. split; [done|]. unfold still_missing in Hc'.
    rewrite list_filter_filter in Hc'. replace (filter (λ i, negb (covered ((p, k, n) :: arrivals) i)) l)
      with (filter (λ i, negb (covered arrivals i) ∧ negb (received (k - 1) (k - 1 + n) i)) l); [done|].
    apply list_filter_iff. intros i. unfold covered. cbn [existsb]. rewrite negb_orb, andb_True. tauto.
Qed.

Lemma all_assembled s key c : Z.of_nat (length s) = len → reassembling s key [] c → take (length s) (data_of c) = s.
Proof.
  intros Hs [_ _ _ Hcap _ _ _ Has]. pose proof count_bounds as [? ?]. pose proof Hgeo as [Hfs _ Hlen _ _]. apply list_eq. intros j.
  destruct (decide (j < length s)%nat); [|rewrite lookup_take_ge by lia; symmetry; apply lookup_ge_None; lia].
  rewrite lookup_take_lt by lia. pose proof (Z.div_mod (Z.of_nat j) fs ltac:(lia)). pose proof (Z.mod_pos_bound (Z.of_nat j) fs ltac:(lia)).
  apply (Has (Z.of_nat j / fs)); [|by apply not_elem_of_nil | lia | lia]. split; [apply Z.div_pos; lia | apply Z.div_lt_upper_bound; lia].
Qed.
End List_of_missing.

(** ** The request for the missing fragments *)

Lemma missing_fragments_loop_spec fs len cap data l : geometry fs len cap → indexes fs len l → ∀ fuel f frags, links fs len data f l → (length l <= fuel)%nat →
  missing_fragments_loop fuel data fs (fragments_of fs len) f frags =
    Some (foldl (λ b i, fst (bm_add b (i + 1 : FragmentNumber_t))) frags l).
Proof.
  intros Hgeo. pose proof (count_bounds fs len cap Hgeo) as [? ?]. assert (fragments_of fs len <= fs * fragments_of fs len) by (destruct Hgeo; nia).
  pose proof Hgeo as [Hfs _ Hlen _ Hc]. induction l as [|i l IH]; intros Hix fuel f frags Hl Hfuel.
  - cbn in Hl. subst f. destruct fuel; cbn [missing_fragments_loop]; by rewrite Z.ltb_irrefl.
  - destruct Hl as [-> (next & En & Hl)]. destruct (indexes_tail _ _ _ _ Hix) as (Hi & Hix' & _). cbn [length] in Hfuel. destruct fuel as [|fuel]; [lia|].
    cbn [missing_fragments_loop foldl]. replace (i <? fragments_of fs len) with true by lia. rewrite En. cbn [mbind option_bind].
    rewrite u32_small by zwidth. apply IH; [done | done | lia].
Qed.

Lemma existsb_ext (P Q : Z → bool) l : (∀ i, P i = Q i) → existsb P l = existsb Q l.
Proof. intros H. induction l as [|i l IH]; [done|]. cbn. by rewrite H, IH. Qed.

Lemma frag_adds l : ∀ b : FragmentNumberSet_t, bm_ok b → Forall (λ i, 0 <= i < 2 ^ 32 - 1) l →
  let b' := foldl (λ b i, fst (bm_add b (i + 1 : FragmentNumber_t))) b l in
  bm_ok b' ∧ base_ b' = base_ b ∧ range_max_ b' = range_max_ b ∧
  ∀ z, bm_bits b' z = existsb (λ i, in_range b (i + 1 : FragmentNumber_t) && (z =? i + 1)) l || bm_bits b z.
Proof.
  induction l as [|i l IH]; intros b Hb Hl; [done|]. apply Forall_cons in Hl as [Hi Hl]. cbn [foldl existsb].
  destruct (bm_add_spec b (i + 1 : FragmentNumber_t)) as (_ & Hok & Hbase & Hmax & Hbits); [done | cbn; zwidth |].
  destruct (IH _ Hok Hl) as (Hok' & Hbase' & Hmax' & Hbits'). split_and!; [done | congruence | congruence |]. intros z. rewrite Hbits', Hbits.
  assert (∀ x : FragmentNumber_t, in_range (fst (bm_add b (i + 1 : FragmentNumber_t))) x = in_range b x) as Hr by (intros x; unfold in_range; by rewrite Hbase, Hmax).
  rewrite orb_assoc. f_equal. rewrite orb_comm. f_equal. apply existsb_ext. intros k. by rewrite Hr.
Qed.

Lemma get_missing_fragments_spec fs len cap s key l c : geometry fs len cap → reassembling fs len cap s key l c →
  ∃ frags, get_missing_fragments c = Some frags ∧ bm_ok frags ∧
    ∀ i, 0 <= i < fragments_of fs len → bm_is_set frags (i + 1 : FragmentNumber_t) = bool_decide (i ∈ l) && (i <? first_missing_fragment_ c + 256).
Proof.
  intros Hgeo [Efs Ecount _ _ _ Hix Hl _]. pose proof (count_bounds fs len cap Hgeo) as [? ?]. set (count := fragments_of fs len) in *.
  assert (count <= fs * count) by (destruct Hgeo; nia). pose proof Hgeo as [Hfs _ Hlen _ Hc]. pose proof (links_head fs len cap Hgeo _ _ _ Hix Hl) as Hf. fold count in Hf.
  pose proof (indexes_length fs len cap Hgeo l Hix) as Hlen_l. fold count in Hlen_l. unfold get_missing_fragments. rewrite Efs, Ecount.
  rewrite (missing_fragments_loop_spec fs len cap _ l Hgeo Hix (S (Z.to_nat count)) _ _ Hl ltac:(lia)). rewrite u32_small by zwidth.
  set (base := first_missing_fragment_ c + 1). set (b := bm_set_base (base : FragmentNumber_t)).
  assert (bm_ok b) as Hb by (apply bm_set_base_ok; [cbn; unfold base; zwidth | change (base + 256 < 2 ^ 32); unfold base; zwidth]).
  assert (range_max_ b = base + 255) as Emax by (change (u32 (base + 255) = base + 255); rewrite u32_small by (unfold base; zwidth); done).
  destruct (frag_adds l b Hb) as (Hok & Hbase & Hmax & Hbits); [destruct Hix as [_ Hr]; eapply Forall_impl; [exact Hr|]; cbn; fold count; zwidth|].
  eexists. split; [done|]. split; [done|]. intros i Hi. rewrite bm_is_set_spec by (done || (cbn; zwidth)). unfold bm_mem.
  rewrite Hmax, Emax, Hbits. change (item_val (base + 255 : FragmentNumber_t)) with (base + 255). change (item_val (i + 1 : FragmentNumber_t)) with (i + 1).
  assert (bm_bits b (i + 1) = false) as -> by apply bm_bits_set_base. rewrite orb_false_r.
  assert (∀ k, k ∈ l → in_range b (k + 1 : FragmentNumber_t) = (k + 1 <=? base + 255)) as Hin.
  { intros k Hk. rewrite in_range_spec; [|done | destruct Hix as [_ Hr]; rewrite Forall_forall in Hr; specialize (Hr k Hk); fold count in Hr; cbn; zwidth].
    rewrite Emax. change ((base <=? k + 1) && (k + 1 <=? base + 255) = (k + 1 <=? base + 255)).
    destruct l as [|k0 l]; [by apply not_elem_of_nil in Hk|]. destruct Hl as [Ef _]. apply indexes_tail in Hix as (_ & _ & Hlt). rewrite Forall_forall in Hlt.
    replace (base <=? k + 1) with true; [done|]. unfold base. apply elem_of_cons in Hk as [->|Hk%Hlt]; lia. }
  case_bool_decide as Hil; cbn [andb].
  - replace (existsb _ l) with (i + 1 <=? base + 255); [unfold base; lia|]. rewrite <- (Hin i Hil). symmetry.
    destruct (in_range b (i + 1 : FragmentNumber_t)) eqn:Er.
    + apply existsb_exists. exists i. rewrite Er, Z.eqb_refl. split; [by apply list_elem_of_In | done].
    + apply existsb_none, Forall_forall. intros k Hk. destruct (Z.eqb_spec (i + 1) (k + 1)); [|apply andb_false_r]. replace k with i by lia. by rewrite Er.
  - rewrite existsb_none; [apply andb_false_r|]. apply Forall_forall. intros k Hk. destruct (Z.eqb_spec (i + 1) (k + 1)); [|apply andb_false_r].
    replace k with i in Hk by lia. done.
Qed.

(** ** Theorems *)

(** The arrivals of a whole reassembly, from a new change on. *)
Lemma reassembly_run fs s c arrivals :
  geometry fs (Z.of_nat (length s)) (Z.of_nat (length (pl_data (serializedPayload c)))) →
  pl_length (serializedPayload c) = Z.of_nat (length s) →
  Forall (carries fs (Z.of_nat (length s)) s (pl_is_serialized_key (serializedPayload c))) arrivals →
  ∃ c0 c', setFragmentSize fs true c = Some c0 ∧ receive_all arrivals (false, c0) = Some (is_fully_assembled c', c') ∧
    reassembling fs (Z.of_nat (length s)) (Z.of_nat (length (pl_data (serializedPayload c)))) s (pl_is_serialized_key (serializedPayload c))
      (filter (λ i, negb (covered arrivals i)) (seqZ 0 (fragments_of fs (Z.of_nat (length s))))) c'.
Proof.
  intros Hgeo Hlen Har. destruct (setFragmentSize_spec _ _ _ Hgeo s c Hlen eq_refl) as (c0 & E0 & Hc0).
  destruct (receive_all_spec _ _ _ Hgeo s _ arrivals eq_refl Har _ _ Hc0) as (c' & E' & Hc'). exists c0, c'. split; [done|]. split; [|done].
  replace false with (is_fully_assembled c0); [done|]. destruct (is_fully_assembled c0) eqn:Ef; [|done].
  apply (fully_assembled_iff _ _ _ _ _ _ _ Hc0) in Ef. pose proof (count_bounds _ _ _ Hgeo) as [Hc _]. by rewrite seqZ_cons in Ef by lia.
Qed.

(** C22. For a buffer in which every link of the list of missing fragments fits ([geometry]: fragments of a
    multiple of four octets or of at least seven, and a buffer that reaches four octets beyond the place
    of the last link, which the code does not ensure, see [last_link_outside_buffer]), fragments of a
    sample may arrive in any order, in submessages of any number of fragments, with repetitions and
    overlaps. The change is reported as complete exactly when every fragment has arrived, and then its
    payload is the sample, octet by octet, although the list was kept inside of the same buffer. *)
Theorem reassembly_exact fs s c arrivals :
  geometry fs (Z.of_nat (length s)) (Z.of_nat (length (pl_data (serializedPayload c)))) →
  pl_length (serializedPayload c) = Z.of_nat (length s) →
  Forall (carries fs (Z.of_nat (length s)) s (pl_is_serialized_key (serializedPayload c))) arrivals →
  ∃ c0 complete c', setFragmentSize fs true c = Some c0 ∧ receive_all arrivals (false, c0) = Some (complete, c') ∧
    (complete = true ↔ ∀ i, 0 <= i < fragments_of fs (Z.of_nat (length s)) → covered arrivals i = true) ∧
    (complete = true → take (length s) (pl_data (serializedPayload c')) = s).
Proof.
  intros Hgeo Hlen Har. destruct (reassembly_run fs s c arrivals Hgeo Hlen Har) as (c0 & c' & E0 & E' & Hc').
  exists c0, (is_fully_assembled c'), c'. split; [done|]. split; [done|]. rewrite (fully_assembled_iff _ _ _ _ _ _ _ Hc'). split; [split|].
  - rewrite filter_nil_iff. intros Hnil i Hi. specialize (Hnil i). rewrite negb_false_iff in Hnil. apply Hnil, elem_of_seqZ. lia.
  - intros Hall. apply filter_nil_iff. intros i Hi%elem_of_seqZ. by rewrite Hall by lia.
  - intros Hnil. rewrite Hnil in Hc'. by apply (all_assembled _ _ _ Hgeo _ _ _ eq_refl Hc').
Qed.

Definition example_sample : list Z := replicate 8 1 ++ replicate 8 2 ++ replicate 3 3.

(** A buffer of 24 octets for the sample of 19. *)
Definition example_fragmented : CacheChange_t :=
  {| cc_kind := ALIVE; writerGUID := c_Guid_Unknown; instanceHandle := None; sequenceNumber := SeqNum 0 1;
     serializedPayload := Payload 0 19 (replicate 24 255) false; inline_qos := pl_default; sourceTimestamp := time_zero;
     vendor_id := [1; 15]; fragment_size_ := 0; fragment_count_ := 0; first_missing_fragment_ := 0 |}.

(** The last fragment, then the first two in one submessage, which comes twice. *)
Definition example_arrivals : list (SerializedPayload_t * Z * Z) :=
  [(Payload 0 3 (replicate 3 3) false, 3, 1); (Payload 0 16 (replicate 8 1 ++ replicate 8 2) false, 1, 2);
   (Payload 0 16 (replicate 8 1 ++ replicate 8 2) false, 1, 2)].

Lemma example_geometry : geometry 8 19 24.
Proof. split; [lia | by left | lia | by vm_compute | lia]. Qed.

Lemma example_carries : Forall (carries 8 19 example_sample false) example_arrivals.
Proof. repeat constructor; done. Qed.

Lemma reassembly_exact_witness :
  ∃ c0 complete c', setFragmentSize 8 true example_fragmented = Some c0 ∧ receive_all example_arrivals (false, c0) = Some (complete, c') ∧
    (complete = true ↔ ∀ i, 0 <= i < fragments_of 8 19 → covered example_arrivals i = true) ∧
    (complete = true → take 19 (pl_data (serializedPayload c')) = example_sample).
Proof. exact (reassembly_exact 8 example_sample example_fragmented example_arrivals example_geometry eq_refl example_carries). Defined.

(** After any fragments have arrived, the set of missing fragments that is requested to the
    writer has exactly the numbers of the fragments that have not arrived, among the 256 that start
    at the first missing one. *)
Lemma missing_fragments_exact fs s c arrivals :
  geometry fs (Z.of_nat (length s)) (Z.of_nat (length (pl_data (serializedPayload c)))) →
  pl_length (serializedPayload c) = Z.of_nat (length s) →
  Forall (carries fs (Z.of_nat (length s)) s (pl_is_serialized_key (serializedPayload c))) arrivals →
  ∃ c0 complete c' frags, setFragmentSize fs true c = Some c0 ∧ receive_all arrivals (false, c0) = Some (complete, c') ∧
    get_missing_fragments c' = Some frags ∧
    ∀ i, 0 <= i < fragments_of fs (Z.of_nat (length s)) →
      bm_is_set frags (i + 1 : FragmentNumber_t) = negb (covered arrivals i) && (i <? first_missing_fragment_ c' + 256).
Proof.
  intros Hgeo Hlen Har. destruct (reassembly_run fs s c arrivals Hgeo Hlen Har) as (c0 & c' & E0 & E' & Hc').
  destruct (get_missing_fragments_spec _ _ _ _ _ _ _ Hgeo Hc') as (frags & Ef & _ & Hset).
  exists c0, (is_fully_assembled c'), c', frags. split_and!; [done | done | done |]. intros i Hi. rewrite Hset by done. f_equal.
  apply Bool.eq_iff_eq_true. rewrite bool_decide_eq_true, list_elem_of_filter, Is_true_true, elem_of_seqZ. intuition lia.
Qed.

(** The links of the last fragments are written after the ones of the others. *)
Lemma create_fragment_list_outside fs last (n : nat) : ∀ i data, i - 1 <= last < i - 1 + Z.of_nat n →
  Z.of_nat (length data) < next_fragment_pointer fs last + 4 → create_fragment_list n fs i data = None.
Proof.
  induction n as [|n IH]; intros i data Hi Hd; [lia|]. cbn [create_fragment_list]. unfold set_next_missing_fragment, store32.
  destruct (mem_store _ _ _) as [data'|] eqn:E; [|done]. destruct (mem_store_lookup _ _ _ _ E) as (Hl & _). cbn [mbind option_bind].
  unfold mem_store in E. destruct (_ && _) eqn:Eb; [|done]. rewrite le_split_length in Eb.
  destruct (Z.eq_dec (i - 1) last) as [Elast|]; [subst last; lia|]. apply IH; lia.
Qed.

(** When the last fragment is shorter than its link, which takes the four octets from the next
    multiple of four on, the creation of the list writes past a buffer that has the size of the sample. *)
Theorem last_link_outside_buffer fs c :
  0 < fs < 2 ^ 16 → 0 < pl_length (serializedPayload c) < 2 ^ 31 →
  Z.of_nat (length (pl_data (serializedPayload c))) < next_fragment_pointer fs (fragments_of fs (pl_length (serializedPayload c)) - 1) + 4 →
  setFragmentSize fs true c = None.
Proof.
  intros Hfs Hlen Hout. unfold setFragmentSize. replace (fs >? 0) with true by lia. rewrite u32_small by zwidth.
  fold (fragments_of fs (pl_length (serializedPayload c))). assert (0 < fragments_of fs (pl_length (serializedPayload c))).
  { apply Z.div_str_pos. lia. }
  by rewrite (create_fragment_list_outside fs (fragments_of fs (pl_length (serializedPayload c)) - 1)) by lia.
Qed.

(** A sample of five octets in fragments of four, in a buffer of its size. *)
Lemma last_link_outside_buffer_witness :
  setFragmentSize 4 true (cc_set_fragments (Payload 0 5 (replicate 5 0) false) 0 0 0 example_fragmented) = None.
Proof. apply (last_link_outside_buffer 4); [lia | cbn; lia | by vm_compute]. Defined.
