(* ===== verification/GapBuilder.v ===== *)
(** * RTPSGapBuilder (src/cpp/rtps/messages/RTPSGapBuilder.cpp)

    Collects the sequence numbers a reader will never get into as few GAP
    messages as possible. A GAP message announces the numbers from its start up
    to the one before the base of its bitmap, and the numbers of the bitmap. *)

From Stdlib Require Import ZArith Lia ZifyBool Sorting.Sorted.
From stdpp Require Import base numbers list option list_numbers sorting sets.
From S2P Require Import Prelude SequenceNumber BitmapRange BitmapFacts SortedRange.

Open Scope Z_scope.

(** A GAP submessage handed to the message group. *)
Record Gap := { gap_start : SequenceNumber_t; gap_list : SequenceNumberSet_t }.

Record RTPSGapBuilder := {
  is_gap_pending_ : bool;
  initial_sequence_ : SequenceNumber_t;
  gap_bitmap_ : SequenceNumberSet_t
}.

Definition gb_make : RTPSGapBuilder :=
  {| is_gap_pending_ := false; initial_sequence_ := sn_zero; gap_bitmap_ := bm_default |}.

Section Builder.
(** [RTPSMessageGroup::add_gap]: whether the message could be added. *)
Context (add_gap : Gap → bool).

Definition gb_flush (g : RTPSGapBuilder) : bool * RTPSGapBuilder * list Gap :=
  if is_gap_pending_ g then
    let gap := {| gap_start := initial_sequence_ g; gap_list := gap_bitmap_ g |} in
    if add_gap gap
    then (true, {| is_gap_pending_ := false; initial_sequence_ := initial_sequence_ g; gap_bitmap_ := gap_bitmap_ g |}, [gap])
    else (false, g, [])
  else (true, {| is_gap_pending_ := false; initial_sequence_ := initial_sequence_ g; gap_bitmap_ := gap_bitmap_ g |}, []).

(** Starts a gap at [s]. *)
Definition gb_restart (s : SequenceNumber_t) : RTPSGapBuilder :=
  {| is_gap_pending_ := true; initial_sequence_ := s; gap_bitmap_ := bm_set_base (s + 1)%sn |}.

Definition gb_add (gap_sequence : SequenceNumber_t) (g : RTPSGapBuilder) : bool * RTPSGapBuilder * list Gap :=
  if negb (is_gap_pending_ g) then (true, gb_restart gap_sequence, [])
  else if (gap_sequence =? base_ (gap_bitmap_ g))%sn then
    (true, {| is_gap_pending_ := true; initial_sequence_ := initial_sequence_ g;
              gap_bitmap_ := bm_set_base (gap_sequence + 1)%sn |}, [])
  else
    let '(bitmap, added) := bm_add (gap_bitmap_ g) gap_sequence in
    if added
    then (true, {| is_gap_pending_ := true; initial_sequence_ := initial_sequence_ g; gap_bitmap_ := bitmap |}, [])
    else let '(ret_val, _, sent) := gb_flush g in (ret_val, gb_restart gap_sequence, sent).

(** Adds the numbers of a list in order; the destructor flushes. *)
Fixpoint gb_add_all (l : list SequenceNumber_t) (g : RTPSGapBuilder) : RTPSGapBuilder * list Gap :=
  match l with
  | [] => (g, [])
  | s :: l' => let '(_, g1, sent1) := gb_add s g in
               let '(g2, sent2) := gb_add_all l' g1 in (g2, sent1 ++ sent2)
  end.

Definition gb_build (l : list SequenceNumber_t) : list Gap :=
  let '(g, sent) := gb_add_all l gb_make in sent ++ snd (gb_flush g).
End Builder.

(** ** The numbers a GAP message announces *)

Definition gap_numbers (gap : Gap) : list Z :=
  seqZ (snz (gap_start gap)) (snz (base_ (gap_list gap)) - snz (gap_start gap)) ++
  (snz <$> bm_for_each (gap_list gap)).

(** Strictly increasing lists of integers are determined by their elements. *)
Definition increasing (l : list Z) : Prop := StronglySorted Z.lt l.

Lemma increasing_seqZ a n : increasing (seqZ a n).
Proof.
  unfold increasing. destruct (Z.leb_spec n 0); [rewrite seqZ_nil by lia; constructor|].
  revert a. apply natlike_ind with (x := n); [| |lia].
  - intros a. rewrite seqZ_nil by lia. constructor.
  - intros x Hx IH a. rewrite seqZ_cons by lia. constructor.
    + replace (Z.pred (Z.succ x)) with x by lia. apply IH.
    + apply Forall_forall. intros z Hz. apply elem_of_seqZ in Hz. lia.
Qed.

Lemma increasing_filter p l : increasing l → increasing (List.filter p l).
Proof.
  unfold increasing. induction 1 as [|x l Hs IH Hx]; cbn; [constructor|].
  destruct (p x); [|done]. constructor; [done|]. rewrite Forall_forall in Hx |- *.
  intros y Hy. apply Hx. apply list_elem_of_In, List.filter_In in Hy as [Hy _]. by apply list_elem_of_In.
Qed.

Lemma increasing_app l1 l2 :
  increasing l1 → increasing l2 → (∀ a b, a ∈ l1 → b ∈ l2 → a < b) → increasing (l1 ++ l2).
Proof.
  intros H1 H2 H. unfold increasing in *. induction H1 as [|x l1 Hs IH Hx]; cbn; [done|]. constructor.
  - apply IH. intros a b Ha. apply H. by apply elem_of_cons; right.
  - apply Forall_app. split; [done|]. apply Forall_forall. intros b Hb. apply H; [by apply elem_of_cons; left | done].
Qed.

Lemma increasing_ext l1 l2 : increasing l1 → increasing l2 → (∀ z, z ∈ l1 ↔ z ∈ l2) → l1 = l2.
Proof.
  unfold increasing. intros H1. revert l2. induction H1 as [|x l1 Hs IH Hx]; intros l2 H2 H.
  { destruct l2 as [|y l2]; [done|]. exfalso. apply (not_elem_of_nil y), H. by apply elem_of_cons; left. }
  destruct H2 as [|y l2 Hs2 Hy]; [exfalso; apply (not_elem_of_nil x), H; by apply elem_of_cons; left|].
  rewrite Forall_forall in Hx, Hy.
  assert (x = y) as ->.
  { assert (x ∈ y :: l2) as [|Hxy]%elem_of_cons by (apply H; by apply elem_of_cons; left); [done|].
    assert (y ∈ x :: l1) as [|Hyx]%elem_of_cons by (apply H; by apply elem_of_cons; left); [done|].
    specialize (Hx y Hyx). specialize (Hy x Hxy). lia. }
  f_equal. apply IH; [done|]. intros z. specialize (H z). rewrite !elem_of_cons in H. split; intros Hz.
  - assert (z ∈ l2 ∨ z = y) as [Hin | ->] by tauto; [done|]. specialize (Hx y Hz). lia.
  - assert (z ∈ l1 ∨ z = y) as [Hin | ->] by tauto; [done|]. specialize (Hy y Hz). lia.
Qed.

Lemma increasing_for_each (b : SequenceNumberSet_t) : bm_ok b → increasing (snz <$> bm_for_each b).
Proof. intros Hok. destruct (bm_for_each_val b Hok) as [_ E]. cbn in E. rewrite E. apply increasing_filter, increasing_seqZ. Qed.

Lemma elem_for_each (b : SequenceNumberSet_t) z : bm_ok b → z ∈ snz <$> bm_for_each b ↔ bm_bits b z = true.
Proof.
  intros Hok. destruct (bm_for_each_val b Hok) as [_ E]. cbn in E. rewrite E.
  rewrite list_elem_of_In, List.filter_In, <- list_elem_of_In, elem_of_seqZ. split; [tauto|].
  intros Hb. split; [|done]. pose proof (bm_bits_bound b z Hok Hb) as Hr. pose proof (ok_num b Hok). cbn in Hr. lia.
Qed.

(** ** Nothing added, nothing lost *)

(** [cur] is what the pending message will announce. *)
Record gb_pending (g : RTPSGapBuilder) (cur : list Z) : Prop := {
  gp_bitmap : bm_ok (gap_bitmap_ g);
  gp_full : snz (range_max_ (gap_bitmap_ g)) = snz (base_ (gap_bitmap_ g)) + 255;
  gp_start : sn_ok (initial_sequence_ g);
  gp_before : snz (initial_sequence_ g) < snz (base_ (gap_bitmap_ g));
  gp_bits : ∀ z, bm_bits (gap_bitmap_ g) z = true → snz (base_ (gap_bitmap_ g)) < z;
  gp_cur : cur = gap_numbers {| gap_start := initial_sequence_ g; gap_list := gap_bitmap_ g |}
}.

Definition gb_state (g : RTPSGapBuilder) (cur : list Z) : Prop :=
  if is_gap_pending_ g then gb_pending g cur else cur = [].

Lemma set_base_succ s :
  sn_ok s → let b := bm_set_base (s + 1)%sn in
  bm_ok b ∧ snz (base_ b) = snz s + 1 ∧ snz (range_max_ b) = snz s + 256 ∧ bm_for_each b = [].
Proof.
  intros Hs. pose proof (sn_ok_range _ Hs) as Hr. destruct (sn_ok_add s 1 Hs ltac:(zwidth)) as [Hw E].
  destruct (sn_add_u32_snz (s + 1)%sn 255 Hw) as [_ E2]; [zwidth | zwidth |]. cbn zeta.
  split; [apply bm_set_base_ok; cbn [item_wf item_val item_bound SequenceNumber_laws]; [split; [done|]; lia | zwidth]|].
  split; [done|]. split; [|done]. change (range_max_ (bm_set_base (s + 1)%sn)) with (s + 1 + 255)%sn. lia.
Qed.

Lemma gb_restart_pending s : sn_ok s → gb_pending (gb_restart s) [snz s].
Proof.
  intros Hs. destruct (set_base_succ s Hs) as (Hok & Eb & Em & Ef). constructor; cbn [gb_restart gap_bitmap_ initial_sequence_].
  - done.
  - lia.
  - done.
  - lia.
  - intros z Hz. rewrite bm_bits_set_base in Hz. done.
  - unfold gap_numbers. cbn [gap_start gap_list]. rewrite Eb, Ef. replace (snz s + 1 - snz s) with 1 by lia.
    rewrite seqZ_cons, seqZ_nil by lia. done.
Qed.

(** The number after the contiguous ones extends them. *)
Lemma gb_contiguous g cur s :
  gb_pending g cur → sn_ok s → (∀ z, z ∈ cur → z < snz s) → snz s = snz (base_ (gap_bitmap_ g)) →
  gb_pending {| is_gap_pending_ := true; initial_sequence_ := initial_sequence_ g;
                gap_bitmap_ := bm_set_base (s + 1)%sn |} (cur ++ [snz s]).
Proof.
  intros [Hok Hfull Hst Hbef Hbits ->] Hs Hlt Es. destruct (set_base_succ s Hs) as (Hok' & Eb & Em & Ef).
  constructor; cbn [gap_bitmap_ initial_sequence_]; [done | lia | done | lia | |].
  - intros z Hz. rewrite bm_bits_set_base in Hz. done.
  - unfold gap_numbers. cbn [gap_start gap_list]. rewrite Eb, Ef.
    assert (bm_for_each (gap_bitmap_ g) = []) as ->.
    { destruct (bm_for_each (gap_bitmap_ g)) as [|x l] eqn:E; [done|]. exfalso.
      assert (snz x ∈ snz <$> bm_for_each (gap_bitmap_ g)) as Hx by (rewrite E; by apply elem_of_cons; left).
      pose proof Hx as Hb. apply elem_for_each in Hb; [|done]. specialize (Hbits _ Hb).
      assert (snz x < snz s) by (apply Hlt; unfold gap_numbers; apply elem_of_app; by right). lia. }
    cbn [fmap list_fmap]. rewrite !app_nil_r. replace (snz s + 1 - snz (initial_sequence_ g)) with
      ((snz s - snz (initial_sequence_ g)) + 1) by lia.
    rewrite seqZ_app by lia. rewrite Es. f_equal. replace (_ + (_ - _)) with (snz (base_ (gap_bitmap_ g))) by lia.
    rewrite seqZ_cons, seqZ_nil by lia. done.
Qed.

(** A larger number that fits in the bitmap goes to the end of the list. *)
Lemma gb_in_bitmap g cur s bitmap :
  gb_pending g cur → sn_ok s → (∀ z, z ∈ cur → z < snz s) → snz s ≠ snz (base_ (gap_bitmap_ g)) →
  bm_add (gap_bitmap_ g) s = (bitmap, true) →
  gb_pending {| is_gap_pending_ := true; initial_sequence_ := initial_sequence_ g; gap_bitmap_ := bitmap |} (cur ++ [snz s]).
Proof.
  intros [Hok Hfull Hst Hbef Hbits ->] Hs Hlt Hne Ea. pose proof (sn_ok_range _ Hs) as Hr.
  assert (item_wf s) as Hw by (split; [by apply sn_ok_wf | lia]).
  destruct (bm_add_spec (gap_bitmap_ g) s Hok Hw) as (Hin & Hok' & Eb & Er & Hb).
  rewrite Ea in Hin, Hok', Eb, Er, Hb. cbn [fst snd] in *. rewrite <- Hin in Hb. symmetry in Hin. rewrite in_range_spec in Hin by done.
  cbn [item_val SequenceNumber_laws andb] in *.
  constructor; cbn [gap_bitmap_ initial_sequence_]; rewrite ?Eb, ?Er; try done.
  - intros z. rewrite Hb, orb_true_iff. intros [Hz|Hz]; [lia | by apply Hbits].
  - unfold gap_numbers. cbn [gap_start gap_list]. rewrite Eb, <- app_assoc. f_equal. symmetry.
    apply increasing_ext; [by apply increasing_for_each | |].
    + apply increasing_app; [by apply increasing_for_each | repeat constructor |].
      intros a b Ha ->%list_elem_of_singleton. apply Hlt. unfold gap_numbers. apply elem_of_app. by right.
    + intros z. rewrite elem_of_app, list_elem_of_singleton, !elem_for_each, Hb, orb_true_iff by done. lia.
Qed.

Section Accepting.
Context (add_gap : Gap → bool) (Haccept : ∀ gap, add_gap gap = true).

Lemma gb_add_spec g cur s :
  gb_state g cur → sn_ok s → (∀ z, z ∈ cur → z < snz s) →
  let '(r, g', sent) := gb_add add_gap s g in
  r = true ∧ ∃ cur', gb_state g' cur' ∧ concat (gap_numbers <$> sent) ++ cur' = cur ++ [snz s].
Proof using Haccept.
  intros Hg Hs Hlt. unfold gb_add, gb_state in *. destruct (is_gap_pending_ g) eqn:Ep; cbn [negb].
  2: { split; [done|]. exists [snz s]. split; [by apply gb_restart_pending|]. by rewrite Hg. }
  pose proof (gp_bitmap g cur Hg) as Hok. pose proof (ok_base _ Hok) as [Hwb _].
  rewrite sn_eqb_snz by (done || by apply sn_ok_wf). destruct (Z.eqb_spec (snz s) (snz (base_ (gap_bitmap_ g)))) as [E|Hne].
  { split; [done|]. exists (cur ++ [snz s]). split; [by apply gb_contiguous | done]. }
  destruct (bm_add (gap_bitmap_ g) s) as [bitmap added] eqn:Ea. destruct added.
  { split; [done|]. exists (cur ++ [snz s]). split; [by eapply gb_in_bitmap | done]. }
  unfold gb_flush. rewrite Ep, Haccept. split; [done|]. exists [snz s]. split; [by apply gb_restart_pending|].
  rewrite (gp_cur g cur Hg). cbn. by rewrite app_nil_r.
Qed.

Lemma gb_add_all_spec l : ∀ g cur,
  gb_state g cur → Forall sn_ok l → increasing (cur ++ (snz <$> l)) →
  let '(g', sent) := gb_add_all add_gap l g in
  ∃ cur', gb_state g' cur' ∧ concat (gap_numbers <$> sent) ++ cur' = cur ++ (snz <$> l).
Proof using Haccept.
  induction l as [|s l IH]; intros g cur Hg Hl Hi; cbn [gb_add_all].
  { exists cur. split; [done|]. cbn. by rewrite app_nil_r. }
  apply Forall_cons_iff in Hl as [Hs Hl]. rewrite fmap_cons in Hi |- *.
  assert (∀ z, z ∈ cur → z < snz s) as Hlt.
  { intros z Hz. unfold increasing in Hi. apply list_elem_of_split in Hz as (l1 & l2 & ->).
    rewrite <- app_assoc in Hi. clear -Hi. induction l1 as [|y l1 IH]; cbn in Hi.
    - apply StronglySorted_inv in Hi as [_ Hi]. rewrite Forall_forall in Hi. apply Hi. set_solver.
    - apply StronglySorted_inv in Hi as [Hi _]. by apply IH. }
  pose proof (gb_add_spec g cur s Hg Hs Hlt) as H. destruct (gb_add add_gap s g) as [[r g1] sent1].
  destruct H as (_ & cur1 & Hg1 & E1). replace (cur ++ snz s :: (snz <$> l)) with ((cur ++ [snz s]) ++ (snz <$> l)) in * by (by rewrite <- app_assoc).
  rewrite <- E1 in Hi |- *. rewrite <- app_assoc in Hi. specialize (IH g1 cur1 Hg1 Hl).
  destruct (gb_add_all add_gap l g1) as [g2 sent2]. destruct IH as (cur2 & Hg2 & E2).
  { clear -Hi. induction (concat (gap_numbers <$> sent1)) as [|x l' IH]; [done|]. apply StronglySorted_inv in Hi as [Hi _]. by apply IH. }
  exists cur2. split; [done|]. rewrite fmap_app, concat_app, <- app_assoc, E2. by rewrite app_assoc.
Qed.

Lemma gb_build_spec l :
  Forall sn_ok l → increasing (snz <$> l) → concat (gap_numbers <$> gb_build add_gap l) = snz <$> l.
Proof using Haccept.
  intros Hl Hi. unfold gb_build. pose proof (gb_add_all_spec l gb_make [] eq_refl Hl Hi) as H.
  destruct (gb_add_all add_gap l gb_make) as [g sent]. destruct H as (cur & Hg & E). cbn [app] in E.
  rewrite <- E, fmap_app, concat_app. f_equal. unfold gb_state in Hg. unfold gb_flush.
  destruct (is_gap_pending_ g); [|by subst]. rewrite Haccept, (gp_cur g cur Hg). cbn. apply app_nil_r.
Qed.
End Accepting.

(** The GAP messages built from a strictly increasing list of sequence numbers announce exactly
    those numbers, each once and in order, whatever their distances. *)
Lemma gap_builder_exact l :
  Forall sn_ok l → increasing (snz <$> l) →
  concat (gap_numbers <$> gb_build (λ _, true) l) = snz <$> l.
Proof. by apply gb_build_spec. Qed.

