(* ===== verification/ChangeForReader.v ===== *)
(** * ChangeForReader_t (src/cpp/rtps/writer/ChangeForReader.hpp)

    The state of a change with respect to one reader: its status and the window
    of fragments still to be sent. *)

From Stdlib Require Import ZArith Lia ZifyBool.
From stdpp Require Import base numbers list option list_numbers.
From S2P Require Import Prelude SequenceNumber BitWord BitmapRange BitmapWords BitmapFacts CacheChange.

Open Scope Z_scope.

Inductive ChangeForReaderStatus_t := UNSENT | REQUESTED | UNACKNOWLEDGED | ACKNOWLEDGED | UNDERWAY.

#[global] Instance ChangeForReaderStatus_eq_dec : EqDecision ChangeForReaderStatus_t.
Proof. solve_decision. Defined.

(** The values of the enumerators. *)
Definition status_value (s : ChangeForReaderStatus_t) : Z :=
  match s with UNSENT => 0 | REQUESTED => 1 | UNACKNOWLEDGED => 2 | ACKNOWLEDGED => 3 | UNDERWAY => 4 end.

(** Of the change it points to, the class reads the fragment size and count only, which do not
    change while the change is in the history of the writer. *)
Record ChangeForReader_t := {
  status_ : ChangeForReaderStatus_t;
  seq_num_ : SequenceNumber_t;
  cfr_fragment_size : Z;
  cfr_fragment_count : Z;
  unsent_fragments_ : FragmentNumberSet_t;
  delivered_ : bool
}.

Definition cfr_set_status (s : ChangeForReaderStatus_t) (c : ChangeForReader_t) : ChangeForReader_t :=
  {| status_ := s; seq_num_ := seq_num_ c; cfr_fragment_size := cfr_fragment_size c;
     cfr_fragment_count := cfr_fragment_count c; unsent_fragments_ := unsent_fragments_ c; delivered_ := delivered_ c |}.

Definition cfr_set_unsent (f : FragmentNumberSet_t) (c : ChangeForReader_t) : ChangeForReader_t :=
  {| status_ := status_ c; seq_num_ := seq_num_ c; cfr_fragment_size := cfr_fragment_size c;
     cfr_fragment_count := cfr_fragment_count c; unsent_fragments_ := f; delivered_ := delivered_ c |}.

Definition set_delivered (c : ChangeForReader_t) : ChangeForReader_t :=
  {| status_ := status_ c; seq_num_ := seq_num_ c; cfr_fragment_size := cfr_fragment_size c;
     cfr_fragment_count := cfr_fragment_count c; unsent_fragments_ := unsent_fragments_ c; delivered_ := true |}.

(** All fragments, as far as the window reaches. *)
Definition all_fragments (count : Z) : FragmentNumberSet_t :=
  bm_add_range (bm_set_base (1 : FragmentNumber_t)) (1 : FragmentNumber_t) (u32 (count + 1) : FragmentNumber_t).

Definition cfr_make (change : CacheChange_t) : ChangeForReader_t :=
  {| status_ := UNSENT; seq_num_ := sequenceNumber change;
     cfr_fragment_size := fragment_size_ change; cfr_fragment_count := fragment_count_ change;
     unsent_fragments_ := if negb (fragment_size_ change =? 0) then all_fragments (fragment_count_ change) else bm_default;
     delivered_ := false |}.

Definition get_next_unsent_fragment (c : ChangeForReader_t) : FragmentNumber_t :=
  if bm_empty (unsent_fragments_ c) then u32 (cfr_fragment_count c + 1) else bm_min (unsent_fragments_ c).

Definition markAllFragmentsAsUnsent (c : ChangeForReader_t) : ChangeForReader_t :=
  if negb (cfr_fragment_size c =? 0) then cfr_set_unsent (all_fragments (cfr_fragment_count c)) c else c.

(** No result when [remove] leaves the array of the bitmap. *)
Definition markFragmentsAsSent (sentFragment : FragmentNumber_t) (c : ChangeForReader_t) : option ChangeForReader_t :=
  unsent ← bm_remove (unsent_fragments_ c) sentFragment;
  if negb (delivered_ c) && negb (bm_empty unsent) && (bm_max unsent <? cfr_fragment_count c) then
    let max := bm_max unsent in
    let base := bm_min unsent in
    let window := bm_base_update base unsent in
    Some (cfr_set_unsent (bm_add_range window (u32 (max + 1) : FragmentNumber_t)
                            (u32 (cfr_fragment_count c + 1) : FragmentNumber_t)) c)
  else Some (cfr_set_unsent unsent c).

Definition markFragmentsAsUnsent (unsentFragments : FragmentNumberSet_t) (c : ChangeForReader_t) : ChangeForReader_t :=
  if delivered_ c then
    if bm_empty (unsent_fragments_ c) then cfr_set_unsent unsentFragments c
    else
      let other_base := base_ unsentFragments in
      let window := if other_base <? base_ (unsent_fragments_ c)
                    then bm_base_update other_base (unsent_fragments_ c) else unsent_fragments_ c in
      cfr_set_unsent (foldl (λ b element, fst (bm_add b element)) window (bm_for_each unsentFragments)) c
  else c.

(** ** Sending a fragmented change for the first time *)

(** The fragments sent by [n] rounds of picking the next unsent fragment and marking it as sent. *)
Fixpoint send_fragments (n : nat) (c : ChangeForReader_t) : option (list FragmentNumber_t * ChangeForReader_t) :=
  match n with
  | O => Some ([], c)
  | S n' =>
      let f := get_next_unsent_fragment c in
      c' ← markFragmentsAsSent f c;
      '(l, c'') ← send_fragments n' c';
      Some (f :: l, c'')
  end.

(** The window after the first [k] fragments have been sent: the next ones, as many as fit. *)
Record window_at (count k : Z) (b : FragmentNumberSet_t) : Prop := {
  wn_ok : bm_ok b;
  wn_base : 1 <= base_ b <= k + 1;
  wn_full : range_max_ b = base_ b + 255;
  wn_bits : ∀ z, bm_bits b z = (k <? z) && (z <=? Z.min count (base_ b + 255));
  wn_slide : base_ b + 255 < count → base_ b = k + 1
}.

Lemma window_empty count k b : window_at count k b → 0 <= k <= count → bm_empty b = (k =? count).
Proof.
  intros [Hok Hb Hf Hbits Hsl] Hk. apply eq_true_iff_eq. rewrite bm_empty_spec by done. split.
  - intros Hall. destruct (Z.eqb_spec k count); [done|]. specialize (Hall (k + 1)). rewrite Hbits in Hall. lia.
  - intros ->%Z.eqb_eq z. rewrite Hbits. lia.
Qed.

Lemma window_min count k b : window_at count k b → 0 <= k < count → bm_min b = k + 1.
Proof.
  intros Hw Hk. pose proof (window_empty _ _ _ Hw ltac:(lia)) as He. destruct Hw as [Hok Hb Hf Hbits Hsl].
  destruct (bm_min_spec b Hok) as (_ & H1 & H2); [rewrite He; lia|]. cbn [item_val FragmentNumber_laws] in *.
  rewrite Hbits in H1. destruct (Z.ltb_spec (k + 1) (bm_min b)); [|lia].
  specialize (H2 (k + 1) ltac:(lia)). rewrite Hbits in H2. lia.
Qed.

Lemma window_max count k b : window_at count k b → 0 <= k < count → bm_max b = Z.min count (base_ b + 255).
Proof.
  intros Hw Hk. pose proof (window_empty _ _ _ Hw ltac:(lia)) as He. destruct Hw as [Hok Hb Hf Hbits Hsl].
  destruct (bm_max_spec b Hok) as (_ & _ & H1 & H2); [rewrite He; lia|]. cbn [item_val FragmentNumber_laws] in *.
  rewrite Hbits in H1. destruct (Z.ltb_spec (bm_max b) (Z.min count (base_ b + 255))); [|lia].
  specialize (H2 (Z.min count (base_ b + 255)) ltac:(lia)). rewrite Hbits in H2. lia.
Qed.

Lemma window_start count : 1 <= count → count + 257 < 2 ^ 32 → window_at count 0 (all_fragments count).
Proof.
  intros Hc Hr. unfold all_fragments. rewrite u32_small by zwidth.
  destruct (bm_add_range_spec (bm_set_base (1 : FragmentNumber_t)) (1 : FragmentNumber_t) (count + 1 : FragmentNumber_t))
    as (Hok & Eb & Er & Hbits); [apply bm_set_base_ok; cbn; zwidth | cbn; zwidth | cbn; zwidth |].
  constructor; rewrite ?Eb, ?Er; cbn [base_ range_max_ bm_set_base]; [done | lia | done | | lia].
  intros z. rewrite Hbits, bm_bits_set_base. cbn. lia.
Qed.

(** Marking the next fragment as sent moves the window by one. *)
Lemma window_step count k c :
  window_at count k (unsent_fragments_ c) → cfr_fragment_count c = count → delivered_ c = false →
  0 <= k < count → count + 257 < 2 ^ 32 →
  get_next_unsent_fragment c = k + 1 ∧
  ∃ b, markFragmentsAsSent (k + 1 : FragmentNumber_t) c = Some (cfr_set_unsent b c) ∧ window_at count (k + 1) b.
Proof.
  intros Hw Ec Ed Hk Hr. pose proof (window_empty _ _ _ Hw ltac:(lia)) as He. pose proof (window_min _ _ _ Hw Hk) as Emin.
  unfold get_next_unsent_fragment. rewrite He, Emin. destruct (Z.eqb_spec k count); [lia|]. split; [done|].
  destruct Hw as [Hok Hb Hf Hbits Hsl]. set (u := unsent_fragments_ c) in *.
  destruct (bm_remove_spec u (k + 1 : FragmentNumber_t)) as (u1 & E1 & Hok1 & Eb1 & Er1 & Hbits1);
    [done | cbn; zwidth | rewrite He; lia |]. cbn [item_val FragmentNumber_laws] in Hbits1.
  unfold markFragmentsAsSent. fold u. rewrite E1. cbn [mbind option_bind]. rewrite Ed, Ec. cbn [negb andb].
  assert (window_at count (k + 1) u1 ∨ (base_ u1 = k + 1 ∧ base_ u1 + 255 < count)) as Hcase.
  { destruct (Z.ltb_spec (base_ u + 255) count) as [Hlt|Hge]; [right; rewrite Eb1; specialize (Hsl Hlt); lia|].
    left. constructor; rewrite ?Eb1, ?Er1; [done | lia | done | | lia]. intros z. rewrite Hbits1, Hbits. lia. }
  destruct Hcase as [Hw1|[Eb Hlt]].
  - exists u1. replace (negb (bm_empty u1) && (bm_max u1 <? count)) with false; [done|].
    rewrite (window_empty _ _ _ Hw1) by lia. destruct (Z.eqb_spec (k + 1) count); [done|]. cbn [negb andb].
    rewrite (window_max _ _ _ Hw1) by lia. destruct Hw1. lia.
  - assert (∀ z, bm_bits u1 z = (k + 1 <? z) && (z <=? k + 256)) as Hb1 by (intros z; rewrite Hbits1, Hbits; lia).
    assert (bm_empty u1 = false) as He1.
    { apply not_true_is_false. intros H. apply (bm_empty_spec u1) with (z := k + 2) in H; [|done]. rewrite Hb1 in H. lia. }
    destruct (bm_max_spec u1 Hok1 He1) as (_ & _ & Hm1 & Hm2). destruct (bm_min_spec u1 Hok1 He1) as (_ & Hn1 & Hn2).
    cbn [item_val FragmentNumber_laws] in *. assert (bm_max u1 = k + 256) as Emax.
    { rewrite Hb1 in Hm1. destruct (Z.ltb_spec (bm_max u1) (k + 256)) as [Hl|]; [|lia].
      specialize (Hm2 (k + 256) Hl). rewrite Hb1 in Hm2. lia. }
    assert (bm_min u1 = k + 2) as Emin1.
    { rewrite Hb1 in Hn1. destruct (Z.ltb_spec (k + 2) (bm_min u1)) as [Hl|]; [|lia].
      specialize (Hn2 (k + 2) Hl). rewrite Hb1 in Hn2. lia. }
    unfold FragmentNumber_t in *. rewrite He1, Emax, Emin1. destruct (Z.ltb_spec (k + 256) count); [|lia]. cbn [negb andb].
    destruct (bm_base_update_spec u1 (k + 2 : FragmentNumber_t)) as (Hok2 & Eb2 & Er2 & Hb2); cbn; try zwidth; [done|].
    cbn [item_val FragmentNumber_laws] in *. rewrite !u32_small by zwidth.
    destruct (bm_add_range_spec (bm_base_update (k + 2 : FragmentNumber_t) u1) (k + 256 + 1 : FragmentNumber_t) (count + 1 : FragmentNumber_t))
      as (Hok3 & Eb3 & Er3 & Hb3); [done | cbn; zwidth | cbn; zwidth |]. cbn [item_val FragmentNumber_laws] in *.
    eexists. split; [done|]. constructor; unfold FragmentNumber_t in *; rewrite ?Eb3, ?Er3, ?Eb2, ?Er2; [done | lia | done | | lia].
    intros z. rewrite Hb3, Hb2, Hb1, Eb2. lia.
Qed.

Lemma send_fragments_spec n : ∀ count k c,
  window_at count k (unsent_fragments_ c) → cfr_fragment_count c = count → delivered_ c = false →
  0 <= k → k + Z.of_nat n <= count → count + 257 < 2 ^ 32 →
  ∃ c', send_fragments n c = Some (seqZ (k + 1) (Z.of_nat n), c') ∧
    window_at count (k + Z.of_nat n) (unsent_fragments_ c') ∧ cfr_fragment_count c' = count.
Proof.
  induction n as [|n IH]; intros count k c Hw Ec Ed Hk Hn Hr; cbn [send_fragments].
  { exists c. rewrite Z.add_0_r. done. }
  destruct (window_step count k c Hw Ec Ed ltac:(lia) Hr) as (-> & b & E & Hw'). rewrite E. cbn [mbind option_bind].
  destruct (IH count (k + 1) (cfr_set_unsent b c)) as (c' & E' & Hw2 & Ec2); [done | done | done | lia | lia | done |].
  exists c'. rewrite E'. cbn [mbind option_bind]. split; [|split; [|done]].
  - rewrite (seqZ_cons (k + 1)) by lia. do 4 f_equal; lia.
  - replace (k + Z.of_nat (S n)) with (k + 1 + Z.of_nat n) by lia. done.
Qed.

(** The running window sends a fragmented change completely: picking the next unsent fragment and
    marking it as sent goes through all fragments from the first to the last, each exactly once,
    however many more of them there are than the 256 positions of the window, and ends with no
    fragment left. *)
Theorem all_fragments_sent_once change :
  fragment_size_ change ≠ 0 → 1 <= fragment_count_ change → fragment_count_ change + 257 < 2 ^ 32 →
  ∃ c', send_fragments (Z.to_nat (fragment_count_ change)) (cfr_make change) =
          Some (seqZ 1 (fragment_count_ change), c') ∧
        bm_empty (unsent_fragments_ c') = true ∧ get_next_unsent_fragment c' = fragment_count_ change + 1.
Proof.
  intros Hs Hc Hr. set (count := fragment_count_ change) in *.
  destruct (send_fragments_spec (Z.to_nat count) count 0 (cfr_make change)) as (c' & E & Hw & Ec);
    [| done | done | lia | lia | done |].
  - cbn [unsent_fragments_ cfr_make]. rewrite (proj2 (Z.eqb_neq _ _) Hs). cbn [negb]. by apply window_start.
  - exists c'. rewrite E. rewrite Z2Nat.id by lia. split; [done|].
    assert (bm_empty (unsent_fragments_ c') = true) as He by (rewrite (window_empty _ _ _ Hw); lia).
    split; [done|]. unfold get_next_unsent_fragment. rewrite He, Ec. apply u32_small. zwidth.
Qed.

Definition test_fragmented : CacheChange_t := {|
  cc_kind := ALIVE; writerGUID := Guid.c_Guid_Unknown; instanceHandle := None; sequenceNumber := SeqNum 0 1;
  serializedPayload := pl_default; inline_qos := pl_default; sourceTimestamp := Time.time_zero;
  vendor_id := []; fragment_size_ := 1000; fragment_count_ := 700; first_missing_fragment_ := 700 |}.

