(* ===== verification/ReaderProxy.v ===== *)
(** * ReaderProxy and ReaderLocator (src/cpp/rtps/writer/ReaderProxy.cpp, ReaderLocator.cpp)

    The state a stateful writer keeps of each reader it is matched with: the
    changes the reader has not acknowledged yet with their status, the number up
    to which everything is acknowledged, and the destination of the messages.

    The two timed events exist when the writer belongs to a participant. What a
    function does outside of the proxy is returned as a list of effects. *)

From Stdlib Require Import ZArith Lia ZifyBool.
From stdpp Require Import base numbers list option list_numbers.
From S2P Require Import Prelude SequenceNumber BitmapRange SortedRange Guid TimedEvent CacheChange ChangeForReader GapBuilder.

Open Scope Z_scope.

(** ** ReaderLocator *)

Record ReaderLocator := {
  general_locator_info_ : LocatorSelectorEntry;
  async_locator_info_ : LocatorSelectorEntry;
  rl_expects_inline_qos_ : bool;
  is_local_reader_ : bool;
  rl_guid_as_vector_ : GUID_t;
  rl_guid_prefix_as_vector_ : GuidPrefix_t;
  (** The notifier of a writer that supports data sharing, with whether it is enabled. *)
  datasharing_notifier_ : option bool
}.

Definition rl_make (datasharing_compatible : bool) : ReaderLocator :=
  {| general_locator_info_ := entry_make; async_locator_info_ := entry_make; rl_expects_inline_qos_ := false;
     is_local_reader_ := false; rl_guid_as_vector_ := c_Guid_Unknown; rl_guid_prefix_as_vector_ := c_GuidPrefix_Unknown;
     datasharing_notifier_ := if datasharing_compatible then Some false else None |}.

Definition rl_remote_guid (r : ReaderLocator) : GUID_t := remote_guid (general_locator_info_ r).
Definition is_datasharing_reader (r : ReaderLocator) : bool :=
  match datasharing_notifier_ r with Some e => e | None => false end.

(** [reset()] and [enable(true)] on an entry whose GUID and locators have been assigned. *)
Definition entry_start (guid : GUID_t) (uni multi : list Locator_t) (e : LocatorSelectorEntry) : LocatorSelectorEntry :=
  entry_enable true (entry_reset (entry_assign guid uni multi e)).

Definition rl_start (should_intraprocess : GUID_t → bool) (guid : GUID_t) (uni multi : list Locator_t)
    (expects_inline_qos is_datasharing : bool) (r : ReaderLocator) : bool * ReaderLocator :=
  if guid_eqb (remote_guid (general_locator_info_ r)) c_Guid_Unknown then
    let local := should_intraprocess guid in
    let datasharing := is_datasharing && negb local in
    let general := general_locator_info_ r in
    let async := async_locator_info_ r in
    let with_locators := negb local && negb datasharing in
    (true,
     {| general_locator_info_ := if with_locators then entry_start guid uni multi general
                                 else entry_start guid (unicast general) (multicast general) general;
        async_locator_info_ := if with_locators then entry_start guid uni multi async
                               else entry_start guid (unicast async) (multicast async) async;
        rl_expects_inline_qos_ := expects_inline_qos;
        is_local_reader_ := local;
        rl_guid_as_vector_ := guid; rl_guid_prefix_as_vector_ := guidPrefix guid;
        datasharing_notifier_ := if datasharing then Some true else datasharing_notifier_ r |})
  else (false, r).

Definition rl_update (uni multi : list Locator_t) (expects_inline_qos : bool) (r : ReaderLocator) : bool * ReaderLocator :=
  let general := general_locator_info_ r in
  let async := async_locator_info_ r in
  let ret1 := negb (Bool.eqb (rl_expects_inline_qos_ r) expects_inline_qos) in
  if bool_decide (unicast general ≠ uni) || bool_decide (multicast general ≠ multi) then
    let with_locators := negb (is_local_reader_ r) && negb (is_datasharing_reader r) in
    (true,
     {| general_locator_info_ := if with_locators then entry_start (remote_guid general) uni multi general
                                 else entry_enable true (entry_reset general);
        async_locator_info_ := if with_locators then entry_start (remote_guid async) uni multi async
                               else entry_enable true (entry_reset async);
        rl_expects_inline_qos_ := expects_inline_qos; is_local_reader_ := is_local_reader_ r;
        rl_guid_as_vector_ := rl_guid_as_vector_ r; rl_guid_prefix_as_vector_ := rl_guid_prefix_as_vector_ r;
        datasharing_notifier_ := datasharing_notifier_ r |})
  else
    (ret1,
     {| general_locator_info_ := general; async_locator_info_ := async;
        rl_expects_inline_qos_ := expects_inline_qos; is_local_reader_ := is_local_reader_ r;
        rl_guid_as_vector_ := rl_guid_as_vector_ r; rl_guid_prefix_as_vector_ := rl_guid_prefix_as_vector_ r;
        datasharing_notifier_ := datasharing_notifier_ r |}).

Definition rl_stop (r : ReaderLocator) : ReaderLocator :=
  let clear e := entry_assign c_Guid_Unknown [] [] (entry_reset (entry_enable false e)) in
  {| general_locator_info_ := clear (general_locator_info_ r); async_locator_info_ := clear (async_locator_info_ r);
     rl_expects_inline_qos_ := false; is_local_reader_ := false;
     rl_guid_as_vector_ := c_Guid_Unknown; rl_guid_prefix_as_vector_ := c_GuidPrefix_Unknown;
     datasharing_notifier_ := match datasharing_notifier_ r with Some _ => Some false | None => None end |}.

(** [stop(remote_guid)] *)
Definition rl_stop_if (guid : GUID_t) (r : ReaderLocator) : bool * ReaderLocator :=
  if guid_eqb (remote_guid (general_locator_info_ r)) guid then (true, rl_stop r) else (false, r).

(** [send] through the participant: to the unicast locators if there are any. *)
Definition rl_send (sendSync : list Locator_t → bool) (r : ReaderLocator) : bool :=
  let general := general_locator_info_ r in
  if guid_neb (remote_guid general) c_Guid_Unknown && negb (is_local_reader_ r) then
    if (0 <? length (unicast general))%nat then sendSync (unicast general) else sendSync (multicast general)
  else true.

(** ** ReaderProxy *)

Inductive DurabilityKind_t := VOLATILE | TRANSIENT_LOCAL | TRANSIENT | PERSISTENT.

#[global] Instance DurabilityKind_eq_dec : EqDecision DurabilityKind_t.
Proof. solve_decision. Defined.

(** What the proxy asks of its [StatefulWriter]: the bounds and the changes of its history, the
    filter of the reader's content and the intraprocess decision for the writer. *)
Record WriterInfo := {
  wi_seq_num_min : SequenceNumber_t;
  wi_next_sequence_number : SequenceNumber_t;
  wi_get_change : SequenceNumber_t → option CacheChange_t;
  wi_data_filter : option (CacheChange_t → GUID_t → bool);
  wi_should_intraprocess : GUID_t → bool
}.

Record ReaderProxyData := {
  rpd_guid : GUID_t;
  rpd_unicast : list Locator_t;
  rpd_multicast : list Locator_t;
  rpd_expects_inline_qos : bool;
  rpd_durability : DurabilityKind_t;
  rpd_best_effort : bool;
  rpd_disable_positive_acks : bool
}.

Record ReaderProxy := {
  is_active_ : bool;
  locator_info_ : ReaderLocator;
  durability_kind_ : DurabilityKind_t;
  expects_inline_qos_ : bool;
  is_reliable_ : bool;
  disable_positive_acks_ : bool;
  changes_for_reader_ : list ChangeForReader_t;
  nack_supression_event_ : option TimedEventImpl;
  initial_heartbeat_event_ : option TimedEventImpl;
  timers_enabled_ : bool;
  next_expected_acknack_count_ : Z;
  last_nackfrag_count_ : Z;
  changes_low_mark_ : SequenceNumber_t
}.

Inductive RPEffect :=
| NackSupressionTimer (c : ServiceCall)
| InitialHeartbeatTimer (c : ServiceCall)
| IntraprocessGap (seq_num : SequenceNumber_t).

Definition rp_guid (r : ReaderProxy) : GUID_t := rl_remote_guid (locator_info_ r).
Definition is_local_reader (r : ReaderProxy) : bool := is_local_reader_ (locator_info_ r).
Definition is_remote_and_reliable (r : ReaderProxy) : bool :=
  negb (is_local_reader_ (locator_info_ r)) && negb (is_datasharing_reader (locator_info_ r)) && is_reliable_ r.

(** Assignment of the tracked changes and of the low mark. *)
Definition rp_set_changes (l : list ChangeForReader_t) (low_mark : SequenceNumber_t) (r : ReaderProxy) : ReaderProxy :=
  {| is_active_ := is_active_ r; locator_info_ := locator_info_ r; durability_kind_ := durability_kind_ r;
     expects_inline_qos_ := expects_inline_qos_ r; is_reliable_ := is_reliable_ r;
     disable_positive_acks_ := disable_positive_acks_ r; changes_for_reader_ := l;
     nack_supression_event_ := nack_supression_event_ r; initial_heartbeat_event_ := initial_heartbeat_event_ r;
     timers_enabled_ := timers_enabled_ r; next_expected_acknack_count_ := next_expected_acknack_count_ r;
     last_nackfrag_count_ := last_nackfrag_count_ r; changes_low_mark_ := low_mark |}.

Definition rp_set_nack_timer (e : option TimedEventImpl) (r : ReaderProxy) : ReaderProxy :=
  {| is_active_ := is_active_ r; locator_info_ := locator_info_ r; durability_kind_ := durability_kind_ r;
     expects_inline_qos_ := expects_inline_qos_ r; is_reliable_ := is_reliable_ r;
     disable_positive_acks_ := disable_positive_acks_ r; changes_for_reader_ := changes_for_reader_ r;
     nack_supression_event_ := e; initial_heartbeat_event_ := initial_heartbeat_event_ r;
     timers_enabled_ := timers_enabled_ r; next_expected_acknack_count_ := next_expected_acknack_count_ r;
     last_nackfrag_count_ := last_nackfrag_count_ r; changes_low_mark_ := changes_low_mark_ r |}.

Definition rp_set_counts (acknack nackfrag : Z) (r : ReaderProxy) : ReaderProxy :=
  {| is_active_ := is_active_ r; locator_info_ := locator_info_ r; durability_kind_ := durability_kind_ r;
     expects_inline_qos_ := expects_inline_qos_ r; is_reliable_ := is_reliable_ r;
     disable_positive_acks_ := disable_positive_acks_ r; changes_for_reader_ := changes_for_reader_ r;
     nack_supression_event_ := nack_supression_event_ r; initial_heartbeat_event_ := initial_heartbeat_event_ r;
     timers_enabled_ := timers_enabled_ r; next_expected_acknack_count_ := acknack;
     last_nackfrag_count_ := nackfrag; changes_low_mark_ := changes_low_mark_ r |}.

(** [find_change(seq_num, exact)]: a position, the length of the container for [end()]. *)
Definition find_change (seq_num : SequenceNumber_t) (exact : bool) (l : list ChangeForReader_t) : nat :=
  let it := lower_bound (λ c, (seq_num_ c <? seq_num)%sn) l in
  if negb exact then it
  else match l !! it with
       | None => it
       | Some c => if (seq_num_ c =? seq_num)%sn then it else length l
       end.

Definition has_changes (r : ReaderProxy) : bool := negb (bool_decide (changes_for_reader_ r = [])).

Definition rtps_is_relevant (wi : WriterInfo) (change : CacheChange_t) (r : ReaderProxy) : bool :=
  match wi_data_filter wi with Some f => f change (rp_guid r) | None => true end.

Definition change_is_acked (seq_num : SequenceNumber_t) (r : ReaderProxy) : bool :=
  if (seq_num <=? changes_low_mark_ r)%sn || bool_decide (changes_for_reader_ r = []) then true
  else match changes_for_reader_ r !! find_change seq_num true (changes_for_reader_ r) with
       | None => true
       | Some c => bool_decide (status_ c = ACKNOWLEDGED)
       end.

(** Results of [change_is_unsent]: the returned value and the three output arguments, whose
    values before the call are given. *)
Record UnsentResult := {
  un_returned : bool;
  un_next_fragment : FragmentNumber_t;
  un_gap_seq : SequenceNumber_t;
  un_reactivate : bool
}.

Definition change_is_unsent (seq_num : SequenceNumber_t) (next_unsent_frag : FragmentNumber_t)
    (gap_seq min_seq : SequenceNumber_t) (need_reactivate : bool) (r : ReaderProxy) : UnsentResult :=
  let unchanged := {| un_returned := false; un_next_fragment := next_unsent_frag; un_gap_seq := gap_seq;
                      un_reactivate := need_reactivate |} in
  let l := changes_for_reader_ r in
  if (seq_num <=? changes_low_mark_ r)%sn || bool_decide (l = []) then unchanged
  else
    let chit := find_change seq_num true l in
    match l !! chit with
    | None => unchanged
    | Some c =>
        if decide (status_ c = UNSENT) then
          if is_reliable_ r && negb (delivered_ c) then
            let prev := ((match chit with
                          | O => changes_low_mark_ r
                          | S p => match l !! p with Some c' => seq_num_ c' | None => changes_low_mark_ r end
                          end) + 1)%sn in
            let gap := if sn_neb prev (seq_num_ c)
                       then if (prev <? min_seq)%sn
                            then if (min_seq <? seq_num)%sn then min_seq else sn_unknown
                            else prev
                       else sn_unknown in
            {| un_returned := true; un_next_fragment := get_next_unsent_fragment c; un_gap_seq := gap;
               un_reactivate := true |}
          else {| un_returned := true; un_next_fragment := get_next_unsent_fragment c; un_gap_seq := sn_unknown;
                  un_reactivate := need_reactivate |}
        else unchanged
    end.

(** Advances over the acknowledged changes that follow; returns what is left and the mark. *)
Fixpoint skip_acked (l : list ChangeForReader_t) (future_low_mark : SequenceNumber_t) :
    list ChangeForReader_t * SequenceNumber_t :=
  match l with
  | c :: l' => if (seq_num_ c =? future_low_mark)%sn && bool_decide (status_ c = ACKNOWLEDGED)
               then skip_acked l' (sn_incr future_low_mark) else (l, future_low_mark)
  | [] => ([], future_low_mark)
  end.

(** The inner loop that skips consecutive changes already in the collection. *)
Fixpoint skip_present (l : list ChangeForReader_t) (current low_mark : SequenceNumber_t) : SequenceNumber_t :=
  match l with
  | c :: l' => if (current <=? low_mark)%sn && (seq_num_ c =? current)%sn
               then skip_present l' (sn_incr current) low_mark else current
  | [] => current
  end.

(** The loop that puts the changes of the history up to the low mark back into the collection; it
    runs at most once per number up to the mark, which is the fuel it is given. *)
Fixpoint relist (n : nat) (wi : WriterInfo) (current low_mark : SequenceNumber_t) (l : list ChangeForReader_t) :
    list ChangeForReader_t * bool :=
  match n with
  | O => (l, false)
  | S n' =>
      if (current <=? low_mark)%sn then
        let current := skip_present (drop (find_change current true l) l) current low_mark in
        let '(l', sort) :=
          if (current <=? low_mark)%sn then
            match wi_get_change wi current with
            | Some change => (l ++ [cfr_set_status UNACKNOWLEDGED (cfr_make change)], true)
            | None => (l, false)
            end
          else (l, false) in
        let '(l'', sort') := relist n' wi (sn_incr current) low_mark l' in (l'', sort || sort')
      else (l, false)
  end.

(** [std::sort] with [ChangeForReaderCmp]; the sequence numbers are distinct. *)
Definition sort_changes (l : list ChangeForReader_t) : list ChangeForReader_t :=
  foldr (λ c l', insert_at (lower_bound (λ c', (seq_num_ c' <? seq_num_ c)%sn) l') c l') [] l.

Definition acked_changes_set (wi : WriterInfo) (seq_num : SequenceNumber_t) (r : ReaderProxy) : ReaderProxy :=
  let l := changes_for_reader_ r in
  let low_mark := changes_low_mark_ r in
  if (seq_num >? low_mark)%sn then
    let '(l', future_low_mark) := skip_acked (drop (find_change seq_num false l) l) seq_num in
    rp_set_changes l' (future_low_mark - 1)%sn r
  else if (seq_num =? sn_zero)%sn && bool_decide (durability_kind_ r ≠ VOLATILE) then
    let min_sequence := wi_seq_num_min wi in
    if sn_neb min_sequence sn_unknown then
      let current := if (seq_num <? min_sequence)%sn then min_sequence else seq_num in
      let '(l', should_sort) := relist (Z.to_nat (snz low_mark + 1 - snz current)) wi current low_mark l in
      rp_set_changes (if should_sort then sort_changes l' else l') (current - 1)%sn r
    else
      let future_low_mark := if negb (is_local_reader r) then wi_next_sequence_number wi else (low_mark + 1)%sn in
      rp_set_changes l (future_low_mark - 1)%sn r
  else rp_set_changes l (low_mark + 1 - 1)%sn r.

(** The collection has room for every change of the writer's history. *)
Definition add_change (change : ChangeForReader_t) (is_relevant : bool) (r : ReaderProxy) : ReaderProxy :=
  if negb is_relevant then
    if negb (is_reliable_ r) && (changes_low_mark_ r + 1 =? seq_num_ change)%sn
    then rp_set_changes (changes_for_reader_ r) (seq_num_ change) r else r
  else rp_set_changes (changes_for_reader_ r ++ [change]) (changes_low_mark_ r) r.

Definition restart_nack_supression_timer (r : ReaderProxy) : ReaderProxy * list RPEffect :=
  match nack_supression_event_ r with
  | Some e => let '(e', calls) := te_restart_timer e in (rp_set_nack_timer (Some e') r, NackSupressionTimer <$> calls)
  | None => (r, [])
  end.

(** [add_change(change, is_relevant, restart_nack_supression)], with and without a time limit. *)
Definition add_change_restart (change : ChangeForReader_t) (is_relevant restart_nack_supression : bool)
    (r : ReaderProxy) : ReaderProxy * list RPEffect :=
  let '(r', effects) := if restart_nack_supression && timers_enabled_ r
                        then restart_nack_supression_timer r else (r, []) in
  (add_change change is_relevant r', effects).

Definition cancel_event (e : option TimedEventImpl) : option TimedEventImpl * list ServiceCall :=
  match e with
  | Some e => let '(e', calls) := te_cancel_timer e in (Some e', calls)
  | None => (None, [])
  end.

Definition disable_timers (r : ReaderProxy) : ReaderProxy * list RPEffect :=
  let '(nack, nack_calls) := if timers_enabled_ r then cancel_event (nack_supression_event_ r)
                             else (nack_supression_event_ r, []) in
  let '(hb, hb_calls) := cancel_event (initial_heartbeat_event_ r) in
  ({| is_active_ := is_active_ r; locator_info_ := locator_info_ r; durability_kind_ := durability_kind_ r;
      expects_inline_qos_ := expects_inline_qos_ r; is_reliable_ := is_reliable_ r;
      disable_positive_acks_ := disable_positive_acks_ r; changes_for_reader_ := changes_for_reader_ r;
      nack_supression_event_ := nack; initial_heartbeat_event_ := hb; timers_enabled_ := false;
      next_expected_acknack_count_ := next_expected_acknack_count_ r;
      last_nackfrag_count_ := last_nackfrag_count_ r; changes_low_mark_ := changes_low_mark_ r |},
   (NackSupressionTimer <$> nack_calls) ++ (InitialHeartbeatTimer <$> hb_calls)).

Definition rp_stop (r : ReaderProxy) : ReaderProxy * list RPEffect :=
  let '(r1, effects) := disable_timers r in
  ({| is_active_ := false; locator_info_ := rl_stop (locator_info_ r1); durability_kind_ := durability_kind_ r1;
      expects_inline_qos_ := expects_inline_qos_ r1; is_reliable_ := is_reliable_ r1;
      disable_positive_acks_ := disable_positive_acks_ r1; changes_for_reader_ := [];
      nack_supression_event_ := nack_supression_event_ r1; initial_heartbeat_event_ := initial_heartbeat_event_ r1;
      timers_enabled_ := timers_enabled_ r1; next_expected_acknack_count_ := 0; last_nackfrag_count_ := 0;
      changes_low_mark_ := sn_zero |}, effects).

(** The constructor; [events] are the intervals of the two events and the clock at their creation
    when the writer belongs to a participant. *)
Definition rp_make (datasharing_compatible : bool) (events : option (Z * Z)) : ReaderProxy * list RPEffect :=
  let nack := (λ p, te_make (fst p) (snd p)) <$> events in
  let hb := (λ p, te_make 0 (snd p)) <$> events in
  let '(r, effects) := rp_stop
    {| is_active_ := false; locator_info_ := rl_make datasharing_compatible; durability_kind_ := VOLATILE;
       expects_inline_qos_ := false; is_reliable_ := false; disable_positive_acks_ := false;
       changes_for_reader_ := []; nack_supression_event_ := nack; initial_heartbeat_event_ := hb;
       timers_enabled_ := false; next_expected_acknack_count_ := 0; last_nackfrag_count_ := 0;
       changes_low_mark_ := sn_zero |} in
  (r, match events with
      | Some _ => [NackSupressionTimer RegisterTimer; InitialHeartbeatTimer RegisterTimer]
      | None => []
      end ++ effects).

Definition rp_start (wi : WriterInfo) (attributes : ReaderProxyData) (is_datasharing : bool) (r : ReaderProxy) :
    ReaderProxy * list RPEffect :=
  let '(_, locator) := rl_start (wi_should_intraprocess wi) (rpd_guid attributes) (rpd_unicast attributes)
                         (rpd_multicast attributes) (rpd_expects_inline_qos attributes) is_datasharing (locator_info_ r) in
  let r1 :=
    {| is_active_ := true; locator_info_ := locator; durability_kind_ := rpd_durability attributes;
       expects_inline_qos_ := rpd_expects_inline_qos attributes; is_reliable_ := negb (rpd_best_effort attributes);
       disable_positive_acks_ := rpd_disable_positive_acks attributes; changes_for_reader_ := changes_for_reader_ r;
       nack_supression_event_ := nack_supression_event_ r; initial_heartbeat_event_ := initial_heartbeat_event_ r;
       timers_enabled_ := timers_enabled_ r; next_expected_acknack_count_ := next_expected_acknack_count_ r;
       last_nackfrag_count_ := last_nackfrag_count_ r; changes_low_mark_ := changes_low_mark_ r |} in
  let r2 :=
    if decide (durability_kind_ r1 = VOLATILE) then
      let min_sequence := wi_seq_num_min wi in
      rp_set_changes (changes_for_reader_ r1)
        (if (min_sequence =? sn_unknown)%sn then (wi_next_sequence_number wi - 1)%sn else (min_sequence - 1)%sn) r1
    else acked_changes_set wi sn_zero r1 in
  let '(hb, calls) :=
    match initial_heartbeat_event_ r2 with
    | Some e => if is_local_reader r2 then let '(e', calls) := te_restart_timer e in (Some e', calls) else (Some e, [])
    | None => (None, [])
    end in
  ({| is_active_ := is_active_ r2; locator_info_ := locator_info_ r2; durability_kind_ := durability_kind_ r2;
      expects_inline_qos_ := expects_inline_qos_ r2; is_reliable_ := is_reliable_ r2;
      disable_positive_acks_ := disable_positive_acks_ r2; changes_for_reader_ := changes_for_reader_ r2;
      nack_supression_event_ := nack_supression_event_ r2; initial_heartbeat_event_ := hb;
      timers_enabled_ := is_remote_and_reliable r2; next_expected_acknack_count_ := next_expected_acknack_count_ r2;
      last_nackfrag_count_ := last_nackfrag_count_ r2; changes_low_mark_ := changes_low_mark_ r2 |},
   InitialHeartbeatTimer <$> calls).

Definition rp_update (attributes : ReaderProxyData) (r : ReaderProxy) : ReaderProxy :=
  {| is_active_ := is_active_ r;
     locator_info_ := snd (rl_update (rpd_unicast attributes) (rpd_multicast attributes)
                             (rpd_expects_inline_qos attributes) (locator_info_ r));
     durability_kind_ := rpd_durability attributes;
     expects_inline_qos_ := rpd_expects_inline_qos attributes; is_reliable_ := negb (rpd_best_effort attributes);
     disable_positive_acks_ := rpd_disable_positive_acks attributes; changes_for_reader_ := changes_for_reader_ r;
     nack_supression_event_ := nack_supression_event_ r; initial_heartbeat_event_ := initial_heartbeat_event_ r;
     timers_enabled_ := timers_enabled_ r; next_expected_acknack_count_ := next_expected_acknack_count_ r;
     last_nackfrag_count_ := last_nackfrag_count_ r; changes_low_mark_ := changes_low_mark_ r |}.

Definition update_nack_supression_interval (interval : Duration_t) (r : ReaderProxy) : ReaderProxy :=
  rp_set_nack_timer (te_update_interval interval <$> nack_supression_event_ r) r.

Definition check_and_set_acknack_count (acknack_count : Z) (r : ReaderProxy) : bool * ReaderProxy :=
  if acknack_count >=? next_expected_acknack_count_ r
  then (true, rp_set_counts (u32 (acknack_count + 1)) (last_nackfrag_count_ r) r) else (false, r).

(** One number of the set of an ACKNACK: state of the collection, of the gap builder, the
    messages it sent and whether some change has been requested. *)
Record RequestState := {
  rq_changes : list ChangeForReader_t;
  rq_gaps : RTPSGapBuilder;
  rq_sent : list Gap;
  rq_someone : bool
}.

Definition request_one (add_gap : Gap → bool) (min_seq_in_history low_mark sit : SequenceNumber_t)
    (s : RequestState) : RequestState :=
  let l := rq_changes s in
  let chit := find_change sit true l in
  match l !! chit with
  | Some c =>
      if decide (status_ c = UNACKNOWLEDGED)
      then {| rq_changes := <[chit := markAllFragmentsAsUnsent (cfr_set_status REQUESTED c)]> l;
              rq_gaps := rq_gaps s; rq_sent := rq_sent s; rq_someone := true |}
      else s
  | None =>
      if (sit >=? min_seq_in_history)%sn && (sit >? low_mark)%sn then
        let '(_, g, sent) := gb_add add_gap sit (rq_gaps s) in
        {| rq_changes := l; rq_gaps := g; rq_sent := rq_sent s ++ sent; rq_someone := rq_someone s |}
      else s
  end.

Definition requested_changes_set (add_gap : Gap → bool) (seq_num_set : SequenceNumberSet_t)
    (gap_builder : RTPSGapBuilder) (min_seq_in_history : SequenceNumber_t) (r : ReaderProxy) :
    bool * ReaderProxy * RTPSGapBuilder * list Gap :=
  if sn_neb sn_unknown min_seq_in_history then
    let s := foldl (λ s sit, request_one add_gap min_seq_in_history (changes_low_mark_ r) sit s)
               {| rq_changes := changes_for_reader_ r; rq_gaps := gap_builder; rq_sent := []; rq_someone := false |}
               (bm_for_each seq_num_set) in
    (rq_someone s, rp_set_changes (rq_changes s) (changes_low_mark_ r) r, rq_gaps s, rq_sent s)
  else (false, r, gap_builder, []).

(** The number of changes converted (a [uint32_t]), the proxy and the changes handed to the
    callback, in order. *)
Definition convert_status_on_all_changes (previous next : ChangeForReaderStatus_t) (r : ReaderProxy) :
    Z * ReaderProxy * list ChangeForReader_t :=
  let l := changes_for_reader_ r in
  let converted := filter (λ c, status_ c = previous) l in
  (u32 (Z.of_nat (length converted)),
   rp_set_changes ((λ c, if decide (status_ c = previous) then cfr_set_status next c else c) <$> l) (changes_low_mark_ r) r,
   cfr_set_status next <$> converted).

Definition process_initial_acknack (r : ReaderProxy) : bool * ReaderProxy * list ChangeForReader_t :=
  if is_local_reader r then
    let '(n, r', calls) := convert_status_on_all_changes UNACKNOWLEDGED UNSENT r in (negb (0 =? n), r', calls)
  else (true, r, []).

Definition perform_nack_supression (r : ReaderProxy) : bool * ReaderProxy :=
  let '(n, r', _) := convert_status_on_all_changes UNDERWAY UNACKNOWLEDGED r in (negb (0 =? n), r').

Definition perform_acknack_response (r : ReaderProxy) : Z * ReaderProxy * list ChangeForReader_t :=
  convert_status_on_all_changes REQUESTED UNSENT r.

(** No result when the change is not in the collection, which its callers exclude. *)
Definition from_unsent_to_status (wi : WriterInfo) (seq_num : SequenceNumber_t) (status : ChangeForReaderStatus_t)
    (restart_nack_supression delivered : bool) (r : ReaderProxy) : option (ReaderProxy * list RPEffect) :=
  let '(r1, effects) := if restart_nack_supression && is_remote_and_reliable r
                        then restart_nack_supression_timer r else (r, []) in
  let l := changes_for_reader_ r1 in
  let it := find_change seq_num true l in
  if bool_decide (status = ACKNOWLEDGED) && (seq_num =? changes_low_mark_ r1 + 1)%sn then
    if (it <? length l)%nat
    then Some (acked_changes_set wi (seq_num + 1)%sn (rp_set_changes (erase_at it l) (changes_low_mark_ r1) r1), effects)
    else None
  else
    c ← l !! it;
    let c' := cfr_set_status status c in
    Some (rp_set_changes (<[it := if delivered then set_delivered c' else c']> l) (changes_low_mark_ r1) r1, effects).

(** Whether the change was found, whether it was its last fragment, and the proxy. *)
Definition mark_fragment_as_sent_for_change (seq_num : SequenceNumber_t) (frag_num : FragmentNumber_t) (r : ReaderProxy) :
    option (bool * bool * ReaderProxy) :=
  if (seq_num <=? changes_low_mark_ r)%sn then Some (false, false, r)
  else
    let l := changes_for_reader_ r in
    let it := find_change seq_num true l in
    match l !! it with
    | Some c => c' ← markFragmentsAsSent frag_num c;
                Some (true, bm_empty (unsent_fragments_ c'), rp_set_changes (<[it := c']> l) (changes_low_mark_ r) r)
    | None => Some (false, false, r)
    end.

Definition change_has_been_removed (wi : WriterInfo) (seq_num : SequenceNumber_t) (r : ReaderProxy) : ReaderProxy * list RPEffect :=
  let l := changes_for_reader_ r in
  match l with
  | [] => (r, [])
  | first :: _ =>
      if (seq_num <? seq_num_ first)%sn then (r, [])
      else
        let chit := find_change seq_num true l in
        match l !! chit with
        | None => (r, [])
        | Some c =>
            let effects := if is_local_reader r && (status_value ACKNOWLEDGED >? status_value (status_ c))
                           then [IntraprocessGap seq_num] else [] in
            let r1 := rp_set_changes (erase_at chit l) (changes_low_mark_ r) r in
            (if (changes_low_mark_ r + 1 =? seq_num)%sn then acked_changes_set wi (seq_num + 1)%sn r1 else r1, effects)
        end
  end.

Definition has_unacknowledged (first_seq_in_history : SequenceNumber_t) (r : ReaderProxy) : bool :=
  if (first_seq_in_history >? changes_low_mark_ r)%sn then true
  else existsb (λ c, bool_decide (status_ c = UNACKNOWLEDGED)) (changes_for_reader_ r).

Definition requested_fragment_set (seq_num : SequenceNumber_t) (frag_set : FragmentNumberSet_t) (r : ReaderProxy) : bool * ReaderProxy :=
  let l := changes_for_reader_ r in
  let it := find_change seq_num true l in
  match l !! it with
  | None => (false, r)
  | Some c =>
      let c1 := markFragmentsAsUnsent frag_set c in
      let c2 := if decide (status_ c1 = UNSENT) then c1 else cfr_set_status REQUESTED c1 in
      (true, rp_set_changes (<[it := c2]> l) (changes_low_mark_ r) r)
  end.

Definition process_nack_frag (reader_guid : GUID_t) (nack_count : Z) (seq_num : SequenceNumber_t)
    (fragments_state : FragmentNumberSet_t) (r : ReaderProxy) : bool * ReaderProxy :=
  if guid_eqb (rp_guid r) reader_guid && (last_nackfrag_count_ r <? nack_count)
  then requested_fragment_set seq_num fragments_state (rp_set_counts (next_expected_acknack_count_ r) nack_count r)
  else (false, r).

(** The returned value and the output argument [found], which is set only when the change is in
    the collection. *)
Definition has_been_delivered (seq_number : SequenceNumber_t) (found : bool) (r : ReaderProxy) : bool * bool :=
  if (seq_number <=? changes_low_mark_ r)%sn then (true, found)
  else match changes_for_reader_ r !! find_change seq_number true (changes_for_reader_ r) with
       | Some c => (delivered_ c, true)
       | None => (false, found)
       end.
