(* ===== verification/ReaderProxyFacts.v ===== *)
(** * What the reader proxy guarantees

    [rp_ok] is the invariant of [ReaderProxy]: the collection is sorted by
    sequence number and lies above the low mark. Lemmas on the search of changes
    and on the functions that change the collection. *)

From Stdlib Require Import ZArith Lia ZifyBool Sorting.Sorted.
From stdpp Require Import base numbers list option list_numbers sorting sets.
From S2P Require Import Prelude SequenceNumber BitmapRange BitmapFacts SortedRange Guid TimedEvent.
From S2P Require Import CacheChange ChangeForReader GapBuilder ReaderProxy.

Open Scope Z_scope.

(** The key of the collection. *)
Definition cz (c : ChangeForReader_t) : Z := snz (seq_num_ c).

Definition cz_ok (l : list ChangeForReader_t) : Prop := Forall (λ c, sn_ok (seq_num_ c)) l.

Record rp_ok (r : ReaderProxy) : Prop := {
  rp_low_ok : sn_ok (changes_low_mark_ r);
  rp_elems : cz_ok (changes_for_reader_ r);
  rp_sorted : ksorted cz (changes_for_reader_ r);
  rp_above : Forall (λ c, snz (changes_low_mark_ r) < cz c) (changes_for_reader_ r)
}.

(** What the proxy may rely on of the writer: numbers in use, and a lookup in the history that
    returns the change asked for. *)
Record wi_ok (wi : WriterInfo) : Prop := {
  wi_next_ok : sn_ok (wi_next_sequence_number wi);
  wi_next_pos : 1 <= snz (wi_next_sequence_number wi);
  wi_min_ok : wi_seq_num_min wi = sn_unknown ∨ sn_ok (wi_seq_num_min wi) ∧ 1 <= snz (wi_seq_num_min wi);
  wi_lookup : ∀ s ch, wi_get_change wi s = Some ch → sequenceNumber ch = s
}.

(** The collection holds changes of the history. *)
Definition in_history (wi : WriterInfo) (l : list ChangeForReader_t) : Prop :=
  if decide (wi_seq_num_min wi = sn_unknown) then l = []
  else Forall (λ c, snz (wi_seq_num_min wi) <= cz c) l.

Lemma sn_ok_inj a b : sn_ok a → sn_ok b → snz a = snz b → a = b.
Proof. intros. apply sn_val_inj; [by apply sn_ok_wf.. | done]. Qed.

(** ** Searching *)

Section Find.
Context (l : list ChangeForReader_t) (Hok : cz_ok l) (Hs : ksorted cz l).

Lemma cz_comp s : sn_ok s → ∀ c, c ∈ l → (seq_num_ c <? s)%sn = (cz c <? snz s).
Proof using Hok.
  intros Hsn c Hc. unfold cz_ok in Hok. rewrite Forall_forall in Hok.
  apply sn_ltb_snz; apply sn_ok_wf; [by apply Hok | done].
Qed.

Lemma find_change_Some s c :
  sn_ok s → l !! find_change s true l = Some c ↔ c ∈ l ∧ cz c = snz s.
Proof using Hok Hs.
  intros Hsn. unfold find_change. cbn [negb]. set (it := lower_bound _ l).
  assert (∀ c, c ∈ l → sn_ok (seq_num_ c)) as Hel by (by apply Forall_forall).
  split.
  - destruct (l !! it) as [c'|] eqn:E; [|by rewrite E].
    pose proof (list_elem_of_lookup_2 _ _ _ E) as Hc'.
    rewrite sn_eqb_snz by (apply sn_ok_wf; auto). destruct (Z.eqb_spec (snz (seq_num_ c')) (snz s)).
    + rewrite E. by intros [= <-].
    + rewrite (proj2 (lookup_ge_None l (length l))) by lia. done.
  - intros [Hc E]. pose proof (lower_bound_lookup cz _ (snz s) l c Hs (cz_comp s Hsn) Hc E) as Hl. fold it in Hl.
    rewrite Hl. rewrite sn_eqb_snz by (apply sn_ok_wf; auto). unfold cz in E. rewrite E, Z.eqb_refl. done.
Qed.

Lemma find_change_None s :
  sn_ok s → l !! find_change s true l = None ↔ ∀ c, c ∈ l → cz c ≠ snz s.
Proof using Hok Hs.
  intros Hsn. rewrite eq_None_not_Some. split.
  - intros Hn c Hc E. apply Hn. exists c. by apply find_change_Some.
  - intros H [c Hc]. apply find_change_Some in Hc as [Hc E]; [|done]. by apply (H c).
Qed.

Lemma find_change_index s i c :
  sn_ok s → l !! i = Some c → cz c = snz s → find_change s true l = i.
Proof using Hok Hs.
  intros Hsn Hi E. assert (l !! find_change s true l = Some c) as Hf.
  { apply find_change_Some; [done|]. split; [by eapply list_elem_of_lookup_2 | done]. }
  clear Hok. revert i Hi Hf. set (j := find_change s true l). clearbody j. revert j.
  induction l as [|a l' IH]; intros j i Hi Hf; [done|]. apply ksorted_cons in Hs as [Hs' Ha].
  rewrite Forall_forall in Ha. destruct i as [|i], j as [|j]; cbn in Hi, Hf; [done | | |].
  - injection Hi as ->. pose proof (list_elem_of_lookup_2 _ _ _ Hf) as Hin. specialize (Ha c Hin). cbn in Ha. lia.
  - injection Hf as ->. pose proof (list_elem_of_lookup_2 _ _ _ Hi) as Hin. specialize (Ha c Hin). cbn in Ha. lia.
  - f_equal. by apply (IH Hs' j i).
Qed.
End Find.

(** ** Acknowledged changes *)

Definition rp_acked (r : ReaderProxy) (z : Z) : Prop :=
  z <= snz (changes_low_mark_ r) ∨ ∀ c, c ∈ changes_for_reader_ r → cz c = z → status_ c = ACKNOWLEDGED.

Lemma change_is_acked_spec r t : rp_ok r → sn_ok t → change_is_acked t r = true ↔ rp_acked r (snz t).
Proof.
  intros Hok Ht. unfold change_is_acked, rp_acked.
  rewrite sn_leb_snz by (apply sn_ok_wf; done || apply Hok).
  destruct (Z.leb_spec (snz t) (snz (changes_low_mark_ r))); [tauto|]. cbn [orb].
  case_bool_decide as Hnil.
  { split; [|done]. intros _. right. rewrite Hnil. by intros c ?%elem_of_nil. }
  destruct (changes_for_reader_ r !! find_change t true (changes_for_reader_ r)) as [c|] eqn:E.
  - apply find_change_Some in E as [Hc E]; [|apply Hok..|done]. rewrite bool_decide_eq_true. split.
    + intros Hst. right. intros c' Hc' E'. rewrite (ksorted_key_inj cz _ c' c (rp_sorted r Hok)); [done..|lia].
    + intros [|Hall]; [lia|]. by apply Hall.
  - rewrite find_change_None in E by (apply Hok || done). split; [|done]. intros _. right. intros c Hc E'. by destruct (E c Hc).
Qed.

(** Advancing over the acknowledged changes keeps what is acknowledged. *)
Lemma skip_acked_spec l : ∀ m,
  sn_ok m → cz_ok l → ksorted cz l → Forall (λ c, snz m <= cz c) l →
  let '(l', m') := skip_acked l m in
  sn_wf m' ∧ snz m <= snz m' ∧ snz m' <= Z.max (snz m) (2 ^ 63 - 2 ^ 32) ∧ ksorted cz l' ∧
  Forall (λ c, snz m' <= cz c) l' ∧
  (∀ c, c ∈ l' ↔ c ∈ l ∧ snz m' <= cz c) ∧
  (∀ c, c ∈ l → cz c < snz m' → status_ c = ACKNOWLEDGED).
Proof.
  induction l as [|c l IH]; intros m Hm Hok Hs Hge; cbn [skip_acked].
  { split_and!; [by apply sn_ok_wf | lia | lia | done | done | |].
    - intros c. rewrite elem_of_nil. tauto.
    - by intros c ?%elem_of_nil. }
  pose proof Hok as [Hc Hok']%Forall_cons_iff. pose proof Hs as [Hs' Hgt]%ksorted_cons.
  apply Forall_cons_iff in Hge as [Hmc Hge].
  destruct ((seq_num_ c =? m)%sn && bool_decide (status_ c = ACKNOWLEDGED)) eqn:E.
  - apply andb_prop in E as [E Hst]. apply bool_decide_eq_true in Hst.
    rewrite sn_eqb_snz in E by (by apply sn_ok_wf). apply Z.eqb_eq in E. fold (cz c) in E.
    assert (Forall (λ c', snz m + 1 <= cz c') l) as Hge1 by (eapply Forall_impl; [exact Hgt|]; cbn; lia).
    destruct (sn_ok_add m 1 Hm ltac:(zwidth)) as [Hw1 E1]. rewrite sn_incr_add_u32 by apply Hm.
    destruct l as [|c1 l1].
    + cbn [skip_acked]. pose proof (sn_ok_range _ Hm). rewrite E1.
      split_and!; [done | lia | lia | apply ksorted_nil | done | |].
      * intros c'. split; [by intros ?%elem_of_nil | intros [->%list_elem_of_singleton ?]; lia].
      * by intros c' ->%list_elem_of_singleton _.
    + assert (sn_ok (m + 1)%sn) as Hm1.
      { apply sn_ok_iff; [done|]. apply Forall_cons_iff in Hok' as [Hc1 _]. apply sn_ok_range in Hc1.
        apply Forall_cons_iff in Hge1 as [? _]. apply sn_ok_range in Hm. unfold cz in *. lia. }
      specialize (IH (m + 1)%sn Hm1 Hok' Hs'). rewrite E1 in IH. specialize (IH Hge1).
      destruct (skip_acked (c1 :: l1) (m + 1)%sn) as [l' m']. destruct IH as (Hw & Hle & Hmx & Hsl & Hfl & Hel & Hack).
      pose proof (sn_ok_range _ Hm1). rewrite E1 in *. split_and!; [done | lia | lia | done | done | |].
      * intros c'. rewrite Hel, (elem_of_cons (c1 :: l1)). split; [tauto | intros [[->|] ?]; [lia | tauto]].
      * intros c' [->|Hc']%elem_of_cons Hlt; [done | by apply Hack].
  - split_and!; [by apply sn_ok_wf | lia | lia | done | | |].
    + by constructor.
    + intros c'. split; [|tauto]. intros Hc'. split; [done|]. apply elem_of_cons in Hc' as [->|Hc']; [done|].
      rewrite Forall_forall in Hge. by apply Hge.
    + intros c' Hc' Hlt. exfalso. apply elem_of_cons in Hc' as [->|Hc']; [lia|].
      rewrite Forall_forall in Hge. specialize (Hge c' Hc'). lia.
Qed.

(** Setting the collection and the mark. *)
Lemma rp_set_changes_ok r l m :
  sn_ok m → cz_ok l → ksorted cz l → Forall (λ c, snz m < cz c) l → rp_ok (rp_set_changes l m r).
Proof. intros. by constructor. Qed.

(** What an acknowledgement of everything below [s] gives. *)
Definition acknowledges (s : SequenceNumber_t) (r r' : ReaderProxy) : Prop :=
  rp_ok r' ∧ snz s - 1 <= snz (changes_low_mark_ r') ∧
  (∀ c, c ∈ changes_for_reader_ r' ↔ c ∈ changes_for_reader_ r ∧ snz (changes_low_mark_ r') < cz c) ∧
  ∀ z, rp_acked r' z ↔ rp_acked r z ∨ z < snz s.

Lemma acked_above_spec wi s r :
  rp_ok r → sn_ok s → snz (changes_low_mark_ r) < snz s → acknowledges s r (acked_changes_set wi s r).
Proof.
  intros Hok Hs Hlt. unfold acked_changes_set, acknowledges.
  rewrite sn_gtb_snz by (apply sn_ok_wf; done || apply Hok).
  destruct (Z.gtb_spec (snz s) (snz (changes_low_mark_ r))) as [_|]; [|lia].
  unfold find_change. cbn [negb]. set (l := changes_for_reader_ r) in *. set (it := lower_bound _ l).
  destruct (lower_bound_split cz (λ c, (seq_num_ c <? s)%sn) (snz s) l) as [Htk Hdr];
    [apply Hok | apply cz_comp; [apply Hok | done] |]. fold it in Htk, Hdr.
  pose proof (skip_acked_spec (drop it l) s Hs) as H. destruct (skip_acked (drop it l) s) as [l' m'].
  destruct H as (Hw & Hle & Hmx & Hsl & Hfl & Hel & Hack);
    [apply Forall_drop, Hok | apply lower_bound_drop_sorted, Hok | done |].
  pose proof (sn_ok_range _ Hs) as Hrs. pose proof (sn_ok_range _ (rp_low_ok r Hok)) as Hrl.
  destruct (sn_sub_u32_snz m' 1 Hw) as [Hw1 E1]; [zwidth | lia |].
  assert (sn_ok (m' - 1)%sn) as Hm1 by (apply sn_ok_iff; [done|]; change (2 ^ 63) with 9223372036854775808 in *; change (2 ^ 32) with 4294967296 in *; lia).
  assert (∀ c, c ∈ l' ↔ c ∈ l ∧ snz m' <= cz c) as Hel'.
  { intros c. rewrite Hel. split; [intros [Hc ?]; split; [by eapply subseteq_drop | done]|].
    intros [Hc Hge]. split; [|done]. rewrite <- (take_drop it l), elem_of_app in Hc. destruct Hc as [Hc|]; [|done].
    rewrite Forall_forall in Htk. specialize (Htk c Hc). cbn in Htk. lia. }
  cbn [changes_for_reader_ changes_low_mark_ rp_set_changes]. split_and!.
  - apply rp_set_changes_ok; [done | | done |].
    + apply Forall_forall. intros c Hc%Hel'. pose proof (rp_elems r Hok) as He. unfold cz_ok in He.
      rewrite Forall_forall in He. apply He. tauto.
    + eapply Forall_impl; [exact Hfl|]. cbn. lia.
  - lia.
  - intros c. rewrite Hel', E1. split; intros [? ?]; (split; [done|lia]).
  - intros z. unfold rp_acked. cbn [changes_for_reader_ changes_low_mark_ rp_set_changes]. fold l. rewrite E1. split.
    + intros [Hz|Hz].
      * destruct (Z.ltb_spec z (snz s)); [by right|]. left. right. intros c Hc Ec. apply Hack; [|lia].
        rewrite <- (take_drop it l), elem_of_app in Hc. destruct Hc as [Hc|]; [|done].
        rewrite Forall_forall in Htk. specialize (Htk c Hc). cbn in Htk. lia.
      * destruct (Z.ltb_spec z (snz s)); [by right|]. left. right. intros c Hc Ec.
        destruct (Z.ltb_spec (cz c) (snz m')); [|apply Hz; [by apply Hel' | done]].
        apply Hack; [|done]. rewrite <- (take_drop it l), elem_of_app in Hc. destruct Hc as [Hc|]; [|done].
        rewrite Forall_forall in Htk. specialize (Htk c Hc). cbn in Htk. lia.
    + intros [[Hz|Hz]|Hz]; [left; lia | | left; lia]. right. intros c Hc%Hel'. apply Hz. tauto.
Qed.

(** ** Late joiners *)

(** The changes of the history with numbers in [a, a + n), as the proxy takes them back. *)
Definition relisted (wi : WriterInfo) (a n : Z) : list ChangeForReader_t :=
  omap (λ z, (λ ch, cfr_set_status UNACKNOWLEDGED (cfr_make ch)) <$> wi_get_change wi (sn_of_Z z)) (seqZ a n).

Lemma find_change_absent s l : sn_ok s → cz_ok l → (∀ c, c ∈ l → cz c ≠ snz s) → drop (find_change s true l) l = [].
Proof.
  intros Hs Hok Hne. apply drop_ge. unfold find_change. cbn [negb].
  destruct (l !! _) as [c|] eqn:E; [|by apply lookup_ge_None].
  pose proof (list_elem_of_lookup_2 _ _ _ E) as Hc. unfold cz_ok in Hok. rewrite Forall_forall in Hok.
  rewrite sn_eqb_snz by (apply sn_ok_wf; auto). specialize (Hne c Hc). unfold cz in Hne.
  destruct (Z.eqb_spec (snz (seq_num_ c)) (snz s)); [done | lia].
Qed.

Lemma relisted_elem wi a n c :
  wi_ok wi → 0 <= a → a + n <= 2 ^ 63 - 2 ^ 32 → c ∈ relisted wi a n →
  a <= cz c < a + n ∧ sn_ok (seq_num_ c) ∧
  ∃ ch, wi_get_change wi (seq_num_ c) = Some ch ∧ c = cfr_set_status UNACKNOWLEDGED (cfr_make ch).
Proof.
  intros Hwi Ha Hn (z & Hz & E)%list_elem_of_omap. apply elem_of_seqZ in Hz.
  destruct (wi_get_change wi (sn_of_Z z)) as [ch|] eqn:Eg; [|done]. injection E as <-.
  pose proof (wi_lookup wi Hwi _ _ Eg) as Es. unfold cz. cbn [seq_num_ cfr_set_status cfr_make]. rewrite Es, snz_of_Z.
  split; [lia|]. split; [|by eauto]. apply sn_ok_iff; [apply sn_of_Z_wf; zwidth|]. rewrite snz_of_Z. zwidth.
Qed.

Lemma relist_spec wi low n : ∀ cur l,
  wi_ok wi → sn_ok low → sn_ok cur → cz_ok l → n = Z.to_nat (snz low + 1 - snz cur) →
  (∀ c, c ∈ l → ¬ (snz cur <= cz c <= snz low)) →
  relist n wi cur low l =
    (l ++ relisted wi (snz cur) (Z.of_nat n), bool_decide (relisted wi (snz cur) (Z.of_nat n) ≠ [])).
Proof.
  induction n as [|n IH]; intros cur l Hwi Hlow Hcur Hok Hn Hout; cbn [relist].
  { unfold relisted. rewrite seqZ_nil by lia. cbn. by rewrite app_nil_r. }
  pose proof (sn_ok_range _ Hlow). pose proof (sn_ok_range _ Hcur).
  rewrite sn_leb_snz by (by apply sn_ok_wf). destruct (Z.leb_spec (snz cur) (snz low)); [|lia].
  rewrite find_change_absent; [|done..|intros c Hc E; apply (Hout c Hc); lia]. cbn [skip_present].
  rewrite sn_leb_snz by (by apply sn_ok_wf). destruct (Z.leb_spec (snz cur) (snz low)); [|lia].
  destruct (sn_ok_add cur 1 Hcur ltac:(zwidth)) as [Hw1 E1]. rewrite sn_incr_add_u32 by apply Hcur.
  unfold relisted. rewrite (seqZ_cons (snz cur)) by lia. cbn [omap list_omap].
  replace (Z.pred (Z.of_nat (S n))) with (Z.of_nat n) by lia. replace (Z.succ (snz cur)) with (snz (cur + 1)%sn) by lia.
  fold (relisted wi (snz (cur + 1)%sn) (Z.of_nat n)). rewrite sn_of_snz by (by apply sn_ok_wf).
  destruct (decide (n = 0%nat)) as [->|Hn0].
  { cbn [relist]. unfold relisted. rewrite seqZ_nil by lia. cbn [omap list_omap].
    destruct (wi_get_change wi cur); cbn; by rewrite ?app_nil_r. }
  assert (sn_ok (cur + 1)%sn) as Hcur1 by (apply sn_ok_iff; [done|]; lia).
  assert (∀ c, c ∈ l → ¬ (snz (cur + 1)%sn <= cz c <= snz low)) as Hout1.
  { intros c Hc ?. apply (Hout c Hc). lia. }
  destruct (wi_get_change wi cur) as [ch|] eqn:Eg; cbn [fmap option_fmap option_map].
  - pose proof (wi_lookup wi Hwi _ _ Eg) as Es. rewrite IH; [|done..| |lia|].
    + rewrite <- app_assoc. done.
    + apply Forall_app. split; [done|]. apply Forall_singleton. cbn. by rewrite Es.
    + intros c [Hc| ->%list_elem_of_singleton]%elem_of_app; [by apply Hout1|]. unfold cz. cbn. rewrite Es. lia.
  - rewrite IH; [done..|lia|done].
Qed.

Lemma sort_changes_spec l :
  cz_ok l → NoDup (cz <$> l) → ksorted cz (sort_changes l) ∧ ∀ c, c ∈ sort_changes l ↔ c ∈ l.
Proof.
  induction l as [|c l IH]; intros Hok Hnd; [split; [apply ksorted_nil | done]|].
  apply Forall_cons_iff in Hok as [Hc Hok]. rewrite fmap_cons, NoDup_cons in Hnd. destruct Hnd as [Hnew Hnd].
  destruct (IH Hok Hnd) as [Hs Hel]. cbn [sort_changes foldr]. fold (sort_changes l). split.
  - apply insert_at_sorted with (cz c); [done | | done |].
    + intros b Hb%Hel. unfold cz_ok in Hok. rewrite Forall_forall in Hok. apply sn_ltb_snz; apply sn_ok_wf; [by apply Hok | done].
    + intros b Hb%Hel E. apply Hnew. rewrite <- E. by apply list_elem_of_fmap_2.
  - intros x. rewrite elem_of_insert_at, Hel, elem_of_cons. done.
Qed.

Lemma relisted_NoDup wi a n : wi_ok wi → 0 <= a → a + n <= 2 ^ 63 - 2 ^ 32 → NoDup (cz <$> relisted wi a n).
Proof.
  intros Hwi. destruct (Z.leb_spec n 0) as [Hn|Hn]; [by unfold relisted; rewrite seqZ_nil by lia; intros; apply NoDup_nil_2|].
  revert a. apply natlike_ind with (x := n); [intros a _ _; unfold relisted; rewrite seqZ_nil by lia; apply NoDup_nil_2 | | lia].
  intros x Hx IH a Ha Hb. unfold relisted. rewrite seqZ_cons by lia. cbn [omap list_omap].
  replace (Z.pred (Z.succ x)) with x by lia. fold (relisted wi (Z.succ a) x).
  specialize (IH (Z.succ a) ltac:(lia) ltac:(lia)). destruct (wi_get_change wi (sn_of_Z a)) as [ch|] eqn:Eg; [|done].
  cbn [fmap option_fmap option_map]. rewrite fmap_cons. apply NoDup_cons. split; [|done].
  intros (c & E & Hc)%list_elem_of_fmap. apply relisted_elem in Hc as (Hr & _); [|done | lia | lia].
  unfold cz in E at 1. cbn in E. rewrite (wi_lookup wi Hwi _ _ Eg), snz_of_Z in E. lia.
Qed.

Lemma ksorted_NoDup l : ksorted cz l → NoDup (cz <$> l).
Proof.
  induction l as [|c l IH]; [intros _; apply NoDup_nil_2|]. rewrite ksorted_cons, fmap_cons, NoDup_cons, Forall_forall.
  intros [Hs Hc]. split; [|by apply IH]. intros (d & E & Hd)%list_elem_of_fmap. specialize (Hc d Hd). cbn in Hc. lia.
Qed.

(** The changes the collection gets back when a reader has to start over. *)
Lemma late_joiner_spec wi r :
  wi_ok wi → rp_ok r → durability_kind_ r ≠ VOLATILE → wi_seq_num_min wi ≠ sn_unknown →
  in_history wi (changes_for_reader_ r) →
  let r' := acked_changes_set wi sn_zero r in
  rp_ok r' ∧ snz (changes_low_mark_ r') = snz (wi_seq_num_min wi) - 1 ∧
  ∀ c, c ∈ changes_for_reader_ r' ↔ c ∈ changes_for_reader_ r ∨
    c ∈ relisted wi (snz (wi_seq_num_min wi)) (snz (changes_low_mark_ r) + 1 - snz (wi_seq_num_min wi)).
Proof.
  intros Hwi Hok Hdur Hmin Hhist. unfold in_history in Hhist. rewrite decide_False in Hhist by done.
  destruct (wi_min_ok wi Hwi) as [|[Hmok Hm1]]; [done|]. pose proof (rp_low_ok r Hok) as Hlow.
  pose proof (sn_ok_range _ Hlow) as Hrl. pose proof (sn_ok_range _ Hmok) as Hrm.
  unfold acked_changes_set. rewrite sn_gtb_snz by (apply sn_ok_wf; done || apply sn_ok_zero). rewrite snz_zero.
  destruct (Z.gtb_spec 0 (snz (changes_low_mark_ r))); [lia|]. rewrite bool_decide_eq_true_2 by done. cbn [andb sn_eqb sn_zero low high Z.eqb].
  replace (sn_neb (wi_seq_num_min wi) sn_unknown) with true.
  2: { symmetry. rewrite sn_neb_snz by first [by apply sn_ok_wf | split; cbn; zwidth]. apply negb_true_iff, Z.eqb_neq.
       change (snz sn_unknown) with (-4294967296). lia. }
  fold sn_zero. rewrite sn_ltb_snz by (apply sn_ok_wf; done || apply sn_ok_zero). rewrite snz_zero.
  destruct (Z.ltb_spec 0 (snz (wi_seq_num_min wi))) as [_|]; [|lia]. set (m := wi_seq_num_min wi) in *.
  set (n := Z.to_nat (snz (changes_low_mark_ r) + 1 - snz m)).
  pose proof (rp_above r Hok) as Hab. rewrite Forall_forall in Hab. rewrite Forall_forall in Hhist.
  rewrite relist_spec; [|done..|apply Hok|done|].
  2: { intros c Hc ?. specialize (Hab c Hc). cbn in Hab. lia. }
  assert (relisted wi (snz m) (Z.of_nat n) = relisted wi (snz m) (snz (changes_low_mark_ r) + 1 - snz m)) as En.
  { destruct (Z.leb_spec (snz (changes_low_mark_ r) + 1 - snz m) 0); [|f_equal; lia].
    unfold relisted. rewrite !seqZ_nil by lia. done. }
  rewrite En. clear En. set (back := relisted wi (snz m) (snz (changes_low_mark_ r) + 1 - snz m)) in *.
  destruct (sn_ok_sub m 1 Hmok ltac:(zwidth) ltac:(lia)) as [Hm' Em'].
  assert (∀ c, c ∈ back → snz m <= cz c <= snz (changes_low_mark_ r) ∧ sn_ok (seq_num_ c)) as Hback.
  { intros c Hc. destruct (relisted_elem wi (snz m) (snz (changes_low_mark_ r) + 1 - snz m) c) as (? & ? & _);
      [done | lia | lia | exact Hc |]. split; [lia | done]. }
  assert (cz_ok (changes_for_reader_ r ++ back)) as Hcz.
  { apply Forall_app. split; [apply Hok|]. apply Forall_forall. intros c Hc. by apply Hback. }
  assert (ksorted cz (if bool_decide (back ≠ []) then sort_changes (changes_for_reader_ r ++ back) else changes_for_reader_ r ++ back)
    ∧ ∀ c, c ∈ (if bool_decide (back ≠ []) then sort_changes (changes_for_reader_ r ++ back) else changes_for_reader_ r ++ back)
        ↔ c ∈ changes_for_reader_ r ∨ c ∈ back) as [Hs Hel].
  { case_bool_decide as Hb.
    - destruct (sort_changes_spec (changes_for_reader_ r ++ back) Hcz) as [Hs Hel].
      + rewrite fmap_app. apply NoDup_app. split_and!; [apply ksorted_NoDup, Hok | | apply relisted_NoDup; done || lia].
        intros z (c & -> & Hc)%list_elem_of_fmap (d & E & Hd)%list_elem_of_fmap.
        specialize (Hab c Hc). apply Hback in Hd as [? _]. cbn in Hab. lia.
      + split; [done|]. intros c. by rewrite Hel, elem_of_app.
    - rewrite Hb, app_nil_r. split; [apply Hok|]. intros c. rewrite elem_of_nil. tauto. }
  cbn zeta. set (l' := if bool_decide (back ≠ []) then _ else _) in *.
  split_and!; [|cbn [changes_low_mark_ rp_set_changes]; lia | done].
  apply rp_set_changes_ok; [done | | done |]; apply Forall_forall; intros c [Hc|Hc]%Hel.
  - pose proof (rp_elems r Hok) as He. unfold cz_ok in He. rewrite Forall_forall in He. by apply He.
  - by apply Hback.
  - specialize (Hhist c Hc). cbn in Hhist. lia.
  - apply Hback in Hc as [? _]. lia.
Qed.

(** ** Changing the status of changes *)

Lemma rp_same_keys r l' :
  rp_ok r → seq_num_ <$> l' = seq_num_ <$> changes_for_reader_ r → rp_ok (rp_set_changes l' (changes_low_mark_ r) r).
Proof.
  intros [Hlow He Hs Ha] E. unfold cz_ok in He.
  assert (cz <$> l' = cz <$> changes_for_reader_ r) as Ez.
  { change cz with (snz ∘ seq_num_). rewrite !list_fmap_compose, E. done. }
  constructor; cbn [changes_low_mark_ changes_for_reader_ rp_set_changes]; [done | | |].
  - unfold cz_ok. apply (Forall_fmap seq_num_ sn_ok) in He. rewrite <- E in He. by apply (Forall_fmap seq_num_ sn_ok).
  - assert (∀ l, ksorted cz l ↔ StronglySorted Z.lt (cz <$> l)) as Hk.
    { clear. induction l as [|c l IH]; [split; intros; constructor|]. rewrite ksorted_cons, IH, fmap_cons. split.
      - intros [H1 H2]. constructor; [done|]. by apply Forall_fmap.
      - intros [H1 H2]%StronglySorted_inv. split; [done|]. exact (proj1 (Forall_fmap cz (Z.lt (cz c)) _) H2). }
    apply Hk. rewrite Ez. by apply Hk.
  - apply (Forall_fmap cz (λ z, snz (changes_low_mark_ r) < z)) in Ha. rewrite <- Ez in Ha. exact (proj1 (Forall_fmap cz _ _) Ha).
Qed.

Lemma keys_insert (l : list ChangeForReader_t) (i : nat) c c' :
  l !! i = Some c → seq_num_ c' = seq_num_ c → seq_num_ <$> <[i := c']> l = seq_num_ <$> l.
Proof. intros Hi E. rewrite list_fmap_insert, E. apply list_insert_id. by rewrite list_lookup_fmap, Hi. Qed.

Lemma erase_at_sorted l i : ksorted cz l → ksorted cz (erase_at i l).
Proof.
  intros Hs. unfold erase_at. rewrite <- (take_drop i l) in Hs. apply ksorted_app in Hs as (H1 & H2 & Hlt).
  apply ksorted_app. replace (drop (S i) l) with (drop 1 (drop i l)) by (rewrite drop_drop; f_equal; lia).
  split; [done|]. split; [by apply lower_bound_drop_sorted|]. intros a b Ha Hb. apply Hlt; [done|]. by eapply subseteq_drop.
Qed.

Lemma erase_at_elem l i c x :
  ksorted cz l → l !! i = Some c → x ∈ erase_at i l ↔ x ∈ l ∧ cz x ≠ cz c.
Proof.
  intros Hs Hi. unfold erase_at. rewrite elem_of_app. pose proof (take_drop_middle l i c Hi) as E.
  rewrite <- E in Hs. apply ksorted_app in Hs as (H1 & [H2 Hc]%ksorted_cons & Hlt). rewrite Forall_forall in Hc.
  assert (x ∈ l ↔ x ∈ take i l ++ c :: drop (S i) l) as -> by (by rewrite E). rewrite elem_of_app, elem_of_cons. split.
  - intros [Hx|Hx]; (split; [tauto|]).
    + specialize (Hlt x c Hx ltac:(by apply elem_of_cons; left)). lia.
    + specialize (Hc x Hx). cbn in Hc. lia.
  - intros [[Hx|[->|Hx]] Hne]; [by left | done | by right].
Qed.

Lemma erase_at_subset (l : list ChangeForReader_t) i : erase_at i l ⊆ l.
Proof.
  intros x Hx. unfold erase_at in Hx. apply elem_of_app in Hx as [Hx|Hx]; [by eapply subseteq_take | by eapply subseteq_drop].
Qed.

Lemma rp_sub_ok r l' :
  rp_ok r → ksorted cz l' → l' ⊆ changes_for_reader_ r → rp_ok (rp_set_changes l' (changes_low_mark_ r) r).
Proof.
  intros [Hlow He Hs Ha] Hs' Hsub. unfold cz_ok in He. rewrite Forall_forall in He, Ha.
  apply rp_set_changes_ok; [done | | done |]; apply Forall_forall; intros c Hc; [apply He | apply Ha]; by apply Hsub.
Qed.
