(* ===== verification/ReaderProxyTheorems.v ===== *)
(** * Correctness of the reader proxy

    The invariant holds through every sequence of calls the writer makes; an
    acknowledgement acknowledges exactly what it says, also over changes that were
    acknowledged out of order; a late joiner gets back the history; a request turns
    exactly the requested changes and announces exactly the missing ones. *)

From Stdlib Require Import ZArith Lia ZifyBool Sorting.Sorted.
From stdpp Require Import base numbers list option list_numbers sorting sets.
From S2P Require Import Prelude SequenceNumber BitmapRange BitmapFacts SortedRange Guid TimedEvent.
From S2P Require Import CacheChange ChangeForReader GapBuilder ReaderProxy ReaderProxyFacts.

Open Scope Z_scope.

(** ** Requests *)

(** What a request does to a change. *)
Definition request_change (c : ChangeForReader_t) : ChangeForReader_t :=
  markAllFragmentsAsUnsent (cfr_set_status REQUESTED c).

Definition requested_by (ls : list Z) (c : ChangeForReader_t) : ChangeForReader_t :=
  if decide (cz c ∈ ls ∧ status_ c = UNACKNOWLEDGED) then request_change c else c.

(** The numbers of a request the reader will never get. *)
Definition irrelevant (l : list ChangeForReader_t) (min low_mark : SequenceNumber_t) (z : Z) : bool :=
  negb (bool_decide (z ∈ cz <$> l)) && (snz min <=? z) && (snz low_mark <? z).

Lemma requested_by_key ls c : seq_num_ (requested_by ls c) = seq_num_ c.
Proof. unfold requested_by. destruct (decide _); [|done]. unfold request_change, markAllFragmentsAsUnsent. by destruct (negb _). Qed.

Lemma request_change_status c : status_ (request_change c) = REQUESTED.
Proof. unfold request_change, markAllFragmentsAsUnsent. by destruct (negb _). Qed.

Lemma requested_by_keys ls (l : list ChangeForReader_t) : seq_num_ <$> (requested_by ls <$> l) = seq_num_ <$> l.
Proof. rewrite <- list_fmap_compose. apply list_fmap_ext. intros i c _. apply requested_by_key. Qed.

Lemma requested_by_cons z ls c : requested_by ls (requested_by [z] c) = requested_by (z :: ls) c.
Proof.
  unfold requested_by at 2. destruct (decide (cz c ∈ [z] ∧ _)) as [[Ez%list_elem_of_singleton Hst]|Hn].
  - unfold requested_by. rewrite request_change_status, decide_False by (by intros [_ ?]).
    rewrite decide_True; [done|]. split; [by apply elem_of_cons; left | done].
  - unfold requested_by. apply decide_ext. rewrite elem_of_cons. rewrite list_elem_of_singleton in Hn. tauto.
Qed.

Lemma request_one_changes add_gap min low_mark sit s :
  cz_ok (rq_changes s) → ksorted cz (rq_changes s) → sn_ok sit →
  rq_changes (request_one add_gap min low_mark sit s) = requested_by [snz sit] <$> rq_changes s ∧
  rq_someone (request_one add_gap min low_mark sit s) =
    rq_someone s || existsb (λ c, bool_decide (cz c = snz sit ∧ status_ c = UNACKNOWLEDGED)) (rq_changes s).
Proof.
  intros Hok Hs Hsit. unfold request_one. destruct (rq_changes s !! find_change sit true (rq_changes s)) as [c|] eqn:E.
  - pose proof E as E'. apply find_change_Some in E' as [Hc Ez]; [|done..].
    assert (∀ d, d ∈ rq_changes s → cz d = snz sit → d = c) as Hu.
    { intros d Hd Ed. apply (ksorted_key_inj cz _ d c Hs Hd Hc). lia. }
    destruct (decide (status_ c = UNACKNOWLEDGED)) as [Hst|Hst]; cbn [rq_changes rq_someone].
    + split.
      * apply list_eq. intros j. rewrite list_lookup_fmap. set (i := find_change sit true (rq_changes s)) in *.
        destruct (decide (j = i)) as [->|Hj].
        { rewrite list_lookup_insert_eq by (by eapply lookup_lt_Some). rewrite E. cbn. unfold requested_by.
          rewrite decide_True by (by rewrite list_elem_of_singleton). done. }
        rewrite list_lookup_insert_ne by done. destruct (rq_changes s !! j) as [d|] eqn:Ej; [|done]. cbn. f_equal.
        unfold requested_by. rewrite decide_False; [done|]. rewrite list_elem_of_singleton. intros [Ed _].
        apply Hj. symmetry. unfold i. by eapply find_change_index.
      * symmetry. apply orb_true_iff. right. apply existsb_exists. exists c. split; [by apply list_elem_of_In|]. by apply bool_decide_eq_true.
    + split.
      * rewrite <- (list_fmap_id (rq_changes s)) at 1. apply list_fmap_ext. intros j d Hd%list_elem_of_lookup_2. unfold requested_by.
        rewrite decide_False; [done|]. rewrite list_elem_of_singleton. intros [Ed Hsd]. rewrite (Hu d Hd Ed) in Hsd. done.
      * replace (existsb _ _) with false; [by rewrite orb_false_r|]. symmetry. apply not_true_iff_false. intros Hex.
        apply existsb_exists in Hex as (d & Hd%list_elem_of_In & [Ed Hsd]%bool_decide_eq_true). rewrite (Hu d Hd Ed) in Hsd. done.
  - rewrite find_change_None in E by done.
    assert (requested_by [snz sit] <$> rq_changes s = rq_changes s ∧
            existsb (λ c, bool_decide (cz c = snz sit ∧ status_ c = UNACKNOWLEDGED)) (rq_changes s) = false) as [-> ->].
    { split.
      - rewrite <- (list_fmap_id (rq_changes s)) at 2. apply list_fmap_ext. intros j d Hd%list_elem_of_lookup_2. unfold requested_by.
        rewrite decide_False; [done|]. rewrite list_elem_of_singleton. intros [Ed _]. by apply (E d).
      - apply not_true_iff_false. intros Hex. apply existsb_exists in Hex as (d & Hd%list_elem_of_In & [Ed _]%bool_decide_eq_true).
        by apply (E d). }
    rewrite orb_false_r. destruct (_ && _); [|done]. destruct (gb_add add_gap sit (rq_gaps s)) as [[r g] sent]. done.
Qed.

Lemma request_one_gaps add_gap min low_mark sit s :
  cz_ok (rq_changes s) → ksorted cz (rq_changes s) → sn_ok sit → sn_ok min → sn_ok low_mark →
  let s' := request_one add_gap min low_mark sit s in
  if irrelevant (rq_changes s) min low_mark (snz sit)
  then let '(_, g, sent) := gb_add add_gap sit (rq_gaps s) in rq_gaps s' = g ∧ rq_sent s' = rq_sent s ++ sent
  else rq_gaps s' = rq_gaps s ∧ rq_sent s' = rq_sent s.
Proof.
  intros Hok Hs Hsit Hmin Hlow. unfold request_one, irrelevant.
  rewrite sn_geb_snz, sn_gtb_snz by (by apply sn_ok_wf).
  destruct (rq_changes s !! find_change sit true (rq_changes s)) as [c|] eqn:E.
  - apply find_change_Some in E as [Hc Ez]; [|done..]. rewrite bool_decide_eq_true_2.
    + cbn [negb andb]. by destruct (decide _).
    + rewrite <- Ez. by apply list_elem_of_fmap_2.
  - rewrite find_change_None in E by done. rewrite bool_decide_eq_false_2.
    + cbn [negb]. rewrite andb_true_l, Z.geb_leb, Z.gtb_ltb. destruct (_ && _); [|done].
      destruct (gb_add add_gap sit (rq_gaps s)) as [[r g] sent]. done.
    + intros (d & Ed & Hd)%list_elem_of_fmap. by apply (E d).
Qed.

Lemma requested_by_nil (l : list ChangeForReader_t) : requested_by [] <$> l = l.
Proof.
  rewrite <- (list_fmap_id l) at 2. apply list_fmap_ext. intros j d _. unfold requested_by.
  rewrite decide_False; [done|]. by intros [?%elem_of_nil _].
Qed.

Lemma requested_by_cz ls (l : list ChangeForReader_t) : cz <$> (requested_by ls <$> l) = cz <$> l.
Proof. rewrite <- list_fmap_compose. apply list_fmap_ext. intros i c _. unfold cz; cbn. by rewrite requested_by_key. Qed.

Lemma requested_by_inv ls r :
  rp_ok r → rp_ok (rp_set_changes (requested_by ls <$> changes_for_reader_ r) (changes_low_mark_ r) r).
Proof. intros Hok. apply rp_same_keys; [done | apply requested_by_keys]. Qed.

(** A request as a whole. *)
Lemma request_all add_gap min low_mark r sits : ∀ s,
  rp_ok (rp_set_changes (rq_changes s) low_mark r) → Forall sn_ok sits → sn_ok min →
  let s' := foldl (λ s sit, request_one add_gap min low_mark sit s) s sits in
  rq_changes s' = requested_by (snz <$> sits) <$> rq_changes s ∧
  let '(g, sent) := gb_add_all add_gap (List.filter (λ t, irrelevant (rq_changes s) min low_mark (snz t)) sits) (rq_gaps s) in
  rq_gaps s' = g ∧ rq_sent s' = rq_sent s ++ sent.
Proof.
  induction sits as [|sit sits IH]; intros s Hr Hsits Hmin; cbn [foldl List.filter fmap list_fmap].
  { rewrite requested_by_nil. cbn. by rewrite app_nil_r. }
  apply Forall_cons_iff in Hsits as [Hsit Hsits]. pose proof Hr as [Hlow He Hso Hab]. cbn [changes_low_mark_ changes_for_reader_ rp_set_changes] in Hlow, He, Hso, Hab.
  destruct (request_one_changes add_gap min low_mark sit s He Hso Hsit) as [Ec _].
  pose proof (request_one_gaps add_gap min low_mark sit s He Hso Hsit Hmin Hlow) as Hg. cbn zeta in Hg.
  specialize (IH (request_one add_gap min low_mark sit s)). rewrite Ec in IH. specialize (IH (requested_by_inv [snz sit] _ Hr) Hsits Hmin).
  cbn zeta in IH. destruct IH as [E1 E2]. set (s' := foldl _ (request_one _ _ _ _ s) sits) in *. split.
  - rewrite E1, <- list_fmap_compose. apply list_fmap_ext. intros j c _. apply requested_by_cons.
  - assert (List.filter (λ t, irrelevant (requested_by [snz sit] <$> rq_changes s) min low_mark (snz t)) sits =
            List.filter (λ t, irrelevant (rq_changes s) min low_mark (snz t)) sits) as Ef.
    { apply List.filter_ext. intros t. unfold irrelevant. by rewrite requested_by_cz. }
    rewrite Ef in E2. set (rest := List.filter _ sits) in *. destruct (irrelevant (rq_changes s) min low_mark (snz sit)).
    + cbn [gb_add_all]. destruct (gb_add add_gap sit (rq_gaps s)) as [[b g1] sent1]. destruct Hg as [Hg1 Hs1]. rewrite Hg1, Hs1 in E2.
      destruct (gb_add_all add_gap rest g1) as [g2 sent2]. destruct E2 as [-> ->]. by rewrite app_assoc.
    + destruct Hg as [Hg1 Hs1]. rewrite Hg1, Hs1 in E2. done.
Qed.

(** An ACKNACK that requests changes: the requested changes that have been sent and not
    acknowledged become requested, with all their fragments pending, and no other change is
    touched; the GAP messages sent announce exactly the requested numbers that are in the range of
    the history, not acknowledged and not in the collection, each once and in order. *)
Lemma requested_changes_set_exact set min r :
  rp_ok r → bm_ok set → Forall sn_ok (bm_for_each set) → sn_ok min →
  let '(_, r', g', sent) := requested_changes_set (λ _, true) set gb_make min r in
  rp_ok r' ∧ changes_low_mark_ r' = changes_low_mark_ r ∧
  changes_for_reader_ r' =
    (λ c, if bm_bits set (cz c) && bool_decide (status_ c = UNACKNOWLEDGED) then request_change c else c) <$> changes_for_reader_ r ∧
  concat (gap_numbers <$> (sent ++ snd (gb_flush (λ _, true) g'))) =
    List.filter (irrelevant (changes_for_reader_ r) min (changes_low_mark_ r)) (snz <$> bm_for_each set).
Proof.
  intros Hok Hset Hels Hmin. unfold requested_changes_set.
  rewrite sn_neb_snz by first [by apply sn_ok_wf | split; cbn; zwidth]. pose proof (sn_ok_range _ Hmin).
  destruct (Z.eqb_spec (snz sn_unknown) (snz min)) as [E|_]; [change (snz sn_unknown) with (-4294967296) in E; lia|]. cbn [negb].
  assert (rp_ok (rp_set_changes (changes_for_reader_ r) (changes_low_mark_ r) r)) as Hok' by (by apply rp_same_keys).
  pose proof (request_all (λ _, true) min (changes_low_mark_ r) r (bm_for_each set)
    {| rq_changes := changes_for_reader_ r; rq_gaps := gb_make; rq_sent := []; rq_someone := false |} Hok' Hels Hmin) as H'.
  cbn zeta in H'. set (s' := foldl _ _ _) in *. cbn [rq_changes rq_gaps rq_sent] in H'. destruct H' as [Ec Eg].
  split_and!; [rewrite Ec; by apply requested_by_inv | done | |].
  - cbn [changes_for_reader_ rp_set_changes]. rewrite Ec. apply list_fmap_ext. intros j c _. unfold requested_by.
    pose proof (elem_for_each set (cz c) Hset) as He. destruct (bm_bits set (cz c)); cbn [andb].
    + case_bool_decide; [rewrite decide_True | rewrite decide_False]; tauto.
    + rewrite decide_False; [done|]. intros [Hz _]. apply He in Hz. done.
  - set (ir := List.filter _ (bm_for_each set)) in Eg.
    assert (snz <$> ir = List.filter (irrelevant (changes_for_reader_ r) min (changes_low_mark_ r)) (snz <$> bm_for_each set)) as Ei.
    { unfold ir. clear -r min set. induction (bm_for_each set) as [|x l IH]; [done|]. cbn [List.filter fmap list_fmap].
      destruct (irrelevant _ _ _ (snz x)); cbn [fmap list_fmap]; [f_equal|]; apply IH. }
    rewrite <- Ei. rewrite <- (gb_build_spec (λ _, true) (λ _, eq_refl) ir).
    + unfold gb_build. destruct (gb_add_all (λ _, true) ir gb_make) as [g sent]. destruct Eg as [-> ->]. done.
    + apply Forall_forall. intros x Hx. rewrite Forall_forall in Hels. apply Hels.
      apply list_elem_of_In, List.filter_In in Hx as [Hx _]. by apply list_elem_of_In.
    + rewrite Ei. apply increasing_filter. by apply increasing_for_each.
Qed.

(** ** The invariant *)

(** Whatever number is acknowledged. *)
Lemma acked_changes_set_ok wi s r :
  wi_ok wi → rp_ok r → sn_ok s → in_history wi (changes_for_reader_ r) → rp_ok (acked_changes_set wi s r).
Proof.
  intros Hwi Hok Hs Hin. destruct (Z.ltb_spec (snz (changes_low_mark_ r)) (snz s)) as [Hlt|Hge].
  { by destruct (acked_above_spec wi s r Hok Hs Hlt) as [? _]. }
  pose proof (rp_low_ok r Hok) as Hlow. pose proof (sn_ok_range _ Hlow) as Hr.
  assert (rp_ok (rp_set_changes (changes_for_reader_ r) (changes_low_mark_ r + 1 - 1)%sn r)) as Hsame.
  { destruct (sn_ok_add (changes_low_mark_ r) 1 Hlow ltac:(zwidth)) as [Hw E].
    destruct (sn_sub_u32_snz _ 1 Hw) as [Hw1 E1]; [zwidth | zwidth |].
    rewrite (sn_val_inj _ (changes_low_mark_ r) Hw1); [by apply rp_same_keys | by apply sn_ok_wf | lia]. }
  destruct (decide (durability_kind_ r = VOLATILE ∨ s ≠ sn_zero)) as [Hno|Hyes].
  { unfold acked_changes_set. rewrite sn_gtb_snz by (by apply sn_ok_wf). destruct (Z.gtb_spec (snz s) (snz (changes_low_mark_ r))); [lia|].
    replace (_ && _) with false; [done|]. symmetry. apply andb_false_iff. destruct Hno as [Hv|Hz].
    - right. apply bool_decide_eq_false_2. by intros Hne.
    - left. rewrite sn_eqb_snz by (apply sn_ok_wf; done || apply sn_ok_zero). apply Z.eqb_neq. intros E. apply Hz. apply sn_ok_inj; [done | apply sn_ok_zero | done]. }
  assert (durability_kind_ r ≠ VOLATILE ∧ s = sn_zero) as [Hd ->].
  { split; [tauto|]. destruct (decide (s = sn_zero)); [done | tauto]. }
  destruct (decide (wi_seq_num_min wi = sn_unknown)) as [Hu|Hk]; [|by apply late_joiner_spec].
  unfold in_history in Hin. rewrite decide_True in Hin by done. unfold acked_changes_set.
  rewrite sn_gtb_snz by (apply sn_ok_wf; done || apply sn_ok_zero). rewrite snz_zero in *.
  destruct (Z.gtb_spec 0 (snz (changes_low_mark_ r))); [lia|]. rewrite bool_decide_eq_true_2 by done.
  rewrite Hu. cbn [andb sn_eqb sn_zero low high Z.eqb]. change (sn_neb sn_unknown sn_unknown) with false. cbn iota.
  destruct (is_local_reader r); [done|]. cbn [negb].
  destruct (sn_ok_sub (wi_next_sequence_number wi) 1 (wi_next_ok wi Hwi)) as [Hn _]; [zwidth | apply Hwi |].
  rewrite Hin. apply rp_set_changes_ok; [done | apply Forall_nil_2 | apply ksorted_nil | apply Forall_nil_2].
Qed.

(** Dropping a change of the collection and acknowledging everything up to it. *)
Lemma erase_and_ack wi s i r :
  rp_ok r → sn_ok (s + 1)%sn → sn_ok s → snz (changes_low_mark_ r) < snz s →
  rp_ok (acked_changes_set wi (s + 1)%sn (rp_set_changes (erase_at i (changes_for_reader_ r)) (changes_low_mark_ r) r)).
Proof.
  intros Hok Hs1 Hs Hlt. destruct (sn_ok_add s 1 Hs ltac:(zwidth)) as [_ E].
  apply acked_above_spec; [|done | cbn [changes_low_mark_ rp_set_changes]; lia].
  apply rp_sub_ok; [done | apply erase_at_sorted, Hok | apply erase_at_subset].
Qed.

(** Operations that leave the collection and the mark alone. *)
Lemma rp_ok_same r r' :
  rp_ok r → changes_for_reader_ r' = changes_for_reader_ r → changes_low_mark_ r' = changes_low_mark_ r → rp_ok r'.
Proof. intros [H1 H2 H3 H4] E1 E2. constructor; rewrite ?E1, ?E2; done. Qed.

(** What the timers of the proxy and its counters are does not matter to the collection. *)
Lemma restart_nack_same r :
  let r' := fst (restart_nack_supression_timer r) in
  changes_for_reader_ r' = changes_for_reader_ r ∧ changes_low_mark_ r' = changes_low_mark_ r ∧ is_active_ r' = is_active_ r.
Proof. unfold restart_nack_supression_timer. destruct (nack_supression_event_ r) as [e|]; [|done]. by destruct (te_restart_timer e). Qed.

Lemma from_unsent_ok wi s status restart delivered r r' eff :
  rp_ok r → sn_ok s → sn_ok (s + 1)%sn →
  from_unsent_to_status wi s status restart delivered r = Some (r', eff) → rp_ok r' ∧ is_active_ r' = is_active_ r.
Proof.
  intros Hok Hs Hs1. unfold from_unsent_to_status.
  assert (∃ r1 e1, (if restart && is_remote_and_reliable r then restart_nack_supression_timer r else (r, [])) = (r1, e1) ∧
    rp_ok r1 ∧ is_active_ r1 = is_active_ r) as (r1 & e1 & -> & Hok1 & <-).
  { destruct (restart && _); [|by eauto]. destruct (restart_nack_same r) as (E1 & E2 & E3).
    destruct (restart_nack_supression_timer r) as [r1 e1]. exists r1, e1. split_and!; [done | by apply (rp_ok_same r) | done]. }
  clear Hok r. set (l := changes_for_reader_ r1). destruct (bool_decide (status = ACKNOWLEDGED) && _) eqn:Ec.
  - destruct (_ <? length l)%nat; [|done]. intros [= <- _]. split; [|unfold acked_changes_set; repeat case_match; done].
    apply andb_prop in Ec as [_ Ec]. destruct (sn_ok_add (changes_low_mark_ r1) 1 (rp_low_ok _ Hok1) ltac:(zwidth)) as [Hw E].
    rewrite sn_eqb_snz in Ec by (done || by apply sn_ok_wf). apply Z.eqb_eq in Ec. apply erase_and_ack; [done.. | lia].
  - destruct (l !! find_change s true l) as [c|] eqn:El; cbn; [|done]. intros [= <- _]. split; [|done].
    apply rp_same_keys; [done|]. apply keys_insert with c; [done|]. by destruct delivered.
Qed.

Lemma convert_ok previous next r :
  rp_ok r → let r' := snd (fst (convert_status_on_all_changes previous next r)) in rp_ok r' ∧ is_active_ r' = is_active_ r.
Proof.
  intros Hok. cbn. split; [|done]. apply rp_same_keys; [done|]. rewrite <- list_fmap_compose. apply list_fmap_ext.
  intros j c _. cbn. by destruct (decide _).
Qed.

Lemma removed_ok wi s r :
  rp_ok r → sn_ok s → sn_ok (s + 1)%sn →
  let r' := fst (change_has_been_removed wi s r) in rp_ok r' ∧ is_active_ r' = is_active_ r.
Proof.
  intros Hok Hs Hs1. unfold change_has_been_removed. cbn zeta. destruct (changes_for_reader_ r) as [|f l0] eqn:El; [done|].
  destruct (s <? seq_num_ f)%sn; [done|]. rewrite <- El. destruct (changes_for_reader_ r !! _) as [c|] eqn:E; [|done]. cbn [fst].
  set (r1 := rp_set_changes (erase_at _ _) _ r). apply find_change_Some in E as [Hc Ez]; [|apply Hok..|done].
  pose proof (rp_above r Hok) as Hab. rewrite Forall_forall in Hab. specialize (Hab c Hc). cbn in Hab.
  destruct (_ =? s)%sn.
  - split; [|unfold acked_changes_set; repeat case_match; done]. apply erase_and_ack; [done.. | lia].
  - split; [|done]. apply rp_sub_ok; [done | apply erase_at_sorted, Hok | apply erase_at_subset].
Qed.

(** One call of the writer. [start] is called on a proxy that is not active and the other
    functions on one that is; a change is added above the mark and above the other changes, and a
    number acknowledged from the network may be any number in use. *)
Inductive rp_step (wi : WriterInfo) : ReaderProxy → ReaderProxy → Prop :=
| rp_step_start attributes ds r :
    is_active_ r = false → rp_step wi r (fst (rp_start wi attributes ds r))
| rp_step_update attributes r : rp_step wi r (rp_update attributes r)
| rp_step_stop r : rp_step wi r (fst (rp_stop r))
| rp_step_disable_timers r : rp_step wi r (fst (disable_timers r))
| rp_step_interval d r : rp_step wi r (update_nack_supression_interval d r)
| rp_step_add change is_relevant restart r :
    is_active_ r = true → sn_ok (seq_num_ change) → snz (changes_low_mark_ r) < cz change →
    Forall (λ c, cz c < cz change) (changes_for_reader_ r) →
    rp_step wi r (fst (add_change_restart change is_relevant restart r))
| rp_step_acked s r :
    is_active_ r = true → sn_ok s → in_history wi (changes_for_reader_ r) → rp_step wi r (acked_changes_set wi s r)
| rp_step_acknack_count n r : rp_step wi r (snd (check_and_set_acknack_count n r))
| rp_step_requested add_gap set g min r :
    is_active_ r = true → Forall sn_ok (bm_for_each set) → sn_ok min →
    rp_step wi r (snd (fst (fst (requested_changes_set add_gap set g min r))))
| rp_step_initial_acknack r : is_active_ r = true → rp_step wi r (snd (fst (process_initial_acknack r)))
| rp_step_status s status restart delivered r r' eff :
    is_active_ r = true → sn_ok s → sn_ok (s + 1)%sn →
    from_unsent_to_status wi s status restart delivered r = Some (r', eff) → rp_step wi r r'
| rp_step_fragment s f r b last r' :
    is_active_ r = true → sn_ok s → mark_fragment_as_sent_for_change s f r = Some (b, last, r') → rp_step wi r r'
| rp_step_nack_supression r : is_active_ r = true → rp_step wi r (snd (perform_nack_supression r))
| rp_step_acknack_response r : is_active_ r = true → rp_step wi r (snd (fst (perform_acknack_response r)))
| rp_step_removed s r :
    is_active_ r = true → sn_ok s → sn_ok (s + 1)%sn → rp_step wi r (fst (change_has_been_removed wi s r))
| rp_step_nack_frag guid n s set r :
    is_active_ r = true → sn_ok s → rp_step wi r (snd (process_nack_frag guid n s set r)).

Inductive rp_reachable : ReaderProxy → Prop :=
| rp_reach_make datasharing events : rp_reachable (fst (rp_make datasharing events))
| rp_reach_step wi r r' : rp_reachable r → wi_ok wi → rp_step wi r r' → rp_reachable r'.

(** A proxy that is not active is as good as new. *)
Definition rp_inv (r : ReaderProxy) : Prop :=
  rp_ok r ∧ (is_active_ r = false → changes_for_reader_ r = [] ∧ changes_low_mark_ r = sn_zero).

Lemma rp_empty_ok r : changes_for_reader_ r = [] → sn_ok (changes_low_mark_ r) → rp_ok r.
Proof. intros E H. constructor; rewrite ?E; [done | apply Forall_nil_2 | apply ksorted_nil | apply Forall_nil_2]. Qed.

Lemma disable_timers_same r :
  let r' := fst (disable_timers r) in
  changes_for_reader_ r' = changes_for_reader_ r ∧ changes_low_mark_ r' = changes_low_mark_ r ∧ is_active_ r' = is_active_ r.
Proof.
  unfold disable_timers. destruct (if timers_enabled_ r then _ else _) as [nack nc]. by destruct (cancel_event _) as [hb hc].
Qed.

Lemma rp_stop_inv r : rp_inv (fst (rp_stop r)).
Proof.
  unfold rp_stop. destruct (disable_timers r) as [r1 e]. split; [apply rp_empty_ok; [done | apply sn_ok_zero] | done].
Qed.

Lemma rp_start_ok wi attributes ds r :
  wi_ok wi → rp_ok r → changes_for_reader_ r = [] → changes_low_mark_ r = sn_zero →
  rp_ok (fst (rp_start wi attributes ds r)) ∧ is_active_ (fst (rp_start wi attributes ds r)) = true.
Proof.
  intros Hwi Hok Hc Hl. unfold rp_start. destruct (rl_start _ _ _ _ _ _ _) as [b loc]. set (r1 := Build_ReaderProxy true _ _ _ _ _ _ _ _ _ _ _ _).
  assert (rp_ok r1) as Hok1 by (by apply (rp_ok_same r)).
  set (r2 := if decide (durability_kind_ r1 = VOLATILE) then _ else _).
  assert (rp_ok r2 ∧ is_active_ r2 = true) as [Hok2 Ha2].
  { unfold r2. destruct (decide _) as [Hv|Hv].
    - split; [|done]. apply rp_empty_ok; [done|]. cbn [changes_low_mark_ rp_set_changes].
      destruct (wi_min_ok wi Hwi) as [->|[Hm Hm1]].
      + change (sn_unknown =? sn_unknown)%sn with true. apply sn_ok_sub; [apply Hwi | zwidth | apply Hwi].
      + destruct (_ =? sn_unknown)%sn; apply sn_ok_sub; try apply Hwi; done || zwidth.
    - split; [|unfold acked_changes_set; repeat case_match; done]. apply acked_changes_set_ok; [done.. | apply sn_ok_zero |].
      unfold in_history. destruct (decide _); [done|]. cbn. rewrite Hc. apply Forall_nil_2. }
  destruct (match initial_heartbeat_event_ r2 with Some _ => _ | None => _ end) as [hb calls]. cbn [fst is_active_].
  split; [|done]. by apply (rp_ok_same r2).
Qed.

Lemma add_change_ok change is_relevant r :
  rp_ok r → sn_ok (seq_num_ change) → snz (changes_low_mark_ r) < cz change →
  Forall (λ c, cz c < cz change) (changes_for_reader_ r) → rp_ok (add_change change is_relevant r).
Proof.
  intros Hok Hc Hl Hlast. pose proof Hok as [Hlow He Hs Ha]. unfold add_change. destruct is_relevant; cbn [negb].
  - apply rp_set_changes_ok; [done | | |].
    + apply Forall_app. split; [done|]. by apply Forall_singleton.
    + apply ksorted_app. split; [done|]. split; [apply ksorted_cons; split; [apply ksorted_nil | apply Forall_nil_2]|].
      intros a b Ha' ->%list_elem_of_singleton. rewrite Forall_forall in Hlast. by apply Hlast.
    + apply Forall_app. split; [done|]. by apply Forall_singleton.
  - destruct (negb _ && _) eqn:E; [|done]. apply andb_prop in E as [_ E].
    destruct (sn_ok_add _ 1 Hlow ltac:(zwidth)) as [Hw E1]. rewrite sn_eqb_snz in E by (done || by apply sn_ok_wf).
    apply Z.eqb_eq in E. apply rp_set_changes_ok; [done..|]. rewrite Forall_forall in Hlast |- *.
    intros c Hcin. pose proof (Hlast c Hcin) as H1. cbn in H1. rewrite Forall_forall in Ha. specialize (Ha c Hcin). cbn in Ha.
    unfold cz in *. lia.
Qed.

Lemma requested_ok add_gap set g min r :
  rp_ok r → Forall sn_ok (bm_for_each set) → sn_ok min →
  let r' := snd (fst (fst (requested_changes_set add_gap set g min r))) in rp_ok r' ∧ is_active_ r' = is_active_ r.
Proof.
  intros Hok Hels Hmin. unfold requested_changes_set. cbn zeta. destruct (sn_neb _ _); [|done]. cbn [fst snd].
  split; [|done]. assert (rp_ok (rp_set_changes (changes_for_reader_ r) (changes_low_mark_ r) r)) as Hok' by (by apply rp_same_keys).
  destruct (request_all add_gap min (changes_low_mark_ r) r (bm_for_each set)
    {| rq_changes := changes_for_reader_ r; rq_gaps := g; rq_sent := []; rq_someone := false |} Hok' Hels Hmin) as [-> _].
  by apply requested_by_inv.
Qed.

Lemma mark_keys f c c' : markFragmentsAsSent f c = Some c' → seq_num_ c' = seq_num_ c.
Proof.
  unfold markFragmentsAsSent. destruct (bm_remove _ f) as [u|]; cbn; [|done]. intros E. repeat case_match; by injection E as <-.
Qed.

Lemma mark_unsent_key set c : seq_num_ (markFragmentsAsUnsent set c) = seq_num_ c.
Proof. unfold markFragmentsAsUnsent. repeat case_match; done. Qed.

Lemma mark_fragment_ok s f r b last r' :
  rp_ok r → sn_ok s → mark_fragment_as_sent_for_change s f r = Some (b, last, r') → rp_ok r' ∧ is_active_ r' = is_active_ r.
Proof.
  intros Hok Hs. unfold mark_fragment_as_sent_for_change. destruct (_ <=? _)%sn; [by intros [= _ _ <-]|].
  destruct (changes_for_reader_ r !! _) as [c|] eqn:El; [|by intros [= _ _ <-]].
  destruct (markFragmentsAsSent f c) as [c'|] eqn:Ec; cbn; [|done]. intros [= _ _ <-]. split; [|done].
  apply rp_same_keys; [done|]. by eapply keys_insert; [|eapply mark_keys].
Qed.

Lemma nack_frag_ok guid n s set r :
  rp_ok r → sn_ok s → let r' := snd (process_nack_frag guid n s set r) in rp_ok r' ∧ is_active_ r' = is_active_ r.
Proof.
  intros Hok Hs. unfold process_nack_frag. cbn zeta. destruct (_ && _); [|done].
  set (r1 := rp_set_counts _ _ r). assert (rp_ok r1) as Hok1 by (by apply (rp_ok_same r)).
  unfold requested_fragment_set. destruct (changes_for_reader_ r1 !! _) as [c|] eqn:El; [|done]. split; [|done].
  cbn [snd]. apply rp_same_keys; [done|]. eapply keys_insert; [done|]. destruct (decide _); cbn; apply mark_unsent_key.
Qed.

Lemma rp_step_inv wi r r' : wi_ok wi → rp_inv r → rp_step wi r r' → rp_inv r'.
Proof.
  intros Hwi [Hok Hoff] Hstep. unfold rp_inv.
  assert (∀ r', is_active_ r = true → rp_ok r' ∧ is_active_ r' = is_active_ r → rp_inv r') as Hact.
  { intros q Ha [Hq E]. split; [done|]. intros Hf. rewrite E, Ha in Hf. done. }
  assert (∀ r', changes_for_reader_ r' = changes_for_reader_ r ∧ changes_low_mark_ r' = changes_low_mark_ r ∧
    is_active_ r' = is_active_ r → rp_inv r') as Hsame.
  { intros q (E1 & E2 & E3). split; [by apply (rp_ok_same r)|]. rewrite E1, E2, E3. done. }
  destruct Hstep; fold rp_inv.
  - destruct (Hoff ltac:(done)) as [Ec El]. destruct (rp_start_ok wi attributes ds r) as [H1 H2]; [done..|].
    split; [done|]. rewrite H2. done.
  - by apply Hsame.
  - apply rp_stop_inv.
  - apply Hsame, disable_timers_same.
  - by apply Hsame.
  - apply Hact; [done|]. unfold add_change_restart.
    assert (∃ r1 e1, (if restart && timers_enabled_ r then restart_nack_supression_timer r else (r, [])) = (r1, e1) ∧
      changes_for_reader_ r1 = changes_for_reader_ r ∧ changes_low_mark_ r1 = changes_low_mark_ r ∧ is_active_ r1 = is_active_ r)
      as (r1 & e1 & -> & E1 & E2 & E3).
    { destruct (restart && _); [|by exists r, []]. pose proof (restart_nack_same r) as E.
      destruct (restart_nack_supression_timer r) as [r1 e1]. by exists r1, e1. }
    cbn [fst]. split; [|unfold add_change; repeat case_match; done].
    apply add_change_ok; rewrite ?E1, ?E2; [by apply (rp_ok_same r) | done..].
  - apply Hact; [done|]. split; [by apply acked_changes_set_ok | unfold acked_changes_set; repeat case_match; done].
  - apply Hsame. unfold check_and_set_acknack_count. by destruct (_ >=? _).
  - apply Hact; [done|]. by apply requested_ok.
  - apply Hact; [done|]. unfold process_initial_acknack. destruct (is_local_reader r); [|done]. by apply convert_ok.
  - apply Hact; [done|]. apply (from_unsent_ok wi s status restart delivered r r' eff); done.
  - apply Hact; [done|]. apply (mark_fragment_ok s f r b _ r' Hok H0 H1).
  - apply Hact; [done|]. by apply convert_ok.
  - apply Hact; [done|]. by apply convert_ok.
  - apply Hact; [done|]. by apply removed_ok.
  - apply Hact; [done|]. by apply nack_frag_ok.
Qed.


(** A writer with changes 3 to 7 in its history, and a proxy that has sent some of them. *)
Definition test_change (n : Z) : CacheChange_t := {|
  cc_kind := ALIVE; writerGUID := c_Guid_Unknown; instanceHandle := None; sequenceNumber := SeqNum 0 n;
  serializedPayload := pl_default; inline_qos := pl_default; sourceTimestamp := Time.time_zero;
  vendor_id := []; fragment_size_ := 0; fragment_count_ := 0; first_missing_fragment_ := 0 |}.

Definition test_writer_info : WriterInfo := {|
  wi_seq_num_min := SeqNum 0 3;
  wi_next_sequence_number := SeqNum 0 8;
  wi_get_change := λ s, if bool_decide (3 <= snz s <= 7) && bool_decide (sn_wf s) then Some (test_change (snz s)) else None;
  wi_data_filter := None;
  wi_should_intraprocess := λ _, false
|}.

Lemma test_writer_info_ok : wi_ok test_writer_info.
Proof.
  constructor; [by vm_compute | by vm_compute | right; split; by vm_compute |].
  intros s ch. cbn [wi_get_change test_writer_info]. destruct (bool_decide (3 <= snz s <= 7)) eqn:E; [|done]. cbn [andb].
  apply bool_decide_eq_true in E. case_bool_decide as Hw; [|done]. intros [= <-]. cbn [sequenceNumber test_change].
  apply sn_val_inj; [split; cbn; zwidth | done | unfold snz; cbn; lia].
Qed.

Definition test_attributes : ReaderProxyData := {|
  rpd_guid := Guid c_GuidPrefix_Unknown (ent_of_u32 0x104); rpd_unicast := [loc_default]; rpd_multicast := [];
  rpd_expects_inline_qos := false; rpd_durability := TRANSIENT_LOCAL; rpd_best_effort := false;
  rpd_disable_positive_acks := false |}.

Definition test_started : ReaderProxy := fst (rp_start test_writer_info test_attributes false (fst (rp_make false None))).


(** ** Acknowledgements *)


Definition test_proxy_3_7 : ReaderProxy := rp_set_changes
  [cfr_set_status UNACKNOWLEDGED (cfr_make (test_change 3)); cfr_set_status UNACKNOWLEDGED (cfr_make (test_change 4));
   cfr_set_status ACKNOWLEDGED (cfr_make (test_change 5)); cfr_set_status UNACKNOWLEDGED (cfr_make (test_change 7))]
  (SeqNum 0 2) test_started.

Lemma test_proxy_3_7_ok : rp_ok test_proxy_3_7.
Proof.
  apply rp_set_changes_ok; [by apply (bool_decide_unpack _).. | |by apply (bool_decide_unpack _)].
  rewrite !ksorted_cons. split_and!; [apply ksorted_nil | by apply (bool_decide_unpack _)..].
Qed.


(** A reader that is not volatile and asks for everything (it acknowledges nothing) gets back
    the whole history: every change of the history up to the mark is listed again as sent and not
    acknowledged, what was listed stays, and nothing else is listed; the mark moves below the
    history. *)
Lemma late_joiner_gets_history wi r :
  wi_ok wi → rp_ok r → durability_kind_ r ≠ VOLATILE → wi_seq_num_min wi ≠ sn_unknown →
  in_history wi (changes_for_reader_ r) →
  let r' := acked_changes_set wi sn_zero r in
  rp_ok r' ∧ snz (changes_low_mark_ r') = snz (wi_seq_num_min wi) - 1 ∧
  (∀ c, c ∈ changes_for_reader_ r' ↔ c ∈ changes_for_reader_ r ∨
     ∃ s ch, sn_wf s ∧ snz (wi_seq_num_min wi) <= snz s <= snz (changes_low_mark_ r) ∧ wi_get_change wi s = Some ch ∧
             c = cfr_set_status UNACKNOWLEDGED (cfr_make ch)).
Proof.
  intros Hwi Hok Hd Hm Hin. destruct (late_joiner_spec wi r Hwi Hok Hd Hm Hin) as (Hok' & El & Hel). cbn zeta. split_and!; [done..|].
  intros c. rewrite Hel. apply or_iff_compat_l. destruct (wi_min_ok wi Hwi) as [|[Hmok Hm1]]; [done|].
  pose proof (sn_ok_range _ (rp_low_ok r Hok)) as Hr. unfold relisted. rewrite list_elem_of_omap. split.
  - intros (z & Hz & E). apply elem_of_seqZ in Hz. destruct (wi_get_change wi (sn_of_Z z)) as [ch|] eqn:Eg; [|done].
    injection E as <-. exists (sn_of_Z z), ch. rewrite snz_of_Z. split_and!; [apply sn_of_Z_wf; zwidth | lia | lia | done | done].
  - intros (s & ch & Hw & Hrange & Eg & ->). exists (snz s). split; [apply elem_of_seqZ; lia|]. by rewrite sn_of_snz, Eg.
Qed.

(** A request of 3, 5, 6 and 9. *)
Definition test_request : SequenceNumberSet_t :=
  foldl (λ b n, fst (bm_add b (SeqNum 0 n))) (bm_make (SeqNum 0 3)) [3; 5; 6; 9].

Lemma test_request_ok : bm_ok test_request.
Proof.
  unfold test_request. cbn [foldl].
  repeat (apply bm_add_spec; [|split; [split; cbn; zwidth | by vm_compute]]).
  apply bm_make_ok; [split; [split; cbn; zwidth | by vm_compute] | by vm_compute].
Qed.

Lemma test_request_items : Forall sn_ok (bm_for_each test_request).
Proof. apply (bool_decide_unpack _). vm_compute. exact I. Qed.
