(* ===== verification/WriterProxy.v ===== *)
(** * WriterProxy (src/cpp/rtps/reader/WriterProxy.cpp)

    The state a stateful reader keeps of each writer it is matched with: which
    sequence numbers have been received, which ones the writer has announced, the
    last one notified to the user, and the timers of the acknowledgements.

    The fields that track changes are grouped in [WriterChanges]; everything else
    is in [WriterProxy]. [changes_received_] is a [std::set]: the list of its
    elements in iteration order. *)

From Stdlib Require Import ZArith Lia ZifyBool.
From stdpp Require Import base numbers list option list_numbers.
From S2P Require Import Prelude SequenceNumber BitmapRange SortedRange Guid TimedEvent.

Open Scope Z_scope.

(** ** Tracking of changes *)

Record WriterChanges := {
  changes_received_ : list SequenceNumber_t;
  changes_from_writer_low_mark_ : SequenceNumber_t;
  max_sequence_number_ : SequenceNumber_t;
  last_notified_ : SequenceNumber_t
}.

(** [std::set] with [operator<] *)
Definition set_lower_bound (x : SequenceNumber_t) (l : list SequenceNumber_t) : nat :=
  lower_bound (λ y, (y <? x)%sn) l.

Definition set_find (x : SequenceNumber_t) (l : list SequenceNumber_t) : bool :=
  match l !! set_lower_bound x l with
  | Some y => negb (x <? y)%sn
  | None => false
  end.

Definition set_insert (x : SequenceNumber_t) (l : list SequenceNumber_t) : list SequenceNumber_t :=
  if set_find x l then l else insert_at (set_lower_bound x l) x l.

Definition loaded_from_storage (seq_num : SequenceNumber_t) (c : WriterChanges) : WriterChanges :=
  {| changes_received_ := changes_received_ c; changes_from_writer_low_mark_ := seq_num;
     max_sequence_number_ := seq_num; last_notified_ := seq_num |}.

Definition set_received (l : list SequenceNumber_t) (c : WriterChanges) : WriterChanges :=
  {| changes_received_ := l; changes_from_writer_low_mark_ := changes_from_writer_low_mark_ c;
     max_sequence_number_ := max_sequence_number_ c; last_notified_ := last_notified_ c |}.

Definition set_low_mark (s : SequenceNumber_t) (c : WriterChanges) : WriterChanges :=
  {| changes_received_ := changes_received_ c; changes_from_writer_low_mark_ := s;
     max_sequence_number_ := max_sequence_number_ c; last_notified_ := last_notified_ c |}.

Definition set_max (s : SequenceNumber_t) (c : WriterChanges) : WriterChanges :=
  {| changes_received_ := changes_received_ c;
     changes_from_writer_low_mark_ := changes_from_writer_low_mark_ c;
     max_sequence_number_ := s; last_notified_ := last_notified_ c |}.

Definition set_notified (s : SequenceNumber_t) (c : WriterChanges) : WriterChanges :=
  {| changes_received_ := changes_received_ c;
     changes_from_writer_low_mark_ := changes_from_writer_low_mark_ c;
     max_sequence_number_ := max_sequence_number_ c; last_notified_ := s |}.

(** The loop of [cleanup]: elements still in the set and the new low mark. *)
Fixpoint cleanup_loop (l : list SequenceNumber_t) (low_mark : SequenceNumber_t) :
    list SequenceNumber_t * SequenceNumber_t :=
  match l with
  | x :: l' => if (x =? low_mark + 1)%sn then cleanup_loop l' (sn_incr low_mark) else (l, low_mark)
  | [] => ([], low_mark)
  end.

Definition cleanup (c : WriterChanges) : WriterChanges :=
  let '(l, low_mark) := cleanup_loop (changes_received_ c) (changes_from_writer_low_mark_ c) in
  set_low_mark low_mark (set_received l c).

Definition missing_changes_update (seq_num : SequenceNumber_t) (c : WriterChanges) : WriterChanges :=
  if (seq_num >? changes_from_writer_low_mark_ c)%sn
  then if (seq_num >? max_sequence_number_ c)%sn then set_max seq_num c else c
  else c.

(** [tmp > max ? max : static_cast<int32_t>(tmp)] *)
Definition clamp_int32 (tmp : Z) : Z := if tmp >? 2 ^ 31 - 1 then 2 ^ 31 - 1 else i32 tmp.

Definition lost_changes_update (seq_num : SequenceNumber_t) (c : WriterChanges) : Z * WriterChanges :=
  let low_mark := changes_from_writer_low_mark_ c in
  if (seq_num >? low_mark + 1)%sn then
    let it := set_lower_bound seq_num (changes_received_ c) in
    let current_sample_lost :=
      match changes_received_ c with
      | first :: _ =>
          let tmp := u64 (to64long first - u64 (to64long low_mark + 1)) in
          let distance := Z.of_nat it in
          clamp_int32 (u64 (tmp + u64 (u64 (to64long seq_num - to64long first) - distance)))
      | [] => clamp_int32 (u64 (to64long seq_num - u64 (to64long low_mark + 1)))
      end in
    let c1 := set_low_mark (seq_num - 1)%sn (set_received (drop it (changes_received_ c)) c) in
    let c2 := if (changes_from_writer_low_mark_ c1 >? max_sequence_number_ c1)%sn
              then set_max (changes_from_writer_low_mark_ c1) c1 else c1 in
    (current_sample_lost, cleanup c2)
  else (0, c).

(** The relevance of the change is an unused argument of the private overload that both
    [received_change_set] and [irrelevant_change_set] call. *)
Definition received_change_set (seq_num : SequenceNumber_t) (c : WriterChanges) : bool * WriterChanges :=
  let low_mark := changes_from_writer_low_mark_ c in
  if (seq_num <=? low_mark)%sn then (false, c)
  else if (seq_num >? max_sequence_number_ c)%sn then
    (true, set_max seq_num
             (if (seq_num =? low_mark + 1)%sn then set_low_mark seq_num c
              else set_received (set_insert seq_num (changes_received_ c)) c))
  else if (low_mark + 1 =? seq_num)%sn then (true, cleanup (set_low_mark seq_num c))
  else if set_find seq_num (changes_received_ c) then (false, c)
  else (true, set_received (set_insert seq_num (changes_received_ c)) c).

Definition irrelevant_change_set (seq_num : SequenceNumber_t) (c : WriterChanges) : bool * WriterChanges :=
  received_change_set seq_num c.

(** The loop of [missing_changes]: the first number not looked at and the set built so far. *)
Fixpoint missing_loop (l : list SequenceNumber_t) (first_missing max_missing : SequenceNumber_t)
    (sns : SequenceNumberSet_t) : SequenceNumber_t * SequenceNumberSet_t :=
  match l with
  | [] => (first_missing, sns)
  | s :: l' =>
      let seq := sn_min s max_missing in
      let sns' := bm_add_range sns first_missing seq in
      let first' := (seq + 1)%sn in
      if (first' >=? max_missing)%sn then (first', sns') else missing_loop l' first' max_missing sns'
  end.

Definition missing_changes (c : WriterChanges) : SequenceNumberSet_t :=
  let first_missing := (changes_from_writer_low_mark_ c + 1)%sn in
  let max_missing := sn_min (first_missing + 256)%sn (max_sequence_number_ c + 1)%sn in
  let '(first', sns) := missing_loop (changes_received_ c) first_missing max_missing (bm_make first_missing) in
  if (first' <? max_missing)%sn then bm_add_range sns first' max_missing else sns.

Definition change_was_received (seq_num : SequenceNumber_t) (c : WriterChanges) : bool :=
  if (seq_num <=? changes_from_writer_low_mark_ c)%sn then true
  else set_find seq_num (changes_received_ c).

Definition available_changes_max (c : WriterChanges) : SequenceNumber_t := changes_from_writer_low_mark_ c.

Definition are_there_missing_changes (c : WriterChanges) : bool :=
  (changes_from_writer_low_mark_ c <? max_sequence_number_ c)%sn.

(** The loop of [unknown_missing_changes_up_to]: first number not looked at and the count. *)
Fixpoint unknown_loop (l : list SequenceNumber_t) (first_missing seq_num : SequenceNumber_t)
    (returned : Z) : SequenceNumber_t * Z :=
  match l with
  | [] => (first_missing, returned)
  | s :: l' =>
      let seq := sn_min s seq_num in
      let returned' := if (first_missing <? seq)%sn
                       then u32 (returned + SequenceNumberDiff seq first_missing) else returned in
      let first' := (seq + 1)%sn in
      if (first' >=? seq_num)%sn then (first', returned') else unknown_loop l' first' seq_num returned'
  end.

Definition unknown_missing_changes_up_to (seq_num : SequenceNumber_t) (c : WriterChanges) : Z :=
  if (seq_num >? changes_from_writer_low_mark_ c)%sn then
    let first_missing := (changes_from_writer_low_mark_ c + 1)%sn in
    let '(first', returned) := unknown_loop (changes_received_ c) first_missing seq_num 0 in
    if (first' <? seq_num)%sn then u32 (returned + SequenceNumberDiff seq_num first') else returned
  else 0.

Definition number_of_changes_from_writer (c : WriterChanges) : Z :=
  if (max_sequence_number_ c >? changes_from_writer_low_mark_ c)%sn
  then SequenceNumberDiff (max_sequence_number_ c) (changes_from_writer_low_mark_ c) else 0.

Definition next_cache_change_to_be_notified (c : WriterChanges) : SequenceNumber_t * WriterChanges :=
  if (last_notified_ c <? changes_from_writer_low_mark_ c)%sn
  then let n := sn_incr (last_notified_ c) in (n, set_notified n c)
  else (sn_unknown, c).

(** ** The proxy *)

Inductive WPStateCode := IDLE | BUSY | STOPPED.

#[global] Instance WPStateCode_eq_dec : EqDecision WPStateCode.
Proof. solve_decision. Defined.

Inductive LivelinessKind := AUTOMATIC_LIVELINESS | MANUAL_BY_PARTICIPANT_LIVELINESS | MANUAL_BY_TOPIC_LIVELINESS.

(** What the proxy reads of its [StatefulReader] and of the domain: the delays of the timers,
    [filter_remote_locators] with the external locators of the reader's attributes,
    [RTPSDomainImpl::should_intraprocess_between] for the reader, and whether
    [RTPSDomainImpl::find_local_writer] finds a writer. *)
Record ReaderInfo := {
  rd_guid : GUID_t;
  rd_heartbeat_response_delay : Duration_t;
  rd_initial_acknack_delay : Duration_t;
  rd_filter_remote_locators : list Locator_t → list Locator_t;
  rd_should_intraprocess : GUID_t → bool;
  rd_find_local_writer : GUID_t → bool
}.

(** The part of [WriterProxyData] (discovery data of the writer) that the proxy uses. *)
Record WriterProxyData := {
  wd_guid : GUID_t;
  wd_persistence_guid : GUID_t;
  wd_ownership_strength : Z;
  wd_liveliness_kind : LivelinessKind;
  wd_unicast : list Locator_t;
  wd_multicast : list Locator_t
}.

Record WriterProxy := {
  wp_reader : ReaderInfo;
  heartbeat_response_ : TimedEventImpl;
  initial_acknack_ : TimedEventImpl;
  last_heartbeat_count_ : Z;
  heartbeat_final_flag_ : bool;
  is_alive_ : bool;
  wp_changes : WriterChanges;
  guid_as_vector_ : list GUID_t;
  guid_prefix_as_vector_ : list GuidPrefix_t;
  is_on_same_process_ : bool;
  ownership_strength_ : Z;
  liveliness_kind_ : LivelinessKind;
  persistence_guid_ : GUID_t;
  locators_entry_ : LocatorSelectorEntry;
  is_datasharing_writer_ : bool;
  received_at_least_one_heartbeat_ : bool;
  wp_state_ : WPStateCode
}.

(** What the proxy does outside of its own state. *)
Inductive WPEffect :=
| HeartbeatTimer (c : ServiceCall)
| AcknackTimer (c : ServiceCall)
| SendAcknackSet (sns : SequenceNumberSet_t) (is_final : bool)
| SendAcknack (is_final : bool)
| LocalAcknack (writer reader : GUID_t) (count : Z) (sns : SequenceNumberSet_t) (final_flag : bool).

(** [ResourceLimitedVector::push_back] on a vector of at most one element. *)
Definition push_back_one {A} (v : list A) (x : A) : list A :=
  if (length v <? 1)%nat then v ++ [x] else v.

Definition wp_set_changes (c : WriterChanges) (w : WriterProxy) : WriterProxy :=
  {| wp_reader := wp_reader w; heartbeat_response_ := heartbeat_response_ w;
     initial_acknack_ := initial_acknack_ w; last_heartbeat_count_ := last_heartbeat_count_ w;
     heartbeat_final_flag_ := heartbeat_final_flag_ w; is_alive_ := is_alive_ w; wp_changes := c;
     guid_as_vector_ := guid_as_vector_ w; guid_prefix_as_vector_ := guid_prefix_as_vector_ w;
     is_on_same_process_ := is_on_same_process_ w; ownership_strength_ := ownership_strength_ w;
     liveliness_kind_ := liveliness_kind_ w; persistence_guid_ := persistence_guid_ w;
     locators_entry_ := locators_entry_ w; is_datasharing_writer_ := is_datasharing_writer_ w;
     received_at_least_one_heartbeat_ := received_at_least_one_heartbeat_ w; wp_state_ := wp_state_ w |}.

Definition wp_set_timers (hb ack : TimedEventImpl) (w : WriterProxy) : WriterProxy :=
  {| wp_reader := wp_reader w; heartbeat_response_ := hb;
     initial_acknack_ := ack; last_heartbeat_count_ := last_heartbeat_count_ w;
     heartbeat_final_flag_ := heartbeat_final_flag_ w; is_alive_ := is_alive_ w; wp_changes := wp_changes w;
     guid_as_vector_ := guid_as_vector_ w; guid_prefix_as_vector_ := guid_prefix_as_vector_ w;
     is_on_same_process_ := is_on_same_process_ w; ownership_strength_ := ownership_strength_ w;
     liveliness_kind_ := liveliness_kind_ w; persistence_guid_ := persistence_guid_ w;
     locators_entry_ := locators_entry_ w; is_datasharing_writer_ := is_datasharing_writer_ w;
     received_at_least_one_heartbeat_ := received_at_least_one_heartbeat_ w; wp_state_ := wp_state_ w |}.

Definition wp_set_state (s : WPStateCode) (w : WriterProxy) : WriterProxy :=
  {| wp_reader := wp_reader w; heartbeat_response_ := heartbeat_response_ w;
     initial_acknack_ := initial_acknack_ w; last_heartbeat_count_ := last_heartbeat_count_ w;
     heartbeat_final_flag_ := heartbeat_final_flag_ w; is_alive_ := is_alive_ w; wp_changes := wp_changes w;
     guid_as_vector_ := guid_as_vector_ w; guid_prefix_as_vector_ := guid_prefix_as_vector_ w;
     is_on_same_process_ := is_on_same_process_ w; ownership_strength_ := ownership_strength_ w;
     liveliness_kind_ := liveliness_kind_ w; persistence_guid_ := persistence_guid_ w;
     locators_entry_ := locators_entry_ w; is_datasharing_writer_ := is_datasharing_writer_ w;
     received_at_least_one_heartbeat_ := received_at_least_one_heartbeat_ w; wp_state_ := s |}.

Definition wp_guid (w : WriterProxy) : GUID_t := remote_guid (locators_entry_ w).

(** [remote_locators_shrinked()] *)
Definition wp_remote_locators (w : WriterProxy) : list Locator_t :=
  match unicast (locators_entry_ w) with [] => multicast (locators_entry_ w) | _ => unicast (locators_entry_ w) end.

Definition wp_clear (w : WriterProxy) : WriterProxy :=
  {| wp_reader := wp_reader w; heartbeat_response_ := heartbeat_response_ w;
     initial_acknack_ := initial_acknack_ w; last_heartbeat_count_ := 0;
     heartbeat_final_flag_ := false; is_alive_ := false;
     wp_changes := loaded_from_storage sn_zero (set_received [] (wp_changes w));
     guid_as_vector_ := []; guid_prefix_as_vector_ := [];
     is_on_same_process_ := false; ownership_strength_ := ownership_strength_ w;
     liveliness_kind_ := liveliness_kind_ w; persistence_guid_ := persistence_guid_ w;
     locators_entry_ := entry_assign c_Guid_Unknown [] [] (locators_entry_ w);
     is_datasharing_writer_ := is_datasharing_writer_ w;
     received_at_least_one_heartbeat_ := received_at_least_one_heartbeat_ w; wp_state_ := wp_state_ w |}.

(** The constructor; [now] is the clock when the two events are created. The events register
    themselves with the service. *)
Definition wp_make (reader : ReaderInfo) (now : Z) : WriterProxy * list WPEffect :=
  (wp_clear
     {| wp_reader := reader; heartbeat_response_ := te_make 0 now; initial_acknack_ := te_make 0 now;
        last_heartbeat_count_ := 0; heartbeat_final_flag_ := false; is_alive_ := false;
        wp_changes := {| changes_received_ := []; changes_from_writer_low_mark_ := sn_zero;
                         max_sequence_number_ := sn_zero; last_notified_ := sn_zero |};
        guid_as_vector_ := []; guid_prefix_as_vector_ := []; is_on_same_process_ := false;
        ownership_strength_ := 0; liveliness_kind_ := AUTOMATIC_LIVELINESS;
        persistence_guid_ := c_Guid_Unknown;
        locators_entry_ := entry_make;
        is_datasharing_writer_ := false; received_at_least_one_heartbeat_ := false; wp_state_ := STOPPED |},
   [HeartbeatTimer RegisterTimer; AcknackTimer RegisterTimer]).

Definition wp_start (attributes : WriterProxyData) (initial_sequence : SequenceNumber_t)
    (is_datasharing : bool) (w : WriterProxy) : WriterProxy * list WPEffect :=
  let reader := wp_reader w in
  let '(ack, calls) := te_restart_timer (te_update_interval (rd_initial_acknack_delay reader) (initial_acknack_ w)) in
  ({| wp_reader := reader;
      heartbeat_response_ := te_update_interval (rd_heartbeat_response_delay reader) (heartbeat_response_ w);
      initial_acknack_ := ack;
      last_heartbeat_count_ := last_heartbeat_count_ w; heartbeat_final_flag_ := heartbeat_final_flag_ w;
      is_alive_ := true;
      wp_changes := loaded_from_storage initial_sequence (wp_changes w);
      guid_as_vector_ := push_back_one (guid_as_vector_ w) (wd_guid attributes);
      guid_prefix_as_vector_ := push_back_one (guid_prefix_as_vector_ w) (guidPrefix (wd_guid attributes));
      is_on_same_process_ := rd_should_intraprocess reader (wd_guid attributes);
      ownership_strength_ := wd_ownership_strength attributes;
      liveliness_kind_ := wd_liveliness_kind attributes;
      persistence_guid_ := wd_persistence_guid attributes;
      locators_entry_ := entry_assign (wd_guid attributes)
                           (rd_filter_remote_locators reader (wd_unicast attributes)) (wd_multicast attributes)
                           (locators_entry_ w);
      is_datasharing_writer_ := is_datasharing;
      received_at_least_one_heartbeat_ := false; wp_state_ := IDLE |},
   AcknackTimer <$> calls).

Definition wp_update (attributes : WriterProxyData) (w : WriterProxy) : WriterProxy :=
  {| wp_reader := wp_reader w; heartbeat_response_ := heartbeat_response_ w;
     initial_acknack_ := initial_acknack_ w; last_heartbeat_count_ := last_heartbeat_count_ w;
     heartbeat_final_flag_ := heartbeat_final_flag_ w; is_alive_ := is_alive_ w; wp_changes := wp_changes w;
     guid_as_vector_ := guid_as_vector_ w; guid_prefix_as_vector_ := guid_prefix_as_vector_ w;
     is_on_same_process_ := is_on_same_process_ w; ownership_strength_ := wd_ownership_strength attributes;
     liveliness_kind_ := liveliness_kind_ w; persistence_guid_ := persistence_guid_ w;
     locators_entry_ := entry_assign (remote_guid (locators_entry_ w))
                          (rd_filter_remote_locators (wp_reader w) (wd_unicast attributes)) (wd_multicast attributes)
                          (locators_entry_ w);
     is_datasharing_writer_ := is_datasharing_writer_ w;
     received_at_least_one_heartbeat_ := received_at_least_one_heartbeat_ w; wp_state_ := wp_state_ w |}.

Definition wp_stop (w : WriterProxy) : WriterProxy * list WPEffect :=
  let '(ack, calls) := if decide (wp_state_ w = BUSY) then te_recreate_timer (initial_acknack_ w)
                       else te_cancel_timer (initial_acknack_ w) in
  let '(hb, hb_calls) := te_cancel_timer (heartbeat_response_ w) in
  (wp_clear (wp_set_timers hb ack (wp_set_state STOPPED w)),
   (AcknackTimer <$> calls) ++ (HeartbeatTimer <$> hb_calls)).

(** The two callbacks of the timers run between an exchange of IDLE by BUSY, which fails when
    the proxy has been stopped, and one of BUSY by IDLE, which a concurrent [stop] makes fail. *)
Definition wp_enter (w : WriterProxy) : option WriterProxy :=
  if decide (wp_state_ w = IDLE) then Some (wp_set_state BUSY w) else None.

Definition wp_leave (w : WriterProxy) : WriterProxy :=
  if decide (wp_state_ w = BUSY) then wp_set_state IDLE w else w.

Definition initial_ack_nack_body (w : WriterProxy) : bool * WriterProxy * list WPEffect :=
  if negb (is_datasharing_writer_ w) then
    if is_on_same_process_ w then
      (false, w, if rd_find_local_writer (wp_reader w) (wp_guid w)
                 then [LocalAcknack (wp_guid w) (rd_guid (wp_reader w)) 1 bm_default false] else [])
    else if last_heartbeat_count_ w =? 0 then
      let time_ms := te_getIntervalMsec (initial_acknack_ w) in
      let sent := [SendAcknackSet (bm_make (SeqNum 0 0)) false] in
      if time_ms <? 60 * 60 * 1000
      then (true, wp_set_timers (heartbeat_response_ w)
                    (te_update_interval_millisec (time_ms * 2) (initial_acknack_ w)) w, sent)
      else (false, w, sent)
    else (false, w, [])
  else (false, w, []).

Definition perform_initial_ack_nack (w : WriterProxy) : bool * WriterProxy * list WPEffect :=
  match wp_enter w with
  | None => (false, w, [])
  | Some w1 => let '(ret_value, w2, effects) := initial_ack_nack_body w1 in (ret_value, wp_leave w2, effects)
  end.

Definition perform_heartbeat_response (w : WriterProxy) : WriterProxy * list WPEffect :=
  match wp_enter w with
  | None => (w, [])
  | Some w1 => (wp_leave w1, [SendAcknack (heartbeat_final_flag_ w1)])
  end.

Definition wp_restart_heartbeat_response (w : WriterProxy) : WriterProxy * list WPEffect :=
  let '(hb, calls) := te_restart_timer (heartbeat_response_ w) in
  (wp_set_timers hb (initial_acknack_ w) w, HeartbeatTimer <$> calls).

(** Results of [process_heartbeat]: whether the message was processed, and the two output
    arguments; [current_sample_lost] is left as it was when the message is ignored. *)
Record HeartbeatResult := {
  hb_processed : bool;
  hb_assert_liveliness : bool;
  hb_sample_lost : Z
}.

Definition process_heartbeat (count : Z) (first_seq last_seq : SequenceNumber_t)
    (final_flag liveliness_flag disable_positive : bool) (current_sample_lost : Z)
    (w : WriterProxy) : HeartbeatResult * WriterProxy * list WPEffect :=
  if bool_decide (wp_state_ w ≠ STOPPED) && (last_heartbeat_count_ w <? count) then
    let '(lost, c1) := lost_changes_update first_seq (wp_changes w) in
    let c2 := missing_changes_update last_seq c1 in
    let w1 :=
      {| wp_reader := wp_reader w; heartbeat_response_ := heartbeat_response_ w;
         initial_acknack_ := initial_acknack_ w; last_heartbeat_count_ := count;
         heartbeat_final_flag_ := final_flag; is_alive_ := is_alive_ w; wp_changes := c2;
         guid_as_vector_ := guid_as_vector_ w; guid_prefix_as_vector_ := guid_prefix_as_vector_ w;
         is_on_same_process_ := is_on_same_process_ w; ownership_strength_ := ownership_strength_ w;
         liveliness_kind_ := liveliness_kind_ w; persistence_guid_ := persistence_guid_ w;
         locators_entry_ := locators_entry_ w; is_datasharing_writer_ := is_datasharing_writer_ w;
         received_at_least_one_heartbeat_ := true; wp_state_ := wp_state_ w |} in
    let '(assert_liveliness, (w2, effects)) :=
      if negb (is_on_same_process_ w) then
        if negb final_flag then
          (false, if negb disable_positive || are_there_missing_changes c2
                  then wp_restart_heartbeat_response w1 else (w1, []))
        else if final_flag && negb liveliness_flag then
          (false, if are_there_missing_changes c2 then wp_restart_heartbeat_response w1 else (w1, []))
        else (liveliness_flag, (w1, []))
      else (liveliness_flag, (w1, [])) in
    let lost' := if negb (received_at_least_one_heartbeat_ w) then 0 else lost in
    ({| hb_processed := true; hb_assert_liveliness := assert_liveliness; hb_sample_lost := lost' |}, w2, effects)
  else
    ({| hb_processed := false; hb_assert_liveliness := false; hb_sample_lost := current_sample_lost |}, w, []).

Definition update_heartbeat_response_interval (interval : Duration_t) (w : WriterProxy) : WriterProxy :=
  wp_set_timers (te_update_interval interval (heartbeat_response_ w)) (initial_acknack_ w) w.

(** [send]: nothing goes out for a writer of the same process; otherwise the reader sends to
    the locators of the writer. *)
Definition wp_send (send_sync_nts : list Locator_t → bool) (w : WriterProxy) : bool :=
  if is_on_same_process_ w then true else send_sync_nts (wp_remote_locators w).
