(* ===== verification/WriterProxyFacts.v ===== *)
(** * What the writer proxy guarantees

    [wc_ok] is the invariant of the change tracking of [WriterProxy];
    [wc_received c n] says that sequence number [n] counts as received. The
    functions of the proxy are shown to keep the invariant and to act on the set
    of received numbers as their documentation says. *)

From Stdlib Require Import ZArith Lia ZifyBool.
From stdpp Require Import base numbers list option list_numbers sorting sets.
From S2P Require Import Prelude SequenceNumber BitmapRange BitmapFacts SortedRange Guid TimedEvent WriterProxy.

Open Scope Z_scope.

Record wc_ok (c : WriterChanges) : Prop := {
  wc_low_ok : sn_ok (changes_from_writer_low_mark_ c);
  wc_max_ok : sn_ok (max_sequence_number_ c);
  wc_last_ok : sn_ok (last_notified_ c);
  wc_elems_ok : Forall sn_ok (changes_received_ c);
  wc_sorted : ksorted snz (changes_received_ c);
  wc_above : Forall (λ s, snz (changes_from_writer_low_mark_ c) + 1 < snz s <= snz (max_sequence_number_ c))
               (changes_received_ c);
  wc_low_max : snz (changes_from_writer_low_mark_ c) <= snz (max_sequence_number_ c);
  wc_notified : snz (last_notified_ c) <= snz (changes_from_writer_low_mark_ c)
}.

(** Sequence number [z] counts as received. *)
Definition wc_received (c : WriterChanges) (z : Z) : Prop :=
  z <= snz (changes_from_writer_low_mark_ c) ∨ z ∈ snz <$> changes_received_ c.

Lemma elem_snz_iff l s : Forall sn_ok l → sn_ok s → snz s ∈ snz <$> l ↔ s ∈ l.
Proof.
  intros Hl Hs. rewrite list_elem_of_fmap. split; [|by eauto].
  intros (y & E & Hy). rewrite Forall_forall in Hl. specialize (Hl y Hy).
  rewrite (sn_val_inj s y); [done | by apply sn_ok_wf.. | done].
Qed.

(** ** The ordered set *)

Section Set_.
Context (l : list SequenceNumber_t) (Hok : Forall sn_ok l) (Hs : ksorted snz l).

Lemma set_comp x : sn_ok x → ∀ y, y ∈ l → (y <? x)%sn = (snz y <? snz x).
Proof using Hok.
  intros Hx y Hy. rewrite Forall_forall in Hok. apply sn_ltb_snz; by apply sn_ok_wf; auto.
Qed.

Lemma set_find_spec x : sn_ok x → set_find x l = true ↔ snz x ∈ snz <$> l.
Proof using Hok Hs.
  intros Hx. pose proof (set_comp x Hx) as Hc. rewrite elem_snz_iff by done. unfold set_find. split.
  - destruct (l !! set_lower_bound x l) as [y|] eqn:E; [|done]. intros Hn.
    pose proof (list_elem_of_lookup_2 _ _ _ E) as Hy.
    destruct (lower_bound_split snz (λ y, (y <? x)%sn) (snz x) l Hs Hc) as [_ Hd].
    assert (y ∈ drop (set_lower_bound x l) l) as Hyd.
    { apply list_elem_of_lookup_2 with 0%nat. rewrite lookup_drop, Nat.add_0_r. done. }
    rewrite Forall_forall in Hd, Hok. specialize (Hd y Hyd). specialize (Hok y Hy). cbn in Hd.
    rewrite sn_ltb_snz in Hn by (by apply sn_ok_wf). rewrite (sn_val_inj x y); [done | by apply sn_ok_wf.. | lia].
  - intros Hin. unfold set_lower_bound. rewrite (lower_bound_lookup snz _ (snz x) l x) by done.
    rewrite sn_ltb_snz by (by apply sn_ok_wf). lia.
Qed.

Lemma set_insert_spec x : sn_ok x →
  Forall sn_ok (set_insert x l) ∧ ksorted snz (set_insert x l) ∧
  ∀ y, y ∈ set_insert x l ↔ y = x ∨ y ∈ l.
Proof using Hok Hs.
  intros Hx. unfold set_insert. destruct (set_find x l) eqn:E.
  - apply set_find_spec, elem_snz_iff in E; [|done..]. split; [done|]. split; [done|].
    intros y. split; [by right | by intros [->|]].
  - assert (∀ b, b ∈ l → snz b ≠ snz x) as Hnew.
    { intros b Hb Eb. apply eq_true_false_abs in E; [done|]. apply set_find_spec; [done|].
      apply list_elem_of_fmap. by exists b. }
    assert (∀ y, y ∈ insert_at (set_lower_bound x l) x l ↔ y = x ∨ y ∈ l) as Hel
      by (intros y; apply elem_of_insert_at).
    split; [|split; [|done]].
    + apply Forall_forall. intros y [->|Hy]%Hel; [done|]. rewrite Forall_forall in Hok. by apply Hok.
    + apply insert_at_sorted with (snz x); [done | by apply set_comp | done | done].
Qed.
End Set_.

(** ** cleanup *)

(** The loop keeps the received numbers, and the number after the mark it stops at is missing. *)
Lemma cleanup_loop_spec l low_mark :
  sn_ok low_mark → Forall sn_ok l → ksorted snz l → Forall (λ s, snz low_mark < snz s) l →
  let '(l', low') := cleanup_loop l low_mark in
  sn_ok low' ∧ l' ⊆ l ∧ ksorted snz l' ∧ snz low_mark <= snz low' ∧
  (snz low' = snz low_mark ∨ snz low' ∈ snz <$> l) ∧
  Forall (λ s, snz low' + 1 < snz s) l' ∧
  ∀ z, z <= snz low' ∨ z ∈ snz <$> l' ↔ z <= snz low_mark ∨ z ∈ snz <$> l.
Proof.
  revert low_mark. induction l as [|x l IH]; intros m Hm Hok Hs Hab; cbn [cleanup_loop].
  { split_and!; [done | done | done | lia | by left | done | done]. }
  apply Forall_cons_iff in Hok as [Hx Hok]. apply ksorted_cons in Hs as [Hs Hxl].
  apply Forall_cons_iff in Hab as [Hmx Hab].
  destruct (sn_ok_add m 1 Hm ltac:(zwidth)) as [Hw1 E1].
  rewrite sn_eqb_snz, E1 by (done || by apply sn_ok_wf).
  destruct (Z.eqb_spec (snz x) (snz m + 1)) as [Ex|Hne].
  - assert (sn_incr m = x) as -> .
    { rewrite sn_incr_add_u32 by apply Hm. apply sn_val_inj; [done | by apply sn_ok_wf | lia]. }
    specialize (IH x Hx Hok Hs Hxl). destruct (cleanup_loop l x) as [l' low'].
    destruct IH as (Hl' & Hsub & Hs' & Hle & Hin & Hab' & Hrec). split_and!; [done | | done | lia | | done |].
    + intros y Hy. apply elem_of_cons. right. by apply Hsub.
    + right. rewrite fmap_cons, elem_of_cons. destruct Hin as [->|]; [by left | by right].
    + intros z. rewrite Hrec, fmap_cons, elem_of_cons. split; [intros [Hz|]|intros [Hz|[->|]]]; try tauto.
      * destruct (Z.eq_dec z (snz x)) as [->|]; [tauto|]. left. lia.
      * left. lia.
      * left. lia.
  - split_and!; [done | done | by apply ksorted_cons | lia | by left | | done].
    constructor; [lia|]. eapply Forall_impl; [exact Hxl|]. cbn. lia.
Qed.

(** [cleanup] establishes the invariant from the weaker condition that the elements are above
    the mark, and does not change which numbers are received. *)
Lemma cleanup_spec c :
  sn_ok (changes_from_writer_low_mark_ c) → sn_ok (max_sequence_number_ c) → sn_ok (last_notified_ c) →
  Forall sn_ok (changes_received_ c) → ksorted snz (changes_received_ c) →
  Forall (λ s, snz (changes_from_writer_low_mark_ c) < snz s <= snz (max_sequence_number_ c)) (changes_received_ c) →
  snz (changes_from_writer_low_mark_ c) <= snz (max_sequence_number_ c) →
  snz (last_notified_ c) <= snz (changes_from_writer_low_mark_ c) →
  wc_ok (cleanup c) ∧ (∀ z, wc_received (cleanup c) z ↔ wc_received c z) ∧
  max_sequence_number_ (cleanup c) = max_sequence_number_ c ∧
  last_notified_ (cleanup c) = last_notified_ c ∧
  snz (changes_from_writer_low_mark_ c) <= snz (changes_from_writer_low_mark_ (cleanup c)).
Proof.
  intros Hlow Hmax Hlast Hok Hs Hab Hle Hn. unfold cleanup, wc_received.
  pose proof (cleanup_loop_spec (changes_received_ c) (changes_from_writer_low_mark_ c) Hlow Hok Hs) as H.
  destruct (cleanup_loop _ _) as [l' low']. destruct H as (Hl' & Hsub & Hs' & Hle' & Hin & Hab' & Hrec).
  { eapply Forall_impl; [exact Hab|]. cbn. lia. }
  cbn. split; [|split_and!; done]. rewrite !Forall_forall in *.
  assert (snz low' <= snz (max_sequence_number_ c)) as Hlm.
  { destruct Hin as [->|Hin]; [done|]. apply list_elem_of_fmap in Hin as (y & -> & Hy). by apply Hab. }
  constructor; cbn; try done; rewrite ?Forall_forall.
  - intros s Hin'. apply Hok. by apply Hsub.
  - intros s Hin'. split; [by apply Hab' | by apply Hab, Hsub].
  - lia.
Qed.

(** ** The operations *)

(** Splits a statement about the mark plus one into arithmetic. *)
Ltac low_succ c Hok :=
  let Hw := fresh "Hw1" in let E := fresh "E1" in
  destruct (sn_ok_add (changes_from_writer_low_mark_ c) 1 (wc_low_ok c Hok) ltac:(zwidth)) as [Hw E].

Lemma wc_received_dec_find c s :
  wc_ok c → sn_ok s → change_was_received s c = true ↔ wc_received c (snz s).
Proof.
  intros Hok Hs. unfold change_was_received, wc_received.
  rewrite sn_leb_snz by (apply sn_ok_wf; done || apply Hok).
  destruct (Z.leb_spec (snz s) (snz (changes_from_writer_low_mark_ c))); [tauto|].
  rewrite set_find_spec by (apply Hok || done). split; [by right | intros [|]; [lia | done]].
Qed.

Lemma wc_low_succ_missing c : wc_ok c → ¬ wc_received c (snz (changes_from_writer_low_mark_ c) + 1).
Proof.
  intros Hok [|Hin]; [lia|]. apply list_elem_of_fmap in Hin as (y & E & Hy).
  pose proof (wc_above c Hok) as Hab. rewrite Forall_forall in Hab. specialize (Hab y Hy). lia.
Qed.

Lemma wc_received_le_max c z : wc_ok c → wc_received c z → z <= snz (max_sequence_number_ c).
Proof.
  intros Hok [|Hin]; [pose proof (wc_low_max c Hok); lia|]. apply list_elem_of_fmap in Hin as (y & -> & Hy).
  pose proof (wc_above c Hok) as Hab. rewrite Forall_forall in Hab. by apply Hab.
Qed.

Lemma loaded_from_storage_ok s c :
  sn_ok s → changes_received_ c = [] →
  wc_ok (loaded_from_storage s c) ∧ ∀ z, wc_received (loaded_from_storage s c) z ↔ z <= snz s.
Proof.
  intros Hs E. unfold wc_received. cbn. rewrite E. split.
  - constructor; cbn; rewrite ?E; done || lia || apply ksorted_nil.
  - intros z. cbn. rewrite elem_of_nil. tauto.
Qed.

Lemma missing_changes_update_spec s c :
  wc_ok c → sn_ok s →
  wc_ok (missing_changes_update s c) ∧
  (∀ z, wc_received (missing_changes_update s c) z ↔ wc_received c z) ∧
  snz (max_sequence_number_ (missing_changes_update s c)) = Z.max (snz (max_sequence_number_ c)) (snz s) ∧
  last_notified_ (missing_changes_update s c) = last_notified_ c ∧
  changes_from_writer_low_mark_ (missing_changes_update s c) = changes_from_writer_low_mark_ c.
Proof.
  intros Hok Hs. unfold missing_changes_update. pose proof (wc_low_max c Hok) as Hlm.
  rewrite !sn_gtb_snz by (apply sn_ok_wf; done || apply Hok).
  destruct (Z.gtb_spec (snz s) (snz (changes_from_writer_low_mark_ c))) as [H1|H1];
    [|split_and!; [done | done | lia | done | done]].
  destruct (Z.gtb_spec (snz s) (snz (max_sequence_number_ c))) as [H2|H2]; [|split_and!; [done | done | lia | done | done]].
  split_and!; [|done | cbn; lia | done | done]. destruct Hok. constructor; cbn; try done; try lia.
  eapply Forall_impl; [exact wc_above0|]. cbn. lia.
Qed.

Lemma set_insert_ok c s :
  wc_ok c → sn_ok s → snz (changes_from_writer_low_mark_ c) + 1 < snz s →
  let c' := set_received (set_insert s (changes_received_ c)) c in
  Forall sn_ok (changes_received_ c') ∧ ksorted snz (changes_received_ c') ∧
  Forall (λ x, snz (changes_from_writer_low_mark_ c) + 1 < snz x <= Z.max (snz (max_sequence_number_ c)) (snz s))
    (changes_received_ c') ∧
  ∀ z, wc_received c' z ↔ wc_received c z ∨ z = snz s.
Proof.
  intros Hok Hs Hlow. cbn. destruct (set_insert_spec (changes_received_ c)) with s as (Ho & Hk & Hel);
    [apply Hok | apply Hok | done |].
  split_and!; [done | done | |].
  - pose proof (wc_above c Hok) as Hab. rewrite Forall_forall in Hab |- *.
    intros x [->|Hx]%Hel; [lia|]. specialize (Hab x Hx). cbn in Hab. lia.
  - intros z. unfold wc_received. cbn. rewrite !list_elem_of_fmap. split.
    + intros [|(y & -> & [->|Hy]%Hel)]; [tauto | by right | eauto].
    + intros [[|(y & -> & Hy)]| ->]; [tauto | |]; right; eexists; (split; [done|]); apply Hel; tauto.
Qed.

(** What marking number [s] as received gives. *)
Definition marks_received (s : SequenceNumber_t) (c : WriterChanges) (r : bool) (c' : WriterChanges) : Prop :=
  wc_ok c' ∧ (r = true ↔ ¬ wc_received c (snz s)) ∧
  (∀ z, wc_received c' z ↔ wc_received c z ∨ z = snz s) ∧
  snz (max_sequence_number_ c') = Z.max (snz (max_sequence_number_ c)) (snz s) ∧
  last_notified_ c' = last_notified_ c ∧
  (r = false → c' = c) ∧ snz (changes_from_writer_low_mark_ c) <= snz (changes_from_writer_low_mark_ c').

Lemma marks_received_again s c : wc_ok c → wc_received c (snz s) → marks_received s c false c.
Proof.
  intros Hok Hr. pose proof (wc_received_le_max c _ Hok Hr). split_and!; try done; try lia.
  intros z. split; [tauto | by intros [| ->]].
Qed.

Lemma marks_received_insert s c :
  wc_ok c → sn_ok s → snz (changes_from_writer_low_mark_ c) + 1 < snz s → ¬ wc_received c (snz s) →
  let c' := set_received (set_insert s (changes_received_ c)) c in
  (snz s <= snz (max_sequence_number_ c) → marks_received s c true c') ∧
  (snz (max_sequence_number_ c) < snz s → marks_received s c true (set_max s c')).
Proof.
  intros Hok Hs Hlow Hnr c'. destruct (set_insert_ok c s Hok Hs Hlow) as (Ho & Hk & Hab & Hrec). fold c' in Ho, Hk, Hab, Hrec.
  pose proof (wc_low_max c Hok).
  split; intros Hmax; (split_and!; try done; [|cbn; lia]); constructor; cbn; try done; try apply Hok; try lia;
    (eapply Forall_impl; [exact Hab|]; cbn; lia).
Qed.

Lemma marks_received_next s c :
  wc_ok c → sn_ok s → snz (changes_from_writer_low_mark_ c) + 1 = snz s →
  (snz s <= snz (max_sequence_number_ c) → marks_received s c true (cleanup (set_low_mark s c))) ∧
  (snz (max_sequence_number_ c) < snz s → marks_received s c true (set_max s (set_low_mark s c))).
Proof.
  intros Hok Hs E. pose proof (wc_low_succ_missing c Hok) as Hmiss. rewrite E in Hmiss.
  pose proof (wc_notified c Hok). pose proof (wc_above c Hok) as Hab. split; intros Hmax.
  - destruct (cleanup_spec (set_low_mark s c)) as (Hok' & Hrec & Em & El & Hle); cbn; try done; try lia; try apply Hok.
    { eapply Forall_impl; [exact Hab|]. cbn. lia. }
    split_and!; try done; [| rewrite Em; cbn; lia | cbn in Hle; lia].
    intros z. rewrite Hrec. unfold wc_received. cbn. rewrite <- E. split; [intros [|]|intros [[|]|]]; try tauto; lia.
  - assert (changes_received_ c = []) as Enil.
    { destruct (changes_received_ c); [done|]. apply Forall_cons_iff in Hab as [? _]. lia. }
    split_and!; try done; [| |cbn; lia|cbn; lia].
    + constructor; cbn; rewrite ?Enil; done || lia || apply ksorted_nil || apply Hok.
    + intros z. unfold wc_received. cbn. rewrite Enil, elem_of_nil. lia.
Qed.

Lemma received_change_set_spec s c :
  wc_ok c → sn_ok s → let '(r, c') := received_change_set s c in marks_received s c r c'.
Proof.
  intros Hok Hs. unfold received_change_set. low_succ c Hok.
  rewrite sn_leb_snz, sn_gtb_snz, !sn_eqb_snz, E1 by (done || apply sn_ok_wf; done || apply Hok).
  destruct (Z.leb_spec (snz s) (snz (changes_from_writer_low_mark_ c))) as [H1|H1].
  { apply marks_received_again; [done | by left]. }
  destruct (Z.gtb_spec (snz s) (snz (max_sequence_number_ c))) as [H2|H2].
  { destruct (Z.eqb_spec (snz s) (snz (changes_from_writer_low_mark_ c) + 1)) as [E|Hne].
    - by apply marks_received_next.
    - apply marks_received_insert; [done | done | lia | | done]. intros Hr%wc_received_le_max; [lia | done]. }
  destruct (Z.eqb_spec (snz (changes_from_writer_low_mark_ c) + 1) (snz s)) as [E|Hne].
  { by apply marks_received_next. }
  destruct (set_find s (changes_received_ c)) eqn:Ef.
  - apply marks_received_again; [done|]. right. apply set_find_spec; [apply Hok | apply Hok | done | done].
  - apply marks_received_insert; [done | done | lia | | done]. intros [|Hin]; [lia|].
    apply eq_true_false_abs in Ef; [done|]. by apply set_find_spec; try apply Hok.
Qed.

(** ** Counting missing numbers *)

(** How many numbers of [a, b) are not in [l]. *)
Definition missing_count (l : list SequenceNumber_t) (a b : Z) : Z :=
  Z.of_nat (length (List.filter (λ z, bool_decide (z ∉ snz <$> l)) (seqZ a (b - a)))).

Lemma missing_count_empty l a b : b <= a → missing_count l a b = 0.
Proof. intros H. unfold missing_count. by rewrite seqZ_nil by lia. Qed.

Lemma missing_count_split l a m b :
  a <= m <= b → missing_count l a b = missing_count l a m + missing_count l m b.
Proof.
  intros H. unfold missing_count. replace (b - a) with ((m - a) + (b - m)) by lia.
  rewrite seqZ_app by lia. replace (a + (m - a)) with m by lia.
  rewrite List.filter_app, length_app. lia.
Qed.

Lemma missing_count_ext l l' a b :
  (∀ z, a <= z < b → z ∈ snz <$> l ↔ z ∈ snz <$> l') → missing_count l a b = missing_count l' a b.
Proof.
  intros H. unfold missing_count. do 2 f_equal. apply List.filter_ext_in. intros z Hz.
  apply list_elem_of_In, elem_of_seqZ in Hz. apply bool_decide_ext. rewrite H by lia. done.
Qed.

Lemma missing_count_none l a b :
  a <= b → (∀ z, a <= z < b → z ∉ snz <$> l) → missing_count l a b = b - a.
Proof.
  intros Hle H. rewrite (missing_count_ext l []) by (intros z Hz; split; [by intros ?%H | by intros ?%elem_of_nil]).
  unfold missing_count. rewrite (List.filter_ext_in _ (λ _, true)).
  - rewrite List.filter_true, length_seqZ. lia.
  - intros z _. apply bool_decide_eq_true. apply not_elem_of_nil.
Qed.

Lemma missing_count_hit l s : s ∈ l → missing_count l (snz s) (snz s + 1) = 0.
Proof.
  intros Hs. unfold missing_count. rewrite seqZ_cons, (seqZ_nil _ (Z.pred _)) by lia.
  cbn [List.filter]. rewrite bool_decide_eq_false_2; [done|]. intros Hn. apply Hn. apply list_elem_of_fmap. eauto.
Qed.

Lemma missing_count_pos l a b : 0 <= missing_count l a b.
Proof. unfold missing_count. lia. Qed.

(** Below the first element of a sorted list nothing is present. *)
Lemma sorted_gap s l a z :
  ksorted snz (s :: l) → a <= z < snz s → z ∉ snz <$> s :: l.
Proof.
  rewrite ksorted_cons, Forall_forall. intros [_ Hl] Hz. rewrite fmap_cons, elem_of_cons, list_elem_of_fmap.
  intros [->|(y & -> & Hy)]; [lia|]. specialize (Hl y Hy). cbn in Hl. lia.
Qed.

Lemma missing_count_cons s l a b :
  ksorted snz (s :: l) → a <= snz s < b →
  missing_count (s :: l) a b = (snz s - a) + missing_count l (snz s + 1) b.
Proof.
  intros Hs H. rewrite (missing_count_split _ a (snz s) b) by lia.
  rewrite (missing_count_split _ (snz s) (snz s + 1) b) by lia.
  rewrite missing_count_hit by (by apply elem_of_cons; left).
  rewrite missing_count_none by (lia || intros z Hz; by eapply sorted_gap).
  rewrite (missing_count_ext _ l (snz s + 1)); [lia|].
  intros z Hz. rewrite fmap_cons, elem_of_cons. split; [intros [->|]; [lia | done] | by right].
Qed.

(** The numbers below a bound that are present are the leading elements. *)
Lemma missing_count_drop l a b n :
  ksorted snz l → Forall (λ s, a <= snz s) l → a <= b →
  Forall (λ s, snz s < b) (take n l) → Forall (λ s, b <= snz s) (drop n l) → (n <= length l)%nat →
  missing_count l a b = b - a - Z.of_nat n.
Proof.
  revert l a. induction n as [|n IH]; intros l a Hs Ha Hab Ht Hd Hn.
  - rewrite missing_count_none; [lia | done |]. intros z Hz Hin.
    apply list_elem_of_fmap in Hin as (y & -> & Hy). rewrite drop_0, Forall_forall in Hd.
    specialize (Hd y Hy). cbn in Hd. lia.
  - destruct l as [|s l]; [cbn in Hn; lia|]. cbn in Ht, Hd, Hn. apply Forall_cons_iff in Ht as [Hsb Ht].
    pose proof Hs as [Hs' Hgt]%ksorted_cons. apply Forall_cons_iff in Ha as [Has _].
    rewrite missing_count_cons by (done || lia). rewrite IH; [lia | done | | lia | done | done | lia].
    eapply Forall_impl; [exact Hgt|]. cbn. lia.
Qed.

Lemma clamp_int32_spec n : 0 <= n → clamp_int32 n = Z.min n (2 ^ 31 - 1).
Proof.
  intros H. unfold clamp_int32. destruct (Z.gtb_spec n (2 ^ 31 - 1)); [lia|]. rewrite i32_small by zwidth. lia.
Qed.

(** The 64-bit arithmetic of the lost samples, whose intermediate results may wrap around. *)
Lemma u64_add_sub a b c : u64 (u64 a + u64 (u64 b - c)) = u64 (a + b - c).
Proof.
  unfold u64. rewrite Zminus_mod_idemp_l, <- Zplus_mod. f_equal. lia.
Qed.

Lemma lost_count_spec s c :
  wc_ok c → sn_ok s → snz (changes_from_writer_low_mark_ c) + 1 < snz s →
  let low_mark := changes_from_writer_low_mark_ c in
  let it := set_lower_bound s (changes_received_ c) in
  match changes_received_ c with
  | first :: _ =>
      clamp_int32 (u64 (u64 (to64long first - u64 (to64long low_mark + 1))
                        + u64 (u64 (to64long s - to64long first) - Z.of_nat it)))
  | [] => clamp_int32 (u64 (to64long s - u64 (to64long low_mark + 1)))
  end = Z.min (missing_count (changes_received_ c) (snz low_mark + 1) (snz s)) (2 ^ 31 - 1).
Proof.
  intros Hok Hs Hlt low_mark it.
  pose proof (wc_elems_ok c Hok) as He. pose proof (wc_sorted c Hok) as Hk. pose proof (wc_above c Hok) as Hab.
  destruct (lower_bound_split snz (λ y, (y <? s)%sn) (snz s) (changes_received_ c)) as [Ht Hd];
    [done | by apply set_comp |].
  pose proof (lower_bound_length (λ y, (y <? s)%sn) (changes_received_ c)) as Hlen.
  pose proof (missing_count_drop (changes_received_ c) (snz low_mark + 1) (snz s) it Hk) as Hcount.
  pose proof (sn_ok_range _ (wc_low_ok c Hok)) as Hrl. pose proof (sn_ok_range _ Hs) as Hrs.
  fold low_mark in Hrl, Hab, Hlt. rewrite Hcount;
    [| eapply Forall_impl; [exact Hab|]; cbn; lia | lia | done | done | done].
  assert (0 <= snz s - (snz low_mark + 1) - Z.of_nat it) as Hpos.
  { rewrite <- Hcount; [apply missing_count_pos | | lia | done | done | done].
    eapply Forall_impl; [exact Hab|]. cbn. lia. }
  rewrite !(to64long_snz low_mark), !(to64long_snz s) by (lia || apply sn_ok_wf; done || apply Hok).
  rewrite (u64_small (snz low_mark + 1)) by zwidth.
  destruct (changes_received_ c) as [|f l] eqn:El.
  - rewrite clamp_int32_spec by (apply Z.mod_pos_bound; lia). rewrite u64_small by zwidth. cbn in it. subst it. cbn. f_equal; lia.
  - apply Forall_cons_iff in He as [Hf _]. pose proof (sn_ok_range _ Hf).
    rewrite (to64long_snz f) by (lia || by apply sn_ok_wf). rewrite u64_add_sub.
    rewrite u64_small by zwidth. rewrite clamp_int32_spec by lia. f_equal; lia.
Qed.

Lemma lost_changes_update_spec s c :
  wc_ok c → sn_ok s →
  let '(n, c') := lost_changes_update s c in
  wc_ok c' ∧ (∀ z, wc_received c' z ↔ wc_received c z ∨ z < snz s) ∧
  n = Z.min (missing_count (changes_received_ c) (snz (changes_from_writer_low_mark_ c) + 1) (snz s)) (2 ^ 31 - 1) ∧
  snz (max_sequence_number_ c') = Z.max (snz (max_sequence_number_ c)) (snz s - 1) ∧
  last_notified_ c' = last_notified_ c ∧
  snz (changes_from_writer_low_mark_ c) <= snz (changes_from_writer_low_mark_ c').
Proof.
  intros Hok Hs. unfold lost_changes_update. low_succ c Hok. pose proof (wc_low_max c Hok) as Hlm.
  rewrite sn_gtb_snz, E1 by (done || by apply sn_ok_wf).
  destruct (Z.gtb_spec (snz s) (snz (changes_from_writer_low_mark_ c) + 1)) as [Hlt|Hge].
  2: { rewrite missing_count_empty by lia. split_and!; try done; try lia.
       intros z. split; [tauto|]. intros [|]; [done|]. left. lia. }
  pose proof (lost_count_spec s c Hok Hs Hlt) as Hcount. cbn zeta in Hcount. rewrite Hcount. clear Hcount.
  set (it := set_lower_bound s (changes_received_ c)).
  pose proof (sn_ok_range _ Hs) as Hrs. pose proof (sn_ok_range _ (wc_low_ok c Hok)) as Hrl.
  destruct (sn_ok_sub s 1 Hs ltac:(zwidth) ltac:(lia)) as [Hok1 Es1].
  cbn [changes_from_writer_low_mark_ set_low_mark max_sequence_number_ set_received].
  rewrite sn_gtb_snz, Es1 by (apply sn_ok_wf; done || apply Hok).
  destruct (lower_bound_split snz (λ y, (y <? s)%sn) (snz s) (changes_received_ c)) as [Ht Hd];
    [apply Hok | apply set_comp; [apply Hok | done] |].
  fold (set_lower_bound s (changes_received_ c)) in Ht, Hd. fold it in Ht, Hd.
  set (c1 := set_low_mark (s - 1)%sn (set_received (drop it (changes_received_ c)) c)).
  set (c2 := if snz s - 1 >? snz (max_sequence_number_ c) then set_max (s - 1)%sn c1 else c1).
  assert (changes_received_ c2 = drop it (changes_received_ c) ∧ changes_from_writer_low_mark_ c2 = (s - 1)%sn ∧
          last_notified_ c2 = last_notified_ c ∧ sn_ok (max_sequence_number_ c2) ∧
          snz (max_sequence_number_ c2) = Z.max (snz (max_sequence_number_ c)) (snz s - 1)) as (Er & El & En & Hm & Em).
  { subst c2. destruct (Z.gtb_spec (snz s - 1) (snz (max_sequence_number_ c))); cbn;
      (split_and!; [done | done | done | done || apply Hok | lia]). }
  pose proof (wc_notified c Hok). pose proof (wc_above c Hok) as Hab. pose proof (wc_elems_ok c Hok) as He.
  destruct (cleanup_spec c2) as (Hok' & Hrec & Em' & El' & Hle); rewrite ?Er, ?El, ?En, ?Em, ?Es1; try done; try lia.
  - apply Hok.
  - by apply Forall_drop.
  - by apply lower_bound_drop_sorted, Hok.
  - rewrite Forall_forall in Hd, Hab |- *. intros x Hx. specialize (Hd x Hx).
    specialize (Hab x ltac:(by eapply subseteq_drop)). cbn in Hab, Hd. lia.
  - rewrite El', En, Em', Em. rewrite El, Es1 in Hle. split_and!; [done | | done | done | done | lia].
    intros z. rewrite Hrec. unfold wc_received. rewrite El, Er, Es1.
    rewrite <- (take_drop it (changes_received_ c)) at 2. rewrite fmap_app, elem_of_app.
    assert (z ∈ snz <$> take it (changes_received_ c) → z < snz s) as Hz.
    { intros (y & -> & Hy)%list_elem_of_fmap. rewrite Forall_forall in Ht. by apply Ht. }
    split; [intros [|]; [right; lia | tauto]|]. intros [[|[|]]|]; [left; lia | left; apply Hz in H0; lia | tauto | left; lia].
Qed.

(** ** The two scans over the received numbers *)

(** Numbers the scans compute with: at most one past a number in use. *)
Definition sn_next (s : SequenceNumber_t) : Prop := sn_wf s ∧ 0 <= snz s < 2 ^ 63 - 2.

Lemma sn_ok_next s : sn_ok s → sn_next s.
Proof. intros H. split; [by apply sn_ok_wf|]. apply sn_ok_range in H. zwidth. Qed.

Lemma sn_next_succ s : sn_next s → sn_wf (s + 1)%sn ∧ snz (s + 1)%sn = snz s + 1.
Proof. intros [Hw Hr]. apply sn_add_u32_snz; zwidth || done. Qed.

Lemma sn_ok_succ_next s : sn_ok s → sn_next (s + 1)%sn ∧ snz (s + 1)%sn = snz s + 1.
Proof.
  intros H. destruct (sn_next_succ s (sn_ok_next s H)) as [Hw E]. apply sn_ok_range in H.
  split; [|done]. split; [done|]. zwidth.
Qed.

Lemma sn_min_next a b : sn_next a → sn_next b → sn_next (sn_min a b) ∧ snz (sn_min a b) = Z.min (snz a) (snz b).
Proof.
  intros Ha Hb. rewrite sn_min_snz by (apply Ha || apply Hb). split; [|done].
  unfold sn_min. zif; done.
Qed.

Lemma u32_add_l a b : u32 (u32 a + b) = u32 (a + b).
Proof. unfold u32. by rewrite Zplus_mod_idemp_l. Qed.

Lemma u32_add_r a b : u32 (a + u32 b) = u32 (a + b).
Proof. unfold u32. by rewrite Zplus_mod_idemp_r. Qed.

Lemma unknown_loop_spec l : ∀ first seq n,
  sn_next first → sn_next seq → is_u32 n → snz first <= snz seq →
  Forall sn_ok l → ksorted snz l → Forall (λ s, snz first <= snz s) l →
  let '(first', n') := unknown_loop l first seq n in
  (if (first' <? seq)%sn then u32 (n' + SequenceNumberDiff seq first') else n') =
  u32 (n + missing_count l (snz first) (snz seq)).
Proof.
  induction l as [|s l IH]; intros first seq n Hf Hq Hn Hle Hok Hs Hab; cbn [unknown_loop].
  { rewrite sn_ltb_snz by (apply Hf || apply Hq). rewrite missing_count_none by (done || intros; apply not_elem_of_nil).
    destruct (Z.ltb_spec (snz first) (snz seq)).
    - destruct Hf, Hq. rewrite SequenceNumberDiff_snz by (done || lia). apply u32_add_r.
    - replace (n + _) with n by lia. by rewrite u32_small. }
  pose proof Hs as [Hs' Hgt]%ksorted_cons. apply Forall_cons_iff in Hok as [Hsok Hok].
  apply Forall_cons_iff in Hab as [Hfs _].
  destruct (sn_min_next s seq (sn_ok_next s Hsok) Hq) as [Hm Em]. set (m := sn_min s seq) in *.
  destruct (sn_next_succ m Hm) as [Hw1 E1].
  rewrite !sn_ltb_snz, sn_geb_snz, E1 by (done || apply Hf || apply Hq || apply Hm).
  set (n1 := if snz first <? snz m then _ else n).
  assert (is_u32 n1 ∧ n1 = u32 (n + (snz m - snz first))) as [Hn1 En1].
  { subst n1. destruct (Z.ltb_spec (snz first) (snz m)).
    - destruct Hf, Hm. rewrite SequenceNumberDiff_snz by (done || lia). rewrite u32_add_r. split; [apply u32_range | done].
    - replace (n + _) with n by lia. split; [done | by rewrite u32_small]. }
  destruct (Z.geb_spec (snz m + 1) (snz seq)) as [Hstop|Hgo].
  - rewrite sn_ltb_snz, E1 by (done || apply Hq). destruct (Z.ltb_spec (snz m + 1) (snz seq)); [lia|].
    rewrite En1. f_equal. f_equal. destruct (Z.ltb_spec (snz s) (snz seq)).
    + rewrite missing_count_cons by (done || lia). rewrite missing_count_empty by lia. lia.
    + rewrite missing_count_none; [lia | lia |]. intros z Hz. apply sorted_gap with (snz first); [done | lia].
  - assert (sn_next (m + 1)%sn) as Hm1 by (split; [done|]; destruct Hq, Hm; lia).
    specialize (IH (m + 1)%sn seq n1 Hm1 Hq Hn1 ltac:(lia) Hok Hs').
    destruct (unknown_loop l (m + 1)%sn seq n1) as [first' n']. rewrite IH.
    + rewrite En1, u32_add_l, E1. f_equal. rewrite missing_count_cons by (done || lia).
      replace (snz m) with (snz s) by lia. lia.
    + rewrite E1. eapply Forall_impl; [exact Hgt|]. cbn. lia.
Qed.

Lemma unknown_missing_spec seq c :
  wc_ok c → sn_ok seq →
  unknown_missing_changes_up_to seq c =
  u32 (missing_count (changes_received_ c) (snz (changes_from_writer_low_mark_ c) + 1) (snz seq)).
Proof.
  intros Hok Hs. unfold unknown_missing_changes_up_to.
  destruct (sn_ok_succ_next _ (wc_low_ok c Hok)) as [Hf E1].
  rewrite sn_gtb_snz by (apply sn_ok_wf; done || apply Hok).
  destruct (Z.gtb_spec (snz seq) (snz (changes_from_writer_low_mark_ c))) as [Hgt|Hle];
    [|by rewrite missing_count_empty by lia].
  pose proof (unknown_loop_spec (changes_received_ c) (changes_from_writer_low_mark_ c + 1)%sn seq 0) as H.
  destruct (unknown_loop _ _ _ _) as [first' n']. rewrite H, E1; [done | done | by apply sn_ok_next | zwidth | lia | apply Hok | apply Hok |].
  rewrite E1. pose proof (wc_above c Hok) as Hab. eapply Forall_impl; [exact Hab|]. cbn. lia.
Qed.

Lemma missing_loop_spec l : ∀ first maxm (sns : SequenceNumberSet_t),
  sn_next first → sn_next maxm → bm_ok sns → snz (base_ sns) <= snz first <= snz maxm →
  snz maxm <= snz (base_ sns) + 256 →
  Forall sn_ok l → ksorted snz l → Forall (λ s, snz first <= snz s) l →
  let '(first', sns') := missing_loop l first maxm sns in
  let r := if (first' <? maxm)%sn then bm_add_range sns' first' maxm else sns' in
  bm_ok r ∧ base_ r = base_ sns ∧ range_max_ r = range_max_ sns ∧
  ∀ z, bm_bits r z = true ↔ bm_bits sns z = true ∨ (snz first <= z < snz maxm ∧ z ∉ snz <$> l).
Proof.
  induction l as [|s l IH]; intros first maxm sns [Hfw Hfr] [Hmw Hmr] Hbm Hb Hroom Hok Hs Hab; cbn [missing_loop].
  { rewrite sn_ltb_snz by done. destruct (Z.ltb_spec (snz first) (snz maxm)) as [Hlt|Hge].
    - destruct (bm_add_range_spec sns first maxm) as (Hok' & Eb & Er & Hbits); [done | split; [done|lia] | split; [done|lia] |].
      split_and!; [done..|]. intros z. rewrite Hbits, orb_true_iff. cbn [item_val SequenceNumber_laws].
      split.
      + intros [|Hz]; [by left|]. right. split; [lia | apply not_elem_of_nil].
      + intros [|[Hz _]]; [by left|]. right. lia.
    - split_and!; try done. intros z. split; [by left|]. intros [|[]]; [done | lia]. }
  pose proof Hs as [Hs' Hgt]%ksorted_cons. apply Forall_cons_iff in Hok as [Hsok Hok].
  apply Forall_cons_iff in Hab as [Hfs _].
  destruct (sn_min_next s maxm (sn_ok_next s Hsok) (conj Hmw Hmr)) as [Hm Em]. set (m := sn_min s maxm) in *.
  destruct (sn_next_succ m Hm) as [Hw1 E1]. destruct Hm as [Hmw' Hmr'].
  destruct (bm_add_range_spec sns first m) as (Hok' & Eb & Er & Hbits); [done | split; [done|lia] | split; [done|lia] |].
  cbn [item_val SequenceNumber_laws] in Hbits.
  assert (∀ z, snz first <= z < snz maxm ∧ z ∉ snz <$> s :: l ↔
    (snz first <= z < snz m) ∨ (snz m + 1 <= z < snz maxm ∧ z ∉ snz <$> l)) as Hsplit.
  { intros z. rewrite fmap_cons, not_elem_of_cons. split.
    - intros [Hz [Hne Hnl]]. destruct (Z.ltb_spec z (snz m)); [by left; lia|]. right. split; [lia | done].
    - intros [Hz|[Hz Hnl]]; [|split; [lia|]; split; [lia | done]]. split; [lia|]. apply not_elem_of_cons.
      rewrite <- fmap_cons. apply sorted_gap with (snz first); [done | lia]. }
  rewrite sn_geb_snz, E1 by done. destruct (Z.geb_spec (snz m + 1) (snz maxm)) as [Hstop|Hgo].
  - rewrite sn_ltb_snz, E1 by done. destruct (Z.ltb_spec (snz m + 1) (snz maxm)); [lia|].
    split_and!; [done..|]. intros z. rewrite Hbits, Hsplit, orb_true_iff.
    split; [intros [|Hz] | intros [|[Hz|[Hz _]]]]; try (by left); right; [left|..]; lia.
  - specialize (IH (m + 1)%sn maxm (bm_add_range sns first m)).
    destruct (missing_loop l (m + 1)%sn maxm _) as [first' sns']. rewrite Eb, Er, E1 in IH.
    destruct IH as (HokR & EbR & ErR & HbR);
      [split; [done|]; lia | done | done | lia | lia | done | done | eapply Forall_impl; [exact Hgt|]; cbn; lia |].
    split_and!; [done | congruence | congruence |]. intros z. rewrite HbR, Hbits, Hsplit, orb_true_iff.
    split; [intros [[|]|] | intros [|[|]]]; try tauto; [right; left | left; right]; lia.
Qed.

Lemma missing_changes_spec c :
  wc_ok c →
  bm_ok (missing_changes c) ∧ base_ (missing_changes c) = (changes_from_writer_low_mark_ c + 1)%sn ∧
  snz (range_max_ (missing_changes c)) = snz (changes_from_writer_low_mark_ c) + 256 ∧
  ∀ z, bm_bits (missing_changes c) z = true ↔
    ¬ wc_received c z ∧ z <= snz (max_sequence_number_ c) ∧ z <= snz (changes_from_writer_low_mark_ c) + 256.
Proof.
  intros Hok. unfold missing_changes, wc_received. set (low := changes_from_writer_low_mark_ c).
  destruct (sn_ok_succ_next low (wc_low_ok c Hok)) as [Hf Ef].
  destruct (sn_ok_succ_next _ (wc_max_ok c Hok)) as [Hm Em]. pose proof (wc_low_max c Hok) as Hlm. fold low in Hlm.
  pose proof (sn_ok_range _ (wc_low_ok c Hok)) as Hrl. fold low in Hrl.
  destruct (sn_add_u32_snz (low + 1)%sn 256) as [Hw256 E256]; [apply Hf | zwidth | zwidth |].
  destruct (sn_add_u32_snz (low + 1)%sn 255) as [_ E255]; [apply Hf | zwidth | zwidth |].
  destruct (sn_min_next (low + 1 + 256)%sn (max_sequence_number_ c + 1)%sn) as [Hn En]; [split; [done | zwidth] | done |].
  set (maxm := sn_min _ _) in *.
  assert (bm_ok (bm_make (low + 1)%sn)) as Hmk.
  { apply bm_make_ok; cbn [item_wf item_val item_bound SequenceNumber_laws]; [split; [apply Hf|]; lia | zwidth]. }
  pose proof (missing_loop_spec (changes_received_ c) (low + 1)%sn maxm (bm_make (low + 1)%sn) Hf Hn Hmk) as H.
  destruct (missing_loop _ _ _ _) as [first' sns']. cbn [base_ bm_make bm_make_max] in H.
  destruct H as (Hbm & Eb & Er & Hbits); [lia | lia | apply Hok | apply Hok | |].
  { pose proof (wc_above c Hok) as Ha. eapply Forall_impl; [exact Ha|]. cbn. fold low. lia. }
  set (r := if (first' <? maxm)%sn then _ else _) in *. split_and!; [done | done | |].
  - rewrite Er. change (range_max_ (bm_make (low + 1)%sn)) with (low + 1 + 255)%sn. lia.
  - intros z. rewrite Hbits, bm_bits_make. split.
    + intros [|[Hz Hnl]]; [done|]. split_and!; [intros [|]; [lia | done] | lia | lia].
    + intros (Hnr & ? & ?). right. split; [|by intros ?; apply Hnr; right].
      destruct (Z.ltb_spec (snz low) z); [lia | exfalso; apply Hnr; left; lia].
Qed.

Lemma missing_changes_empty c : wc_ok c → bm_empty (missing_changes c) = negb (are_there_missing_changes c).
Proof.
  intros Hok. destruct (missing_changes_spec c Hok) as (Hbm & Eb & Er & Hb).
  unfold are_there_missing_changes. rewrite sn_ltb_snz by (apply sn_ok_wf, Hok).
  apply eq_true_iff_eq. rewrite bm_empty_spec by done. split.
  - intros Hall. specialize (Hall (snz (changes_from_writer_low_mark_ c) + 1)).
    rewrite <- not_true_iff_false, Hb in Hall.
    destruct (Z.ltb_spec (snz (changes_from_writer_low_mark_ c)) (snz (max_sequence_number_ c))); [|done].
    exfalso. apply Hall. split_and!; [by apply wc_low_succ_missing | lia | lia].
  - intros Hlt z. apply not_true_iff_false. rewrite Hb. intros (Hn & Hz & _). apply Hn. left. lia.
Qed.
