(* ===== verification/WriterProxyTheorems.v ===== *)
(** * Properties of the writer proxy

    The life cycle of a proxy as a step relation with its invariant, and what
    each operation means for the set of sequence numbers received. *)

From Stdlib Require Import ZArith Lia ZifyBool.
From stdpp Require Import base numbers list option list_numbers.
From S2P Require Import Prelude SequenceNumber BitmapRange BitmapFacts SortedRange Guid TimedEvent.
From S2P Require Import WriterProxy WriterProxyFacts.

Open Scope Z_scope.

(** ** Life cycle *)

(** A proxy that is not stopped is alive and has the writer's GUID as its only destination; a
    stopped one has forgotten everything about the writer, its heartbeat timer is inactive and
    its initial ACKNACK timer is not armed by its owner. *)
Record wp_ok (w : WriterProxy) : Prop := {
  wp_changes_ok : wc_ok (wp_changes w);
  wp_alive : is_alive_ w = bool_decide (wp_state_ w ≠ STOPPED);
  wp_guids : guid_as_vector_ w = (if decide (wp_state_ w = STOPPED) then [] else [wp_guid w]);
  wp_prefixes : guid_prefix_as_vector_ w =
    (if decide (wp_state_ w = STOPPED) then [] else [guidPrefix (wp_guid w)]);
  wp_stopped : wp_state_ w = STOPPED →
    changes_received_ (wp_changes w) = [] ∧ available_changes_max (wp_changes w) = sn_zero ∧
    wp_guid w = c_Guid_Unknown ∧ last_heartbeat_count_ w = 0 ∧
    te_state (heartbeat_response_ w) = INACTIVE ∧ te_state (initial_acknack_ w) ≠ READY
}.

(** The event thread moves one of the two timers. Only the callback of the initial ACKNACK asks for
    a restart; the restart is allowed at any time here, also after [stop]. *)
Inductive wp_event : WriterProxy → WriterProxy → Prop :=
| wp_event_heartbeat w hb :
    te_thread false (heartbeat_response_ w) hb → wp_event w (wp_set_timers hb (initial_acknack_ w) w)
| wp_event_acknack w ack :
    te_thread true (initial_acknack_ w) ack → wp_event w (wp_set_timers (heartbeat_response_ w) ack w).

(** One call on a proxy. The reader marks and asks for changes of running proxies only and
    starts stopped ones; the callbacks of the timers are split at the points where another
    thread may call [stop], and the event thread moves the timers in between. *)
Inductive wp_step : WriterProxy → WriterProxy → Prop :=
| wp_step_start w attributes s ds :
    wp_state_ w = STOPPED → sn_ok s → wp_step w (fst (wp_start attributes s ds w))
| wp_step_update w attributes : wp_step w (wp_update attributes w)
| wp_step_stop w : wp_step w (fst (wp_stop w))
| wp_step_received w s :
    wp_state_ w ≠ STOPPED → sn_ok s → wp_step w (wp_set_changes (snd (received_change_set s (wp_changes w))) w)
| wp_step_irrelevant w s :
    wp_state_ w ≠ STOPPED → sn_ok s → wp_step w (wp_set_changes (snd (irrelevant_change_set s (wp_changes w))) w)
| wp_step_lost w s :
    wp_state_ w ≠ STOPPED → sn_ok s → wp_step w (wp_set_changes (snd (lost_changes_update s (wp_changes w))) w)
| wp_step_missing w s :
    wp_state_ w ≠ STOPPED → sn_ok s → wp_step w (wp_set_changes (missing_changes_update s (wp_changes w)) w)
| wp_step_notify w :
    wp_state_ w ≠ STOPPED → wp_step w (wp_set_changes (snd (next_cache_change_to_be_notified (wp_changes w))) w)
| wp_step_heartbeat w count first last final live positive lost :
    sn_ok first → sn_ok last →
    wp_step w (snd (fst (process_heartbeat count first last final live positive lost w)))
| wp_step_enter w w' : wp_enter w = Some w' → wp_step w w'
| wp_step_acknack_body w : wp_step w (snd (fst (initial_ack_nack_body w)))
| wp_step_leave w : wp_step w (wp_leave w)
| wp_step_event w w' : wp_event w w' → wp_step w w'
| wp_step_interval w d :
    wp_step w (update_heartbeat_response_interval d w).

Inductive wp_reachable : WriterProxy → Prop :=
| wp_reach_make reader now : wp_reachable (fst (wp_make reader now))
| wp_reach_step w w' : wp_reachable w → wp_step w w' → wp_reachable w'.

Lemma wp_make_ok reader now : wp_ok (fst (wp_make reader now)).
Proof.
  constructor; cbn; try done. apply (loaded_from_storage_ok sn_zero); [apply sn_ok_zero | done].
Qed.

Lemma wp_set_changes_ok w c : wp_ok w → wp_state_ w ≠ STOPPED → wc_ok c → wp_ok (wp_set_changes c w).
Proof. intros [] Hrun Hc. by constructor. Qed.

Lemma wp_start_ok w attributes s ds :
  wp_ok w → wp_state_ w = STOPPED → sn_ok s → wp_ok (fst (wp_start attributes s ds w)).
Proof.
  intros Hok E Hs. unfold wp_start. destruct (te_restart_timer _) as [ack calls]. cbn [fst].
  destruct (wp_stopped w Hok E) as (Enil & _). pose proof (wp_guids w Hok) as Eg. pose proof (wp_prefixes w Hok) as Ep.
  rewrite decide_True in Eg by done. rewrite decide_True in Ep by done. constructor; cbn; try done.
  - by apply loaded_from_storage_ok.
  - by rewrite Eg.
  - by rewrite Ep.
Qed.

Lemma wp_stop_ok w : wp_ok w → wp_ok (fst (wp_stop w)).
Proof.
  intros Hok. unfold wp_stop, te_recreate_timer, te_cancel_timer, te_go_cancel.
  destruct (decide (wp_state_ w = BUSY)); (constructor; cbn; try done);
    (apply (loaded_from_storage_ok sn_zero); [apply sn_ok_zero | done]).
Qed.

Lemma wp_set_timers_ok w hb ack : wp_ok w → wp_state_ w ≠ STOPPED → wp_ok (wp_set_timers hb ack w).
Proof. intros [] Hrun. by constructor. Qed.

Lemma wp_event_ok w w' : wp_ok w → wp_event w w' → wp_ok w'.
Proof.
  intros Hok Ht. destruct Ht as [w t Ht|w t Ht]; destruct Hok as [? ? ? ? Hst]; constructor; try done; cbn;
    intros E; destruct (Hst E) as (? & ? & ? & ? & Hhb & Hack); split_and!; try done.
  - by apply te_thread_inactive in Ht.
  - by eapply te_thread_not_ready.
Qed.

Lemma wp_body_ok w : wp_ok w → wp_ok (snd (fst (initial_ack_nack_body w))).
Proof.
  intros Hok. unfold initial_ack_nack_body. zif; cbn; try done. destruct Hok as [? ? ? ? Hst]. by constructor.
Qed.

Lemma wp_set_state_ok w s : wp_ok w → wp_state_ w ≠ STOPPED → s ≠ STOPPED → wp_ok (wp_set_state s w).
Proof.
  intros [? ? ? ? ?] Hrun Hs. constructor; cbn; try done.
  - rewrite wp_alive0, !bool_decide_eq_true_2 by done. done.
  - rewrite wp_guids0, !decide_False by done. done.
  - rewrite wp_prefixes0, !decide_False by done. done.
Qed.

Lemma next_notified_spec c :
  wc_ok c →
  let '(n, c') := next_cache_change_to_be_notified c in
  wc_ok c' ∧ (∀ z, wc_received c' z ↔ wc_received c z) ∧
  available_changes_max c' = available_changes_max c ∧
  if snz (last_notified_ c) <? snz (available_changes_max c)
  then n = last_notified_ c' ∧ snz n = snz (last_notified_ c) + 1 else n = sn_unknown ∧ c' = c.
Proof.
  intros Hok. unfold next_cache_change_to_be_notified, available_changes_max.
  rewrite sn_ltb_snz by (apply sn_ok_wf, Hok). pose proof (sn_ok_range _ (wc_low_ok c Hok)) as Hr.
  destruct (Z.ltb_spec (snz (last_notified_ c)) (snz (changes_from_writer_low_mark_ c))) as [Hlt|Hge]; [|done].
  destruct (sn_ok_add (last_notified_ c) 1 (wc_last_ok c Hok) ltac:(zwidth)) as [Hw E].
  rewrite sn_incr_add_u32 by apply (wc_last_ok c Hok). pose proof (sn_ok_range _ (wc_last_ok c Hok)).
  split_and!; [|done..]. constructor; cbn; try apply Hok; [apply sn_ok_iff; [done | zwidth] | lia].
Qed.

Lemma process_heartbeat_changes count first last final live positive lost w :
  wp_changes (snd (fst (process_heartbeat count first last final live positive lost w))) =
  if bool_decide (wp_state_ w ≠ STOPPED) && (last_heartbeat_count_ w <? count)
  then missing_changes_update last (snd (lost_changes_update first (wp_changes w))) else wp_changes w.
Proof.
  unfold process_heartbeat. destruct (bool_decide _ && _); [|done].
  destruct (lost_changes_update first (wp_changes w)) as [n c1]. unfold wp_restart_heartbeat_response.
  destruct (te_restart_timer _) as [hb calls]. zif; done.
Qed.

Lemma heartbeat_ok count first last final live positive lost w :
  wp_ok w → sn_ok first → sn_ok last →
  wp_ok (snd (fst (process_heartbeat count first last final live positive lost w))).
Proof.
  intros Hok Hf Hl.
  pose proof (process_heartbeat_changes count first last final live positive lost w) as Ec.
  destruct (bool_decide (wp_state_ w ≠ STOPPED) && (last_heartbeat_count_ w <? count)) eqn:Eg.
  2: { unfold process_heartbeat. by rewrite Eg. }
  pose proof Eg as [Hrun _]%andb_prop. apply bool_decide_eq_true in Hrun.
  assert (wc_ok (missing_changes_update last (snd (lost_changes_update first (wp_changes w))))) as Hc.
  { pose proof (lost_changes_update_spec first (wp_changes w) (wp_changes_ok w Hok) Hf) as H.
    destruct (lost_changes_update first (wp_changes w)) as [n c1]. destruct H as [Hok1 _].
    by apply missing_changes_update_spec. }
  rewrite <- Ec in Hc. clear Ec. revert Hc. unfold process_heartbeat. rewrite Eg.
  destruct (lost_changes_update first (wp_changes w)) as [n c1]. unfold wp_restart_heartbeat_response.
  destruct (te_restart_timer _) as [hb calls]. destruct Hok.
  zif; cbn; intros Hc; (constructor; cbn; done).
Qed.

Lemma wp_step_ok w w' : wp_ok w → wp_step w w' → wp_ok w'.
Proof.
  intros Hok Hs. pose proof (wp_changes_ok w Hok) as Hc.
  destruct Hs as [w a s ds E Hs|w a|w|w s Hrun Hs|w s Hrun Hs|w s Hrun Hs|w s Hrun Hs|w Hrun|w count f l fi li po lo Hf Hl|w w' E|w|w|w w' He|w d].
  - by apply wp_start_ok.
  - destruct Hok. by constructor.
  - by apply wp_stop_ok.
  - apply wp_set_changes_ok; [done..|]. pose proof (received_change_set_spec s _ Hc Hs) as H.
    destruct (received_change_set _ _). apply H.
  - apply wp_set_changes_ok; [done..|]. pose proof (received_change_set_spec s _ Hc Hs) as H.
    unfold irrelevant_change_set. destruct (received_change_set _ _). apply H.
  - apply wp_set_changes_ok; [done..|]. pose proof (lost_changes_update_spec s _ Hc Hs) as H.
    destruct (lost_changes_update _ _). apply H.
  - apply wp_set_changes_ok; [done..|]. by apply missing_changes_update_spec.
  - apply wp_set_changes_ok; [done..|]. pose proof (next_notified_spec _ Hc) as H.
    destruct (next_cache_change_to_be_notified _). apply H.
  - by apply heartbeat_ok.
  - unfold wp_enter in E. destruct (decide _) as [Ei|]; [|done]. injection E as <-. apply wp_set_state_ok; congruence.
  - by apply wp_body_ok.
  - unfold wp_leave. destruct (decide _) as [Eb|]; [|done]. apply wp_set_state_ok; congruence.
  - by eapply wp_event_ok.
  - unfold update_heartbeat_response_interval. destruct Hok. by constructor.
Qed.

(** C1. Through any interleaving of the calls of the reader (which marks and asks for changes of
    running proxies only), of heartbeats, of [stop], of the parts of the two callbacks and of the
    exchanges of the event thread on the two timers, a writer proxy stays consistent: the received
    set is sorted, lies strictly above the first missing number and below the last announced one,
    nothing is notified before it is available, and a proxy is alive with exactly its writer as
    destination if and only if it is not stopped. A stopped proxy has no heartbeat response
    pending; its initial ACKNACK timer is never READY, but the event thread may have left it
    WAITING ([stop_before_restart]). *)
Theorem wp_reachable_ok w : wp_reachable w → wp_ok w.
Proof. induction 1 as [reader now|w w' _ IH Hs]; [apply wp_make_ok | by eapply wp_step_ok]. Qed.

Definition test_reader : ReaderInfo := {|
  rd_guid := c_Guid_Unknown;
  rd_heartbeat_response_delay := Duration 0 5000000;
  rd_initial_acknack_delay := Duration 0 70000000;
  rd_filter_remote_locators := λ l, l;
  rd_should_intraprocess := λ _, false;
  rd_find_local_writer := λ _, false
|}.

Definition test_writer : WriterProxyData := {|
  wd_guid := Guid c_GuidPrefix_Unknown (ent_of_u32 0x103);
  wd_persistence_guid := c_Guid_Unknown;
  wd_ownership_strength := 0;
  wd_liveliness_kind := AUTOMATIC_LIVELINESS;
  wd_unicast := [loc_default];
  wd_multicast := []
|}.

Definition test_proxy : WriterProxy :=
  fst (wp_start test_writer (SeqNum 0 4) false (fst (wp_make test_reader 0))).

Lemma wp_reachable_ok_witness :
  wp_ok (snd (fst (process_heartbeat 1 (SeqNum 0 3) (SeqNum 0 20) false false false 0 test_proxy))).
Proof.
  apply wp_reachable_ok. apply wp_reach_step with test_proxy.
  - apply wp_reach_step with (fst (wp_make test_reader 0)); [apply wp_reach_make|].
    apply wp_step_start; by vm_compute.
  - apply wp_step_heartbeat; by vm_compute.
Defined.

(** ** Which numbers have been received *)

(** A tracker of changes used by the instances below: 1 to 4 and 6, 7, 9 received, 12 announced. *)
Definition test_changes : WriterChanges := {|
  changes_received_ := [SeqNum 0 6; SeqNum 0 7; SeqNum 0 9];
  changes_from_writer_low_mark_ := SeqNum 0 4;
  max_sequence_number_ := SeqNum 0 12;
  last_notified_ := SeqNum 0 2
|}.

Lemma test_changes_ok : wc_ok test_changes.
Proof.
  constructor; cbn [changes_received_ changes_from_writer_low_mark_ max_sequence_number_ last_notified_ test_changes];
    [by vm_compute.. | | | | by vm_compute | by vm_compute].
  - by apply (bool_decide_unpack _).
  - rewrite !ksorted_cons. split_and!; [apply ksorted_nil | by apply (bool_decide_unpack _)..].
  - by apply (bool_decide_unpack _).
Qed.

(** C2. [received_change_set] returns true exactly when the change had not been received, and
    afterwards exactly that change counts as received in addition; a repeated or old change
    leaves the proxy untouched. *)
Theorem received_change_set_exact s t c :
  wc_ok c → sn_ok s → sn_ok t →
  let '(r, c') := received_change_set s c in
  wc_ok c' ∧ r = negb (change_was_received s c) ∧
  change_was_received t c' = change_was_received t c || (t =? s)%sn ∧
  (r = false → c' = c) ∧ snz (max_sequence_number_ c') = Z.max (snz (max_sequence_number_ c)) (snz s).
Proof.
  intros Hok Hs Ht. pose proof (received_change_set_spec s c Hok Hs) as H.
  destruct (received_change_set s c) as [r c']. destruct H as (Hok' & Hr & Hrec & Hm & _ & Hsame & _).
  split_and!; try done.
  - pose proof (wc_received_dec_find c s Hok Hs). destruct r, (change_was_received s c); try done; exfalso; intuition.
  - apply eq_true_iff_eq. rewrite orb_true_iff, !wc_received_dec_find, Hrec by done.
    rewrite sn_eqb_snz, Z.eqb_eq by (by apply sn_ok_wf). done.
Qed.

Lemma received_change_set_exact_witness :
  let '(r, c') := received_change_set (SeqNum 0 5) test_changes in
  wc_ok c' ∧ r = negb (change_was_received (SeqNum 0 5) test_changes) ∧
  change_was_received (SeqNum 0 8) c' = change_was_received (SeqNum 0 8) test_changes || (SeqNum 0 8 =? SeqNum 0 5)%sn ∧
  (r = false → c' = test_changes) ∧
  snz (max_sequence_number_ c') = Z.max (snz (max_sequence_number_ test_changes)) (snz (SeqNum 0 5)).
Proof. apply (received_change_set_exact (SeqNum 0 5) (SeqNum 0 8) test_changes test_changes_ok); by vm_compute. Defined.

(** [lost_changes_update] gives up exactly the changes below the given number that had not
    been received, and returns how many they are, saturated at the largest [int32_t], although
    its 64-bit subtractions may wrap around on the way. *)
Theorem lost_changes_update_exact s t c :
  wc_ok c → sn_ok s → sn_ok t →
  let '(n, c') := lost_changes_update s c in
  wc_ok c' ∧
  change_was_received t c' = change_was_received t c || (t <? s)%sn ∧
  n = Z.min (missing_count (changes_received_ c) (snz (available_changes_max c) + 1) (snz s)) (2 ^ 31 - 1) ∧
  snz (max_sequence_number_ c') = Z.max (snz (max_sequence_number_ c)) (snz s - 1).
Proof.
  intros Hok Hs Ht. pose proof (lost_changes_update_spec s c Hok Hs) as H.
  destruct (lost_changes_update s c) as [n c']. destruct H as (Hok' & Hrec & Hn & Hm & _).
  split_and!; try done. apply eq_true_iff_eq. rewrite orb_true_iff, !wc_received_dec_find, Hrec by done.
  rewrite sn_ltb_snz, Z.ltb_lt by (by apply sn_ok_wf). done.
Qed.

(** C28. The set that goes out in an ACKNACK: [missing_changes] holds exactly the announced
    numbers not yet received among the 256 that follow the last number acknowledged, its base
    is the first missing number, and it is empty just when nothing announced is missing. *)
Theorem missing_changes_exact s c :
  wc_ok c → sn_ok s →
  let sns := missing_changes c in
  bm_ok sns ∧ base_ sns = (available_changes_max c + 1)%sn ∧
  (bm_is_set sns s = true ↔
   change_was_received s c = false ∧ (s <=? max_sequence_number_ c)%sn = true ∧
   snz s <= snz (available_changes_max c) + 256) ∧
  bm_empty sns = negb (are_there_missing_changes c).
Proof.
  intros Hok Hs. unfold available_changes_max. destruct (missing_changes_spec c Hok) as (Hbm & Eb & Er & Hb).
  split_and!; [done | done | |].
  - rewrite bm_is_set_spec by (done || (split; [by apply sn_ok_wf | apply sn_ok_range in Hs; lia])).
    unfold bm_mem. rewrite andb_true_iff. cbn [item_val SequenceNumber_laws]. rewrite Hb, Er, Z.leb_le.
    rewrite <- not_true_iff_false, wc_received_dec_find, sn_leb_snz, Z.leb_le by (done || apply sn_ok_wf; done || apply Hok).
    split; intros (? & ? & ?); tauto.
  - by apply missing_changes_empty.
Qed.

Lemma missing_changes_exact_witness :
  let sns := missing_changes test_changes in
  bm_ok sns ∧ base_ sns = (available_changes_max test_changes + 1)%sn ∧
  (bm_is_set sns (SeqNum 0 8) = true ↔
   change_was_received (SeqNum 0 8) test_changes = false ∧ (SeqNum 0 8 <=? max_sequence_number_ test_changes)%sn = true ∧
   snz (SeqNum 0 8) <= snz (available_changes_max test_changes) + 256) ∧
  bm_empty sns = negb (are_there_missing_changes test_changes).
Proof. apply (missing_changes_exact (SeqNum 0 8) test_changes test_changes_ok). by vm_compute. Defined.

(** [unknown_missing_changes_up_to] counts the numbers below the given one that have not been
    received, modulo 2^32. *)
Theorem unknown_missing_counts s c :
  wc_ok c → sn_ok s →
  unknown_missing_changes_up_to s c =
  missing_count (changes_received_ c) (snz (available_changes_max c) + 1) (snz s) mod 2 ^ 32.
Proof. apply unknown_missing_spec. Qed.

Lemma unknown_missing_counts_witness :
  unknown_missing_changes_up_to (SeqNum 0 11) test_changes =
  missing_count (changes_received_ test_changes) (snz (available_changes_max test_changes) + 1) (snz (SeqNum 0 11)) mod 2 ^ 32.
Proof. apply (unknown_missing_counts (SeqNum 0 11) test_changes test_changes_ok). by vm_compute. Defined.

(** ** Notification *)

(** The numbers returned by [n] calls of [next_cache_change_to_be_notified]. *)
Fixpoint notified (n : nat) (c : WriterChanges) : list SequenceNumber_t * WriterChanges :=
  match n with
  | O => ([], c)
  | S n' => let '(s, c') := next_cache_change_to_be_notified c in
            let '(l, c'') := notified n' c' in (s :: l, c'')
  end.

Lemma notified_spec n : ∀ c,
  wc_ok c → Z.of_nat n <= snz (available_changes_max c) - snz (last_notified_ c) →
  let '(l, c') := notified n c in
  wc_ok c' ∧ snz <$> l = seqZ (snz (last_notified_ c) + 1) (Z.of_nat n) ∧
  snz (last_notified_ c') = snz (last_notified_ c) + Z.of_nat n ∧
  available_changes_max c' = available_changes_max c.
Proof.
  induction n as [|n IH]; intros c Hok Hn; cbn [notified].
  { split_and!; [done | by rewrite seqZ_nil by lia | lia | done]. }
  pose proof (next_notified_spec c Hok) as H. destruct (next_cache_change_to_be_notified c) as [s c1].
  destruct H as (Hok1 & _ & Ea & H). destruct (Z.ltb_spec (snz (last_notified_ c)) (snz (available_changes_max c))); [|lia].
  destruct H as [-> Es]. specialize (IH c1 Hok1). rewrite Ea, Es in IH. specialize (IH ltac:(lia)).
  destruct (notified n c1) as [l c2]. destruct IH as (Hok2 & El & Elast & Ea2).
  split_and!; [done | | lia | done]. rewrite fmap_cons, El, Es.
  rewrite (seqZ_cons _ (Z.of_nat (S n))) by lia. f_equal. f_equal; lia.
Qed.

(** Changes are notified to the user in order and without gaps: asking for the next change
    until there is none gives every number from the one after the last notified up to the last
    one available, each once, and then the unknown number for ever. *)
Theorem notification_in_order c :
  wc_ok c →
  let '(l, c') := notified (Z.to_nat (snz (available_changes_max c) - snz (last_notified_ c))) c in
  snz <$> l = seqZ (snz (last_notified_ c) + 1) (snz (available_changes_max c) - snz (last_notified_ c)) ∧
  next_cache_change_to_be_notified c' = (sn_unknown, c').
Proof.
  intros Hok. pose proof (wc_notified c Hok) as Hle. fold (available_changes_max c) in Hle.
  set (n := Z.to_nat _). pose proof (notified_spec n c Hok ltac:(lia)) as H.
  destruct (notified n c) as [l c']. destruct H as (Hok' & El & Elast & Ea). split.
  - rewrite El. f_equal; lia.
  - pose proof (next_notified_spec c' Hok') as H. destruct (next_cache_change_to_be_notified c') as [s c2].
    destruct H as (_ & _ & _ & H). rewrite Ea, Elast in H.
    destruct (Z.ltb_spec (snz (last_notified_ c) + Z.of_nat n) (snz (available_changes_max c))); [lia|].
    by destruct H as [-> ->].
Qed.

Lemma notification_in_order_witness :
  let '(l, c') := notified (Z.to_nat (snz (available_changes_max test_changes) - snz (last_notified_ test_changes))) test_changes in
  snz <$> l = seqZ (snz (last_notified_ test_changes) + 1)
                (snz (available_changes_max test_changes) - snz (last_notified_ test_changes)) ∧
  next_cache_change_to_be_notified c' = (sn_unknown, c').
Proof. apply (notification_in_order test_changes test_changes_ok). Defined.

(** ** Heartbeats *)

(** A heartbeat that is not newer than the last one, or that finds the proxy stopped, changes
    nothing and has no effect. Any other one is taken: afterwards its count is the last one,
    nothing below its first number is missing, no number is lost that was received, the writer's
    last number is announced, and an answer is scheduled just when the writer asks for one and
    it is due (positive acknowledgements enabled, or something missing). *)
Theorem process_heartbeat_spec count first last final live disable_positive lost t w :
  wp_ok w → sn_ok first → sn_ok last → sn_ok t →
  let '(r, w', effects) := process_heartbeat count first last final live disable_positive lost w in
  let c' := wp_changes w' in
  if bool_decide (wp_state_ w ≠ STOPPED) && (last_heartbeat_count_ w <? count) then
    hb_processed r = true ∧ last_heartbeat_count_ w' = count ∧ heartbeat_final_flag_ w' = final ∧
    change_was_received t c' = change_was_received t (wp_changes w) || (t <? first)%sn ∧
    snz (max_sequence_number_ c') = Z.max (snz (max_sequence_number_ (wp_changes w))) (Z.max (snz first - 1) (snz last)) ∧
    te_state (heartbeat_response_ w') =
      (if negb (is_on_same_process_ w) && bool_decide (te_state (heartbeat_response_ w) = INACTIVE) &&
          (if final then negb live && negb (bm_empty (missing_changes c'))
           else negb disable_positive || negb (bm_empty (missing_changes c')))
       then READY else te_state (heartbeat_response_ w)) ∧
    hb_assert_liveliness r = live && (final || is_on_same_process_ w) ∧
    (received_at_least_one_heartbeat_ w = false → hb_sample_lost r = 0)
  else r = {| hb_processed := false; hb_assert_liveliness := false; hb_sample_lost := lost |} ∧ w' = w ∧ effects = [].
Proof.
  intros Hok Hf Hl Ht. pose proof (process_heartbeat_changes count first last final live disable_positive lost w) as Ec.
  pose proof (heartbeat_ok count first last final live disable_positive lost w Hok Hf Hl) as Hok'.
  destruct (bool_decide (wp_state_ w ≠ STOPPED) && (last_heartbeat_count_ w <? count)) eqn:Eg.
  2: { unfold process_heartbeat. by rewrite Eg. }
  pose proof (lost_changes_update_spec first (wp_changes w) (wp_changes_ok w Hok) Hf) as Hlost.
  pose proof (missing_changes_empty _ (wp_changes_ok _ Hok')) as He. rewrite Ec in He. clear Hok' Ec. revert He.
  unfold process_heartbeat. rewrite Eg.
  destruct (lost_changes_update first (wp_changes w)) as [n c1]. destruct Hlost as (Hok1 & Hrec & _ & Hm & _).
  cbn [snd]. destruct (missing_changes_update_spec last c1 Hok1 Hl) as (Hok2 & Hrec2 & Hm2 & _).
  set (c2 := missing_changes_update last c1) in *.
  unfold wp_restart_heartbeat_response, te_restart_timer, te_go_ready.
  assert (change_was_received t c2 = change_was_received t (wp_changes w) || (t <? first)%sn) as Ht'.
  { apply eq_true_iff_eq. rewrite orb_true_iff, !wc_received_dec_find, Hrec2, Hrec by (done || apply Hok).
    rewrite sn_ltb_snz, Z.ltb_lt by (by apply sn_ok_wf). done. }
  intros He. cbn [heartbeat_response_]. rewrite (bool_decide_decide (te_state (heartbeat_response_ w) = INACTIVE)).
  set (due := if final then negb live && are_there_missing_changes c2
              else negb disable_positive || are_there_missing_changes c2). set (same := is_on_same_process_ w).
  set (next := if negb same then _ else _).
  assert (∃ w2 eff, next = (live && (final || same), (w2, eff)) ∧ wp_changes w2 = c2 ∧ last_heartbeat_count_ w2 = count ∧
    heartbeat_final_flag_ w2 = final ∧ te_state (heartbeat_response_ w2) =
      if negb same && (if decide (te_state (heartbeat_response_ w) = INACTIVE) then true else false) && due then READY
      else te_state (heartbeat_response_ w)) as (w2 & eff & -> & <- & E1 & E2 & E3).
  { subst next due. destruct same, final, live, (decide (te_state (heartbeat_response_ w) = INACTIVE)); cbn;
      destruct disable_positive, (are_there_missing_changes c2); by eexists _, _. }
  cbn. rewrite E3, He, negb_involutive. split_and!; try done.
  - rewrite Hm2, Hm. clear. lia.
  - by intros ->.
Qed.

Lemma process_heartbeat_spec_witness :
  let '(r, w', effects) := process_heartbeat 1 (SeqNum 0 3) (SeqNum 0 20) false false true 0 test_proxy in
  hb_processed r = true ∧
  change_was_received (SeqNum 0 9) (wp_changes w') =
    change_was_received (SeqNum 0 9) (wp_changes test_proxy) || (SeqNum 0 9 <? SeqNum 0 3)%sn ∧
  te_state (heartbeat_response_ w') = READY.
Proof.
  assert (wp_ok test_proxy) as Hok by (apply wp_start_ok; [apply wp_make_ok | by vm_compute..]).
  pose proof (process_heartbeat_spec 1 (SeqNum 0 3) (SeqNum 0 20) false false true 0 (SeqNum 0 9) test_proxy Hok) as H.
  destruct (process_heartbeat _ _ _ _ _ _ _ _) as [[r w'] effects] eqn:E.
  destruct H as (H1 & _ & _ & H2 & _); [by vm_compute..|].
  split; [exact H1|]. split; [exact H2|]. vm_compute in E. injection E as <- <- <-. done.
Defined.

(** ** The preemptive acknowledgement *)

(** How often the initial acknack timer fires when its callback says whether to restart it, up to
    [fuel] times. *)
Fixpoint acknack_firings (fuel : nat) (w : WriterProxy) : nat :=
  match fuel with
  | O => O
  | S fuel' => let '(again, w', _) := perform_initial_ack_nack w in
               if again then S (acknack_firings fuel' w') else 1%nat
  end.

(** A remote writer that has not sent a heartbeat yet. *)
Record wp_unanswered (w : WriterProxy) : Prop := {
  un_idle : wp_state_ w = IDLE;
  un_remote : is_on_same_process_ w = false;
  un_data : is_datasharing_writer_ w = false;
  un_count : last_heartbeat_count_ w = 0;
  un_interval : 0 <= te_interval (initial_acknack_ w)
}.

Lemma acknack_firing w :
  wp_unanswered w →
  let t := te_getIntervalMsec (initial_acknack_ w) in
  let '(again, w', effects) := perform_initial_ack_nack w in
  wp_unanswered w' ∧ effects = [SendAcknackSet (bm_make sn_zero) false] ∧ again = (t <? 3600000) ∧
  te_getIntervalMsec (initial_acknack_ w') = if again then 2 * t else t.
Proof.
  intros [E1 E2 E3 E4 E5] t. unfold perform_initial_ack_nack, wp_enter. rewrite decide_True by done.
  unfold initial_ack_nack_body. cbn [is_datasharing_writer_ wp_set_state is_on_same_process_ last_heartbeat_count_ initial_acknack_].
  rewrite E3, E2, E4. cbn [negb Z.eqb]. fold t. change (60 * 60 * 1000) with 3600000.
  assert (0 <= t) as Ht by (apply Z.quot_pos; lia).
  destruct (Z.ltb_spec t 3600000) as [Hlt|Hge]; unfold wp_leave.
  - rewrite decide_True by done. split_and!; [|done..|].
    + constructor; try done. change (0 <= t * 2 * 1000). lia.
    + change (Z.quot (t * 2 * 1000) 1000 = 2 * t). rewrite Z.quot_mul by lia. lia.
  - rewrite decide_True by done. split_and!; [|done..]. by constructor.
Qed.

(** The delays, in milliseconds, that the timer waits before each of its firings. *)
Fixpoint acknack_delays (fuel : nat) (w : WriterProxy) : list Z :=
  match fuel with
  | O => []
  | S fuel' => let '(again, w', _) := perform_initial_ack_nack w in
               te_getIntervalMsec (initial_acknack_ w) :: if again : bool then acknack_delays fuel' w' else []
  end.

Lemma acknack_delays_double k : ∀ w fuel,
  let t := te_getIntervalMsec (initial_acknack_ w) in
  wp_unanswered w → 3600000 <= 2 ^ Z.of_nat k * t → (k < fuel)%nat →
  ∃ n, (n <= k)%nat ∧ acknack_delays fuel w = (λ i, 2 ^ Z.of_nat i * t) <$> seq 0 (S n) ∧ 3600000 <= 2 ^ Z.of_nat n * t ∧
    ∀ i, (i < n)%nat → 2 ^ Z.of_nat i * t < 3600000.
Proof.
  assert (∀ x, 2 ^ Z.of_nat 0 * x = x) as E0 by (intros x; change (2 ^ Z.of_nat 0) with 1; lia).
  induction k as [|k IH]; intros w [|fuel] t Hw Ht Hf; try lia; cbn [acknack_delays];
    pose proof (acknack_firing w Hw) as H; destruct (perform_initial_ack_nack w) as [[again w'] eff];
    destruct H as (Hw' & _ & Ha & Ei); fold t in Ha, Ei |- *.
  - rewrite E0 in Ht. exists 0%nat. destruct again; [lia|]. split_and!; [done | by cbn [seq]; rewrite fmap_cons, E0 | lia | lia].
  - destruct again; [|exists 0%nat; split_and!; [lia | by cbn [seq]; rewrite fmap_cons, E0 | lia | lia]].
    rewrite Nat2Z.inj_succ, Z.pow_succ_r in Ht by lia.
    destruct (IH w' fuel Hw') as (n & Hn & E & Hlast & Hlt); [rewrite Ei; lia | lia|]. rewrite Ei in *.
    assert (∀ i, 2 ^ Z.of_nat i * (2 * t) = 2 ^ Z.of_nat (S i) * t) as Epow
      by (intros i; rewrite Nat2Z.inj_succ, Z.pow_succ_r by lia; lia).
    exists (S n). split_and!; [lia | | by rewrite <- Epow |].
    + rewrite E. change (seq 0 (S (S n))) with (0%nat :: seq 1 (S n)). rewrite fmap_cons, E0. f_equal.
      rewrite <- (fmap_S_seq 0 (S n)), <- list_fmap_compose. apply list_fmap_ext. intros _ i _. cbn [compose]. apply Epow.
    + intros [|i] Hi; [rewrite E0; lia|]. rewrite <- Epow. apply Hlt. lia.
Qed.

(** C38. The preemptive ACKNACKs to a writer that never answers back off, when the initial delay is at
    least one millisecond: the delays before the messages are the initial one doubled each time,
    up to and including the first that reaches one hour, and then the timer stops. These are at
    most 23 messages. *)
Theorem initial_acknack_backs_off w fuel :
  let t := te_getIntervalMsec (initial_acknack_ w) in
  wp_unanswered w → 1 <= t → (22 < fuel)%nat →
  ∃ n, (n <= 22)%nat ∧ acknack_delays fuel w = (λ i, 2 ^ Z.of_nat i * t) <$> seq 0 (S n) ∧ 3600000 <= 2 ^ Z.of_nat n * t ∧
    ∀ i, (i < n)%nat → 2 ^ Z.of_nat i * t < 3600000.
Proof. intros t Hw Ht Hf. apply acknack_delays_double; [done | | done]. change (2 ^ Z.of_nat 22) with 4194304. lia. Qed.

Lemma initial_acknack_backs_off_witness :
  ∃ n, (n <= 22)%nat ∧ acknack_delays 100 test_proxy = (λ i, 2 ^ Z.of_nat i * 70) <$> seq 0 (S n) ∧ 3600000 <= 2 ^ Z.of_nat n * 70 ∧
    ∀ i, (i < n)%nat → 2 ^ Z.of_nat i * 70 < 3600000.
Proof. apply (initial_acknack_backs_off test_proxy 100); [constructor; by vm_compute | by vm_compute | lia]. Defined.

(** With an initial delay below one millisecond there is no back-off: the delay is read in
    whole milliseconds, twice zero is zero, and the timer is restarted for ever. *)
Theorem initial_acknack_zero_delay_never_stops w fuel :
  wp_unanswered w → te_interval (initial_acknack_ w) < 1000 → acknack_firings fuel w = fuel.
Proof.
  intros Hw Ht. assert (te_getIntervalMsec (initial_acknack_ w) = 0) as E.
  { destruct Hw. apply Z.quot_small. lia. }
  clear Ht. revert w Hw E. induction fuel as [|fuel IH]; intros w Hw E; [done|]. cbn [acknack_firings].
  pose proof (acknack_firing w Hw) as H. destruct (perform_initial_ack_nack w) as [[again w'] eff].
  destruct H as (Hw' & _ & -> & Ei). rewrite E in Ei |- *. cbn in Ei |- *. f_equal. by apply IH.
Qed.

Lemma initial_acknack_zero_delay_never_stops_witness :
  let w := wp_set_timers (heartbeat_response_ test_proxy) (te_set_interval 500 (initial_acknack_ test_proxy)) test_proxy in
  acknack_firings 1000 w = 1000%nat.
Proof. apply initial_acknack_zero_delay_never_stops; [constructor; by vm_compute | by vm_compute]. Defined.

(** [stop] wins over a callback in progress: whatever the callback does, a proxy stopped
    meanwhile stays stopped when the callback leaves, its timers are inactive at that point, and
    callbacks that run later send nothing and do not restart. *)
Theorem stop_wins_over_callbacks w :
  let w' := wp_leave (fst (wp_stop w)) in
  wp_state_ w' = STOPPED ∧ te_state (initial_acknack_ w') = INACTIVE ∧ te_state (heartbeat_response_ w') = INACTIVE ∧
  perform_initial_ack_nack w' = (false, w', []) ∧ perform_heartbeat_response w' = (w', []).
Proof.
  unfold wp_stop, te_recreate_timer, te_cancel_timer, te_go_cancel.
  destruct (decide (wp_state_ w = BUSY)); cbn; done.
Qed.

(** A [stop] that comes after the callback has left, and before the event thread restarts the event
    as the callback asked, cancels too early: the event of the stopped proxy is WAITING again. *)
Lemma stop_before_restart w :
  wp_unanswered w → te_getIntervalMsec (initial_acknack_ w) < 3600000 →
  let '(again, w1, _) := perform_initial_ack_nack w in
  again = true ∧ ∃ w2, wp_event (fst (wp_stop w1)) w2 ∧ wp_state_ w2 = STOPPED ∧ te_state (initial_acknack_ w2) = WAITING.
Proof.
  intros Hw Ht. pose proof (acknack_firing w Hw) as H. destruct (perform_initial_ack_nack w) as [[again w1] eff].
  destruct H as (Hw1 & _ & -> & _). split; [lia|]. pose proof (un_idle w1 Hw1) as Ei.
  unfold wp_stop, te_cancel_timer, te_go_cancel. rewrite decide_False by congruence. cbn [fst].
  eexists. split; [apply wp_event_acknack, (te_thread_restart true 0); done | done].
Qed.
