(* ===== verification/ReaderHistory.v ===== *)
(** * ReaderHistory (src/cpp/rtps/history/History.cpp, ReaderHistory.cpp)

    The changes a reader keeps, in the order of [history_order_cmp]. An iterator
    is an index of the vector of changes, its end the length. The pointers stored
    in the vector are never shared between two positions, so the changes are
    stored by value; a removal returns the removed change, and the reader's part
    of it ([change_removed_by_history]) is in [StatefulReader]. *)

From Stdlib Require Import ZArith Lia ZifyBool.
From stdpp Require Import base numbers list option list_numbers.
From S2P Require Import Prelude SequenceNumber Bytes Guid Time CacheChange SortedRange.

Open Scope Z_scope.

(** The part of [HistoryAttributes] that the reader's history looks at. *)
Record HistoryAttributes := {
  ha_preallocated : bool;
  ha_payloadMaxSize : Z
}.

(** A change of the history with the fields that only the reader uses. *)
Record HistoryChange := {
  hc_change : CacheChange_t;
  hc_isRead : bool;
  hc_receptionTimestamp : Time_t;
  hc_ownership_strength : Z
}.

Definition hc_seq (c : HistoryChange) : SequenceNumber_t := sequenceNumber (hc_change c).
Definition hc_guid (c : HistoryChange) : GUID_t := writerGUID (hc_change c).

Record ReaderHistory := {
  m_att : HistoryAttributes;
  m_changes : list HistoryChange;
  m_isHistoryFull : bool
}.

Definition rh_set_changes (l : list HistoryChange) (h : ReaderHistory) : ReaderHistory :=
  {| m_att := m_att h; m_changes := l; m_isHistoryFull := m_isHistoryFull h |}.

Definition rh_not_full (h : ReaderHistory) : ReaderHistory :=
  {| m_att := m_att h; m_changes := m_changes h; m_isHistoryFull := false |}.

(** ** Order *)

Definition history_order_cmp (lhs rhs : HistoryChange) : bool :=
  if guid_eqb (hc_guid lhs) (hc_guid rhs) then (hc_seq lhs <? hc_seq rhs)%sn
  else time_ltb (sourceTimestamp (hc_change lhs)) (sourceTimestamp (hc_change rhs)).

(** [std::lower_bound]: the binary search of the standard library, which looks only at some of the
    elements when they are not partitioned by [p]. *)
Fixpoint std_lower_bound_loop {A} (fuel : nat) (p : A → bool) (l : list A) (first len : nat) : nat :=
  match fuel with
  | O => first
  | S fuel' =>
      match len with
      | O => first
      | _ =>
          let half := (len / 2)%nat in
          let middle := (first + half)%nat in
          match l !! middle with
          | Some x => if p x then std_lower_bound_loop fuel' p l (S middle) (len - half - 1)
                      else std_lower_bound_loop fuel' p l first half
          | None => first
          end
      end
  end.

Definition std_lower_bound {A} (p : A → bool) (l : list A) : nat := std_lower_bound_loop (S (length l)) p l 0 (length l).

Definition sorted_vector_insert {A} (pred : A → A → bool) (item : A) (collection : list A) : list A :=
  match last collection with
  | Some back => if pred item back then insert_at (std_lower_bound (λ x, pred x item) collection) item collection
                 else collection ++ [item]
  | None => [item]
  end.

(** ** Operations *)

(** [ReaderHistory::matches_change] *)
Definition matches_change (inner outer : HistoryChange) : bool :=
  (hc_seq inner =? hc_seq outer)%sn && guid_eqb (hc_guid inner) (hc_guid outer).

(** [std::find_if] with the index of the first element that satisfies the predicate, or the length. *)
Fixpoint find_index {A} (p : A → bool) (l : list A) : nat :=
  match l with
  | [] => O
  | x :: l' => if p x then O else S (find_index p l')
  end.

Definition find_change_nts (ch : HistoryChange) (h : ReaderHistory) : nat := find_index (λ chi, matches_change chi ch) (m_changes h).

(** [History::remove_change_nts]: the change leaves the vector and its cache is released. The first
    component is the removed change, the iterator that the code returns is the given one. *)
Definition remove_change_nts (removal : nat) (h : ReaderHistory) : option HistoryChange * ReaderHistory :=
  match m_changes h !! removal with
  | None => (None, h)
  | Some change => (Some change, rh_not_full (rh_set_changes (erase_at removal (m_changes h)) h))
  end.

(** The loop of [get_change_nts]: the iterator it stops at and the change it found. *)
Fixpoint get_change_from (seq : SequenceNumber_t) (guid : GUID_t) (l : list HistoryChange) (it : nat) :
    nat * option HistoryChange :=
  match l with
  | [] => (it, None)
  | c :: l' =>
      if guid_eqb (hc_guid c) guid then
        if (hc_seq c =? seq)%sn then (it, Some c)
        else if (hc_seq c >? seq)%sn then (it, None)
        else get_change_from seq guid l' (S it)
      else get_change_from seq guid l' (S it)
  end.

Definition get_change_nts (seq : SequenceNumber_t) (guid : GUID_t) (hint : nat) (h : ReaderHistory) : nat * option HistoryChange :=
  get_change_from seq guid (drop hint (m_changes h)) hint.

Definition get_change (seq : SequenceNumber_t) (guid : GUID_t) (h : ReaderHistory) : option HistoryChange :=
  snd (get_change_nts seq guid 0 h).

Definition get_min_change (h : ReaderHistory) : option HistoryChange := head (m_changes h).
Definition get_max_change (h : ReaderHistory) : option HistoryChange := last (m_changes h).
Definition get_earliest_change (h : ReaderHistory) : option HistoryChange := head (m_changes h).

Definition get_min_change_from (guid : GUID_t) (h : ReaderHistory) : option HistoryChange :=
  m_changes h !! find_index (λ c, guid_eqb (hc_guid c) guid) (m_changes h).

(** The result and the output argument [will_never_be_accepted]. *)
Definition can_change_be_added_nts (writer_guid : GUID_t) (total_payload_size unknown_missing_changes_up_to : Z) (h : ReaderHistory) :
    bool * bool :=
  if ha_preallocated (m_att h) && (total_payload_size >? ha_payloadMaxSize (m_att h)) then (false, true)
  else if guid_eqb writer_guid c_Guid_Unknown then (false, true)
  else (true, false).

Definition add_change (a_change : HistoryChange) (h : ReaderHistory) : bool * ReaderHistory :=
  if ha_preallocated (m_att h) && (pl_length (serializedPayload (hc_change a_change)) >? ha_payloadMaxSize (m_att h)) then (false, h)
  else (true, rh_set_changes (sorted_vector_insert history_order_cmp a_change (m_changes h)) h).

(** [remove_changes_with_pred]: the removed changes in the order of their removal. *)
Definition remove_changes_with_pred (pred : HistoryChange → bool) (h : ReaderHistory) : list HistoryChange * ReaderHistory :=
  match filter pred (m_changes h) with
  | [] => ([], h)
  | removed => (removed, rh_not_full (rh_set_changes (filter (λ c, negb (pred c)) (m_changes h)) h))
  end.

Definition writer_unmatched (writer_guid : GUID_t) (h : ReaderHistory) : list HistoryChange * ReaderHistory :=
  remove_changes_with_pred (λ c, guid_eqb writer_guid (hc_guid c)) h.

(** The loop of [remove_fragmented_changes_until]: removed changes and remaining ones. *)
Fixpoint remove_fragmented_loop (seq_num : SequenceNumber_t) (guid : GUID_t) (l : list HistoryChange) :
    list HistoryChange * list HistoryChange :=
  match l with
  | [] => ([], [])
  | item :: l' =>
      if guid_eqb (hc_guid item) guid then
        if (hc_seq item <? seq_num)%sn then
          let '(removed, kept) := remove_fragmented_loop seq_num guid l' in
          if negb (is_fully_assembled (hc_change item)) then (item :: removed, kept) else (removed, item :: kept)
        else ([], l)
      else let '(removed, kept) := remove_fragmented_loop seq_num guid l' in (removed, item :: kept)
  end.

Definition remove_fragmented_changes_until (seq_num : SequenceNumber_t) (writer_guid : GUID_t) (h : ReaderHistory) :
    list HistoryChange * ReaderHistory :=
  match remove_fragmented_loop seq_num writer_guid (m_changes h) with
  | ([], _) => ([], h)
  | (removed, kept) => (removed, rh_not_full (rh_set_changes kept h))
  end.
