(* ===== verification/ReaderHistoryFacts.v ===== *)
(** * The order of the history of a reader

    [ordered l]: the changes of every writer are in the order of their sequence
    numbers, with source timestamps that grow with them, and the whole history is
    in the order of the timestamps. The insertion keeps it for changes whose
    timestamp agrees with their sequence number; otherwise it need not, since
    [history_order_cmp] is no order then. *)

From Stdlib Require Import ZArith Lia ZifyBool Sorting.Sorted.
From stdpp Require Import base numbers list option list_numbers sorting sets.
From S2P Require Import Prelude SequenceNumber Bytes Guid Time CacheChange SortedRange ReaderHistory.

Open Scope Z_scope.

(** ** Timestamps *)

Definition time_ok (t : Time_t) : Prop := is_u32 (fraction_ t).

(** The value the comparisons of [Time_t] compare. *)
Definition tval (t : Time_t) : Z := seconds_ t * 2 ^ 32 + fraction_ t.

Lemma time_ltb_tval a b : time_ok a → time_ok b → time_ltb a b = (tval a <? tval b).
Proof. unfold time_ok, time_ltb, tval. intros. width. zif; lia. Qed.

(** ** Changes *)

Definition hc_ok (c : HistoryChange) : Prop :=
  guid_ok (hc_guid c) ∧ sn_ok (hc_seq c) ∧ time_ok (sourceTimestamp (hc_change c)).

Definition hts (c : HistoryChange) : Z := tval (sourceTimestamp (hc_change c)).

Definition same_writer (a b : HistoryChange) : Prop := hc_guid a = hc_guid b.

(** Sequence numbers and timestamps of one writer grow together. *)
Definition agree_times (a b : HistoryChange) : Prop :=
  same_writer a b → (snz (hc_seq a) < snz (hc_seq b) → hts a < hts b) ∧ (snz (hc_seq b) < snz (hc_seq a) → hts b < hts a).

(** [b] comes after [a] in the history. *)
Definition comes_after (a b : HistoryChange) : Prop :=
  hts a <= hts b ∧ (same_writer a b → snz (hc_seq a) < snz (hc_seq b) ∧ hts a < hts b).

Definition ordered (l : list HistoryChange) : Prop := Forall hc_ok l ∧ StronglySorted comes_after l.

Lemma order_cmp_spec a b : hc_ok a → hc_ok b →
  history_order_cmp a b = if bool_decide (hc_guid a = hc_guid b) then snz (hc_seq a) <? snz (hc_seq b) else hts a <? hts b.
Proof.
  intros (Ha & Hsa & Hta) (Hb & Hsb & Htb). unfold history_order_cmp. case_bool_decide as E.
  - destruct (guid_eqb _ _) eqn:Eg; [|apply guid_eqb_eq in E; [congruence | done..]]. by apply sn_ltb_snz; apply sn_ok_wf.
  - destruct (guid_eqb _ _) eqn:Eg; [apply guid_eqb_eq in Eg; done|]. by apply time_ltb_tval.
Qed.

(** ** Linear search *)

Lemma find_index_spec {A} (p : A → bool) l :
  (∀ j x, (j < find_index p l)%nat → l !! j = Some x → p x = false) ∧ (∀ x, l !! find_index p l = Some x → p x = true).
Proof.
  induction l as [|y l [IH1 IH2]]; cbn [find_index]; [split; intros; [lia | done]|]. destruct (p y) eqn:E; split.
  - lia.
  - by intros x [= <-].
  - intros [|j] x Hj; [by intros [= <-] | apply IH1; lia].
  - apply IH2.
Qed.

Lemma find_index_Some {A} (p : A → bool) l i x :
  l !! i = Some x → p x = true → (∀ j y, l !! j = Some y → p y = true → j = i) → find_index p l = i.
Proof.
  intros Hx Hp Hu. destruct (find_index_spec p l) as [Hlt Hat]. destruct (l !! find_index p l) as [y|] eqn:E; [by apply (Hu _ y); [|apply Hat]|].
  apply lookup_ge_None in E. apply lookup_lt_Some in Hx as Hlen. rewrite (Hlt i x) in Hp; [done | lia | done].
Qed.

(** ** Binary search *)

Lemma std_lower_bound_loop_spec {A} (p : A → bool) (l : list A) n :
  (∀ j x, l !! j = Some x → p x = bool_decide (j < n)%nat) →
  ∀ fuel first len, (len < fuel)%nat → (first <= n <= first + len)%nat → (first + len <= length l)%nat →
  std_lower_bound_loop fuel p l first len = n.
Proof.
  intros Hp. induction fuel as [|fuel IH]; intros first len Hf Hn Hl; [lia|]. cbn [std_lower_bound_loop].
  destruct len as [|len]; [lia|]. set (half := (S len / 2)%nat).
  assert (half <= len)%nat as Hh by (apply Nat.lt_succ_r, Nat.div_lt; lia).
  destruct (lookup_lt_is_Some_2 l (first + half)) as [x Ex]; [lia|]. rewrite Ex, (Hp _ _ Ex). case_bool_decide; apply IH; lia.
Qed.

Lemma std_lower_bound_spec {A} (p : A → bool) (l : list A) n :
  (n <= length l)%nat → (∀ j x, l !! j = Some x → p x = bool_decide (j < n)%nat) → std_lower_bound p l = n.
Proof. intros Hn Hp. apply std_lower_bound_loop_spec; [done | lia..]. Qed.

(** A partition point exists when [p] never turns from false to true. *)
Lemma partition_point {A} (p : A → bool) (l : list A) :
  StronglySorted (λ a b, p b = true → p a = true) l →
  ∃ n, (n <= length l)%nat ∧ ∀ j x, l !! j = Some x → p x = bool_decide (j < n)%nat.
Proof.
  induction 1 as [|a l Hs (n & Hn & IH) Ha]; [by exists O|]. destruct (p a) eqn:Ea.
  - exists (S n). split; [cbn; lia|]. intros [|j] x; cbn; [intros [= <-]; by rewrite bool_decide_true by lia|].
    intros Hx. rewrite (IH j x Hx). apply bool_decide_ext. lia.
  - exists O. split; [lia|]. intros j x Hx. rewrite bool_decide_false by lia. destruct j as [|j]; cbn in Hx; [by injection Hx as <-|].
    destruct (p x) eqn:Ex; [|done]. pose proof (proj1 (Forall_lookup _ _) Ha j x Hx Ex). congruence.
Qed.

(** ** Insertion *)

Lemma ordered_insert_at n x l :
  (∀ a, a ∈ take n l → comes_after a x) → (∀ b, b ∈ drop n l → comes_after x b) → hc_ok x → ordered l → ordered (insert_at n x l).
Proof.
  intros Hb Ha Hx [Hok Hs]. unfold insert_at. rewrite <- (take_drop n l) in Hok, Hs. apply Forall_app in Hok as [Hok1 Hok2].
  split; [apply Forall_app; split; [done | by constructor]|].
  apply StronglySorted_app in Hs as (Hc & Hs1 & Hs2). apply StronglySorted_app. split_and!; [|done|constructor; [done | by apply Forall_forall]].
  intros a b Hta Htb. apply elem_of_cons in Htb as [->|Htb]; [by apply Hb | by apply Hc].
Qed.

(** What the insertion needs of the new change [x] for every change [c] of the history. *)
Definition fits (x c : HistoryChange) : Prop := agree_times x c ∧ (same_writer x c → snz (hc_seq x) ≠ snz (hc_seq c)).

Lemma fits_cmp_l x c : hc_ok x → hc_ok c → fits x c → history_order_cmp c x = (hts c <? hts x).
Proof.
  intros Hx Hc [Ha Hn]. rewrite order_cmp_spec by done. case_bool_decide as E; [|done].
  destruct (Ha (eq_sym E)), (Z.lt_total (snz (hc_seq x)) (snz (hc_seq c))) as [|[|]]; [lia | by destruct Hn | lia].
Qed.

Lemma fits_cmp_r x c : hc_ok x → hc_ok c → fits x c → history_order_cmp x c = (hts x <? hts c).
Proof.
  intros Hx Hc [Ha Hn]. rewrite order_cmp_spec by done. case_bool_decide as E; [|done].
  destruct (Ha E), (Z.lt_total (snz (hc_seq x)) (snz (hc_seq c))) as [|[|]]; [lia | by destruct Hn | lia].
Qed.

Lemma fits_after_l x c : fits x c → hts x <= hts c → comes_after x c.
Proof.
  intros [Ha Hn] Hle. split; [done|]. intros E. destruct (Ha E). specialize (Hn E).
  assert (snz (hc_seq x) < snz (hc_seq c)) by lia. split; [done | lia].
Qed.

Lemma fits_after_r x c : fits x c → hts c <= hts x → comes_after c x.
Proof.
  intros [Ha Hn] Hle. split; [done|]. intros E. symmetry in E. destruct (Ha E). specialize (Hn E).
  assert (snz (hc_seq c) < snz (hc_seq x)) by lia. split; [done | lia].
Qed.

Lemma ordered_last l b c : StronglySorted comes_after l → last l = Some b → c ∈ l → hts c <= hts b.
Proof.
  intros Hs Hl Hc. apply last_Some in Hl as [l' ->]. apply StronglySorted_app in Hs as (Hall & _ & _).
  apply elem_of_app in Hc as [Hc|Hc%list_elem_of_singleton]; [|subst; lia]. by apply (Hall c b); [|apply list_elem_of_singleton].
Qed.

Lemma insert_position x l : hc_ok x → ordered l → (∀ c, c ∈ l → fits x c) →
  ∃ n, sorted_vector_insert history_order_cmp x l = insert_at n x l ∧
    (∀ a, a ∈ take n l → hts a <= hts x) ∧ (∀ b, b ∈ drop n l → hts x <= hts b).
Proof.
  intros Hx [Hok Hs] Hf. assert (∀ c, c ∈ l → hc_ok c) as Hok' by (intros; by apply (proj1 (list.Forall_forall _ _) Hok)).
  assert (∀ c, c ∈ l → history_order_cmp c x = (hts c <? hts x)) as Hp by (intros; apply fits_cmp_l; auto).
  unfold sorted_vector_insert. destruct (last l) as [back|] eqn:El.
  - assert (back ∈ l) as Hb by (apply last_Some in El as [l' ->]; set_solver). rewrite fits_cmp_r by auto. zif.
    + destruct (partition_point (λ c, history_order_cmp c x) l) as (n & Hn & Hpart).
      { clear -Hs Hp. induction Hs as [|a l Hs IH Ha]; constructor.
        - apply IH. intros. apply Hp. set_solver.
        - apply list.Forall_forall. intros b Hb. rewrite !Hp by set_solver. pose proof (proj1 (proj1 (list.Forall_forall _ _) Ha b Hb)). lia. }
      exists n. rewrite (std_lower_bound_spec _ _ n Hn Hpart). split; [done|]. split.
      * intros a Ha. apply list_elem_of_lookup in Ha as [j Hj]. apply lookup_take_Some in Hj as [Hj Hlt].
        pose proof (Hpart _ _ Hj) as E. cbn in E. rewrite Hp, bool_decide_true in E by (done || by apply list_elem_of_lookup_2 with j). lia.
      * intros b' Hb'. apply list_elem_of_lookup in Hb' as [j Hj]. rewrite lookup_drop in Hj. pose proof (Hpart _ _ Hj) as E. cbn in E.
        rewrite Hp, bool_decide_false in E by (lia || by apply list_elem_of_lookup_2 with (n + j)%nat). lia.
    + exists (length l). unfold insert_at. rewrite firstn_all, skipn_all. split_and!; [done| |set_solver].
      intros a Ha. pose proof (ordered_last _ _ _ Hs El Ha). lia.
  - apply last_None in El as ->. exists O. split_and!; [done | set_solver..].
Qed.

Lemma sorted_insert_ordered x l : hc_ok x → ordered l → (∀ c, c ∈ l → fits x c) → ordered (sorted_vector_insert history_order_cmp x l).
Proof.
  intros Hx Hl Hf. destruct (insert_position x l) as (n & -> & Hb & Ha); [done..|]. apply ordered_insert_at; [| |done..].
  - intros a Hin. apply fits_after_r; [|by apply Hb]. apply Hf. rewrite <- (take_drop n l). set_solver.
  - intros b Hin. apply fits_after_l; [|by apply Ha]. apply Hf. rewrite <- (take_drop n l). set_solver.
Qed.

Lemma sorted_insert_perm {A} (r : A → A → bool) x l : sorted_vector_insert r x l ≡ₚ x :: l.
Proof.
  unfold sorted_vector_insert. destruct (last l) eqn:El; [|by apply last_None in El as ->]. destruct (r x a).
  - unfold insert_at. rewrite <- Permutation_middle. by rewrite take_drop.
  - by rewrite Permutation_app_comm.
Qed.

Lemma ordered_app l1 l2 : ordered (l1 ++ l2) → ordered l1 ∧ ordered l2.
Proof. intros [Hok Hs]. apply Forall_app in Hok as [? ?]. apply StronglySorted_app in Hs as (_ & ? & ?). done. Qed.

Lemma ordered_drop n l : ordered l → ordered (drop n l).
Proof. intros H. rewrite <- (take_drop n l) in H. apply (ordered_app _ _ H). Qed.

Lemma ordered_lookup_lt l i j a b : ordered l → (i < j)%nat → l !! i = Some a → l !! j = Some b → comes_after a b.
Proof.
  intros [_ Hs] Hij Ha Hb. rewrite <- (take_drop j l) in Hs. apply StronglySorted_app in Hs as (Hall & _ & _). apply Hall.
  - apply list_elem_of_lookup_2 with i. by apply lookup_take_Some.
  - apply list_elem_of_lookup_2 with O. by rewrite lookup_drop, Nat.add_0_r.
Qed.

Lemma ordered_elem l c : ordered l → c ∈ l → hc_ok c.
Proof. intros [Hok _]. by apply (proj1 (list.Forall_forall _ _) Hok). Qed.

(** A change of a writer is in the history once. *)
Lemma ordered_unique l a b : ordered l → a ∈ l → b ∈ l → hc_guid a = hc_guid b → snz (hc_seq a) = snz (hc_seq b) → a = b.
Proof.
  intros Hl [i Hi]%list_elem_of_lookup [j Hj]%list_elem_of_lookup Eg Es. destruct (Nat.lt_total i j) as [Hlt|[->|Hlt]]; [|congruence|].
  - destruct (ordered_lookup_lt l i j a b) as [_ H]; [done..|]. destruct (H Eg). lia.
  - destruct (ordered_lookup_lt l j i b a) as [_ H]; [done..|]. destruct (H (eq_sym Eg)). lia.
Qed.

(** ** Lookup *)

(** The loop of [get_change_nts] stops at the first change of the writer whose number is not less. *)
Lemma get_change_from_spec seq g l : guid_ok g → sn_wf seq → Forall hc_ok l → ∀ it,
  ∃ k, fst (get_change_from seq g l it) = (it + k)%nat ∧ (k <= length l)%nat ∧
    (∀ c, c ∈ take k l → hc_guid c = g → snz (hc_seq c) < snz seq) ∧
    match l !! k with
    | Some c => hc_guid c = g ∧ snz seq <= snz (hc_seq c) ∧
                snd (get_change_from seq g l it) = if snz (hc_seq c) =? snz seq then Some c else None
    | None => snd (get_change_from seq g l it) = None
    end.
Proof.
  intros Hg Hs. induction 1 as [|c l (Hgc & Hsc & _) _ IH]; intros it; cbn [get_change_from].
  { exists O. split_and!; [cbn; lia | cbn; lia | set_solver | done]. }
  assert (∀ b, (hc_guid c = g → b < snz seq) → b = snz (hc_seq c) →
    ∃ k, fst (get_change_from seq g l (S it)) = (it + k)%nat ∧ (k <= length (c :: l))%nat ∧
    (∀ c', c' ∈ take k (c :: l) → hc_guid c' = g → snz (hc_seq c') < snz seq) ∧
    match (c :: l) !! k with
    | Some c => hc_guid c = g ∧ snz seq <= snz (hc_seq c) ∧
                snd (get_change_from seq g l (S it)) = if snz (hc_seq c) =? snz seq then Some c else None
    | None => snd (get_change_from seq g l (S it)) = None end) as Hnext.
  { intros b Hb ->. destruct (IH (S it)) as (k & E1 & E2 & E3 & E4). exists (S k). split_and!; [lia | cbn; lia | | done].
    intros c'. cbn. rewrite elem_of_cons. intros [->|Hc'] Eg; [by apply Hb | by apply E3]. }
  apply sn_ok_wf in Hsc. destruct (guid_eqb (hc_guid c) g) eqn:Eg.
  - apply guid_eqb_eq in Eg; [|done..]. rewrite sn_eqb_snz, sn_gtb_snz by done. zif.
    + exists O. cbn. split_and!; [lia | lia | set_solver | done | lia | zif; (done || lia)].
    + exists O. cbn. split_and!; [lia | lia | set_solver | done | lia | zif; (done || lia)].
    + eapply Hnext; [|done]. intros _. lia.
  - eapply Hnext; [|done]. intros E. apply guid_eqb_eq in E; [congruence | done..].
Qed.

Lemma get_change_spec seq g h c : ordered (m_changes h) → guid_ok g → sn_wf seq →
  get_change seq g h = Some c ↔ c ∈ m_changes h ∧ hc_guid c = g ∧ snz (hc_seq c) = snz seq.
Proof.
  intros Ho Hg Hs. unfold get_change, get_change_nts. rewrite drop_0.
  destruct (get_change_from_spec seq g (m_changes h) Hg Hs (proj1 Ho) 0) as (k & _ & Hk & Hlt & Hat).
  destruct (m_changes h !! k) as [b|] eqn:Eb.
  - destruct Hat as (Eg & Hle & ->). pose proof (list_elem_of_lookup_2 _ _ _ Eb) as Hb. split.
    + zif; [|done]. intros [= <-]. split_and!; [done | done | lia].
    + intros (Hc & Ec & Es). assert (b = c) as ->; [|zif; [done | lia]].
      apply (ordered_unique (m_changes h)); [done..|congruence|]. destruct (Z.le_gt_cases (snz (hc_seq b)) (snz seq)); [lia|].
      apply list_elem_of_lookup in Hc as [j Hj]. destruct (Nat.lt_total j k) as [Hjk|[->|Hjk]]; [|congruence|].
      * specialize (Hlt c). rewrite Es in Hlt. assert (snz seq < snz seq); [|lia]. apply Hlt; [|done].
        apply list_elem_of_lookup_2 with j. by apply lookup_take_Some.
      * destruct (ordered_lookup_lt _ _ _ _ _ Ho Hjk Eb Hj) as [_ Hcmp]. destruct Hcmp; [unfold same_writer; congruence | lia].
  - rewrite Hat. split; [done|]. intros (Hc & Ec & Es). apply lookup_ge_None in Eb. rewrite take_ge in Hlt by done.
    specialize (Hlt c Hc Ec). lia.
Qed.
