(* ===== verification/ReaderHistoryTheorems.v ===== *)
(** * Properties of the history of a reader *)

From Stdlib Require Import ZArith Lia ZifyBool.
From stdpp Require Import base numbers list option list_numbers sets.
From S2P Require Import Prelude SequenceNumber Bytes Guid Time CacheChange SortedRange ReaderHistory ReaderHistoryFacts.

Open Scope Z_scope.

(** C29. Insertion and lookup fit together as long as the source timestamps of a writer grow with its
    sequence numbers: a change that the history takes is found under its number and writer, every
    other lookup gives what it gave before, and the history stays in order. *)
Theorem add_change_get_change x h h' seq g :
  ordered (m_changes h) → hc_ok x → (∀ c, c ∈ m_changes h → fits x c) → add_change x h = (true, h') → guid_ok g → sn_ok seq →
  ordered (m_changes h') ∧
  get_change seq g h' = if decide (g = hc_guid x ∧ seq = hc_seq x) then Some x else get_change seq g h.
Proof.
  intros Ho Hx Hf Ha Hg Hs. revert Ha. unfold add_change. destruct (_ && _); [done|]. intros [= <-].
  set (h' := rh_set_changes _ h). pose proof (sorted_insert_ordered x (m_changes h) Hx Ho Hf) as Ho'.
  change (sorted_vector_insert history_order_cmp x (m_changes h)) with (m_changes h') in Ho'. split; [done|].
  assert (∀ c, c ∈ m_changes h' ↔ c = x ∨ c ∈ m_changes h) as Hin.
  { intros c. unfold h'. cbn [m_changes rh_set_changes]. rewrite sorted_insert_perm. apply elem_of_cons. }
  pose proof (sn_ok_wf _ Hs) as Hw. destruct Hx as (Hgx & Hsx & _). apply option_eq. intros c. rewrite get_change_spec by done. destruct (decide _) as [[-> ->]|Hne].
  - split.
    + intros ([->|Hc]%Hin & Eg & Es); [done|]. destruct (Hf c Hc) as [_ Hno]. by destruct (Hno (eq_sym Eg)).
    + intros [= <-]. split; [apply Hin; by left | done].
  - rewrite get_change_spec, Hin by done. split; [|tauto]. intros ([->|Hc] & Eg & Es); [|done]. destruct Hne. split; [done|].
    symmetry. by apply sn_val_inj; [apply sn_ok_wf..|].
Qed.

Definition example_change (entity n seconds : Z) : HistoryChange :=
  {| hc_change := {| cc_kind := ALIVE; writerGUID := Guid c_GuidPrefix_Unknown (ent_of_u32 entity); instanceHandle := None;
                     sequenceNumber := SeqNum 0 n; serializedPayload := pl_default; inline_qos := pl_default;
                     sourceTimestamp := Time seconds 0 0; vendor_id := [1; 15];
                     fragment_size_ := 0; fragment_count_ := 0; first_missing_fragment_ := 0 |};
     hc_isRead := false; hc_receptionTimestamp := time_zero; hc_ownership_strength := 0 |}.

Definition example_history (l : list HistoryChange) : ReaderHistory :=
  {| m_att := {| ha_preallocated := false; ha_payloadMaxSize := 0 |}; m_changes := l; m_isHistoryFull := false |}.

(** A change of the first writer that comes late, between changes of two writers. *)
Definition example_store : ReaderHistory :=
  example_history [example_change 259 3 5; example_change 515 1 7; example_change 259 5 20].

Lemma example_change_ok entity n seconds :
  sn_ok (SeqNum 0 n) → time_ok (Time seconds 0 0) → hc_ok (example_change entity n seconds).
Proof. intros Hn Ht. split; [apply guid_ok_unknown_prefix | by split]. Qed.

Lemma add_change_get_change_witness :
  let h' := snd (add_change (example_change 259 4 10) example_store) in
  get_change (SeqNum 0 4) (Guid c_GuidPrefix_Unknown (ent_of_u32 259)) h' = Some (example_change 259 4 10) ∧ length (m_changes h') = 4%nat.
Proof.
  split; [|by vm_compute].
  destruct (add_change_get_change (example_change 259 4 10) example_store (snd (add_change (example_change 259 4 10) example_store))
              (SeqNum 0 4) (Guid c_GuidPrefix_Unknown (ent_of_u32 259))) as [_ E].
  - split; [repeat (apply Forall_cons; split; [by apply example_change_ok|]); apply Forall_nil; done|].
    repeat (constructor; [|repeat (apply Forall_cons; split; [split; [by vm_compute | intros E; by vm_compute in E |- *]|]);
      by apply Forall_nil]). constructor.
  - by apply example_change_ok.
  - intros c [->|[->|[->|Hc%elem_of_nil]%elem_of_cons]%elem_of_cons]%elem_of_cons; [..|done];
      (split; [intros E; split; intros H | intros E]; by vm_compute in *).
  - by vm_compute.
  - apply guid_ok_unknown_prefix.
  - by split.
  - rewrite E. by rewrite decide_True.
Defined.

(** The order of the history compares numbers within a writer and timestamps across writers,
    which is no order when a writer's timestamps do not follow its numbers: sample 4 of a writer,
    stamped later than the sample 5 that came before it, is put behind it, and the lookup that stops
    at the first greater number does not find it although the history has it. *)
Theorem late_timestamp_hides_change :
  let A := 0x103 in let B := 0x203 in
  let add c h := snd (add_change c h) in
  let h := add (example_change A 4 100) (add (example_change B 1 2) (add (example_change A 5 1) (example_history []))) in
  m_changes h = [example_change A 5 1; example_change B 1 2; example_change A 4 100] ∧
  get_change (SeqNum 0 4) (hc_guid (example_change A 4 100)) h = None.
Proof. by vm_compute. Qed.
