(* ===== verification/StatefulReader.v ===== *)
(** * StatefulReader (src/cpp/rtps/reader/StatefulReader.cpp, BaseReader.cpp)

    The reader of the reliable protocol: it owns a [WriterProxy] per matched
    writer and a [ReaderHistory], and its handlers keep the two in step. The
    matched proxies are a list and a proxy is named by its index. Calls to the
    listener, to the liveliness manager, to the pools and to the message group are
    effects. The reader does not use data sharing ([is_datasharing_compatible_] is
    false). *)

From Stdlib Require Import ZArith Lia ZifyBool.
From stdpp Require Import gmap countable base numbers list option list_numbers.
From S2P Require Import Prelude SequenceNumber BitmapRange Bytes Guid TimedEvent Time CacheChange SortedRange ReaderHistory WriterProxy.

Open Scope Z_scope.

Inductive SampleRejectedStatusKind :=
| NOT_REJECTED | REJECTED_BY_INSTANCES_LIMIT | REJECTED_BY_SAMPLES_LIMIT | REJECTED_BY_SAMPLES_PER_INSTANCE_LIMIT.

#[global] Instance SampleRejectedStatusKind_eq_dec : EqDecision SampleRejectedStatusKind.
Proof. solve_decision. Defined.

(** Keys of the maps of the reader. *)
#[global] Instance GUID_countable : Countable GUID_t :=
  inj_countable' (λ g, (pfx_value (guidPrefix g), ent_value (entityId g)))
    (λ p, Guid (GuidPrefix (fst p)) (EntityId (snd p))) ltac:(by intros [[?] [?]]).

(** ** The history as the reader sees it

    The virtual functions of [ReaderHistory]. A history may drop other changes when
    it takes one; they are the last component of [ho_received_change]. *)
Class ReaderHistoryOps := {
  ho_can_change_be_added : GUID_t → Z → Z → ReaderHistory → bool * bool;
  ho_received_change : HistoryChange → Z → ReaderHistory → bool * SampleRejectedStatusKind * ReaderHistory * list HistoryChange;
  ho_completed_change : HistoryChange → Z → ReaderHistory → bool * SampleRejectedStatusKind * ReaderHistory
}.

(** [ReaderHistory] itself. *)
Definition base_received_change (change : HistoryChange) (unknown_missing_changes_up_to : Z) (h : ReaderHistory) :
    bool * SampleRejectedStatusKind * ReaderHistory * list HistoryChange :=
  let '(ret, h') := add_change change h in (ret, NOT_REJECTED, h', []).

Definition base_completed_change (change : HistoryChange) (unknown_missing_changes_up_to : Z) (h : ReaderHistory) :
    bool * SampleRejectedStatusKind * ReaderHistory := (true, NOT_REJECTED, h).

Definition base_history_ops : ReaderHistoryOps := {|
  ho_can_change_be_added := can_change_be_added_nts;
  ho_received_change := base_received_change;
  ho_completed_change := base_completed_change
|}.

(** ** State *)

(** The attributes of the reader and what it asks its participant and its listener for: the content
    filter, whether it has a listener, whether the listener wants a notification per change, and
    whether the liveliness protocol runs. *)
Record ReaderConfig := {
  cf_guid : GUID_t;
  cf_accept_unknown_writers : bool;
  cf_trusted_writer : EntityId_t;
  cf_exclusive_ownership : bool;
  cf_disable_positive_acks : bool;
  cf_liveliness_kind : LivelinessKind;
  cf_finite_lease : bool;
  cf_wlp : bool;
  cf_max_writers : Z;
  cf_filter : option (CacheChange_t → bool);
  cf_listener : bool;
  cf_notify_individual : bool;
  cf_reader_info : ReaderInfo
}.

Record StatefulReader := {
  sr_writers : list WriterProxy;
  sr_writers_pool : list WriterProxy;
  sr_history : ReaderHistory;
  sr_persistence_guid_map : gmap GUID_t GUID_t;
  sr_persistence_guid_count : gmap GUID_t Z;
  sr_history_record : gmap GUID_t SequenceNumber_t;
  sr_acknack_count : Z;
  sr_nackfrag_count : Z;
  sr_total_unread : Z;
  sr_is_alive : bool
}.

Inductive DiscoveryStatus := DISCOVERED_WRITER | CHANGED_QOS_WRITER | REMOVED_WRITER | IGNORED_WRITER.

Inductive SREffect :=
| FromWriter (writer : GUID_t) (e : WPEffect)
| OnDataNotify (writer : GUID_t) (source_timestamp : Time_t)
| OnDataAvailable (writer : GUID_t) (first last : SequenceNumber_t)
| OnNewCacheChangeAdded (writer : GUID_t) (seq : SequenceNumber_t)
| OnSampleLost (n : Z)
| OnSampleRejected (reason : SampleRejectedStatusKind) (writer : GUID_t) (seq : SequenceNumber_t)
| OnWriterDiscovery (status : DiscoveryStatus) (writer : GUID_t)
| AssertWriterLiveliness (writer : GUID_t)
| LivelinessAddWriter (writer : GUID_t)
| LivelinessRemoveWriter (writer : GUID_t)
| CreateSenderResources (l : Locator_t)
| UpdateOwnershipStrength (writer : GUID_t) (strength : Z)
| OnSubscribeThroughput (length : Z)
| ReleaseCache (writer : GUID_t) (seq : SequenceNumber_t)
| AddNackFrag (writer : GUID_t) (seq : SequenceNumber_t) (frags : FragmentNumberSet_t) (count : Z)
| AddAcknack (writer : GUID_t) (sns : SequenceNumberSet_t) (count : Z) (final : bool).

Definition sr_set_writers (ws : list WriterProxy) (r : StatefulReader) : StatefulReader :=
  {| sr_writers := ws; sr_writers_pool := sr_writers_pool r; sr_history := sr_history r;
     sr_persistence_guid_map := sr_persistence_guid_map r; sr_persistence_guid_count := sr_persistence_guid_count r;
     sr_history_record := sr_history_record r; sr_acknack_count := sr_acknack_count r;
     sr_nackfrag_count := sr_nackfrag_count r; sr_total_unread := sr_total_unread r; sr_is_alive := sr_is_alive r |}.

Definition sr_set_pool (ws : list WriterProxy) (r : StatefulReader) : StatefulReader :=
  {| sr_writers := sr_writers r; sr_writers_pool := ws; sr_history := sr_history r;
     sr_persistence_guid_map := sr_persistence_guid_map r; sr_persistence_guid_count := sr_persistence_guid_count r;
     sr_history_record := sr_history_record r; sr_acknack_count := sr_acknack_count r;
     sr_nackfrag_count := sr_nackfrag_count r; sr_total_unread := sr_total_unread r; sr_is_alive := sr_is_alive r |}.

Definition sr_set_history (h : ReaderHistory) (r : StatefulReader) : StatefulReader :=
  {| sr_writers := sr_writers r; sr_writers_pool := sr_writers_pool r; sr_history := h;
     sr_persistence_guid_map := sr_persistence_guid_map r; sr_persistence_guid_count := sr_persistence_guid_count r;
     sr_history_record := sr_history_record r; sr_acknack_count := sr_acknack_count r;
     sr_nackfrag_count := sr_nackfrag_count r; sr_total_unread := sr_total_unread r; sr_is_alive := sr_is_alive r |}.

Definition sr_set_record (m : gmap GUID_t SequenceNumber_t) (r : StatefulReader) : StatefulReader :=
  {| sr_writers := sr_writers r; sr_writers_pool := sr_writers_pool r; sr_history := sr_history r;
     sr_persistence_guid_map := sr_persistence_guid_map r; sr_persistence_guid_count := sr_persistence_guid_count r;
     sr_history_record := m; sr_acknack_count := sr_acknack_count r;
     sr_nackfrag_count := sr_nackfrag_count r; sr_total_unread := sr_total_unread r; sr_is_alive := sr_is_alive r |}.

Definition sr_set_persistence (m : gmap GUID_t GUID_t) (n : gmap GUID_t Z) (r : StatefulReader) : StatefulReader :=
  {| sr_writers := sr_writers r; sr_writers_pool := sr_writers_pool r; sr_history := sr_history r;
     sr_persistence_guid_map := m; sr_persistence_guid_count := n;
     sr_history_record := sr_history_record r; sr_acknack_count := sr_acknack_count r;
     sr_nackfrag_count := sr_nackfrag_count r; sr_total_unread := sr_total_unread r; sr_is_alive := sr_is_alive r |}.

Definition sr_set_unread (n : Z) (r : StatefulReader) : StatefulReader :=
  {| sr_writers := sr_writers r; sr_writers_pool := sr_writers_pool r; sr_history := sr_history r;
     sr_persistence_guid_map := sr_persistence_guid_map r; sr_persistence_guid_count := sr_persistence_guid_count r;
     sr_history_record := sr_history_record r; sr_acknack_count := sr_acknack_count r;
     sr_nackfrag_count := sr_nackfrag_count r; sr_total_unread := n; sr_is_alive := sr_is_alive r |}.

Definition sr_set_counts (acknack nackfrag : Z) (r : StatefulReader) : StatefulReader :=
  {| sr_writers := sr_writers r; sr_writers_pool := sr_writers_pool r; sr_history := sr_history r;
     sr_persistence_guid_map := sr_persistence_guid_map r; sr_persistence_guid_count := sr_persistence_guid_count r;
     sr_history_record := sr_history_record r; sr_acknack_count := acknack;
     sr_nackfrag_count := nackfrag; sr_total_unread := sr_total_unread r; sr_is_alive := sr_is_alive r |}.

(** ** The record of notified changes (BaseReader) *)

Definition persistence_guid_of (guid : GUID_t) (r : StatefulReader) : GUID_t := default guid (sr_persistence_guid_map r !! guid).

Definition get_last_notified (guid : GUID_t) (r : StatefulReader) : SequenceNumber_t :=
  default sn_zero (sr_history_record r !! persistence_guid_of guid r).

Definition update_last_notified (guid : GUID_t) (seq : SequenceNumber_t) (r : StatefulReader) : SequenceNumber_t * StatefulReader :=
  let guid_to_look := persistence_guid_of guid r in
  let ret_val := default sn_zero (sr_history_record r !! guid_to_look) in
  (ret_val, if (ret_val <? seq)%sn then sr_set_record (<[guid_to_look := seq]> (sr_history_record r)) r else r).

Definition add_persistence_guid (guid persistence_guid : GUID_t) (r : StatefulReader) : StatefulReader :=
  if guid_eqb c_Guid_Unknown persistence_guid || guid_eqb persistence_guid guid then
    sr_set_persistence (<[guid := guid]> (sr_persistence_guid_map r))
      (<[guid := u16 (default 0 (sr_persistence_guid_count r !! guid) + 1)]> (sr_persistence_guid_count r)) r
  else
    let r1 := sr_set_persistence (<[guid := persistence_guid]> (sr_persistence_guid_map r))
                (<[persistence_guid := u16 (default 0 (sr_persistence_guid_count r !! persistence_guid) + 1)]>
                   (sr_persistence_guid_count r)) r in
    match sr_history_record r1 !! guid with
    | Some record => let r2 := snd (update_last_notified guid record r1) in sr_set_record (delete guid (sr_history_record r2)) r2
    | None => r1
    end.

(** [may_remove_history_record] is [!removed_by_lease]. *)
Definition remove_persistence_guid (guid persistence_guid : GUID_t) (removed_by_lease : bool) (r : StatefulReader) : StatefulReader :=
  let stored := if guid_eqb c_Guid_Unknown persistence_guid then guid else persistence_guid in
  let count := u16 (default 0 (sr_persistence_guid_count r !! stored) - 1) in
  let r1 := sr_set_persistence (delete guid (sr_persistence_guid_map r)) (<[stored := count]> (sr_persistence_guid_count r)) r in
  if (count <=? 0) && negb removed_by_lease
  then sr_set_record (delete stored (sr_history_record r1))
         (sr_set_persistence (sr_persistence_guid_map r1) (delete stored (sr_persistence_guid_count r1)) r1)
  else r1.

(** ** Proxies *)

(** [findWriterProxy] *)
Definition findWriterProxy (guid : GUID_t) (r : StatefulReader) : option nat :=
  let i := find_index (λ w, guid_eqb (wp_guid w) guid && is_alive_ w) (sr_writers r) in
  match sr_writers r !! i with Some _ => Some i | None => None end.

Definition matched_writer_lookup (guid : GUID_t) (r : StatefulReader) : option nat :=
  if negb (sr_is_alive r) then None else findWriterProxy guid r.

Definition matched_writer_is_matched (guid : GUID_t) (r : StatefulReader) : bool :=
  bool_decide (is_Some (matched_writer_lookup guid r)).

(** Whether the message is accepted and, if so, the proxy; framework messages have none. *)
Definition acceptMsgFrom (cf : ReaderConfig) (guid : GUID_t) (r : StatefulReader) : option (option nat) :=
  match findWriterProxy guid r with
  | Some i => Some (Some i)
  | None => if cf_accept_unknown_writers cf && ent_eqb (entityId guid) (cf_trusted_writer cf) then Some None else None
  end.

Definition matched_writers_guids (r : StatefulReader) : list GUID_t := wp_guid <$> sr_writers r.

Definition sr_changes (i : nat) (r : StatefulReader) : WriterChanges :=
  match sr_writers r !! i with
  | Some w => wp_changes w
  | None => {| changes_received_ := []; changes_from_writer_low_mark_ := sn_zero; max_sequence_number_ := sn_zero; last_notified_ := sn_zero |}
  end.

Definition sr_set_wc (i : nat) (c : WriterChanges) (r : StatefulReader) : StatefulReader :=
  sr_set_writers (alter (wp_set_changes c) i (sr_writers r)) r.

(** [pWP->irrelevant_change_set] and [pWP->received_change_set] *)
Definition sr_irrelevant_change_set (i : nat) (seq : SequenceNumber_t) (r : StatefulReader) : bool * StatefulReader :=
  let '(ret, c) := irrelevant_change_set seq (sr_changes i r) in (ret, sr_set_wc i c r).

Definition sr_received_change_set (i : nat) (seq : SequenceNumber_t) (r : StatefulReader) : bool * StatefulReader :=
  let '(ret, c) := received_change_set seq (sr_changes i r) in (ret, sr_set_wc i c r).

Definition assert_writer_liveliness (cf : ReaderConfig) (writer : GUID_t) : list SREffect :=
  if cf_finite_lease cf && cf_wlp cf then [AssertWriterLiveliness writer] else [].

(** ** Acknowledgements *)

(** [send_acknack] with a given set. *)
Definition send_acknack_set (i : nat) (sns : SequenceNumberSet_t) (is_final : bool) (r : StatefulReader) : StatefulReader * list SREffect :=
  match sr_writers r !! i with
  | None => (r, [])
  | Some w =>
      if negb (is_alive_ w) then (r, [])
      else if is_on_same_process_ w then (r, [])
      else let n := u32 (sr_acknack_count r + 1) in
           (sr_set_counts n (sr_nackfrag_count r) r, [AddAcknack (wp_guid w) sns n is_final])
  end.

(** [send_datasharing_ack] and [send_ack_if_datasharing]: the unread changes of the writer decide
    what is acknowledged. *)
Definition send_datasharing_ack (i : nat) (seq : SequenceNumber_t) (r : StatefulReader) : StatefulReader * list SREffect :=
  match sr_writers r !! i with
  | None => (r, [])
  | Some w =>
      match filter (λ c, negb (hc_isRead c) && guid_eqb (hc_guid c) (wp_guid w)) (m_changes (sr_history r)) with
      | c :: _ => if (hc_seq c <? seq)%sn then (r, []) else send_acknack_set i (bm_make (hc_seq c)) false r
      | [] => send_acknack_set i (bm_make (available_changes_max (wp_changes w) + 1)%sn) false r
      end
  end.

Definition send_ack_if_datasharing (i : nat) (seq : SequenceNumber_t) (r : StatefulReader) : StatefulReader * list SREffect :=
  match sr_writers r !! i with
  | Some w => if is_datasharing_writer_ w && negb (is_on_same_process_ w) then send_datasharing_ack i seq r else (r, [])
  | None => (r, [])
  end.

(** [find_cache_in_fragmented_process]: the iterator and the change, when it is incomplete. *)
Definition find_cache_in_fragmented_process (seq : SequenceNumber_t) (guid : GUID_t) (hint : nat) (h : ReaderHistory) : nat * option HistoryChange :=
  let '(it, change) := get_change_nts seq guid hint h in
  (it, match change with Some c => if is_fully_assembled (hc_change c) then None else Some c | None => None end).

(** One missing change of an ACKNACK: the set, the iterator of the history, the counter of NACK_FRAG
    messages and the messages. No result when the list of missing fragments leaves the buffer. *)
Definition acknack_one (guid : GUID_t) (h : ReaderHistory)
    (st : option (SequenceNumberSet_t * nat * Z * list SREffect)) (seq : SequenceNumber_t) :
    option (SequenceNumberSet_t * nat * Z * list SREffect) :=
  '(sns, history_iterator, nackfrag_count, effects) ← st;
  let '(ret_iterator, incomplete_change) := find_cache_in_fragmented_process seq guid history_iterator h in
  let it := if (ret_iterator =? length (m_changes h))%nat then history_iterator else ret_iterator in
  match incomplete_change with
  | None => Some (fst (bm_add sns seq), it, nackfrag_count, effects)
  | Some c =>
      frags ← get_missing_fragments (hc_change c);
      let n := u32 (nackfrag_count + 1) in
      Some (sns, it, n, effects ++ [AddNackFrag guid seq frags n])
  end.

(** [send_acknack] in response to a heartbeat. *)
Definition send_acknack (i : nat) (heartbeat_was_final : bool) (r : StatefulReader) : option (StatefulReader * list SREffect) :=
  match sr_writers r !! i with
  | None => Some (r, [])
  | Some w =>
      if negb (is_alive_ w) then Some (r, [])
      else if is_datasharing_writer_ w then Some (r, [])
      else
        let missing := missing_changes (wp_changes w) in
        if negb (bm_empty missing) || negb heartbeat_was_final then
          '(sns, _, nackfrag_count, effects) ←
            foldl (acknack_one (wp_guid w) (sr_history r))
              (Some (bm_make (available_changes_max (wp_changes w) + 1)%sn, O, sr_nackfrag_count r, []))
              (bm_for_each missing);
          let n := u32 (sr_acknack_count r + 1) in
          Some (sr_set_counts n nackfrag_count r, effects ++ [AddAcknack (wp_guid w) sns n (bm_empty sns)])
        else Some (r, [])
  end.

(** ** Changes that leave the history *)

Definition decrement_unread (r : StatefulReader) : StatefulReader :=
  if 0 <? sr_total_unread r then sr_set_unread (sr_total_unread r - 1) r else r.

Definition change_removed_by_history (c : HistoryChange) (r : StatefulReader) : bool * StatefulReader * list SREffect :=
  if sr_is_alive r then
    if is_fully_assembled (hc_change c) then
      let r1 := if negb (hc_isRead c) && (get_last_notified (hc_guid c) r >=? hc_seq c)%sn then decrement_unread r else r in
      match findWriterProxy (hc_guid c) r1 with
      | None => (false, r1, [])
      | Some i => let '(r2, effects) := send_ack_if_datasharing i (hc_seq c) r1 in (true, r2, effects)
      end
    else
      match findWriterProxy (hc_guid c) r with
      | None => (false, r, [])
      | Some i =>
          let '(_, r1) := sr_irrelevant_change_set i (hc_seq c) r in
          let '(r2, effects) := send_ack_if_datasharing i (hc_seq c) r1 in (true, r2, effects)
      end
  else (false, r, []).

(** The callback and the release of [ReaderHistory::remove_change_nts] for changes that are out of the
    vector. The code erases one change at a time; the callback looks at the others only for a writer
    with data sharing. *)
Fixpoint changes_removed (l : list HistoryChange) (r : StatefulReader) : StatefulReader * list SREffect :=
  match l with
  | [] => (r, [])
  | c :: l' =>
      let '(_, r1, e1) := change_removed_by_history c r in
      let '(r2, e2) := changes_removed l' r1 in
      (r2, e1 ++ ReleaseCache (hc_guid c) (hc_seq c) :: e2)
  end.

(** Removal through the virtual function of the history, with its callback. *)
Definition sr_remove_at (removal : nat) (r : StatefulReader) : StatefulReader * list SREffect :=
  let '(removed, h) := remove_change_nts removal (sr_history r) in
  changes_removed (match removed with Some c => [c] | None => [] end) (sr_set_history h r).

(** [History::remove_change] *)
Definition sr_remove_change (c : HistoryChange) (r : StatefulReader) : StatefulReader * list SREffect :=
  let it := find_change_nts c (sr_history r) in
  match m_changes (sr_history r) !! it with Some _ => sr_remove_at it r | None => (r, []) end.

(** [remove_changes_from], the payload pool being there. *)
Definition remove_changes_from (writerGUID : GUID_t) (r : StatefulReader) : StatefulReader * list SREffect :=
  foldl (λ '(r, e) c, let '(r', e') := sr_remove_change c r in (r', e ++ e')) (r, [])
    (filter (λ c, guid_eqb (hc_guid c) writerGUID) (m_changes (sr_history r))).

(** ** Notification *)

(** [do next_seq = prox->next_cache_change_to_be_notified(); while (next_seq != unknown && next_seq <= seq)];
    every round raises the last notified number, which the low mark bounds. *)
Fixpoint next_after (fuel : nat) (seq : SequenceNumber_t) (c : WriterChanges) : SequenceNumber_t * WriterChanges :=
  match fuel with
  | O => (sn_unknown, c)
  | S fuel' =>
      let '(next, c') := next_cache_change_to_be_notified c in
      if sn_neb next sn_unknown && (next <=? seq)%sn then next_after fuel' seq c' else (next, c')
  end.

Definition notify_fuel (c : WriterChanges) : nat := S (Z.to_nat (snz (changes_from_writer_low_mark_ c) - snz (last_notified_ c))).

(** The first loop of [NotifyChanges]: the changes that become available and the proxy's state;
    every round moves the iterator. *)
Fixpoint notify_loop (fuel : nat) (guid : GUID_t) (max_seq : SequenceNumber_t) (h : ReaderHistory) (it : nat)
    (next_seq : SequenceNumber_t) (c : WriterChanges) : list HistoryChange * WriterChanges :=
  match fuel with
  | O => ([], c)
  | S fuel' =>
      if sn_neb next_seq sn_unknown then
        let it' := fst (get_change_nts next_seq guid it h) in
        match m_changes h !! it' with
        | Some aux => if (hc_seq aux <=? max_seq)%sn then
                        let '(next', c') := next_after (notify_fuel c) (hc_seq aux) c in
                        let '(l, c'') := notify_loop fuel' guid max_seq h (S it') next' c' in (aux :: l, c'')
                      else ([], c)
        | None => ([], c)
        end
      else ([], c)
  end.

(** [while (c_SequenceNumber_Unknown != prox->next_cache_change_to_be_notified()) {}] *)
Fixpoint drain (fuel : nat) (c : WriterChanges) : WriterChanges :=
  match fuel with
  | O => c
  | S fuel' => let '(next, c') := next_cache_change_to_be_notified c in if sn_neb next sn_unknown then drain fuel' c' else c'
  end.

(** The loop of the individual notifications, which starts over in the history every time. *)
Fixpoint notify_individual (fuel : nat) (guid : GUID_t) (max_seq : SequenceNumber_t) (h : ReaderHistory)
    (next_seq : SequenceNumber_t) : list SREffect :=
  match fuel with
  | O => []
  | S fuel' =>
      if (next_seq <=? max_seq)%sn then
        match m_changes h !! fst (get_change_nts next_seq guid 0 h) with
        | Some aux => if (hc_seq aux <=? max_seq)%sn
                      then OnNewCacheChangeAdded guid (hc_seq aux) :: notify_individual fuel' guid max_seq h (hc_seq aux + 1)%sn
                      else []
        | None => []
        end
      else []
  end.

Definition NotifyChanges (cf : ReaderConfig) (i : nat) (r : StatefulReader) : StatefulReader * list SREffect :=
  match sr_writers r !! i with
  | None => (r, [])
  | Some w =>
      let guid := wp_guid w in
      let h := sr_history r in
      let max_seq := available_changes_max (wp_changes w) in
      let '(first_seq, c1) := next_cache_change_to_be_notified (wp_changes w) in
      let r1 := snd (update_last_notified guid max_seq r) in
      let '(notified, c2) := notify_loop (S (length (m_changes h))) guid max_seq h 0 first_seq c1 in
      let c3 := drain (notify_fuel c2) c2 in
      let r2 := sr_set_unread (u64 (sr_total_unread r1 + Z.of_nat (length notified))) (sr_set_wc i c3 r1) in
      let data := (λ c, OnDataNotify guid (sourceTimestamp (hc_change c))) <$> notified in
      match notified with
      | _ :: _ => if cf_listener cf
                  then (r2, data ++ OnDataAvailable guid first_seq max_seq ::
                            (if cf_notify_individual cf
                             then notify_individual (S (length (m_changes h))) guid max_seq h first_seq else []))
                  else (r2, data)
      | [] => (r2, data)
      end
  end.

(** ** Reception *)

(** A change as the pool hands it out. *)
Definition cc_blank : CacheChange_t :=
  {| cc_kind := ALIVE; writerGUID := c_Guid_Unknown; instanceHandle := None; sequenceNumber := sn_zero;
     serializedPayload := pl_default; inline_qos := pl_default; sourceTimestamp := time_zero; vendor_id := [0; 0];
     fragment_size_ := 0; fragment_count_ := 0; first_missing_fragment_ := 0 |}.

(** [CacheChange_t::copy_not_memcpy] *)
Definition copy_not_memcpy (ch dest : CacheChange_t) : CacheChange_t :=
  let payload := serializedPayload dest in
  let d := {| cc_kind := cc_kind ch; writerGUID := writerGUID ch; instanceHandle := instanceHandle ch;
              sequenceNumber := sequenceNumber ch;
              serializedPayload := Payload (pl_encapsulation (serializedPayload ch)) (pl_length payload) (pl_data payload)
                                     (pl_is_serialized_key (serializedPayload ch));
              inline_qos := inline_qos dest; sourceTimestamp := sourceTimestamp ch; vendor_id := vendor_id ch;
              fragment_size_ := fragment_size_ dest; fragment_count_ := fragment_count_ dest;
              first_missing_fragment_ := first_missing_fragment_ dest |} in
  default d (setFragmentSize (fragment_size_ ch) false d).

Definition cc_with_payload (p : SerializedPayload_t) (c : CacheChange_t) : CacheChange_t :=
  cc_set_fragments p (fragment_size_ c) (fragment_count_ c) (first_missing_fragment_ c) c.

Definition cc_with_inline_qos (q : SerializedPayload_t) (c : CacheChange_t) : CacheChange_t :=
  {| cc_kind := cc_kind c; writerGUID := writerGUID c; instanceHandle := instanceHandle c; sequenceNumber := sequenceNumber c;
     serializedPayload := serializedPayload c; inline_qos := q; sourceTimestamp := sourceTimestamp c; vendor_id := vendor_id c;
     fragment_size_ := fragment_size_ c; fragment_count_ := fragment_count_ c; first_missing_fragment_ := first_missing_fragment_ c |}.

Definition cc_with_handle (handle : InstanceHandle_t) (c : CacheChange_t) : CacheChange_t :=
  {| cc_kind := cc_kind c; writerGUID := writerGUID c; instanceHandle := handle; sequenceNumber := sequenceNumber c;
     serializedPayload := serializedPayload c; inline_qos := inline_qos c; sourceTimestamp := sourceTimestamp c; vendor_id := vendor_id c;
     fragment_size_ := fragment_size_ c; fragment_count_ := fragment_count_ c; first_missing_fragment_ := first_missing_fragment_ c |}.

Definition hc_with_change (c : CacheChange_t) (hc : HistoryChange) : HistoryChange :=
  {| hc_change := c; hc_isRead := hc_isRead hc; hc_receptionTimestamp := hc_receptionTimestamp hc; hc_ownership_strength := hc_ownership_strength hc |}.

Definition hc_with_reception (t : Time_t) (hc : HistoryChange) : HistoryChange :=
  {| hc_change := hc_change hc; hc_isRead := hc_isRead hc; hc_receptionTimestamp := t; hc_ownership_strength := hc_ownership_strength hc |}.

Definition hc_with_ownership (s : Z) (hc : HistoryChange) : HistoryChange :=
  {| hc_change := hc_change hc; hc_isRead := hc_isRead hc; hc_receptionTimestamp := hc_receptionTimestamp hc; hc_ownership_strength := s |}.

Definition hc_with_read (b : bool) (hc : HistoryChange) : HistoryChange :=
  {| hc_change := hc_change hc; hc_isRead := b; hc_receptionTimestamp := hc_receptionTimestamp hc; hc_ownership_strength := hc_ownership_strength hc |}.

Definition hc_new (c : CacheChange_t) : HistoryChange :=
  {| hc_change := c; hc_isRead := false; hc_receptionTimestamp := time_zero; hc_ownership_strength := 0 |}.

(** [change_is_relevant_for_filter]; a payload without data has no octets. *)
Definition change_is_relevant_for_filter (change : CacheChange_t) (flt : option (CacheChange_t → bool)) : bool :=
  if pl_is_serialized_key (serializedPayload change) then true
  else
    let no_data := bool_decide (pl_data (serializedPayload change) = []) in
    let ret := negb (no_data && (bool_decide (cc_kind change = ALIVE) || bool_decide (instanceHandle change = None))) in
    match flt with
    | Some is_relevant => if bool_decide (cc_kind change = ALIVE) && negb (is_relevant change) then false else ret
    | None => ret
    end.

(** Writes through the pointer to a change that is in the history. *)
Definition sr_alter_change (c : HistoryChange) (f : HistoryChange → HistoryChange) (r : StatefulReader) : StatefulReader :=
  sr_set_history (rh_set_changes (alter f (find_change_nts c (sr_history r)) (m_changes (sr_history r))) (sr_history r)) r.

Section Handlers.
Context {HO : ReaderHistoryOps} (cf : ReaderConfig).

Definition on_data_available_single (c : HistoryChange) : list SREffect :=
  if cf_listener cf
  then OnDataAvailable (hc_guid c) (hc_seq c) (hc_seq c) ::
         (if cf_notify_individual cf then [OnNewCacheChangeAdded (hc_guid c) (hc_seq c)] else [])
  else [].

(** A framework message of a writer without proxy. *)
Definition change_received_stateless (now : Time_t) (c : HistoryChange) (r : StatefulReader) : bool * StatefulReader * list SREffect :=
  if negb (ent_eqb (entityId (hc_guid c)) (cf_trusted_writer cf)) then (false, r, [])
  else if bool_decide (cc_kind (hc_change c) ≠ ALIVE) then (false, r, [])
  else if (get_last_notified (hc_guid c) r <? hc_seq c)%sn then
    let '(accepted, _, h, removed) := ho_received_change c 0 (sr_history r) in
    let '(r1, e1) := changes_removed removed (sr_set_history h r) in
    if accepted : bool then
      let r2 := snd (update_last_notified (hc_guid c) (SeqNum 0 1) (sr_alter_change c (hc_with_reception now) r1)) in
      (true, r2, e1 ++ on_data_available_single c)
    else (false, r1, e1)
  else (false, r, []).

Definition change_received_proxy (now : Time_t) (a_change : HistoryChange) (i : nat) (unknown_missing_changes_up_to : Z)
    (r : StatefulReader) : bool * StatefulReader * list SREffect :=
  let strength := if cf_exclusive_ownership cf
                  then match sr_writers r !! i with Some w => ownership_strength_ w | None => 0 end else 2 ^ 32 - 1 in
  let c := hc_with_ownership strength a_change in
  let '(accepted, rejection_reason, h, removed) := ho_received_change c unknown_missing_changes_up_to (sr_history r) in
  let '(r1, e1) := changes_removed removed (sr_set_history h r) in
  if accepted : bool then
    let '(ret, r2, e2) :=
      if is_fully_assembled (hc_change c) then let '(ret, r2) := sr_received_change_set i (hc_seq c) r1 in (ret, r2, [])
      else if (find_change_nts c (sr_history r1) =? length (m_changes (sr_history r1)))%nat then
        let '(_, r2) := sr_irrelevant_change_set i (hc_seq c) r1 in
        let '(r3, e) := send_ack_if_datasharing i (hc_seq c) r2 in (false, r3, e)
      else (true, r1, []) in
    let '(r4, e4) := NotifyChanges cf i (sr_alter_change c (hc_with_reception now) r2) in
    (ret, r4, e1 ++ e2 ++ e4 ++ [OnSubscribeThroughput (pl_length (serializedPayload (hc_change c)))])
  else if bool_decide (rejection_reason ≠ NOT_REJECTED) then
    let e2 := if cf_listener cf && (is_fully_assembled (hc_change c) || contains_first_fragment (hc_change c))
              then [OnSampleRejected rejection_reason (hc_guid c) (hc_seq c)] else [] in
    if bool_decide (rejection_reason = REJECTED_BY_INSTANCES_LIMIT) then
      let '(_, r2) := sr_irrelevant_change_set i (hc_seq c) r1 in
      let '(r3, e3) := NotifyChanges cf i r2 in (false, r3, e1 ++ e2 ++ e3)
    else (false, r1, e1 ++ e2)
  else (false, r1, e1).

Definition change_received (now : Time_t) (a_change : HistoryChange) (prox : option nat) (unknown_missing : Z)
    (r : StatefulReader) : bool * StatefulReader * list SREffect :=
  match prox with
  | Some i => change_received_proxy now a_change i unknown_missing r
  | None =>
      match findWriterProxy (hc_guid a_change) r with
      | None => change_received_stateless now a_change r
      | Some i => change_received_proxy now a_change i (unknown_missing_changes_up_to (hc_seq a_change) (sr_changes i r)) r
      end
  end.

(** A change that the history will never accept, or that the filter drops. *)
Definition discard_change (prox : option nat) (seq : SequenceNumber_t) (r : StatefulReader) : StatefulReader * list SREffect :=
  match prox with
  | None => (r, [])
  | Some i =>
      let '(_, r1) := sr_irrelevant_change_set i seq r in
      let '(r2, e2) := NotifyChanges cf i r1 in
      let '(r3, e3) := send_ack_if_datasharing i seq r2 in (r3, e2 ++ e3)
  end.

(** What the pools of changes and payloads answer, and the clock. [an_payload] is the buffer that
    [reserve_cache] gets for a fragmented sample. *)
Record PoolAnswers := {
  an_change : bool;
  an_copy : bool;
  an_payload : option (list Z);
  an_now : Time_t
}.

Definition process_data_msg (an : PoolAnswers) (change : CacheChange_t) (r : StatefulReader) : bool * StatefulReader * list SREffect :=
  let guid := writerGUID change in
  let seq := sequenceNumber change in
  if negb (sr_is_alive r) then (false, r, [])
  else
    match acceptMsgFrom cf guid r with
    | None => (false, r, [])
    | Some pWP =>
        if match pWP with Some i => change_was_received seq (sr_changes i r) | None => false end then (true, r, [])
        else
          let alive := assert_writer_liveliness cf guid in
          let unknown := match pWP with Some i => unknown_missing_changes_up_to seq (sr_changes i r) | None => 0 end in
          let '(can, never) := ho_can_change_be_added guid (pl_length (serializedPayload change)) unknown (sr_history r) in
          if negb can then
            let '(r1, e1) := if never : bool then discard_change pWP seq r else (r, []) in (false, r1, e1 ++ alive)
          else if negb (change_is_relevant_for_filter change (cf_filter cf)) then
            let '(r1, e1) := discard_change pWP seq r in (true, r1, e1 ++ alive)
          else if negb (an_change an) then (false, r, alive)
          else if negb (an_copy an) then (false, r, ReleaseCache guid seq :: alive)
          else
            let to_add := hc_new (cc_with_payload (serializedPayload change) (copy_not_memcpy change cc_blank)) in
            let '(ret, r1, e1) := change_received (an_now an) to_add pWP unknown r in
            if ret : bool then (true, r1, e1 ++ alive) else (false, r1, e1 ++ ReleaseCache guid seq :: alive)
    end.

(** The change of a fragmented sample that is not in the history yet. No result when the list of
    missing fragments does not fit in the buffer. *)
Definition reserve_fragmented (an : PoolAnswers) (incoming : CacheChange_t) (sampleSize : Z) : option (option HistoryChange * list SREffect) :=
  match an_payload an with
  | None => Some (None, [])
  | Some buffer =>
      if Z.of_nat (length buffer) <? sampleSize then Some (None, [ReleaseCache (writerGUID incoming) (sequenceNumber incoming)])
      else
        let c := copy_not_memcpy incoming (cc_with_payload (Payload 0 0 buffer false) cc_blank) in
        let p := serializedPayload c in
        let c1 := cc_with_handle None (cc_with_payload (Payload (pl_encapsulation p) sampleSize (pl_data p) (pl_is_serialized_key p)) c) in
        c2 ← setFragmentSize (fragment_size_ incoming) true c1;
        Some (Some (hc_new c2), [])
  end.

(** The fragments of the submessage, with the handle that comes with the first one. *)
Definition store_fragments (incoming : CacheChange_t) (fragmentStartingNum fragmentsInSubmessage : Z) (c : CacheChange_t) : option CacheChange_t :=
  let c1 := if bool_decide (instanceHandle c = None) && (fragmentStartingNum =? 1) then cc_with_handle (instanceHandle incoming) c else c in
  '(_, c2) ← add_fragments (serializedPayload incoming) fragmentStartingNum fragmentsInSubmessage c1;
  Some c2.

(** The change is complete. *)
Definition fragmented_completed (incoming : CacheChange_t) (i : nat) (unknown : Z) (work : HistoryChange) (r : StatefulReader) :
    StatefulReader * list SREffect :=
  let '(completed, rejection_reason, h) := ho_completed_change work unknown (sr_history r) in
  let r1 := sr_set_history h r in
  if completed : bool then
    let '(_, r2) := sr_received_change_set i (hc_seq work) r1 in
    let filtered_out := negb (change_is_relevant_for_filter (cc_with_inline_qos (inline_qos incoming) (hc_change work)) (cf_filter cf)) in
    let '(r3, e3) := if filtered_out then sr_remove_change work r2 else (r2, []) in
    let '(r4, e4) := NotifyChanges cf i r3 in (r4, e3 ++ e4)
  else
    let e2 := if bool_decide (rejection_reason ≠ NOT_REJECTED) && cf_listener cf
              then [OnSampleRejected rejection_reason (hc_guid work) (hc_seq work)] else [] in
    let has_to_notify := bool_decide (rejection_reason = REJECTED_BY_INSTANCES_LIMIT) in
    let r2 := if has_to_notify then snd (sr_irrelevant_change_set i (hc_seq work) r1) else r1 in
    let '(r3, e3) := sr_remove_change work r2 in
    let '(r4, e4) := if has_to_notify then NotifyChanges cf i r3 else (r3, []) in (r4, e2 ++ e3 ++ e4).

(** The steps of [process_data_frag_msg] for a sample that the history can take. *)
Definition receive_fragments (an : PoolAnswers) (incoming : CacheChange_t) (sampleSize fragmentStartingNum fragmentsInSubmessage : Z)
    (i : nat) (unknown : Z) (r : StatefulReader) : option (StatefulReader * list SREffect) :=
  match get_change (sequenceNumber incoming) (writerGUID incoming) (sr_history r) with
  | Some work =>
      c ← store_fragments incoming fragmentStartingNum fragmentsInSubmessage (hc_change work);
      let work' := hc_with_change c work in
      let r1 := sr_alter_change work (λ _, work') r in
      Some (if is_fully_assembled c then fragmented_completed incoming i unknown work' r1 else (r1, []))
  | None =>
      '(reserved, e0) ← reserve_fragmented an incoming sampleSize;
      match reserved with
      | None => Some (r, e0)
      | Some work =>
          c ← store_fragments incoming fragmentStartingNum fragmentsInSubmessage (hc_change work);
          let work' := hc_with_change c work in
          let '(ret, r1, e1) := change_received (an_now an) work' (Some i) unknown r in
          if negb ret then Some (r1, e1 ++ [ReleaseCache (hc_guid work) (hc_seq work)])
          else if is_fully_assembled c then let '(r2, e2) := fragmented_completed incoming i unknown work' r1 in Some (r2, e1 ++ e2)
          else Some (r1, e1)
      end
  end.

Definition process_data_frag_msg (an : PoolAnswers) (incoming : CacheChange_t) (sampleSize fragmentStartingNum fragmentsInSubmessage : Z)
    (r : StatefulReader) : option (bool * StatefulReader * list SREffect) :=
  let guid := writerGUID incoming in
  let seq := sequenceNumber incoming in
  if negb (sr_is_alive r) then Some (false, r, [])
  else
    match acceptMsgFrom cf guid r with
    | Some (Some i) =>
        let alive := assert_writer_liveliness cf guid in
        if change_was_received seq (sr_changes i r) then Some (true, r, alive)
        else
          let unknown := unknown_missing_changes_up_to seq (sr_changes i r) in
          let '(can, never) := ho_can_change_be_added guid sampleSize unknown (sr_history r) in
          if negb can then
            let '(r1, e1) := if never : bool then discard_change (Some i) seq r else (r, []) in Some (false, r1, e1 ++ alive)
          else
            '(r1, e1) ← receive_fragments an incoming sampleSize fragmentStartingNum fragmentsInSubmessage i unknown r;
            Some (true, r1, e1 ++ alive)
    | _ => Some (true, r, [])
    end.

(** ** Heartbeats and gaps *)

Definition process_heartbeat_msg (writerGUID : GUID_t) (hbCount : Z) (firstSN lastSN : SequenceNumber_t)
    (finalFlag livelinessFlag : bool) (r : StatefulReader) : bool * StatefulReader * list SREffect :=
  if negb (sr_is_alive r) then (false, r, [])
  else
    match acceptMsgFrom cf writerGUID r with
    | Some (Some i) =>
        match sr_writers r !! i with
        | None => (false, r, [])
        | Some w =>
            let '(result, w1, we) := process_heartbeat hbCount firstSN lastSN finalFlag livelinessFlag
                                       (cf_disable_positive_acks cf) 0 w in
            let r1 := sr_set_writers (<[i := w1]> (sr_writers r)) r in
            let e1 := FromWriter writerGUID <$> we in
            if hb_processed result then
              let '(removed, h) := remove_fragmented_changes_until firstSN writerGUID (sr_history r1) in
              let '(r2, e2) := changes_removed removed (sr_set_history h r1) in
              let e3 := if (0 <? hb_sample_lost result) && cf_listener cf then [OnSampleLost (hb_sample_lost result)] else [] in
              let '(r4, e4) := NotifyChanges cf i r2 in
              let by_topic k := match k with MANUAL_BY_TOPIC_LIVELINESS => true | _ => false end in
              let e5 := if hb_assert_liveliness result && cf_finite_lease cf &&
                           (by_topic (cf_liveliness_kind cf) || by_topic (liveliness_kind_ w1)) && cf_wlp cf
                        then [AssertWriterLiveliness writerGUID] else [] in
              (true, r4, e1 ++ e2 ++ e3 ++ e4 ++ e5)
            else (true, r1, e1)
        end
    | _ => (false, r, [])
    end.

(** One number of a GAP, [seq]; the incomplete change of the number [lookup] is removed with
    [History::remove_change_nts], which does not call the reader. The iterator of the history goes on
    from one number to the next. *)
Definition gap_one (guid : GUID_t) (i : nat) (lookup seq : SequenceNumber_t) (st : StatefulReader * nat * list SREffect) :
    StatefulReader * nat * list SREffect :=
  let '(r, history_iterator, effects) := st in
  let '(ret, r1) := sr_irrelevant_change_set i seq r in
  if ret : bool then
    let h := sr_history r1 in
    let '(ret_iterator, to_remove) := find_cache_in_fragmented_process lookup guid history_iterator h in
    match to_remove with
    | Some c => (sr_set_history (snd (remove_change_nts ret_iterator h)) r1, ret_iterator, effects ++ [ReleaseCache (hc_guid c) (hc_seq c)])
    | None => (r1, if (ret_iterator =? length (m_changes h))%nat then history_iterator else ret_iterator, effects)
    end
  else (r1, history_iterator, effects).

(** [for (auxSN = gapStart; auxSN < finalSN; auxSN++)] with [n] rounds. *)
Fixpoint gap_loop (n : nat) (guid : GUID_t) (i : nat) (auxSN : SequenceNumber_t) (st : StatefulReader * nat * list SREffect) :
    StatefulReader * nat * list SREffect :=
  match n with
  | O => st
  | S n' => gap_loop n' guid i (sn_incr auxSN) (gap_one guid i auxSN auxSN st)
  end.

(** After the loop [auxSN] is the base of the list, and the lambda over the list looks that number
    up for every element. *)
Definition process_gap_msg (writerGUID : GUID_t) (gapStart : SequenceNumber_t) (gapList : SequenceNumberSet_t) (r : StatefulReader) :
    bool * StatefulReader * list SREffect :=
  if negb (sr_is_alive r) || (gapStart <? SeqNum 0 1)%sn || (base_ gapList <=? gapStart)%sn then (false, r, [])
  else
    match acceptMsgFrom cf writerGUID r with
    | Some (Some i) =>
        let finalSN := base_ gapList in
        let st := gap_loop (Z.to_nat (snz finalSN - snz gapStart)) writerGUID i gapStart (r, O, []) in
        let '(r1, _, e1) := foldl (λ st it, gap_one writerGUID i finalSN it st) st (bm_for_each gapList) in
        let '(r2, e2) := NotifyChanges cf i r1 in (true, r2, e1 ++ e2)
    | _ => (false, r, [])
    end.

(** ** Timers of the proxies

    The proxy's callback and the call it makes to [send_acknack]. *)

Definition heartbeat_response (i : nat) (r : StatefulReader) : option (StatefulReader * list SREffect) :=
  match sr_writers r !! i with
  | None => Some (r, [])
  | Some w =>
      match perform_heartbeat_response w with
      | (w', [SendAcknack was_final]) => send_acknack i was_final (sr_set_writers (<[i := w']> (sr_writers r)) r)
      | (w', _) => Some (sr_set_writers (<[i := w']> (sr_writers r)) r, [])
      end
  end.

Definition initial_acknack (i : nat) (r : StatefulReader) : bool * StatefulReader * list SREffect :=
  match sr_writers r !! i with
  | None => (false, r, [])
  | Some w =>
      let '(again, w', we) := perform_initial_ack_nack w in
      let r1 := sr_set_writers (<[i := w']> (sr_writers r)) r in
      match we with
      | [SendAcknackSet sns final] => let '(r2, e2) := send_acknack_set i sns final r1 in (again, r2, e2)
      | _ => (again, r1, FromWriter (wp_guid w) <$> we)
      end
  end.

(** ** Matching *)

Definition matched_writer_add_edp (now : Z) (wdata : WriterProxyData) (r : StatefulReader) : bool * StatefulReader * list SREffect :=
  if negb (sr_is_alive r) then (false, r, [])
  else
    let is_same_process := rd_should_intraprocess (cf_reader_info cf) (wd_guid wdata) in
    let i := find_index (λ w, guid_eqb (wp_guid w) (wd_guid wdata)) (sr_writers r) in
    match sr_writers r !! i with
    | Some w =>
        let w' := wp_update wdata w in
        (false, sr_set_writers (<[i := w']> (sr_writers r)) r,
         (if cf_exclusive_ownership cf && negb (ownership_strength_ w =? wd_ownership_strength wdata)
          then [UpdateOwnershipStrength (wp_guid w) (wd_ownership_strength wdata)] else []) ++
         (if negb is_same_process then CreateSenderResources <$> wp_remote_locators w' else []) ++
         (if cf_listener cf then [OnWriterDiscovery CHANGED_QOS_WRITER (wd_guid wdata)] else []))
    | None =>
        match (match last (sr_writers_pool r) with
               | Some w => Some (w, removelast (sr_writers_pool r), [])
               | None => if Z.of_nat (length (sr_writers r) + length (sr_writers_pool r)) <? cf_max_writers cf
                         then let '(w, we) := wp_make (cf_reader_info cf) now in Some (w, sr_writers_pool r, FromWriter c_Guid_Unknown <$> we)
                         else None
               end) with
        | None => (false, r, [])
        | Some (wp, pool, e0) =>
            let r1 := add_persistence_guid (wd_guid wdata) (wd_persistence_guid wdata) (sr_set_pool pool r) in
            let '(wp', we) := wp_start wdata (get_last_notified (wd_guid wdata) r1) false wp in
            (true, sr_set_writers (sr_writers r1 ++ [wp']) r1,
             e0 ++ (FromWriter (wd_guid wdata) <$> we) ++
             (if negb is_same_process then CreateSenderResources <$> wp_remote_locators wp' else []) ++
             (if cf_finite_lease cf && cf_wlp cf then [LivelinessAddWriter (wd_guid wdata)] else []) ++
             (if cf_listener cf then [OnWriterDiscovery DISCOVERED_WRITER (wd_guid wdata)] else []))
        end
    end.

Definition matched_writer_remove (writer_guid : GUID_t) (removed_by_lease : bool) (r : StatefulReader) : bool * StatefulReader * list SREffect :=
  if negb (sr_is_alive r) then (false, r, [])
  else
    let '(removed, h) := writer_unmatched writer_guid (sr_history r) in
    let '(r1, e1) := changes_removed removed (sr_set_history h r) in
    let i := find_index (λ w, guid_eqb (wp_guid w) writer_guid) (sr_writers r1) in
    match sr_writers r1 !! i with
    | None => (false, r1, e1)
    | Some w =>
        let r2 := remove_persistence_guid (wp_guid w) (persistence_guid_ w) removed_by_lease
                    (sr_set_writers (erase_at i (sr_writers r1)) r1) in
        let '(w', we) := wp_stop w in
        (true, sr_set_pool (sr_writers_pool r2 ++ [w']) r2,
         e1 ++ (FromWriter writer_guid <$> we) ++
         (if cf_listener cf then [OnWriterDiscovery REMOVED_WRITER writer_guid] else []) ++
         (if cf_finite_lease cf && cf_wlp cf then [LivelinessRemoveWriter writer_guid] else []))
    end.
End Handlers.

(** ** Access of the application *)

(** [next_untaken_cache] and [next_unread_cache]: the loop over the history removes the changes
    whose writer is no longer matched. The fuel is the number of changes to look at. *)
Fixpoint next_cache (fuel : nat) (skip_read : bool) (it : nat) (r : StatefulReader) : option HistoryChange * StatefulReader * list SREffect :=
  match fuel with
  | O => (None, r, [])
  | S fuel' =>
      match m_changes (sr_history r) !! it with
      | None => (None, r, [])
      | Some c =>
          if skip_read && hc_isRead c then next_cache fuel' skip_read (S it) r
          else
            match matched_writer_lookup (hc_guid c) r with
            | Some i => if (available_changes_max (sr_changes i r) <? hc_seq c)%sn then next_cache fuel' skip_read (S it) r
                        else (Some c, r, [])
            | None => let '(r1, e1) := sr_remove_at it r in
                      let '(res, r2, e2) := next_cache fuel' skip_read it r1 in (res, r2, e1 ++ e2)
            end
      end
  end.

Definition next_untaken_cache (r : StatefulReader) : option HistoryChange * StatefulReader * list SREffect :=
  if negb (sr_is_alive r) then (None, r, []) else next_cache (length (m_changes (sr_history r))) false 0 r.

Definition next_unread_cache (r : StatefulReader) : option HistoryChange * StatefulReader * list SREffect :=
  if negb (sr_is_alive r) then (None, r, []) else next_cache (length (m_changes (sr_history r))) true 0 r.

Definition begin_sample_access_nts (c : HistoryChange) (r : StatefulReader) : option nat * bool :=
  match matched_writer_lookup (hc_guid c) r with
  | Some i => (Some i, (available_changes_max (sr_changes i r) <? hc_seq c)%sn)
  | None => (None, false)
  end.

Definition end_sample_access_nts (c : HistoryChange) (writer : option nat) (mark_as_read : bool) (r : StatefulReader) : StatefulReader * list SREffect :=
  let r1 := if mark_as_read && negb (hc_isRead c) then decrement_unread (sr_alter_change c (hc_with_read true) r) else r in
  if mark_as_read then match writer with Some i => send_ack_if_datasharing i (hc_seq c) r1 | None => (r1, []) end else (r1, []).

(** The loop of [get_unread_count(true)]. *)
Fixpoint mark_all_read (r : StatefulReader) (l : list HistoryChange) (unread : Z) : list HistoryChange * Z :=
  match l with
  | [] => ([], unread)
  | c :: l' =>
      if 0 <? unread then
        let hit := negb (hc_isRead c) && (get_last_notified (hc_guid c) r >=? hc_seq c)%sn in
        let '(l2, n) := mark_all_read r l' (if hit then unread - 1 else unread) in ((if hit then hc_with_read true c else c) :: l2, n)
      else (l, unread)
  end.

Definition get_unread_count (mark_as_read : bool) (r : StatefulReader) : Z * StatefulReader :=
  (sr_total_unread r,
   if mark_as_read
   then let '(l, n) := mark_all_read r (m_changes (sr_history r)) (sr_total_unread r) in
        sr_set_unread n (sr_set_history (rh_set_changes l (sr_history r)) r)
   else r).

Definition is_in_clean_state (r : StatefulReader) : bool :=
  if sr_is_alive r then forallb (λ w, number_of_changes_from_writer (wp_changes w) =? 0) (sr_writers r) else true.

Definition updateTimes (old new : Duration_t) (r : StatefulReader) : StatefulReader :=
  if sr_is_alive r && negb ((dur_seconds old =? dur_seconds new) && (dur_nanosec old =? dur_nanosec new))
  then sr_set_writers (update_heartbeat_response_interval new <$> sr_writers r) r else r.

(** The constructor. *)
Definition sr_make (cf : ReaderConfig) (att : HistoryAttributes) (initial_writers : nat) (now : Z) : StatefulReader :=
  {| sr_writers := []; sr_writers_pool := replicate initial_writers (fst (wp_make (cf_reader_info cf) now));
     sr_history := {| m_att := att; m_changes := []; m_isHistoryFull := false |};
     sr_persistence_guid_map := ∅; sr_persistence_guid_count := ∅; sr_history_record := ∅;
     sr_acknack_count := 0; sr_nackfrag_count := 0; sr_total_unread := 0; sr_is_alive := true |}.
