(* ===== verification/StatefulReaderFacts.v ===== *)
(** * What the stateful reader notifies

    The loops of [NotifyChanges] against a filter of the history. *)

From Stdlib Require Import ZArith Lia ZifyBool Sorting.Sorted.
From stdpp Require Import gmap base numbers list option list_numbers sorting sets.
From S2P Require Import Prelude SequenceNumber BitmapRange Bytes Guid TimedEvent Time CacheChange SortedRange.
From S2P Require Import ReaderHistory ReaderHistoryFacts WriterProxy WriterProxyFacts WriterProxyTheorems StatefulReader.

Open Scope Z_scope.

(** ** The number to be notified next *)

Lemma set_notified_ok n c :
  wc_ok c → sn_ok n → snz n <= snz (changes_from_writer_low_mark_ c) → wc_ok (set_notified n c).
Proof. intros [] Hn Hle. by constructor. Qed.

Lemma next_cases c : wc_ok c →
  (snz (last_notified_ c) < snz (available_changes_max c) ∧
   ∃ n, next_cache_change_to_be_notified c = (n, set_notified n c) ∧ sn_ok n ∧ snz n = snz (last_notified_ c) + 1) ∨
  (last_notified_ c = available_changes_max c ∧ next_cache_change_to_be_notified c = (sn_unknown, c)).
Proof.
  intros Hok. pose proof (next_notified_spec c Hok) as H. pose proof (wc_notified c Hok).
  unfold next_cache_change_to_be_notified, available_changes_max in *.
  rewrite sn_ltb_snz in * by (apply sn_ok_wf, Hok).
  destruct (Z.ltb_spec (snz (last_notified_ c)) (snz (changes_from_writer_low_mark_ c))); [left|right].
  - destruct H as (Hok' & _ & _ & _ & E). split; [done|]. eexists. split; [done|]. split; [apply Hok' | done].
  - split; [|done]. apply sn_val_inj; [apply sn_ok_wf, Hok.. | lia].
Qed.

Lemma neb_unknown n : sn_ok n → sn_neb n sn_unknown = true.
Proof. intros Hn. rewrite sn_neb_snz by first [done | by apply sn_ok_wf]. pose proof (sn_ok_range _ Hn). change (snz sn_unknown) with (- 2 ^ 32). lia. Qed.

(** The inner loop leaves the number after [seq], or none when [seq] was the last one. *)
Lemma next_after_spec seq : sn_ok seq → ∀ fuel c,
  wc_ok c → snz (last_notified_ c) <= snz seq <= snz (available_changes_max c) →
  (Z.to_nat (snz (available_changes_max c) - snz (last_notified_ c)) < fuel)%nat →
  (snz seq < snz (available_changes_max c) ∧
   ∃ n, next_after fuel seq c = (n, set_notified n c) ∧ sn_ok n ∧ snz n = snz seq + 1) ∨
  (seq = available_changes_max c ∧ next_after fuel seq c = (sn_unknown, set_notified seq c)).
Proof.
  intros Hs. induction fuel as [|fuel IH]; intros c Hok Hle Hf; [lia|]. cbn [next_after].
  destruct (next_cases c Hok) as [(Hlt & n & -> & Hn & En)|(E & ->)].
  - rewrite neb_unknown, sn_leb_snz by (done || by apply sn_ok_wf). cbn [andb]. zif.
    + assert (wc_ok (set_notified n c)) as Hok' by (apply set_notified_ok; [done | done | unfold available_changes_max in *; lia]).
      destruct (IH (set_notified n c)) as [(Hlt' & m & -> & Hm)|(E' & ->)]; cbn; try (done || unfold available_changes_max in *; cbn; lia).
      * left. split; [done|]. by exists m.
      * right. done.
    + left. split; [lia|]. exists n. split_and!; [done | done | lia].
  - right. rewrite <- E in Hle. assert (seq = last_notified_ c) as -> by (apply sn_val_inj; [apply sn_ok_wf; (done || apply Hok).. | lia]).
    split; [done|]. cbn. by destruct c.
Qed.

Lemma drain_spec fuel : ∀ c, wc_ok c → (Z.to_nat (snz (available_changes_max c) - snz (last_notified_ c)) < fuel)%nat →
  drain fuel c = set_notified (available_changes_max c) c.
Proof.
  induction fuel as [|fuel IH]; intros c Hok Hf; [lia|]. cbn [drain].
  destruct (next_cases c Hok) as [(Hlt & n & -> & Hn & En)|(E & ->)].
  - rewrite neb_unknown by done. rewrite IH; [done | apply set_notified_ok; [done..|unfold available_changes_max in *; lia]
                                             | unfold available_changes_max in *; cbn; lia].
  - cbn. rewrite <- E. by destruct c.
Qed.

(** ** Changes of a writer in an interval *)

Definition wanted (g : GUID_t) (lo hi : Z) (c : HistoryChange) : bool :=
  bool_decide (hc_guid c = g) && (lo <=? snz (hc_seq c)) && (snz (hc_seq c) <=? hi).

Definition wanted_of (g : GUID_t) (lo hi : Z) (l : list HistoryChange) : list HistoryChange := filter (λ c, wanted g lo hi c) l.

Lemma wanted_spec g lo hi c : wanted g lo hi c = true ↔ hc_guid c = g ∧ lo <= snz (hc_seq c) <= hi.
Proof. unfold wanted. rewrite !andb_true_iff, bool_decide_eq_true, !Z.leb_le. tauto. Qed.

Lemma filter_none {A} (p : A → bool) l : (∀ c, c ∈ l → p c = false) → filter (λ c, p c) l = [].
Proof.
  induction l as [|c l IH]; intros H; [done|]. rewrite filter_cons_False; [apply IH; intros; apply H; set_solver|].
  rewrite (H c) by set_solver. by intros [].
Qed.

Lemma wanted_of_none g lo hi l : (∀ c, c ∈ l → hc_guid c = g → lo <= snz (hc_seq c) <= hi → False) → wanted_of g lo hi l = [].
Proof.
  intros H. apply filter_none. intros c Hc. destruct (wanted g lo hi c) eqn:E; [|done]. apply wanted_spec in E as [Eg Es].
  destruct (H c Hc Eg Es).
Qed.

Lemma wanted_of_app g lo hi l1 l2 : wanted_of g lo hi (l1 ++ l2) = wanted_of g lo hi l1 ++ wanted_of g lo hi l2.
Proof. apply filter_app. Qed.

Lemma wanted_of_ext g lo lo' hi l :
  (∀ c, c ∈ l → hc_guid c = g → lo <= snz (hc_seq c) ↔ lo' <= snz (hc_seq c)) → wanted_of g lo hi l = wanted_of g lo' hi l.
Proof.
  intros H. unfold wanted_of. induction l as [|c l IH]; [done|]. rewrite !filter_cons, IH by (intros; apply H; [by apply list_elem_of_further | done]).
  assert (wanted g lo hi c = wanted g lo' hi c) as ->; [|done].
  apply eq_bool_prop_intro. rewrite !Is_true_true, !wanted_spec. specialize (H c ltac:(apply list_elem_of_here)). intuition.
Qed.

(** One lookup of the loops: what is wanted from the iterator on is the change it stops at, if it is
    in the interval, and what is wanted of the rest. *)
Lemma wanted_lookup g seq hi l it :
  ordered l → guid_ok g → sn_ok seq →
  let it' := fst (get_change_from seq g (drop it l) it) in
  (it <= it')%nat ∧
  match l !! it' with
  | Some aux => hc_guid aux = g ∧ sn_ok (hc_seq aux) ∧ snz seq <= snz (hc_seq aux) ∧
                wanted_of g (snz seq) hi (drop it l) =
                if snz (hc_seq aux) <=? hi then aux :: wanted_of g (snz (hc_seq aux) + 1) hi (drop (S it') l) else []
  | None => wanted_of g (snz seq) hi (drop it l) = []
  end.
Proof.
  intros Hl Hg Hs. pose proof (ordered_drop it l Hl) as Hd.
  destruct (get_change_from_spec seq g (drop it l) Hg (sn_ok_wf _ Hs) (proj1 Hd) it) as (k & -> & Hk & Hlt & Hat).
  cbv zeta. split; [lia|]. rewrite lookup_drop in Hat. destruct (l !! (it + k)%nat) as [aux|] eqn:Ea.
  - destruct Hat as (Eg & Hle & _). assert (hc_ok aux) as (_ & Hsa & _) by (by apply (ordered_elem l), list_elem_of_lookup_2 with (it + k)%nat).
    split_and!; [done | done | done |].
    assert (drop it l = take k (drop it l) ++ aux :: drop (S (it + k)) l) as ->.
    { rewrite <- (take_drop k (drop it l)) at 1. f_equal. rewrite drop_drop. by apply drop_S. }
    rewrite wanted_of_app, (wanted_of_none _ _ _ (take k _)) by (intros c Hc Ec; specialize (Hlt c Hc Ec); lia). cbn [app].
    assert (∀ c, c ∈ drop (S (it + k)) l → hc_guid c = g → snz (hc_seq aux) < snz (hc_seq c)) as Htail.
    { intros c [j Hj]%list_elem_of_lookup Ec. rewrite lookup_drop in Hj.
      destruct (ordered_lookup_lt l (it + k) (S (it + k) + j) aux c) as [_ H]; [done | lia | done..|].
      destruct H; [unfold same_writer; congruence | done]. }
    unfold wanted_of at 1. destruct (Z.leb_spec (snz (hc_seq aux)) hi).
    + rewrite filter_cons_True by (apply Is_true_true, wanted_spec; split; [done | lia]). f_equal. apply wanted_of_ext.
      intros c Hc Ec. specialize (Htail c Hc Ec). lia.
    + rewrite filter_cons_False by (rewrite Is_true_true, wanted_spec; lia). apply wanted_of_none. intros c Hc Ec.
      specialize (Htail c Hc Ec). lia.
  - apply wanted_of_none. intros c Hc Ec. apply lookup_ge_None in Ea. rewrite take_ge in Hlt by (rewrite length_drop; lia).
    specialize (Hlt c Hc Ec). lia.
Qed.

(** ** The loops of [NotifyChanges] *)

Lemma wanted_of_empty g lo hi l : hi < lo → wanted_of g lo hi l = [].
Proof. intros. apply wanted_of_none. lia. Qed.

Lemma notify_loop_spec g h : ordered (m_changes h) → guid_ok g → ∀ fuel it next c,
  wc_ok c → (length (m_changes h) - it < fuel)%nat →
  (sn_ok next ∧ snz next = snz (last_notified_ c) ∨ next = sn_unknown ∧ last_notified_ c = available_changes_max c) →
  ∃ n, notify_loop fuel g (available_changes_max c) h it next c =
       (if sn_neb next sn_unknown then wanted_of g (snz next) (snz (available_changes_max c)) (drop it (m_changes h)) else [],
        set_notified n c) ∧ wc_ok (set_notified n c).
Proof.
  intros Ho Hg. induction fuel as [|fuel IH]; intros it next c Hok Hf Hnext; [lia|]. cbn [notify_loop].
  assert (∃ n, c = set_notified n c ∧ wc_ok (set_notified n c)) as (n0 & E0 & Hok0) by (exists (last_notified_ c); by destruct c).
  destruct Hnext as [[Hn En]|[-> El]]; [|exists n0; by rewrite <- E0]. rewrite neb_unknown by done.
  destruct (wanted_lookup g next (snz (available_changes_max c)) (m_changes h) it Ho Hg Hn) as [Hit Hat].
  unfold get_change_nts. cbv zeta in *. set (it' := fst (get_change_from _ _ _ _)) in *.
  destruct (m_changes h !! it') as [aux|] eqn:Ea; [|exists n0; rewrite Hat; by rewrite <- E0].
  destruct Hat as (Eg & Hsa & Hle & ->). assert (sn_ok (available_changes_max c)) as Hav by apply Hok.
  rewrite sn_leb_snz by (by apply sn_ok_wf). destruct (Z.leb_spec (snz (hc_seq aux)) (snz (available_changes_max c)));
    [|exists n0; by rewrite <- E0].
  pose proof (lookup_lt_Some _ _ _ Ea) as Hlen.
  destruct (next_after_spec (hc_seq aux) Hsa (notify_fuel c) c Hok) as [(Hlt & m & -> & Hm & Em)|(E & ->)]; [lia|unfold notify_fuel, available_changes_max; lia| |].
  - assert (wc_ok (set_notified m c)) as Hok' by (apply set_notified_ok; [done | done | unfold available_changes_max in *; lia]).
    destruct (IH (S it') m (set_notified m c) Hok') as (n & E & Hokn); [lia | by left|].
    change (available_changes_max (set_notified m c)) with (available_changes_max c) in E. rewrite E, neb_unknown by done.
    exists n. by rewrite Em.
  - assert (wc_ok (set_notified (hc_seq aux) c)) as Hok' by (apply set_notified_ok; [done | done | unfold available_changes_max in *; lia]).
    destruct (IH (S it') sn_unknown (set_notified (hc_seq aux) c) Hok') as (n & E' & Hokn); [lia | by right; rewrite E|].
    change (available_changes_max (set_notified (hc_seq aux) c)) with (available_changes_max c) in E'.
    rewrite E'. exists n. change (sn_neb sn_unknown sn_unknown) with false. cbv iota. by rewrite wanted_of_empty by (rewrite <- E; lia).
Qed.

Lemma notify_individual_spec g max h : ordered (m_changes h) → guid_ok g → sn_ok max → ∀ fuel next,
  sn_ok next → (length (wanted_of g (snz next) (snz max) (m_changes h)) < fuel)%nat →
  notify_individual fuel g max h next =
  (λ c, OnNewCacheChangeAdded g (hc_seq c)) <$> wanted_of g (snz next) (snz max) (m_changes h).
Proof.
  intros Ho Hg Hm. induction fuel as [|fuel IH]; intros next Hn Hf; [lia|]. cbn [notify_individual].
  rewrite sn_leb_snz by (by apply sn_ok_wf). destruct (Z.leb_spec (snz next) (snz max)); [|by rewrite wanted_of_empty by lia].
  destruct (wanted_lookup g next (snz max) (m_changes h) 0 Ho Hg Hn) as [_ Hat]. unfold get_change_nts. cbv zeta in *.
  set (it' := fst (get_change_from _ _ _ _)) in *. destruct (m_changes h !! it') as [aux|] eqn:Ea; [|by rewrite drop_0 in Hat; rewrite Hat].
  destruct Hat as (Eg & Hsa & Hle & Ew). rewrite drop_0 in Ew. rewrite Ew in Hf |- *. rewrite sn_leb_snz by (by apply sn_ok_wf).
  destruct (Z.leb_spec (snz (hc_seq aux)) (snz max)) as [Hlm|]; [|done]. rewrite fmap_cons. f_equal.
  assert (wanted_of g (snz (hc_seq aux) + 1) (snz max) (drop (S it') (m_changes h)) =
          wanted_of g (snz (hc_seq aux) + 1) (snz max) (m_changes h)) as Ed.
  { rewrite <- (take_drop (S it') (m_changes h)) at 2. rewrite wanted_of_app, (wanted_of_none _ _ _ (take _ _)); [done|].
    intros c [j Hj]%list_elem_of_lookup Ec. apply lookup_take_Some in Hj as [Hj Hlt]. destruct (Nat.eq_dec j it') as [->|]; [replace c with aux by congruence; lia|].
    destruct (ordered_lookup_lt (m_changes h) j it' c aux) as [_ H']; [done | lia | done..|]. destruct H'; [unfold same_writer; congruence | lia]. }
  rewrite Ed in Hf |- *. destruct (sn_ok_add (hc_seq aux) 1 Hsa ltac:(zwidth)) as [Hw E1].
  destruct (Z.eq_dec (snz (hc_seq aux)) (snz max)).
  - rewrite wanted_of_empty by lia. cbn. destruct fuel as [|fuel]; [done|]. cbn [notify_individual].
    rewrite sn_leb_snz by (done || by apply sn_ok_wf). destruct (Z.leb_spec (snz (hc_seq aux + 1)%sn) (snz max)); [lia | done].
  - assert (sn_ok (hc_seq aux + 1)%sn) as Hok1 by (apply sn_ok_iff; [done|]; pose proof (sn_ok_range _ Hm); pose proof (sn_ok_range _ Hsa); lia).
    rewrite (IH _ Hok1); [by rewrite E1 | rewrite E1; cbn in Hf; lia].
Qed.

(** The changes that [NotifyChanges] makes available. *)
Definition new_changes (w : WriterProxy) (h : ReaderHistory) : list HistoryChange :=
  wanted_of (wp_guid w) (snz (last_notified_ (wp_changes w)) + 1) (snz (available_changes_max (wp_changes w))) (m_changes h).

(** The calls to the listener for the new changes [l] of the writer [g]. *)
Definition listener_calls (cf : ReaderConfig) (g : GUID_t) (first last : SequenceNumber_t) (l : list HistoryChange) : list SREffect :=
  ((λ c, OnDataNotify g (sourceTimestamp (hc_change c))) <$> l) ++
  (if bool_decide (l ≠ []) && cf_listener cf
   then OnDataAvailable g first last :: (if cf_notify_individual cf then (λ c, OnNewCacheChangeAdded g (hc_seq c)) <$> l else [])
   else []).

Definition notified_proxy (w : WriterProxy) : WriterProxy :=
  wp_set_changes (set_notified (available_changes_max (wp_changes w)) (wp_changes w)) w.

Lemma alter_eq_insert {A} (f : A → A) i (l : list A) x : l !! i = Some x → alter f i l = <[i := f x]> l.
Proof.
  revert i. induction l as [|y l IH]; intros [|i] H; [done | done | by injection H as -> |]. cbn. f_equal. by apply IH.
Qed.

Lemma update_last_notified_other g s r :
  let r' := snd (update_last_notified g s r) in
  sr_writers r' = sr_writers r ∧ sr_history r' = sr_history r ∧ sr_total_unread r' = sr_total_unread r ∧
  sr_writers_pool r' = sr_writers_pool r ∧ sr_is_alive r' = sr_is_alive r ∧
  sr_persistence_guid_map r' = sr_persistence_guid_map r ∧ sr_persistence_guid_count r' = sr_persistence_guid_count r.
Proof. unfold update_last_notified. cbn. by destruct (_ <? _)%sn. Qed.

Lemma NotifyChanges_spec cf i w r :
  sr_writers r !! i = Some w → wc_ok (wp_changes w) → guid_ok (wp_guid w) → ordered (m_changes (sr_history r)) →
  NotifyChanges cf i r =
  (let l := new_changes w (sr_history r) in
   let max := available_changes_max (wp_changes w) in
   let r1 := snd (update_last_notified (wp_guid w) max r) in
   (sr_set_unread (u64 (sr_total_unread r + Z.of_nat (length l))) (sr_set_writers (<[i := notified_proxy w]> (sr_writers r)) r1),
    listener_calls cf (wp_guid w) (fst (next_cache_change_to_be_notified (wp_changes w))) max l)).
Proof.
  intros Hw Hok Hg Ho. unfold NotifyChanges. rewrite Hw.
  assert (sn_ok (available_changes_max (wp_changes w))) as Hav by apply Hok.
  destruct (update_last_notified_other (wp_guid w) (available_changes_max (wp_changes w)) r) as (E1 & _ & E3 & _).
  destruct (next_cache_change_to_be_notified (wp_changes w)) as [first c1] eqn:En.
  assert (∃ m, c1 = set_notified m (wp_changes w) ∧ wc_ok c1 ∧
    (sn_ok first ∧ snz first = snz (last_notified_ c1) ∧ snz first = snz (last_notified_ (wp_changes w)) + 1 ∨
     first = sn_unknown ∧ last_notified_ c1 = available_changes_max c1 ∧ last_notified_ (wp_changes w) = available_changes_max (wp_changes w)))
    as (m & Ec1 & Hok1 & Hfirst).
  { destruct (next_cases _ Hok) as [(Hlt & n & E & Hn & Hn1)|(E & E')]; rewrite En in *.
    - injection E as -> ->. exists n. split_and!; [done | |left; done]. by apply set_notified_ok; [..|unfold available_changes_max in *; lia].
    - injection E' as -> ->. exists (last_notified_ (wp_changes w)). split_and!; [by destruct (wp_changes w) | done | by right]. }
  assert (available_changes_max c1 = available_changes_max (wp_changes w)) as Ea by (by rewrite Ec1).
  destruct (notify_loop_spec (wp_guid w) (sr_history r) Ho Hg (S (length (m_changes (sr_history r)))) 0 first c1 Hok1) as (n & En' & Hokn); [lia | destruct Hfirst as [(? & ? & _)|(? & ? & _)]; [by left | by right]|].
  rewrite Ea, drop_0 in En'. rewrite En'.
  assert ((if sn_neb first sn_unknown then wanted_of (wp_guid w) (snz first) (snz (available_changes_max (wp_changes w))) (m_changes (sr_history r)) else [])
          = new_changes w (sr_history r)) as ->.
  { unfold new_changes. destruct Hfirst as [(Hf & _ & ->)|(-> & _ & ->)]; [by rewrite neb_unknown|]. cbn. by rewrite wanted_of_empty by lia. }
  rewrite drain_spec by (done || unfold notify_fuel, available_changes_max; lia).
  unfold sr_set_wc. rewrite E1, (alter_eq_insert _ _ _ w Hw), E3. cbn [sr_set_writers sr_total_unread].
  assert (set_notified (available_changes_max (set_notified n c1)) (set_notified n c1) =
          set_notified (available_changes_max (wp_changes w)) (wp_changes w)) as ->.
  { change (available_changes_max (set_notified n c1)) with (available_changes_max c1). rewrite Ea, Ec1. done. }
  fold (notified_proxy w). set (l := new_changes w (sr_history r)). unfold listener_calls. cbn [fst].
  assert (cf_notify_individual cf = true → l ≠ [] → notify_individual (S (length (m_changes (sr_history r)))) (wp_guid w) (available_changes_max (wp_changes w)) (sr_history r) first
          = (λ c, OnNewCacheChangeAdded (wp_guid w) (hc_seq c)) <$> l) as Hind.
  { intros _ Hne. destruct Hfirst as [(Hf & _ & E)|(_ & _ & E)].
    - rewrite notify_individual_spec by (done || (unfold wanted_of; pose proof (length_filter (λ c, wanted (wp_guid w) (snz first) (snz (available_changes_max (wp_changes w))) c) (m_changes (sr_history r))); lia)).
      by rewrite E.
    - destruct Hne. apply wanted_of_empty. rewrite E. lia. }
  destruct l as [|c l'] eqn:El; [done|]. rewrite bool_decide_true by done. cbn [andb].
  destruct (cf_listener cf); [|by rewrite app_nil_r]. destruct (cf_notify_individual cf); [|done]. by rewrite Hind.
Qed.
