(* ===== verification/StatefulReaderInvariant.v ===== *)
(** * The proxies and the history of a reader stay in step

    [store_ok ws l]: every change of the history [l] belongs to a matched writer,
    and is complete exactly when its proxy counts its number as received. The
    primitive updates of the handlers keep it. *)

From Stdlib Require Import ZArith Lia ZifyBool Sorting.Sorted.
From stdpp Require Import gmap base numbers list option list_numbers sorting sets.
From S2P Require Import Prelude SequenceNumber BitmapRange BitmapFacts Bytes Guid TimedEvent Time CacheChange SortedRange.
From S2P Require Import ReaderHistory ReaderHistoryFacts WriterProxy WriterProxyFacts WriterProxyTheorems StatefulReader StatefulReaderFacts.

Open Scope Z_scope.

(** ** The invariant *)

(** A proxy of a matched writer. *)
Record running (w : WriterProxy) : Prop := {
  run_ok : wp_ok w;
  run_state : wp_state_ w ≠ STOPPED;
  run_guid : guid_ok (wp_guid w)
}.

(** The proxy [w] and the change [c] of its writer agree. *)
Definition in_step (w : WriterProxy) (c : HistoryChange) : Prop :=
  is_fully_assembled (hc_change c) = true ↔ wc_received (wp_changes w) (snz (hc_seq c)).

Definition tracked (ws : list WriterProxy) (c : HistoryChange) : Prop :=
  ∃ i w, ws !! i = Some w ∧ wp_guid w = hc_guid c ∧ in_step w c.

Record store_ok (ws : list WriterProxy) (l : list HistoryChange) : Prop := {
  so_running : Forall running ws;
  so_distinct : NoDup (wp_guid <$> ws);
  so_ordered : ordered l;
  so_tracked : ∀ c, c ∈ l → tracked ws c
}.

Record sr_ok (r : StatefulReader) : Prop := {
  sr_store_ok : store_ok (sr_writers r) (m_changes (sr_history r));
  sr_pool_ok : Forall (λ w, wp_ok w ∧ wp_state_ w = STOPPED) (sr_writers_pool r);
  sr_record_ok : map_Forall (λ _ s, sn_ok s) (sr_history_record r)
}.

(** ** Proxies *)

Section Writers.
Context (ws : list WriterProxy) (Hrun : Forall running ws) (Hnd : NoDup (wp_guid <$> ws)).

Lemma writer_running i w : ws !! i = Some w → running w.
Proof using Hrun. intros Hw. by apply (proj1 (Forall_lookup _ _) Hrun i). Qed.

Lemma running_alive w : running w → is_alive_ w = true.
Proof. intros [Hok Hs _]. rewrite (wp_alive w Hok). by rewrite bool_decide_true. Qed.

Lemma writer_unique i j w v : ws !! i = Some w → ws !! j = Some v → wp_guid w = wp_guid v → i = j.
Proof using Hnd.
  intros Hi Hj E. eapply NoDup_lookup; [exact Hnd | |]; rewrite list_lookup_fmap; [by rewrite Hi | by rewrite Hj, E].
Qed.

Lemma find_writer_index i w g (p : WriterProxy → bool) :
  (∀ v, running v → p v = true ↔ wp_guid v = g) → ws !! i = Some w → wp_guid w = g → find_index p ws = i.
Proof using Hrun Hnd.
  intros Hp Hw Eg. apply find_index_Some with w; [done | apply Hp; [by eapply writer_running | done]|].
  intros j v Hv Ev. apply Hp in Ev; [|by eapply writer_running]. eapply writer_unique; [done..|congruence].
Qed.

Lemma find_writer_at g (p : WriterProxy → bool) w :
  (∀ v, running v → p v = true ↔ wp_guid v = g) → ws !! find_index p ws = Some w → wp_guid w = g.
Proof using Hrun. intros Hp Hw. destruct (find_index_spec p ws) as [_ Hat]. by apply Hp; [eapply writer_running | apply Hat]. Qed.

Lemma alive_guid g v : guid_ok g → running v → guid_eqb (wp_guid v) g && is_alive_ v = true ↔ wp_guid v = g.
Proof. intros Hg Hv. rewrite running_alive, andb_true_r by done. apply guid_eqb_eq; [apply Hv | done]. Qed.
End Writers.

Section Find.
Context (r : StatefulReader) (Hrun : Forall running (sr_writers r)) (Hnd : NoDup (wp_guid <$> sr_writers r)).

Lemma findWriterProxy_Some i w g : guid_ok g → sr_writers r !! i = Some w → wp_guid w = g → findWriterProxy g r = Some i.
Proof using Hrun Hnd.
  intros Hg Hw Eg. unfold findWriterProxy. rewrite (find_writer_index _ Hrun Hnd i w g); [by rewrite Hw | | done..].
  intros v Hv. by apply alive_guid.
Qed.

Lemma findWriterProxy_inv i g : guid_ok g → findWriterProxy g r = Some i → ∃ w, sr_writers r !! i = Some w ∧ wp_guid w = g ∧ running w.
Proof using Hrun.
  intros Hg. unfold findWriterProxy. destruct (sr_writers r !! find_index _ (sr_writers r)) as [w|] eqn:E; [|done]. intros [= <-].
  exists w. split_and!; [done | | by eapply writer_running]. eapply find_writer_at; [done | | exact E]. intros v Hv. by apply alive_guid.
Qed.
End Find.

(** ** Updates of the store *)

(** What the order of the history looks at. *)
Definition hkey (c : HistoryChange) : GUID_t * SequenceNumber_t * Time_t := (hc_guid c, hc_seq c, sourceTimestamp (hc_change c)).

Lemma comes_after_key a b a' b' : hkey a' = hkey a → hkey b' = hkey b → comes_after a b → comes_after a' b'.
Proof. unfold hkey, comes_after, same_writer, hts. intros [= -> -> ->] [= -> -> ->]. done. Qed.

Lemma hc_ok_key a b : hkey a = hkey b → hc_ok b → hc_ok a.
Proof. unfold hkey, hc_ok. by intros [= -> -> ->]. Qed.

Lemma ordered_rekey l : ∀ l', hkey <$> l' = hkey <$> l → ordered l → ordered l'.
Proof.
  induction l as [|c l IH]; intros [|c' l'] E Ho; try done. rewrite !fmap_cons in E. apply (inj2 cons) in E as [Ek El]. destruct Ho as [Hok Hs].
  apply Forall_cons_iff in Hok as [Hc Hok]. apply StronglySorted_inv in Hs as [Hs Hall].
  destruct (IH l' El (conj Hok Hs)) as [Hok' Hs']. split.
  - constructor; [by apply (hc_ok_key c' c) | done].
  - constructor; [done|]. apply Forall_lookup. intros j x Hx. assert ((hkey <$> l') !! j = (hkey <$> l) !! j) as E by (by f_equal).
    rewrite !list_lookup_fmap, Hx in E. destruct (l !! j) as [y|] eqn:Ey; [|done]. apply (inj Some) in E.
    eapply comes_after_key; [exact Ek | exact E | by apply (proj1 (Forall_lookup _ _) Hall j)].
Qed.

Lemma store_rekey ws l l' : hc_change <$> l' = hc_change <$> l → store_ok ws l → store_ok ws l'.
Proof.
  intros E [Hr Hn Ho Ht]. constructor; [done | done | |].
  - eapply ordered_rekey, Ho. assert (∀ k, hkey <$> k = (λ c, (writerGUID c, sequenceNumber c, sourceTimestamp c)) <$> (hc_change <$> k)) as Ek
      by (intros k; rewrite <- list_fmap_compose; done).
    by rewrite !Ek, E.
  - intros c Hc. apply (list_elem_of_fmap_2 hc_change) in Hc. rewrite E in Hc. apply list_elem_of_fmap in Hc as (c' & Ec & Hc').
    destruct (Ht c' Hc') as (i & w & Hw & Eg & Hs). exists i, w. unfold in_step, hc_guid, hc_seq in *. rewrite Ec. done.
Qed.

Lemma store_update ws l i w w' l' :
  store_ok ws l → ws !! i = Some w → running w' → wp_guid w' = wp_guid w → ordered l' →
  (∀ c, c ∈ l' → hc_guid c = wp_guid w → in_step w' c) → (∀ c, c ∈ l' → hc_guid c ≠ wp_guid w → c ∈ l) →
  store_ok (<[i := w']> ws) l'.
Proof.
  intros [Hr Hn Ho Ht] Hw Hw' Eg Ho' Hown Hother. apply lookup_lt_Some in Hw as Hlen. constructor; [by apply Forall_insert | | done |].
  - rewrite list_fmap_insert, Eg, list_insert_id; [done|]. by rewrite list_lookup_fmap, Hw.
  - intros c Hc. destruct (decide (hc_guid c = wp_guid w)) as [E|E].
    + exists i, w'. split_and!; [by apply list_lookup_insert_eq | congruence | by apply Hown].
    + destruct (Ht c (Hother c Hc E)) as (j & v & Hv & Ev & Hs). exists j, v. split_and!; [|done..].
      rewrite list_lookup_insert_ne; [done|]. intros <-. congruence.
Qed.

Lemma store_subset ws l l' : store_ok ws l → ordered l' → (∀ c, c ∈ l' → c ∈ l) → store_ok ws l'.
Proof. intros [Hr Hn Ho Ht] Ho' Hs. constructor; auto. Qed.

Lemma store_in_step ws l i w c : store_ok ws l → ws !! i = Some w → c ∈ l → hc_guid c = wp_guid w → in_step w c.
Proof.
  intros [Hr Hn Ho Ht] Hw Hc Eg. destruct (Ht c Hc) as (j & v & Hv & Ev & Hs).
  assert (j = i) as -> by (eapply writer_unique; [exact Hn | done | done | congruence]). congruence.
Qed.

(** The proxy [w'] counts one more number as received. *)
Definition also_received (w : WriterProxy) (z : Z) (w' : WriterProxy) : Prop :=
  running w' ∧ wp_guid w' = wp_guid w ∧ ∀ y, wc_received (wp_changes w') y ↔ wc_received (wp_changes w) y ∨ y = z.

Lemma mark_spec i w seq r :
  sr_writers r !! i = Some w → running w → sn_ok seq →
  let '(ret, r') := sr_received_change_set i seq r in
  ∃ w', r' = sr_set_writers (<[i := w']> (sr_writers r)) r ∧ also_received w (snz seq) w' ∧
        (ret = true ↔ ¬ wc_received (wp_changes w) (snz seq)).
Proof.
  intros Hw Hr Hs. unfold sr_received_change_set, sr_changes, sr_set_wc. rewrite Hw.
  pose proof (received_change_set_spec seq _ (wp_changes_ok w (run_ok w Hr)) Hs) as H.
  destruct (received_change_set seq (wp_changes w)) as [ret c']. destruct H as (Hok & Hret & Hrec & _).
  exists (wp_set_changes c' w). rewrite (alter_eq_insert _ _ _ w Hw). split_and!; [done | split_and!; [|done | done] | done].
  constructor; [|apply Hr..]. by apply wp_set_changes_ok; [apply Hr..|].
Qed.

Lemma mark_irrelevant i seq r : sr_irrelevant_change_set i seq r = sr_received_change_set i seq r.
Proof. done. Qed.

(** Marking a number keeps the store when no incomplete change has it. *)
Lemma store_mark ws l i w w' z :
  store_ok ws l → ws !! i = Some w → also_received w z w' →
  (∀ c, c ∈ l → hc_guid c = wp_guid w → snz (hc_seq c) = z → is_fully_assembled (hc_change c) = true) →
  store_ok (<[i := w']> ws) l.
Proof.
  intros Hst Hw (Hr & Eg & Hrec) Hz. eapply store_update; [done | done | done | done | apply Hst | | done].
  intros c Hc Ec. pose proof (store_in_step _ _ _ _ _ Hst Hw Hc Ec) as Hi. unfold in_step in *. rewrite Hrec, <- Hi. split; [by left|]. intros [|E]; [done | by apply Hz].
Qed.

(** ** Steps that leave the store alone *)

Record same_store (r r' : StatefulReader) : Prop := {
  same_writers : sr_writers r' = sr_writers r;
  same_history : sr_history r' = sr_history r;
  same_pool : sr_writers_pool r' = sr_writers_pool r;
  same_record : sr_history_record r' = sr_history_record r;
  same_alive : sr_is_alive r' = sr_is_alive r
}.

#[global] Instance same_store_preorder : PreOrder same_store.
Proof. split; [by constructor | intros r1 r2 r3 [] []; constructor; congruence]. Qed.

Lemma sr_ok_same r r' : same_store r r' → sr_ok r → sr_ok r'.
Proof. intros [E1 E2 E3 E4 _] []. constructor; rewrite ?E1, ?E2, ?E3, ?E4; done. Qed.

Lemma send_acknack_set_same i sns final r : same_store r (fst (send_acknack_set i sns final r)).
Proof. unfold send_acknack_set. destruct (sr_writers r !! i); [|done]. zif; by constructor. Qed.

Lemma send_datasharing_same i seq r : same_store r (fst (send_ack_if_datasharing i seq r)).
Proof.
  unfold send_ack_if_datasharing, send_datasharing_ack. destruct (sr_writers r !! i) as [w|] eqn:Ew; [|done]. destruct (_ && _); [|done].
  destruct (filter _ _); [apply send_acknack_set_same|]. destruct (_ <? _)%sn; [done | apply send_acknack_set_same].
Qed.

Lemma decrement_unread_same r : same_store r (decrement_unread r).
Proof. unfold decrement_unread. zif; by constructor. Qed.

Lemma send_acknack_same i final r r' e : send_acknack i final r = Some (r', e) → same_store r r'.
Proof.
  unfold send_acknack. destruct (sr_writers r !! i) as [w|]; [|by intros [= <- <-]].
  destruct (negb (is_alive_ w)); [by intros [= <- <-]|]. destruct (is_datasharing_writer_ w); [by intros [= <- <-]|].
  destruct (_ || _); [|by intros [= <- <-]]. intros H. apply bind_Some in H as ([[[sns it] n] e'] & _ & H). injection H as <- _. by constructor.
Qed.

(** ** Notification *)

Lemma running_notified w : running w → running (notified_proxy w).
Proof.
  intros [Hok Hs Hg]. constructor; [|done..]. apply wp_set_changes_ok; [done..|].
  apply set_notified_ok; [apply Hok | apply Hok | unfold available_changes_max; lia].
Qed.

Lemma update_last_notified_ok g s r : sn_ok s → map_Forall (λ _ s, sn_ok s) (sr_history_record r) →
  map_Forall (λ _ s, sn_ok s) (sr_history_record (snd (update_last_notified g s r))).
Proof. intros Hs Hm. unfold update_last_notified. cbn. destruct (_ <? _)%sn; [|done]. by apply map_Forall_insert_2. Qed.

Lemma NotifyChanges_ok cf i r : sr_ok r → sr_ok (fst (NotifyChanges cf i r)).
Proof.
  intros [Hst Hp Hm]. destruct (sr_writers r !! i) as [w|] eqn:Hw; [|unfold NotifyChanges; by rewrite Hw].
  pose proof (writer_running _ (so_running _ _ Hst) i w Hw) as Hr. assert (wc_ok (wp_changes w)) as Hc by apply Hr.
  rewrite (NotifyChanges_spec cf i w) by (done || apply Hr || apply Hst). cbn [fst].
  destruct (update_last_notified_other (wp_guid w) (available_changes_max (wp_changes w)) r) as (_ & E2 & _ & E4 & _).
  constructor; cbn [sr_set_unread sr_set_writers sr_writers sr_history sr_writers_pool sr_history_record].
  - rewrite E2. eapply store_update; [done | done | by apply running_notified | done | apply Hst | | done].
    intros c Hc' Ec. apply (store_in_step _ _ _ _ _ Hst Hw Hc' Ec).
  - by rewrite E4.
  - by apply update_last_notified_ok; [apply Hc|].
Qed.

(** ** Removals *)

Lemma sr_set_writers_ok r ws : sr_ok r → store_ok ws (m_changes (sr_history r)) → sr_ok (sr_set_writers ws r).
Proof. intros [] ?. by constructor. Qed.

(** A change that left the history: no other one has its number. *)
Definition apart (c : HistoryChange) (l : list HistoryChange) : Prop :=
  hc_ok c ∧ ∀ c', c' ∈ l → hc_guid c' = hc_guid c → snz (hc_seq c') ≠ snz (hc_seq c).

Lemma change_removed_ok c r : sr_ok r → apart c (m_changes (sr_history r)) →
  let r' := snd (fst (change_removed_by_history c r)) in sr_ok r' ∧ sr_history r' = sr_history r ∧ sr_is_alive r' = sr_is_alive r.
Proof.
  intros Hok [Hc Ha]. unfold change_removed_by_history. destruct (sr_is_alive r) eqn:Eal; [|done].
  destruct (is_fully_assembled (hc_change c)).
  - set (r1 := if (negb _ && _) : bool then decrement_unread r else r). assert (same_store r r1) as H1 by (subst r1; zif; [apply decrement_unread_same | done]).
    destruct (findWriterProxy (hc_guid c) r1) as [i|].
    + pose proof (send_datasharing_same i (hc_seq c) r1) as H2. destruct (send_ack_if_datasharing i (hc_seq c) r1) as [r2 e].
      assert (same_store r r2) as H by (by transitivity r1). split_and!; [by eapply sr_ok_same | apply H | cbn; rewrite <- Eal; apply H].
    + split_and!; [by eapply sr_ok_same | apply H1 | cbn; rewrite <- Eal; apply H1].
  - destruct (findWriterProxy (hc_guid c) r) as [i|] eqn:Ef; [|done].
    destruct (findWriterProxy_inv r (so_running _ _ (sr_store_ok r Hok)) i (hc_guid c)) as (w & Hw & Eg & Hr); [apply Hc | done|].
    rewrite mark_irrelevant. pose proof (mark_spec i w (hc_seq c) r Hw Hr (proj1 (proj2 Hc))) as Hm.
    destruct (sr_received_change_set i (hc_seq c) r) as [ret r1]. destruct Hm as (w' & -> & Hal & _).
    set (r1 := sr_set_writers _ r). pose proof (send_datasharing_same i (hc_seq c) r1) as H2.
    destruct (send_ack_if_datasharing i (hc_seq c) r1) as [r2 e]. split_and!; [|apply H2 | cbn; rewrite <- Eal; apply H2].
    eapply sr_ok_same; [exact H2|]. apply sr_set_writers_ok; [done|]. eapply store_mark; [apply Hok | done | done|].
    intros c' Hc' Ec Es. destruct (Ha c' Hc'); [congruence | done].
Qed.

Lemma changes_removed_ok l : ∀ r, sr_ok r → (∀ c, c ∈ l → apart c (m_changes (sr_history r))) →
  let r' := fst (changes_removed l r) in sr_ok r' ∧ sr_history r' = sr_history r ∧ sr_is_alive r' = sr_is_alive r.
Proof.
  induction l as [|c l IH]; intros r Hok Ha; cbn [changes_removed]; [done|].
  pose proof (change_removed_ok c r Hok (Ha c (list_elem_of_here _ _))) as H.
  destruct (change_removed_by_history c r) as [[b r1] e1]. destruct H as (H1 & E1 & E2). cbn in H1, E1, E2.
  specialize (IH r1 H1). rewrite E1, E2 in IH. destruct (changes_removed l r1) as [r2 e2]. cbn.
  apply IH. intros c' Hc'. apply Ha. by apply list_elem_of_further.
Qed.
