(* ===== verification/StatefulReaderSteps.v ===== *)
(** * The handlers of the stateful reader keep the invariant

    The handlers as a step relation, each under the conditions on the message that it needs,
    and the invariant [sr_ok] of the reachable readers. *)

From Stdlib Require Import ZArith Lia ZifyBool Sorting.Sorted.
From stdpp Require Import gmap base numbers list option list_numbers sorting sets.
From S2P Require Import Prelude SequenceNumber BitmapRange BitmapFacts Bytes Guid TimedEvent Time CacheChange SortedRange.
From S2P Require Import ReaderHistory ReaderHistoryFacts WriterProxy WriterProxyFacts WriterProxyTheorems StatefulReader StatefulReaderFacts.
From S2P Require Import StatefulReaderInvariant.

Open Scope Z_scope.

(** ** Removal from the history *)

Lemma sr_set_history_ok r h : sr_ok r → store_ok (sr_writers r) (m_changes h) → sr_ok (sr_set_history h r).
Proof. intros [] ?. by constructor. Qed.

Lemma erased_in {A} n (l : list A) x : x ∈ erase_at n l → x ∈ l.
Proof. unfold erase_at. rewrite elem_of_app. intros [H|H]; [by apply subseteq_take in H | by apply subseteq_drop in H]. Qed.

Lemma ordered_erase n l : ordered l → ordered (erase_at n l).
Proof.
  intros [Hok Hs]. unfold erase_at. split.
  - apply Forall_app. split; [by apply Forall_take | by apply Forall_drop].
  - rewrite <- (take_drop n l) in Hs. apply StronglySorted_app in Hs as (H & H1 & H2). apply StronglySorted_app. split_and!; [|done|].
    + intros a b Ha Hb. apply H; [done|]. replace (S n) with (n + 1)%nat in Hb by lia. rewrite <- drop_drop in Hb. by apply subseteq_drop in Hb.
    + replace (S n) with (n + 1)%nat by lia. rewrite <- drop_drop. rewrite <- (take_drop 1 (drop n l)) in H2. by apply StronglySorted_app in H2 as (_ & _ & ?).
Qed.

Lemma apart_erase n l c : ordered l → l !! n = Some c → apart c (erase_at n l).
Proof.
  intros Ho Hc. split; [apply (ordered_elem l); [done | by apply list_elem_of_lookup_2 with n]|]. intros c' Hc' Eg Es.
  unfold erase_at in Hc'. rewrite elem_of_app in Hc'. destruct Hc' as [[j Hj]%list_elem_of_lookup|[j Hj]%list_elem_of_lookup].
  - apply lookup_take_Some in Hj as [Hj Hlt]. destruct (ordered_lookup_lt l j n c' c) as [_ H]; [done..|]. destruct (H Eg). lia.
  - rewrite lookup_drop in Hj. destruct (ordered_lookup_lt l n (S n + j) c c') as [_ H]; [done | lia | done..|]. destruct (H (eq_sym Eg)). lia.
Qed.

Lemma sr_remove_at_ok n r : sr_ok r → sr_ok (fst (sr_remove_at n r)).
Proof.
  intros Hok. pose proof (so_ordered _ _ (sr_store_ok r Hok)) as Ho. unfold sr_remove_at, remove_change_nts.
  destruct (m_changes (sr_history r) !! n) as [c|] eqn:Ec; cbn [changes_removed]; [|by apply sr_set_history_ok, Hok].
  set (h := rh_not_full _). assert (sr_ok (sr_set_history h r)) as Hok'.
  { apply sr_set_history_ok; [done|]. apply store_subset with (m_changes (sr_history r)); [apply Hok | by apply ordered_erase | by apply erased_in]. }
  destruct (changes_removed_ok [c] _ Hok') as (H & _); [|done]. intros c' ->%list_elem_of_singleton. by apply apart_erase.
Qed.

Lemma sr_remove_change_ok c r : sr_ok r → sr_ok (fst (sr_remove_change c r)).
Proof. intros Hok. unfold sr_remove_change. destruct (m_changes (sr_history r) !! _); [by apply sr_remove_at_ok | done]. Qed.

(** ** Lookup from an iterator *)

(** The iterator [it] is not past a change of the writer [g] with a number from [z] on. *)
Definition it_ok (g : GUID_t) (z : Z) (it : nat) (l : list HistoryChange) : Prop :=
  ∀ c, c ∈ take it l → hc_guid c = g → snz (hc_seq c) < z.

Lemma hint_lookup seq g l it : ordered l → guid_ok g → sn_wf seq → it_ok g (snz seq) it l →
  let '(k, res) := get_change_from seq g (drop it l) it in
  it_ok g (snz seq) k l ∧
  match res with
  | Some c => l !! k = Some c ∧ hc_guid c = g ∧ snz (hc_seq c) = snz seq
  | None => ∀ c, c ∈ l → hc_guid c = g → snz (hc_seq c) ≠ snz seq
  end.
Proof.
  intros Ho Hg Hs Hit. destruct (get_change_from_spec seq g (drop it l) Hg Hs (proj1 (ordered_drop it l Ho)) it) as (k & Ek & Hk & Hlt & Hat).
  destruct (get_change_from seq g (drop it l) it) as [k' res]. cbn in Ek, Hat. subst k'.
  assert (it_ok g (snz seq) (it + k) l) as Hit'.
  { intros c Hc Eg. rewrite <- take_take_drop in Hc. apply elem_of_app in Hc as [Hc|Hc]; [by apply Hit | by apply Hlt]. }
  split; [done|]. rewrite lookup_drop in Hat. destruct (l !! (it + k)%nat) as [b|] eqn:Eb.
  - destruct Hat as (Eg & Hle & ->). destruct (Z.eqb_spec (snz (hc_seq b)) (snz seq)) as [E|E]; [done|].
    intros c [j Hj]%list_elem_of_lookup Ec Es. destruct (Nat.lt_total j (it + k)) as [H|[->|H]].
    + specialize (Hit' c). rewrite Es in Hit'. assert (snz seq < snz seq); [|lia]. apply Hit'; [|done].
      apply list_elem_of_lookup_2 with j. by apply lookup_take_Some.
    + replace b with c in * by congruence. lia.
    + destruct (ordered_lookup_lt _ _ _ _ _ Ho H Eb Hj) as [_ Hcmp]. destruct Hcmp; [unfold same_writer; congruence | lia].
  - subst res. intros c Hc Ec Es. apply lookup_ge_None in Eb. specialize (Hit' c). rewrite take_ge, Es in Hit' by done. specialize (Hit' Hc Ec). lia.
Qed.

(** ** GAP *)

(** The matched writer [g] has the proxy [i]. *)
Definition proxy_of (g : GUID_t) (i : nat) (r : StatefulReader) : Prop := ∃ w, sr_writers r !! i = Some w ∧ wp_guid w = g.

Lemma proxy_running g i r : sr_ok r → proxy_of g i r → ∃ w, sr_writers r !! i = Some w ∧ wp_guid w = g ∧ running w.
Proof. intros Hok (w & Hw & Eg). exists w. split_and!; [done..|]. by apply (writer_running _ (so_running _ _ (sr_store_ok r Hok)) i). Qed.

Lemma find_proxy_of g i r : sr_ok r → guid_ok g → findWriterProxy g r = Some i → proxy_of g i r.
Proof.
  intros Hok Hg Hf. destruct (findWriterProxy_inv r (so_running _ _ (sr_store_ok r Hok)) i g Hg Hf) as (w & Hw & Eg & _). by exists w.
Qed.

(** No change of the writer [g] with the number [z] is incomplete. *)
Definition no_incomplete (g : GUID_t) (z : Z) (l : list HistoryChange) : Prop :=
  ∀ c, c ∈ l → hc_guid c = g → snz (hc_seq c) = z → is_fully_assembled (hc_change c) = true.

(** What the numbers of a GAP do to the reader: changes only leave the history. *)
Definition gap_ok (g : GUID_t) (i : nat) (z : Z) (r0 : StatefulReader) (st : StatefulReader * nat * list SREffect) : Prop :=
  let '(r, it, _) := st in
  sr_ok r ∧ proxy_of g i r ∧ it_ok g z it (m_changes (sr_history r)) ∧ (∀ c, c ∈ m_changes (sr_history r) → c ∈ m_changes (sr_history r0)) ∧
  sr_is_alive r = sr_is_alive r0.

Lemma take_erase_at {A} n (l : list A) : (n < length l)%nat → take n (erase_at n l) = take n l.
Proof. intros. unfold erase_at. rewrite take_app_le, take_take; [f_equal; lia | rewrite length_take; lia]. Qed.

Lemma gap_one_ok g i lookup seq r0 st :
  guid_ok g → sn_ok seq → sn_ok lookup →
  (snz seq ≠ snz lookup → no_incomplete g (snz seq) (m_changes (sr_history r0))) →
  gap_ok g i (snz lookup) r0 st → gap_ok g i (snz lookup) r0 (gap_one g i lookup seq st).
Proof.
  destruct st as [[r it] e]. intros Hg Hs Hl Hinc (Hok & Hp & Hit & Hsub & Hal). destruct (proxy_running g i r Hok Hp) as (w & Hw & Eg & Hr).
  unfold gap_one. rewrite mark_irrelevant. pose proof (mark_spec i w seq r Hw Hr Hs) as Hm.
  destruct (sr_received_change_set i seq r) as [ret r1]. destruct Hm as (w' & -> & Hrec & Hret).
  assert (proxy_of g i (sr_set_writers (<[i := w']> (sr_writers r)) r)) as Hp'.
  { exists w'. split; [apply list_lookup_insert_eq; by eapply lookup_lt_Some|]. destruct Hrec as (_ & -> & _). done. }
  pose proof (sr_store_ok r Hok) as Hst. pose proof (so_ordered _ _ Hst) as Ho.
  destruct ret.
  2: { assert (wc_received (wp_changes w) (snz seq)) as Hyes.
       { destruct (change_was_received seq (wp_changes w)) eqn:E; [apply wc_received_dec_find in E; [done | apply Hr | done]|].
         destruct Hret as [_ Hret]. exfalso. apply diff_false_true, Hret. intros H. apply wc_received_dec_find in H; [congruence | apply Hr | done]. }
       unfold gap_ok. split_and!; [|done..]. apply sr_set_writers_ok; [done|]. eapply store_mark; [done | done | done|].
       intros c Hc Ec Es. apply (store_in_step _ _ _ _ _ Hst Hw Hc Ec). by rewrite Es. }
  unfold find_cache_in_fragmented_process, get_change_nts. cbn [sr_set_writers sr_history].
  pose proof (hint_lookup lookup g (m_changes (sr_history r)) it Ho Hg (sn_ok_wf _ Hl) Hit) as Hk.
  destruct (get_change_from lookup g (drop it (m_changes (sr_history r))) it) as [k res]. destruct Hk as [Hk Hres].
  destruct (match res with Some c => _ | None => None end) as [c|] eqn:Ec.
  - destruct res as [c'|]; [|done]. destruct (is_fully_assembled (hc_change c')) eqn:Ea; [done|]. injection Ec as <-.
    destruct Hres as (Hck & Ecg & Ecs). unfold remove_change_nts. cbn [sr_history sr_set_writers]. rewrite Hck. cbn [snd].
    unfold gap_ok. split_and!; [|done | | |done].
    + constructor; cbn; [|apply Hok..]. eapply store_update; [done | done | apply Hrec | apply Hrec | by apply ordered_erase | | by intros; eapply erased_in].
      intros c Hc Ecc. pose proof (store_in_step _ _ _ _ _ Hst Hw (erased_in _ _ _ Hc) Ecc) as Hi. unfold in_step in *.
      destruct Hrec as (_ & _ & Hrec). rewrite Hrec, <- Hi. split; [by left|]. intros [|Es]; [done|].
      destruct (Z.eq_dec (snz seq) (snz lookup)) as [E|E].
      * destruct (apart_erase k _ _ Ho Hck) as [_ Hap]. destruct (Hap c Hc); [congruence | lia].
      * apply (Hinc E c); [by apply Hsub, (erased_in k) | congruence | done].
    + cbn. intros c Hc. rewrite take_erase_at in Hc by (by eapply lookup_lt_Some). by apply Hk.
    + cbn. intros c Hc. by apply Hsub, (erased_in k).
  - unfold gap_ok. split_and!; [|done | | done | done].
    + apply sr_set_writers_ok; [done|]. eapply store_mark; [done | done | done|]. intros c Hc Ecc Es.
      destruct (Z.eq_dec (snz seq) (snz lookup)) as [E|E]; [|apply (Hinc E c); [by apply Hsub | congruence | done]].
      destruct res as [c'|]; [|destruct (Hres c Hc); [congruence | lia]]. destruct Hres as (Hck & Ecg & Ecs).
      assert (c' = c) as -> by (apply (ordered_unique (m_changes (sr_history r))); [done | by apply list_elem_of_lookup_2 with k | done | congruence | lia]).
      by destruct (is_fully_assembled (hc_change c)).
    + cbn. by destruct (k =? _)%nat.
Qed.

Lemma gap_ok_mono g i z z' r0 st : z <= z' → gap_ok g i z r0 st → gap_ok g i z' r0 st.
Proof.
  destruct st as [[r it] e]. intros Hz (Hok & Hp & Hit & Hsub & Hal). unfold gap_ok. split_and!; [done | done | | done | done].
  intros c Hc Eg. specialize (Hit c Hc Eg). lia.
Qed.

Lemma gap_loop_ok g i final r0 : guid_ok g → sn_ok final → ∀ n aux st,
  sn_ok aux → snz aux + Z.of_nat n = snz final → gap_ok g i (snz aux) r0 st → gap_ok g i (snz final) r0 (gap_loop n g i aux st).
Proof.
  intros Hg Hf. induction n as [|n IH]; intros aux st Ha E Hst; cbn [gap_loop]; [eapply gap_ok_mono, Hst; lia|].
  destruct (sn_ok_add aux 1 Ha ltac:(zwidth)) as [Hw E1]. pose proof (sn_ok_range _ Hf). pose proof (sn_ok_range _ Ha).
  rewrite sn_incr_add_u32 by apply Ha. apply IH; [apply sn_ok_iff; [done | lia] | lia|].
  eapply gap_ok_mono; [|apply gap_one_ok; [done | done | done | done | exact Hst]]. lia.
Qed.

Lemma gap_fold_ok g i final r0 l : guid_ok g → sn_ok final → Forall sn_ok l →
  (∀ s, s ∈ l → snz s ≠ snz final → no_incomplete g (snz s) (m_changes (sr_history r0))) → ∀ st,
  gap_ok g i (snz final) r0 st → gap_ok g i (snz final) r0 (foldl (λ st it, gap_one g i final it st) st l).
Proof.
  intros Hg Hf. induction 1 as [|s l Hs _ IH]; intros Hinc st Hst; [done|]. cbn [foldl]. apply IH.
  - intros s' Hs'. apply Hinc. by apply list_elem_of_further.
  - apply gap_one_ok; [done | done | done | | done]. apply Hinc, list_elem_of_here.
Qed.

(** A GAP message that [process_gap_msg] applies in full: the reader holds no incomplete change of a
    number in the list, the base of the list apart. For the others the code looks up the base
    instead of the number (StatefulReader.cpp:961), so that the incomplete change stays; see
    [gap_exposes_incomplete_sample]. A writer may well send such a GAP. *)
Record gap_handled (g : GUID_t) (gapStart : SequenceNumber_t) (gapList : SequenceNumberSet_t) (l : list HistoryChange) : Prop := {
  gc_guid : guid_ok g;
  gc_start : sn_ok gapStart;
  gc_base : sn_ok (base_ gapList);
  gc_list : Forall sn_ok (bm_for_each gapList);
  gc_sent : ∀ s, s ∈ bm_for_each gapList → snz s ≠ snz (base_ gapList) → no_incomplete g (snz s) l
}.

Lemma acceptMsgFrom_proxy cf g i r : acceptMsgFrom cf g r = Some (Some i) → findWriterProxy g r = Some i.
Proof. unfold acceptMsgFrom. destruct (findWriterProxy g r); [naive_solver|]. by destruct (_ && _). Qed.

Lemma process_gap_ok `{HO : ReaderHistoryOps} cf g gapStart gapList r :
  sr_ok r → gap_handled g gapStart gapList (m_changes (sr_history r)) → sr_ok (snd (fst (process_gap_msg cf g gapStart gapList r))).
Proof.
  intros Hok [Hg Hs Hb Hl Hsent]. unfold process_gap_msg. destruct (_ || _ || _) eqn:Eg; [done|].
  apply orb_false_iff in Eg as [_ Eg]. rewrite sn_leb_snz in Eg by (by apply sn_ok_wf).
  destruct (acceptMsgFrom cf g r) as [[i|]|] eqn:Ef; [|done..]. apply acceptMsgFrom_proxy, find_proxy_of in Ef; [|done..].
  assert (gap_ok g i (snz (base_ gapList)) r (foldl (λ st it, gap_one g i (base_ gapList) it st)
    (gap_loop (Z.to_nat (snz (base_ gapList) - snz gapStart)) g i gapStart (r, O, [])) (bm_for_each gapList))) as Hgap.
  { apply gap_fold_ok; [done..|]. apply gap_loop_ok; [done | done | done | lia|]. unfold gap_ok, it_ok. split_and!; set_solver. }
  destruct (foldl _ _ _) as [[r1 it] e1]. destruct Hgap as (Hok1 & _). pose proof (NotifyChanges_ok cf i r1 Hok1) as H.
  by destruct (NotifyChanges cf i r1).
Qed.

(** ** Heartbeats *)

(** [remove_fragmented_changes_until] removes the incomplete changes below the given number. *)
Definition fragment_below (g : GUID_t) (z : Z) (c : HistoryChange) : bool :=
  bool_decide (hc_guid c = g) && (snz (hc_seq c) <? z) && negb (is_fully_assembled (hc_change c)).

Lemma remove_fragmented_spec seq g l : guid_ok g → sn_wf seq → ordered l →
  remove_fragmented_loop seq g l =
  (filter (λ c, fragment_below g (snz seq) c) l, filter (λ c, negb (fragment_below g (snz seq) c)) l).
Proof.
  intros Hg Hs. induction l as [|c l IH]; intros Ho; [done|]. destruct (ordered_app [c] l Ho) as [_ Ho']. specialize (IH Ho').
  destruct (ordered_elem (c :: l) c Ho (list_elem_of_here _ _)) as (Hgc & Hsc & _). cbn [remove_fragmented_loop].
  assert (fragment_below g (snz seq) c = (if guid_eqb (hc_guid c) g then (hc_seq c <? seq)%sn && negb (is_fully_assembled (hc_change c)) else false)) as Ef.
  { unfold fragment_below. rewrite sn_ltb_snz by (done || by apply sn_ok_wf). destruct (guid_eqb (hc_guid c) g) eqn:E.
    - apply guid_eqb_eq in E; [|done..]. by rewrite bool_decide_true.
    - rewrite bool_decide_false; [done|]. intros E'. apply guid_eqb_eq in E'; [congruence | done..]. }
  rewrite !filter_cons, Ef. destruct (guid_eqb (hc_guid c) g) eqn:Eg; [|by rewrite IH].
  apply guid_eqb_eq in Eg; [|done..]. destruct (hc_seq c <? seq)%sn eqn:El; [rewrite IH; by destruct (is_fully_assembled (hc_change c))|].
  cbn [andb negb]. rewrite sn_ltb_snz in El by (done || by apply sn_ok_wf).
  assert (∀ c', c' ∈ l → fragment_below g (snz seq) c' = false) as Hno.
  { intros c' Hc'. unfold fragment_below. destruct (bool_decide (hc_guid c' = g)) eqn:E; [|done]. apply bool_decide_eq_true in E.
    destruct Ho as [_ Hss]. apply StronglySorted_inv in Hss as [_ Hall]. destruct (proj1 (list.Forall_forall _ _) Hall c' Hc') as [_ H].
    destruct H as [H _]; [unfold same_writer; congruence|]. replace (snz (hc_seq c') <? snz seq) with false by lia. done. }
  f_equal; [by rewrite filter_none|]. f_equal. symmetry. clear -Hno. induction l as [|x l IH]; [done|].
  rewrite filter_cons_True by (by rewrite (Hno x (list_elem_of_here _ _))). f_equal. apply IH. intros. apply Hno. by apply list_elem_of_further.
Qed.

Lemma process_heartbeat_keeps count first last final live positive lost w :
  let w' := snd (fst (process_heartbeat count first last final live positive lost w)) in
  wp_state_ w' = wp_state_ w ∧ wp_guid w' = wp_guid w.
Proof.
  unfold process_heartbeat. destruct (_ && _); [|done]. destruct (lost_changes_update _ _). unfold wp_restart_heartbeat_response.
  destruct (te_restart_timer _). zif; done.
Qed.

Lemma heartbeat_received count first last final live positive lost w :
  running w → sn_ok first → sn_ok last →
  let '(result, w', _) := process_heartbeat count first last final live positive lost w in
  running w' ∧ wp_guid w' = wp_guid w ∧
  if hb_processed result then ∀ z, wc_received (wp_changes w') z ↔ wc_received (wp_changes w) z ∨ z < snz first else w' = w.
Proof.
  intros [Hok Hs Hg] Hf Hl. pose proof (heartbeat_ok count first last final live positive lost w Hok Hf Hl) as Hok'.
  pose proof (process_heartbeat_keeps count first last final live positive lost w) as [Es Eg].
  pose proof (process_heartbeat_changes count first last final live positive lost w) as Ec.
  assert (hb_processed (fst (fst (process_heartbeat count first last final live positive lost w))) =
          bool_decide (wp_state_ w ≠ STOPPED) && (last_heartbeat_count_ w <? count)) as Eh.
  { unfold process_heartbeat. destruct (_ && _); [|done]. destruct (lost_changes_update _ _). by destruct (if negb _ then _ else _) as [? [? ?]]. }
  assert (bool_decide (wp_state_ w ≠ STOPPED) && (last_heartbeat_count_ w <? count) = false →
          snd (fst (process_heartbeat count first last final live positive lost w)) = w) as Hno.
  { intros E. unfold process_heartbeat. by rewrite E. }
  destruct (process_heartbeat count first last final live positive lost w) as [[result w'] e]. cbn in *.
  split_and!; [constructor; congruence | done|]. rewrite Eh. destruct (_ && _); [|by apply Hno]. intros z. rewrite Ec.
  pose proof (lost_changes_update_spec first (wp_changes w) (wp_changes_ok w Hok) Hf) as Hlost.
  destruct (lost_changes_update first (wp_changes w)) as [n c1]. destruct Hlost as (Hok1 & Hrec & _).
  destruct (missing_changes_update_spec last c1 Hok1 Hl) as (_ & Hrec2 & _). cbn. by rewrite Hrec2, Hrec.
Qed.

Lemma ordered_filter (P : HistoryChange → bool) l : ordered l → ordered (filter (λ c, P c) l).
Proof.
  induction l as [|c l IH]; intros Ho; [done|]. destruct (ordered_app [c] l Ho) as [_ Ho']. specialize (IH Ho'). rewrite filter_cons.
  destruct (decide _); [|done]. destruct Ho as [Hok Hs]. apply Forall_cons_iff in Hok as [Hc _]. apply StronglySorted_inv in Hs as [_ Hall].
  destruct IH as [Hok' Hs']. split; constructor; [done.. |]. apply list.Forall_forall. intros x Hx. apply list_elem_of_filter in Hx as [_ Hx].
  by apply (proj1 (list.Forall_forall _ _) Hall).
Qed.

Lemma apart_filter (P : HistoryChange → bool) l c :
  ordered l → c ∈ filter (λ c, P c) l → apart c (filter (λ c, negb (P c)) l).
Proof.
  intros Ho Hc. apply list_elem_of_filter in Hc as [Hp Hc]. split; [by apply (ordered_elem l)|]. intros c' Hc' Eg Es.
  apply list_elem_of_filter in Hc' as [Hp' Hc']. rewrite (ordered_unique l c' c) in Hp' by done. by destruct (P c).
Qed.

(** A removal of the changes that satisfy [P], with the callbacks. *)
Lemma sr_removal_ok (P : HistoryChange → bool) r h :
  sr_ok (sr_set_history h r) → ordered (m_changes (sr_history r)) → m_changes h = filter (λ c, negb (P c)) (m_changes (sr_history r)) →
  let r' := fst (changes_removed (filter (λ c, P c) (m_changes (sr_history r))) (sr_set_history h r)) in
  sr_ok r' ∧ sr_history r' = h ∧ sr_is_alive r' = sr_is_alive r.
Proof.
  intros Hok Ho Eh. destruct (changes_removed_ok (filter (λ c, P c) (m_changes (sr_history r))) _ Hok) as (H1 & H2 & H3); [|done].
  intros c Hc. cbn. rewrite Eh. by apply apart_filter.
Qed.

Lemma remove_fragmented_until seq g h : guid_ok g → sn_wf seq → ordered (m_changes h) →
  let '(removed, h') := remove_fragmented_changes_until seq g h in
  removed = filter (λ c, fragment_below g (snz seq) c) (m_changes h) ∧
  m_changes h' = filter (λ c, negb (fragment_below g (snz seq) c)) (m_changes h).
Proof.
  intros Hg Hs Ho. unfold remove_fragmented_changes_until. rewrite remove_fragmented_spec by done.
  destruct (filter (λ c, fragment_below g (snz seq) c) (m_changes h)) as [|c l] eqn:E; [|done]. split; [done|]. clear Ho.
  induction (m_changes h) as [|x l IH]; [done|]. rewrite filter_cons in E |- *. destruct (fragment_below g (snz seq) x); [done|].
  cbn in *. f_equal. by apply IH.
Qed.

Lemma process_heartbeat_msg_ok `{HO : ReaderHistoryOps} cf g count first last final live r :
  sr_ok r → guid_ok g → sn_ok first → sn_ok last → sr_ok (snd (fst (process_heartbeat_msg cf g count first last final live r))).
Proof.
  intros Hok Hg Hf Hl. unfold process_heartbeat_msg. destruct (negb (sr_is_alive r)); [done|].
  destruct (acceptMsgFrom cf g r) as [[i|]|] eqn:Ef; [|done..]. apply acceptMsgFrom_proxy, find_proxy_of in Ef; [|done..].
  destruct (proxy_running g i r Hok Ef) as (w & Hw & Eg & Hr). rewrite Hw. clear Ef.
  pose proof (heartbeat_received count first last final live (cf_disable_positive_acks cf) 0 w Hr Hf Hl) as Hhb.
  destruct (process_heartbeat count first last final live (cf_disable_positive_acks cf) 0 w) as [[result w1] we]. destruct Hhb as (Hr1 & Eg1 & Hhb).
  pose proof (sr_store_ok r Hok) as Hst. destruct (hb_processed result).
  2: { subst w1. cbn. apply sr_set_writers_ok; [done|]. by rewrite list_insert_id. }
  cbn [sr_set_writers sr_history]. pose proof (remove_fragmented_until first g (sr_history r) Hg (sn_ok_wf _ Hf) (so_ordered _ _ Hst)) as Hrem.
  destruct (remove_fragmented_changes_until first g (sr_history r)) as [removed h]. destruct Hrem as [-> Eh].
  set (r1 := sr_set_writers (<[i := w1]> (sr_writers r)) r).
  assert (sr_ok (sr_set_history h r1)) as Hok1.
  { constructor; cbn; [|apply Hok..]. rewrite Eh. eapply store_update; [done | done | done | done | apply ordered_filter, Hst | |].
    - intros c [Hp Hc]%list_elem_of_filter Ec. pose proof (store_in_step _ _ _ _ _ Hst Hw Hc Ec) as Hi. unfold in_step in *.
      rewrite Hhb, <- Hi. split; [by left|]. intros [|Hlt]; [done|]. unfold fragment_below in Hp. rewrite bool_decide_true in Hp by congruence.
      replace (snz (hc_seq c) <? snz first) with true in Hp by lia. by destruct (is_fully_assembled (hc_change c)).
    - intros c [_ Hc]%list_elem_of_filter _. done. }
  destruct (sr_removal_ok (fragment_below g (snz first)) r1 h Hok1 (so_ordered _ _ Hst) Eh) as (Hok2 & _).
  change (m_changes (sr_history r1)) with (m_changes (sr_history r)) in Hok2. destruct (changes_removed _ _) as [r2 e2]. cbn [fst] in Hok2.
  pose proof (NotifyChanges_ok cf i r2 Hok2) as H. by destruct (NotifyChanges cf i r2).
Qed.

(** ** Reception *)

Lemma NotifyChanges_keeps cf i g j r : sr_ok r → proxy_of g j r →
  let r' := fst (NotifyChanges cf i r) in sr_history r' = sr_history r ∧ proxy_of g j r'.
Proof.
  intros Hok (v & Hv & Eg). pose proof (sr_store_ok r Hok) as Hst. destruct (sr_writers r !! i) as [w|] eqn:Hw; [|unfold NotifyChanges; rewrite Hw; by split; [|exists v]].
  pose proof (writer_running _ (so_running _ _ Hst) i w Hw) as Hr.
  rewrite (NotifyChanges_spec cf i w) by (done || apply Hr || apply Hst). cbn [fst].
  destruct (update_last_notified_other (wp_guid w) (available_changes_max (wp_changes w)) r) as (_ & E2 & _). split; [done|].
  unfold proxy_of. cbn. destruct (decide (i = j)) as [->|].
  - exists (notified_proxy w). rewrite list_lookup_insert_eq by (by eapply lookup_lt_Some). split; [done|]. replace w with v by congruence. done.
  - exists v. by rewrite list_lookup_insert_ne.
Qed.

Lemma alter_fmap_id {A B} (g : A → B) (f : A → A) k (l : list A) : (∀ x, g (f x) = g x) → g <$> alter f k l = g <$> l.
Proof. intros H. revert k. induction l as [|x l IH]; intros [|k]; [done | done | cbn; by rewrite H | cbn; f_equal; apply IH]. Qed.

Lemma sr_alter_change_ok c f r : (∀ x, hc_change (f x) = hc_change x) → sr_ok r → sr_ok (sr_alter_change c f r).
Proof. intros Hf Hok. apply sr_set_history_ok; [done|]. eapply store_rekey; [by apply alter_fmap_id | apply Hok]. Qed.

Lemma sr_set_history_id r : sr_set_history (sr_history r) r = r.
Proof. by destruct r. Qed.

Lemma sr_set_writers_id r : sr_set_writers (sr_writers r) r = r.
Proof. by destruct r. Qed.

(** The store after a new change [c] of the writer of [w], whose proxy becomes [w']. *)
Lemma store_add ws l i w w' c :
  store_ok ws l → ws !! i = Some w → hc_guid c = wp_guid w → hc_ok c → (∀ c', c' ∈ l → fits c c') →
  running w' → wp_guid w' = wp_guid w → in_step w' c →
  (∀ z, z ≠ snz (hc_seq c) → wc_received (wp_changes w') z ↔ wc_received (wp_changes w) z) →
  store_ok (<[i := w']> ws) (sorted_vector_insert history_order_cmp c l).
Proof.
  intros Hst Hw Eg Hc Hf Hr Eg' Hi Hrec. assert (∀ x, x ∈ sorted_vector_insert history_order_cmp c l ↔ x = c ∨ x ∈ l) as Hin.
  { intros x. rewrite (sorted_insert_perm history_order_cmp c l). apply elem_of_cons. }
  eapply store_update; [done | done | done | done | apply sorted_insert_ordered; [done | apply Hst | done] | |].
  - intros x [->|Hx]%Hin Ex; [done|]. pose proof (store_in_step _ _ _ _ _ Hst Hw Hx Ex) as Hix. unfold in_step in *.
    rewrite Hrec; [done|]. destruct (Hf x Hx) as [_ Hne]. intros E. apply Hne; [unfold same_writer; congruence | done].
  - intros x [->|Hx]%Hin Ex; [congruence | done].
Qed.

Lemma matches_change_refl c : hc_ok c → matches_change c c = true.
Proof.
  intros (Hg & Hs & _). unfold matches_change. rewrite sn_eqb_snz, Z.eqb_refl by (by apply sn_ok_wf). by apply guid_eqb_eq.
Qed.

Lemma find_change_found c h : hc_ok c → c ∈ m_changes h → (find_change_nts c h =? length (m_changes h))%nat = false.
Proof.
  intros Hc [j Hj]%list_elem_of_lookup. unfold find_change_nts. destruct (find_index_spec (λ chi, matches_change chi c) (m_changes h)) as [Hlt _].
  apply Nat.eqb_neq. intros E. apply lookup_lt_Some in Hj as Hlen. specialize (Hlt j c). rewrite E, matches_change_refl in Hlt by done. by specialize (Hlt Hlen Hj).
Qed.

(** The fields of a change that the order of the history looks at survive the reassembly. *)
Definition ckey (c : CacheChange_t) : GUID_t * SequenceNumber_t * Time_t := (writerGUID c, sequenceNumber c, sourceTimestamp c).

Lemma received_fragments_key a n c b c' : received_fragments a n c = Some (b, c') → ckey c' = ckey c.
Proof.
  unfold received_fragments. destruct (_ && _); [|by intros [= _ <-]]. destruct (a <=? _).
  - intros H. apply bind_Some in H as ([f ch] & _ & H). by injection H as _ <-.
  - intros H. apply bind_Some in H as ([d ch] & _ & H). by injection H as _ <-.
Qed.

Lemma add_fragments_key p k n c b c' : add_fragments p k n c = Some (b, c') → ckey c' = ckey c.
Proof.
  unfold add_fragments. destruct (negb _); [by intros [= _ <-]|]. destruct (_ >? fragment_count_ c); [by intros [= _ <-]|].
  destruct (_ && _); [by intros [= _ <-]|]. destruct (_ >? pl_length _); [by intros [= _ <-]|]. intros H.
  apply bind_Some in H as ([ch c1] & H1 & H). apply received_fragments_key in H1. destruct ch.
  - apply bind_Some in H as (bs & _ & H). apply bind_Some in H as (data & _ & H). injection H as _ <-. by rewrite <- H1.
  - injection H as _ <-. done.
Qed.

Lemma store_fragments_key m k n c c' : store_fragments m k n c = Some c' → ckey c' = ckey c.
Proof.
  unfold store_fragments. intros H. apply bind_Some in H as ([b c2] & H & E). injection E as <-. apply add_fragments_key in H. rewrite H.
  by destruct (_ && _).
Qed.

Lemma reserve_fragmented_key an m size work e : reserve_fragmented an m size = Some (Some work, e) → ckey (hc_change work) = ckey m.
Proof.
  unfold reserve_fragmented. destruct (an_payload an) as [buffer|]; [|done]. destruct (_ <? size); [done|]. intros H.
  apply bind_Some in H as (c2 & H & E). injection E as <- _. cbn [hc_new hc_change]. set (c1 := cc_with_handle _ _) in H.
  assert (ckey c1 = ckey m) as <-. { unfold c1, copy_not_memcpy, setFragmentSize. by destruct (fragment_size_ m >? 0). }
  clearbody c1. revert H. unfold setFragmentSize. destruct (_ >? 0); [|by intros [= <-]]. intros H. apply bind_Some in H as (d & _ & H). by injection H as <-.
Qed.

Lemma find_index_of_change l work k c : ordered l → l !! k = Some work → hc_ok c → hc_guid c = hc_guid work → hc_seq c = hc_seq work →
  find_index (λ chi, matches_change chi c) l = k.
Proof.
  intros Ho Hk Hc Eg Es. assert (∀ x, x ∈ l → matches_change x c = true ↔ hc_guid x = hc_guid work ∧ snz (hc_seq x) = snz (hc_seq work)) as Hm.
  { intros x Hx. destruct (ordered_elem l x Ho Hx) as (Hg & Hs & _), Hc as (Hg' & Hs' & _). unfold matches_change.
    rewrite andb_true_iff, sn_eqb_snz, Z.eqb_eq, guid_eqb_eq, Eg, Es by (done || by apply sn_ok_wf). tauto. }
  apply find_index_Some with work; [done | apply Hm; [by apply list_elem_of_lookup_2 with k | done]|].
  intros j x Hj Hx. apply Hm in Hx as [Exg Exs]; [|by apply list_elem_of_lookup_2 with j].
  destruct (Nat.lt_total j k) as [H|[H|H]]; [|done|].
  - destruct (ordered_lookup_lt l j k x work Ho H Hj Hk) as [_ Hc']. destruct (Hc' Exg). lia.
  - destruct (ordered_lookup_lt l k j work x Ho H Hk Hj) as [_ Hc']. destruct (Hc' (eq_sym Exg)). lia.
Qed.

Lemma replaced_elem l k work work' x : ordered l → l !! k = Some work → x ∈ <[k := work']> l →
  x = work' ∨ (x ∈ l ∧ (hc_guid x = hc_guid work → snz (hc_seq x) ≠ snz (hc_seq work))).
Proof.
  intros Ho Hk [j Hj]%list_elem_of_lookup. destruct (decide (j = k)) as [->|Hne].
  - rewrite list_lookup_insert_eq in Hj by (by eapply lookup_lt_Some). left. congruence.
  - rewrite list_lookup_insert_ne in Hj by done. right. split; [by apply list_elem_of_lookup_2 with j|]. intros Eg.
    destruct (Nat.lt_total j k) as [H|[H|H]]; [|done|].
    + destruct (ordered_lookup_lt l j k x work Ho H Hj Hk) as [_ Hc']. destruct (Hc' Eg). lia.
    + destruct (ordered_lookup_lt l k j work x Ho H Hk Hj) as [_ Hc']. destruct (Hc' (eq_sym Eg)). lia.
Qed.

(** The change [work] of the history is replaced by [work'] with the same key. *)
Lemma store_replace ws l i w w' k work work' :
  store_ok ws l → ws !! i = Some w → l !! k = Some work → hc_guid work = wp_guid w → hkey work' = hkey work →
  running w' → wp_guid w' = wp_guid w → in_step w' work' →
  (∀ z, z ≠ snz (hc_seq work) → wc_received (wp_changes w') z ↔ wc_received (wp_changes w) z) →
  store_ok (<[i := w']> ws) (<[k := work']> l).
Proof.
  intros Hst Hw Hk Eg Ekey Hr Eg' Hi Hrec. pose proof (so_ordered _ _ Hst) as Ho.
  assert (hc_guid work' = hc_guid work) as Egg by (by injection Ekey).
  eapply store_update; [done | done | done | done | | |].
  - eapply ordered_rekey, Ho. rewrite list_fmap_insert, Ekey, list_insert_id; [done|]. by rewrite list_lookup_fmap, Hk.
  - intros x [->|[Hx Hne]]%(replaced_elem _ _ _ _ _ Ho Hk) Ex; [done|]. pose proof (store_in_step _ _ _ _ _ Hst Hw Hx Ex) as Hix.
    unfold in_step in *. rewrite Hrec; [done|]. apply Hne. congruence.
  - intros x [->|[Hx _]]%(replaced_elem _ _ _ _ _ Ho Hk) Ex; [congruence | done].
Qed.

(** The reader of these steps: only matched writers are heard and the history is the plain one. *)
Section Reception.
Context (cf : ReaderConfig) (Hcf : cf_accept_unknown_writers cf = false).
#[local] Existing Instance base_history_ops.

Lemma change_received_proxy_ok now c i w unknown r :
  sr_ok r → sr_writers r !! i = Some w → hc_guid c = wp_guid w → hc_ok c → (∀ c', c' ∈ m_changes (sr_history r) → fits c c') →
  ¬ wc_received (wp_changes w) (snz (hc_seq c)) →
  let '(ret, r', _) := change_received_proxy cf now c i unknown r in
  sr_ok r' ∧ proxy_of (wp_guid w) i r' ∧
  (ret = true → is_fully_assembled (hc_change c) = true → no_incomplete (wp_guid w) (snz (hc_seq c)) (m_changes (sr_history r'))).
Proof using.
  intros Hok Hw Eg Hc Hf Hnr. unfold change_received_proxy. set (c1 := hc_with_ownership _ c).
  pose proof (sr_store_ok r Hok) as Hst. pose proof (writer_running _ (so_running _ _ Hst) i w Hw) as Hr.
  unfold ho_received_change, base_history_ops, base_received_change, add_change.
  destruct (ha_preallocated _ && _). { rewrite sr_set_history_id. split_and!; [done | by exists w | done]. }
  cbn [changes_removed]. set (h1 := rh_set_changes _ _). set (r1 := sr_set_history h1 r).
  assert (hc_ok c1) as Hc1 by done. assert (∀ c', c' ∈ m_changes (sr_history r) → fits c1 c') as Hf1 by done.
  assert (c1 ∈ m_changes h1) as Hin. { cbn. rewrite sorted_insert_perm. apply list_elem_of_here. }
  set (body := if is_fully_assembled _ then _ else _).
  assert (∃ w' ret, body = (ret, sr_set_history h1 (sr_set_writers (<[i := w']> (sr_writers r)) r), []) ∧ running w' ∧ wp_guid w' = wp_guid w ∧
    in_step w' c1 ∧ (∀ z, z ≠ snz (hc_seq c1) → wc_received (wp_changes w') z ↔ wc_received (wp_changes w) z)) as (w' & ret & -> & Hr' & Eg' & Hi & Hrec).
  { subst body. destruct (is_fully_assembled (hc_change c1)) eqn:Ea.
    - pose proof (mark_spec i w (hc_seq c1) r1 Hw Hr (proj1 (proj2 Hc))) as Hm. destruct (sr_received_change_set i (hc_seq c1) r1) as [ret r2].
      destruct Hm as (w' & -> & (Hr' & Eg' & Hrec) & _). exists w', ret. split_and!; [done | done | done | |].
      + unfold in_step. rewrite Hrec, Ea. split; [by right | done].
      + intros z Hz. rewrite Hrec. tauto.
    - rewrite find_change_found by done. exists w, true. split_and!; [|done | done | | done].
      + by rewrite list_insert_id, sr_set_writers_id.
      + unfold in_step. rewrite Ea. split; [done|]. intros H. by destruct Hnr. }
  set (r2 := sr_set_history h1 _). assert (sr_ok (sr_alter_change c1 (hc_with_reception now) r2)) as Hok2.
  { apply sr_alter_change_ok; [done|]. constructor; cbn; [|apply Hok..]. by eapply store_add. }
  assert (proxy_of (wp_guid w) i (sr_alter_change c1 (hc_with_reception now) r2)) as Hp.
  { exists w'. cbn. rewrite list_lookup_insert_eq by (by eapply lookup_lt_Some). done. }
  pose proof (NotifyChanges_ok cf i _ Hok2) as Hok3. destruct (NotifyChanges_keeps cf i _ i _ Hok2 Hp) as [Eh Hp'].
  destruct (NotifyChanges cf i _) as [r4 e4]. cbn in Hok3, Eh, Hp'. split_and!; [done | done|]. intros _ Ha x Hx Ex Es. rewrite Eh in Hx.
  apply (list_elem_of_fmap_2 hc_change) in Hx. cbn in Hx. rewrite alter_fmap_id in Hx by done.
  apply list_elem_of_fmap in Hx as (y & Exy & Hy). rewrite sorted_insert_perm in Hy. rewrite Exy. apply elem_of_cons in Hy as [->|Hy]; [done|].
  destruct (Hf1 y Hy) as [_ Hne]. unfold same_writer, hc_guid, hc_seq in *. rewrite Exy in Ex, Es. destruct Hne; cbn; congruence.
Qed.

Lemma discard_change_ok i w seq r :
  sr_ok r → sr_writers r !! i = Some w → sn_ok seq → no_incomplete (wp_guid w) (snz seq) (m_changes (sr_history r)) →
  sr_ok (fst (discard_change cf (Some i) seq r)).
Proof using.
  intros Hok Hw Hs Hno. pose proof (sr_store_ok r Hok) as Hst. pose proof (writer_running _ (so_running _ _ Hst) i w Hw) as Hr.
  unfold discard_change. rewrite mark_irrelevant. pose proof (mark_spec i w seq r Hw Hr Hs) as Hm.
  destruct (sr_received_change_set i seq r) as [ret r1]. destruct Hm as (w' & -> & Hrec & _). set (r1 := sr_set_writers _ r).
  assert (sr_ok r1) as Hok1. { apply sr_set_writers_ok; [done|]. by eapply store_mark. }
  pose proof (NotifyChanges_ok cf i r1 Hok1) as Hok2. destruct (NotifyChanges cf i r1) as [r2 e2].
  pose proof (send_datasharing_same i seq r2) as H3. destruct (send_ack_if_datasharing i seq r2) as [r3 e3]. cbn. by eapply sr_ok_same.
Qed.

Lemma accept_Some g o r : sr_ok r → guid_ok g → acceptMsgFrom cf g r = Some o →
  ∃ i w, o = Some i ∧ sr_writers r !! i = Some w ∧ wp_guid w = g ∧ running w.
Proof using Hcf.
  intros Hok Hg. unfold acceptMsgFrom. rewrite Hcf. destruct (findWriterProxy g r) as [i|] eqn:Ef; [|done]. intros [= <-].
  apply find_proxy_of in Ef; [|done..]. destruct (proxy_running g i r Hok Ef) as (w & ? & ? & ?). by exists i, w.
Qed.

(** The fields of a message that name a change. *)
Record msg_ok (m : CacheChange_t) : Prop := {
  msg_guid : guid_ok (writerGUID m);
  msg_seq : sn_ok (sequenceNumber m);
  msg_time : time_ok (sourceTimestamp m)
}.

(** The condition on a DATA message: its timestamp agrees with its number, and it is not also
    sent in fragments. *)
Definition data_conforms (m : CacheChange_t) (r : StatefulReader) : Prop :=
  msg_ok m ∧ (∀ i w, sr_writers r !! i = Some w → wp_guid w = writerGUID m → ¬ wc_received (wp_changes w) (snz (sequenceNumber m)) →
              ∀ c, c ∈ m_changes (sr_history r) → fits (hc_new m) c).

Lemma not_received_find seq w : running w → sn_ok seq → change_was_received seq (wp_changes w) = false → ¬ wc_received (wp_changes w) (snz seq).
Proof using. intros Hr Hs E H. apply wc_received_dec_find in H; [congruence | apply Hr | done]. Qed.

Lemma fits_no_incomplete m l : (∀ c, c ∈ l → fits (hc_new m) c) → no_incomplete (writerGUID m) (snz (sequenceNumber m)) l.
Proof using. intros Hf c Hc Eg Es. destruct (Hf c Hc) as [_ Hne]. destruct Hne; [by unfold same_writer | done]. Qed.

Lemma process_data_ok an m r : sr_ok r → data_conforms m r → sr_ok (snd (fst (process_data_msg cf an m r))).
Proof using Hcf.
  intros Hok [[Hg Hs Ht] Hconf]. unfold process_data_msg. destruct (negb (sr_is_alive r)); [done|].
  destruct (acceptMsgFrom cf (writerGUID m) r) as [o|] eqn:Ea; [|done]. destruct (accept_Some _ _ r Hok Hg Ea) as (i & w & -> & Hw & Eg & Hr).
  unfold sr_changes. rewrite Hw. destruct (change_was_received (sequenceNumber m) (wp_changes w)) eqn:Erc; [done|].
  pose proof (not_received_find _ _ Hr Hs Erc) as Hnr. pose proof (Hconf i w Hw Eg Hnr) as Hf.
  assert (no_incomplete (wp_guid w) (snz (sequenceNumber m)) (m_changes (sr_history r))) as Hno by (rewrite Eg; by apply fits_no_incomplete).
  pose proof (discard_change_ok i w (sequenceNumber m) r Hok Hw Hs Hno) as Hdis.
  destruct (ho_can_change_be_added _ _ _ _) as [can never]. destruct (negb can).
  { destruct never; [|done]. by destruct (discard_change cf (Some i) (sequenceNumber m) r). }
  destruct (negb (change_is_relevant_for_filter m (cf_filter cf))); [by destruct (discard_change cf (Some i) (sequenceNumber m) r)|].
  destruct (negb (an_change an)); [done|]. destruct (negb (an_copy an)); [done|]. unfold change_received.
  set (add := hc_new _). assert (hkey add = hkey (hc_new m)) as Ek.
  { unfold add, hkey, copy_not_memcpy, setFragmentSize. by destruct (fragment_size_ m >? 0). }
  assert (hc_guid add = writerGUID m ∧ hc_seq add = sequenceNumber m ∧ hts add = hts (hc_new m)) as (E1 & E2 & E3).
  { unfold add, hts, hc_guid, hc_seq, copy_not_memcpy, setFragmentSize. by destruct (fragment_size_ m >? 0). }
  pose proof (change_received_proxy_ok (an_now an) add i w
    (unknown_missing_changes_up_to (sequenceNumber m) (wp_changes w)) r Hok Hw) as Hcr.
  destruct (change_received_proxy cf (an_now an) add i _ r) as [[ret r1] e1]. destruct Hcr as (Hok1 & _); [by rewrite E1 | by apply (hc_ok_key add (hc_new m)) | | by rewrite E2|].
  - intros c Hc. specialize (Hf c Hc). unfold fits, agree_times, same_writer in *. by rewrite E1, E2, E3.
  - by destruct ret.
Qed.

Lemma fragmented_completed_ok m i w unknown work r :
  sr_writers r !! i = Some w → running w → sn_ok (hc_seq work) →
  (∀ w', also_received w (snz (hc_seq work)) w' → sr_ok (sr_set_writers (<[i := w']> (sr_writers r)) r)) →
  sr_ok (fst (fragmented_completed cf m i unknown work r)).
Proof using.
  intros Hw Hr Hs Hok. unfold fragmented_completed, ho_completed_change, base_history_ops, base_completed_change. rewrite sr_set_history_id.
  pose proof (mark_spec i w (hc_seq work) r Hw Hr Hs) as Hm. destruct (sr_received_change_set i (hc_seq work) r) as [ret r2].
  destruct Hm as (w' & -> & Hrec & _). specialize (Hok w' Hrec). set (r2 := sr_set_writers _ r) in *.
  assert (sr_ok (fst (if negb (change_is_relevant_for_filter (cc_with_inline_qos (inline_qos m) (hc_change work)) (cf_filter cf))
                      then sr_remove_change work r2 else (r2, [])))) as Hok3 by (zif; [by apply sr_remove_change_ok | done]).
  destruct (if negb _ then _ else _) as [r3 e3]. pose proof (NotifyChanges_ok cf i r3 Hok3) as H. by destruct (NotifyChanges cf i r3).
Qed.

(** The condition on a DATA_FRAG message: its timestamp agrees with its number, and the
    fragments of a sample that the history has taken announce a size that it takes. *)
Definition frag_conforms (m : CacheChange_t) (sampleSize : Z) (r : StatefulReader) : Prop :=
  msg_ok m ∧ (∀ i w, sr_writers r !! i = Some w → wp_guid w = writerGUID m → ¬ wc_received (wp_changes w) (snz (sequenceNumber m)) →
    ∀ c, c ∈ m_changes (sr_history r) → agree_times (hc_new m) c ∧
    (hc_guid c = writerGUID m → snz (hc_seq c) = snz (sequenceNumber m) → fst (can_change_be_added_nts (writerGUID m) sampleSize 0 (sr_history r)) = true)).

Lemma receive_fragments_ok an m size k n i w unknown r r' e :
  sr_ok r → sr_writers r !! i = Some w → wp_guid w = writerGUID m → msg_ok m → ¬ wc_received (wp_changes w) (snz (sequenceNumber m)) →
  (∀ c, c ∈ m_changes (sr_history r) → agree_times (hc_new m) c) →
  receive_fragments cf an m size k n i unknown r = Some (r', e) → sr_ok r'.
Proof using.
  intros Hok Hw Eg [Hg Hs Ht] Hnr Hf. pose proof (sr_store_ok r Hok) as Hst. pose proof (so_ordered _ _ Hst) as Ho.
  pose proof (writer_running _ (so_running _ _ Hst) i w Hw) as Hr. unfold receive_fragments.
  destruct (get_change (sequenceNumber m) (writerGUID m) (sr_history r)) as [work|] eqn:Egc.
  - apply get_change_spec in Egc as (Hin & Ewg & Ews); [|done | done | by apply sn_ok_wf]. intros H. apply bind_Some in H as (c & Hc & H).
    apply store_fragments_key in Hc. set (work' := hc_with_change c work) in *. apply list_elem_of_lookup in Hin as [j Hj].
    assert (sr_alter_change work (λ _, work') r = sr_set_history (rh_set_changes (<[j := work']> (m_changes (sr_history r))) (sr_history r)) r) as E1.
    { unfold sr_alter_change, find_change_nts. rewrite (find_index_of_change _ work j work Ho Hj); [by rewrite (alter_eq_insert _ _ _ work Hj) | | done..].
      apply (ordered_elem _ work Ho). by apply list_elem_of_lookup_2 with j. }
    rewrite E1 in H. assert (hkey work' = hkey work) as Ek by exact Hc.
    assert (hc_seq work' = hc_seq work) as Esq by (by injection Ek).
    destruct (ordered_elem _ work Ho ltac:(by apply list_elem_of_lookup_2 with j)) as (_ & Hsw & _).
    destruct (is_fully_assembled c) eqn:Ea; injection H as H.
    + pose proof (fragmented_completed_ok m i w unknown work' (sr_set_history (rh_set_changes (<[j := work']> (m_changes (sr_history r))) (sr_history r)) r) Hw Hr) as Hfc.
      rewrite H in Hfc. apply Hfc; [by rewrite Esq|]. intros w' (Hr' & Eg' & Hrec). rewrite Esq in Hrec.
      constructor; cbn; [|apply Hok..]. eapply store_replace; [done | done | done | congruence | done | done | done | |].
      * unfold in_step. rewrite Hrec, Esq. split; [by right|]. intros _. exact Ea.
      * intros z Hz. rewrite Hrec. tauto.
    + rewrite <- H. constructor; cbn; [|apply Hok..]. rewrite <- (list_insert_id (sr_writers r) i w) by done.
      eapply store_replace; [done | done | done | congruence | done | done | done | | done].
      unfold in_step. rewrite Esq, Ews. split; [|done]. change (hc_change work') with c. congruence.
  - assert (∀ c, c ∈ m_changes (sr_history r) → fits (hc_new m) c) as Hfit.
    { intros c Hc. split; [by apply Hf|]. intros Egc' Esc. assert (get_change (sequenceNumber m) (writerGUID m) (sr_history r) = Some c); [|congruence].
      by apply get_change_spec; [done | done | by apply sn_ok_wf|]. }
    intros H. apply bind_Some in H as ([[work|] e0] & Hres & H); [|by injection H as <- _]. apply reserve_fragmented_key in Hres.
    apply bind_Some in H as (c & Hc & H). apply store_fragments_key in Hc. set (work' := hc_with_change c work) in *.
    assert (hkey work' = hkey (hc_new m)) as Ek by (unfold work', hkey, hc_guid, hc_seq; cbn; transitivity (ckey c); [done | by rewrite Hc]).
    assert (hc_guid work' = writerGUID m ∧ hc_seq work' = sequenceNumber m ∧ hts work' = hts (hc_new m)) as (E1 & E2 & E3).
    { pose proof (f_equal (fst ∘ fst) Ek) as E1. pose proof (f_equal (snd ∘ fst) Ek) as E2. pose proof (f_equal (tval ∘ snd) Ek) as E3. done. }
    unfold change_received in H. pose proof (change_received_proxy_ok (an_now an) work' i w unknown r Hok Hw) as Hcr.
    destruct (change_received_proxy cf (an_now an) work' i unknown r) as [[ret r1] e1].
    destruct Hcr as (Hok1 & Hp1 & Hno); [congruence | by apply (hc_ok_key work' (hc_new m)) | | by rewrite E2|].
    { intros c' Hc'. specialize (Hfit c' Hc'). unfold fits, agree_times, same_writer in *. by rewrite E1, E2, E3. }
    destruct ret; cbn [negb] in H; [|by injection H as <- _]. destruct (is_fully_assembled c) eqn:Ea; [|by injection H as <- _].
    destruct (proxy_running _ _ _ Hok1 Hp1) as (w1 & Hw1 & Ew1 & Hr1).
    pose proof (fragmented_completed_ok m i w1 unknown work' r1 Hw1 Hr1) as Hfc.
    destruct (fragmented_completed cf m i unknown work' r1) as [r2 e2]. injection H as <- _. apply Hfc; [by rewrite E2|].
    intros w' Hal. apply sr_set_writers_ok; [done|]. eapply store_mark; [apply Hok1 | done | done|]. rewrite Ew1. by apply Hno.
Qed.

Lemma process_data_frag_ok an m size k n r b r' e : sr_ok r → frag_conforms m size r →
  process_data_frag_msg cf an m size k n r = Some (b, r', e) → sr_ok r'.
Proof using Hcf.
  intros Hok [Hm Hconf]. pose proof Hm as [Hg Hs Ht]. unfold process_data_frag_msg. destruct (negb (sr_is_alive r)); [by intros [= _ <- _]|].
  destruct (acceptMsgFrom cf (writerGUID m) r) as [o|] eqn:Ea; [|by intros [= _ <- _]].
  destruct (accept_Some _ _ r Hok Hg Ea) as (i & w & -> & Hw & Eg & Hr). unfold sr_changes. rewrite Hw.
  destruct (change_was_received (sequenceNumber m) (wp_changes w)) eqn:Erc; [by intros [= _ <- _]|].
  pose proof (not_received_find _ _ Hr Hs Erc) as Hnr. pose proof (Hconf i w Hw Eg Hnr) as Hf.
  set (unknown := unknown_missing_changes_up_to _ _).
  assert (ho_can_change_be_added (writerGUID m) size unknown (sr_history r) = can_change_be_added_nts (writerGUID m) size 0 (sr_history r)) as -> by done.
  destruct (can_change_be_added_nts (writerGUID m) size 0 (sr_history r)) as [can never] eqn:Ec. destruct can; cbn [negb].
  - intros H. apply bind_Some in H as ([r1 e1] & H & E). injection E as _ <- _.
    eapply receive_fragments_ok; [done | done | done | done | done | | exact H]. intros c Hc. apply (Hf c Hc).
  - destruct never; [|by intros [= _ <- _]]. pose proof (discard_change_ok i w (sequenceNumber m) r Hok Hw Hs) as Hd.
    destruct (discard_change cf (Some i) (sequenceNumber m) r) as [r1 e1]. intros [= _ <- _]. apply Hd.
    intros c Hc Egc Esc. destruct (Hf c Hc) as [_ Hfit]. rewrite Eg in Egc. by specialize (Hfit Egc Esc).
Qed.
End Reception.

(** ** Matching *)

Lemma get_last_notified_ok g r : sr_ok r → sn_ok (get_last_notified g r).
Proof.
  intros Hok. unfold get_last_notified. destruct (sr_history_record r !! _) as [s|] eqn:E; [|apply sn_ok_zero]. by apply (sr_record_ok r Hok _ _ E).
Qed.

Lemma add_persistence_guid_keeps g p r : sr_ok r →
  let r' := add_persistence_guid g p r in
  sr_ok r' ∧ sr_writers r' = sr_writers r ∧ sr_history r' = sr_history r ∧ sr_writers_pool r' = sr_writers_pool r.
Proof.
  intros Hok. unfold add_persistence_guid. destruct (_ || _); [split_and!; [by destruct Hok | done..]|]. set (r1 := sr_set_persistence _ _ r).
  assert (sr_ok r1) as Hok1 by (by destruct Hok). destruct (sr_history_record r1 !! g) as [s|] eqn:Es; [|done].
  destruct (update_last_notified_other g s r1) as (E1 & E2 & _ & E4 & _).
  pose proof (update_last_notified_ok g s r1 (sr_record_ok r1 Hok1 _ _ Es) (sr_record_ok r1 Hok1)) as Hm.
  set (r2 := snd (update_last_notified g s r1)) in *. clearbody r2. cbn. split_and!; [|done..].
  constructor; cbn; [rewrite E1, E2; apply Hok | rewrite E4; apply Hok | by apply map_Forall_delete].
Qed.

Lemma remove_persistence_guid_ok g p lease r : sr_ok r → sr_ok (remove_persistence_guid g p lease r).
Proof.
  intros [Hst Hp Hm]. unfold remove_persistence_guid. destruct (_ && _); constructor; cbn; try done. by apply map_Forall_delete.
Qed.

Lemma remove_persistence_guid_keeps g p lease r :
  let r' := remove_persistence_guid g p lease r in sr_writers r' = sr_writers r ∧ sr_history r' = sr_history r ∧ sr_writers_pool r' = sr_writers_pool r.
Proof. unfold remove_persistence_guid. by destruct (_ && _). Qed.

Lemma store_push ws l w : store_ok ws l → running w → (∀ v, v ∈ ws → wp_guid v ≠ wp_guid w) → store_ok (ws ++ [w]) l.
Proof.
  intros [Hr Hn Ho Ht] Hw Hne. constructor; [apply Forall_app; split; [done | by constructor] | | done |].
  - rewrite fmap_app. apply NoDup_app. split_and!; [done | | apply NoDup_singleton].
    intros g Hg ->%list_elem_of_singleton. apply list_elem_of_fmap in Hg as (v & E & Hv). by destruct (Hne v Hv).
  - intros c Hc. destruct (Ht c Hc) as (i & v & Hv & H). exists i, v. split; [|done]. by apply lookup_app_l_Some.
Qed.

Lemma matched_writer_add_ok `{HO : ReaderHistoryOps} cf now wdata r :
  sr_ok r → guid_ok (wd_guid wdata) → sr_ok (snd (fst (matched_writer_add_edp cf now wdata r))).
Proof.
  intros Hok Hg. unfold matched_writer_add_edp. destruct (negb (sr_is_alive r)); [done|]. pose proof (sr_store_ok r Hok) as Hst.
  assert (∀ v, running v → guid_eqb (wp_guid v) (wd_guid wdata) = true ↔ wp_guid v = wd_guid wdata) as Hp by (intros v Hv; apply guid_eqb_eq; [apply Hv | done]).
  set (i := find_index _ (sr_writers r)). destruct (sr_writers r !! i) as [w|] eqn:Hw.
  { cbn. pose proof (writer_running _ (so_running _ _ Hst) i w Hw) as [Hok1 Hs1 Hg1]. apply sr_set_writers_ok; [done|].
    eapply store_update; [done | done | | done | apply Hst | intros c Hc Ec; apply (store_in_step _ _ _ _ _ Hst Hw Hc Ec) | done].
    constructor; [by eapply wp_step_ok, wp_step_update | done..]. }
  assert (∀ v, v ∈ sr_writers r → wp_guid v ≠ wd_guid wdata) as Hne.
  { intros v [j Hj]%list_elem_of_lookup E. destruct (find_index_spec (λ w, guid_eqb (wp_guid w) (wd_guid wdata)) (sr_writers r)) as [Hlt _].
    apply lookup_ge_None in Hw. apply lookup_lt_Some in Hj as Hl. specialize (Hlt j v ltac:(subst i; lia) Hj).
    apply Hp in E; [congruence|]. by apply (writer_running _ (so_running _ _ Hst) j). }
  set (slot := match last _ with Some _ => _ | None => _ end).
  assert (∀ wp pool e0, slot = Some (wp, pool, e0) → wp_ok wp ∧ wp_state_ wp = STOPPED ∧ Forall (λ w, wp_ok w ∧ wp_state_ w = STOPPED) pool) as Hslot.
  { subst slot. intros wp pool e0. destruct (last (sr_writers_pool r)) as [v|] eqn:El.
    - apply last_Some in El as [l' El]. pose proof (sr_pool_ok r Hok) as Hpool. rewrite El in Hpool |- *. rewrite removelast_last.
      apply Forall_app in Hpool as [H1 H2]. apply Forall_cons_iff in H2 as [[? ?] _]. intros [= <- <- _]. done.
    - destruct (_ <? _); [|done]. destruct (wp_make (cf_reader_info cf) now) as [v e] eqn:Em. intros [= <- <- _].
      pose proof (wp_make_ok (cf_reader_info cf) now) as Hmk. rewrite Em in Hmk. split_and!; [done | by injection Em as <- _ | apply Hok]. }
  destruct slot as [[[wp pool] e0]|]; [|done]. destruct (Hslot wp pool e0 eq_refl) as (Hwp & Hst' & Hpool).
  assert (sr_ok (sr_set_pool pool r)) as Hok0 by (by destruct Hok).
  destruct (add_persistence_guid_keeps (wd_guid wdata) (wd_persistence_guid wdata) _ Hok0) as (Hok1 & E1 & E2 & E3).
  set (r1 := add_persistence_guid _ _ _) in *. pose proof (wp_start_ok wp wdata (get_last_notified (wd_guid wdata) r1) false Hwp Hst' (get_last_notified_ok _ _ Hok1)) as Hnew.
  assert (wp_state_ (fst (wp_start wdata (get_last_notified (wd_guid wdata) r1) false wp)) ≠ STOPPED ∧
          wp_guid (fst (wp_start wdata (get_last_notified (wd_guid wdata) r1) false wp)) = wd_guid wdata) as [Hrun Egn].
  { unfold wp_start. by destruct (te_restart_timer _). }
  destruct (wp_start _ _ _ wp) as [wp' we]. cbn in *. apply sr_set_writers_ok; [done|].
  apply store_push; [apply Hok1 | constructor; [done | done | by rewrite Egn] |]. rewrite Egn, E1. done.
Qed.

Lemma erase_at_other {A} i (l : list A) j x : l !! j = Some x → j ≠ i → x ∈ erase_at i l.
Proof.
  intros Hj Hne. unfold erase_at. apply elem_of_app. destruct (Nat.lt_ge_cases j i) as [H|H].
  - left. apply list_elem_of_lookup_2 with j. by apply lookup_take_Some.
  - right. apply list_elem_of_lookup_2 with (j - S i)%nat. rewrite lookup_drop. rewrite <- Hj. f_equal. lia.
Qed.

Lemma store_erase ws l i w : store_ok ws l → ws !! i = Some w → (∀ c, c ∈ l → hc_guid c ≠ wp_guid w) → store_ok (erase_at i ws) l.
Proof.
  intros [Hr Hn Ho Ht] Hw Hno. constructor; [| | done |].
  - unfold erase_at. apply Forall_app. split; [by apply Forall_take | by apply Forall_drop].
  - eapply sublist_NoDup; [exact Hn|]. apply fmap_sublist. unfold erase_at. rewrite <- (take_drop i ws) at 3.
    apply sublist_app; [done|]. replace (S i) with (i + 1)%nat by lia. rewrite <- drop_drop. apply sublist_drop.
  - intros c Hc. destruct (Ht c Hc) as (j & v & Hv & Ev & Hs). assert (v ∈ erase_at i ws) as Hin.
    { apply (erase_at_other i ws j v Hv). intros ->. destruct (Hno c Hc). congruence. }
    apply list_elem_of_lookup in Hin as [k Hk]. by exists k, v.
Qed.

Lemma writer_unmatched_spec g h : guid_ok g → ordered (m_changes h) →
  let '(removed, h') := writer_unmatched g h in
  removed = filter (λ c, bool_decide (hc_guid c = g)) (m_changes h) ∧ m_changes h' = filter (λ c, negb (bool_decide (hc_guid c = g))) (m_changes h).
Proof.
  intros Hg [Hok _]. unfold writer_unmatched, remove_changes_with_pred.
  assert (∀ c, c ∈ m_changes h → guid_eqb g (hc_guid c) = bool_decide (hc_guid c = g)) as Hp.
  { intros c Hc. destruct (proj1 (list.Forall_forall _ _) Hok c Hc) as (Hgc & _). destruct (guid_eqb g (hc_guid c)) eqn:E.
    - apply guid_eqb_eq in E; [|done..]. by rewrite bool_decide_true.
    - rewrite bool_decide_false; [done|]. intros <-. rewrite (proj2 (guid_eqb_eq _ _ Hgc Hgc)) in E; done. }
  clear Hok. assert (filter (λ c, guid_eqb g (hc_guid c)) (m_changes h) = filter (λ c, bool_decide (hc_guid c = g)) (m_changes h) ∧
          filter (λ c, negb (guid_eqb g (hc_guid c))) (m_changes h) = filter (λ c, negb (bool_decide (hc_guid c = g))) (m_changes h)) as [E1 E2].
  { induction (m_changes h) as [|c l IH]; [done|]. rewrite !filter_cons, (Hp c (list_elem_of_here _ _)).
    destruct IH as [-> ->]; [intros; apply Hp; by apply list_elem_of_further | done]. }
  rewrite E1, E2. destruct (filter (λ c, bool_decide (hc_guid c = g)) (m_changes h)) eqn:E; [|done]. split; [done|]. clear E1 E2 Hp.
  induction (m_changes h) as [|x k IH]; [done|]. rewrite filter_cons in E |- *. destruct (bool_decide (hc_guid x = g)); [done|]. cbn in *. f_equal. by apply IH.
Qed.

Lemma matched_writer_remove_ok `{HO : ReaderHistoryOps} cf g lease r :
  sr_ok r → guid_ok g → sr_ok (snd (fst (matched_writer_remove cf g lease r))).
Proof.
  intros Hok Hg. unfold matched_writer_remove. destruct (negb (sr_is_alive r)); [done|]. pose proof (sr_store_ok r Hok) as Hst.
  pose proof (writer_unmatched_spec g (sr_history r) Hg (so_ordered _ _ Hst)) as Hu. destruct (writer_unmatched g (sr_history r)) as [removed h]. destruct Hu as [-> Eh].
  assert (sr_ok (sr_set_history h r)) as Hok0.
  { apply sr_set_history_ok; [done|]. rewrite Eh. eapply store_subset; [apply Hok | apply ordered_filter, Hst | by intros c [_ Hc]%list_elem_of_filter]. }
  destruct (sr_removal_ok (λ c, bool_decide (hc_guid c = g)) r h Hok0 (so_ordered _ _ Hst) Eh) as (Hok1 & Eh1 & _).
  destruct (changes_removed _ _) as [r1 e1]. cbn [fst] in *. set (i := find_index _ (sr_writers r1)).
  destruct (sr_writers r1 !! i) as [w|] eqn:Hw; [|done]. assert (wp_guid w = g) as Eg.
  { eapply find_writer_at; [apply (sr_store_ok r1 Hok1) | | exact Hw]. intros v Hv. apply guid_eqb_eq; [apply Hv | done]. }
  pose proof (writer_running _ (so_running _ _ (sr_store_ok r1 Hok1)) i w Hw) as Hr.
  assert (sr_ok (sr_set_writers (erase_at i (sr_writers r1)) r1)) as Hok2.
  { apply sr_set_writers_ok; [done|]. eapply store_erase; [apply Hok1 | exact Hw|]. intros c Hc Ec. rewrite Eh1, Eh in Hc.
    apply list_elem_of_filter in Hc as [Hc _]. rewrite bool_decide_true in Hc by congruence. done. }
  pose proof (remove_persistence_guid_ok (wp_guid w) (persistence_guid_ w) lease _ Hok2) as Hok3. set (r2 := remove_persistence_guid _ _ _ _) in *.
  pose proof (wp_stop_ok w (run_ok w Hr)) as Hw'. assert (wp_state_ (fst (wp_stop w)) = STOPPED) as Es.
  { unfold wp_stop. by destruct (if decide _ then _ else _). }
  destruct (wp_stop w) as [w' we]. cbn in Hw', Es |- *. destruct Hok3 as [H1 H2 H3]. constructor; cbn; [done | | done].
  apply Forall_app. split; [done | by constructor].
Qed.

(** ** Timers and access *)

Lemma sr_set_proxy_ok r i w w' : sr_ok r → sr_writers r !! i = Some w → running w' → wp_guid w' = wp_guid w → wp_changes w' = wp_changes w →
  sr_ok (sr_set_writers (<[i := w']> (sr_writers r)) r).
Proof.
  intros Hok Hw Hr Eg Ec. pose proof (sr_store_ok r Hok) as Hst. apply sr_set_writers_ok; [done|].
  eapply store_update; [done | done | done | done | apply Hst | | done]. intros c Hc E. unfold in_step. rewrite Ec. apply (store_in_step _ _ _ _ _ Hst Hw Hc E).
Qed.

Lemma heartbeat_response_ok i r r' e : sr_ok r → heartbeat_response i r = Some (r', e) → sr_ok r'.
Proof.
  intros Hok. unfold heartbeat_response. destruct (sr_writers r !! i) as [w|] eqn:Hw; [|by intros [= <- _]].
  pose proof (writer_running _ (so_running _ _ (sr_store_ok r Hok)) i w Hw) as [Hwok Hs Hg].
  unfold perform_heartbeat_response, wp_enter. destruct (decide (wp_state_ w = IDLE)) as [Ei|]; [|intros [= <- _]; by rewrite list_insert_id, sr_set_writers_id].
  unfold wp_leave. rewrite decide_True by done. set (w' := wp_set_state _ _). intros H. apply send_acknack_same in H. eapply sr_ok_same; [exact H|].
  apply (sr_set_proxy_ok r i w); [done | done | | done | done]. constructor; [|done..]. apply wp_set_state_ok; [|done..]. by apply wp_set_state_ok.
Qed.

Lemma initial_acknack_ok i r : sr_ok r → sr_ok (snd (fst (initial_acknack i r))).
Proof.
  intros Hok. unfold initial_acknack. destruct (sr_writers r !! i) as [w|] eqn:Hw; [|done].
  pose proof (writer_running _ (so_running _ _ (sr_store_ok r Hok)) i w Hw) as [Hwok Hs Hg]. destruct (perform_initial_ack_nack w) as [[again w'] we] eqn:Ep.
  assert (running w' ∧ wp_guid w' = wp_guid w ∧ wp_changes w' = wp_changes w) as (Hr & Eg & Ec).
  { revert Ep. unfold perform_initial_ack_nack, wp_enter. destruct (decide (wp_state_ w = IDLE)) as [Ei|]; [|by intros [= _ <- _]].
    assert (wp_ok (wp_set_state BUSY w)) as Hb by (by apply wp_set_state_ok).
    pose proof (wp_step_ok _ _ Hb (wp_step_acknack_body (wp_set_state BUSY w))) as Hb'.
    unfold initial_ack_nack_body in *. revert Hb'. zif; cbn; intros Hb'; intros [= _ <- _]; unfold wp_leave; rewrite decide_True by done;
      (split_and!; [constructor; [by apply wp_set_state_ok | done..] | done..]). }
  assert (sr_ok (sr_set_writers (<[i := w']> (sr_writers r)) r)) as Hok1 by (by eapply sr_set_proxy_ok).
  set (r1 := sr_set_writers _ r) in *. destruct we as [|[| |sns fin| | ] []]; try done. pose proof (send_acknack_set_same i sns fin r1) as H.
  destruct (send_acknack_set i sns fin r1) as [r2 e2]. by eapply sr_ok_same.
Qed.

Lemma matched_lookup_tracked r c : sr_ok r → sr_is_alive r = true → c ∈ m_changes (sr_history r) →
  ∃ i w, matched_writer_lookup (hc_guid c) r = Some i ∧ sr_writers r !! i = Some w ∧ wp_guid w = hc_guid c ∧ in_step w c ∧ running w.
Proof.
  intros Hok Ha Hc. pose proof (sr_store_ok r Hok) as Hst. destruct (so_tracked _ _ Hst c Hc) as (i & w & Hw & Eg & Hs). exists i, w.
  unfold matched_writer_lookup. rewrite Ha. split_and!; [|done | done | done | by apply (writer_running _ (so_running _ _ Hst) i)].
  eapply findWriterProxy_Some; [apply Hst | apply Hst | | done..]. apply (ordered_elem _ c (so_ordered _ _ Hst) Hc).
Qed.

(** The change [c] may be read: everything of its writer up to it has been received or given up. *)
Definition available (r : StatefulReader) (c : HistoryChange) : bool :=
  match matched_writer_lookup (hc_guid c) r with
  | Some i => negb (available_changes_max (sr_changes i r) <? hc_seq c)%sn
  | None => false
  end.

(** The application's loop finds the first available change. It never meets a change without writer,
    so it does not change the reader. *)
Lemma next_cache_spec fuel skip r : sr_ok r → sr_is_alive r = true → ∀ it, (length (m_changes (sr_history r)) - it <= fuel)%nat →
  next_cache fuel skip it r =
  (head (filter (λ c, negb (skip && hc_isRead c) && available r c) (drop it (m_changes (sr_history r)))), r, []).
Proof.
  intros Hok Ha. induction fuel as [|fuel IH]; intros it Hf; cbn [next_cache]; [by rewrite drop_ge by lia|].
  destruct (m_changes (sr_history r) !! it) as [c|] eqn:Ec; [|apply lookup_ge_None in Ec; by rewrite drop_ge].
  pose proof (list_elem_of_lookup_2 _ _ _ Ec) as Hc. rewrite (drop_S _ c) by done. rewrite filter_cons.
  destruct (skip && hc_isRead c) eqn:Esk; cbn [negb andb]; [apply IH; lia|].
  destruct (matched_lookup_tracked r c Hok Ha Hc) as (i & w & Em & _). assert (available r c = negb (available_changes_max (sr_changes i r) <? hc_seq c)%sn) as ->
    by (unfold available; by rewrite Em).
  rewrite Em. destruct (available_changes_max (sr_changes i r) <? hc_seq c)%sn; [apply IH; lia | done].
Qed.

Lemma available_spec r c : sr_ok r → sr_is_alive r = true → c ∈ m_changes (sr_history r) →
  ∃ i w, sr_writers r !! i = Some w ∧ wp_guid w = hc_guid c ∧ in_step w c ∧ running w ∧
         (available r c = true ↔ snz (hc_seq c) <= snz (available_changes_max (wp_changes w))).
Proof.
  intros Hok Ha Hc. unfold available. destruct (matched_lookup_tracked r c Hok Ha Hc) as (i & w & -> & Hw & Eg & Hs & Hr). exists i, w.
  split_and!; [done..|]. unfold sr_changes. rewrite Hw. destruct (ordered_elem _ c (so_ordered _ _ (sr_store_ok r Hok)) Hc) as (_ & Hsc & _).
  rewrite sn_ltb_snz by (apply sn_ok_wf; first [done | apply Hr]). lia.
Qed.

Lemma end_sample_access_ok c o b r : sr_ok r → sr_ok (fst (end_sample_access_nts c o b r)).
Proof.
  intros Hok. unfold end_sample_access_nts. set (r1 := if b && _ then _ else r).
  assert (sr_ok r1) as Hok1. { subst r1. zif; [|done]. eapply sr_ok_same; [apply decrement_unread_same|]. by apply sr_alter_change_ok. }
  destruct b; [|done]. destruct o as [i|]; [|done]. eapply sr_ok_same; [apply send_datasharing_same | done].
Qed.

Lemma mark_all_read_changes r l : ∀ n, hc_change <$> fst (mark_all_read r l n) = hc_change <$> l.
Proof.
  induction l as [|c l IH]; intros n; cbn [mark_all_read]; [done|]. destruct (0 <? n); [|done]. set (hit := negb _ && _).
  specialize (IH (if hit then n - 1 else n)). destruct (mark_all_read r l _) as [l2 n2]. cbn in *. f_equal; [by destruct hit | done].
Qed.

Lemma get_unread_count_ok b r : sr_ok r → sr_ok (snd (get_unread_count b r)).
Proof.
  intros Hok. unfold get_unread_count. destruct b; [|done]. pose proof (mark_all_read_changes r (m_changes (sr_history r)) (sr_total_unread r)) as E.
  destruct (mark_all_read _ _ _) as [l n]. cbn in E |- *. pose proof (store_rekey _ _ _ E (sr_store_ok r Hok)). by destruct Hok.
Qed.

Lemma updateTimes_ok old new r : sr_ok r → sr_ok (updateTimes old new r).
Proof.
  intros Hok. unfold updateTimes. destruct (_ && _); [|done]. apply sr_set_writers_ok; [done|]. destruct (sr_store_ok r Hok) as [Hr Hn Ho Ht].
  constructor; [| | done |].
  - apply Forall_fmap. eapply Forall_impl; [exact Hr|]. intros w [Hw Hs Hg]. constructor; [by eapply wp_step_ok, wp_step_interval | done..].
  - rewrite <- list_fmap_compose. done.
  - intros c Hc. destruct (Ht c Hc) as (i & w & Hw & Eg & Hs). exists i, (update_heartbeat_response_interval new w).
    rewrite list_lookup_fmap, Hw. done.
Qed.

Lemma wp_event_keeps w w' : wp_event w w' → wp_state_ w' = wp_state_ w ∧ wp_guid w' = wp_guid w ∧ wp_changes w' = wp_changes w.
Proof. by intros []. Qed.

Lemma proxy_event_ok i w w' r :
  sr_ok r → sr_writers r !! i = Some w → wp_event w w' → sr_ok (sr_set_writers (<[i := w']> (sr_writers r)) r).
Proof.
  intros Hok Hw He. destruct (wp_event_keeps _ _ He) as (Es & Eg & Ec).
  pose proof (writer_running _ (so_running _ _ (sr_store_ok r Hok)) i w Hw) as [Hwok Hs Hg].
  apply (sr_set_proxy_ok r i w); [done | done | | done | done].
  constructor; [by eapply wp_event_ok | congruence | congruence].
Qed.

Lemma pool_event_ok i w w' r :
  sr_ok r → sr_writers_pool r !! i = Some w → wp_event w w' → sr_ok (sr_set_pool (<[i := w']> (sr_writers_pool r)) r).
Proof.
  intros Hok Hw He. destruct (wp_event_keeps _ _ He) as (Es & _). destruct Hok as [H1 H2 H3]. constructor; [done | | done].
  destruct (proj1 (Forall_lookup _ _) H2 i w Hw) as [Hwok Hs]. apply Forall_insert; [done|].
  split; [by eapply wp_event_ok | congruence].
Qed.

(** ** Reachable readers *)

Section Steps.
Context (cf : ReaderConfig).
#[local] Existing Instance base_history_ops.

(** One call on the reader: a submessage that the message receiver hands over, an event of the
    discovery, a timer of a proxy, or an access of the application; or an exchange of the event
    thread on a timer of a proxy, matched or in the pool. *)
Inductive sr_step : StatefulReader → StatefulReader → Prop :=
| step_data an m r : data_conforms m r → sr_step r (snd (fst (process_data_msg cf an m r)))
| step_data_frag an m size k n r b r' e :
    frag_conforms m size r → process_data_frag_msg cf an m size k n r = Some (b, r', e) → sr_step r r'
| step_heartbeat g count first last final live r :
    guid_ok g → sn_ok first → sn_ok last → sr_step r (snd (fst (process_heartbeat_msg cf g count first last final live r)))
| step_gap g gapStart gapList r :
    gap_handled g gapStart gapList (m_changes (sr_history r)) → sr_step r (snd (fst (process_gap_msg cf g gapStart gapList r)))
| step_match now wdata r : guid_ok (wd_guid wdata) → sr_step r (snd (fst (matched_writer_add_edp cf now wdata r)))
| step_unmatch g lease r : guid_ok g → sr_step r (snd (fst (matched_writer_remove cf g lease r)))
| step_heartbeat_response i r r' e : heartbeat_response i r = Some (r', e) → sr_step r r'
| step_initial_acknack i r : sr_step r (snd (fst (initial_acknack i r)))
| step_read c o b r : sr_step r (fst (end_sample_access_nts c o b r))
| step_take c r : sr_step r (fst (sr_remove_change c r))
| step_unread_count b r : sr_step r (snd (get_unread_count b r))
| step_times old new r : sr_step r (updateTimes old new r)
| step_event i w w' r :
    sr_writers r !! i = Some w → wp_event w w' → sr_step r (sr_set_writers (<[i := w']> (sr_writers r)) r)
| step_pool_event i w w' r :
    sr_writers_pool r !! i = Some w → wp_event w w' → sr_step r (sr_set_pool (<[i := w']> (sr_writers_pool r)) r).

Inductive sr_reachable : StatefulReader → Prop :=
| reach_make att n now : sr_reachable (sr_make cf att n now)
| reach_step r r' : sr_reachable r → sr_step r r' → sr_reachable r'.

Lemma sr_make_ok att n now : sr_ok (sr_make cf att n now).
Proof.
  constructor; cbn.
  - constructor; cbn; [done | constructor | split; [done | constructor] |]. intros c Hc. by apply elem_of_nil in Hc.
  - apply Forall_replicate. split; [apply wp_make_ok | done].
  - apply map_Forall_empty.
Qed.

Context (Hcf : cf_accept_unknown_writers cf = false).

Lemma sr_step_ok r r' : sr_ok r → sr_step r r' → sr_ok r'.
Proof using Hcf.
  intros Hok Hs. destruct Hs.
  - by apply process_data_ok.
  - by eapply process_data_frag_ok.
  - by apply process_heartbeat_msg_ok.
  - by apply process_gap_ok.
  - by apply matched_writer_add_ok.
  - by apply matched_writer_remove_ok.
  - by eapply heartbeat_response_ok.
  - by apply initial_acknack_ok.
  - by apply end_sample_access_ok.
  - by apply sr_remove_change_ok.
  - by apply get_unread_count_ok.
  - by apply updateTimes_ok.
  - by eapply proxy_event_ok.
  - by eapply pool_event_ok.
Qed.

Lemma sr_reachable_sr_ok r : sr_reachable r → sr_ok r.
Proof using Hcf. induction 1; [apply sr_make_ok | by eapply sr_step_ok]. Qed.
End Steps.
