(* ===== verification/StatefulReaderTheorems.v ===== *)
(** * Properties of the stateful reader

    What the application may rely on: the reader's history and its proxies agree
    in every reachable state, samples become available once, complete and in
    order, and two cases in which they do not. *)

From Stdlib Require Import ZArith Lia ZifyBool Sorting.Sorted.
From stdpp Require Import gmap base numbers list option list_numbers sorting sets.
From S2P Require Import Prelude SequenceNumber BitmapRange BitmapFacts Bytes Guid TimedEvent Time CacheChange SortedRange.
From S2P Require Import ReaderHistory ReaderHistoryFacts WriterProxy WriterProxyFacts WriterProxyTheorems StatefulReader StatefulReaderFacts.
From S2P Require Import StatefulReaderInvariant StatefulReaderSteps.

Open Scope Z_scope.

#[local] Existing Instance base_history_ops.

(** ** An example *)

Definition test_config : ReaderConfig := {|
  cf_guid := c_Guid_Unknown; cf_accept_unknown_writers := false; cf_trusted_writer := ent_of_u32 0;
  cf_exclusive_ownership := false; cf_disable_positive_acks := false; cf_liveliness_kind := AUTOMATIC_LIVELINESS;
  cf_finite_lease := false; cf_wlp := false; cf_max_writers := 10; cf_filter := None; cf_listener := true;
  cf_notify_individual := true; cf_reader_info := test_reader
|}.

Definition test_history : HistoryAttributes := {| ha_preallocated := false; ha_payloadMaxSize := 0 |}.

Definition test_answers : PoolAnswers :=
  {| an_change := true; an_copy := true; an_payload := Some (replicate 16 0); an_now := time_zero |}.

(** A sample of eight octets with number [n], written at [n] seconds. *)
Definition test_sample (n : Z) : CacheChange_t :=
  {| cc_kind := ALIVE; writerGUID := wd_guid test_writer; instanceHandle := None; sequenceNumber := SeqNum 0 n;
     serializedPayload := Payload 0 8 (replicate 8 n) false; inline_qos := pl_default; sourceTimestamp := Time n 0 0;
     vendor_id := [1; 15]; fragment_size_ := 0; fragment_count_ := 0; first_missing_fragment_ := 0 |}.

(** The first of the two fragments of a sample of sixteen octets. *)
Definition test_fragment (n : Z) : CacheChange_t :=
  {| cc_kind := ALIVE; writerGUID := wd_guid test_writer; instanceHandle := None; sequenceNumber := SeqNum 0 n;
     serializedPayload := Payload 0 8 (replicate 8 n) false; inline_qos := pl_default; sourceTimestamp := Time n 0 0;
     vendor_id := [1; 15]; fragment_size_ := 8; fragment_count_ := 0; first_missing_fragment_ := 0 |}.

Definition matched_reader : StatefulReader :=
  snd (fst (matched_writer_add_edp test_config 0 test_writer (sr_make test_config test_history 0 0))).

Definition after_data (n : Z) (r : StatefulReader) : StatefulReader := snd (fst (process_data_msg test_config test_answers (test_sample n) r)).

Definition after_fragment (n : Z) (r : StatefulReader) : StatefulReader :=
  match process_data_frag_msg test_config test_answers (test_fragment n) 16 1 1 r with Some (_, r', _) => r' | None => r end.

Lemma matched_reader_reachable : sr_reachable test_config matched_reader.
Proof. eapply reach_step; [apply (reach_make _ test_history 0 0)|]. apply step_match, guid_ok_unknown_prefix. Qed.

Lemma test_sample_ok n : is_u32 n → msg_ok (test_sample n).
Proof. intros Hn. constructor; cbn; [apply guid_ok_unknown_prefix | by split | done]. Qed.

(** The history of [matched_reader] is empty. *)
Lemma one_sample_reachable : sr_reachable test_config (after_data 1 matched_reader).
Proof.
  eapply reach_step; [apply matched_reader_reachable|]. apply step_data. split; [by apply test_sample_ok|].
  intros i w _ _ _ c Hc. by apply elem_of_nil in Hc.
Qed.

(** ** The invariant *)

(** C4. For a reader that does not accept messages of unknown writers: through any sequence of DATA,
    DATA_FRAG, HEARTBEAT and GAP messages, of matched and unmatched writers, timers, exchanges of the
    event thread and accesses of the application, the history and the proxies agree, as long as the
    messages keep to three things: the source timestamps of a writer grow with its numbers, a sample is
    sent either whole or in fragments that always announce a size the history takes, and no GAP lists, other than as the base of its list,
    a number of which the reader holds an incomplete change. A writer may send such a GAP; the code then
    keeps the incomplete change and the agreement is lost ([gap_exposes_incomplete_sample]). The
    agreement: the matched proxies are consistent and of different writers, the history is in the order
    of the timestamps and of the numbers of every writer, each of its changes belongs to a matched
    writer, and a change is complete exactly when its proxy counts its number as received. *)
Theorem reader_reachable_ok cf r : cf_accept_unknown_writers cf = false → sr_reachable cf r → sr_ok r.
Proof. intros Hcf Hr. by eapply sr_reachable_sr_ok. Qed.

Lemma reader_reachable_ok_witness : sr_ok (after_data 1 matched_reader).
Proof. apply (reader_reachable_ok test_config); [reflexivity | apply one_sample_reachable]. Defined.

(** ** What the application gets *)

(** C11. In the states that [reader_reachable_ok] is about (unknown writers are not accepted, timestamps
    grow with the numbers, no GAP lists a number of which an incomplete change is held, its base apart),
    [next_untaken_cache] hands out only complete samples, and for every writer in order and without
    skipping: all earlier numbers of the writer have been received or given up, and the sample is the
    one with the lowest number of its writer in the history. The reader does not change. *)
Theorem untaken_complete_in_order cf r c r' e :
  cf_accept_unknown_writers cf = false → sr_reachable cf r → next_untaken_cache r = (Some c, r', e) →
  r' = r ∧ e = [] ∧ c ∈ m_changes (sr_history r) ∧ is_fully_assembled (hc_change c) = true ∧
  (∃ i w, sr_writers r !! i = Some w ∧ wp_guid w = hc_guid c ∧ ∀ z, z <= snz (hc_seq c) → wc_received (wp_changes w) z) ∧
  ∀ c', c' ∈ m_changes (sr_history r) → hc_guid c' = hc_guid c → snz (hc_seq c) <= snz (hc_seq c').
Proof.
  intros Hcf Hr. pose proof (sr_reachable_sr_ok cf Hcf r Hr) as Hok. unfold next_untaken_cache.
  destruct (sr_is_alive r) eqn:Ha; [|done]. cbn [negb]. rewrite (next_cache_spec _ _ _ Hok Ha) by lia. rewrite drop_0.
  intros [= Hh <- <-]. set (l := m_changes (sr_history r)) in *.
  assert (∃ l1 l2, l = l1 ++ c :: l2 ∧ available r c = true ∧ ∀ x, x ∈ l1 → available r x = false) as (l1 & l2 & El & Hc & Hl1).
  { clearbody l. induction l as [|x l IH]; [done|]. rewrite filter_cons in Hh. cbn [andb negb] in Hh. destruct (available r x) eqn:Ex.
    - injection Hh as ->. exists [], l. split_and!; [done | done | set_solver].
    - destruct (IH Hh) as (l1 & l2 & -> & ? & Hl1). exists (x :: l1), l2. split_and!; [done | done|].
      intros y [->|Hy]%elem_of_cons; [done | by apply Hl1]. }
  assert (c ∈ l) as Hin by (rewrite El; set_solver). destruct (available_spec r c Hok Ha Hin) as (i & w & Hw & Eg & Hs & Hrun & Hav).
  pose proof (proj1 Hav Hc) as Hle. split_and!; [done | done | done | | |].
  - apply Hs. by left.
  - exists i, w. split_and!; [done..|]. intros z Hz. left. unfold available_changes_max in Hle. lia.
  - intros c' Hc' Eg'. destruct (Z.le_gt_cases (snz (hc_seq c)) (snz (hc_seq c'))) as [|Hgt]; [done|].
    destruct (available_spec r c' Hok Ha Hc') as (i' & w' & Hw' & Ew' & _ & _ & Hav').
    assert (i' = i) as -> by (eapply writer_unique; [apply (sr_store_ok r Hok) | done | done | congruence]).
    replace w' with w in Hav' by congruence. assert (available r c' = true) as Ht by (apply Hav'; lia).
    pose proof (so_ordered _ _ (sr_store_ok r Hok)) as Ho. fold l in Ho, Hc'. rewrite El in Hc', Ho.
    apply elem_of_app in Hc' as [H|H]; [rewrite (Hl1 c' H) in Ht; done|]. apply elem_of_cons in H as [->|H]; [lia|].
    destruct (ordered_app _ _ Ho) as [_ [_ Hss]]. apply StronglySorted_inv in Hss as [_ Hall].
    destruct (proj1 (list.Forall_forall _ _) Hall c' H) as [_ Hlt]. destruct (Hlt (eq_sym Eg')). lia.
Qed.

Lemma untaken_complete_in_order_witness :
  let r := after_data 1 matched_reader in
  ∃ c, next_untaken_cache r = (Some c, r, []) ∧ is_fully_assembled (hc_change c) = true.
Proof.
  destruct (next_untaken_cache (after_data 1 matched_reader)) as [[[c|] r'] e] eqn:E; [|vm_compute in E; done].
  pose proof (untaken_complete_in_order test_config _ c r' e eq_refl one_sample_reachable E) as (-> & -> & _ & Hc & _). exists c. split; [exact E | exact Hc].
Defined.



(** A GAP does not discard the incomplete samples it lists. The first fragment of sample 3 arrives,
    then a GAP for 1 and 3, then sample 2: sample 3, of which the second fragment never came and which
    the GAP declared irrelevant, is notified and handed to the application once sample 2 is taken. The
    loop over the list of the GAP looks up the base of the list instead of the listed number. *)
Theorem gap_exposes_incomplete_sample :
  let gapList := fst (bm_add (bm_make (SeqNum 0 2)) (SeqNum 0 3)) in
  let r := after_data 2 (snd (fst (process_gap_msg test_config (wd_guid test_writer) (SeqNum 0 1) gapList (after_fragment 3 matched_reader)))) in
  let next r := fst (fst (next_untaken_cache r)) in
  let what c := (hc_seq c, is_fully_assembled (hc_change c)) in
  what <$> next r = Some (SeqNum 0 2, true) ∧
  (c2 ← next r; what <$> next (fst (sr_remove_change c2 r))) = Some (SeqNum 0 3, false) ∧ sr_total_unread r = 2.
Proof. vm_compute. split_and!; reflexivity. Qed.
