(* ===== verification/ReaderProxyHistory.v ===== *)
(** * The proxies of a writer and its history

    A proxy lists changes of its writer's history only, and acknowledges numbers
    that the writer has used. The operations of [ReaderProxy] keep that, for a
    history given by the set of its numbers and the last number used. *)

From Stdlib Require Import ZArith Lia ZifyBool Sorting.Sorted.
From stdpp Require Import base numbers list option list_numbers sorting sets.
From S2P Require Import Prelude SequenceNumber BitmapRange SortedRange Guid TimedEvent CacheChange ChangeForReader GapBuilder ReaderProxy ReaderProxyFacts ReaderProxyTheorems.

Open Scope Z_scope.

Record listed (H : Z → Prop) (n : Z) (r : ReaderProxy) : Prop := {
  li_ok : rp_ok r;
  li_active : is_active_ r = true;
  li_low : snz (changes_low_mark_ r) <= n;
  li_in : ∀ c, c ∈ changes_for_reader_ r → H (cz c)
}.

Lemma skip_acked_bound N l : ∀ m,
  sn_ok m → cz_ok l → snz m <= N + 1 → (∀ c, c ∈ l → cz c <= N) → snz (snd (skip_acked l m)) <= N + 1.
Proof.
  induction l as [|c l IH]; intros m Hm Hok Hle Hl; cbn [skip_acked]; [done|].
  apply Forall_cons_iff in Hok as [Hc Hok]. destruct (_ && _) eqn:E; [|done].
  apply andb_prop in E as [E _]. rewrite sn_eqb_snz in E by (by apply sn_ok_wf). apply Z.eqb_eq in E.
  destruct (sn_ok_add m 1 Hm ltac:(zwidth)) as [Hw E1]. rewrite sn_incr_add_u32 by apply Hm.
  assert (cz c <= N) by (apply Hl; left). unfold cz in *. destruct l as [|c1 l1]; [cbn; lia|].
  destruct (decide (sn_ok (m + 1)%sn)) as [Hm1|Hm1].
  - apply IH; [done.. | lia |]. intros c' Hc'. apply Hl. by right.
  - cbn [skip_acked]. apply Forall_cons_iff in Hok as [Hc1 _]. rewrite sn_eqb_snz by (done || by apply sn_ok_wf).
    apply sn_ok_range in Hc1. apply sn_ok_range in Hm. destruct (Z.eqb_spec (snz (seq_num_ c1)) (snz (m + 1)%sn)) as [E2|]; [|cbn; lia].
    exfalso. apply Hm1. apply sn_ok_iff; [done|]. lia.
Qed.

Lemma acked_above_low wi s r N :
  rp_ok r → sn_ok s → snz (changes_low_mark_ r) < snz s → snz s <= N + 1 → (∀ c, c ∈ changes_for_reader_ r → cz c <= N) →
  snz (changes_low_mark_ (acked_changes_set wi s r)) <= N.
Proof.
  intros Hok Hs Hlt Hle Hl. pose proof (acked_above_spec wi s r Hok Hs Hlt) as (Hok' & Hge & _). revert Hok' Hge.
  unfold acked_changes_set. rewrite sn_gtb_snz by (apply sn_ok_wf; done || apply Hok).
  destruct (Z.gtb_spec (snz s) (snz (changes_low_mark_ r))) as [_|]; [|lia].
  set (l := drop _ _). pose proof (skip_acked_bound N l s Hs) as Hb.
  pose proof (skip_acked_spec l s Hs) as Hsp.
  destruct (skip_acked l s) as [l' m']. cbn [snd changes_low_mark_ rp_set_changes] in *. intros Hok' Hge.
  assert (cz_ok l) as Hl1 by (apply Forall_drop, Hok).
  assert (∀ c, c ∈ l → cz c <= N) as Hl2 by (intros c Hc; apply Hl; by eapply subseteq_drop).
  specialize (Hb Hl1 Hle Hl2).
  assert (sn_wf m') as Hw.
  { destruct Hsp as [? _]; [done | by apply lower_bound_drop_sorted, Hok | | done].
    destruct (lower_bound_split cz (λ c, (seq_num_ c <? s)%sn) (snz s) (changes_for_reader_ r)) as [_ Hdr];
      [apply Hok | apply cz_comp; [apply Hok | done] | done]. }
  pose proof (sn_ok_range _ Hs). destruct (Z.leb_spec 1 (snz m')) as [|Hlow].
  - destruct (sn_sub_u32_snz m' 1 Hw) as [_ ->]; zwidth.
  - assert (snz s <= snz m') as Hsm.
    { destruct Hsp as (_ & ? & _); [done | by apply lower_bound_drop_sorted, Hok | | done].
      destruct (lower_bound_split cz (λ c, (seq_num_ c <? s)%sn) (snz s) (changes_for_reader_ r)) as [_ Hdr];
        [apply Hok | apply cz_comp; [apply Hok | done] | done]. }
    pose proof (sn_ok_range _ (rp_low_ok r Hok)). lia.
Qed.

Section Listed.
Context (H : Z → Prop) (n : Z) (Hrange : ∀ z, H z → 1 <= z <= n).

Lemma listed_le r c : listed H n r → c ∈ changes_for_reader_ r → cz c <= n.
Proof using Hrange. intros Hr Hc. by apply Hrange, (li_in _ _ _ Hr). Qed.

(** Operations that keep the numbers of the collection and the low mark. *)
Lemma listed_same_keys r r' :
  listed H n r → rp_ok r' ∧ is_active_ r' = is_active_ r → seq_num_ <$> changes_for_reader_ r' = seq_num_ <$> changes_for_reader_ r →
  changes_low_mark_ r' = changes_low_mark_ r → listed H n r'.
Proof using.
  intros [Hok Ha Hl Hin] [Hok' Ha'] Ek El. constructor; [done | congruence | by rewrite El |].
  intros c Hc. assert (seq_num_ c ∈ seq_num_ <$> changes_for_reader_ r) as Hz by (rewrite <- Ek; by apply list_elem_of_fmap_2).
  apply list_elem_of_fmap in Hz as (c' & E & Hc'). unfold cz. rewrite E. by apply Hin.
Qed.

Lemma listed_acked_above wi s r :
  listed H n r → sn_ok s → snz (changes_low_mark_ r) < snz s → snz s <= n + 1 → listed H n (acked_changes_set wi s r).
Proof using Hrange.
  intros Hr Hs Hlt Hle. pose proof Hr as [Hok Ha Hl Hin]. destruct (acked_above_spec wi s r Hok Hs Hlt) as (Hok' & _ & Hel & _).
  constructor; [done | unfold acked_changes_set; repeat case_match; done | | intros c [Hc _]%Hel; by apply Hin].
  apply acked_above_low; [done.. |]. intros c Hc. by apply (listed_le r).
Qed.

Lemma listed_acked wi s r :
  wi_ok wi → (∀ t ch, wi_get_change wi t = Some ch → H (snz t)) → snz (wi_next_sequence_number wi) = n + 1 →
  (wi_seq_num_min wi = sn_unknown ∨ snz (wi_seq_num_min wi) <= n) → in_history wi (changes_for_reader_ r) →
  listed H n r → sn_ok s → snz s <= n + 1 → listed H n (acked_changes_set wi s r).
Proof using Hrange.
  intros Hwi HH Hnext Hminle Hhist Hr Hs Hle. pose proof Hr as [Hok Ha Hl Hin].
  destruct (Z.ltb_spec (snz (changes_low_mark_ r)) (snz s)) as [Hlt|Hge]; [by apply listed_acked_above|].
  pose proof (acked_changes_set_ok wi s r Hwi Hok Hs Hhist) as Hok'.
  assert (is_active_ (acked_changes_set wi s r) = true) as Ha' by (unfold acked_changes_set; repeat case_match; done).
  pose proof (rp_low_ok r Hok) as Hlow. pose proof (sn_ok_range _ Hlow) as Hrl. pose proof (sn_ok_range _ Hs) as Hrs.
  assert (∃ l m, acked_changes_set wi s r = rp_set_changes l m r ∧ snz m <= n ∧ ∀ c, c ∈ l → c ∈ changes_for_reader_ r ∨ H (cz c))
    as (l & m & E & Hm & Hl').
  2: { rewrite E in *. constructor; [done.. |]. intros c [Hc|Hc]%Hl'; [by apply Hin | done]. }
  destruct (decide (s = sn_zero ∧ durability_kind_ r ≠ VOLATILE ∧ wi_seq_num_min wi ≠ sn_unknown)) as [(-> & Hd & Hk)|Hno].
  - destruct (late_joiner_spec wi r Hwi Hok Hd Hk Hhist) as (_ & Em & Hel). destruct Hminle as [|Hminle]; [done|].
    exists (changes_for_reader_ (acked_changes_set wi sn_zero r)), (changes_low_mark_ (acked_changes_set wi sn_zero r)).
    split; [unfold acked_changes_set; repeat case_match; done|]. split; [lia|]. intros c [Hc|Hc]%Hel; [by left|]. right.
    destruct (wi_min_ok wi Hwi) as [|[Hmok Hm1]]; [done|].
    destruct (relisted_elem wi (snz (wi_seq_num_min wi)) (snz (changes_low_mark_ r) + 1 - snz (wi_seq_num_min wi)) c) as (_ & _ & ch & Ech & _);
      [done | lia | lia | done |]. by apply (HH _ ch).
  - unfold acked_changes_set. rewrite sn_gtb_snz by (by apply sn_ok_wf). destruct (Z.gtb_spec (snz s) (snz (changes_low_mark_ r))); [lia|].
    destruct (sn_ok_add (changes_low_mark_ r) 1 Hlow ltac:(zwidth)) as [Hw E1].
    destruct (sn_sub_u32_snz _ 1 Hw) as [_ E2]; [zwidth | lia |].
    destruct ((s =? sn_zero)%sn && bool_decide (durability_kind_ r ≠ VOLATILE)) eqn:Ez.
    2: { eexists _, _. split; [done|]. split; [lia | by left]. }
    apply andb_prop in Ez as [Ez Hd]. apply bool_decide_eq_true in Hd.
    rewrite sn_eqb_snz in Ez by (apply sn_ok_wf; done || apply sn_ok_zero). apply Z.eqb_eq in Ez.
    assert (s = sn_zero) as -> by (apply sn_ok_inj; [done | apply sn_ok_zero | done]).
    assert (wi_seq_num_min wi = sn_unknown) as Hu by (destruct (decide (wi_seq_num_min wi = sn_unknown)); [done | tauto]).
    rewrite Hu. change (sn_neb sn_unknown sn_unknown) with false. cbn iota. eexists _, _. split; [done|]. split; [|by left].
    destruct (is_local_reader r); cbn [negb]; [lia|].
    destruct (sn_ok_sub (wi_next_sequence_number wi) 1 (wi_next_ok wi Hwi)) as [_ ->]; [zwidth | apply Hwi | lia].
Qed.

Lemma listed_sub r l :
  listed H n r → ksorted cz l → l ⊆ changes_for_reader_ r → listed H n (rp_set_changes l (changes_low_mark_ r) r).
Proof using.
  intros [Hok Ha Hl Hin] Hs Hsub. constructor; [by apply rp_sub_ok | done | done |]. intros c Hc. by apply Hin, Hsub.
Qed.

(** The change with a number leaves the collection, and is acknowledged if it was the next one. *)
Lemma listed_erase_ack wi s c i r :
  listed H n r → sn_ok s → sn_ok (s + 1)%sn → c ∈ changes_for_reader_ r → cz c = snz s →
  listed H n (acked_changes_set wi (s + 1)%sn (rp_set_changes (erase_at i (changes_for_reader_ r)) (changes_low_mark_ r) r)).
Proof using Hrange.
  intros Hr Hs Hs1 Hc Ec. pose proof (li_ok _ _ _ Hr) as Hok. destruct (sn_ok_add s 1 Hs ltac:(zwidth)) as [_ E].
  pose proof (listed_le r c Hr Hc). pose proof (rp_above r Hok) as Hab. rewrite Forall_forall in Hab. specialize (Hab c Hc). cbn in Hab.
  apply listed_acked_above; [|done | cbn [changes_low_mark_ rp_set_changes]; lia | lia].
  apply listed_sub; [done | apply erase_at_sorted, Hok | apply erase_at_subset].
Qed.

Lemma listed_from_unsent wi s status restart delivered r r' eff :
  listed H n r → sn_ok s → sn_ok (s + 1)%sn →
  from_unsent_to_status wi s status restart delivered r = Some (r', eff) → listed H n r'.
Proof using Hrange.
  intros Hr Hs Hs1 Eq. pose proof (from_unsent_ok _ _ _ _ _ _ _ _ (li_ok _ _ _ Hr) Hs Hs1 Eq) as Hok'. revert Eq Hok'.
  unfold from_unsent_to_status.
  assert (∃ r1 e1, (if restart && is_remote_and_reliable r then restart_nack_supression_timer r else (r, [])) = (r1, e1) ∧
    listed H n r1 ∧ is_active_ r1 = is_active_ r) as (r1 & e1 & -> & Hr1 & <-).
  { destruct (restart && _); [|by eauto]. destruct (restart_nack_same r) as (E1 & E2 & E3).
    destruct (restart_nack_supression_timer r) as [r1 e1]. cbn [fst] in *. exists r1, e1. split_and!; [done | | done].
    apply (listed_same_keys r); [done | | by rewrite E1 | done].
    split; [|done]. by apply (rp_ok_same r); [apply Hr | ..]. }
  clear Hr r. set (l := changes_for_reader_ r1). destruct (bool_decide (status = ACKNOWLEDGED) && _) eqn:Ec.
  - destruct (Nat.ltb_spec (find_change s true l) (length l)) as [Hlt|]; [|done]. intros [= <- _] _.
    apply lookup_lt_is_Some in Hlt as [c El]. pose proof El as Ef. apply find_change_Some in Ef as [Hc Ez]; [|apply Hr1..|done].
    by apply listed_erase_ack with c.
  - destruct (l !! find_change s true l) as [c|] eqn:El; cbn; [|done]. intros [= <- _] Hok'. apply (listed_same_keys r1); [done..| |done].
    apply keys_insert with c; [done|]. by destruct delivered.
Qed.

Lemma listed_removed wi s r :
  listed H n r → sn_ok s → sn_ok (s + 1)%sn →
  let r' := fst (change_has_been_removed wi s r) in
  listed H n r' ∧ ∀ c, c ∈ changes_for_reader_ r' → c ∈ changes_for_reader_ r ∧ cz c ≠ snz s.
Proof using Hrange.
  intros Hr Hs Hs1. pose proof (li_ok _ _ _ Hr) as Hok. unfold change_has_been_removed. cbn zeta.
  destruct (changes_for_reader_ r) as [|f l0] eqn:El; [split; [done | cbn [fst]; rewrite El; by intros c ?%elem_of_nil]|]. rewrite <- El.
  assert (f ∈ changes_for_reader_ r) as Hf by (rewrite El; left).
  pose proof (rp_elems r Hok) as He. unfold cz_ok in He. rewrite Forall_forall in He.
  destruct (s <? seq_num_ f)%sn eqn:Elt.
  { split; [done|]. cbn [fst]. rewrite sn_ltb_snz in Elt by (apply sn_ok_wf; auto). apply Z.ltb_lt in Elt. fold (cz f) in Elt.
    intros c Hc. split; [done|]. pose proof (rp_sorted r Hok) as Hsr. rewrite El in Hsr, Hc. apply ksorted_cons in Hsr as [_ Hgt].
    apply elem_of_cons in Hc as [->|Hc]; [lia|]. rewrite Forall_forall in Hgt. specialize (Hgt c Hc). cbn in Hgt. lia. }
  destruct (changes_for_reader_ r !! _) as [c|] eqn:E; cbn [fst].
  2: { split; [done|]. rewrite find_change_None in E by (apply Hok || done). intros c Hc. split; [done|]. by apply E. }
  pose proof E as E'. apply find_change_Some in E as [Hc Ez]; [|apply Hok..|done].
  assert (∀ x, x ∈ erase_at (find_change s true (changes_for_reader_ r)) (changes_for_reader_ r) →
    x ∈ changes_for_reader_ r ∧ cz x ≠ snz s) as Her.
  { intros x Hx. apply (erase_at_elem _ _ c) in Hx as [Hx Hne]; [|apply Hok|done]. split; [done|]. lia. }
  set (r1 := rp_set_changes (erase_at _ _) _ r).
  assert (listed H n r1) as Hr1 by (apply listed_sub; [done | apply erase_at_sorted, Hok | apply erase_at_subset]).
  destruct (_ =? s)%sn eqn:Em; [|done]. split; [by apply listed_erase_ack with c|].
  destruct (sn_ok_add s 1 Hs ltac:(zwidth)) as [_ E1].
  pose proof (rp_above r Hok) as Hab. rewrite Forall_forall in Hab. specialize (Hab c Hc). cbn in Hab.
  destruct (acked_above_spec wi (s + 1)%sn r1) as (_ & _ & Hel & _); [apply Hr1 | done | cbn [changes_low_mark_ rp_set_changes r1]; lia |].
  intros x [Hx _]%Hel. by apply Her.
Qed.

Lemma listed_requested add_gap set g min r :
  listed H n r → Forall sn_ok (bm_for_each set) → (min = sn_unknown ∨ sn_ok min) →
  listed H n (snd (fst (fst (requested_changes_set add_gap set g min r)))).
Proof using.
  intros Hr Hels [->|Hmin]; [done|]. pose proof (requested_ok add_gap set g min r (li_ok _ _ _ Hr) Hels Hmin) as Hok. revert Hok.
  unfold requested_changes_set. cbn zeta. destruct (sn_neb _ _); [|done]. cbn [fst snd]. intros Hok.
  apply (listed_same_keys r); [done | done | | done]. cbn [changes_for_reader_ rp_set_changes].
  assert (rp_ok (rp_set_changes (changes_for_reader_ r) (changes_low_mark_ r) r)) as Hok' by (apply rp_same_keys; [apply Hr | done]).
  destruct (request_all add_gap min (changes_low_mark_ r) r (bm_for_each set)
    {| rq_changes := changes_for_reader_ r; rq_gaps := g; rq_sent := []; rq_someone := false |} Hok' Hels Hmin) as [-> _].
  apply requested_by_keys.
Qed.

Lemma listed_convert previous next r : listed H n r → listed H n (snd (fst (convert_status_on_all_changes previous next r))).
Proof using.
  intros Hr. apply (listed_same_keys r); [done | by apply convert_ok, Hr | | done]. cbn.
  rewrite <- list_fmap_compose. apply list_fmap_ext. intros j c _. cbn. by destruct (decide _).
Qed.

Lemma listed_initial_acknack r : listed H n r → listed H n (snd (fst (process_initial_acknack r))).
Proof using.
  intros Hr. unfold process_initial_acknack. destruct (is_local_reader r); [|done].
  pose proof (listed_convert UNACKNOWLEDGED UNSENT r Hr). by destruct (convert_status_on_all_changes _ _ r) as [[k r'] calls].
Qed.

Lemma listed_nack_supression r : listed H n r → listed H n (snd (perform_nack_supression r)).
Proof using.
  intros Hr. unfold perform_nack_supression. pose proof (listed_convert UNDERWAY UNACKNOWLEDGED r Hr).
  by destruct (convert_status_on_all_changes _ _ r) as [[k r'] calls].
Qed.

Lemma listed_mark_fragment s f r b last r' :
  listed H n r → sn_ok s → mark_fragment_as_sent_for_change s f r = Some (b, last, r') → listed H n r'.
Proof using.
  intros Hr Hs Eq. pose proof (mark_fragment_ok _ _ _ _ _ _ (li_ok _ _ _ Hr) Hs Eq) as Hok. revert Eq.
  unfold mark_fragment_as_sent_for_change. destruct (_ <=? _)%sn; [by intros [= _ _ <-]|].
  destruct (changes_for_reader_ r !! _) as [c|] eqn:El; [|by intros [= _ _ <-]].
  destruct (markFragmentsAsSent f c) as [c'|] eqn:Ec; cbn; [|done]. intros [= _ _ <-].
  apply (listed_same_keys r); [done | done | | done]. by eapply keys_insert; [|eapply mark_keys].
Qed.

Lemma listed_nack_frag guid k s set r : listed H n r → sn_ok s → listed H n (snd (process_nack_frag guid k s set r)).
Proof using.
  intros Hr Hs. apply (listed_same_keys r); [done | by apply nack_frag_ok; [apply Hr|] | |];
    unfold process_nack_frag; (destruct (_ && _); [|done]); unfold requested_fragment_set; cbn [rp_set_counts changes_for_reader_];
    (destruct (changes_for_reader_ r !! _) as [c|] eqn:El; [|done]); [|done].
  cbn. eapply keys_insert; [done|]. destruct (decide _); cbn; apply mark_unsent_key.
Qed.

Lemma listed_acknack_count k r : listed H n r → listed H n (snd (check_and_set_acknack_count k r)).
Proof using.
  intros Hr. unfold check_and_set_acknack_count. destruct (_ >=? _); [|done]. apply (listed_same_keys r); [done | | done | done].
  split; [|done]. by apply (rp_ok_same r); [apply Hr | ..].
Qed.

Lemma listed_add change is_relevant restart r :
  listed H n r → sn_ok (seq_num_ change) → snz (changes_low_mark_ r) < cz change →
  Forall (λ c, cz c < cz change) (changes_for_reader_ r) → H (cz change) →
  listed H n (fst (add_change_restart change is_relevant restart r)).
Proof using Hrange.
  intros Hr Hs Hl Hlast Hc. unfold add_change_restart.
  assert (∃ r1 e1, (if restart && timers_enabled_ r then restart_nack_supression_timer r else (r, [])) = (r1, e1) ∧
    changes_for_reader_ r1 = changes_for_reader_ r ∧ changes_low_mark_ r1 = changes_low_mark_ r ∧ listed H n r1) as (r1 & e1 & -> & E1 & E2 & Hr1).
  { destruct (restart && _); [|by eauto 6]. destruct (restart_nack_same r) as (E1 & E2 & E3).
    destruct (restart_nack_supression_timer r) as [r1 e1]. cbn [fst] in *. exists r1, e1. split_and!; [done.. |].
    apply (listed_same_keys r); [done | | by rewrite E1 | done].
    split; [|done]. by apply (rp_ok_same r); [apply Hr | ..]. }
  rewrite <- E1 in Hlast. rewrite <- E2 in Hl. cbn [fst]. pose proof Hr1 as [Hok Ha Hlow Hin].
  pose proof (add_change_ok change is_relevant r1 Hok Hs Hl Hlast) as Hok'. revert Hok'. unfold add_change.
  destruct is_relevant; cbn [negb].
  - intros Hok'. constructor; [done.. |]. intros c [Hx|Hx%list_elem_of_singleton]%elem_of_app; [by apply Hin | by subst].
  - destruct (negb _ && _) eqn:E; [|done]. intros Hok'. constructor; [done | done | | done].
    apply Hrange in Hc as [_ Hc]. exact Hc.
Qed.

Lemma listed_start wi attributes ds r :
  wi_ok wi → (∀ t ch, wi_get_change wi t = Some ch → H (snz t)) → snz (wi_next_sequence_number wi) = n + 1 →
  (wi_seq_num_min wi = sn_unknown ∨ snz (wi_seq_num_min wi) <= n) →
  changes_for_reader_ r = [] → changes_low_mark_ r = sn_zero → listed H n (fst (rp_start wi attributes ds r)).
Proof using Hrange.
  intros Hwi HH Hnext Hminle Hc Hl. pose proof (wi_next_pos wi Hwi) as Hpos.
  assert (rp_ok r) as Hok by (apply rp_empty_ok; [done | rewrite Hl; apply sn_ok_zero]).
  pose proof (rp_start_ok wi attributes ds r Hwi Hok Hc Hl) as Hstart. revert Hstart.
  unfold rp_start. destruct (rl_start _ _ _ _ _ _ _) as [b loc]. set (r1 := Build_ReaderProxy true _ _ _ _ _ _ _ _ _ _ _ _).
  assert (listed H n r1) as Hr1.
  { constructor; [by apply (rp_ok_same r) | done | cbn; rewrite Hl, snz_zero; lia |]. cbn. rewrite Hc. by intros c ?%elem_of_nil. }
  set (r2 := if decide (durability_kind_ r1 = VOLATILE) then _ else _).
  assert (listed H n r2) as Hr2.
  { unfold r2. destruct (decide _) as [Hv|Hv].
    - assert (∀ m, sn_ok m → snz m <= n → listed H n (rp_set_changes (changes_for_reader_ r1) m r1)) as Hset.
      { intros m Hm Hle. constructor; [by apply rp_empty_ok | done | done | apply Hr1]. }
      destruct (wi_min_ok wi Hwi) as [Hu|[Hm Hm1]].
      + rewrite Hu. change (sn_unknown =? sn_unknown)%sn with true. cbn iota.
        destruct (sn_ok_sub (wi_next_sequence_number wi) 1 (wi_next_ok wi Hwi)) as [Ho E]; [zwidth | apply Hwi |].
        apply Hset; [done | lia].
      + destruct (_ =? sn_unknown)%sn eqn:Eu.
        * rewrite sn_eqb_snz in Eu by first [by apply sn_ok_wf | split; cbn; zwidth]. apply Z.eqb_eq in Eu.
          change (snz sn_unknown) with (-4294967296) in Eu. lia.
        * destruct (sn_ok_sub (wi_seq_num_min wi) 1 Hm) as [Ho E]; [zwidth | done |]. destruct Hminle as [Hu|Hle]; [|apply Hset; [done | lia]].
          rewrite Hu in Hm1. change (snz sn_unknown) with (-4294967296) in Hm1. lia.
    - apply listed_acked; [done.. | | done | apply sn_ok_zero | rewrite snz_zero; lia].
      unfold in_history. cbn. rewrite Hc. by destruct (decide _). }
  destruct (match initial_heartbeat_event_ r2 with Some _ => _ | None => _ end) as [hb calls]. cbn [fst is_active_].
  intros [Hok3 Ha3]. apply (listed_same_keys r2); [done | | done | done]. by split.
Qed.
End Listed.
