(* ===== verification/WriterHistory.v ===== *)
(** * WriterHistory (src/cpp/rtps/history/WriterHistory.cpp, History.cpp, BaseWriter.cpp)

    The changes a writer keeps, in the order in which it numbered them. An
    iterator is an index of the vector of changes, its end the length. A removal
    first informs the writer, which may refuse; the writer's part is in
    [StatefulWriter]. *)

From Stdlib Require Import ZArith Lia ZifyBool Sorting.Sorted.
From stdpp Require Import base numbers list option list_numbers sorting.
From S2P Require Import Prelude SequenceNumber Bytes Guid Time CacheChange SortedRange ReaderHistory.

Open Scope Z_scope.

(** The fields of [WriteParams] that the history looks at. *)
Record WriteParams := {
  wp_source_timestamp : Time_t;
  wp_related_sample_identity_known : bool;
  wp_has_more_replies : bool
}.

(** The attributes of the history and of its writer: the writer's GUID, the memory policy, the
    limits, the kind of the topic and the largest payload that fits a message. *)
Record WriterHistoryConfig := {
  wh_writer_guid : GUID_t;
  wh_preallocated : bool;
  wh_payloadMaxSize : Z;
  wh_maximumReservedCaches : Z;
  wh_with_key : bool;
  wh_max_allowed_payload_size : Z
}.

Record WriterHistory := {
  wh_changes : list CacheChange_t;
  m_lastCacheChangeSeqNum : SequenceNumber_t;
  wh_isHistoryFull : bool;
  high_mark_for_frag_ : Z
}.

(** The constructor. *)
Definition wh_make : WriterHistory :=
  {| wh_changes := []; m_lastCacheChangeSeqNum := sn_zero; wh_isHistoryFull := false; high_mark_for_frag_ := 0 |}.

Definition wh_next_sequence_number (h : WriterHistory) : SequenceNumber_t := (m_lastCacheChangeSeqNum h + 1)%sn.

(** ** Fragmentation *)

Definition PARAMETER_STATUS_SIZE : Z := 8.
Definition PARAMETER_KEY_SIZE : Z := 20.
Definition PARAMETER_SENTINEL_SIZE : Z := 4.
Definition PARAMETER_SAMPLE_IDENTITY_SIZE : Z := 28.

(** 65535 less the header of a DATA_FRAG, the inline QoS and the alignment. *)
Definition get_max_fragment_payload_size : Z := 65535 - 28 - 32 - 3.

(** The size of the message less the overhead of its submessages, a multiple of four.
    [max_data_size] is what the participant leaves of the datagram, [extra] what protection and
    statistics add. *)
Definition calculate_max_payload_size (max_data_size extra : Z) : Z :=
  let overhead := u32 (16 + 12 + 36 + 32 + extra) in
  if u32 (overhead + 4) >? max_data_size then 4 else max_data_size - overhead.

Definition get_max_allowed_payload_size (flow_max part_max max_output_message_size : Z)
    (calculateMaxDataSize : Z → Z) (extra : Z) : Z :=
  let max_size := if flow_max >? part_max then part_max else flow_max in
  let max_size := if max_output_message_size <? max_size then max_output_message_size else max_size in
  Z.land (calculate_max_payload_size (calculateMaxDataSize max_size) extra) (u32 (Z.lnot 3)).

Definition inline_qos_size (cfg : WriterHistoryConfig) (wparams : WriteParams) (change : CacheChange_t) : Z :=
  u32 (pl_length (inline_qos change) +
       (if wp_related_sample_identity_known wparams then 2 * PARAMETER_SAMPLE_IDENTITY_SIZE else 0) +
       (if wp_has_more_replies wparams then 4 else 0) +
       (if bool_decide (cc_kind change ≠ ALIVE) && wh_with_key cfg then PARAMETER_KEY_SIZE + PARAMETER_STATUS_SIZE else 0)).

(** The largest payload that is sent in one piece. *)
Definition final_high_mark_for_frag (high_mark qos_size : Z) : Z :=
  if 0 <? qos_size then
    let overhead := u32 (PARAMETER_SENTINEL_SIZE + qos_size) in
    if high_mark <? u32 (overhead + 4) then 4 else high_mark - overhead
  else high_mark.

(** Without a list of missing fragments [setFragmentSize] does not touch the payload. *)
Definition set_fragments (cfg : WriterHistoryConfig) (wparams : WriteParams) (change : CacheChange_t) (h : WriterHistory) :
    CacheChange_t * WriterHistory :=
  let high_mark := if high_mark_for_frag_ h =? 0 then wh_max_allowed_payload_size cfg else high_mark_for_frag_ h in
  let final := final_high_mark_for_frag high_mark (inline_qos_size cfg wparams change) in
  (if pl_length (serializedPayload change) >? final
   then default change (setFragmentSize (u16 (Z.min final get_max_fragment_payload_size)) false change)
   else change,
   {| wh_changes := wh_changes h; m_lastCacheChangeSeqNum := m_lastCacheChangeSeqNum h;
      wh_isHistoryFull := wh_isHistoryFull h; high_mark_for_frag_ := high_mark |}).

(** ** Adding *)

(** The number and the source timestamp that the history gives to a change. *)
Definition cc_numbered (seq : SequenceNumber_t) (timestamp : Time_t) (c : CacheChange_t) : CacheChange_t :=
  {| cc_kind := cc_kind c; writerGUID := writerGUID c; instanceHandle := instanceHandle c; sequenceNumber := seq;
     serializedPayload := serializedPayload c; inline_qos := inline_qos c; sourceTimestamp := timestamp;
     vendor_id := vendor_id c; fragment_size_ := fragment_size_ c; fragment_count_ := fragment_count_ c;
     first_missing_fragment_ := first_missing_fragment_ c |}.

Inductive WriterHistoryError := WrongWriterGuid | PayloadTooLarge | HistoryFull.

#[global] Instance WriterHistoryError_eq_dec : EqDecision WriterHistoryError.
Proof. solve_decision. Defined.

(** The change that was added, or why it was not; the caller only sees which of both. *)
Definition prepare_and_add_change (cfg : WriterHistoryConfig) (now : Time_t) (a_change : CacheChange_t) (wparams : WriteParams)
    (h : WriterHistory) : (WriterHistoryError + CacheChange_t) * WriterHistory :=
  if guid_neb (writerGUID a_change) (wh_writer_guid cfg) then (inl WrongWriterGuid, h)
  else if wh_preallocated cfg && (pl_length (serializedPayload a_change) >? wh_payloadMaxSize cfg) then (inl PayloadTooLarge, h)
  else if wh_isHistoryFull h then (inl HistoryFull, h)
  else
    let seq := sn_incr (m_lastCacheChangeSeqNum h) in
    let timestamp := if seconds_ (wp_source_timestamp wparams) <? 0 then now else wp_source_timestamp wparams in
    let '(change, h1) := set_fragments cfg wparams (cc_numbered seq timestamp a_change) h in
    let changes := wh_changes h1 ++ [change] in
    (inr change,
     {| wh_changes := changes; m_lastCacheChangeSeqNum := seq;
        wh_isHistoryFull := wh_isHistoryFull h1 || (Z.of_nat (length changes) =? wh_maximumReservedCaches cfg);
        high_mark_for_frag_ := high_mark_for_frag_ h1 |}).

(** ** Searching *)

(** [WriterHistory::matches_change] *)
Definition wh_matches_change (cfg : WriterHistoryConfig) (inner outer : CacheChange_t) : bool :=
  guid_eqb (writerGUID outer) (wh_writer_guid cfg) && (sequenceNumber inner =? sequenceNumber outer)%sn.

Definition wh_find_change_nts (cfg : WriterHistoryConfig) (ch : CacheChange_t) (h : WriterHistory) : nat :=
  find_index (λ chi, wh_matches_change cfg chi ch) (wh_changes h).

(** [get_change_nts] from the first change on. *)
Fixpoint wh_get_change_from (seq : SequenceNumber_t) (guid : GUID_t) (l : list CacheChange_t) : option CacheChange_t :=
  match l with
  | [] => None
  | c :: l' =>
      if guid_eqb (writerGUID c) guid then
        if (sequenceNumber c =? seq)%sn then Some c
        else if (sequenceNumber c >? seq)%sn then None
        else wh_get_change_from seq guid l'
      else wh_get_change_from seq guid l'
  end.

Definition wh_get_change (seq : SequenceNumber_t) (guid : GUID_t) (h : WriterHistory) : option CacheChange_t :=
  wh_get_change_from seq guid (wh_changes h).

(** [get_seq_num_min] and [get_seq_num_max] of the writer. *)
Definition get_seq_num_min (h : WriterHistory) : SequenceNumber_t :=
  match head (wh_changes h) with Some c => sequenceNumber c | None => sn_unknown end.

Definition get_seq_num_max (h : WriterHistory) : SequenceNumber_t :=
  match last (wh_changes h) with Some c => sequenceNumber c | None => sn_unknown end.

(** ** Removing *)

(** The effect on the history of [remove_change_nts] once the writer agreed. *)
Definition wh_erase (removal : nat) (h : WriterHistory) : WriterHistory :=
  {| wh_changes := erase_at removal (wh_changes h); m_lastCacheChangeSeqNum := m_lastCacheChangeSeqNum h;
     wh_isHistoryFull := false; high_mark_for_frag_ := high_mark_for_frag_ h |}.

