(* ===== verification/LocatorSelector.v ===== *)
(** * LocatorSelector (include/fastdds/rtps/common/LocatorSelector.hpp, src/cpp/rtps/network/NetworkFactory.cpp and the transports)

    The choice of the locators through which a submessage reaches the readers
    that are enabled for it. The selector keeps the entries of the readers by
    value, a position of its collection stands for the pointer. A transport is the
    test [IsLocatorSupported] and the way it selects: UDP prefers a multicast
    locator shared by several entries, TCP and shared memory take every unicast
    locator. *)

From Stdlib Require Import ZArith Lia ZifyBool.
From stdpp Require Import base numbers list option list_numbers.
From S2P Require Import Prelude Bytes Guid ReaderHistory.

Open Scope Z_scope.

Record LocatorSelector := {
  entries_ : list LocatorSelectorEntry;
  selections_ : list nat;
  last_state_ : list bool
}.

Definition ls_make : LocatorSelector := {| entries_ := []; selections_ := []; last_state_ := [] |}.

Definition ls_set_entries (l : list LocatorSelectorEntry) (s : LocatorSelector) : LocatorSelector :=
  {| entries_ := l; selections_ := selections_ s; last_state_ := last_state_ s |}.

(** ** The selector *)

Definition add_entry (e : LocatorSelectorEntry) (s : LocatorSelector) : LocatorSelector := ls_set_entries (entries_ s ++ [e]) s.

(** [ResourceLimitedVector::do_remove]: the last element takes the place of the removed one. *)
Definition swap_remove {A} (i : nat) (l : list A) : list A :=
  match last l with
  | Some back => take (length l - 1) (<[i := back]> l)
  | None => []
  end.

Definition remove_entry (guid : GUID_t) (s : LocatorSelector) : bool * LocatorSelector :=
  let it := find_index (λ e, guid_eqb (remote_guid e) guid) (entries_ s) in
  if (it <? length (entries_ s))%nat then (true, ls_set_entries (swap_remove it (entries_ s)) s) else (false, s).

Definition ls_reset (enable_all : bool) (s : LocatorSelector) : LocatorSelector :=
  {| entries_ := entry_enable enable_all <$> entries_ s; selections_ := selections_ s; last_state_ := enabled <$> entries_ s |}.

(** [entry->enabled = true] *)
Definition entry_set_enabled (e : LocatorSelectorEntry) : LocatorSelectorEntry :=
  {| remote_guid := remote_guid e; unicast := unicast e; multicast := multicast e; state_unicast := state_unicast e;
     state_multicast := state_multicast e; enabled := true; transport_should_process := transport_should_process e |}.

Definition ls_enable (guid : GUID_t) (s : LocatorSelector) : LocatorSelector :=
  ls_set_entries (alter entry_set_enabled (find_index (λ e, guid_eqb (remote_guid e) guid) (entries_ s)) (entries_ s)) s.

Definition state_has_changed (s : LocatorSelector) : bool :=
  negb (bool_decide (length (entries_ s) = length (last_state_ s))) ||
  negb (bool_decide ((enabled <$> entries_ s) = last_state_ s)).

Definition selection_start (s : LocatorSelector) : LocatorSelector :=
  {| entries_ := entry_reset <$> entries_ s; selections_ := []; last_state_ := last_state_ s |}.

Definition entry_set_process (b : bool) (e : LocatorSelectorEntry) : LocatorSelectorEntry :=
  {| remote_guid := remote_guid e; unicast := unicast e; multicast := multicast e; state_unicast := state_unicast e;
     state_multicast := state_multicast e; enabled := enabled e; transport_should_process := b |}.

Definition transport_starts (s : LocatorSelector) : LocatorSelector :=
  ls_set_entries ((λ e, entry_set_process (enabled e) e) <$> entries_ s) s.

Definition ls_select (index : nat) (s : LocatorSelector) : LocatorSelector :=
  if (index <? length (entries_ s))%nat && negb (bool_decide (index ∈ selections_ s))
  then {| entries_ := entries_ s; selections_ := selections_ s ++ [index]; last_state_ := last_state_ s |} else s.

(** The entries in the order of their selection. *)
Definition selected_entries (s : LocatorSelector) : list LocatorSelectorEntry :=
  omap (λ index, entries_ s !! index) (selections_ s).

Definition selected_size (s : LocatorSelector) : Z :=
  foldl (λ result e, result + Z.of_nat (length (state_multicast e)) + Z.of_nat (length (state_unicast e))) 0 (selected_entries s).

(** The selected locators of an entry. *)
Definition entry_multicast (e : LocatorSelectorEntry) : list Locator_t := omap (λ j, multicast e !! j) (state_multicast e).
Definition entry_unicast (e : LocatorSelectorEntry) : list Locator_t := omap (λ j, unicast e !! j) (state_unicast e).

Definition isMulticast (locator : Locator_t) : bool :=
  if (loc_kind locator =? LOCATOR_KIND_TCPv4) || (loc_kind locator =? LOCATOR_KIND_TCPv6) then false
  else if loc_kind locator =? LOCATOR_KIND_UDPv4
  then (224 <=? nth 12 (loc_address locator) 0) && (nth 12 (loc_address locator) 0 <=? 239)
  else nth 0 (loc_address locator) 0 =? 0xFF.

Definition is_selected (locator : Locator_t) (s : LocatorSelector) : bool :=
  existsb (λ e, existsb (λ l, loc_eqb l locator) (if isMulticast locator then entry_multicast e else entry_unicast e))
    (selected_entries s).

(** [for_each], which is also what the iterator of the selector visits. *)
Definition ls_for_each (s : LocatorSelector) : list Locator_t :=
  concat ((λ e, entry_multicast e ++ entry_unicast e) <$> selected_entries s).

(** ** Transports *)

Section Transport.
Context (IsLocatorSupported : Locator_t → bool).

Definition push_unicast (j : nat) (e : LocatorSelectorEntry) : LocatorSelectorEntry :=
  {| remote_guid := remote_guid e; unicast := unicast e; multicast := multicast e; state_unicast := state_unicast e ++ [j];
     state_multicast := state_multicast e; enabled := enabled e; transport_should_process := transport_should_process e |}.

Definition push_multicast (j : nat) (e : LocatorSelectorEntry) : LocatorSelectorEntry :=
  {| remote_guid := remote_guid e; unicast := unicast e; multicast := multicast e; state_unicast := state_unicast e;
     state_multicast := state_multicast e ++ [j]; enabled := enabled e; transport_should_process := transport_should_process e |}.

(** The loop over the unicast locators of the entry at [i], from its [j]-th locator on. *)
Fixpoint select_unicast (i : nat) (locators : list Locator_t) (j : nat) (s : LocatorSelector) : bool * LocatorSelector :=
  match locators with
  | [] => (false, s)
  | l :: locators' =>
      if IsLocatorSupported l && negb (is_selected l s)
      then (true, snd (select_unicast i locators' (S j) (ls_set_entries (alter (push_unicast j) i (entries_ s)) s)))
      else select_unicast i locators' (S j) s
  end.

Definition shares (locator : Locator_t) (e : LocatorSelectorEntry) : bool :=
  transport_should_process e && existsb (λ loc, loc_eqb loc locator) (multicast e).

Definition check_and_invalidate (index : nat) (locator : Locator_t) (l : list LocatorSelectorEntry) : bool * list LocatorSelectorEntry :=
  (existsb (shares locator) (drop index l),
   take index l ++ ((λ e, if shares locator e then entry_set_process false e else e) <$> drop index l)).

(** The search for a multicast locator that is in the list of another entry. *)
Fixpoint select_multicast (i : nat) (no_unicast : bool) (locators : list Locator_t) (j : nat) (s : LocatorSelector) :
    bool * LocatorSelector :=
  match locators with
  | [] => (false, s)
  | l :: locators' =>
      if IsLocatorSupported l then
        let '(shared, es) := check_and_invalidate (S i) l (entries_ s) in
        if shared || no_unicast then (true, ls_set_entries (alter (push_multicast j) i es) s)
        else select_multicast i no_unicast locators' (S j) (ls_set_entries es s)
      else select_multicast i no_unicast locators' (S j) s
  end.

(** One entry, for the UDP transport and for the ones that do not use multicast. *)
Definition udp_select_entry (s : LocatorSelector) (i : nat) : LocatorSelector :=
  match entries_ s !! i with
  | Some e =>
      if transport_should_process e then
        let '(selected, s1) := select_multicast i (bool_decide (unicast e = [])) (multicast e) 0 s in
        let '(selected', s2) := if selected then (true, s1) else select_unicast i (unicast e) 0 s1 in
        if selected' then ls_select i s2 else s2
      else s
  | None => s
  end.

Definition unicast_select_entry (s : LocatorSelector) (i : nat) : LocatorSelector :=
  match entries_ s !! i with
  | Some e =>
      if transport_should_process e then
        let '(selected, s1) := select_unicast i (unicast e) 0 s in if selected then ls_select i s1 else s1
      else s
  | None => s
  end.

(** [select_locators] of [UDPTransportInterface], and of [TCPTransportInterface] and
    [SharedMemTransport], whose loops are the same. *)
Definition udp_select_locators (s : LocatorSelector) : LocatorSelector :=
  let s1 := transport_starts s in foldl udp_select_entry s1 (seq 0 (length (entries_ s1))).

Definition unicast_select_locators (s : LocatorSelector) : LocatorSelector :=
  let s1 := transport_starts s in foldl unicast_select_entry s1 (seq 0 (length (entries_ s1))).
End Transport.

(** A registered transport: whether it is UDP, and its test. *)
Definition Transport : Type := bool * (Locator_t → bool).

Definition transport_select (t : Transport) (s : LocatorSelector) : LocatorSelector :=
  if fst t then udp_select_locators (snd t) s else unicast_select_locators (snd t) s.

(** [NetworkFactory::select_locators] *)
Definition select_locators (transports : list Transport) (s : LocatorSelector) : LocatorSelector :=
  foldl (λ s t, transport_select t s) (selection_start s) transports.

(** [compute_selected_guids] of the writer: the enabled entries, in order. *)
Definition selected_guids (s : LocatorSelector) : list GUID_t :=
  remote_guid <$> List.filter enabled (entries_ s).
