(* ===== verification/LocatorSelectorTheorems.v ===== *)
(** * Facts about the selection of locators

    A selection only grows while the transports are asked, it holds nothing but
    supported locators of enabled entries, and every transport leaves each enabled
    entry reached: by a multicast locator of the entry, or by all its unicast ones. *)

From Stdlib Require Import ZArith Lia ZifyBool.
From stdpp Require Import base numbers list option list_numbers sets.
From S2P Require Import Prelude Guid ReaderHistory LocatorSelector.

Open Scope Z_scope.

Lemma loc_eqb_true a b : loc_eqb a b = true → a = b.
Proof.
  unfold loc_eqb. destruct (Z.eqb_spec (loc_kind a) (loc_kind b)), (Z.eqb_spec (loc_port a) (loc_port b)),
    (bool_decide_reflect (loc_address a = loc_address b)); try done. intros _. destruct a, b; cbn in *; congruence.
Qed.

Lemma existsb_loc_eqb l ls : existsb (λ l', loc_eqb l' l) ls = true → l ∈ ls.
Proof. intros (l' & Hin & ->%loc_eqb_true)%existsb_exists. by apply list_elem_of_In. Qed.

(** ** Growth *)

(** The locators that are chosen in an entry. *)
Definition entry_chosen (e : LocatorSelectorEntry) : list Locator_t := entry_multicast e ++ entry_unicast e.

Record entry_le (e e' : LocatorSelectorEntry) : Prop := {
  el_unicast : unicast e' = unicast e;
  el_multicast : multicast e' = multicast e;
  el_enabled : enabled e' = enabled e;
  el_state_unicast : state_unicast e ⊆ state_unicast e';
  el_state_multicast : state_multicast e ⊆ state_multicast e'
}.

Record evolves (s s' : LocatorSelector) : Prop := {
  ev_entries : Forall2 entry_le (entries_ s) (entries_ s');
  ev_selections : selections_ s ⊆ selections_ s'
}.

#[global] Instance entry_le_preorder : PreOrder entry_le.
Proof.
  split; [by intros e; constructor|]. intros a b c [] []. constructor; try congruence; set_solver.
Qed.

#[global] Instance evolves_preorder : PreOrder evolves.
Proof.
  split; [by intros s; constructor|]. intros a b c [] []. constructor; [by etrans | set_solver].
Qed.

Lemma elem_of_entry_chosen l e :
  l ∈ entry_chosen e ↔ (∃ j, j ∈ state_multicast e ∧ multicast e !! j = Some l) ∨
                       (∃ j, j ∈ state_unicast e ∧ unicast e !! j = Some l).
Proof. unfold entry_chosen, entry_multicast, entry_unicast. by rewrite elem_of_app, !list_elem_of_omap. Qed.

Lemma elem_of_ls_for_each l s :
  l ∈ ls_for_each s ↔ ∃ i e, i ∈ selections_ s ∧ entries_ s !! i = Some e ∧ l ∈ entry_chosen e.
Proof.
  unfold ls_for_each, selected_entries. rewrite list_elem_of_In, in_concat. split.
  - intros (x & Hx & Hl). apply list_elem_of_In, list_elem_of_fmap in Hx as (e & -> & He).
    apply list_elem_of_omap in He as (i & Hi & Ei). exists i, e. split_and!; [done|done|by apply list_elem_of_In].
  - intros (i & e & Hi & Ei & Hl). exists (entry_chosen e). rewrite <- !list_elem_of_In. split; [|done].
    apply list_elem_of_fmap. exists e. split; [done|]. apply list_elem_of_omap. by exists i.
Qed.

Lemma entry_chosen_le l e e' : entry_le e e' → l ∈ entry_chosen e → l ∈ entry_chosen e'.
Proof.
  intros [Eu Em _ Hu Hm]. rewrite !elem_of_entry_chosen, Eu, Em. intros [(j & Hj & E)|(j & Hj & E)]; [left|right]; exists j; auto.
Qed.

Lemma for_each_evolves l s s' : evolves s s' → l ∈ ls_for_each s → l ∈ ls_for_each s'.
Proof.
  intros [He Hs]. rewrite !elem_of_ls_for_each. intros (i & e & Hi & Ei & Hl).
  destruct (Forall2_lookup_l _ _ _ _ _ He Ei) as (e' & Ei' & Hle). exists i, e'. split_and!; [auto | done | by eapply entry_chosen_le].
Qed.

Lemma is_selected_for_each l s : is_selected l s = true → l ∈ ls_for_each s.
Proof.
  unfold is_selected, selected_entries. intros (e & He & Hl)%existsb_exists. apply list_elem_of_In, list_elem_of_omap in He as (i & Hi & Ei).
  apply elem_of_ls_for_each. exists i, e. split_and!; [done..|]. apply elem_of_app.
  destruct (isMulticast l); apply existsb_loc_eqb in Hl; auto.
Qed.

Lemma alter_entry_le f i l : (∀ e, entry_le e (f e)) → Forall2 entry_le l (alter f i l).
Proof.
  intros Hf. apply Forall2_same_length_lookup_2; [by rewrite length_alter|]. intros k e e' Ek Ek'.
  destruct (decide (k = i)) as [->|Hk].
  - rewrite list_lookup_alter_eq, Ek in Ek'. cbn in Ek'. injection Ek' as <-. apply Hf.
  - rewrite list_lookup_alter_ne, Ek in Ek' by done. by injection Ek' as <-.
Qed.

Lemma push_unicast_le j e : entry_le e (push_unicast j e).
Proof. constructor; cbn; try done. set_solver. Qed.

Lemma push_multicast_le j e : entry_le e (push_multicast j e).
Proof. constructor; cbn; try done. set_solver. Qed.

Lemma ls_select_evolves i s : evolves s (ls_select i s).
Proof. unfold ls_select. destruct (_ && _); [|done]. constructor; cbn; [done | set_solver]. Qed.

Lemma ls_select_selects i e s : entries_ s !! i = Some e → i ∈ selections_ (ls_select i s).
Proof.
  intros Ei%lookup_lt_Some. unfold ls_select. replace (i <? length (entries_ s))%nat with true by lia.
  case_bool_decide; cbn; [done | set_solver].
Qed.

Lemma entries_ls_select i s : entries_ (ls_select i s) = entries_ s.
Proof. unfold ls_select. by destruct (_ && _). Qed.

Lemma invalidate_lookup index loc l k e' :
  snd (check_and_invalidate index loc l) !! k = Some e' →
  ∃ e, l !! k = Some e ∧ (e' = e ∨ (index ≤ k)%nat ∧ e' = entry_set_process false e ∧ loc ∈ multicast e).
Proof.
  cbn. intros [Ek|[Hk Ek]]%lookup_app_Some.
  - apply lookup_take_Some in Ek as [Ek _]. exists e'. auto.
  - rewrite list_lookup_fmap, lookup_drop in Ek. destruct (l !! _) as [e|] eqn:El; [|done]. cbn in Ek. injection Ek as <-.
    rewrite length_take in Hk, El. assert (length (take index l) = index ∨ length l ≤ index)%nat as Hlen by (rewrite length_take; lia).
    pose proof (lookup_lt_Some _ _ _ El). replace (index + (k - index `min` length l))%nat with k in El by lia.
    exists e. split; [done|]. destruct (shares loc e) eqn:Es; [right|by left].
    split_and!; [lia | done|]. unfold shares in Es. apply andb_true_iff in Es as [_ Es]. by apply existsb_loc_eqb.
Qed.

Lemma invalidate_le index loc l : Forall2 entry_le l (snd (check_and_invalidate index loc l)).
Proof.
  apply Forall2_same_length_lookup_2.
  - cbn. rewrite length_app, length_fmap, length_take, length_drop. lia.
  - intros k e e' Ek Ek'. apply invalidate_lookup in Ek' as (e0 & Ek0 & He). rewrite Ek in Ek0. injection Ek0 as <-.
    by destruct He as [->|(_ & -> & _)].
Qed.

(** ** One transport *)

Section Reach.
Context (udp : bool) (IsLocatorSupported : Locator_t → bool).

(** What a transport does for an enabled entry: one of its multicast locators, or all its supported
    unicast ones. The second is nothing for an entry without supported unicast locators; then UDP
    takes a supported multicast locator only if the entry has no unicast locators at all. *)
Definition reached (s : LocatorSelector) (e : LocatorSelectorEntry) : Prop :=
  (∃ l, l ∈ multicast e ∧ IsLocatorSupported l = true ∧ l ∈ ls_for_each s) ∨
  (udp = true → unicast e = [] → ∀ l, l ∈ multicast e → IsLocatorSupported l = false) ∧
  (∀ l, l ∈ unicast e → IsLocatorSupported l = true → l ∈ ls_for_each s).

Lemma reached_evolves s s' e e' : evolves s s' → entry_le e e' → reached s e → reached s' e'.
Proof.
  intros Hs [Eu Em _ _ _]. unfold reached. rewrite Eu, Em.
  intros [(l & Hl & Hsup & Hin)|[Hm H]]; [left; exists l; split_and!|right; split]; eauto using for_each_evolves.
Qed.

Lemma select_multicast_spec i no_unicast locators : ∀ j s,
  let '(b, s1) := select_multicast IsLocatorSupported i no_unicast locators j s in
  (b = false ∧ s1 = s ∧ (no_unicast = true → ∀ l, l ∈ locators → IsLocatorSupported l = false)) ∨
  (b = true ∧ ∃ k l, locators !! k = Some l ∧ IsLocatorSupported l = true ∧
     s1 = ls_set_entries (alter (push_multicast (j + k)) i (snd (check_and_invalidate (S i) l (entries_ s)))) s).
Proof.
  induction locators as [|l locators IH]; intros j s; [left; split_and!; [done..|by intros _ l ?%elem_of_nil]|]. cbn [select_multicast].
  assert (∀ s', s' = s → (no_unicast = true → IsLocatorSupported l = false) → let '(b, s1) := select_multicast IsLocatorSupported i no_unicast locators (S j) s' in
    (b = false ∧ s1 = s ∧ (no_unicast = true → ∀ l', l' ∈ l :: locators → IsLocatorSupported l' = false)) ∨
    (b = true ∧ ∃ k l', (l :: locators) !! k = Some l' ∧ IsLocatorSupported l' = true ∧
       s1 = ls_set_entries (alter (push_multicast (j + k)) i (snd (check_and_invalidate (S i) l' (entries_ s)))) s)) as Hgo.
  { intros s' -> Hno. specialize (IH (S j) s). destruct (select_multicast _ _ _ _ _ s) as [b s1].
    destruct IH as [(-> & -> & Hall)|(-> & k & l' & El & Hsup & ->)]; [left; split_and!; [done..|]|right].
    - intros En l' [->|Hl']%elem_of_cons; auto.
    - split; [done|]. exists (S k), l'. by rewrite Nat.add_succ_r. }
  destruct (IsLocatorSupported l) eqn:Hsup; [|by apply Hgo].
  destruct (check_and_invalidate (S i) l (entries_ s)) as [shared es] eqn:Ec.
  destruct (shared || no_unicast) eqn:Eb.
  - right. split; [done|]. exists 0%nat, l. rewrite Nat.add_0_r, Ec. done.
  - apply orb_false_elim in Eb as [-> En]. apply Hgo; [|congruence]. unfold check_and_invalidate in Ec. injection Ec as Ex <-.
    destruct s as [es sel last]. cbn in *. unfold ls_set_entries; cbn. f_equal. etrans; [|apply (take_drop (S i) es)]. f_equal.
    rewrite <- (list_fmap_id (drop (S i) es)) at 2. apply list_fmap_ext. intros k e Ek.
    destruct (shares l e) eqn:Esh; [|done]. exfalso. rewrite <- not_true_iff_false in Ex. apply Ex, existsb_exists.
    exists e. split; [|done]. eapply list_elem_of_In, list_elem_of_lookup_2, Ek.
Qed.

Definition flags (s : LocatorSelector) : list bool := transport_should_process <$> entries_ s.

Lemma flags_alter_push_unicast j i (l : list LocatorSelectorEntry) :
  transport_should_process <$> alter (push_unicast j) i l = transport_should_process <$> l.
Proof. rewrite (list_fmap_alter _ _ (λ b, b)); [by apply list_alter_id|]. by apply list.Forall_forall. Qed.

Lemma select_unicast_spec i locators : ∀ j s,
  let '(b, s1) := select_unicast IsLocatorSupported i locators j s in
  evolves s s1 ∧ flags s1 = flags s ∧
  ∀ k l, locators !! k = Some l → IsLocatorSupported l = true →
    l ∈ ls_for_each s1 ∨ (b = true ∧ ∀ e, entries_ s1 !! i = Some e → (j + k)%nat ∈ state_unicast e).
Proof.
  induction locators as [|l locators IH]; intros j s; cbn [select_unicast]; [by split_and!|].
  destruct (IsLocatorSupported l && negb (is_selected l s)) eqn:Eb.
  - set (s0 := ls_set_entries (alter (push_unicast j) i (entries_ s)) s). specialize (IH (S j) s0).
    assert (evolves s s0) as H0 by (constructor; [apply alter_entry_le, push_unicast_le | done]).
    destruct (select_unicast _ _ _ _ s0) as [b s1]. destruct IH as (H1 & Ef & IH). cbn [snd]. split_and!.
    + by etrans.
    + rewrite Ef. apply flags_alter_push_unicast.
    + intros [|k] l' El Hsup; cbn in El.
      * right. split; [done|]. intros e Ee. destruct (Forall2_lookup_r _ _ _ _ _ (ev_entries _ _ H1) Ee) as (e0 & E0 & Hle).
        apply (el_state_unicast _ _ Hle). cbn in E0. rewrite list_lookup_alter_eq in E0. apply fmap_Some in E0 as (e1 & _ & ->).
        cbn. rewrite Nat.add_0_r. set_solver.
      * destruct (IH k l' El Hsup) as [?|[_ Hin]]; [by left|right]. split; [done|]. intros e Ee.
        rewrite Nat.add_succ_r. by apply Hin.
  - specialize (IH (S j) s). destruct (select_unicast _ _ _ _ s) as [b s1]. destruct IH as (H1 & Ef & IH). split_and!; [done..|].
    intros [|k] l' El Hsup; cbn in El.
    + injection El as ->. rewrite Hsup in Eb. cbn in Eb. left. eapply for_each_evolves; [done|].
      apply is_selected_for_each. by destruct (is_selected l' s).
    + rewrite Nat.add_succ_r. by apply IH.
Qed.

Lemma select_all_unicast s i e :
  entries_ s !! i = Some e →
  let '(b, s1) := select_unicast IsLocatorSupported i (unicast e) 0 s in
  let s' := if b then ls_select i s1 else s1 in
  evolves s s' ∧ flags s' = flags s ∧ ∀ l, l ∈ unicast e → IsLocatorSupported l = true → l ∈ ls_for_each s'.
Proof.
  intros Ei. pose proof (select_unicast_spec i (unicast e) 0 s) as H.
  destruct (select_unicast _ _ _ _ s) as [b s1]. destruct H as (H1 & Ef & H). cbv zeta. split_and!.
  - destruct b; [etrans; [done | apply ls_select_evolves] | done].
  - destruct b; [unfold flags; by rewrite entries_ls_select | done].
  - intros l [k Ek]%list_elem_of_lookup_1 Hsup. destruct (H k l Ek Hsup) as [Hl|[-> Hk]].
    + destruct b; [|done]. eapply for_each_evolves, Hl. apply ls_select_evolves.
    + destruct (Forall2_lookup_l _ _ _ _ _ (ev_entries _ _ H1) Ei) as (e1 & E1 & Hle).
      apply elem_of_ls_for_each. exists i, e1. rewrite entries_ls_select. split_and!; [by eapply ls_select_selects | done|].
      apply elem_of_entry_chosen. right. exists k. split; [by apply (Hk e1 E1) | by rewrite (el_unicast _ _ Hle)].
Qed.

(** What the turn of the loop for the entry at [i] does. *)
Record turn (i : nat) (s s' : LocatorSelector) : Prop := {
  tu_evolves : evolves s s';
  tu_reached e : entries_ s !! i = Some e → transport_should_process e = true → reached s' e;
  tu_flag k e e' : entries_ s !! k = Some e → entries_ s' !! k = Some e' → transport_should_process e = true →
    transport_should_process e' = true ∨ reached s' e'
}.

Lemma turn_skip i s : (∀ e, entries_ s !! i = Some e → transport_should_process e = false) → turn i s s.
Proof.
  intros H. constructor; [done | intros e Ei Ht; rewrite (H e Ei) in Ht; done|]. intros k e e' E E'. rewrite E in E'.
  injection E' as <-. by left.
Qed.

Lemma turn_unicast i s e :
  entries_ s !! i = Some e → (udp = true → unicast e = [] → ∀ l, l ∈ multicast e → IsLocatorSupported l = false) →
  let '(b, s1) := select_unicast IsLocatorSupported i (unicast e) 0 s in turn i s (if b then ls_select i s1 else s1).
Proof.
  intros Ei Hmulti. pose proof (select_all_unicast s i e Ei) as H. destruct (select_unicast _ _ _ _ s) as [b s1].
  destruct H as (He & Ef & H). constructor; [done| |].
  - intros e' Ei' _. rewrite Ei in Ei'. injection Ei' as <-. by right.
  - intros k e1 e2 E1 E2 <-. left. apply (f_equal (.!! k)) in Ef. unfold flags in Ef. rewrite !list_lookup_fmap, E1, E2 in Ef.
    by injection Ef.
Qed.

Lemma turn_multicast i s e j l :
  entries_ s !! i = Some e → multicast e !! j = Some l → IsLocatorSupported l = true →
  turn i s (ls_select i (ls_set_entries (alter (push_multicast j) i (snd (check_and_invalidate (S i) l (entries_ s)))) s)).
Proof.
  intros Ei Ej Hsup. set (es := snd (check_and_invalidate (S i) l (entries_ s))). set (s1 := ls_set_entries (alter _ i es) s).
  assert (evolves s s1) as H1.
  { constructor; [|done]. cbn. etrans; [apply (invalidate_le (S i) l) | apply alter_entry_le, push_multicast_le]. }
  assert (entries_ s1 !! i = Some (push_multicast j e)) as E1.
  { change (entries_ s1) with (alter (push_multicast j) i es). rewrite list_lookup_alter_eq. destruct (Forall2_lookup_l _ _ _ _ _ (invalidate_le (S i) l (entries_ s)) Ei) as (e' & E' & _).
    unfold es. rewrite E'. cbn. apply invalidate_lookup in E' as (e0 & E0 & H). rewrite Ei in E0. injection E0 as <-.
    destruct H as [->|(H & _)]; [done | lia]. }
  assert (l ∈ ls_for_each (ls_select i s1)) as Hl.
  { apply elem_of_ls_for_each. exists i, (push_multicast j e). rewrite entries_ls_select. split_and!; [by eapply ls_select_selects | done|].
    apply elem_of_entry_chosen. left. exists j. cbn. split; [set_solver | done]. }
  constructor.
  - etrans; [done | apply ls_select_evolves].
  - intros e' E' _. rewrite Ei in E'. injection E' as <-. left. exists l. split_and!; [by eapply list_elem_of_lookup_2 | done..].
  - intros k a b Ea Eb Ht. rewrite entries_ls_select in Eb. change (entries_ s1) with (alter (push_multicast j) i es) in Eb.
    rewrite list_lookup_alter in Eb. destruct (decide (i = k)) as [<-|_]; [apply fmap_Some in Eb as (c & Ec & ->)|rename Eb into Ec].
    all: apply invalidate_lookup in Ec as (d & Ed & H); rewrite Ea in Ed; injection Ed as <-.
    all: destruct H as [->|(_ & -> & Hm)]; [by left | right; left; exists l; by split_and!].
Qed.

Lemma udp_turn i s : turn i s (udp_select_entry IsLocatorSupported s i).
Proof.
  unfold udp_select_entry. destruct (entries_ s !! i) as [e|] eqn:Ei; [|apply turn_skip; congruence].
  destruct (transport_should_process e) eqn:Et; [|apply turn_skip; congruence].
  pose proof (select_multicast_spec i (bool_decide (unicast e = [])) (multicast e) 0 s) as H.
  destruct (select_multicast _ _ _ _ _ s) as [b s1]. destruct H as [(-> & -> & Hno)|(-> & k & l & Ek & Hsup & ->)].
  - assert (udp = true → unicast e = [] → ∀ l, l ∈ multicast e → IsLocatorSupported l = false) as Hm
      by (intros _ En; apply Hno; by rewrite En).
    pose proof (turn_unicast i s e Ei Hm) as H. by destruct (select_unicast _ _ _ _ s) as [[] s1].
  - by apply turn_multicast with (e := e).
Qed.

Lemma unicast_turn i s : udp = false → turn i s (unicast_select_entry IsLocatorSupported s i).
Proof.
  intros Eu. unfold unicast_select_entry. destruct (entries_ s !! i) as [e|] eqn:Ei; [|apply turn_skip; congruence].
  destruct (transport_should_process e) eqn:Et; [|apply turn_skip; congruence].
  pose proof (turn_unicast i s e Ei ltac:(congruence)) as H.
  by destruct (select_unicast _ _ _ _ s) as [[] s1].
Qed.

(** Before the turn for [i], an entry is reached or still to be processed. *)
Definition pending (i : nat) (s : LocatorSelector) : Prop := ∀ k e,
  entries_ s !! k = Some e → enabled e = true → reached s e ∨ ((i ≤ k)%nat ∧ transport_should_process e = true).

Lemma pending_turn i s s' : turn i s s' → pending i s → pending (S i) s'.
Proof.
  intros [He Hr Hf] Hp k e' Ek' Hen. destruct (Forall2_lookup_r _ _ _ _ _ (ev_entries _ _ He) Ek') as (e & Ek & Hle).
  destruct (Hp k e Ek) as [H|[Hik Ht]]; [by rewrite <- (el_enabled _ _ Hle) | left; by eapply reached_evolves|].
  destruct (decide (k = i)) as [->|Hk].
  - left. apply (reached_evolves s' s' e e'); [done | done | by apply Hr].
  - destruct (Hf k e e' Ek Ek' Ht); [right; split; [lia | done] | by left].
Qed.

Lemma turns f (Hturn : ∀ i s, turn i s (f s i)) n : ∀ i s,
  pending i s → evolves s (foldl f s (seq i n)) ∧ pending (i + n) (foldl f s (seq i n)).
Proof.
  induction n as [|n IH]; intros i s Hp; cbn; [by rewrite Nat.add_0_r|].
  destruct (IH (S i) (f s i)) as [He Hp']; [by apply (pending_turn i s)|].
  split; [etrans; [apply Hturn | done] | by rewrite Nat.add_succ_r].
Qed.

Lemma transport_starts_evolves s : evolves s (transport_starts s).
Proof.
  constructor; [|done]. cbn. apply Forall2_fmap_r. induction (entries_ s); by repeat constructor.
Qed.

Lemma transport_select_reaches s :
  let s' := transport_select (udp, IsLocatorSupported) s in
  evolves s s' ∧ ∀ e, e ∈ entries_ s' → enabled e = true → reached s' e.
Proof.
  assert (∀ f, (∀ i s, turn i s (f s i)) → let s' := foldl f (transport_starts s) (seq 0 (length (entries_ (transport_starts s)))) in
    evolves s s' ∧ ∀ e, e ∈ entries_ s' → enabled e = true → reached s' e) as Hall.
  { intros f Hf. destruct (turns f Hf (length (entries_ (transport_starts s))) 0 (transport_starts s)) as [He Hp].
    - intros k e Ek Hen. right. split; [lia|]. cbn in Ek. rewrite list_lookup_fmap in Ek. apply fmap_Some in Ek as (e0 & _ & ->). done.
    - split; [etrans; [apply transport_starts_evolves | done]|]. intros e [k Ek]%list_elem_of_lookup_1 Hen.
      destruct (Hp k e Ek Hen) as [|[Hk _]]; [done|]. apply lookup_lt_Some in Ek. rewrite <- (Forall2_length _ _ _ (ev_entries _ _ He)) in Ek. lia. }
  unfold transport_select. cbn [fst snd].
  destruct udp eqn:Eu; [apply (Hall _ udp_turn) | apply (Hall _ (λ i s, unicast_turn i s Eu))].
Qed.
End Reach.

(** ** Nothing else is chosen *)

Section Sound.
Context (P : Locator_t → Prop).

Definition chosen_ok (e : LocatorSelectorEntry) : Prop := ∀ l, l ∈ entry_chosen e → enabled e = true ∧ P l.

Definition entry_sound (e : LocatorSelectorEntry) : Prop := (transport_should_process e = true → enabled e = true) ∧ chosen_ok e.

Lemma chosen_ok_push_unicast j l e : chosen_ok e → enabled e = true → unicast e !! j = Some l → P l → chosen_ok (push_unicast j e).
Proof.
  intros Hc Hen Ej Hl l'. rewrite elem_of_entry_chosen. cbn. intros [(k & Hk & E)|(k & [Hk| ->%list_elem_of_singleton]%elem_of_app & E)].
  - apply Hc, elem_of_entry_chosen. eauto.
  - apply Hc, elem_of_entry_chosen. eauto.
  - rewrite Ej in E. by injection E as <-.
Qed.

Lemma chosen_ok_push_multicast j l e : chosen_ok e → enabled e = true → multicast e !! j = Some l → P l → chosen_ok (push_multicast j e).
Proof.
  intros Hc Hen Ej Hl l'. rewrite elem_of_entry_chosen. cbn. intros [(k & [Hk| ->%list_elem_of_singleton]%elem_of_app & E)|(k & Hk & E)].
  - apply Hc, elem_of_entry_chosen. eauto.
  - rewrite Ej in E. by injection E as <-.
  - apply Hc, elem_of_entry_chosen. eauto.
Qed.

Lemma sound_alter f i es :
  Forall entry_sound es → (∀ e, es !! i = Some e → entry_sound e → entry_sound (f e)) → Forall entry_sound (alter f i es).
Proof.
  intros Hes Hf. apply Forall_lookup. intros k e'. rewrite list_lookup_alter. destruct (decide (i = k)) as [<-|_].
  - intros (e & Ee & ->)%fmap_Some. by eapply Hf, Forall_lookup.
  - by apply Forall_lookup.
Qed.

Lemma sound_invalidate index l es : Forall entry_sound es → Forall entry_sound (snd (check_and_invalidate index l es)).
Proof.
  intros Hes. apply Forall_lookup. intros k e' (e & Ee & He)%invalidate_lookup.
  destruct (proj1 (Forall_lookup _ _) Hes k e Ee) as [Hf Hc]. destruct He as [->|(_ & -> & _)]; by split.
Qed.

Context (IsLocatorSupported : Locator_t → bool) (HP : ∀ l, IsLocatorSupported l = true → P l).

Lemma select_unicast_sound i locators : ∀ j s e,
  Forall entry_sound (entries_ s) → entries_ s !! i = Some e → enabled e = true →
  (∀ k l, locators !! k = Some l → unicast e !! (j + k)%nat = Some l) →
  Forall entry_sound (entries_ (snd (select_unicast IsLocatorSupported i locators j s))).
Proof using HP.
  induction locators as [|l locators IH]; intros j s e Hs Ei Hen Hu; cbn [select_unicast]; [done|].
  assert (∀ k l', locators !! k = Some l' → unicast e !! (S j + k)%nat = Some l') as Hu'.
  { intros k l' Ek. rewrite Nat.add_succ_comm. by apply Hu. }
  destruct (IsLocatorSupported l && negb (is_selected l s)) eqn:Eb; [|by eapply IH].
  apply andb_true_iff in Eb as [Hsup _]. cbn [snd]. apply IH with (e := push_unicast j e); [|cbn..|done].
  - cbn. apply sound_alter; [done|]. intros e' Ei' [Hf Hc]. rewrite Ei in Ei'. injection Ei' as <-. split; [done|].
    apply chosen_ok_push_unicast with (l := l); auto. specialize (Hu 0%nat l eq_refl). by rewrite Nat.add_0_r in Hu.
  - by rewrite list_lookup_alter_eq, Ei.
  - done.
Qed.

Lemma unicast_part_sound s i e :
  Forall entry_sound (entries_ s) → entries_ s !! i = Some e → transport_should_process e = true →
  let '(b, s1) := select_unicast IsLocatorSupported i (unicast e) 0 s in
  Forall entry_sound (entries_ (if b : bool then ls_select i s1 else s1)).
Proof using HP.
  intros Hs Ei Ht. destruct (proj1 (Forall_lookup _ _) Hs i e Ei) as [Hen _].
  pose proof (select_unicast_sound i (unicast e) 0 s e Hs Ei (Hen Ht) (λ _ _ H, H)) as H.
  destruct (select_unicast _ _ _ _ s) as [[] s1]; [rewrite entries_ls_select|]; done.
Qed.

Lemma udp_entry_sound s i : Forall entry_sound (entries_ s) → Forall entry_sound (entries_ (udp_select_entry IsLocatorSupported s i)).
Proof using HP.
  intros Hs. unfold udp_select_entry. destruct (entries_ s !! i) as [e|] eqn:Ei; [|done].
  destruct (transport_should_process e) eqn:Et; [|done].
  pose proof (select_multicast_spec IsLocatorSupported i (bool_decide (unicast e = [])) (multicast e) 0 s) as H.
  destruct (select_multicast _ _ _ _ _ s) as [b s1]. destruct H as [(-> & -> & _)|(-> & k & l & Ek & Hsup & ->)].
  - pose proof (unicast_part_sound s i e Hs Ei Et) as H. by destruct (select_unicast _ _ _ _ s) as [[] s1].
  - rewrite entries_ls_select. apply sound_alter; [by apply sound_invalidate|].
    intros e' (e0 & E0 & He)%invalidate_lookup [Hf Hc]. rewrite Ei in E0. injection E0 as <-.
    destruct He as [->|(Hi & _)]; [|lia]. split; [done|]. apply chosen_ok_push_multicast with (l := l); auto.
Qed.

Lemma unicast_entry_sound s i :
  Forall entry_sound (entries_ s) → Forall entry_sound (entries_ (unicast_select_entry IsLocatorSupported s i)).
Proof using HP.
  intros Hs. unfold unicast_select_entry. destruct (entries_ s !! i) as [e|] eqn:Ei; [|done].
  destruct (transport_should_process e) eqn:Et; [|done].
  pose proof (unicast_part_sound s i e Hs Ei Et) as H. by destruct (select_unicast _ _ _ _ s) as [[] s1].
Qed.

Lemma transport_select_sound udp s :
  Forall chosen_ok (entries_ s) → Forall chosen_ok (entries_ (transport_select (udp, IsLocatorSupported) s)).
Proof using HP.
  intros Hs. assert (Forall entry_sound (entries_ (transport_starts s))) as H0.
  { cbn. apply Forall_fmap. eapply Forall_impl; [done|]. by intros e He. }
  assert (∀ f (l : list nat) s0, (∀ s i, Forall entry_sound (entries_ s) → Forall entry_sound (entries_ (f s i))) →
    Forall entry_sound (entries_ s0) → Forall chosen_ok (entries_ (foldl f s0 l))) as Hfold.
  { intros f l s0 Hf. revert s0. induction l as [|i l IH]; intros s0 Hs0; cbn; [|by apply IH, Hf].
    eapply Forall_impl; [done | by intros e []]. }
  destruct udp; apply Hfold; auto using udp_entry_sound, unicast_entry_sound.
Qed.
End Sound.

(** ** All the transports *)

Lemma selection_start_evolves s : Forall2 (λ e e', unicast e' = unicast e ∧ multicast e' = multicast e ∧ enabled e' = enabled e)
  (entries_ s) (entries_ (selection_start s)).
Proof. cbn. apply Forall2_fmap_r. induction (entries_ s); by repeat constructor. Qed.

Lemma selection_start_sound P s : Forall (chosen_ok P) (entries_ (selection_start s)).
Proof. cbn. apply Forall_fmap, Forall_true. by intros e l ?%elem_of_nil. Qed.

Lemma select_all_evolves transports s : evolves s (foldl (λ s t, transport_select t s) s transports).
Proof.
  revert s. induction transports as [|[udp sup] transports IH]; intros s; cbn; [done|].
  etrans; [apply (transport_select_reaches udp sup s) | apply IH].
Qed.

Lemma select_all_reaches t transports : ∀ s e,
  t ∈ transports → e ∈ entries_ s → enabled e = true → reached (fst t) (snd t) (foldl (λ s t, transport_select t s) s transports) e.
Proof.
  induction transports as [|[udp sup] transports IH]; intros s e Ht He Hen; [by apply elem_of_nil in Ht|]. cbn [foldl].
  destruct (transport_select_reaches udp sup s) as [Hev Hr]. apply list_elem_of_lookup_1 in He as [i Ei].
  destruct (Forall2_lookup_l _ _ _ _ _ (ev_entries _ _ Hev) Ei) as (e' & Ei' & Hle).
  pose proof (list_elem_of_lookup_2 _ _ _ Ei') as He'. rewrite <- (el_enabled _ _ Hle) in Hen.
  assert (∀ s', reached (fst t) (snd t) s' e' → reached (fst t) (snd t) s' e) as Hback.
  { intros s'. unfold reached. by rewrite (el_unicast _ _ Hle), (el_multicast _ _ Hle). }
  apply Hback. apply elem_of_cons in Ht as [->|Ht]; [|by apply IH].
  eapply (reached_evolves _ _ _ _ e' e'); [apply select_all_evolves | done | by apply Hr].
Qed.

Lemma select_all_sound P transports : ∀ s,
  (∀ t l, t ∈ transports → snd t l = true → P l) → Forall (chosen_ok P) (entries_ s) →
  Forall (chosen_ok P) (entries_ (foldl (λ s t, transport_select t s) s transports)).
Proof.
  induction transports as [|[udp sup] transports IH]; intros s HP Hs; cbn [foldl]; [done|].
  apply IH; [intros t l Ht; apply HP; by right|]. apply transport_select_sound; [|done]. intros l. apply (HP (udp, sup)). by left.
Qed.

(** What a transport can reach: an entry with a unicast locator that it supports, or, for UDP, one that
    has no unicast locators but a multicast locator that it supports. *)
Definition reachable_by (t : Transport) (e : LocatorSelectorEntry) : Prop :=
  (∃ l, l ∈ unicast e ∧ snd t l = true) ∨ (fst t = true ∧ unicast e = [] ∧ ∃ l, l ∈ multicast e ∧ snd t l = true).

(** C32. The locators that are selected for the enabled readers are neither too few nor too many. For
    every registered transport and every enabled entry that has a unicast locator the transport supports
    (or, for UDP, has no unicast locators but a supported multicast one), the selection holds a
    supported multicast locator of the entry, or all its supported unicast locators and at least one,
    even when they were left out of the entry because another entry has them. And every selected
    locator is one of an enabled entry, supported by a registered transport. Nothing is promised for an
    entry with unicast locators of which the transport supports none, whatever its multicast locators. *)
Theorem selected_locators_reach_enabled transports s :
  (∀ t e, t ∈ transports → e ∈ entries_ s → enabled e = true → reachable_by t e →
     (∃ l, l ∈ multicast e ∧ snd t l = true ∧ l ∈ ls_for_each (select_locators transports s)) ∨
     (∃ l, l ∈ unicast e ∧ snd t l = true) ∧
     (∀ l, l ∈ unicast e → snd t l = true → l ∈ ls_for_each (select_locators transports s))) ∧
  (∀ l, l ∈ ls_for_each (select_locators transports s) →
     ∃ t e, t ∈ transports ∧ snd t l = true ∧ e ∈ entries_ s ∧ enabled e = true ∧ (l ∈ multicast e ∨ l ∈ unicast e)).
Proof.
  unfold select_locators. split.
  - intros t e Ht [i Ei]%list_elem_of_lookup_1 Hen Hcan.
    destruct (Forall2_lookup_l _ _ _ _ _ (selection_start_evolves s) Ei) as (e' & Ei' & Eu & Em & Een).
    destruct (select_all_reaches t transports (selection_start s) e') as [Hmul|[Hno Huni]];
      [done | by eapply list_elem_of_lookup_2 | by rewrite Een | left; by rewrite <- Em |].
    right. rewrite Eu in Huni, Hno. rewrite Em in Hno. split; [|done].
    destruct Hcan as [|(Hudp & Enil & l & Hl & Hsup)]; [done|]. rewrite (Hno Hudp Enil l Hl) in Hsup. done.
  - intros l (i & e & _ & Ei & Hl)%elem_of_ls_for_each.
    pose proof (select_all_sound (λ l, ∃ t, t ∈ transports ∧ snd t l = true) transports (selection_start s)) as Hs.
    destruct (proj1 (Forall_lookup _ _) (Hs (λ t l Ht Hl, ex_intro _ t (conj Ht Hl)) (selection_start_sound _ s)) i e Ei l Hl) as (Hen & t & Ht & Hsup).
    destruct (Forall2_lookup_r _ _ _ _ _ (ev_entries _ _ (select_all_evolves transports (selection_start s))) Ei) as (e1 & E1 & Hle).
    destruct (Forall2_lookup_r _ _ _ _ _ (selection_start_evolves s) E1) as (e0 & E0 & Eu & Em & Een).
    exists t, e0. split_and!; [done..|by eapply list_elem_of_lookup_2|by rewrite <- Een, <- (el_enabled _ _ Hle)|].
    rewrite <- Eu, <- Em, <- (el_unicast _ _ Hle), <- (el_multicast _ _ Hle).
    apply elem_of_entry_chosen in Hl as [(j & _ & Ej)|(j & _ & Ej)]; eauto using list_elem_of_lookup_2.
Qed.

(** Two UDP readers: the second one is reached by the multicast locator that both have. *)
Definition ex_locator (o : Z) : Locator_t := Locator LOCATOR_KIND_UDPv4 7400 (replicate 12 0 ++ [o; 0; 0; 1]).
Definition ex_entry (k : Z) (uni multi : list Locator_t) : LocatorSelectorEntry :=
  {| remote_guid := Guid c_GuidPrefix_Unknown (ent_of_u32 k); unicast := uni; multicast := multi; state_unicast := [];
     state_multicast := []; enabled := true; transport_should_process := false |}.
Definition ex_selector : LocatorSelector :=
  {| entries_ := [ex_entry 1 [ex_locator 10] [ex_locator 239]; ex_entry 2 [ex_locator 11] [ex_locator 239]; ex_entry 3 [ex_locator 12] []];
     selections_ := []; last_state_ := [] |}.

Lemma selected_locators_reach_enabled_witness :
  let e := ex_entry 2 [ex_locator 11] [ex_locator 239] in
  let selected := ls_for_each (select_locators [(true, λ _, true)] ex_selector) in
  ((∃ l, l ∈ multicast e ∧ true = true ∧ l ∈ selected) ∨
   (∃ l, l ∈ unicast e ∧ true = true) ∧ (∀ l, l ∈ unicast e → true = true → l ∈ selected)) ∧
  selected = [ex_locator 239; ex_locator 12].
Proof.
  split; [|by vm_compute].
  apply (proj1 (selected_locators_reach_enabled [(true, λ _, true)] ex_selector) (true, λ _, true) (ex_entry 2 [ex_locator 11] [ex_locator 239]));
    [by left | right; by left | done | left; exists (ex_locator 11); split; [by left | done]].
Defined.
