(* ===== verification/StatefulWriter.v ===== *)
(** * StatefulWriter (src/cpp/rtps/writer/StatefulWriter.cpp, BaseWriter.cpp)

    The writer of the reliable protocol: it owns a [ReaderProxy] per matched
    reader, in three lists, and a [WriterHistory].

    Submessages handed to a message group, calls to the readers of the same
    process, to the flow controller, to the listener and to the timed events are
    effects. A handler runs in a monad [M] over the state of the writer and the
    effects so far. The message group that the flow controller lends to
    [deliver_sample_nts] may refuse a submessage or throw; what it answers is a
    parameter. The groups that the writer creates itself block for up to a day and
    do not throw. *)

From Stdlib Require Import ZArith Lia ZifyBool.
From stdpp Require Import base numbers list option list_numbers.
From S2P Require Import Prelude SequenceNumber BitmapRange SortedRange Guid TimedEvent Time CacheChange ChangeForReader GapBuilder ReaderHistory ReaderProxy WriterHistory LocatorSelector.

Open Scope Z_scope.

(** ** Environment *)

(** What a message group answers to a submessage or to a flush: that it took it, that it returned
    false, or what it threw. *)
Inductive GroupAnswer := GAdded | GRefused | GTimeout | GLimitExceeded.

(** The attributes of the writer, and what it asks its surroundings for: the readers' content
    filter, the participant's intraprocess decision, registered transports and filter of locators, the answers of the
    readers of the same process to a sample ([None] when such a reader is gone), of the flow
    controller to the removal of a change and of the writer's own message groups to a GAP. *)
Record WriterConfig := {
  wc_history : WriterHistoryConfig;
  wc_push_mode : bool;
  wc_disable_heartbeat_piggyback : bool;
  wc_disable_positive_acks : bool;
  wc_separate_sending : bool;
  wc_durability : DurabilityKind_t;
  wc_max_readers : Z;
  wc_sendBufferSize : Z;
  wc_datasharing_compatible : bool;
  wc_finite_lease : bool;
  wc_reader_events : option (Z * Z);
  wc_data_filter : option (CacheChange_t → GUID_t → bool);
  wc_should_intraprocess : GUID_t → bool;
  wc_local_reader : GUID_t → option (CacheChange_t → bool);
  wc_flow_remove : CacheChange_t → bool;
  wc_add_gap : Gap → bool;
  wc_transports : list Transport;
  wc_filter_remote_locators : list Locator_t → list Locator_t;
  (** The listener, if there is one: the numbers of the changes that it removes from the history
      when it is told that a change has been received by all the readers. *)
  wc_listener : option (list CacheChange_t → CacheChange_t → list SequenceNumber_t)
}.

Definition wc_guid (cfg : WriterConfig) : GUID_t := wh_writer_guid (wc_history cfg).

(** ** State *)

Record LocatorSelectorSender := {
  locator_selector : LocatorSelector;
  all_remote_readers : list GUID_t
}.

Record StatefulWriter := {
  matched_local_readers_ : list ReaderProxy;
  matched_datasharing_readers_ : list ReaderProxy;
  matched_remote_readers_ : list ReaderProxy;
  matched_readers_pool_ : list ReaderProxy;
  history_ : WriterHistory;
  heartbeat_count_ : Z;
  next_all_acked_notify_sequence_ : SequenceNumber_t;
  min_readers_low_mark_ : SequenceNumber_t;
  all_acked_ : bool;
  may_remove_change_ : Z;
  last_sequence_number_ : SequenceNumber_t;
  biggest_removed_sequence_number_ : SequenceNumber_t;
  currentUsageSendBufferSize_ : Z;
  there_are_remote_readers_ : bool;
  there_are_local_readers_ : bool;
  there_are_datasharing_readers_ : bool;
  locator_selector_general_ : LocatorSelectorSender;
  locator_selector_async_ : LocatorSelectorSender
}.

(** To whom a submessage goes: to one reader, or to the readers selected in the locator selector. *)
Inductive Destination := ToReader (reader : GUID_t) | ToSelected (readers : list GUID_t).

Inductive ReaderDiscoveryStatus := DISCOVERED_READER | CHANGED_QOS_READER | REMOVED_READER.

Inductive SWEffect :=
| FromReader (reader : GUID_t) (e : RPEffect)
| AddHeartbeat (dst : Destination) (first last : SequenceNumber_t) (count : Z) (final liveliness : bool)
| AddGap (dst : Destination) (gap : Gap)
| AddData (dst : Destination) (seq : SequenceNumber_t) (inline_qos : bool)
| AddDataFrag (dst : Destination) (seq : SequenceNumber_t) (fragment : FragmentNumber_t) (inline_qos : bool)
| FlushGroup
| LocalData (reader : GUID_t) (seq : SequenceNumber_t)
| LocalGap (reader : GUID_t) (first last : SequenceNumber_t)
| LocalHeartbeat (reader : GUID_t) (count : Z) (first last : SequenceNumber_t) (liveliness : bool)
| DatasharingNotify (reader : GUID_t)
| DatasharingAdd (seq : SequenceNumber_t)
| DatasharingRemove (seq : SequenceNumber_t)
| DatasharingAssertLiveliness
| FlowAddNew (seq : SequenceNumber_t)
| FlowAddOld (seq : SequenceNumber_t)
| FlowRemove (seq : SequenceNumber_t)
| RestartPeriodicHeartbeat
| CancelPeriodicHeartbeat
| RestartNackResponse
| RestartAckEvent (seq : option SequenceNumber_t)
| UpdateAckInterval (seq : option SequenceNumber_t)
| UpdateHeartbeatInterval (d : Duration_t)
| UpdateNackResponseInterval (d : Duration_t)
| OnChangeReceivedByAll (seq : SequenceNumber_t)
| OnReaderDiscovery (status : ReaderDiscoveryStatus) (reader : GUID_t)
| AssertLiveliness
| AllAcked
| MayRemove
| OnResentData (n : Z)
| OnPublishThroughput (length : Z)
| ReleaseChange (seq : SequenceNumber_t).

(** ** The monad *)

(** The state of a run: the writer, the effects in order, the number of answers used and the
    sender of the lent message group, a reader or the locator selector. *)
Record Run := { run_writer : StatefulWriter; run_effects : list SWEffect; run_answers : nat; run_sender : option GUID_t }.

(** The state in which a handler is called. *)
Definition start_run (w : StatefulWriter) : Run :=
  {| run_writer := w; run_effects := []; run_answers := 0; run_sender := None |}.

(** [Undefined] is an access outside a container, [OutOfFuel] a loop that is still running. *)
Inductive Outcome (A : Type) := Done (a : A) | Threw (e : GroupAnswer) | Undefined | OutOfFuel.
Arguments Done {A} _.
Arguments Threw {A} _.
Arguments Undefined {A}.
Arguments OutOfFuel {A}.

Definition M (A : Type) : Type := Run → Outcome A * Run.

Definition ret {A} (a : A) : M A := λ s, (Done a, s).
Definition bind {A B} (m : M A) (f : A → M B) : M B := λ s,
  match m s with
  | (Done a, s') => f a s'
  | (Threw e, s') => (Threw e, s')
  | (Undefined, s') => (Undefined, s')
  | (OutOfFuel, s') => (OutOfFuel, s')
  end.

Definition undefined {A} : M A := λ s, (Undefined, s).
Definition out_of_fuel {A} : M A := λ s, (OutOfFuel, s).
Definition gets {A} (f : StatefulWriter → A) : M A := λ s, (Done (f (run_writer s)), s).
Definition modify (f : StatefulWriter → StatefulWriter) : M unit := λ s,
  (Done tt, {| run_writer := f (run_writer s); run_effects := run_effects s; run_answers := run_answers s;
              run_sender := run_sender s |}).
Definition emit (l : list SWEffect) : M unit := λ s,
  (Done tt, {| run_writer := run_writer s; run_effects := run_effects s ++ l; run_answers := run_answers s;
              run_sender := run_sender s |}).
Definition when (b : bool) (m : M unit) : M unit := if b then m else ret tt.

(** [try] with a handler for what the message group throws. *)
Definition try_catch {A} (m : M A) (handler : GroupAnswer → M A) : M A := λ s,
  match m s with
  | (Threw e, s') => handler e s'
  | r => r
  end.

Declare Scope writer_scope.
Delimit Scope writer_scope with wr.
Notation "x <- m ;; k" := (bind m (λ x, k)) (at level 100, m at next level, k at level 200, right associativity) : writer_scope.
Notation "m ;; k" := (bind m (λ _, k)) (at level 100, k at level 200, right associativity) : writer_scope.
Open Scope writer_scope.

(** The loop over a container, also with a value that the body updates. *)
Fixpoint for_each {A} (l : list A) (f : A → M unit) : M unit :=
  match l with
  | [] => ret tt
  | x :: l' => f x ;; for_each l' f
  end.

Fixpoint fold_each {A B} (l : list A) (f : B → A → M B) (acc : B) : M B :=
  match l with
  | [] => ret acc
  | x :: l' => acc' <- f acc x ;; fold_each l' f acc'
  end.

(** ** Assignments *)

Inductive ReaderKind := LocalReader | DatasharingReader | RemoteReader.

#[global] Instance ReaderKind_eq_dec : EqDecision ReaderKind.
Proof. solve_decision. Defined.

Definition readers_of (k : ReaderKind) (w : StatefulWriter) : list ReaderProxy :=
  match k with
  | LocalReader => matched_local_readers_ w
  | DatasharingReader => matched_datasharing_readers_ w
  | RemoteReader => matched_remote_readers_ w
  end.

Definition sw_set_readers (local datasharing remote pool : list ReaderProxy) (w : StatefulWriter) : StatefulWriter :=
  {| matched_local_readers_ := local; matched_datasharing_readers_ := datasharing; matched_remote_readers_ := remote;
     matched_readers_pool_ := pool; history_ := history_ w; heartbeat_count_ := heartbeat_count_ w;
     next_all_acked_notify_sequence_ := next_all_acked_notify_sequence_ w; min_readers_low_mark_ := min_readers_low_mark_ w;
     all_acked_ := all_acked_ w; may_remove_change_ := may_remove_change_ w; last_sequence_number_ := last_sequence_number_ w;
     biggest_removed_sequence_number_ := biggest_removed_sequence_number_ w;
     currentUsageSendBufferSize_ := currentUsageSendBufferSize_ w; there_are_remote_readers_ := there_are_remote_readers_ w;
     there_are_local_readers_ := there_are_local_readers_ w; there_are_datasharing_readers_ := there_are_datasharing_readers_ w;
     locator_selector_general_ := locator_selector_general_ w; locator_selector_async_ := locator_selector_async_ w |}.

Definition set_readers_of (k : ReaderKind) (l : list ReaderProxy) (w : StatefulWriter) : StatefulWriter :=
  match k with
  | LocalReader => sw_set_readers l (matched_datasharing_readers_ w) (matched_remote_readers_ w) (matched_readers_pool_ w) w
  | DatasharingReader => sw_set_readers (matched_local_readers_ w) l (matched_remote_readers_ w) (matched_readers_pool_ w) w
  | RemoteReader => sw_set_readers (matched_local_readers_ w) (matched_datasharing_readers_ w) l (matched_readers_pool_ w) w
  end.

Definition sw_set_pool (l : list ReaderProxy) (w : StatefulWriter) : StatefulWriter :=
  sw_set_readers (matched_local_readers_ w) (matched_datasharing_readers_ w) (matched_remote_readers_ w) l w.

Definition sw_set_history (h : WriterHistory) (w : StatefulWriter) : StatefulWriter :=
  {| matched_local_readers_ := matched_local_readers_ w; matched_datasharing_readers_ := matched_datasharing_readers_ w;
     matched_remote_readers_ := matched_remote_readers_ w; matched_readers_pool_ := matched_readers_pool_ w; history_ := h;
     heartbeat_count_ := heartbeat_count_ w; next_all_acked_notify_sequence_ := next_all_acked_notify_sequence_ w;
     min_readers_low_mark_ := min_readers_low_mark_ w; all_acked_ := all_acked_ w; may_remove_change_ := may_remove_change_ w;
     last_sequence_number_ := last_sequence_number_ w; biggest_removed_sequence_number_ := biggest_removed_sequence_number_ w;
     currentUsageSendBufferSize_ := currentUsageSendBufferSize_ w; there_are_remote_readers_ := there_are_remote_readers_ w;
     there_are_local_readers_ := there_are_local_readers_ w; there_are_datasharing_readers_ := there_are_datasharing_readers_ w;
     locator_selector_general_ := locator_selector_general_ w; locator_selector_async_ := locator_selector_async_ w |}.

Definition sw_set_ack (next min_low : SequenceNumber_t) (all_acked : bool) (may_remove : Z) (w : StatefulWriter) : StatefulWriter :=
  {| matched_local_readers_ := matched_local_readers_ w; matched_datasharing_readers_ := matched_datasharing_readers_ w;
     matched_remote_readers_ := matched_remote_readers_ w; matched_readers_pool_ := matched_readers_pool_ w;
     history_ := history_ w; heartbeat_count_ := heartbeat_count_ w; next_all_acked_notify_sequence_ := next;
     min_readers_low_mark_ := min_low; all_acked_ := all_acked; may_remove_change_ := may_remove;
     last_sequence_number_ := last_sequence_number_ w; biggest_removed_sequence_number_ := biggest_removed_sequence_number_ w;
     currentUsageSendBufferSize_ := currentUsageSendBufferSize_ w; there_are_remote_readers_ := there_are_remote_readers_ w;
     there_are_local_readers_ := there_are_local_readers_ w; there_are_datasharing_readers_ := there_are_datasharing_readers_ w;
     locator_selector_general_ := locator_selector_general_ w; locator_selector_async_ := locator_selector_async_ w |}.

Definition sw_set_counters (hb_count : Z) (usage : Z) (last_seq biggest_removed : SequenceNumber_t) (w : StatefulWriter) : StatefulWriter :=
  {| matched_local_readers_ := matched_local_readers_ w; matched_datasharing_readers_ := matched_datasharing_readers_ w;
     matched_remote_readers_ := matched_remote_readers_ w; matched_readers_pool_ := matched_readers_pool_ w;
     history_ := history_ w; heartbeat_count_ := hb_count;
     next_all_acked_notify_sequence_ := next_all_acked_notify_sequence_ w; min_readers_low_mark_ := min_readers_low_mark_ w;
     all_acked_ := all_acked_ w; may_remove_change_ := may_remove_change_ w; last_sequence_number_ := last_seq;
     biggest_removed_sequence_number_ := biggest_removed; currentUsageSendBufferSize_ := usage;
     there_are_remote_readers_ := there_are_remote_readers_ w; there_are_local_readers_ := there_are_local_readers_ w;
     there_are_datasharing_readers_ := there_are_datasharing_readers_ w;
     locator_selector_general_ := locator_selector_general_ w; locator_selector_async_ := locator_selector_async_ w |}.

Definition sw_set_selectors (general async : LocatorSelectorSender) (remote local datasharing : bool) (w : StatefulWriter) : StatefulWriter :=
  {| matched_local_readers_ := matched_local_readers_ w; matched_datasharing_readers_ := matched_datasharing_readers_ w;
     matched_remote_readers_ := matched_remote_readers_ w; matched_readers_pool_ := matched_readers_pool_ w;
     history_ := history_ w; heartbeat_count_ := heartbeat_count_ w;
     next_all_acked_notify_sequence_ := next_all_acked_notify_sequence_ w; min_readers_low_mark_ := min_readers_low_mark_ w;
     all_acked_ := all_acked_ w; may_remove_change_ := may_remove_change_ w; last_sequence_number_ := last_sequence_number_ w;
     biggest_removed_sequence_number_ := biggest_removed_sequence_number_ w;
     currentUsageSendBufferSize_ := currentUsageSendBufferSize_ w; there_are_remote_readers_ := remote;
     there_are_local_readers_ := local; there_are_datasharing_readers_ := datasharing;
     locator_selector_general_ := general; locator_selector_async_ := async |}.

(** The selector that a message group sends through: the general one, or the one of the
    asynchronous flow controllers. *)
Definition selector (general : bool) (w : StatefulWriter) : LocatorSelectorSender :=
  if general then locator_selector_general_ w else locator_selector_async_ w.

Definition set_selector (general : bool) (s : LocatorSelectorSender) (w : StatefulWriter) : StatefulWriter :=
  sw_set_selectors (if general then s else locator_selector_general_ w) (if general then locator_selector_async_ w else s)
    (there_are_remote_readers_ w) (there_are_local_readers_ w) (there_are_datasharing_readers_ w) w.

Definition all_readers (w : StatefulWriter) : list ReaderProxy :=
  matched_local_readers_ w ++ matched_datasharing_readers_ w ++ matched_remote_readers_ w.

Definition get_matched_readers_size (w : StatefulWriter) : Z := Z.of_nat (length (all_readers w)).

Section Writer.
Context (cfg : WriterConfig).

(** ** Readers *)

(** What the writer tells its proxies. *)
Definition writer_info (w : StatefulWriter) : WriterInfo :=
  {| wi_seq_num_min := get_seq_num_min (history_ w);
     wi_next_sequence_number := wh_next_sequence_number (history_ w);
     wi_get_change := λ seq, wh_get_change seq (wc_guid cfg) (history_ w);
     wi_data_filter := wc_data_filter cfg;
     wi_should_intraprocess := wc_should_intraprocess cfg |}.

(** A matched reader is named by its list and its index in it. *)
Definition Position : Type := ReaderKind * nat.

Definition positions_of (k : ReaderKind) (w : StatefulWriter) : list Position := pair k <$> seq 0 (length (readers_of k w)).
Definition positions (w : StatefulWriter) : list Position :=
  positions_of LocalReader w ++ positions_of DatasharingReader w ++ positions_of RemoteReader w.

Definition reader_at (p : Position) (w : StatefulWriter) : option ReaderProxy := readers_of (fst p) w !! snd p.
Definition set_reader (p : Position) (r : ReaderProxy) (w : StatefulWriter) : StatefulWriter :=
  set_readers_of (fst p) (<[snd p := r]> (readers_of (fst p) w)) w.

(** The first reader with a GUID, in the order of [for_matched_readers]. *)
Definition find_reader (guid : GUID_t) (w : StatefulWriter) : option Position :=
  List.find (λ p, match reader_at p w with Some r => guid_eqb (rp_guid r) guid | None => false end) (positions w).

Definition the_reader (p : Position) : M ReaderProxy :=
  o <- gets (reader_at p) ;; match o with Some r => ret r | None => undefined end.

(** A call of a method of a proxy: its result, the proxy and the effects. *)
Definition on_reader {A} (p : Position) (f : WriterInfo → ReaderProxy → option (A * ReaderProxy * list RPEffect)) : M A :=
  r <- the_reader p ;;
  wi <- gets writer_info ;;
  match f wi r with
  | Some (a, r', effects) => modify (set_reader p r') ;; emit (FromReader (rp_guid r) <$> effects) ;; ret a
  | None => undefined
  end.

Definition rp_acked_changes_set (p : Position) (seq : SequenceNumber_t) : M unit :=
  on_reader p (λ wi r, Some (tt, acked_changes_set wi seq r, [])).

Definition rp_from_unsent_to_status (p : Position) (seq : SequenceNumber_t) (status : ChangeForReaderStatus_t)
    (restart delivered : bool) : M unit :=
  on_reader p (λ wi r, '(r', effects) ← from_unsent_to_status wi seq status restart delivered r; Some (tt, r', effects)).

(** ** Heartbeats and gaps *)

Definition increment_hb_count : M unit :=
  modify (λ w, sw_set_counters (u32 (heartbeat_count_ w + 1)) (currentUsageSendBufferSize_ w) (last_sequence_number_ w)
                 (biggest_removed_sequence_number_ w) w).

(** The answer of the local reader is not used by the callers. *)
Definition intraprocess_gap (p : Position) (first_seq last_seq : SequenceNumber_t) : M unit :=
  r <- the_reader p ;;
  match wc_local_reader cfg (rp_guid r) with
  | Some _ => emit [LocalGap (rp_guid r) first_seq last_seq]
  | None => ret tt
  end.

Definition intraprocess_heartbeat (p : Position) (liveliness : bool) : M unit :=
  r <- the_reader p ;;
  match wc_local_reader cfg (rp_guid r) with
  | None => ret tt
  | Some _ =>
      h <- gets history_ ;;
      let '(first_seq, last_seq) :=
        if ((get_seq_num_min h =? sn_unknown)%sn || (get_seq_num_max h =? sn_unknown)%sn) && liveliness
        then (wh_next_sequence_number h, (wh_next_sequence_number h - 1)%sn)
        else (get_seq_num_min h, get_seq_num_max h) in
      when (sn_neb first_seq sn_unknown && sn_neb last_seq sn_unknown && (liveliness || has_changes r))
        (increment_hb_count ;;
         count <- gets heartbeat_count_ ;;
         emit [LocalHeartbeat (rp_guid r) count first_seq last_seq liveliness])
  end.

(** [add] hands a submessage to the message group. *)
Definition send_heartbeat_nts_ (add : SWEffect → M bool) (number_of_readers : Z) (dst : Destination)
    (final liveliness : bool) : M unit :=
  if number_of_readers =? 0 then ret tt
  else
    h <- gets history_ ;;
    let unknown := (get_seq_num_min h =? sn_unknown)%sn || (get_seq_num_max h =? sn_unknown)%sn in
    if unknown && negb ((number_of_readers =? 1) || liveliness) then ret tt
    else
      let '(firstSeq, lastSeq) :=
        if unknown then (wh_next_sequence_number h, (wh_next_sequence_number h - 1)%sn)
        else (get_seq_num_min h, get_seq_num_max h) in
      increment_hb_count ;;
      count <- gets heartbeat_count_ ;;
      add (AddHeartbeat dst firstSeq lastSeq count final liveliness) ;;
      modify (λ w, sw_set_counters (heartbeat_count_ w) (i32 (wc_sendBufferSize cfg)) (last_sequence_number_ w)
                     (biggest_removed_sequence_number_ w) w).

(** A message group of the writer's own. *)
Definition own_add (e : SWEffect) : M bool := emit [e] ;; ret true.

(** The inner loop [while (prev != seq)]; the fuel is the distance. *)
Fixpoint missing_up_to (n : nat) (prev seq : SequenceNumber_t) : list SequenceNumber_t :=
  match n with
  | O => []
  | S n' => if (prev =? seq)%sn then [] else prev :: missing_up_to n' (sn_incr prev) seq
  end.

Fixpoint holes_from (prev : SequenceNumber_t) (l : list CacheChange_t) : list SequenceNumber_t :=
  match l with
  | [] => []
  | c :: l' => missing_up_to (Z.to_nat (snz (sequenceNumber c) - snz prev)) prev (sequenceNumber c) ++
               holes_from (sn_incr (sequenceNumber c)) l'
  end.

Definition holes_in_history (h : WriterHistory) : list SequenceNumber_t :=
  match wh_changes h with
  | [] => []
  | c :: l =>
      if u64 (to64long (get_seq_num_max h) - to64long (get_seq_num_min h) + 1) =? Z.of_nat (length (wh_changes h)) then []
      else holes_from (sequenceNumber c + 1)%sn l
  end.

Definition add_gaps_for_holes_in_history (dst : Destination) : M unit :=
  h <- gets history_ ;; emit (AddGap dst <$> gb_build (wc_add_gap cfg) (holes_in_history h)).

(** ** Selection of locators *)

Definition select_and_compute (s : LocatorSelectorSender) : LocatorSelectorSender :=
  let s' := select_locators (wc_transports cfg) (locator_selector s) in
  {| locator_selector := s'; all_remote_readers := selected_guids s' |}.

Definition on_selector (general : bool) (f : LocatorSelector → LocatorSelector) : M unit :=
  modify (λ w, let s := selector general w in
               set_selector general {| locator_selector := f (locator_selector s); all_remote_readers := all_remote_readers s |} w).

(** [update_reader_info] on one of the two selectors; the creation of sender resources is left out. *)
Definition update_reader_info (general : bool) : M unit :=
  on_selector general (ls_reset true) ;;
  modify (λ w, set_selector general (select_and_compute (selector general w)) w) ;;
  modify (λ w, sw_set_selectors (locator_selector_general_ w) (locator_selector_async_ w)
                 (negb (bool_decide (matched_remote_readers_ w = []))) (negb (bool_decide (matched_local_readers_ w = [])))
                 (negb (bool_decide (matched_datasharing_readers_ w = []))) w).

(** [flush] is [flush_and_reset] of the message group. *)
Definition select_all_readers_nts (flush : M unit) (general : bool) : M unit :=
  on_selector general (ls_reset true) ;;
  changed <- gets (λ w, state_has_changed (locator_selector (selector general w))) ;;
  when changed (flush ;; modify (λ w, set_selector general (select_and_compute (selector general w)) w)).

(** ** Removal of changes *)

Definition change_removed_by_history (a_change : CacheChange_t) : M bool :=
  let sequence_number := sequenceNumber a_change in
  if wc_flow_remove cfg a_change then
    emit [FlowRemove sequence_number] ;;
    modify (λ w, sw_set_counters (heartbeat_count_ w) (currentUsageSendBufferSize_ w) (last_sequence_number_ w)
                   (if (sequence_number >? biggest_removed_sequence_number_ w)%sn then sequence_number
                    else biggest_removed_sequence_number_ w) w) ;;
    ps <- gets positions ;;
    for_each ps (λ p, on_reader p (λ wi r, let '(r', effects) := change_has_been_removed wi sequence_number r in
                                           Some (tt, r', effects))) ;;
    when (wc_datasharing_compatible cfg) (emit [DatasharingRemove sequence_number]) ;;
    modify (λ w, sw_set_ack (next_all_acked_notify_sequence_ w) (min_readers_low_mark_ w) (all_acked_ w) 2 w) ;;
    emit [MayRemove] ;;
    ret true
  else ret false.

(** [WriterHistory::remove_change_nts]: the iterator it returns. *)
Definition remove_change_nts (removal : nat) (release : bool) : M nat :=
  o <- gets (λ w, wh_changes (history_ w) !! removal) ;;
  match o with
  | None => ret removal
  | Some change =>
      informed <- change_removed_by_history change ;;
      when informed (modify (λ w, sw_set_history (wh_erase removal (history_ w)) w) ;;
                     when release (emit [ReleaseChange (sequenceNumber change)])) ;;
      ret removal
  end.

(** [History::remove_change], also called [remove_change_g]. *)
Definition remove_change (ch : CacheChange_t) : M bool :=
  it <- gets (λ w, wh_find_change_nts (wc_history cfg) ch (history_ w)) ;;
  found <- gets (λ w, wh_changes (history_ w) !! it) ;;
  match found with
  | None => ret false
  | Some dummy_change =>
      history_it <- remove_change_nts it true ;;
      after <- gets (λ w, wh_changes (history_ w) !! history_it) ;;
      ret (match after with Some c => negb (wh_matches_change (wc_history cfg) dummy_change c) | None => true end)
  end.

(** A change with the number and the GUID only, as [remove_change_and_reuse] makes one. *)
Definition numbered_change (seq : SequenceNumber_t) : CacheChange_t :=
  {| cc_kind := ALIVE; writerGUID := wc_guid cfg; instanceHandle := None; sequenceNumber := seq;
     serializedPayload := pl_default; inline_qos := pl_default; sourceTimestamp := time_zero; vendor_id := [0; 0];
     fragment_size_ := 0; fragment_count_ := 0; first_missing_fragment_ := 0 |}.

(** The change leaves the history but is not released: it is returned. *)
Definition remove_change_and_reuse (sequence_number : SequenceNumber_t) : M (option CacheChange_t) :=
  it <- gets (λ w, wh_find_change_nts (wc_history cfg) (numbered_change sequence_number) (history_ w)) ;;
  removal <- gets (λ w, wh_changes (history_ w) !! it) ;;
  match removal with
  | None => ret None
  | Some c => remove_change_nts it false ;; ret (Some c)
  end.

(** [remove_change(const SequenceNumber_t&)] *)
Definition remove_change_by_number (sequence_number : SequenceNumber_t) : M bool :=
  p <- remove_change_and_reuse sequence_number ;;
  match p with
  | Some c => emit [ReleaseChange (sequenceNumber c)] ;; ret true
  | None => ret false
  end.

Definition remove_min_change : M bool :=
  front <- gets (λ w, head (wh_changes (history_ w))) ;;
  match front with
  | Some c => remove_change c
  | None => ret false
  end.

(** ** Acknowledgement *)

Definition is_acked_by_all_nts (seq : SequenceNumber_t) (w : StatefulWriter) : bool :=
  (seq <? next_all_acked_notify_sequence_ w)%sn || negb (existsb (λ r, negb (change_is_acked seq r)) (all_readers w)).

Definition all_readers_updated (w : StatefulWriter) : bool := negb (existsb has_changes (all_readers w)).

(** The loop over the readers: whether none of them has changes, and the smallest low mark. *)
Definition scan_low_marks (w : StatefulWriter) : bool * SequenceNumber_t :=
  let '(all_acked, _, min_low_mark) :=
    foldl (λ acc r, let '(all_acked, has_min, min_low_mark) := acc in
                    let smaller := (changes_low_mark_ r <? min_low_mark)%sn || negb has_min in
                    (all_acked && negb (has_changes r), has_min || smaller,
                     if smaller then changes_low_mark_ r else min_low_mark))
      (true, false, (wh_next_sequence_number (history_ w) - 1)%sn) (all_readers w) in
  (all_acked, min_low_mark).

(** The call of the listener, which may remove changes. *)
Definition on_writer_change_received_by_all (change : CacheChange_t) : M unit :=
  emit [OnChangeReceivedByAll (sequenceNumber change)] ;;
  match wc_listener cfg with
  | Some removes =>
      h <- gets history_ ;;
      for_each (removes (wh_changes h) change)
        (λ seq, o <- gets (λ w, wh_get_change seq (wc_guid cfg) (history_ w)) ;;
                match o with Some c => remove_change c ;; ret tt | None => ret tt end)
  | None => ret tt
  end.

(** The [do] loop: [cit] is an index of the history. It moves down at every turn, so that the fuel
    of one more than the size of the history is enough. *)
Fixpoint notify_received (fuel : nat) (cit : nat) (end_seq : SequenceNumber_t) : M unit :=
  match fuel with
  | O => out_of_fuel
  | S fuel' =>
      o <- gets (λ w, wh_changes (history_ w) !! cit) ;;
      match o with
      | None => undefined
      | Some change =>
          let seq := sequenceNumber change in
          next <- gets next_all_acked_notify_sequence_ ;;
          if (seq <? next)%sn then ret tt
          else
            on_writer_change_received_by_all change ;;
            if (seq >? end_seq)%sn then notify_received fuel' (pred cit) end_seq else ret tt
      end
  end.

(** The iterator after the change with the smallest low mark, or after the changes below it. *)
Definition after_low_mark (min_low_mark : SequenceNumber_t) (changes : list CacheChange_t) : nat :=
  let lb := std_lower_bound (λ c, (sequenceNumber c <? min_low_mark)%sn) changes in
  match changes !! lb with
  | Some c => if (sequenceNumber c =? min_low_mark)%sn then S lb else lb
  | None => lb
  end.

Definition check_acked_status : M unit :=
  w <- gets id ;;
  let '(all_acked, min_low_mark) := scan_low_marks w in
  let min_seq := get_seq_num_min (history_ w) in
  when (sn_neb min_seq sn_unknown)
    (when (next_all_acked_notify_sequence_ w <=? min_low_mark)%sn
       (when (bool_decide (is_Some (wc_listener cfg)) && (min_low_mark >=? min_seq)%sn)
          (let changes := wh_changes (history_ w) in
           let end_seq := if (min_seq >? next_all_acked_notify_sequence_ w)%sn then min_seq
                          else next_all_acked_notify_sequence_ w in
           match after_low_mark min_low_mark changes with O => undefined | S cit' => notify_received (S (length changes)) cit' end_seq end) ;;
        modify (λ w, sw_set_ack (min_low_mark + 1)%sn (min_readers_low_mark_ w) (all_acked_ w) (may_remove_change_ w) w)) ;;
     modify (λ w, let min_seq' := get_seq_num_min (history_ w) in
                  sw_set_ack (next_all_acked_notify_sequence_ w) min_low_mark (all_acked_ w)
                    (if (min_low_mark >=? min_seq')%sn then if (min_seq' =? sn_unknown)%sn then 2 else 1
                     else may_remove_change_ w) w)) ;;
  when all_acked
    (modify (λ w, let next_seq := wh_next_sequence_number (history_ w) in
                  sw_set_ack next_seq (next_seq - 1)%sn true (may_remove_change_ w) w) ;;
     emit [AllAcked]) ;;
  when (all_acked || sn_neb min_seq sn_unknown) (emit [MayRemove]).

(** [after_wait] is the value of [may_remove_change_] when the wait on the condition ends. *)
Definition try_remove_change (after_wait : Z) : M bool :=
  w <- gets id ;;
  let min_low_mark := (next_all_acked_notify_sequence_ w - 1)%sn in
  let min_seq := get_seq_num_min (history_ w) in
  let calc := if (min_low_mark <? min_seq)%sn then sn_zero else (sn_sub min_low_mark min_seq + 1)%sn in
  let waits := (calc <=? sn_zero)%sn in
  when waits (modify (λ w, sw_set_ack (next_all_acked_notify_sequence_ w) (min_readers_low_mark_ w) (all_acked_ w) after_wait w)) ;;
  let may_remove_change := if waits then after_wait else 1 in
  if may_remove_change =? 1 then remove_min_change else ret (may_remove_change =? 2).

(** The value that [wait_for_all_acked] waits for, and the test of [wait_for_acknowledgement]. *)
Definition wait_for_all_acked : M bool :=
  modify (λ w, sw_set_ack (next_all_acked_notify_sequence_ w) (min_readers_low_mark_ w) (all_readers_updated w)
                 (may_remove_change_ w) w) ;;
  gets all_acked_.

Definition rebuild_status_after_load : M unit :=
  modify (λ w, let min_seq := get_seq_num_min (history_ w) in
               let next_seq := wh_next_sequence_number (history_ w) in
               sw_set_ack next_seq (next_seq - 1)%sn true (if sn_neb min_seq sn_unknown then 1 else may_remove_change_ w)
                 (sw_set_counters (heartbeat_count_ w) (currentUsageSendBufferSize_ w) (last_sequence_number_ w)
                    (if sn_neb min_seq sn_unknown then (min_seq - 1)%sn else biggest_removed_sequence_number_ w) w)).

(** The output argument [found] keeps its value from one reader to the next. *)
Definition has_been_fully_delivered (seq_num : SequenceNumber_t) (w : StatefulWriter) : bool :=
  if (seq_num >=? wh_next_sequence_number (history_ w))%sn then false
  else
    (fix loop (found : bool) (l : list ReaderProxy) : bool :=
       match l with
       | [] => true
       | r :: l' => let '(ret_code, found') := has_been_delivered seq_num found r in
                    if found' && negb ret_code then false else loop found' l'
       end) false (matched_remote_readers_ w).

(** ** New changes *)

Definition unsent_change_added_to_history (change : CacheChange_t) : M unit :=
  let seq := sequenceNumber change in
  when (wc_finite_lease cfg) (emit [AssertLiveliness]) ;;
  when (wc_datasharing_compatible cfg) (emit [DatasharingAdd seq]) ;;
  ps <- gets positions ;;
  (if bool_decide (ps = []) then check_acked_status
   else
     should_be_sent <- fold_each ps (λ should_be_sent p,
       r <- the_reader p ;;
       wi <- gets writer_info ;;
       let is_relevant := rtps_is_relevant wi change r in
       let push := wc_push_mode cfg || negb (is_reliable_ r) || is_local_reader r in
       let changeForReader := if push then cfr_make change else cfr_set_status UNACKNOWLEDGED (cfr_make change) in
       on_reader p (λ _ r, let '(r', effects) := add_change_restart changeForReader is_relevant false r in
                           Some (tt, r', effects)) ;;
       ret (should_be_sent || (push && is_relevant))) false ;;
     when (wc_disable_positive_acks cfg) (emit [UpdateAckInterval (Some seq); RestartAckEvent (Some seq)]) ;;
     emit [if should_be_sent : bool then FlowAddNew seq else RestartPeriodicHeartbeat]) ;;
  emit [OnPublishThroughput (pl_length (serializedPayload change))].

(** [WriterHistory::add_change_]: the change is numbered, stored and handed to the writer. *)
Definition add_change_ (now : Time_t) (a_change : CacheChange_t) (wparams : WriteParams) : M bool :=
  h <- gets history_ ;;
  match prepare_and_add_change (wc_history cfg) now a_change wparams h with
  | (inl _, h') => modify (sw_set_history h') ;; ret false
  | (inr change, h') => modify (sw_set_history h') ;; unsent_change_added_to_history change ;; ret true
  end.

(** ** Delivery *)

Section Delivery.
(** The answers of the lent message group, in the order of the calls, and the bytes it has
    processed after each of them. *)
Context (answers : nat → GroupAnswer) (bytes_processed : nat → Z).

Definition next_answer : M GroupAnswer := λ s,
  (Done (answers (run_answers s)),
   {| run_writer := run_writer s; run_effects := run_effects s; run_answers := S (run_answers s); run_sender := run_sender s |}).

Definition throw {A} (e : GroupAnswer) : M A := λ s, (Threw e, s).

Definition group_add (e : SWEffect) : M bool :=
  a <- next_answer ;;
  match a with
  | GAdded => emit [e] ;; ret true
  | GRefused => ret false
  | _ => throw a
  end.

Definition group_flush : M unit :=
  a <- next_answer ;;
  match a with
  | GTimeout => throw a
  | _ => emit [FlushGroup]
  end.

Definition group_sender (sender : option GUID_t) : M unit := λ s,
  if decide (run_sender s = sender) then (Done tt, s)
  else bind group_flush
    (λ _ s, (Done tt, {| run_writer := run_writer s; run_effects := run_effects s; run_answers := run_answers s;
                         run_sender := sender |})) s.

Definition get_current_bytes_processed : M Z := λ s, (Done (bytes_processed (run_answers s)), s).

(** [last_bytes_processed] is zero at every call and not read after it. *)
Definition send_heartbeat_piggyback_nts_ (general : bool) : M unit :=
  w <- gets id ;;
  let send :=
    select_all_readers_nts group_flush general ;;
    readers <- gets (λ w, all_remote_readers (selector general w)) ;;
    send_heartbeat_nts_ group_add (Z.of_nat (length readers)) (ToSelected readers) (wc_disable_positive_acks cfg) false in
  if wc_disable_heartbeat_piggyback cfg then ret tt
  else if wh_isHistoryFull (history_ w) || (next_all_acked_notify_sequence_ w <? get_seq_num_min (history_ w))%sn then send
  else
    current_bytes <- get_current_bytes_processed ;;
    modify (λ w, sw_set_counters (heartbeat_count_ w) (i32 (currentUsageSendBufferSize_ w - current_bytes))
                   (last_sequence_number_ w) (biggest_removed_sequence_number_ w) w) ;;
    usage <- gets currentUsageSendBufferSize_ ;;
    when (usage <? 0) send.

Definition deliver_to_local (change : CacheChange_t) (p : Position) : M unit :=
  let seq := sequenceNumber change in
  r <- the_reader p ;;
  h <- gets history_ ;;
  let u := change_is_unsent seq 0 sn_zero (get_seq_num_min h) false r in
  when (un_returned u)
    (when (sn_neb sn_unknown (un_gap_seq u)) (intraprocess_gap p (un_gap_seq u) seq ;; rp_acked_changes_set p seq) ;;
     delivered <- match wc_local_reader cfg (rp_guid r) with
                  | Some process_data_msg => emit [LocalData (rp_guid r) seq] ;; ret (process_data_msg change)
                  | None => ret false
                  end ;;
     if is_reliable_ r then
       intraprocess_heartbeat p false ;;
       rp_from_unsent_to_status p seq (if delivered : bool then ACKNOWLEDGED else UNACKNOWLEDGED) false delivered
     else rp_acked_changes_set p (seq + 1)%sn).

Definition deliver_sample_to_intraprocesses (change : CacheChange_t) : M unit :=
  ps <- gets (positions_of LocalReader) ;; for_each ps (deliver_to_local change).

Definition deliver_sample_to_datasharing (change : CacheChange_t) : M unit :=
  let seq := sequenceNumber change in
  ps <- gets (positions_of DatasharingReader) ;;
  for_each ps (λ p,
    r <- the_reader p ;;
    h <- gets history_ ;;
    when (un_returned (change_is_unsent seq 0 sn_zero (get_seq_num_min h) false r))
      ((if is_reliable_ r then rp_from_unsent_to_status p seq UNACKNOWLEDGED false true
        else rp_acked_changes_set p (seq + 1)%sn) ;;
       emit [DatasharingNotify (rp_guid r)])).

Inductive DeliveryRetCode := DELIVERED | NOT_DELIVERED | EXCEEDED_LIMIT.

#[global] Instance DeliveryRetCode_eq_dec : EqDecision DeliveryRetCode.
Proof. solve_decision. Defined.

(** The variables of the scan over the remote readers: the gap common to all of them, the first
    relevant reader, whether the sample should be sent and with inline QoS, the smallest unsent
    fragment, and the readers whose flag [active_] is set. *)
Record Scan := {
  sc_gap_seq_for_all : SequenceNumber_t;
  sc_first_relevant : nat;
  sc_inline_qos : bool;
  sc_should_be_sent : bool;
  sc_min_unsent_fragment : FragmentNumber_t;
  sc_active : list nat;
  sc_need_reactivate : bool
}.

(** The gap that a change leaves for all the readers, given the one it leaves for one of them. *)
Definition update_gap_for_all (change : CacheChange_t) (gap_seq gap_seq_for_all : SequenceNumber_t) (h : WriterHistory) :
    SequenceNumber_t :=
  if (sn_unknown =? gap_seq_for_all)%sn then
    match wh_find_change_nts (wc_history cfg) change h with
    | O => gap_seq
    | S prev => match wh_changes h !! prev with
                | Some c => if (sequenceNumber c + 1 =? gap_seq)%sn then gap_seq else gap_seq_for_all
                | None => gap_seq_for_all
                end
    end
  else gap_seq_for_all.

Definition gap_before (gap_seq seq : SequenceNumber_t) : Gap := {| gap_start := gap_seq; gap_list := bm_set_base seq |}.

Definition scan_reader (general : bool) (change : CacheChange_t) (sc : Scan) (i : nat) : M Scan :=
  let seq := sequenceNumber change in
  let n_fragments := fragment_count_ change in
  r <- the_reader (RemoteReader, i) ;;
  h <- gets history_ ;;
  let u := change_is_unsent seq 0 sn_zero (get_seq_num_min h) (sc_need_reactivate sc) r in
  if un_returned u && ((0 =? n_fragments) || (sc_min_unsent_fragment sc >=? un_next_fragment u)) then
    let smaller := sc_min_unsent_fragment sc >? un_next_fragment u in
    when smaller (on_selector general (ls_reset false)) ;;
    on_selector general (ls_enable (rp_guid r)) ;;
    let gap_all := if sn_neb sn_unknown (un_gap_seq u)
                   then update_gap_for_all change (un_gap_seq u) (sc_gap_seq_for_all sc) h else sc_gap_seq_for_all sc in
    when (sn_neb sn_unknown (un_gap_seq u) && sn_neb gap_all (un_gap_seq u))
      (group_sender (Some (rp_guid r)) ;;
       group_add (AddGap (ToReader (rp_guid r)) (gap_before (un_gap_seq u) seq)) ;;
       send_heartbeat_nts_ group_add 1 (ToReader (rp_guid r)) (wc_disable_positive_acks cfg) false ;;
       group_sender None) ;;
    ret {| sc_gap_seq_for_all := gap_all;
           sc_first_relevant := if smaller then i else sc_first_relevant sc;
           sc_inline_qos := sc_inline_qos sc || expects_inline_qos_ r;
           sc_should_be_sent := true;
           sc_min_unsent_fragment := if smaller then un_next_fragment u else sc_min_unsent_fragment sc;
           sc_active := sc_active sc ++ [i];
           sc_need_reactivate := un_reactivate u |}
  else
    ret {| sc_gap_seq_for_all := sc_gap_seq_for_all sc; sc_first_relevant := sc_first_relevant sc;
           sc_inline_qos := sc_inline_qos sc; sc_should_be_sent := sc_should_be_sent sc;
           sc_min_unsent_fragment := sc_min_unsent_fragment sc; sc_active := sc_active sc;
           sc_need_reactivate := un_reactivate u |}.

(** The active readers from the first relevant one on. *)
Definition receivers (sc : Scan) : list nat := filter (λ i, (sc_first_relevant sc <= i)%nat) (sc_active sc).

(** What is done with a reader once a whole sample has been handed over for it. *)
Definition mark_sent (change : CacheChange_t) (i : nat) : M unit :=
  r <- the_reader (RemoteReader, i) ;;
  if is_reliable_ r then rp_from_unsent_to_status (RemoteReader, i) (sequenceNumber change) UNDERWAY true true
  else rp_acked_changes_set (RemoteReader, i) (sequenceNumber change + 1)%sn.

Definition mark_fragment_sent (change : CacheChange_t) (fragment : FragmentNumber_t) (i : nat) : M unit :=
  all_sent <- on_reader (RemoteReader, i)
    (λ _ r, '(_, all_sent, r') ← mark_fragment_as_sent_for_change (sequenceNumber change) fragment r; Some (all_sent, r', [])) ;;
  when all_sent (mark_sent change i).

(** The DATA or DATA_FRAG for [dst], and its consequences for the readers it is for. *)
Definition send_piece (change : CacheChange_t) (fragment : FragmentNumber_t) (dst : Destination) (qos : bool) (targets : list nat)
    (code : DeliveryRetCode) : M DeliveryRetCode :=
  let n_fragments := fragment_count_ change in
  if 0 <? n_fragments then
    if negb (fragment =? u32 (n_fragments + 1)) then
      added <- group_add (AddDataFrag dst (sequenceNumber change) fragment qos) ;;
      if added : bool then for_each targets (mark_fragment_sent change fragment) ;; ret code else ret NOT_DELIVERED
    else ret code
  else
    added <- group_add (AddData dst (sequenceNumber change) qos) ;;
    if added : bool then for_each targets (mark_sent change) ;; ret code else ret NOT_DELIVERED.

Definition send_common (general : bool) (change : CacheChange_t) (sc : Scan) : M DeliveryRetCode :=
  s <- gets (selector general) ;;
  if selected_size (locator_selector s) >? 0 then
    code <- send_piece change (sc_min_unsent_fragment sc) (ToSelected (all_remote_readers s)) (sc_inline_qos sc)
              (receivers sc) DELIVERED ;;
    send_heartbeat_piggyback_nts_ general ;;
    ret code
  else ret DELIVERED.

Definition send_separate (change : CacheChange_t) (sc : Scan) : M DeliveryRetCode :=
  fold_each (receivers sc) (λ code i,
    r <- the_reader (RemoteReader, i) ;;
    group_sender (Some (rp_guid r)) ;;
    code' <- send_piece change (sc_min_unsent_fragment sc) (ToReader (rp_guid r))
               (if 0 <? fragment_count_ change then sc_inline_qos sc else expects_inline_qos_ r) [i] code ;;
    send_heartbeat_nts_ group_add 1 (ToReader (rp_guid r)) false false ;;
    ret code') DELIVERED.

(** One turn of the loop: the return code, the smallest unsent fragment and whether the heartbeat
    has to be restarted. [ack_pending] tells whether the acknowledgement event is running. *)
Definition deliver_turn (general ack_pending : bool) (change : CacheChange_t) (need_reactivate : bool) :
    M (DeliveryRetCode * FragmentNumber_t * bool) :=
  let sequence := sequenceNumber change in
  on_selector general (ls_reset false) ;;
  ps <- gets (λ w, seq 0 (length (matched_remote_readers_ w))) ;;
  sc <- fold_each ps (scan_reader general change)
          {| sc_gap_seq_for_all := sn_unknown; sc_first_relevant := 0; sc_inline_qos := false; sc_should_be_sent := false;
             sc_min_unsent_fragment := u32 (fragment_count_ change + 1); sc_active := [];
             sc_need_reactivate := need_reactivate |} ;;
  let global_gap := sn_neb sn_unknown (sc_gap_seq_for_all sc) in
  changed <- gets (λ w, state_has_changed (locator_selector (selector general w))) ;;
  when (changed && ((sc_should_be_sent sc && negb (wc_separate_sending cfg)) || global_gap))
    (group_flush ;; modify (λ w, set_selector general (select_and_compute (selector general w)) w)) ;;
  readers <- gets (λ w, all_remote_readers (selector general w)) ;;
  when global_gap (group_add (AddGap (ToSelected readers) (gap_before (sc_gap_seq_for_all sc) sequence)) ;; ret tt) ;;
  code <- try_catch
    (if sc_should_be_sent sc
     then if wc_separate_sending cfg then send_separate change sc else send_common general change sc
     else ret DELIVERED)
    (λ e, ret (match e with GLimitExceeded => EXCEEDED_LIMIT | _ => NOT_DELIVERED end)) ;;
  last_seq <- gets last_sequence_number_ ;;
  when (wc_disable_positive_acks cfg && (last_seq =? sn_zero)%sn)
    (modify (λ w, sw_set_counters (heartbeat_count_ w) (currentUsageSendBufferSize_ w) sequence
                    (biggest_removed_sequence_number_ w) w) ;;
     when (negb ack_pending) (emit [UpdateAckInterval (Some sequence); RestartAckEvent (Some sequence)])) ;;
  group_sender None ;;
  ret (code, sc_min_unsent_fragment sc, sc_need_reactivate sc).

(** The loop runs while samples are delivered and a fragment is left; each turn takes fuel. *)
Fixpoint deliver_loop (fuel : nat) (general ack_pending : bool) (change : CacheChange_t) (code : DeliveryRetCode)
    (min_unsent_fragment : FragmentNumber_t) (need_reactivate : bool) : M (DeliveryRetCode * bool) :=
  if bool_decide (code = DELIVERED) && negb (min_unsent_fragment =? u32 (fragment_count_ change + 1)) then
    match fuel with
    | O => out_of_fuel
    | S fuel' =>
        res <- deliver_turn general ack_pending change need_reactivate ;;
        let '(code', fragment, reactivate) := res in
        deliver_loop fuel' general ack_pending change code' fragment reactivate
    end
  else ret (code, need_reactivate).

Definition deliver_sample_to_network (fuel : nat) (general ack_pending : bool) (change : CacheChange_t) : M DeliveryRetCode :=
  res <- deliver_loop fuel general ack_pending change DELIVERED 0 false ;;
  let '(code, need_reactivate) := res in
  when need_reactivate (emit [RestartPeriodicHeartbeat]) ;;
  ret code.

Definition deliver_sample_nts (fuel : nat) (general ack_pending : bool) (cache_change : CacheChange_t) : M DeliveryRetCode :=
  w <- gets id ;;
  when (there_are_local_readers_ w) (deliver_sample_to_intraprocesses cache_change) ;;
  when (there_are_datasharing_readers_ w) (deliver_sample_to_datasharing cache_change) ;;
  code <- (if there_are_remote_readers_ w then deliver_sample_to_network fuel general ack_pending cache_change
           else ret DELIVERED) ;;
  check_acked_status ;;
  ret code.
End Delivery.

(** ** Sending heartbeats *)

(** The first number whose acknowledgement a heartbeat asks for. *)
Definition first_to_check (w : StatefulWriter) : SequenceNumber_t :=
  if (sn_unknown =? get_seq_num_min (history_ w))%sn then (wh_next_sequence_number (history_ w) - 1)%sn
  else get_seq_num_min (history_ w).

Definition send_heartbeat_to_nts (p : Position) (liveliness force : bool) : M unit :=
  r <- the_reader p ;;
  w <- gets id ;;
  when (is_reliable_ r && (force || liveliness || has_unacknowledged (first_to_check w) r))
    (if is_local_reader r then intraprocess_heartbeat p liveliness
     else if is_datasharing_reader (locator_info_ r) then emit [DatasharingNotify (rp_guid r)]
     else
       when (sn_neb (get_seq_num_min (history_ w)) sn_unknown && sn_neb (get_seq_num_max (history_ w)) sn_unknown && negb liveliness)
         (add_gaps_for_holes_in_history (ToReader (rp_guid r))) ;;
       send_heartbeat_nts_ own_add 1 (ToReader (rp_guid r)) (wc_disable_positive_acks cfg) liveliness).

Definition own_flush : M unit := emit [FlushGroup].

Definition send_heartbeat_to_all_readers : M unit :=
  w <- gets id ;;
  if wc_separate_sending cfg
  then for_each (positions_of RemoteReader w) (λ p, send_heartbeat_to_nts p false false)
  else
    for_each (positions_of LocalReader w) (λ p, intraprocess_heartbeat p false) ;;
    emit (DatasharingNotify <$> (rp_guid <$> matched_datasharing_readers_ w)) ;;
    when (there_are_remote_readers_ w)
      (select_all_readers_nts own_flush true ;;
       readers <- gets (λ w, all_remote_readers (locator_selector_general_ w)) ;;
       add_gaps_for_holes_in_history (ToSelected readers) ;;
       send_heartbeat_nts_ own_add (Z.of_nat (length readers)) (ToSelected readers) (wc_disable_positive_acks cfg) false).

Definition send_periodic_heartbeat (final liveliness : bool) : M bool :=
  w <- gets id ;;
  if negb liveliness then
    let unacked_changes := existsb (has_unacknowledged (first_to_check w)) (all_readers w) in
    when unacked_changes send_heartbeat_to_all_readers ;;
    ret unacked_changes
  else if wc_separate_sending cfg then
    for_each (positions w) (λ p, send_heartbeat_to_nts p liveliness false) ;;
    ret (negb (bool_decide (positions w = [])))
  else
    for_each (positions_of LocalReader w) (λ p, intraprocess_heartbeat p true) ;;
    emit (concat ((λ r, [DatasharingAssertLiveliness; DatasharingNotify (rp_guid r)]) <$> matched_datasharing_readers_ w)) ;;
    when (there_are_remote_readers_ w)
      (readers <- gets (λ w, all_remote_readers (locator_selector_general_ w)) ;;
       send_heartbeat_nts_ own_add (Z.of_nat (length readers)) (ToSelected readers) final liveliness) ;;
    ret (negb (bool_decide (matched_local_readers_ w = [])) || negb (bool_decide (matched_datasharing_readers_ w = [])) ||
         there_are_remote_readers_ w).

(** ** Acknowledgements from the readers *)

Definition perform_nack_response : M unit :=
  ps <- gets (positions_of RemoteReader) ;;
  changes_to_resend <- fold_each ps (λ n p,
    res <- on_reader p (λ _ r, let '(k, r', calls) := perform_acknack_response r in Some ((k, calls), r', [])) ;;
    emit (FlowAddOld <$> (seq_num_ <$> snd res)) ;;
    ret (u32 (n + fst res))) 0 ;;
  emit [OnResentData changes_to_resend].

Definition sw_perform_nack_supression (reader_guid : GUID_t) : M unit :=
  o <- gets (find_reader reader_guid) ;;
  match o with
  | Some p => on_reader p (λ _ r, Some (perform_nack_supression r, [])) ;; emit [RestartPeriodicHeartbeat]
  | None => ret tt
  end.

(** The requests of an ACKNACK: the changes and the gaps, the timer, and the last gap. *)
Definition request_changes (p : Position) (sn_set : SequenceNumberSet_t) (final_flag : bool) : M unit :=
  h <- gets history_ ;;
  r <- the_reader p ;;
  res <- on_reader p (λ _ r,
    let '(someone, r', gap_builder, sent) := requested_changes_set (wc_add_gap cfg) sn_set gb_make (get_seq_num_min h) r in
    Some ((someone, sent, snd (gb_flush (wc_add_gap cfg) gap_builder)), r', [])) ;;
  let '(requested, sent, flushed) := res in
  emit (AddGap (ToReader (rp_guid r)) <$> sent) ;;
  emit (if requested : bool then [RestartNackResponse] else if final_flag then [] else [RestartPeriodicHeartbeat]) ;;
  emit (AddGap (ToReader (rp_guid r)) <$> flushed).

Definition process_reader_acknack (p : Position) (ack_count : Z) (sn_set : SequenceNumberSet_t) (final_flag : bool) : M unit :=
  fresh <- on_reader p (λ _ r, Some (check_and_set_acknack_count ack_count r, [])) ;;
  when fresh
    (rp_acked_changes_set p (base_ sn_set) ;;
     (if (base_ sn_set >? sn_zero)%sn then request_changes p sn_set final_flag
      else if bm_empty sn_set && negb final_flag then
        res <- on_reader p (λ _ r, let '(b, r', calls) := process_initial_acknack r in Some ((b, calls), r', [])) ;;
        emit (FlowAddOld <$> (seq_num_ <$> snd res)) ;;
        r <- the_reader p ;;
        when (fst res && is_remote_and_reliable r)
          (send_heartbeat_to_nts p false true ;; emit [RestartPeriodicHeartbeat]) ;;
        when (is_local_reader r && negb (is_datasharing_reader (locator_info_ r))) (intraprocess_heartbeat p false)
      else ret tt) ;;
     check_acked_status).

(** The value of the output argument [result], which is also returned. *)
Definition process_acknack (writer_guid reader_guid : GUID_t) (ack_count : Z) (sn_set : SequenceNumberSet_t)
    (final_flag : bool) : M bool :=
  if guid_eqb (wc_guid cfg) writer_guid then
    w <- gets id ;;
    let received_sequence_number := if bm_empty sn_set then base_ sn_set else bm_max sn_set in
    (if (received_sequence_number <=? wh_next_sequence_number (history_ w))%sn then
       match find_reader reader_guid w with
       | Some p => process_reader_acknack p ack_count sn_set final_flag
       | None => ret tt
       end
     else ret tt) ;;
    ret true
  else ret false.

Definition sw_process_nack_frag (writer_guid reader_guid : GUID_t) (ack_count : Z) (seq_num : SequenceNumber_t)
    (fragments_state : FragmentNumberSet_t) : M bool :=
  if guid_eqb (wc_guid cfg) writer_guid then
    o <- gets (find_reader reader_guid) ;;
    match o with
    | Some p =>
        requested <- on_reader p (λ _ r, Some (process_nack_frag reader_guid ack_count seq_num fragments_state r, [])) ;;
        when requested (emit [RestartNackResponse])
    | None => ret tt
    end ;;
    ret true
  else ret false.

(** The inner loop: the next number that is in the history, or the next one to be written. *)
Fixpoint skip_removed (n : nat) (w : StatefulWriter) (last_seq : SequenceNumber_t) : SequenceNumber_t :=
  let last_seq := sn_incr last_seq in
  match n with
  | O => last_seq
  | S n' =>
      if negb (bool_decide (is_Some (wh_get_change last_seq (wc_guid cfg) (history_ w)))) &&
         (last_seq <? wh_next_sequence_number (history_ w))%sn
      then skip_removed n' w last_seq else last_seq
  end.

(** [expired] tells whether the source timestamp of a change plus the keep duration is in the past;
    every turn moves the last number up, and it stays below the next one to be written. *)
Fixpoint ack_timer_loop (fuel : nat) (expired : CacheChange_t → bool) : M bool :=
  match fuel with
  | O => out_of_fuel
  | S fuel' =>
      w <- gets id ;;
      let ps := filter (λ p, default false (disable_positive_acks_ <$> reader_at p w)) (positions w) in
      for_each ps (λ p, rp_acked_changes_set p (last_sequence_number_ w + 1)%sn) ;;
      when (negb (bool_decide (ps = []))) check_acked_status ;;
      modify (λ w, sw_set_counters (heartbeat_count_ w) (currentUsageSendBufferSize_ w)
                     (skip_removed (Z.to_nat (snz (wh_next_sequence_number (history_ w)) - snz (last_sequence_number_ w)))
                        w (last_sequence_number_ w))
                     (biggest_removed_sequence_number_ w) w) ;;
      w' <- gets id ;;
      match wh_get_change (last_sequence_number_ w') (wc_guid cfg) (history_ w') with
      | None => ret false
      | Some change =>
          if expired change then ack_timer_loop fuel' expired
          else emit [UpdateAckInterval (Some (sequenceNumber change))] ;; ret true
      end
  end.

Definition ack_timer_expired (expired : CacheChange_t → bool) : M bool :=
  w <- gets id ;;
  ack_timer_loop (S (Z.to_nat (snz (wh_next_sequence_number (history_ w)) - snz (last_sequence_number_ w)))) expired.

(** ** Matching *)

(** [filter_remote_locators] on the two entries of a reader, which keeps the multicast locators. *)
Definition filter_entry (e : LocatorSelectorEntry) : LocatorSelectorEntry :=
  entry_assign (remote_guid e) (wc_filter_remote_locators cfg (unicast e)) (multicast e) e.

Definition rp_filter_locators (r : ReaderProxy) : ReaderProxy :=
  let l := locator_info_ r in
  {| is_active_ := is_active_ r;
     locator_info_ :=
       {| general_locator_info_ := filter_entry (general_locator_info_ l); async_locator_info_ := filter_entry (async_locator_info_ l);
          rl_expects_inline_qos_ := rl_expects_inline_qos_ l; is_local_reader_ := is_local_reader_ l;
          rl_guid_as_vector_ := rl_guid_as_vector_ l; rl_guid_prefix_as_vector_ := rl_guid_prefix_as_vector_ l;
          datasharing_notifier_ := datasharing_notifier_ l |};
     durability_kind_ := durability_kind_ r; expects_inline_qos_ := expects_inline_qos_ r; is_reliable_ := is_reliable_ r;
     disable_positive_acks_ := disable_positive_acks_ r; changes_for_reader_ := changes_for_reader_ r;
     nack_supression_event_ := nack_supression_event_ r; initial_heartbeat_event_ := initial_heartbeat_event_ r;
     timers_enabled_ := timers_enabled_ r; next_expected_acknack_count_ := next_expected_acknack_count_ r;
     last_nackfrag_count_ := last_nackfrag_count_ r; changes_low_mark_ := changes_low_mark_ r |}.

(** The selectors hold pointers to the entries of the readers: an entry that changes is replaced. *)
Definition replace_entry (e : LocatorSelectorEntry) (s : LocatorSelector) : LocatorSelector :=
  ls_set_entries (<[find_index (λ x, guid_eqb (remote_guid x) (remote_guid e)) (entries_ s) := e]> (entries_ s)) s.

Definition update_matched_reader (p : Position) (rdata : ReaderProxyData) : M unit :=
  on_reader p (λ _ r, Some (tt, rp_filter_locators (rp_update rdata r), [])) ;;
  r <- the_reader p ;;
  on_selector true (replace_entry (general_locator_info_ (locator_info_ r))) ;;
  on_selector false (replace_entry (async_locator_info_ (locator_info_ r))) ;;
  update_reader_info true ;;
  update_reader_info false.

(** A proxy from the pool, or a new one if the limit allows it. *)
Definition take_reader_proxy : M (option ReaderProxy) :=
  w <- gets id ;;
  match last (matched_readers_pool_ w) with
  | Some r => modify (sw_set_pool (removelast (matched_readers_pool_ w))) ;; ret (Some r)
  | None =>
      if get_matched_readers_size w <? wc_max_readers cfg then
        let '(r, _) := rp_make (wc_datasharing_compatible cfg) (wc_reader_events cfg) in ret (Some r)
      else ret None
  end.

Definition kind_of (r : ReaderProxy) : ReaderKind :=
  if is_local_reader r then LocalReader
  else if is_datasharing_reader (locator_info_ r) then DatasharingReader else RemoteReader.

Definition durable (d : DurabilityKind_t) : bool := bool_decide (d ≠ VOLATILE).

(** The whole history for a late joiner: a local reader will be delivered the samples, another one
    has to request them. *)
Definition add_old_changes (p : Position) : M unit :=
  h <- gets history_ ;;
  for_each (wh_changes h) (λ change,
    r <- the_reader p ;;
    wi <- gets writer_info ;;
    when (rtps_is_relevant wi change r)
      (let local := is_local_reader r in
       when local (emit [FlowAddOld (sequenceNumber change)]) ;;
       let changeForReader := if local then cfr_make change else cfr_set_status UNACKNOWLEDGED (cfr_make change) in
       on_reader p (λ _ r, let '(r', effects) := add_change_restart changeForReader true false r in Some (tt, r', effects)))).

(** What a reliable reader is sent when it is matched. *)
Definition greet_reliable_reader (p : Position) : M unit :=
  r <- the_reader p ;;
  h <- gets history_ ;;
  when (sn_neb (get_seq_num_min h) sn_unknown)
    ((if durable (durability_kind_ r) && durable (wc_durability cfg) then add_old_changes p
      else if is_local_reader r then intraprocess_gap p (get_seq_num_min h) (wh_next_sequence_number h)
      else emit [AddGap (ToReader (rp_guid r)) (gap_before (get_seq_num_min h) (wh_next_sequence_number h))]) ;;
     emit [RestartPeriodicHeartbeat]) ;;
  if is_local_reader r then intraprocess_heartbeat p false
  else send_heartbeat_nts_ own_add 1 (ToReader (rp_guid r)) (wc_disable_positive_acks cfg) false ;; own_flush.

(** [is_datasharing] is the answer of [is_datasharing_compatible_with]. *)
Definition matched_reader_add_edp (rdata : ReaderProxyData) (is_datasharing : bool) : M bool :=
  if guid_eqb (rpd_guid rdata) c_Guid_Unknown then ret false
  else
    o <- gets (find_reader (rpd_guid rdata)) ;;
    match o with
    | Some p =>
        update_matched_reader p rdata ;;
        when (bool_decide (is_Some (wc_listener cfg))) (emit [OnReaderDiscovery CHANGED_QOS_READER (rpd_guid rdata)]) ;;
        ret false
    | None =>
        rp <- take_reader_proxy ;;
        match rp with
        | None => ret false
        | Some r0 =>
            wi <- gets writer_info ;;
            let '(r1, effects) := rp_start wi rdata is_datasharing r0 in
            let r := rp_filter_locators r1 in
            emit (FromReader (rpd_guid rdata) <$> effects) ;;
            on_selector true (add_entry (general_locator_info_ (locator_info_ r))) ;;
            on_selector false (add_entry (async_locator_info_ (locator_info_ r))) ;;
            n <- gets (λ w, length (readers_of (kind_of r) w)) ;;
            modify (λ w, set_readers_of (kind_of r) (readers_of (kind_of r) w ++ [r]) w) ;;
            update_reader_info true ;;
            update_reader_info false ;;
            (if is_datasharing_reader (locator_info_ r) then ret tt
             else if is_reliable_ r then greet_reliable_reader (kind_of r, n)
             else h <- gets history_ ;; rp_acked_changes_set (kind_of r, n) (wh_next_sequence_number h)) ;;
            when (bool_decide (is_Some (wc_listener cfg))) (emit [OnReaderDiscovery DISCOVERED_READER (rpd_guid rdata)]) ;;
            ret true
        end
    end.

Definition matched_reader_remove (reader_guid : GUID_t) : M bool :=
  o <- gets (find_reader reader_guid) ;;
  rproxy <- match o with
            | Some p => r <- the_reader p ;;
                        modify (λ w, set_readers_of (fst p) (erase_at (snd p) (readers_of (fst p) w)) w) ;; ret (Some r)
            | None => ret None
            end ;;
  on_selector true (λ s, snd (remove_entry reader_guid s)) ;;
  on_selector false (λ s, snd (remove_entry reader_guid s)) ;;
  update_reader_info true ;;
  update_reader_info false ;;
  n <- gets get_matched_readers_size ;;
  when (n =? 0) (emit [CancelPeriodicHeartbeat]) ;;
  match rproxy with
  | Some r =>
      let '(r', effects) := rp_stop r in
      emit (FromReader reader_guid <$> effects) ;;
      modify (λ w, sw_set_pool (matched_readers_pool_ w ++ [r']) w) ;;
      check_acked_status ;;
      when (bool_decide (is_Some (wc_listener cfg))) (emit [OnReaderDiscovery REMOVED_READER reader_guid]) ;;
      ret true
  | None => ret false
  end.

Definition matched_reader_is_matched (reader_guid : GUID_t) (w : StatefulWriter) : bool :=
  bool_decide (is_Some (find_reader reader_guid w)).

Definition matched_readers_guids (w : StatefulWriter) : list GUID_t := rp_guid <$> all_readers w.

(** ** Attributes *)

Record WriterTimes := {
  heartbeat_period : Duration_t;
  nack_response_delay : Duration_t;
  nack_supression_duration : Duration_t
}.

Definition dur_eqb (a b : Duration_t) : bool := (dur_seconds a =? dur_seconds b) && (dur_nanosec a =? dur_nanosec b).

(** [old] is the value of [times_] before the call. *)
Definition update_times (old times : WriterTimes) : M unit :=
  when (negb (dur_eqb (heartbeat_period old) (heartbeat_period times))) (emit [UpdateHeartbeatInterval (heartbeat_period times)]) ;;
  when (negb (dur_eqb (nack_response_delay old) (nack_response_delay times)))
    (emit [UpdateNackResponseInterval (nack_response_delay times)]) ;;
  when (negb (dur_eqb (nack_supression_duration old) (nack_supression_duration times)))
    (modify (λ w, let f := fmap (update_nack_supression_interval (nack_supression_duration times)) in
                  sw_set_readers (f (matched_local_readers_ w)) (f (matched_datasharing_readers_ w))
                    (f (matched_remote_readers_ w)) (f (matched_readers_pool_ w)) w)).

(** The event is restarted with the whole keep duration. *)
Definition update_positive_acks_times : M unit := emit [UpdateAckInterval None; RestartAckEvent None].

Definition update_attributes (old times : WriterTimes) : M unit :=
  update_times old times ;; when (wc_disable_positive_acks cfg) update_positive_acks_times.

(** The constructor; [initial] is the number of proxies that are allocated for the pool. *)
Definition sw_make (initial : nat) : StatefulWriter :=
  {| matched_local_readers_ := []; matched_datasharing_readers_ := []; matched_remote_readers_ := [];
     matched_readers_pool_ := replicate initial (fst (rp_make (wc_datasharing_compatible cfg) (wc_reader_events cfg)));
     history_ := wh_make; heartbeat_count_ := 0; next_all_acked_notify_sequence_ := SeqNum 0 1;
     min_readers_low_mark_ := sn_zero; all_acked_ := false; may_remove_change_ := 0; last_sequence_number_ := sn_zero;
     biggest_removed_sequence_number_ := sn_zero; currentUsageSendBufferSize_ := i32 (wc_sendBufferSize cfg);
     there_are_remote_readers_ := false; there_are_local_readers_ := false; there_are_datasharing_readers_ := false;
     locator_selector_general_ := {| locator_selector := ls_make; all_remote_readers := [] |};
     locator_selector_async_ := {| locator_selector := ls_make; all_remote_readers := [] |} |}.
End Writer.
