(* ===== verification/StatefulWriterLogic.v ===== *)
(** * Reasoning about runs of the writer

    [holds I P m Q]: a run of [m] from a writer in [P] ends in [Q] of its result,
    and in [I] if it does not end normally. [stable I m] is the case where the
    invariant [I] is kept. The rules follow the combinators of the monad, and the
    database [writer] applies them. *)

From Stdlib Require Import ZArith Lia ZifyBool.
From stdpp Require Import base numbers list option list_numbers.
From S2P Require Import Prelude SequenceNumber Guid CacheChange ReaderProxy WriterHistory LocatorSelector StatefulWriter.

Open Scope Z_scope.
Open Scope writer_scope.

Definition holds {A} (I P : StatefulWriter → Prop) (m : M A) (Q : A → StatefulWriter → Prop) : Prop :=
  ∀ s, P (run_writer s) → match m s with (Done a, s') => Q a (run_writer s') | (_, s') => I (run_writer s') end.

Definition stable {A} (I : StatefulWriter → Prop) (m : M A) : Prop := holds I I m (λ _, I).

Create HintDb writer discriminated.

Section Rules.
Context (I : StatefulWriter → Prop).

Lemma holds_ret {A} (P : A → StatefulWriter → Prop) a : holds I (P a) (ret a) P.
Proof. by intros s. Qed.

Lemma holds_bind {A B} (P : StatefulWriter → Prop) (m : M A) (Q : A → StatefulWriter → Prop) (f : A → M B) R :
  holds I P m Q → (∀ a, holds I (Q a) (f a) R) → holds I P (bind m f) R.
Proof.
  intros Hm Hf s Hs. specialize (Hm s Hs). unfold bind. destruct (m s) as [[a| | |] s']; [by apply Hf | done..].
Qed.

Lemma holds_weaken {A} (P P' : StatefulWriter → Prop) (m : M A) (Q Q' : A → StatefulWriter → Prop) :
  (∀ w, P' w → P w) → (∀ a w, Q a w → Q' a w) → holds I P m Q → holds I P' m Q'.
Proof.
  intros HP HQ Hm s Hs. specialize (Hm s (HP _ Hs)). destruct (m s) as [[a| | |] s']; [by apply HQ | done..].
Qed.

Lemma stable_ret {A} (a : A) : stable I (ret a).
Proof. by intros s. Qed.

Lemma stable_bind {A B} (m : M A) (f : A → M B) : stable I m → (∀ a, stable I (f a)) → stable I (bind m f).
Proof. intros Hm Hf. by apply holds_bind with (λ _, I). Qed.

(** A value read from a writer that satisfies the invariant. *)
Lemma stable_gets {A B} (g : StatefulWriter → A) (f : A → M B) :
  (∀ w, I w → stable I (f (g w))) → stable I (bind (gets g) f).
Proof. intros Hf s Hs. cbn. by apply (Hf (run_writer s)). Qed.

Lemma holds_gets {A B} (P : StatefulWriter → Prop) (g : StatefulWriter → A) (f : A → M B) Q :
  (∀ w, P w → holds I (λ w', w' = w) (f (g w)) Q) → holds I P (bind (gets g) f) Q.
Proof. intros Hf s Hs. by apply (Hf (run_writer s) Hs). Qed.

Lemma stable_gets_only {A} (g : StatefulWriter → A) : stable I (gets g).
Proof. by intros s. Qed.

Lemma stable_emit l : stable I (emit l).
Proof. by intros s. Qed.

Lemma stable_modify f : (∀ w, I w → I (f w)) → stable I (modify f).
Proof. intros Hf s Hs. by apply Hf. Qed.

Lemma holds_modify (P Q : StatefulWriter → Prop) f : (∀ w, P w → Q (f w)) → holds I P (modify f) (λ _, Q).
Proof. intros Hf s Hs. by apply Hf. Qed.

Lemma stable_undefined {A} : stable I (undefined (A := A)).
Proof. by intros s. Qed.

Lemma stable_out_of_fuel {A} : stable I (out_of_fuel (A := A)).
Proof. by intros s. Qed.

Lemma stable_when b m : (b = true → stable I m) → stable I (when b m).
Proof. intros Hm. destruct b; [by apply Hm | by intros s]. Qed.

Lemma stable_if {A} (b : bool) (m m' : M A) : (b = true → stable I m) → (b = false → stable I m') → stable I (if b then m else m').
Proof. destruct b; auto. Qed.

Lemma stable_try {A} (m : M A) h : stable I m → (∀ e, stable I (h e)) → stable I (try_catch m h).
Proof.
  intros Hm Hh s Hs. specialize (Hm s Hs). unfold try_catch. destruct (m s) as [[a|e| |] s'] eqn:E; [done | | done..].
  by apply (Hh e).
Qed.

Lemma stable_for_each {A} (l : list A) f : (∀ x, x ∈ l → stable I (f x)) → stable I (for_each l f).
Proof.
  induction l as [|x l IH]; intros Hf; cbn [for_each]; [apply stable_ret|].
  apply stable_bind; [apply Hf; left|]. intros _. apply IH. intros y Hy. apply Hf. by right.
Qed.

Lemma stable_fold_each {A B} (l : list A) (f : B → A → M B) acc :
  (∀ x b, x ∈ l → stable I (f b x)) → stable I (fold_each l f acc).
Proof.
  revert acc. induction l as [|x l IH]; intros acc Hf; cbn [fold_each]; [apply stable_ret|].
  apply stable_bind; [apply Hf; left|]. intros b. apply IH. intros y c Hy. apply Hf. by right.
Qed.

(** A loop whose invariant says something of the elements that are still to come. *)
Lemma holds_for_each {A} (J : list A → StatefulWriter → Prop) (l : list A) f :
  (∀ x l', holds I (J (x :: l')) (f x) (λ _, J l')) → (∀ l' w, J l' w → I w) → holds I (J l) (for_each l f) (λ _, J []).
Proof.
  intros Hf HJ. induction l as [|x l IH]; cbn [for_each]; [by intros s|].
  apply holds_bind with (λ _, J l); [apply Hf | by intros _].
Qed.

Lemma holds_fold_each {A B} (J : list A → StatefulWriter → Prop) (l : list A) (f : B → A → M B) acc :
  (∀ x l' b, holds I (J (x :: l')) (f b x) (λ _, J l')) → holds I (J l) (fold_each l f acc) (λ _, J []).
Proof.
  intros Hf. revert acc. induction l as [|x l IH]; intros acc; cbn [fold_each]; [by intros s|].
  apply holds_bind with (λ _, J l); [apply Hf | intros b; apply IH].
Qed.
End Rules.

(** Applies the rule of the combinator at the head of a program, and the database at its leaves. *)
Ltac stable_step :=
  match goal with
  | |- holds ?I ?I ?m (λ _, ?I) => change (stable I m)
  | |- stable _ (bind (gets _) _) => apply stable_gets; intros ? ?
  | |- stable _ (bind _ _) => apply stable_bind; [|intros ?]
  | |- stable _ (ret _) => apply stable_ret
  | |- stable _ (emit _) => apply stable_emit
  | |- stable _ (gets _) => apply stable_gets_only
  | |- stable _ undefined => apply stable_undefined
  | |- stable _ out_of_fuel => apply stable_out_of_fuel
  | |- stable _ (when _ _) => apply stable_when; intros ?
  | |- stable _ (for_each _ _) => apply stable_for_each; intros ? ?
  | |- stable _ (fold_each _ _ _) => apply stable_fold_each; intros ? ? ?
  | |- stable _ (try_catch _ _) => apply stable_try; [|intros ?]
  | |- stable _ (if _ then _ else _) => apply stable_if; intros ?
  | |- stable _ (match ?x with _ => _ end) => destruct x eqn:?
  | |- stable _ _ => progress cbv zeta
  | |- stable _ _ => solve [eauto with writer nocore]
  end.

Ltac stable := repeat stable_step.

(** ** Readers *)

Lemma lookup_insert_fmap {A} (l : list A) i j x :
  <[i := x]> l !! j = if decide (i = j) then (λ _, x) <$> l !! j else l !! j.
Proof.
  destruct (decide (i = j)) as [->|Hne]; [|by apply list_lookup_insert_ne].
  destruct (l !! j) as [y|] eqn:E; cbn.
  - apply list_lookup_insert_eq. by eapply lookup_lt_Some.
  - rewrite list_insert_ge; [done|]. by apply lookup_ge_None.
Qed.

Lemma reader_at_set p q r w :
  reader_at q (set_reader p r w) = if decide ((p : ReaderKind * nat) = q) then (λ _, r) <$> reader_at q w else reader_at q w.
Proof.
  unfold reader_at, set_reader. destruct p as [k i], q as [k' j]. cbn [fst snd].
  assert (∀ l : list ReaderProxy, <[i := r]> l !! j = if decide (i = j) then (λ _, r) <$> l !! j else l !! j) as H
    by (intros l; apply lookup_insert_fmap).
  destruct k, k'; cbn; rewrite ?H; destruct (decide (i = j)); destruct (decide _); congruence.
Qed.

Lemma elem_of_positions_of k p w : p ∈ positions_of k w ↔ fst p = k ∧ is_Some (reader_at p w).
Proof.
  unfold positions_of, reader_at. rewrite list_elem_of_fmap. split.
  - intros (i & -> & Hi). apply elem_of_seq in Hi. split; [done|]. apply lookup_lt_is_Some. cbn. lia.
  - intros [<- Hs]. exists (snd p). split; [by destruct p|]. apply lookup_lt_is_Some in Hs. apply elem_of_seq. lia.
Qed.

Lemma elem_of_positions p w : p ∈ positions w ↔ is_Some (reader_at p w).
Proof.
  unfold positions. rewrite !elem_of_app, !elem_of_positions_of. destruct p as [[] i]; cbn; intuition congruence.
Qed.

Lemma elem_of_all_readers r w : r ∈ all_readers w ↔ ∃ p, reader_at p w = Some r.
Proof.
  unfold all_readers. rewrite !elem_of_app, !list_elem_of_lookup. split.
  - intros [[i Hi]|[[i Hi]|[i Hi]]]; [by exists (LocalReader, i) | by exists (DatasharingReader, i) | by exists (RemoteReader, i)].
  - intros ([[] i] & Hi); cbn in Hi; eauto.
Qed.

Lemma NoDup_positions w : NoDup (positions w).
Proof.
  unfold positions. assert (∀ k, NoDup (positions_of k w)) as Hk.
  { intros k. apply NoDup_fmap_2; [intros i j; congruence | apply NoDup_seq]. }
  apply NoDup_app. split_and!; [done | |].
  - intros p [E1 _]%elem_of_positions_of. rewrite elem_of_app, !elem_of_positions_of. intros [[E2 _]|[E2 _]]; congruence.
  - apply NoDup_app. split_and!; [done | | done].
    intros p [E1 _]%elem_of_positions_of [E2 _]%elem_of_positions_of. congruence.
Qed.

Lemma find_reader_Some guid w p : find_reader guid w = Some p → ∃ r, reader_at p w = Some r ∧ guid_eqb (rp_guid r) guid = true.
Proof. unfold find_reader. intros [_ H]%List.find_some. destruct (reader_at p w) as [r|]; [by eauto | done]. Qed.
