(* ===== verification/StatefulWriterInvariant.v ===== *)
(** * The invariant of the writer

    The history holds changes of the writer in the order of their numbers, every
    matched reader lists changes of the history only and acknowledges numbers that
    have been used, and the proxies of the pool are as good as new. Every handler
    keeps it, however it ends. *)

From Stdlib Require Import ZArith Lia ZifyBool Sorting.Sorted.
From stdpp Require Import base numbers list option list_numbers sorting sets.
From S2P Require Import Prelude SequenceNumber BitmapRange SortedRange Bytes Guid TimedEvent Time CacheChange ChangeForReader GapBuilder ReaderHistory ReaderProxy ReaderProxyFacts ReaderProxyTheorems ReaderProxyHistory WriterHistory LocatorSelector StatefulWriter StatefulWriterLogic.

Open Scope Z_scope.
Open Scope writer_scope.

(** ** The history *)

Definition wnum (c : CacheChange_t) : Z := snz (sequenceNumber c).

Record wh_ok (guid : GUID_t) (h : WriterHistory) : Prop := {
  wo_last : sn_ok (m_lastCacheChangeSeqNum h);
  wo_room : snz (m_lastCacheChangeSeqNum h) + 2 < 2 ^ 63 - 2 ^ 32;
  wo_sorted : ksorted wnum (wh_changes h);
  wo_each : ∀ c, c ∈ wh_changes h →
    sn_ok (sequenceNumber c) ∧ 1 <= wnum c <= snz (m_lastCacheChangeSeqNum h) ∧ writerGUID c = guid
}.

Definition in_hist (h : WriterHistory) (z : Z) : Prop := ∃ c, c ∈ wh_changes h ∧ wnum c = z.

Lemma guid_eqb_refl g : guid_eqb g g = true.
Proof.
  unfold guid_eqb, pfx_eqb, ent_eqb, ent_cmp. by rewrite !(proj2 (memcmp_eq _ _ eq_refl) eq_refl).
Qed.

Lemma sn_eqb_true a b : (a =? b)%sn = true ↔ a = b.
Proof. unfold sn_eqb. destruct a, b. cbn. split; [intros [?%Z.eqb_eq ?%Z.eqb_eq]%andb_prop; congruence | intros [= -> ->]; lia]. Qed.

Lemma wh_get_change_from_spec seq guid l :
  ksorted wnum l → (∀ c, c ∈ l → sn_ok (sequenceNumber c) ∧ writerGUID c = guid) → sn_ok seq →
  ∀ c, wh_get_change_from seq guid l = Some c ↔ c ∈ l ∧ sequenceNumber c = seq.
Proof.
  intros Hs Hl Hseq c. induction l as [|x l IH]; cbn [wh_get_change_from].
  { split; [done | intros [?%elem_of_nil _]; done]. }
  apply ksorted_cons in Hs as [Hs Hgt]. rewrite Forall_forall in Hgt. destruct (Hl x) as [Hx ->]; [left|]. rewrite guid_eqb_refl.
  destruct (sequenceNumber x =? seq)%sn eqn:E.
  - apply sn_eqb_true in E. split; [intros [= <-]; split; [left | done]|]. intros [[->|Hc]%elem_of_cons Ec]; [done|].
    specialize (Hgt c Hc). unfold wnum in Hgt. rewrite Ec, E in Hgt. lia.
  - assert (sequenceNumber x ≠ seq) as Hne by (intros E'; by apply sn_eqb_true in E'; congruence).
    rewrite sn_gtb_snz by (by apply sn_ok_wf). destruct (Z.gtb_spec (snz (sequenceNumber x)) (snz seq)) as [Hg|_].
    + split; [done|]. intros [[->|Hc]%elem_of_cons Ec]; [done|]. specialize (Hgt c Hc). unfold wnum in Hgt. rewrite Ec in Hgt. lia.
    + rewrite IH; [|done|]. 2: { intros y Hy. apply Hl. by right. }
      rewrite elem_of_cons. split; [tauto|]. intros [[->|Hc] Ec]; done.
Qed.

Lemma wh_get_change_spec guid h seq c :
  wh_ok guid h → sn_ok seq → wh_get_change seq guid h = Some c ↔ c ∈ wh_changes h ∧ sequenceNumber c = seq.
Proof.
  intros [H1 H2 H3 H4] Hs. apply wh_get_change_from_spec; [done | | done]. intros x Hx. by destruct (H4 x Hx) as (? & _ & ?).
Qed.

Lemma wh_get_change_seq guid h seq c : wh_get_change seq guid h = Some c → c ∈ wh_changes h ∧ sequenceNumber c = seq.
Proof.
  unfold wh_get_change. induction (wh_changes h) as [|x l IH]; cbn; [done|].
  rewrite elem_of_cons. repeat case_match; try (intros ?%IH; tauto); [|done].
  intros [= <-]. split; [by left | by apply sn_eqb_true].
Qed.

(** The bounds of the history. *)
Lemma seq_num_min_spec guid h :
  wh_ok guid h →
  (wh_changes h = [] ∧ get_seq_num_min h = sn_unknown) ∨
  (∃ c, c ∈ wh_changes h ∧ get_seq_num_min h = sequenceNumber c ∧ ∀ d, d ∈ wh_changes h → wnum c <= wnum d).
Proof.
  intros [_ _ Hs _]. unfold get_seq_num_min. destruct (wh_changes h) as [|c l] eqn:E; [by left|]. right. exists c.
  split; [left|]. split; [done|]. intros d [->|Hd]%elem_of_cons; [lia|]. apply ksorted_cons in Hs as [_ Hgt].
  rewrite Forall_forall in Hgt. specialize (Hgt d Hd). cbn in Hgt. lia.
Qed.

(** ** The writer *)

Definition idle (r : ReaderProxy) : Prop :=
  changes_for_reader_ r = [] ∧ changes_low_mark_ r = sn_zero ∧ is_active_ r = false.

Section Invariant.
Context (cfg : WriterConfig).

Record sw_ok (n : Z) (w : StatefulWriter) : Prop := {
  so_history : wh_ok (wc_guid cfg) (history_ w);
  so_last : snz (m_lastCacheChangeSeqNum (history_ w)) = n;
  so_readers : ∀ p r, reader_at p w = Some r → listed (in_hist (history_ w)) n r;
  so_pool : ∀ r, r ∈ matched_readers_pool_ w → idle r
}.

Lemma in_hist_range n w z : sw_ok n w → in_hist (history_ w) z → 1 <= z <= n.
Proof. intros [Hh Hl _ _] (c & Hc & <-). destruct (wo_each _ _ Hh c Hc) as (_ & ? & _). lia. Qed.

Lemma next_spec n w : sw_ok n w → sn_ok (wh_next_sequence_number (history_ w)) ∧ snz (wh_next_sequence_number (history_ w)) = n + 1.
Proof.
  intros [Hh Hl _ _]. unfold wh_next_sequence_number. destruct (sn_ok_add _ 1 (wo_last _ _ Hh) ltac:(zwidth)) as [Hw E].
  pose proof (wo_room _ _ Hh). pose proof (sn_ok_range _ (wo_last _ _ Hh)). split; [|lia]. apply sn_ok_iff; [done|]. lia.
Qed.

Lemma writer_info_facts n w :
  sw_ok n w →
  wi_ok (writer_info cfg w) ∧
  (∀ t ch, wi_get_change (writer_info cfg w) t = Some ch → in_hist (history_ w) (snz t)) ∧
  snz (wi_next_sequence_number (writer_info cfg w)) = n + 1 ∧
  (wi_seq_num_min (writer_info cfg w) = sn_unknown ∨ snz (wi_seq_num_min (writer_info cfg w)) <= n) ∧
  ∀ p r, reader_at p w = Some r → in_history (writer_info cfg w) (changes_for_reader_ r).
Proof.
  intros Hw. destruct (next_spec n w Hw) as [Hn En]. pose proof (sn_ok_range _ (wo_last _ _ (so_history _ _ Hw))) as Hr.
  rewrite (so_last _ _ Hw) in Hr. destruct (seq_num_min_spec _ _ (so_history _ _ Hw)) as [[Enil Emin]|(c & Hc & Emin & Hmin)].
  - split_and!; [| | done | by left |].
    + constructor; [done | cbn; lia | by left |]. intros s ch. cbn. intros H%wh_get_change_seq. tauto.
    + intros t ch. cbn. unfold wh_get_change. by rewrite Enil.
    + intros p r Hp. unfold in_history. cbn. rewrite decide_True by done.
      destruct (changes_for_reader_ r) as [|x l] eqn:E; [done|]. exfalso.
      destruct (li_in _ _ _ (so_readers _ _ Hw p r Hp) x) as (d & Hd & _); [rewrite E; left|]. by rewrite Enil, elem_of_nil in Hd.
  - destruct (wo_each _ _ (so_history _ _ Hw) c Hc) as (Hcok & Hcr & _). rewrite (so_last _ _ Hw) in Hcr. unfold wnum in Hcr.
    split_and!; [| | done | right; cbn; rewrite Emin; lia |].
    + constructor; [done | cbn; lia | right; cbn; rewrite Emin; split; [done | lia] |]. intros s ch. cbn. intros H%wh_get_change_seq. tauto.
    + intros t ch. cbn. intros [H1 H2]%wh_get_change_seq. exists ch. split; [done|]. unfold wnum. by rewrite H2.
    + intros p r Hp. unfold in_history. cbn. rewrite decide_False.
      2: { rewrite Emin. intros E. rewrite E in Hcr. change (snz sn_unknown) with (-4294967296) in Hcr. lia. }
      apply Forall_forall. intros x Hx. rewrite Emin. destruct (li_in _ _ _ (so_readers _ _ Hw p r Hp) x Hx) as (d & Hd & <-).
      by apply Hmin.
Qed.

(** ** Basic steps *)

Lemma sw_ok_set_reader n p r w : sw_ok n w → listed (in_hist (history_ w)) n r → sw_ok n (set_reader p r w).
Proof.
  intros [H1 H2 H3 H4] Hr. assert (history_ (set_reader p r w) = history_ w) as Eh by (by destruct p as [[] i]).
  assert (matched_readers_pool_ (set_reader p r w) = matched_readers_pool_ w) as Ep by (by destruct p as [[] i]).
  constructor; rewrite ?Eh, ?Ep; [done.. | | done]. intros q r'. rewrite reader_at_set. destruct (decide _); [|by apply H3].
  destruct (reader_at q w); cbn; [by intros [= <-] | done].
Qed.

(** Assignments that touch neither the readers nor the history. *)
Lemma sw_ok_same n w w' :
  sw_ok n w → matched_local_readers_ w' = matched_local_readers_ w →
  matched_datasharing_readers_ w' = matched_datasharing_readers_ w → matched_remote_readers_ w' = matched_remote_readers_ w →
  matched_readers_pool_ w' = matched_readers_pool_ w → history_ w' = history_ w → sw_ok n w'.
Proof.
  intros [H1 H2 H3 H4] E1 E2 E3 E4 E5. constructor; rewrite ?E4, ?E5; [done.. | | done].
  intros p r Hp. apply (H3 p r). rewrite <- Hp. unfold reader_at. destruct p as [[] i]; cbn; congruence.
Qed.

Section Stable.
Context (n : Z).

Lemma stable_same f :
  (∀ w, matched_local_readers_ (f w) = matched_local_readers_ w ∧ matched_datasharing_readers_ (f w) = matched_datasharing_readers_ w ∧
        matched_remote_readers_ (f w) = matched_remote_readers_ w ∧ matched_readers_pool_ (f w) = matched_readers_pool_ w ∧
        history_ (f w) = history_ w) → stable (sw_ok n) (modify f).
Proof. intros Hf. apply stable_modify. intros w Hw. destruct (Hf w) as (? & ? & ? & ? & ?). by apply (sw_ok_same n w). Qed.

Lemma stable_the_reader p : stable (sw_ok n) (the_reader p).
Proof. apply stable_bind; [apply stable_gets_only|]. intros [r|]; [apply stable_ret | apply stable_undefined]. Qed.

(** A method of a proxy. *)
Lemma stable_on_reader {A} p (f : WriterInfo → ReaderProxy → option (A * ReaderProxy * list RPEffect)) :
  (∀ w r a r' eff, sw_ok n w → reader_at p w = Some r → f (writer_info cfg w) r = Some (a, r', eff) →
     listed (in_hist (history_ w)) n r') → stable (sw_ok n) (on_reader cfg p f).
Proof.
  intros Hf s Hs. unfold on_reader, the_reader, bind, gets, modify, emit. cbn [run_writer].
  destruct (reader_at p (run_writer s)) as [r|] eqn:Er; cbn; [|done].
  destruct (f _ r) as [[[a r'] eff]|] eqn:Ef; cbn; [|done]. apply sw_ok_set_reader; [done|]. by eapply Hf.
Qed.

Lemma stable_acked p s : sn_ok s → snz s <= n + 1 → stable (sw_ok n) (rp_acked_changes_set cfg p s).
Proof.
  intros Hs Hle. apply stable_on_reader. intros w r a r' eff Hw Hp [= _ <- _].
  destruct (writer_info_facts n w Hw) as (H1 & H2 & H3 & H4 & H5).
  apply listed_acked; [intros z; by apply in_hist_range | done | done | done | done | by apply (H5 p) | by apply (so_readers _ _ Hw p) | done | done].
Qed.

Lemma stable_from_unsent p s status restart delivered :
  sn_ok s → sn_ok (s + 1)%sn → stable (sw_ok n) (rp_from_unsent_to_status cfg p s status restart delivered).
Proof.
  intros Hs Hs1. apply stable_on_reader. intros w r a r' eff Hw Hp.
  destruct (from_unsent_to_status _ _ _ _ _ r) as [[q e]|] eqn:E; cbn; [|done]. intros [= _ <- _].
  eapply listed_from_unsent; [intros z; by apply in_hist_range | by apply (so_readers _ _ Hw p) | exact Hs | exact Hs1 | exact E].
Qed.
End Stable.

#[local] Hint Resolve stable_the_reader stable_acked stable_from_unsent : writer.
#[local] Hint Extern 1 (stable _ (modify _)) => (apply stable_same; intros ?; split_and!; done) : writer.
#[local] Hint Extern 1 (stable _ (on_selector _ _)) =>
  (apply stable_same; intros ?; match goal with |- context [selector ?b _] => destruct b end; split_and!; done) : writer.

Section Plain.
Context (n : Z).

(** ** Heartbeats, gaps and locators *)

Lemma stable_intraprocess_gap p a b : stable (sw_ok n) (intraprocess_gap cfg p a b).
Proof. unfold intraprocess_gap. stable. Qed.

Lemma stable_increment : stable (sw_ok n) increment_hb_count.
Proof. unfold increment_hb_count. stable. Qed.

#[local] Hint Resolve stable_increment stable_intraprocess_gap : writer.

Lemma stable_intraprocess_heartbeat p b : stable (sw_ok n) (intraprocess_heartbeat cfg p b).
Proof. unfold intraprocess_heartbeat. stable. Qed.

Lemma stable_send_heartbeat add k dst f l :
  (∀ e, stable (sw_ok n) (add e)) → stable (sw_ok n) (send_heartbeat_nts_ cfg add k dst f l).
Proof. intros Ha. unfold send_heartbeat_nts_. stable. Qed.

Lemma stable_own_add e : stable (sw_ok n) (own_add e).
Proof. unfold own_add. stable. Qed.

Lemma stable_gaps dst : stable (sw_ok n) (add_gaps_for_holes_in_history cfg dst).
Proof. unfold add_gaps_for_holes_in_history. stable. Qed.

#[local] Hint Resolve stable_intraprocess_heartbeat stable_send_heartbeat stable_own_add stable_gaps : writer.

Lemma stable_update_reader_info b : stable (sw_ok n) (update_reader_info cfg b).
Proof. unfold update_reader_info. destruct b; stable. Qed.

Lemma stable_select_all flush b : stable (sw_ok n) flush → stable (sw_ok n) (select_all_readers_nts cfg flush b).
Proof. intros Hf. unfold select_all_readers_nts. destruct b; stable. Qed.

Lemma stable_own_flush : stable (sw_ok n) own_flush.
Proof. unfold own_flush. stable. Qed.

#[local] Hint Resolve stable_update_reader_info stable_select_all stable_own_flush : writer.

Lemma stable_send_heartbeat_to p l f : stable (sw_ok n) (send_heartbeat_to_nts cfg p l f).
Proof. unfold send_heartbeat_to_nts. stable. Qed.

#[local] Hint Resolve stable_send_heartbeat_to : writer.

Lemma stable_send_to_all : stable (sw_ok n) (send_heartbeat_to_all_readers cfg).
Proof. unfold send_heartbeat_to_all_readers. stable. Qed.

#[local] Hint Resolve stable_send_to_all : writer.

Lemma stable_periodic_heartbeat f l : stable (sw_ok n) (send_periodic_heartbeat cfg f l).
Proof. unfold send_periodic_heartbeat. stable. Qed.

(** ** Delivery *)

Section Group.
Context (answers : nat → GroupAnswer).

Lemma stable_next_answer : stable (sw_ok n) (next_answer answers).
Proof. by intros s. Qed.

Lemma stable_throw {A} e : stable (sw_ok n) (throw (A := A) e).
Proof. by intros s. Qed.

Lemma stable_bytes bytes : stable (sw_ok n) (get_current_bytes_processed bytes).
Proof. by intros s. Qed.

#[local] Hint Resolve stable_next_answer stable_throw stable_bytes : writer.

Lemma stable_group_add e : stable (sw_ok n) (group_add answers e).
Proof. unfold group_add. stable. Qed.

Lemma stable_group_flush : stable (sw_ok n) (group_flush answers).
Proof. unfold group_flush. stable. Qed.

Lemma stable_group_sender g : stable (sw_ok n) (group_sender answers g).
Proof.
  intros s Hs. unfold group_sender. destruct (decide _); [done|]. pose proof (stable_group_flush s Hs) as Hf. unfold bind.
  by destruct (group_flush answers s) as [[a| | |] s'].
Qed.

#[local] Hint Resolve stable_group_add stable_group_flush stable_group_sender : writer.

Lemma stable_piggyback bytes b : stable (sw_ok n) (send_heartbeat_piggyback_nts_ cfg answers bytes b).
Proof. unfold send_heartbeat_piggyback_nts_. stable. Qed.

#[local] Hint Resolve stable_piggyback : writer.

Section Change.
Context (change : CacheChange_t) (Hc : sn_ok (sequenceNumber change)) (Hle : wnum change <= n) (Hroom : n + 2 < 2 ^ 63 - 2 ^ 32).

Lemma change_next_ok : sn_ok (sequenceNumber change + 1)%sn ∧ snz (sequenceNumber change + 1)%sn <= n + 1.
Proof using Hc Hle Hroom.
  destruct (sn_ok_add _ 1 Hc ltac:(zwidth)) as [Hw E]. unfold wnum in Hle. pose proof (sn_ok_range _ Hc).
  split; [apply sn_ok_iff; [done|] |]; lia.
Qed.

Lemma stable_acked_change p : stable (sw_ok n) (rp_acked_changes_set cfg p (sequenceNumber change)).
Proof using Hc Hle. unfold wnum in Hle. apply stable_acked; [done | lia]. Qed.

Lemma stable_acked_next p : stable (sw_ok n) (rp_acked_changes_set cfg p (sequenceNumber change + 1)%sn).
Proof using Hc Hle Hroom. destruct change_next_ok. by apply stable_acked. Qed.

Lemma stable_status p status restart delivered :
  stable (sw_ok n) (rp_from_unsent_to_status cfg p (sequenceNumber change) status restart delivered).
Proof using Hc Hle Hroom. destruct change_next_ok. by apply stable_from_unsent. Qed.

#[local] Hint Resolve stable_acked_change stable_acked_next stable_status : writer.

Lemma stable_deliver_local : stable (sw_ok n) (deliver_sample_to_intraprocesses cfg change).
Proof using Hc Hle Hroom. unfold deliver_sample_to_intraprocesses, deliver_to_local. stable. Qed.

Lemma stable_deliver_datasharing : stable (sw_ok n) (deliver_sample_to_datasharing cfg change).
Proof using Hc Hle Hroom. unfold deliver_sample_to_datasharing. stable. Qed.

Lemma stable_mark_sent i : stable (sw_ok n) (mark_sent cfg change i).
Proof using Hc Hle Hroom. unfold mark_sent. stable. Qed.

#[local] Hint Resolve stable_mark_sent : writer.

Lemma stable_mark_fragment_sent f i : stable (sw_ok n) (mark_fragment_sent cfg change f i).
Proof using Hc Hle Hroom.
  unfold mark_fragment_sent. apply stable_bind; [|intros; stable]. apply stable_on_reader. intros w r a r' eff Hw Hp.
  destruct (mark_fragment_as_sent_for_change _ _ r) as [[[x y] q]|] eqn:E; cbn; [|done]. intros [= _ <- _].
  eapply listed_mark_fragment; [by apply (so_readers _ _ Hw _ _ Hp) | exact Hc | exact E].
Qed.

#[local] Hint Resolve stable_mark_fragment_sent : writer.

Lemma stable_send_piece f dst qos is_ code : stable (sw_ok n) (send_piece cfg answers change f dst qos is_ code).
Proof using Hc Hle Hroom. unfold send_piece. stable. Qed.

#[local] Hint Resolve stable_send_piece : writer.

Lemma stable_scan_reader b sc i : stable (sw_ok n) (scan_reader cfg answers b change sc i).
Proof using. unfold scan_reader. destruct b; stable. Qed.

#[local] Hint Resolve stable_scan_reader : writer.

Lemma stable_deliver_turn bytes b pending need : stable (sw_ok n) (deliver_turn cfg answers bytes b pending change need).
Proof using Hc Hle Hroom. unfold deliver_turn, send_separate, send_common. destruct b; stable. Qed.

Lemma stable_deliver_loop bytes fuel b pending : ∀ code f need,
  stable (sw_ok n) (deliver_loop cfg answers bytes fuel b pending change code f need).
Proof using Hc Hle Hroom.
  induction fuel as [|fuel IH]; intros code f need; cbn [deliver_loop]; stable.
  apply stable_deliver_turn.
Qed.

Lemma stable_deliver_network bytes fuel b pending : stable (sw_ok n) (deliver_sample_to_network cfg answers bytes fuel b pending change).
Proof using Hc Hle Hroom. unfold deliver_sample_to_network. stable. apply stable_deliver_loop. Qed.
End Change.
End Group.
End Plain.
End Invariant.

#[export] Hint Resolve stable_the_reader stable_acked stable_from_unsent stable_increment stable_intraprocess_gap
  stable_intraprocess_heartbeat stable_send_heartbeat stable_own_add stable_gaps stable_update_reader_info
  stable_select_all stable_own_flush stable_send_heartbeat_to stable_deliver_local stable_deliver_datasharing
  stable_deliver_network : writer.
#[export] Hint Extern 1 (stable _ (modify _)) => (apply stable_same; intros ?; split_and!; done) : writer.
#[export] Hint Extern 1 (stable _ (on_selector true _)) => (apply stable_same; intros ?; split_and!; done) : writer.
#[export] Hint Extern 1 (stable _ (on_selector false _)) => (apply stable_same; intros ?; split_and!; done) : writer.
