(* ===== verification/StatefulWriterSteps.v ===== *)
(** * The handlers of the writer keep its invariant

    The removal of changes, the bookkeeping of acknowledgements, new changes and
    the matching of readers; then the reachable writers. *)

From Stdlib Require Import ZArith Lia ZifyBool Sorting.Sorted.
From stdpp Require Import base numbers list option list_numbers sorting sets.
From S2P Require Import Prelude SequenceNumber BitmapRange BitmapFacts SortedRange Bytes Guid TimedEvent Time CacheChange ChangeForReader GapBuilder ReaderHistory ReaderProxy ReaderProxyFacts ReaderProxyTheorems ReaderProxyHistory WriterHistory LocatorSelector StatefulWriter StatefulWriterLogic StatefulWriterInvariant.

Open Scope Z_scope.
Open Scope writer_scope.

(** ** Removing from a sorted list *)

Lemma erase_at_ksorted {A} (key : A → Z) l i : ksorted key l → ksorted key (erase_at i l).
Proof.
  intros Hs. unfold erase_at. rewrite <- (take_drop i l) in Hs. apply ksorted_app in Hs as (H1 & H2 & Hlt).
  apply ksorted_app. replace (drop (S i) l) with (drop 1 (drop i l)) by (rewrite drop_drop; f_equal; lia).
  split; [done|]. split; [by apply lower_bound_drop_sorted|]. intros a b Ha Hb. apply Hlt; [done|]. by eapply subseteq_drop.
Qed.

Lemma elem_of_erase_at {A} (key : A → Z) l i c x :
  ksorted key l → l !! i = Some c → x ∈ erase_at i l ↔ x ∈ l ∧ key x ≠ key c.
Proof.
  intros Hs Hi. unfold erase_at. rewrite elem_of_app. pose proof (take_drop_middle l i c Hi) as E.
  rewrite <- E in Hs. apply ksorted_app in Hs as (H1 & [H2 Hc]%ksorted_cons & Hlt). rewrite Forall_forall in Hc.
  assert (x ∈ l ↔ x ∈ take i l ++ c :: drop (S i) l) as -> by (by rewrite E). rewrite elem_of_app, elem_of_cons. split.
  - intros [Hx|Hx]; (split; [tauto|]).
    + specialize (Hlt x c Hx ltac:(by apply elem_of_cons; left)). lia.
    + specialize (Hc x Hx). cbn in Hc. lia.
  - intros [[Hx|[->|Hx]] Hne]; [by left | done | by right].
Qed.

Section Steps.
Context (cfg : WriterConfig) (n : Z).

Lemma holds_on_reader {A} (I P : StatefulWriter → Prop) p (f : WriterInfo → ReaderProxy → option (A * ReaderProxy * list RPEffect)) Q :
  (∀ w r a r' eff, P w → reader_at p w = Some r → f (writer_info cfg w) r = Some (a, r', eff) → Q a (set_reader p r' w)) →
  (∀ w, P w → I w) → holds I P (on_reader cfg p f) Q.
Proof.
  intros Hf HI s Hs. unfold on_reader, the_reader, bind, gets, modify, emit. cbn [run_writer].
  destruct (reader_at p (run_writer s)) as [r|] eqn:Er; cbn; [|by apply HI].
  destruct (f _ r) as [[[a r'] eff]|] eqn:Ef; cbn; [by eapply Hf | by apply HI].
Qed.

Lemma history_set_reader p r w : history_ (set_reader p r w) = history_ w.
Proof. by destruct p as [[] i]. Qed.

(** ** Removal *)

Definition unlisted (seq : Z) (r : ReaderProxy) : Prop := ∀ c, c ∈ changes_for_reader_ r → cz c ≠ seq.

Lemma history_next_ok guid h c : wh_ok guid h → c ∈ wh_changes h → sn_ok (sequenceNumber c) ∧ sn_ok (sequenceNumber c + 1)%sn.
Proof.
  intros Hh Hc. destruct (wo_each _ _ Hh c Hc) as (Hok & Hr & _). split; [done|].
  destruct (sn_ok_add _ 1 Hok ltac:(zwidth)) as [Hw E]. pose proof (wo_room _ _ Hh). unfold wnum in Hr.
  apply sn_ok_iff; [done | lia].
Qed.

(** The readers other than those of a list no longer list a number. *)
Definition removing (h : WriterHistory) (seq : Z) (ps : list Position) (w : StatefulWriter) : Prop :=
  sw_ok cfg n w ∧ history_ w = h ∧ ∀ p r, p ∉ ps → reader_at p w = Some r → unlisted seq r.

Lemma remove_from_reader h s p ps :
  sn_ok s → sn_ok (s + 1)%sn →
  holds (sw_ok cfg n) (removing h (snz s) (p :: ps))
    (on_reader cfg p (λ wi r, let '(r', effects) := change_has_been_removed wi s r in Some (tt, r', effects)))
    (λ _, removing h (snz s) ps).
Proof.
  intros Hs Hs1. apply holds_on_reader; [|by intros w [? _]]. intros w r [] r' eff (Hw & Eh & Hgone) Hp.
  destruct (change_has_been_removed _ s r) as [q e] eqn:E. intros [= <- _].
  destruct (listed_removed (in_hist (history_ w)) n (λ z, in_hist_range cfg n w z Hw) (writer_info cfg w) s r) as [Hq Hun];
    [by apply (so_readers _ _ _ Hw p) | done | done |]. rewrite E in Hq, Hun. cbn [fst] in Hq, Hun.
  split; [by apply sw_ok_set_reader|]. split; [by rewrite history_set_reader|]. intros p' r'' Hp'. rewrite reader_at_set.
  destruct (decide _) as [->|Hne].
  - rewrite Hp. cbn. intros [= <-] c Hc. by apply Hun.
  - intros Hr. apply (Hgone p' r''); [|done]. rewrite elem_of_cons. intros [E'|?]; [by destruct Hne | done].
Qed.

Lemma change_removed_holds h c :
  wh_ok (wc_guid cfg) h → c ∈ wh_changes h →
  holds (sw_ok cfg n) (λ w, sw_ok cfg n w ∧ history_ w = h) (change_removed_by_history cfg c)
    (λ b w, sw_ok cfg n w ∧ history_ w = h ∧ (b = true → ∀ p r, reader_at p w = Some r → unlisted (wnum c) r)).
Proof.
  intros Hh Hc. destruct (history_next_ok _ h c Hh Hc) as [Hok Hok1].
  unfold change_removed_by_history. destruct (wc_flow_remove cfg c); [|by intros s [Hs Eh]].
  apply holds_bind with (λ _ w, sw_ok cfg n w ∧ history_ w = h); [by intros s Hs|]. intros _.
  apply holds_bind with (λ _ w, sw_ok cfg n w ∧ history_ w = h).
  { apply holds_modify. intros w [Hw Eh]. split; [by apply (sw_ok_same cfg n w) | done]. }
  intros _. apply holds_gets. intros w [Hw Eh].
  apply holds_bind with (λ _, removing h (wnum c) []).
  { apply holds_weaken with (removing h (wnum c) (positions w)) (λ _, removing h (wnum c) []); [|done|].
    - intros w' ->. split_and!; [done | done |]. intros p r Hp Hr. destruct Hp. apply elem_of_positions. by eauto.
    - apply holds_for_each; [|by intros l' w' [? _]]. intros p ps. exact (remove_from_reader h _ p ps Hok Hok1). }
  intros _. apply holds_bind with (λ _, removing h (wnum c) []); [by destruct (wc_datasharing_compatible cfg); intros s Hs|].
  intros _. apply holds_bind with (λ _, removing h (wnum c) []).
  { apply holds_modify. intros w' (Hw' & Eh' & Hg). split_and!; [by apply (sw_ok_same cfg n w') | done | done]. }
  intros _. apply holds_bind with (λ _, removing h (wnum c) []); [by intros s Hs|]. intros _ s (Hs & Eh' & Hg). cbn.
  split_and!; [done | done |]. intros _ p r Hr. apply (Hg p r); [apply not_elem_of_nil | done].
Qed.

(** The history without one of its changes. *)
Lemma sw_ok_erase i c w :
  sw_ok cfg n w → wh_changes (history_ w) !! i = Some c → (∀ p r, reader_at p w = Some r → unlisted (wnum c) r) →
  sw_ok cfg n (sw_set_history (wh_erase i (history_ w)) w).
Proof.
  intros [[H1 H2 H3 H4] Hn Hr Hp] Hi Hun. constructor; cbn [history_ sw_set_history]; [|done| |done].
  - constructor; cbn [m_lastCacheChangeSeqNum wh_erase wh_changes]; [done | done | by apply erase_at_ksorted |].
    intros d Hd. apply H4. by apply (elem_of_erase_at wnum _ _ c) in Hd as [? _].
  - intros p r Hpr. pose proof (Hr p r Hpr) as [L1 L2 L3 L4]. constructor; [done..|]. intros x Hx.
    destruct (L4 x Hx) as (d & Hd & E). exists d. split; [|done]. cbn [wh_erase wh_changes].
    apply (elem_of_erase_at wnum _ _ c); [done | done |]. split; [done|]. rewrite E. by apply (Hun p r).
Qed.

Lemma stable_remove_change_nts i release : stable (sw_ok cfg n) (remove_change_nts cfg i release).
Proof.
  unfold remove_change_nts. apply holds_gets. intros w Hw.
  destruct (wh_changes (history_ w) !! i) as [c|] eqn:Ei; [|intros s Es; cbn; by rewrite Es].
  apply holds_bind with (λ b w', sw_ok cfg n w' ∧ history_ w' = history_ w ∧
    (b = true → ∀ p r, reader_at p w' = Some r → unlisted (wnum c) r)).
  { apply holds_weaken with (λ w', sw_ok cfg n w' ∧ history_ w' = history_ w) (λ b w', sw_ok cfg n w' ∧ history_ w' = history_ w ∧
      (b = true → ∀ p r, reader_at p w' = Some r → unlisted (wnum c) r)); [by intros w' -> | done |].
    apply change_removed_holds; [apply Hw | by eapply list_elem_of_lookup_2]. }
  intros [|].
  - apply holds_bind with (λ _, sw_ok cfg n); [|intros _; apply stable_ret].
    apply holds_bind with (λ _, sw_ok cfg n); [|intros _; stable].
    apply holds_modify. intros w' (Hw' & Eh & Hun). apply sw_ok_erase with c; [done | by rewrite Eh | by apply Hun].
  - intros s (Hs & _). done.
Qed.

#[local] Hint Resolve stable_remove_change_nts : writer.

Lemma stable_remove_change ch : stable (sw_ok cfg n) (remove_change cfg ch).
Proof. unfold remove_change. stable. Qed.

Lemma stable_remove_by_number s : stable (sw_ok cfg n) (remove_change_by_number cfg s).
Proof. unfold remove_change_by_number, remove_change_and_reuse. stable. Qed.

#[local] Hint Resolve stable_remove_change : writer.

Lemma stable_remove_min : stable (sw_ok cfg n) (remove_min_change cfg).
Proof. unfold remove_min_change. stable. Qed.

#[local] Hint Resolve stable_remove_min : writer.

(** ** Acknowledgement *)

Lemma stable_received_by_all c : stable (sw_ok cfg n) (on_writer_change_received_by_all cfg c).
Proof. unfold on_writer_change_received_by_all. stable. Qed.

#[local] Hint Resolve stable_received_by_all : writer.

Lemma stable_notify_received fuel : ∀ cit e, stable (sw_ok cfg n) (notify_received cfg fuel cit e).
Proof. induction fuel as [|fuel IH]; intros cit e; cbn [notify_received]; stable. Qed.

#[local] Hint Resolve stable_notify_received : writer.

Lemma stable_check_acked : stable (sw_ok cfg n) (check_acked_status cfg).
Proof. unfold check_acked_status. stable. Qed.

#[local] Hint Resolve stable_check_acked : writer.

Lemma stable_try_remove z : stable (sw_ok cfg n) (try_remove_change cfg z).
Proof. unfold try_remove_change. stable. Qed.

Lemma stable_deliver answers bytes fuel general pending change :
  sn_ok (sequenceNumber change) → wnum change <= n → n + 2 < 2 ^ 63 - 2 ^ 32 →
  stable (sw_ok cfg n) (deliver_sample_nts cfg answers bytes fuel general pending change).
Proof. intros Hc Hle Hroom. unfold deliver_sample_nts. stable. Qed.

(** ** Messages from the readers *)

Lemma result_proxy {A} (x : A * ReaderProxy) (e : list RPEffect) a r' eff : Some (x, e) = Some (a, r', eff) → r' = snd x.
Proof. by intros [= -> _]. Qed.

Lemma stable_nack_response : stable (sw_ok cfg n) (perform_nack_response cfg).
Proof.
  unfold perform_nack_response. stable. apply stable_on_reader. intros w1 r a r' eff Hw1 Hp.
  pose proof (listed_convert (in_hist (history_ w1)) n REQUESTED UNSENT r (so_readers _ _ _ Hw1 _ _ Hp)) as Hl.
  unfold perform_acknack_response. destruct (convert_status_on_all_changes _ _ r) as [[k q] calls]. by intros [= _ <- _].
Qed.

Lemma stable_nack_supression g : stable (sw_ok cfg n) (sw_perform_nack_supression cfg g).
Proof.
  unfold sw_perform_nack_supression. stable. apply stable_on_reader. intros w' r a r' eff Hw Hp ->%result_proxy.
  by apply listed_nack_supression, (so_readers _ _ _ Hw _ _ Hp).
Qed.

Lemma stable_nack_frag wg rg k s fs : sn_ok s → stable (sw_ok cfg n) (sw_process_nack_frag cfg wg rg k s fs).
Proof.
  intros Hs. unfold sw_process_nack_frag. stable. apply stable_on_reader. intros w' r a r' eff Hw Hp ->%result_proxy.
  by apply listed_nack_frag; [apply (so_readers _ _ _ Hw _ _ Hp)|].
Qed.

(** What the set of an ACKNACK has to be. *)
Definition acknack_ok (sn_set : SequenceNumberSet_t) : Prop :=
  bm_ok sn_set ∧ sn_ok (base_ sn_set) ∧ Forall sn_ok (bm_for_each sn_set).

Lemma stable_request_changes p sn_set final : acknack_ok sn_set → stable (sw_ok cfg n) (request_changes cfg p sn_set final).
Proof.
  intros (_ & _ & Hels). unfold request_changes. apply stable_gets. intros w Hw.
  assert (get_seq_num_min (history_ w) = sn_unknown ∨ sn_ok (get_seq_num_min (history_ w))) as Hmin.
  { destruct (seq_num_min_spec _ _ (so_history _ _ _ Hw)) as [[_ ->]|(c & Hc & -> & _)]; [by left|]. right.
    by destruct (wo_each _ _ (so_history _ _ _ Hw) c Hc) as [? _]. }
  stable. apply stable_on_reader. intros w2 q a2 r' eff Hw2 Hp.
  pose proof (listed_requested (in_hist (history_ w2)) n (wc_add_gap cfg) sn_set gb_make (get_seq_num_min (history_ w)) q
    (so_readers _ _ _ Hw2 _ _ Hp) Hels Hmin) as Hl.
  destruct (requested_changes_set _ _ _ _ q) as [[[b q'] g] sent]. by intros [= _ <- _].
Qed.

#[local] Hint Resolve stable_request_changes : writer.

Lemma stable_reader_acknack p k sn_set final :
  acknack_ok sn_set → snz (base_ sn_set) <= n + 1 → stable (sw_ok cfg n) (process_reader_acknack cfg p k sn_set final).
Proof.
  intros Hset Hle. assert (sn_ok (base_ sn_set)) as Hb by apply Hset. unfold process_reader_acknack. stable.
  - apply stable_on_reader. intros w r a r' eff Hw Hp ->%result_proxy.
    by apply listed_acknack_count, (so_readers _ _ _ Hw _ _ Hp).
  - apply stable_on_reader. intros w3 r3 a3 r' eff Hw3 Hp.
    pose proof (listed_initial_acknack (in_hist (history_ w3)) n r3 (so_readers _ _ _ Hw3 _ _ Hp)) as Hl.
    destruct (process_initial_acknack r3) as [[b q] calls]. by intros [= _ <- _].
Qed.

Lemma received_number sn_set :
  acknack_ok sn_set →
  let received := if bm_empty sn_set then base_ sn_set else bm_max sn_set in
  sn_wf received ∧ snz (base_ sn_set) <= snz received.
Proof.
  intros (Hok & Hb & _). cbn zeta. destruct (bm_empty sn_set) eqn:E; [split; [by apply sn_ok_wf | lia]|].
  unfold bm_empty in E. pose proof (ok_num _ Hok). unfold bm_max. rewrite u32_small by zwidth.
  destruct (sn_ok_add (base_ sn_set) (num_bits_ sn_set - 1) Hb ltac:(zwidth)) as [Hw Ev].
  split; [exact Hw|]. cbn [item_add SequenceNumber_item]. lia.
Qed.

Lemma stable_acknack wg rg k sn_set final : acknack_ok sn_set → stable (sw_ok cfg n) (process_acknack cfg wg rg k sn_set final).
Proof.
  intros Hset. unfold process_acknack. destruct (received_number sn_set Hset) as [Hr Hle]. cbn zeta in Hr, Hle.
  apply stable_if; intros _; [|apply stable_ret]. apply stable_gets. intros w Hw. cbv zeta.
  destruct (next_spec cfg n w Hw) as [Hn En]. apply stable_bind; [|intros; apply stable_ret].
  apply stable_if; intros Eg; [|apply stable_ret]. rewrite sn_leb_snz in Eg by (done || by apply sn_ok_wf).
  apply Z.leb_le in Eg. destruct (find_reader _ _); [|apply stable_ret]. apply stable_reader_acknack; [done|].
  cbn [id] in *. lia.
Qed.

(** The expiration of the acknowledgement event, when the number it stands at has been used. *)
Definition ack_in_range (w : StatefulWriter) : Prop := sn_ok (last_sequence_number_ w) ∧ snz (last_sequence_number_ w) <= n.

Lemma ack_timer_loop_holds fuel expired :
  n + 2 < 2 ^ 63 - 2 ^ 32 →
  holds (sw_ok cfg n) (λ w, sw_ok cfg n w ∧ ack_in_range w) (ack_timer_loop cfg fuel expired) (λ _, sw_ok cfg n).
Proof.
  intros Hroom. induction fuel as [|fuel IH]; cbn [ack_timer_loop]; [by intros s [Hs _]|].
  apply holds_gets. intros w (Hw & Hl & Hle). cbv zeta. unfold id.
  apply holds_weaken with (sw_ok cfg n) (λ _, sw_ok cfg n); [by intros w' -> | done |].
  destruct (sn_ok_add (last_sequence_number_ w) 1 Hl ltac:(zwidth)) as [Hw1 E1]. pose proof (sn_ok_range _ Hl).
  assert (sn_ok (last_sequence_number_ w + 1)%sn) by (apply sn_ok_iff; [done | lia]).
  apply stable_bind. { stable. apply stable_acked; [done | lia]. }
  intros _. apply stable_bind; [stable|]. intros _. apply stable_bind; [stable|]. intros _.
  apply holds_gets. intros w' Hw'. cbn [id]. destruct (wh_get_change _ _ _) as [c|] eqn:Ec; [|intros s Es; cbn; by rewrite Es].
  apply holds_weaken with (λ w, sw_ok cfg n w ∧ ack_in_range w) (λ _, sw_ok cfg n); [|done|].
  - intros w'' ->. split; [done|]. apply wh_get_change_seq in Ec as [Hc Es]. unfold ack_in_range. rewrite <- Es.
    destruct (wo_each _ _ (so_history _ _ _ Hw') c Hc) as (H1 & H2 & _). rewrite (so_last _ _ _ Hw') in H2. by split; [|apply H2].
  - destruct (expired c); [done|]. intros s [Hs _]. done.
Qed.

(** ** New changes *)

(** The readers of a list do not know the last number yet. *)
Definition adding (ps : list Position) (w : StatefulWriter) : Prop :=
  sw_ok cfg n w ∧ NoDup ps ∧
  ∀ p r, p ∈ ps → reader_at p w = Some r →
    snz (changes_low_mark_ r) < n ∧ Forall (λ c, cz c < n) (changes_for_reader_ r).

Lemma add_to_reader change p ps relevant restart (mk : ChangeForReader_t) :
  sn_ok (seq_num_ mk) → cz mk = n → seq_num_ mk = sequenceNumber change →
  holds (sw_ok cfg n) (λ w, adding (p :: ps) w ∧ change ∈ wh_changes (history_ w))
    (on_reader cfg p (λ _ r, let '(r', effects) := add_change_restart mk relevant restart r in Some (tt, r', effects)))
    (λ _ w, adding ps w ∧ change ∈ wh_changes (history_ w)).
Proof.
  intros Hok Hz Hseq. apply holds_on_reader; [|by intros w [[? _] _]].
  intros w r [] r' eff ((Hw & [Hp Hnd]%NoDup_cons & Hfresh) & Hc) Hr.
  destruct (Hfresh p r ltac:(left) Hr) as [Hlow Hlt].
  assert (listed (in_hist (history_ w)) n (fst (add_change_restart mk relevant restart r))) as Hl.
  { apply listed_add; [intros z; by apply (in_hist_range cfg) | by apply (so_readers _ _ _ Hw p) | done | lia | | ].
    - eapply Forall_impl; [exact Hlt|]. cbn. intros. lia.
    - exists change. split; [done|]. unfold wnum. rewrite <- Hseq. done. }
  destruct (add_change_restart mk relevant restart r) as [q e]. cbn [fst] in Hl. intros [= <- _].
  split; [|by rewrite history_set_reader]. split_and!; [by apply sw_ok_set_reader | done |].
  intros p' r'' Hp' Hr''. rewrite reader_at_set in Hr''. rewrite decide_False in Hr'' by (intros ->; done).
  apply (Hfresh p' r''); [by right | done].
Qed.

Lemma unsent_change_holds change :
  n + 2 < 2 ^ 63 - 2 ^ 32 → sn_ok (sequenceNumber change) → wnum change = n →
  holds (sw_ok cfg n) (λ w, adding (positions w) w ∧ change ∈ wh_changes (history_ w))
    (unsent_change_added_to_history cfg change) (λ _, sw_ok cfg n).
Proof.
  intros Hroom Hok Hz. unfold unsent_change_added_to_history. cbv zeta.
  set (P := λ w, adding (positions w) w ∧ change ∈ wh_changes (history_ w)).
  apply holds_bind with (λ _, P); [by destruct (wc_finite_lease cfg); intros s Hs|]. intros _.
  apply holds_bind with (λ _, P); [by destruct (wc_datasharing_compatible cfg); intros s Hs|]. intros _.
  apply holds_gets. intros w [Ha Hc]. apply holds_bind with (λ _, sw_ok cfg n); [|intros _; stable].
  destruct (bool_decide _).
  { apply holds_weaken with (sw_ok cfg n) (λ _, sw_ok cfg n); [intros w' ->; apply Ha | done | apply stable_check_acked]. }
  apply holds_bind with (λ _ w, adding [] w ∧ change ∈ wh_changes (history_ w)).
  - apply holds_weaken with (λ w', adding (positions w) w' ∧ change ∈ wh_changes (history_ w'))
      (λ _ w, adding [] w ∧ change ∈ wh_changes (history_ w)); [by intros w' -> | done |].
    apply (holds_fold_each (sw_ok cfg n) (λ ps w', adding ps w' ∧ change ∈ wh_changes (history_ w'))).
    intros p ps b. unfold the_reader.
    apply holds_bind with (λ _ w, adding (p :: ps) w ∧ change ∈ wh_changes (history_ w)).
    { apply holds_gets. intros w' Hw'. destruct (reader_at p w'); intros s Es; cbn; rewrite Es; [done | by apply Hw']. }
    intros r. apply holds_gets. intros w' Hw'.
    apply holds_bind with (λ _ w, adding ps w ∧ change ∈ wh_changes (history_ w)); [|by intros _ s Hs].
    apply holds_weaken with (λ w, adding (p :: ps) w ∧ change ∈ wh_changes (history_ w))
      (λ _ w, adding ps w ∧ change ∈ wh_changes (history_ w)); [by intros ? -> | done |].
    apply add_to_reader; destruct (_ || _ || _); done.
  - intros b. apply holds_weaken with (sw_ok cfg n) (λ _, sw_ok cfg n); [by intros w' [[? _] _] | done |]. stable.
Qed.
End Steps.

Lemma listed_grow (H H' : Z → Prop) n n' r : listed H n r → n <= n' → (∀ z, H z → H' z) → listed H' n' r.
Proof. intros [H1 H2 H3 H4] Hle Hsub. constructor; [done | done | lia | intros c Hc; by apply Hsub, H4]. Qed.

(** What the history makes of a change. *)
Lemma prepared_change hcfg now a wp h change h' :
  prepare_and_add_change hcfg now a wp h = (inr change, h') →
  writerGUID change = writerGUID a ∧ sequenceNumber change = sn_incr (m_lastCacheChangeSeqNum h) ∧
  wh_changes h' = wh_changes h ++ [change] ∧ m_lastCacheChangeSeqNum h' = sn_incr (m_lastCacheChangeSeqNum h).
Proof.
  unfold prepare_and_add_change. repeat (case_match; [done|]). destruct (set_fragments _ _ _ h) as [c h1] eqn:E.
  intros [= <- <-]. unfold set_fragments in E. injection E as <- <-. cbn.
  repeat match goal with |- context [if ?b then _ else _] => destruct b end; try done;
    unfold setFragmentSize; repeat case_match; done.
Qed.

Lemma rejected_change hcfg now a wp h e h' : prepare_and_add_change hcfg now a wp h = (inl e, h') → h' = h.
Proof.
  unfold prepare_and_add_change. repeat (case_match; [by intros [= _ <-]|]). by destruct (set_fragments _ _ _ h).
Qed.

Lemma sw_ok_push cfg n w change h' :
  sw_ok cfg n w → n + 3 < 2 ^ 63 - 2 ^ 32 → writerGUID change = wc_guid cfg →
  sequenceNumber change = sn_incr (m_lastCacheChangeSeqNum (history_ w)) → wh_changes h' = wh_changes (history_ w) ++ [change] →
  m_lastCacheChangeSeqNum h' = sn_incr (m_lastCacheChangeSeqNum (history_ w)) →
  let w' := sw_set_history h' w in
  sn_ok (sequenceNumber change) ∧ wnum change = n + 1 ∧ adding cfg (n + 1) (positions w') w' ∧ change ∈ wh_changes (history_ w').
Proof.
  intros Hw Hroom Hg Hseq Hch Hlast. pose proof Hw as [[H1 H2 H3 H4] Hn Hr Hp].
  destruct (sn_ok_add _ 1 H1 ltac:(zwidth)) as [Hwf E]. rewrite sn_incr_add_u32 in Hseq, Hlast by apply H1. rewrite Hn in *.
  pose proof (sn_ok_range _ H1) as Hrange. rewrite Hn in Hrange.
  assert (sn_ok (m_lastCacheChangeSeqNum (history_ w) + 1)%sn) as Hok by (apply sn_ok_iff; [done | lia]). rewrite <- Hseq in Hok, E.
  cbn zeta. split; [done|]. split; [done|]. assert (change ∈ wh_changes h') as Hin.
  { rewrite Hch. apply elem_of_app. right. by left. }
  split; [|done]. assert (∀ p, reader_at p (sw_set_history h' w) = reader_at p w) as Erd by (by intros [[] i]).
  split; [|split; [apply NoDup_positions|]].
  - constructor; cbn [history_ sw_set_history].
    + constructor; rewrite ?Hlast, <- ?Hseq; [done | lia | |].
      * rewrite Hch. apply ksorted_app. split; [done|]. split; [apply ksorted_cons; split; [apply ksorted_nil | apply Forall_nil_2]|].
        intros a b Ha ->%list_elem_of_singleton. destruct (H4 a Ha) as (_ & ? & _). change (wnum change) with (snz (sequenceNumber change)). lia.
      * intros c. rewrite Hch, elem_of_app, list_elem_of_singleton. intros [Hc| ->].
        -- destruct (H4 c Hc) as (? & ? & ?). split_and!; [done | lia | lia | done].
        -- split_and!; [done | change (wnum change) with (snz (sequenceNumber change)); lia | change (wnum change) with (snz (sequenceNumber change)); lia | done].
    + by rewrite Hlast, <- Hseq.
    + intros p r. rewrite Erd. intros Hpr. apply (listed_grow (in_hist (history_ w)) _ n); [by apply (Hr p) | lia |].
      intros z (c & Hc & Ez). exists c. split; [|done]. rewrite Hch. apply elem_of_app. by left.
    + done.
  - intros p r _. rewrite Erd. intros Hpr. pose proof (Hr p r Hpr) as Hl. split; [pose proof (li_low _ _ _ Hl); lia|].
    apply Forall_forall. intros c Hc. pose proof (listed_le _ n (λ z, in_hist_range cfg n w z Hw) r c Hl Hc). lia.
Qed.

Lemma sw_add_change_ok cfg n now a wp s :
  sw_ok cfg n (run_writer s) → n + 3 < 2 ^ 63 - 2 ^ 32 → writerGUID a = wc_guid cfg →
  ∃ n', sw_ok cfg n' (run_writer (snd (add_change_ cfg now a wp s))) ∧ n <= n' <= n + 1.
Proof.
  intros Hw Hroom Hg. unfold add_change_, bind at 1, gets at 1. cbn [run_writer].
  destruct (prepare_and_add_change _ _ _ _ _) as [[e|change] h'] eqn:Ep.
  - apply rejected_change in Ep as ->. exists n. split; [|lia]. by apply (sw_ok_same cfg n (run_writer s)).
  - apply prepared_change in Ep as (E1 & E2 & E3 & E4). rewrite Hg in E1. exists (n + 1). split; [|lia].
    destruct (sw_ok_push cfg n (run_writer s) change h' Hw Hroom E1 E2 E3 E4) as (H1 & H2 & H3 & H4).
    unfold bind, modify. cbn [run_writer].
    pose proof (unsent_change_holds cfg (n + 1) change ltac:(lia) H1 H2) as Hh.
    specialize (Hh {| run_writer := sw_set_history h' (run_writer s); run_effects := run_effects s;
      run_answers := run_answers s; run_sender := run_sender s |} (conj H3 H4)).
    destruct (unsent_change_added_to_history cfg change _) as [[u| | |] s']; done.
Qed.
