(* ===== verification/StatefulWriterMatching.v ===== *)
(** * Matching keeps the invariant of the writer

    A reader that is matched gets a proxy that is as good as new, and a late joiner
    the changes of the history above its low mark; then the reachable writers. *)

From Stdlib Require Import ZArith Lia ZifyBool Sorting.Sorted.
From stdpp Require Import base numbers list option list_numbers sorting sets.
From S2P Require Import Prelude SequenceNumber BitmapRange BitmapFacts SortedRange Bytes Guid TimedEvent Time CacheChange ChangeForReader GapBuilder ReaderHistory ReaderProxy ReaderProxyFacts ReaderProxyTheorems ReaderProxyHistory WriterHistory LocatorSelector StatefulWriter StatefulWriterLogic StatefulWriterInvariant StatefulWriterSteps.

Open Scope Z_scope.
Open Scope writer_scope.

Section Matching.
Context (cfg : WriterConfig) (n : Z).

#[local] Hint Resolve stable_check_acked : writer.

(** ** Matched readers *)

Lemma listed_filter (H : Z → Prop) r : listed H n r → listed H n (rp_filter_locators cfg r).
Proof.
  intros Hr. apply (listed_same_keys H n r); [done | | done | done]. split; [|done]. by apply (rp_ok_same r); [apply Hr | ..].
Qed.

Lemma listed_update (H : Z → Prop) rdata r : listed H n r → listed H n (rp_update rdata r).
Proof.
  intros Hr. apply (listed_same_keys H n r); [done | | done | done]. split; [|done]. by apply (rp_ok_same r); [apply Hr | ..].
Qed.

Lemma stable_update_matched p rdata : stable (sw_ok cfg n) (update_matched_reader cfg p rdata).
Proof.
  unfold update_matched_reader. stable. apply stable_on_reader. intros w r a r' eff Hw Hp [= _ <- _].
  by apply listed_filter, listed_update, (so_readers _ _ _ Hw p).
Qed.

(** The readers of a list of kind [k] replaced by readers that list changes of the history. *)
Lemma reader_at_set_readers k l q w :
  reader_at q (set_readers_of k l w) = if decide (fst q = k) then l !! snd q else reader_at q w.
Proof. unfold reader_at. destruct q as [k' i], k, k'; done. Qed.

Lemma sw_ok_set_readers k l w :
  sw_ok cfg n w → (∀ r, r ∈ l → listed (in_hist (history_ w)) n r) → sw_ok cfg n (set_readers_of k l w).
Proof.
  intros [H1 H2 H3 H4] Hl. assert (history_ (set_readers_of k l w) = history_ w) as Eh by (by destruct k).
  assert (matched_readers_pool_ (set_readers_of k l w) = matched_readers_pool_ w) as Ep by (by destruct k).
  constructor; rewrite ?Eh, ?Ep; [done.. | | done]. intros q r. rewrite reader_at_set_readers.
  destruct (decide _); [|by apply H3]. intros Hq. apply Hl. by eapply list_elem_of_lookup_2.
Qed.

Lemma sw_ok_set_pool l w : sw_ok cfg n w → (∀ r, r ∈ l → idle r) → sw_ok cfg n (sw_set_pool l w).
Proof. intros [H1 H2 H3 H4] Hl. by constructor. Qed.

Lemma idle_make ds events : idle (fst (rp_make ds events)).
Proof.
  unfold rp_make, rp_stop. destruct (disable_timers _) as [r1 e]. done.
Qed.

Lemma idle_stop r : idle (fst (rp_stop r)).
Proof. unfold rp_stop. by destruct (disable_timers r) as [r1 e]. Qed.

Lemma take_proxy_holds :
  holds (sw_ok cfg n) (sw_ok cfg n) (take_reader_proxy cfg) (λ o w, sw_ok cfg n w ∧ ∀ r, o = Some r → idle r).
Proof.
  unfold take_reader_proxy. apply holds_gets. intros w Hw. unfold id.
  destruct (last (matched_readers_pool_ w)) as [r|] eqn:El.
  - apply last_Some in El as [l' El]. apply holds_bind with (λ _, sw_ok cfg n).
    + apply holds_modify. intros w' ->. apply sw_ok_set_pool; [done|]. rewrite El, removelast_last.
      intros q Hq. apply (so_pool _ _ _ Hw). rewrite El. apply elem_of_app. by left.
    + intros _ s Hs. split; [done|]. intros q [= <-]. apply (so_pool _ _ _ Hw). rewrite El. apply elem_of_app. right. by left.
  - destruct (_ <? _).
    + pose proof (idle_make (wc_datasharing_compatible cfg) (wc_reader_events cfg)) as Hi.
      destruct (rp_make _ _) as [r e]. intros s Es. cbn. rewrite Es. split; [done|]. by intros q [= <-].
    + intros s Es. cbn. rewrite Es. split; [done|]. by intros q [=].
Qed.

(** ** Late joiners *)

(** The changes still to be added to the reader at [p]. *)
Definition late_joining (h : WriterHistory) (p : Position) (l : list CacheChange_t) (w : StatefulWriter) : Prop :=
  sw_ok cfg n w ∧ history_ w = h ∧ ksorted wnum l ∧ (∀ c, c ∈ l → c ∈ wh_changes h) ∧
  ∀ r, reader_at p w = Some r → ∀ c, c ∈ l →
    snz (changes_low_mark_ r) < wnum c ∧ Forall (λ x, cz x < wnum c) (changes_for_reader_ r).

Lemma add_change_restart_relevant change r :
  changes_for_reader_ (fst (add_change_restart change true false r)) = changes_for_reader_ r ++ [change] ∧
  changes_low_mark_ (fst (add_change_restart change true false r)) = changes_low_mark_ r.
Proof. done. Qed.

Lemma add_old_change_holds h p c l (mk : ChangeForReader_t) :
  seq_num_ mk = sequenceNumber c →
  holds (sw_ok cfg n) (late_joining h p (c :: l))
    (on_reader cfg p (λ _ r, let '(r', effects) := add_change_restart mk true false r in Some (tt, r', effects)))
    (λ _, late_joining h p l).
Proof.
  intros Hmk. apply holds_on_reader; [|by intros w [? _]]. intros w r [] r' eff (Hw & Eh & Hs & Hin & Hnew) Hp.
  destruct (Hnew r Hp c ltac:(left)) as [Hlow Hlt]. apply ksorted_cons in Hs as [Hs Hgt]. rewrite Forall_forall in Hgt.
  assert (c ∈ wh_changes h) as Hc by (apply Hin; left). pose proof (so_history _ _ _ Hw) as Hh.
  rewrite Eh in Hh. destruct (wo_each _ _ Hh c Hc) as (Hok & _).
  assert (cz mk = wnum c) as Ez by (unfold cz; by rewrite Hmk).
  assert (listed (in_hist (history_ w)) n (fst (add_change_restart mk true false r))) as Hl.
  { apply listed_add; [intros z; by apply (in_hist_range cfg) | by apply (so_readers _ _ _ Hw p) | by rewrite Hmk | lia | by rewrite Ez |].
    exists c. rewrite Eh. split; [done | by symmetry]. }
  destruct (add_change_restart_relevant mk r) as [E1 E2].
  destruct (add_change_restart mk true false r) as [q e]. cbn [fst] in *. intros [= <- _].
  split_and!; [by apply sw_ok_set_reader | by rewrite history_set_reader | done | intros d Hd; apply Hin; by right |].
  intros r'' Hr'' d Hd. rewrite reader_at_set, decide_True, Hp in Hr'' by done. injection Hr'' as <-. rewrite E1, E2.
  specialize (Hgt d Hd). cbn in Hgt. split; [lia|]. apply Forall_app. split.
  - eapply Forall_impl; [exact Hlt|]. cbn. intros. lia.
  - apply Forall_singleton. lia.
Qed.

Lemma add_old_changes_holds p w :
  late_joining (history_ w) p (wh_changes (history_ w)) w →
  holds (sw_ok cfg n) (λ w', w' = w) (add_old_changes cfg p) (λ _, sw_ok cfg n).
Proof.
  intros HJ. unfold add_old_changes. apply holds_gets. intros w' ->.
  apply holds_weaken with (late_joining (history_ w) p (wh_changes (history_ w))) (λ _, late_joining (history_ w) p []);
    [by intros w' -> | by intros _ w' [? _] |].
  apply holds_for_each; [|by intros l' w' [? _]]. intros c l. unfold the_reader.
  apply holds_bind with (λ _, late_joining (history_ w) p (c :: l)).
  { apply holds_gets. intros w' Hw'. destruct (reader_at p w'); intros s Es; cbn; rewrite Es; [done | by apply Hw']. }
  intros r. apply holds_gets. intros w' Hw'. unfold when at 1. cbv zeta.
  destruct (rtps_is_relevant _ c r).
  - apply holds_bind with (λ _, late_joining (history_ w) p (c :: l)); [by destruct (is_local_reader r); intros s Es; cbn; rewrite Es|]. intros _.
    apply add_old_change_holds. by destruct (is_local_reader r).
  - intros s Es. cbn. rewrite Es. destruct Hw' as (H1 & H2 & [H3 _]%ksorted_cons & H4 & H5).
    split_and!; [done | done | done | intros d Hd; apply H4; by right |]. intros r' Hr' d Hd. apply (H5 r' Hr'). by right.
Qed.

(** ** Adding a reader *)

(** A reader that keeps old samples and has just been started. *)
Definition just_started (h : WriterHistory) (r : ReaderProxy) : Prop :=
  durability_kind_ r ≠ VOLATILE → get_seq_num_min h ≠ sn_unknown →
  changes_for_reader_ r = [] ∧ snz (changes_low_mark_ r) = snz (get_seq_num_min h) - 1.

Lemma started_reader w rdata ds r :
  sw_ok cfg n w → idle r →
  let r' := fst (rp_start (writer_info cfg w) rdata ds r) in
  listed (in_hist (history_ w)) n r' ∧ just_started (history_ w) r'.
Proof.
  intros Hw (Hc & Hl & Ha). destruct (writer_info_facts cfg n w Hw) as (H1 & H2 & H3 & H4 & _). cbn zeta. split.
  { apply listed_start; [intros z; by apply (in_hist_range cfg) | done..]. }
  intros Hd Hmin. revert Hd. unfold rp_start. destruct (rl_start _ _ _ _ _ _ _) as [b loc].
  set (r1 := Build_ReaderProxy true _ _ _ _ _ _ _ _ _ _ _ _).
  set (r2 := if decide (durability_kind_ r1 = VOLATILE) then _ else _).
  destruct (match initial_heartbeat_event_ r2 with Some _ => _ | None => _ end) as [hb calls].
  cbn [fst durability_kind_ changes_for_reader_ changes_low_mark_]. intros Hd. unfold r2 in *.
  destruct (decide (durability_kind_ r1 = VOLATILE)) as [Hv|Hv]; [by destruct Hd|].
  assert (rp_ok r1) as Hok by (apply rp_empty_ok; [done | cbn; rewrite Hl; apply sn_ok_zero]).
  destruct (late_joiner_spec (writer_info cfg w) r1 H1 Hok Hv Hmin) as (_ & Em & Hel).
  { unfold in_history. rewrite decide_False by done. cbn. rewrite Hc. apply Forall_nil_2. }
  split; [|done]. apply elem_of_nil_inv. intros c [Hx|Hx]%Hel; [cbn in Hx; by rewrite Hc, elem_of_nil in Hx|].
  cbn [wi_seq_num_min writer_info changes_low_mark_ r1] in Hx. rewrite Hl, snz_zero in Hx.
  destruct (wi_min_ok _ H1) as [|[_ Hm1]]; [done|]. cbn in Hm1. unfold relisted in Hx. rewrite seqZ_nil in Hx by lia. by rewrite elem_of_nil in Hx.
Qed.

Definition fresh_at (p : Position) (w : StatefulWriter) : Prop :=
  sw_ok cfg n w ∧ ∀ r, reader_at p w = Some r → just_started (history_ w) r.

Lemma fresh_same p w w' :
  fresh_at p w → matched_local_readers_ w' = matched_local_readers_ w →
  matched_datasharing_readers_ w' = matched_datasharing_readers_ w → matched_remote_readers_ w' = matched_remote_readers_ w →
  matched_readers_pool_ w' = matched_readers_pool_ w → history_ w' = history_ w → fresh_at p w'.
Proof.
  intros [Hw Hf] E1 E2 E3 E4 E5. split; [by apply (sw_ok_same cfg n w)|]. intros r Hr. rewrite E5. apply Hf. rewrite <- Hr.
  unfold reader_at. destruct p as [[] i]; cbn; congruence.
Qed.

Lemma fresh_update_reader_info p b : stable (fresh_at p) (update_reader_info cfg b).
Proof.
  unfold update_reader_info, on_selector. destruct b; stable; apply stable_modify; intros w Hw; by apply (fresh_same p w).
Qed.

Lemma fresh_late_joining p w :
  fresh_at p w → (∀ r, reader_at p w = Some r → durability_kind_ r ≠ VOLATILE) → get_seq_num_min (history_ w) ≠ sn_unknown →
  late_joining (history_ w) p (wh_changes (history_ w)) w.
Proof.
  intros [Hw Hf] Hd Hmin. split_and!; [done | done | apply (so_history _ _ _ Hw) | done |].
  intros r Hr c Hc. destruct (Hf r Hr (Hd r Hr) Hmin) as [-> ->]. split; [|apply Forall_nil_2].
  destruct (seq_num_min_spec _ _ (so_history _ _ _ Hw)) as [[E _]|(d & _ & -> & Hle)]; [by rewrite E, elem_of_nil in Hc|].
  specialize (Hle c Hc). unfold wnum in *. lia.
Qed.

Lemma greet_holds p : holds (sw_ok cfg n) (fresh_at p) (greet_reliable_reader cfg p) (λ _, sw_ok cfg n).
Proof.
  unfold greet_reliable_reader, the_reader. apply holds_bind with (λ r w, fresh_at p w ∧ reader_at p w = Some r).
  { apply holds_gets. intros w Hw. destruct (reader_at p w) as [r|] eqn:Er; intros s Es; cbn; rewrite Es; [by split | by apply Hw]. }
  intros r. apply holds_gets. intros w [Hw Hr]. apply holds_bind with (λ _, sw_ok cfg n).
  2: { intros _. stable. }
  unfold when. destruct (sn_neb _ _) eqn:Emin; [|intros s Es; cbn; rewrite Es; by apply Hw].
  apply holds_bind with (λ _, sw_ok cfg n); [|intros _; stable].
  destruct (durable _ && durable _) eqn:Ed.
  - apply andb_prop in Ed as [Ed _]. unfold durable in Ed. apply bool_decide_eq_true in Ed.
    apply add_old_changes_holds, fresh_late_joining; [done | intros r'; rewrite Hr; by intros [= <-] |].
    intros E. by rewrite E in Emin.
  - apply holds_weaken with (sw_ok cfg n) (λ _, sw_ok cfg n); [intros w' ->; apply Hw | done |]. stable.
Qed.

Lemma stable_add_reader rdata ds : stable (sw_ok cfg n) (matched_reader_add_edp cfg rdata ds).
Proof.
  unfold matched_reader_add_edp. apply stable_if; intros _; [apply stable_ret|]. apply stable_bind; [apply stable_gets_only|].
  intros [p|]. { stable. apply stable_update_matched. }
  apply holds_bind with (λ o w, sw_ok cfg n w ∧ ∀ r, o = Some r → idle r); [apply take_proxy_holds|].
  intros [r0|]; [|by intros s [Hs _]]. apply holds_gets. intros w [Hw Hi]. specialize (Hi r0 eq_refl).
  pose proof (started_reader w rdata ds r0 Hw Hi) as Hst. destruct (rp_start _ rdata ds r0) as [r1 effects]. cbn [fst] in Hst. cbn zeta in Hst |- *.
  destruct Hst as [Hl Hj]. apply (listed_filter _ r1) in Hl. set (r := rp_filter_locators cfg r1) in *.
  set (k := kind_of r). set (P := λ w', sw_ok cfg n w' ∧ history_ w' = history_ w).
  apply holds_bind with (λ _, P); [intros s Es; cbn; rewrite Es; done|]. intros _.
  apply holds_bind with (λ _, P). { apply holds_modify. intros w' [Hw' Eh]. split; [by apply (sw_ok_same cfg n w') | done]. }
  intros _. apply holds_bind with (λ _, P). { apply holds_modify. intros w' [Hw' Eh]. split; [by apply (sw_ok_same cfg n w') | done]. }
  intros _. apply holds_gets. intros w1 [Hw1 Eh1]. set (i := length (readers_of k w1)).
  apply holds_bind with (λ _, fresh_at (k, i)).
  { apply holds_modify. intros w' ->. assert (history_ (set_readers_of k (readers_of k w1 ++ [r]) w1) = history_ w1) as Eh by (by destruct k).
    split.
    - apply sw_ok_set_readers; [done|]. intros q [Hq|Hq%list_elem_of_singleton]%elem_of_app.
      + apply list_elem_of_lookup in Hq as [j Hj']. by apply (so_readers _ _ _ Hw1 (k, j)).
      + subst q. by rewrite Eh1.
    - intros q. rewrite reader_at_set_readers, decide_True by done. cbn [snd]. unfold i. rewrite list_lookup_middle by done.
      intros [= <-]. rewrite Eh, Eh1. exact Hj. }
  intros _. apply holds_bind with (λ _, fresh_at (k, i)); [apply holds_weaken with (fresh_at (k, i)) (λ _, fresh_at (k, i)); [done | done |]|].
  { intros s Hs. pose proof (fresh_update_reader_info (k, i) true s Hs) as H'. destruct (update_reader_info cfg true s) as [[u| | |] s']; [done | apply H'..]. }
  intros _. apply holds_bind with (λ _, fresh_at (k, i)).
  { intros s Hs. pose proof (fresh_update_reader_info (k, i) false s Hs) as H'. destruct (update_reader_info cfg false s) as [[u| | |] s']; [done | apply H'..]. }
  intros _. apply holds_bind with (λ _, sw_ok cfg n); [|intros _; stable].
  destruct (is_datasharing_reader _); [intros s [Hs _]; done|]. destruct (is_reliable_ r); [apply greet_holds|].
  apply holds_weaken with (sw_ok cfg n) (λ _, sw_ok cfg n); [by intros w' [? _] | done |]. apply stable_gets. intros w' Hw'.
  destruct (next_spec cfg n w' Hw') as [Hn En]. apply stable_acked; [done | lia].
Qed.

Lemma stable_remove_reader g : stable (sw_ok cfg n) (matched_reader_remove cfg g).
Proof.
  unfold matched_reader_remove. apply stable_gets. intros w Hw. apply stable_bind.
  { destruct (find_reader g w) as [p|]; [|apply stable_ret]. stable. apply stable_modify. intros w' Hw'.
    apply sw_ok_set_readers; [done|]. intros r Hr. apply (list_elem_of_lookup _ r) in Hr as [j Hj].
    assert (r ∈ readers_of (fst p) w') as Hr'.
    { apply list_elem_of_lookup_2 in Hj. unfold erase_at in Hj. apply elem_of_app in Hj as [Hj|Hj];
        [by eapply subseteq_take | by eapply subseteq_drop]. }
    apply list_elem_of_lookup in Hr' as [j' Hj']. by apply (so_readers _ _ _ Hw' (fst p, j')). }
  intros o. stable. apply stable_modify. intros w' Hw'. apply sw_ok_set_pool; [done|].
  intros q [Hq|Hq%list_elem_of_singleton]%elem_of_app; [by apply (so_pool _ _ _ Hw')|]. subst q.
  match goal with E : rp_stop ?r = (?r', _) |- _ => pose proof (idle_stop r) as Hi; by rewrite E in Hi end.
Qed.
End Matching.

(** ** Attributes *)

Lemma stable_update_times cfg n old times : stable (sw_ok cfg n) (update_times old times).
Proof.
  unfold update_times. stable. apply stable_modify. intros w [H1 H2 H3 H4].
  set (f := update_nack_supression_interval (nack_supression_duration times)). constructor; [done | done | |].
  - intros p r Hp. assert (∃ r0, reader_at p w = Some r0 ∧ r = f r0) as (r0 & Hr0 & ->).
    { unfold reader_at in *. destruct p as [[] i]; cbn in Hp |- *; rewrite list_lookup_fmap in Hp;
        (destruct (_ !! i) as [r0|] eqn:E; [|done]); injection Hp as <-; by exists r0. }
    apply (listed_same_keys _ n r0); [by apply (H3 p) | | done | done]. split; [|done].
    apply (rp_ok_same r0); [by apply (H3 p) | done | done].
  - cbn. intros r (r0 & -> & Hr0)%list_elem_of_fmap. exact (H4 r0 Hr0).
Qed.

(** ** Reachable writers *)

(** The state after a handler, whether it returned or threw. *)
Definition after {A} (m : M A) (w : StatefulWriter) : StatefulWriter := run_writer (snd (m (start_run w))).

Lemma holds_after {A} (I P : StatefulWriter → Prop) (m : M A) w : holds I P m (λ _, I) → P w → I (after m w).
Proof. intros Hm Hw. specialize (Hm (start_run w) Hw). unfold after. by destruct (m (start_run w)) as [[a| | |] s]. Qed.

Lemma stable_after {A} I (m : M A) w : stable I m → I w → I (after m w).
Proof. apply holds_after. Qed.

Lemma ack_timer_holds cfg n expired :
  n + 2 < 2 ^ 63 - 2 ^ 32 →
  holds (sw_ok cfg n) (λ w, sw_ok cfg n w ∧ ack_in_range n w) (ack_timer_expired cfg expired) (λ _, sw_ok cfg n).
Proof.
  intros Hroom. apply holds_gets. intros w Hw.
  apply holds_weaken with (λ w, sw_ok cfg n w ∧ ack_in_range n w) (λ _, sw_ok cfg n); [by intros w' -> | done |].
  by apply ack_timer_loop_holds.
Qed.

Inductive sw_step (cfg : WriterConfig) (w : StatefulWriter) : StatefulWriter → Prop :=
| sw_step_add now a wp :
    writerGUID a = wc_guid cfg → snz (m_lastCacheChangeSeqNum (history_ w)) + 3 < 2 ^ 63 - 2 ^ 32 →
    sw_step cfg w (after (add_change_ cfg now a wp) w)
| sw_step_remove ch : sw_step cfg w (after (remove_change cfg ch) w)
| sw_step_remove_number s : sw_step cfg w (after (remove_change_by_number cfg s) w)
| sw_step_try_remove z : sw_step cfg w (after (try_remove_change cfg z) w)
| sw_step_deliver answers bytes fuel general pending change :
    change ∈ wh_changes (history_ w) →
    sw_step cfg w (after (deliver_sample_nts cfg answers bytes fuel general pending change) w)
| sw_step_acknack wg rg k sn_set final :
    acknack_ok sn_set → sw_step cfg w (after (process_acknack cfg wg rg k sn_set final) w)
| sw_step_nack_frag wg rg k s fs : sn_ok s → sw_step cfg w (after (sw_process_nack_frag cfg wg rg k s fs) w)
| sw_step_nack_response : sw_step cfg w (after (perform_nack_response cfg) w)
| sw_step_nack_supression g : sw_step cfg w (after (sw_perform_nack_supression cfg g) w)
| sw_step_heartbeat final liveliness : sw_step cfg w (after (send_periodic_heartbeat cfg final liveliness) w)
| sw_step_ack_timer expired :
    ack_in_range (snz (m_lastCacheChangeSeqNum (history_ w))) w → sw_step cfg w (after (ack_timer_expired cfg expired) w)
| sw_step_match rdata ds : sw_step cfg w (after (matched_reader_add_edp cfg rdata ds) w)
| sw_step_unmatch g : sw_step cfg w (after (matched_reader_remove cfg g) w)
| sw_step_attributes old times : sw_step cfg w (after (update_attributes cfg old times) w)
| sw_step_wait : sw_step cfg w (after wait_for_all_acked w)
| sw_step_rebuild : sw_step cfg w (after rebuild_status_after_load w).

Inductive sw_reachable (cfg : WriterConfig) : StatefulWriter → Prop :=
| sw_reach_make initial : sw_reachable cfg (sw_make cfg initial)
| sw_reach_step w w' : sw_reachable cfg w → sw_step cfg w w' → sw_reachable cfg w'.

Definition last_number (w : StatefulWriter) : Z := snz (m_lastCacheChangeSeqNum (history_ w)).

Lemma sw_make_ok cfg initial : sw_ok cfg 0 (sw_make cfg initial).
Proof.
  constructor; [| done | by intros [[] i] r | intros r [-> _]%elem_of_replicate; apply idle_make].
  constructor; [apply sn_ok_zero | cbn; change (snz sn_zero) with 0; zwidth | apply ksorted_nil | by intros c ?%elem_of_nil].
Qed.

Lemma sw_ok_last cfg n w : sw_ok cfg n w → sw_ok cfg (last_number w) w.
Proof. intros H. unfold last_number. by rewrite (so_last _ _ _ H). Qed.

Lemma sw_step_ok cfg w w' : sw_ok cfg (last_number w) w → sw_step cfg w w' → sw_ok cfg (last_number w') w'.
Proof.
  intros Hw Hstep. assert (last_number w + 2 < 2 ^ 63 - 2 ^ 32) as Hroom by apply (so_history _ _ _ Hw).
  assert (∀ {A} (m : M A), stable (sw_ok cfg (last_number w)) m → sw_ok cfg (last_number (after m w)) (after m w)) as Hst.
  { intros A m Hm. eapply sw_ok_last. by apply stable_after. }
  destruct Hstep as [now a wp Hg Hr| | | |answers bytes fuel general pending change Hc| | | | | |expired Hr| | |old times| |].
  - destruct (sw_add_change_ok cfg (last_number w) now a wp (start_run w) Hw Hr Hg) as (n' & H & _).
    by eapply sw_ok_last.
  - apply Hst, stable_remove_change.
  - apply Hst, stable_remove_by_number.
  - apply Hst, stable_try_remove.
  - destruct (wo_each _ _ (so_history _ _ _ Hw) change Hc) as (H1 & H2 & _). apply Hst. by apply stable_deliver; [|apply H2|].
  - by apply Hst, stable_acknack.
  - by apply Hst, stable_nack_frag.
  - apply Hst, stable_nack_response.
  - apply Hst, stable_nack_supression.
  - apply Hst, stable_periodic_heartbeat.
  - eapply sw_ok_last, (holds_after _ _ _ _ (ack_timer_holds cfg _ expired Hroom)). by split.
  - apply Hst, stable_add_reader.
  - apply Hst, stable_remove_reader.
  - apply Hst. unfold update_attributes, update_positive_acks_times. apply stable_bind; [apply stable_update_times | intros _; stable].
  - apply Hst. unfold wait_for_all_acked. stable.
  - apply Hst. unfold rebuild_status_after_load. stable.
Qed.

Lemma sw_reachable_sw_ok cfg w : sw_reachable cfg w → sw_ok cfg (last_number w) w.
Proof. induction 1 as [initial|w w' Hw IH Hstep]; [apply sw_make_ok | by eapply sw_step_ok]. Qed.
