(* ===== verification/StatefulWriterHistory.v ===== *)
(** * What the stateful writer says about its history

    The holes that are announced with GAPs, and the fragments a change is cut into. *)

From Stdlib Require Import ZArith Lia ZifyBool Sorting.Sorted.
From stdpp Require Import base numbers list option list_numbers.
From S2P Require Import Prelude SequenceNumber SortedRange Guid CacheChange BitmapRange GapBuilder WriterHistory StatefulWriter StatefulWriterInvariant.

Open Scope Z_scope.

(** ** The holes of the history *)

Lemma next_after s : sn_ok s → snz s + 1 < 2 ^ 63 - 2 ^ 32 → sn_ok (s + 1)%sn ∧ snz (s + 1)%sn = snz s + 1.
Proof.
  intros Hs Hr. destruct (sn_ok_add s 1 Hs ltac:(zwidth)) as [Hw E]. pose proof (sn_ok_range _ Hs). split; [|done].
  apply sn_ok_iff; [done | lia].
Qed.

Lemma missing_up_to_spec n : ∀ prev seq,
  sn_ok prev → sn_ok seq → snz prev <= snz seq → n = Z.to_nat (snz seq - snz prev) →
  Forall sn_ok (missing_up_to n prev seq) ∧ snz <$> missing_up_to n prev seq = seqZ (snz prev) (snz seq - snz prev).
Proof.
  induction n as [|n IH]; intros prev seq Hp Hs Hle Hn; cbn [missing_up_to].
  - rewrite seqZ_nil by lia. by split.
  - rewrite sn_eqb_snz by (by apply sn_ok_wf). replace (snz prev =? snz seq) with false by lia.
    rewrite sn_incr_add_u32 by apply Hp. pose proof (sn_ok_range _ Hs).
    destruct (next_after prev Hp) as [Hp' Ep]; [lia|]. destruct (IH (prev + 1)%sn seq) as [Hf E]; [done..|lia|lia|].
    split; [by constructor|]. rewrite fmap_cons, E, Ep, (seqZ_cons (snz prev)) by lia. f_equal. f_equal; lia.
Qed.

(** One after the last change of the list. *)
Definition end_of (prev : Z) (l : list CacheChange_t) : Z := match last l with Some c => wnum c + 1 | None => prev end.

Definition not_among (l : list CacheChange_t) (z : Z) : bool := negb (bool_decide (z ∈ wnum <$> l)).

Lemma end_of_cons prev c l : end_of prev (c :: l) = end_of (wnum c + 1) l.
Proof. unfold end_of. rewrite last_cons. by destruct (last l). Qed.

Lemma end_of_ge prev l : Forall (λ c, prev <= wnum c) l → prev <= end_of prev l.
Proof.
  intros H. unfold end_of. destruct (last l) as [c|] eqn:E; [|lia]. apply last_Some in E as [l' ->].
  apply Forall_app in H as [_ H]. rewrite Forall_singleton in H. lia.
Qed.

Lemma not_among_spec l z : not_among l z = true ↔ ∀ c, c ∈ l → wnum c ≠ z.
Proof.
  unfold not_among. rewrite negb_true_iff, bool_decide_eq_false, list_elem_of_fmap.
  split; [intros H c Hc E; apply H; eauto | intros H (c & -> & Hc); by eapply H].
Qed.

Lemma filter_keeps_all {A} (f : A → bool) l : (∀ x, x ∈ l → f x = true) → List.filter f l = l.
Proof.
  induction l as [|x l IH]; intros H; cbn; [done|]. rewrite H by left. f_equal. apply IH. intros y Hy. apply H. by right.
Qed.

Lemma filter_not_among c l prev :
  prev <= wnum c → Forall (λ d, wnum c < wnum d) l →
  List.filter (not_among (c :: l)) (seqZ prev (end_of prev (c :: l) - prev)) =
  seqZ prev (wnum c - prev) ++ List.filter (not_among l) (seqZ (wnum c + 1) (end_of (wnum c + 1) l - (wnum c + 1))).
Proof.
  intros Hp Hl. rewrite end_of_cons. set (e := end_of (wnum c + 1) l).
  assert (wnum c + 1 <= e) as He by (apply end_of_ge; eapply Forall_impl; [done | cbn; lia]).
  replace (e - prev) with ((wnum c - prev) + (e - wnum c)) by lia. rewrite seqZ_app, List.filter_app by lia. f_equal.
  - apply filter_keeps_all. intros z Hz%elem_of_seqZ. apply not_among_spec. intros d [->|Hd]%elem_of_cons; [lia|].
    rewrite list.Forall_forall in Hl. specialize (Hl d Hd). cbn in Hl. lia.
  - replace (prev + (wnum c - prev)) with (wnum c) by lia. rewrite (seqZ_cons (wnum c)) by lia. cbn [List.filter].
    replace (not_among (c :: l) (wnum c)) with false
      by (symmetry; apply not_true_iff_false; rewrite not_among_spec; intros H; by apply (H c); [left|]).
    replace (Z.succ (wnum c)) with (wnum c + 1) by lia. replace (Z.pred (e - wnum c)) with (e - (wnum c + 1)) by lia.
    apply List.filter_ext_in. intros z Hz%list_elem_of_In%elem_of_seqZ. apply eq_true_iff_eq. rewrite !not_among_spec.
    split; [intros H d Hd; apply H; by right | intros H d [->|Hd]%elem_of_cons; [lia | by apply H]].
Qed.

Lemma holes_from_spec l : ∀ prev,
  sn_ok prev → ksorted wnum l →
  Forall (λ c, sn_ok (sequenceNumber c) ∧ snz prev <= wnum c ∧ wnum c + 1 < 2 ^ 63 - 2 ^ 32) l →
  Forall sn_ok (holes_from prev l) ∧
  snz <$> holes_from prev l = List.filter (not_among l) (seqZ (snz prev) (end_of (snz prev) l - snz prev)) ∧
  Z.of_nat (length (holes_from prev l)) + Z.of_nat (length l) = end_of (snz prev) l - snz prev.
Proof.
  induction l as [|c l IH]; intros prev Hp Hs Hl; cbn [holes_from].
  - unfold end_of. cbn. rewrite Z.sub_diag, seqZ_nil by lia. by split_and!.
  - apply Forall_cons in Hl as [(Hc & Hle & Hr) Hl]. apply ksorted_cons in Hs as [Hs Hgt]. unfold wnum in Hle, Hr.
    destruct (missing_up_to_spec (Z.to_nat (wnum c - snz prev)) prev (sequenceNumber c)) as [Hm Em]; [done..|].
    rewrite sn_incr_add_u32 by apply Hc. destruct (next_after _ Hc Hr) as [Hn En].
    destruct (IH (sequenceNumber c + 1)%sn Hn Hs) as (Hf & Eh & Elen).
    { apply Forall_forall. intros d Hd. rewrite Forall_forall in Hl, Hgt. specialize (Hl d Hd). specialize (Hgt d Hd).
      cbn in Hl, Hgt. unfold wnum in Hgt at 1. split_and!; [tauto | lia | tauto]. }
    rewrite En in Eh, Elen. fold (wnum c) in Eh, Elen, Em, Hle |- *. split_and!; [by apply Forall_app| |].
    + rewrite fmap_app, Em, Eh, filter_not_among; [done | done|]. exact Hgt.
    + rewrite end_of_cons, length_app, length_cons. apply (f_equal length) in Em. rewrite length_fmap, length_seqZ in Em. lia.
Qed.

Lemma holes_in_history_spec guid h c l :
  wh_ok guid h → wh_changes h = c :: l →
  Forall sn_ok (holes_in_history h) ∧
  snz <$> holes_in_history h = List.filter (not_among (wh_changes h)) (seqZ (wnum c) (end_of (wnum c) (wh_changes h) - wnum c)).
Proof.
  intros Hh E. pose proof (wo_sorted _ _ Hh) as Hs. pose proof (wo_each _ _ Hh) as Heach. pose proof (wo_room _ _ Hh) as Hroom.
  rewrite E in *. apply ksorted_cons in Hs as [Hs Hgt]. destruct (Heach c) as (Hc & Hcr & _); [left|]. unfold wnum in Hcr.
  destruct (next_after _ Hc) as [Hn En]; [lia|]. destruct (holes_from_spec l _ Hn Hs) as (Hf & Eh & Elen).
  { apply list.Forall_forall. intros d Hd. destruct (Heach d) as (Hd1 & Hd2 & _); [by right|].
    rewrite list.Forall_forall in Hgt. specialize (Hgt d Hd). cbn in Hgt. unfold wnum in *. split_and!; [done | lia | lia]. }
  rewrite En in Eh, Elen. fold (wnum c) in Eh, Elen, En, Hcr.
  rewrite filter_not_among, Z.sub_diag, (seqZ_nil (wnum c)) by (done || lia). cbn [app]. rewrite <- Eh.
  unfold holes_in_history. rewrite E. destruct (u64 _ =? _) eqn:Eb; [|by split].
  assert (holes_from (sequenceNumber c + 1)%sn l = []) as ->; [|by split]. apply nil_length_inv.
  revert Eb. unfold get_seq_num_max, get_seq_num_min. rewrite E. cbn [head]. destruct (last (c :: l)) as [d|] eqn:El; [|by apply last_None in El].
  destruct (Heach d) as (Hd & Hdr & _); [apply last_Some in El as [l' ->]; apply elem_of_app; right; left|].
  rewrite !to64long_snz by (by apply sn_ok_wf || apply sn_ok_range). fold (wnum c) (wnum d).
  assert (end_of (wnum c + 1) l = wnum d + 1) as Ee by (rewrite <- (end_of_cons 0); unfold end_of; by rewrite El).
  rewrite Ee in Elen. rewrite length_cons. unfold wnum in *. rewrite u64_small by zwidth. lia.
Qed.

Lemma add_gaps_spec cfg guid dst s c l :
  wh_ok guid (history_ (run_writer s)) → wh_changes (history_ (run_writer s)) = c :: l → (∀ g, wc_add_gap cfg g = true) →
  ∃ gaps, add_gaps_for_holes_in_history cfg dst s =
      (Done tt, {| run_writer := run_writer s; run_effects := run_effects s ++ (AddGap dst <$> gaps);
                   run_answers := run_answers s; run_sender := run_sender s |}) ∧
    concat (gap_numbers <$> gaps) =
    List.filter (not_among (c :: l)) (seqZ (wnum c) (end_of (wnum c) (c :: l) - wnum c)).
Proof.
  intros Hh E Hadd. eexists. split; [reflexivity|]. destruct (holes_in_history_spec _ _ _ _ Hh E) as [Hok Eh].
  rewrite gb_build_spec, Eh, E; [done | done | done|]. rewrite Eh. apply increasing_filter, increasing_seqZ.
Qed.

(** ** Fragments *)

Lemma land_multiple_of_four x : is_u32 x → Z.land x (u32 (Z.lnot 3)) = 4 * (x / 4).
Proof.
  intros Hx. unfold u32. rewrite <- Z.land_ones by lia. rewrite Z.land_assoc, <- Z.ldiff_land. change 3 with (Z.ones 2).
  rewrite Z.ldiff_ones_r, Z.shiftl_mul_pow2, Z.shiftr_div_pow2, Z.land_ones by lia. change (2 ^ 2) with 4.
  rewrite Z.mod_small; [lia|]. pose proof (Z.div_mod x 4). pose proof (Z.mod_pos_bound x 4). zwidth.
Qed.

Lemma max_allowed_at_least_four flow part output calc extra :
  (∀ z, is_u32 (calc z)) → 0 <= extra < 2 ^ 16 →
  4 <= get_max_allowed_payload_size flow part output calc extra < 2 ^ 32.
Proof.
  intros Hcalc Hextra. unfold get_max_allowed_payload_size. cbv zeta.
  set (size := if _ <? _ then _ else _). specialize (Hcalc size). set (m := calc size) in *. clearbody m.
  assert (4 <= calculate_max_payload_size m extra < 2 ^ 32) as H.
  { unfold calculate_max_payload_size. rewrite (u32_small (16 + 12 + 36 + 32 + extra)), u32_small by zwidth. zif; zwidth. }
  set (x := calculate_max_payload_size m extra) in *. rewrite land_multiple_of_four by zwidth.
  pose proof (Z.div_mod x 4). pose proof (Z.mod_pos_bound x 4). zwidth.
Qed.

Lemma fragment_count_covers length size :
  0 < size < 2 ^ 16 → 0 <= length < 2 ^ 32 - 2 ^ 16 →
  (u32 (length + size - 1) / size - 1) * size < length <= u32 (length + size - 1) / size * size ∨ length = 0.
Proof.
  intros Hs Hl. destruct (decide (length = 0)); [by right|left]. rewrite u32_small by zwidth.
  pose proof (Z.div_mod (length + size - 1) size). pose proof (Z.mod_pos_bound (length + size - 1) size). nia.
Qed.

Lemma final_high_mark_range high_mark qos_size :
  4 <= high_mark < 2 ^ 32 → 0 <= qos_size < 2 ^ 20 → 4 <= final_high_mark_for_frag high_mark qos_size <= high_mark.
Proof.
  intros Hh Hq. unfold final_high_mark_for_frag, PARAMETER_SENTINEL_SIZE. cbv zeta.
  rewrite (u32_small (4 + qos_size)), u32_small by zwidth. zif; zwidth.
Qed.

Lemma inline_qos_size_range cfg wparams change :
  0 <= pl_length (inline_qos change) < 2 ^ 16 → 0 <= inline_qos_size cfg wparams change < 2 ^ 20.
Proof.
  intros H. unfold inline_qos_size, PARAMETER_SAMPLE_IDENTITY_SIZE, PARAMETER_KEY_SIZE, PARAMETER_STATUS_SIZE.
  destruct (wp_related_sample_identity_known wparams), (wp_has_more_replies wparams), (_ && _); rewrite u32_small; zwidth.
Qed.

Lemma set_fragments_spec cfg wparams change h :
  4 <= wh_max_allowed_payload_size cfg < 2 ^ 32 → high_mark_for_frag_ h = 0 ∨ high_mark_for_frag_ h = wh_max_allowed_payload_size cfg →
  0 <= pl_length (inline_qos change) < 2 ^ 16 → 0 <= pl_length (serializedPayload change) < 2 ^ 32 - 2 ^ 16 →
  let final := final_high_mark_for_frag (wh_max_allowed_payload_size cfg) (inline_qos_size cfg wparams change) in
  let length := pl_length (serializedPayload change) in
  let '(c, h') := set_fragments cfg wparams change h in
  high_mark_for_frag_ h' = wh_max_allowed_payload_size cfg ∧ serializedPayload c = serializedPayload change ∧
  ((length <= final ∧ c = change) ∨
   (final < length ∧ 0 < fragment_size_ c <= Z.min final get_max_fragment_payload_size ∧
    (fragment_count_ c - 1) * fragment_size_ c < length <= fragment_count_ c * fragment_size_ c)).
Proof.
  intros Hmax Hmark Hqos Hlen final length.
  pose proof (final_high_mark_range _ _ Hmax (inline_qos_size_range cfg wparams change Hqos)) as Hfinal. fold final in Hfinal.
  unfold set_fragments. replace (if high_mark_for_frag_ h =? 0 then _ else _) with (wh_max_allowed_payload_size cfg)
    by (destruct Hmark as [-> | ->]; [done | zif; lia]).
  fold final length. cbv zeta. split; [done|]. destruct (length >? final) eqn:Eb; [|split; [done | left; split; [lia | done]]].
  assert (0 < Z.min final get_max_fragment_payload_size < 2 ^ 16) as Hmin by (unfold get_max_fragment_payload_size; zwidth).
  unfold u16. rewrite Z.mod_small by lia. unfold setFragmentSize.
  replace (_ >? 0) with true by lia. cbn. split; [done|right]. fold length.
  destruct (fragment_count_covers length _ Hmin Hlen) as [H|H]; lia.
Qed.
