(* ===== verification/StatefulWriterTotal.v ===== *)
(** * Total correctness of handlers of the stateful writer

    [wp] says that a program ends normally, and what holds of its result and of the
    run, the effects included. It is used for [check_acked_status] and for the
    answer to an ACKNACK. *)

From Stdlib Require Import ZArith Lia ZifyBool Sorting.Sorted.
From stdpp Require Import base numbers list option list_numbers.
From S2P Require Import Prelude SequenceNumber BitmapRange SortedRange Guid CacheChange ChangeForReader GapBuilder ReaderHistory ReaderHistoryFacts ReaderProxy ReaderProxyFacts ReaderProxyHistory.
From S2P Require Import WriterHistory StatefulWriter StatefulWriterLogic StatefulWriterInvariant StatefulWriterSteps.

Open Scope Z_scope.
Open Scope writer_scope.

Definition wp {A} (m : M A) (Q : A → Run → Prop) (s : Run) : Prop :=
  match m s with (Done a, s') => Q a s' | _ => False end.

Lemma wp_bind {A B} (m : M A) (f : A → M B) Q s : wp m (λ a, wp (f a) Q) s → wp (bind m f) Q s.
Proof. unfold wp, bind. by destruct (m s) as [[] s']. Qed.

Lemma wp_mono {A} (m : M A) (Q Q' : A → Run → Prop) s : (∀ a s', Q a s' → Q' a s') → wp m Q s → wp m Q' s.
Proof. unfold wp. intros H. destruct (m s) as [[] s']; auto. Qed.

Lemma wp_and {A} (m : M A) (Q Q' : A → Run → Prop) s : wp m Q s → wp m Q' s → wp m (λ a s', Q a s' ∧ Q' a s') s.
Proof. unfold wp. by destruct (m s) as [[] s']. Qed.

(** What is stable comes for free. *)
Lemma wp_stable {A} I (m : M A) (Q : A → Run → Prop) s :
  stable I m → I (run_writer s) → wp m Q s → wp m (λ a s', Q a s' ∧ I (run_writer s')) s.
Proof. intros Hst Hs. specialize (Hst s Hs). unfold wp. by destruct (m s) as [[] s']. Qed.

Definition run_emit (l : list SWEffect) (s : Run) : Run :=
  {| run_writer := run_writer s; run_effects := run_effects s ++ l; run_answers := run_answers s; run_sender := run_sender s |}.

Definition run_modify (f : StatefulWriter → StatefulWriter) (s : Run) : Run :=
  {| run_writer := f (run_writer s); run_effects := run_effects s; run_answers := run_answers s; run_sender := run_sender s |}.

Lemma wp_emit l Q s : Q tt (run_emit l s) → wp (emit l) Q s.
Proof. done. Qed.

Lemma wp_modify f Q s : Q tt (run_modify f s) → wp (modify f) Q s.
Proof. done. Qed.

Lemma wp_gets {A} (f : StatefulWriter → A) Q s : Q (f (run_writer s)) s → wp (gets f) Q s.
Proof. done. Qed.

Lemma wp_ret {A} (a : A) Q s : Q a s → wp (ret a) Q s.
Proof. done. Qed.

Lemma wp_when b m Q s : (if b : bool then wp m Q s else Q tt s) → wp (when b m) Q s.
Proof. by destruct b. Qed.

(** Runs the straight-line part of a program. *)
Ltac wpstep :=
  match goal with
  | |- wp (bind _ _) _ _ => apply wp_bind
  | |- wp (emit _) _ _ => apply wp_emit
  | |- wp (modify _) _ _ => apply wp_modify
  | |- wp (gets _) _ _ => apply wp_gets
  | |- wp (ret _) _ _ => apply wp_ret
  | |- wp (when _ _) _ _ => apply wp_when
  end.

Ltac wpsteps := repeat wpstep.

Lemma wp_for_each {A} (l : list A) (f : A → M unit) (J : Run → Prop) s :
  (∀ x s, x ∈ l → J s → wp (f x) (λ _, J) s) → J s → wp (for_each l f) (λ _, J) s.
Proof.
  revert s. induction l as [|x l IH]; intros s Hf HJ; cbn [for_each]; [done|].
  apply wp_bind. eapply wp_mono; [|apply Hf; [left | done]]. intros ? s' HJ'. apply IH; [|done].
  intros y s0 Hy. apply Hf. by right.
Qed.

Lemma wp_the_reader p r Q s : reader_at p (run_writer s) = Some r → Q r s → wp (the_reader p) Q s.
Proof. intros E HQ. unfold wp, the_reader, bind. cbn. by rewrite E. Qed.

Lemma wp_on_reader {A} cfg p r (f : WriterInfo → ReaderProxy → option (A * ReaderProxy * list RPEffect)) a r' effects Q s :
  reader_at p (run_writer s) = Some r → f (writer_info cfg (run_writer s)) r = Some (a, r', effects) →
  Q a (run_emit (FromReader (rp_guid r) <$> effects) (run_modify (set_reader p r') s)) →
  wp (on_reader cfg p f) Q s.
Proof.
  intros Er Ef HQ. unfold on_reader. apply wp_bind, (wp_the_reader _ r); [done|]. apply wp_bind. unfold wp at 1. cbn. rewrite Ef. done.
Qed.

(** ** Changes received by all *)

(** The numbers that the listener has been told about. *)
Definition notified (effects : list SWEffect) : list SequenceNumber_t :=
  omap (λ e, match e with OnChangeReceivedByAll seq => Some seq | _ => None end) effects.

Lemma notified_app l l' : notified (l ++ l') = notified l ++ notified l'.
Proof. apply omap_app. Qed.

Lemma notified_from_reader guid l : notified (FromReader guid <$> l) = [].
Proof. by induction l. Qed.

Lemma ksorted_lookup {A} (key : A → Z) l i j a b :
  ksorted key l → l !! i = Some a → l !! j = Some b → (i < j)%nat → key a < key b.
Proof.
  intros Hs Ha Hb Hij. rewrite <- (take_drop j l) in Hs. apply ksorted_app in Hs as (_ & _ & H). apply H.
  - apply list_elem_of_lookup. exists i. by rewrite lookup_take_lt.
  - apply list_elem_of_lookup. exists 0%nat. by rewrite lookup_drop, Nat.add_0_r.
Qed.

Section Notify.
Context (cfg : WriterConfig).

(** The parts of a run that the removal of a change leaves alone. *)
Record same_but (s s' : Run) : Prop := {
  sb_next : next_all_acked_notify_sequence_ (run_writer s') = next_all_acked_notify_sequence_ (run_writer s);
  sb_notified : notified (run_effects s') = notified (run_effects s);
  sb_positions : ∀ p, is_Some (reader_at p (run_writer s')) ↔ is_Some (reader_at p (run_writer s))
}.

#[local] Instance same_but_preorder : PreOrder same_but.
Proof.
  split; [by intros s; constructor|]. intros a b c [A1 A2 A3] [B1 B2 B3]. constructor; [congruence.. | intros p; by rewrite B3].
Qed.

Lemma removed_readers seq s :
  wp (for_each (positions (run_writer s))
        (λ p, on_reader cfg p (λ wi r, let '(r', effects) := change_has_been_removed wi seq r in Some (tt, r', effects))))
     (λ _ s', same_but s s' ∧ history_ (run_writer s') = history_ (run_writer s)) s.
Proof.
  apply wp_for_each; [|done]. intros p s1 Hp [Hsb Eh]. apply elem_of_positions in Hp. apply (sb_positions _ _ Hsb) in Hp as [r Er].
  destruct (change_has_been_removed (writer_info cfg (run_writer s1)) seq r) as [r' effects] eqn:E.
  apply (wp_on_reader cfg p r _ tt r' effects); [done | by rewrite E|]. split.
  - etrans; [done|]. constructor; cbn.
    + by destruct p as [[] i].
    + by rewrite notified_app, notified_from_reader, app_nil_r.
    + intros q. rewrite reader_at_set. destruct (decide _); [|done]. by rewrite fmap_is_Some.
  - rewrite <- Eh. by destruct p as [[] i].
Qed.

Lemma same_but_emit l s : notified l = [] → same_but s (run_emit l s).
Proof. intros E. constructor; cbn; [done | by rewrite notified_app, E, app_nil_r | done]. Qed.

Lemma same_but_modify f s :
  next_all_acked_notify_sequence_ (f (run_writer s)) = next_all_acked_notify_sequence_ (run_writer s) →
  (∀ p, reader_at p (f (run_writer s)) = reader_at p (run_writer s)) → same_but s (run_modify f s).
Proof. intros En Er. constructor; cbn; [done | done |]. intros p. by rewrite Er. Qed.

Lemma removed_by_history c s :
  wp (change_removed_by_history cfg c) (λ b s', same_but s s' ∧ history_ (run_writer s') = history_ (run_writer s)) s.
Proof.
  unfold change_removed_by_history. destruct (wc_flow_remove cfg c); [|by wpsteps].
  wpsteps. set (s1 := run_modify _ _). assert (same_but s s1) as H1.
  { etrans; [by apply (same_but_emit [FlowRemove (sequenceNumber c)])|]. by apply same_but_modify. }
  eapply wp_mono; [|apply removed_readers]. intros [] s2 [H2 E2].
  assert (same_but s s2 ∧ history_ (run_writer s2) = history_ (run_writer s)) as [H Eh] by (split; [by etrans | done]).
  wpsteps. assert (∀ l, notified l = [] → let s3 := run_emit [MayRemove] (run_modify
      (λ w, sw_set_ack (next_all_acked_notify_sequence_ w) (min_readers_low_mark_ w) (all_acked_ w) 2 w) (run_emit l s2)) in
    same_but s s3 ∧ history_ (run_writer s3) = history_ (run_writer s)) as Hend.
  { intros l El s3. split; [|done]. etrans; [done|]. etrans; [by apply (same_but_emit l)|].
    etrans; [|by apply same_but_emit]. by apply same_but_modify. }
  destruct (wc_datasharing_compatible cfg); wpsteps; [by apply (Hend [_])|]. specialize (Hend [] eq_refl). revert Hend.
  unfold run_emit at 2. rewrite app_nil_r. by destruct s2.
Qed.

Lemma erased_at_index it s :
  wp (remove_change_nts cfg it true)
    (λ _ s', same_but s s' ∧ (wh_changes (history_ (run_writer s')) = wh_changes (history_ (run_writer s)) ∨
                              wh_changes (history_ (run_writer s')) = erase_at it (wh_changes (history_ (run_writer s))))) s.
Proof.
  unfold remove_change_nts. wpsteps. destruct (wh_changes (history_ (run_writer s)) !! it) as [c|]; [|wpsteps; split; [done | by left]].
  wpsteps. eapply wp_mono; [|apply removed_by_history]. intros b s1 [H1 E1]. wpsteps. destruct b; wpsteps; [|split; [done | left; by rewrite E1]].
  split; [|right; cbn; by rewrite E1]. etrans; [done|]. etrans; [|by apply same_but_emit]. by apply same_but_modify.
Qed.

Context (n : Z) (removes : list CacheChange_t → CacheChange_t → list SequenceNumber_t).
Context (Hlistener : wc_listener cfg = Some removes).
Context (Hremoves : ∀ h c, removes h c = [] ∨ removes h c = [sequenceNumber c]).

Lemma found_at s cit c :
  wh_ok (wc_guid cfg) (history_ (run_writer s)) → wh_changes (history_ (run_writer s)) !! cit = Some c →
  wh_find_change_nts (wc_history cfg) c (history_ (run_writer s)) = cit.
Proof.
  intros Hh Ec. unfold wh_find_change_nts, wh_matches_change.
  destruct (wo_each _ _ Hh c) as (_ & _ & Eg); [by eapply list_elem_of_lookup_2|].
  apply find_index_Some with c; [done | by rewrite Eg, guid_eqb_refl, (proj2 (sn_eqb_true _ _) eq_refl)|].
  intros j d Ed [_ E%sn_eqb_true]%andb_true_iff.
  destruct (lt_eq_lt_dec j cit) as [[Hj|]|Hj]; [|done|].
  - pose proof (ksorted_lookup _ _ _ _ _ _ (wo_sorted _ _ Hh) Ed Ec Hj) as H. unfold wnum in H. rewrite E in H. lia.
  - pose proof (ksorted_lookup _ _ _ _ _ _ (wo_sorted _ _ Hh) Ec Ed Hj) as H. unfold wnum in H. rewrite E in H. lia.
Qed.

(** One call of the listener. *)
Lemma told c cit s :
  sw_ok cfg n (run_writer s) → wh_changes (history_ (run_writer s)) !! cit = Some c →
  wp (on_writer_change_received_by_all cfg c)
    (λ _ s', (next_all_acked_notify_sequence_ (run_writer s') = next_all_acked_notify_sequence_ (run_writer s) ∧
              notified (run_effects s') = notified (run_effects s) ++ [sequenceNumber c] ∧
              take cit (wh_changes (history_ (run_writer s'))) = take cit (wh_changes (history_ (run_writer s)))) ∧ sw_ok cfg n (run_writer s')) s.
Proof using Hlistener Hremoves.
  intros Hw Ec. apply wp_stable; [apply stable_received_by_all | done|]. pose proof (so_history _ _ _ Hw) as Hh.
  destruct (wo_each _ _ Hh c) as (Hok & _); [by eapply list_elem_of_lookup_2|].
  unfold on_writer_change_received_by_all. rewrite Hlistener. wpsteps. set (s1 := run_emit _ s).
  assert (notified (run_effects s1) = notified (run_effects s) ++ [sequenceNumber c]) as E1 by (cbn; apply notified_app).
  change (history_ (run_writer s1)) with (history_ (run_writer s)).
  destruct (Hremoves (wh_changes (history_ (run_writer s))) c) as [-> | ->]; cbn [for_each]; [wpsteps; done|].
  wpsteps. change (history_ (run_writer s1)) with (history_ (run_writer s)).
  rewrite (proj2 (wh_get_change_spec _ _ (sequenceNumber c) c Hh Hok)) by (split; [by eapply list_elem_of_lookup_2 | done]).
  unfold remove_change. wpsteps. change (history_ (run_writer s1)) with (history_ (run_writer s)). rewrite (found_at s cit c Hh Ec), Ec.
  wpsteps. eapply wp_mono; [|apply erased_at_index]. intros a s2 [[En Ed _] Hc]. wpsteps. split_and!; [done | by rewrite Ed|].
  destruct Hc as [-> | ->]; [done|]. unfold erase_at. cbn. rewrite take_app_le by (rewrite length_take; apply lookup_lt_Some in Ec; lia).
  rewrite take_take. f_equal. lia.
Qed.

(** The numbers from [first] on, the last one first. *)
Definition down_to (first : SequenceNumber_t) (l : list CacheChange_t) : list SequenceNumber_t :=
  reverse (List.filter (λ q, snz first <=? snz q) (sequenceNumber <$> l)).

Lemma down_to_nil first l : (∀ d, d ∈ l → wnum d < snz first) → down_to first l = [].
Proof.
  intros H. unfold down_to. replace (List.filter _ _) with (@nil SequenceNumber_t); [done|]. induction l as [|d l IH]; [done|].
  cbn. replace (snz first <=? snz (sequenceNumber d)) with false; [apply IH; intros x Hx; apply H; by right|].
  specialize (H d (list_elem_of_here _ _)). unfold wnum in H. lia.
Qed.

Lemma down_to_snoc first l c : snz first <= wnum c → down_to first (l ++ [c]) = sequenceNumber c :: down_to first l.
Proof.
  intros H. unfold down_to. rewrite fmap_app, List.filter_app. cbn. unfold wnum in H.
  replace (snz first <=? snz (sequenceNumber c)) with true by lia. by rewrite reverse_snoc.
Qed.

Lemma below_in_take guid h cit c d :
  wh_ok guid h → wh_changes h !! cit = Some c → d ∈ take cit (wh_changes h) → wnum d < wnum c.
Proof.
  intros Hh Ec [j Hj]%list_elem_of_lookup_1. apply lookup_take_Some in Hj as [Ed Hj].
  by apply (ksorted_lookup _ _ _ _ _ _ (wo_sorted _ _ Hh) Ed Ec).
Qed.

(** The [do] loop from the index [cit] down. *)
Lemma notify_down next end_seq : sn_ok next → sn_ok end_seq → snz next <= snz end_seq → ∀ cit fuel s c,
  (cit < fuel)%nat → sw_ok cfg n (run_writer s) → next_all_acked_notify_sequence_ (run_writer s) = next →
  wh_changes (history_ (run_writer s)) !! cit = Some c →
  (∀ d, wh_changes (history_ (run_writer s)) !! 0%nat = Some d → wnum d <= snz end_seq) →
  (∀ d, d ∈ take (S cit) (wh_changes (history_ (run_writer s))) → wnum d < snz end_seq → wnum d < snz next) →
  wp (notify_received cfg fuel cit end_seq)
    (λ _ s', notified (run_effects s') = notified (run_effects s) ++ down_to next (take (S cit) (wh_changes (history_ (run_writer s)))) ∧
             sw_ok cfg n (run_writer s')) s.
Proof using Hlistener Hremoves.
  intros Hnext Hend Hne cit. induction cit as [|cit IH]; intros [|fuel] s c Hf Hw En Ec Hfirst Hbelow; [lia| |lia|].
  all: cbn [notify_received]; wpsteps; rewrite Ec; wpsteps; rewrite En.
  all: pose proof (so_history _ _ _ Hw) as Hh; destruct (wo_each _ _ Hh c) as (Hok & _); [by eapply list_elem_of_lookup_2|].
  all: rewrite sn_ltb_snz, sn_gtb_snz by (by apply sn_ok_wf); rewrite (take_S_r _ _ c Ec) in *; fold (wnum c).
  all: destruct (Z.ltb_spec (wnum c) (snz next)) as [Hlt|Hge].
  - wpsteps. rewrite down_to_nil, app_nil_r; [done|]. cbn. intros d ->%list_elem_of_singleton. done.
  - wpsteps. eapply wp_mono; [|by apply (told c 0)]. intros a s1 [(_ & Ed & _) Hw1]. specialize (Hfirst c Ec).
    replace (wnum c >? snz end_seq) with false by lia. wpsteps. rewrite Ed, down_to_snoc by done. done.
  - wpsteps. rewrite down_to_nil, app_nil_r; [done|]. intros d [Hd| ->%list_elem_of_singleton]%elem_of_app; [|done].
    pose proof (below_in_take _ _ _ _ _ Hh Ec Hd). lia.
  - wpsteps. eapply wp_mono; [|by apply (told c (S cit))]. intros a s1 [(En1 & Ed & Et) Hw1]. rewrite down_to_snoc by done.
    destruct (Z.gtb_spec (wnum c) (snz end_seq)) as [Hgt|Hle].
    + assert (∃ d, wh_changes (history_ (run_writer s)) !! cit = Some d) as [d Ed'].
      { apply lookup_lt_is_Some. apply lookup_lt_Some in Ec. lia. }
      assert (∀ j, (j < S cit)%nat → wh_changes (history_ (run_writer s1)) !! j = wh_changes (history_ (run_writer s)) !! j) as Ej.
      { intros j Hj. rewrite <- (lookup_take_lt _ (S cit) j Hj), Et. by apply lookup_take_lt. }
      eapply wp_mono; [|apply (IH fuel s1 d)]; [|lia|done|congruence|by rewrite Ej by lia|intros x; rewrite Ej by lia; apply Hfirst|].
      * intros [] s2 [E2 Hw2]. split; [|done]. rewrite E2, Ed, Et, <- app_assoc. done.
      * intros x Hx. apply Hbelow. rewrite Et in Hx. apply elem_of_app. by left.
    + wpsteps. split; [|done]. rewrite Ed, down_to_nil; [done|]. intros d Hd. pose proof (below_in_take _ _ _ _ _ Hh Ec Hd).
      apply Hbelow; [apply elem_of_app; by left | lia].
Qed.

(** Where the [std::lower_bound] of [check_acked_status] cuts the history. *)
Lemma sorted_split l z :
  ksorted wnum l → ∃ k, (k <= length l)%nat ∧ take k l = List.filter (λ c, wnum c <? z) l ∧
    ∀ j x, l !! j = Some x → (wnum x <? z) = bool_decide (j < k)%nat.
Proof.
  induction l as [|c l IH]; intros Hs; [by exists 0%nat|]. apply ksorted_cons in Hs as [Hs Hgt].
  destruct (IH Hs) as (k & Hk & Et & Hj). cbn [List.filter]. destruct (Z.ltb_spec (wnum c) z) as [Hlt|Hge].
  - exists (S k). cbn. split_and!; [lia | by f_equal|]. intros [|j] x; [intros [= <-]; rewrite bool_decide_true; lia|].
    intros Ex. rewrite (Hj j x Ex). apply bool_decide_ext. lia.
  - exists 0%nat. assert (∀ j x, l !! j = Some x → (wnum x <? z) = false) as Hno.
    { intros j x Ex%list_elem_of_lookup_2. rewrite list.Forall_forall in Hgt. specialize (Hgt x Ex). cbn in Hgt. lia. }
    cbn. split_and!; [lia| |].
    + rewrite <- Et. destruct k as [|k]; [done|]. destruct l as [|d l]; [cbn in Hk; lia|]. specialize (Hj 0%nat d eq_refl).
      rewrite (Hno 0%nat d eq_refl), bool_decide_true in Hj by lia. done.
    + intros [|j] x; [intros [= <-]; rewrite bool_decide_false; lia|]. intros Ex. rewrite (Hno j x Ex), bool_decide_false; lia.
Qed.

Lemma cut_at_low_mark guid h low :
  wh_ok guid h → sn_ok low →
  take (after_low_mark low (wh_changes h)) (wh_changes h) = List.filter (λ c, wnum c <? snz low + 1) (wh_changes h) ∧
  (after_low_mark low (wh_changes h) <= length (wh_changes h))%nat.
Proof.
  intros Hh Hlow. unfold after_low_mark. set (changes := wh_changes h). set (lb := std_lower_bound _ changes).
  set (cit := match changes !! lb with Some _ => _ | None => _ end). pose proof (wo_sorted _ _ Hh) as Hs.
  destruct (sorted_split changes (snz low) Hs) as (k & Hk & _ & Hj).
  destruct (sorted_split changes (snz low + 1) Hs) as (k' & Hk' & <- & Hj').
  assert (∀ j x, changes !! j = Some x → sn_wf (sequenceNumber x)) as Hwf.
  { intros j x Ex%list_elem_of_lookup_2. by destruct (wo_each _ _ Hh x Ex) as (?%sn_ok_wf & _). }
  assert (lb = k) as Elb.
  { apply std_lower_bound_spec; [done|]. intros j x Ex. rewrite sn_ltb_snz by eauto using sn_ok_wf. by apply Hj. }
  assert (cit = k') as ->; [|done]. unfold cit. rewrite Elb.
  assert (k <= k')%nat as Hkk'.
  { destruct (decide (k' < k)%nat) as [Hlt|]; [|lia]. destruct (lookup_lt_is_Some_2 changes k') as [x Ex]; [lia|].
    pose proof (Hj _ _ Ex) as H1. pose proof (Hj' _ _ Ex) as H2. rewrite bool_decide_true in H1 by lia. rewrite bool_decide_false in H2 by lia. lia. }
  destruct (changes !! k) as [c|] eqn:Ec; [|apply lookup_ge_None in Ec; lia].
  rewrite sn_eqb_snz by eauto using sn_ok_wf. fold (wnum c). pose proof (Hj _ _ Ec) as H1. pose proof (Hj' _ _ Ec) as H2.
  rewrite bool_decide_false in H1 by lia. destruct (Z.eqb_spec (wnum c) (snz low)) as [E|E].
  - destruct (bool_decide_reflect (k < k')%nat); [|lia]. destruct (changes !! S k) as [d|] eqn:Ed; [|apply lookup_ge_None in Ed; lia].
    pose proof (ksorted_lookup _ _ _ _ _ _ Hs Ec Ed ltac:(lia)). pose proof (Hj' _ _ Ed) as H3.
    destruct (bool_decide_reflect (S k < k')%nat); lia.
  - destruct (bool_decide_reflect (k < k')%nat); lia.
Qed.

Lemma scan_fold l : ∀ all_acked has_min low,
  sn_ok low → snz low <= n → Forall (λ r, sn_ok (changes_low_mark_ r) ∧ snz (changes_low_mark_ r) <= n) l →
  let '(all_acked', _, low') :=
    foldl (λ acc r, let '(all_acked, has_min, min_low_mark) := acc in
                    let smaller := (changes_low_mark_ r <? min_low_mark)%sn || negb has_min in
                    (all_acked && negb (has_changes r), has_min || smaller,
                     if smaller then changes_low_mark_ r else min_low_mark)) (all_acked, has_min, low) l in
  sn_ok low' ∧ snz low' <= n ∧ (∀ r, r ∈ l → snz low' <= snz (changes_low_mark_ r)) ∧ (has_min = true → snz low' <= snz low).
Proof.
  induction l as [|r l IH]; intros aa hm low Hlow Hn Hl; cbn [foldl]; [split_and!; try done; by intros r ?%elem_of_nil|].
  apply Forall_cons in Hl as [[Hr Hrn] Hl]. cbv zeta. rewrite sn_ltb_snz by (by apply sn_ok_wf).
  set (low1 := if _ || negb hm then changes_low_mark_ r else low). set (hm1 := hm || _).
  assert (sn_ok low1 ∧ snz low1 <= n ∧ hm1 = true ∧ snz low1 <= snz (changes_low_mark_ r) ∧ (hm = true → snz low1 <= snz low)) as (H1 & H2 & H3 & H4 & H5).
  { unfold low1, hm1. destruct (Z.ltb_spec (snz (changes_low_mark_ r)) (snz low)), hm; cbn; split_and!; try done; lia. }
  specialize (IH (aa && negb (has_changes r)) hm1 low1 H1 H2 Hl). destruct (foldl _ _ l) as [[aa' hm'] low'].
  destruct IH as (? & ? & IH1 & IH2). specialize (IH2 H3). split_and!; [done..| |intros ?%H5; lia].
  intros x [->|Hx]%elem_of_cons; [lia | by apply IH1].
Qed.

Lemma scan_low_marks_spec w :
  sw_ok cfg n w → let '(_, low) := scan_low_marks w in
  sn_ok low ∧ snz low <= n ∧ ∀ r, r ∈ all_readers w → snz low <= snz (changes_low_mark_ r).
Proof.
  intros Hw. unfold scan_low_marks. destruct (next_spec _ _ _ Hw) as [Hok En]. pose proof (wo_room _ _ (so_history _ _ _ Hw)) as Hroom.
  rewrite (so_last _ _ _ Hw) in Hroom. pose proof (sn_ok_range _ (wo_last _ _ (so_history _ _ _ Hw))) as Hr. rewrite (so_last _ _ _ Hw) in Hr.
  destruct (sn_ok_sub (wh_next_sequence_number (history_ w)) 1 Hok) as [Hsub Esub]; [zwidth | lia|].
  pose proof (scan_fold (all_readers w) true false (wh_next_sequence_number (history_ w) - 1)%sn Hsub ltac:(lia)) as H.
  destruct (foldl _ _ (all_readers w)) as [[aa hm] low]. destruct H as (? & ? & ? & _); [|done].
  apply list.Forall_forall. intros r [p Hp]%elem_of_all_readers. destruct (so_readers _ _ _ Hw p r Hp) as [Hrp _ Hle _].
  split; [apply Hrp | done].
Qed.

(** The changes that all the readers have and that the listener has not been told about. *)
Definition received_numbers (w : StatefulWriter) : list SequenceNumber_t :=
  down_to (next_all_acked_notify_sequence_ w)
    (List.filter (λ c, wnum c <? snz (snd (scan_low_marks w)) + 1) (wh_changes (history_ w))).

Lemma elem_of_received_numbers q w :
  q ∈ received_numbers w ↔ ∃ c, c ∈ wh_changes (history_ w) ∧ q = sequenceNumber c ∧
    snz (next_all_acked_notify_sequence_ w) <= snz q <= snz (snd (scan_low_marks w)).
Proof.
  unfold received_numbers, down_to. rewrite elem_of_reverse, list_elem_of_In, List.filter_In, <- list_elem_of_In, list_elem_of_fmap. split.
  - intros [(c & -> & Hc%list_elem_of_In%List.filter_In) Hge]. destruct Hc as [Hc%list_elem_of_In Hle]. exists c. unfold wnum in Hle. split_and!; [done..|lia|lia].
  - intros (c & Hc & -> & Hr). split; [|lia]. exists c. split; [done|]. apply list_elem_of_In, List.filter_In. rewrite <- list_elem_of_In.
    unfold wnum. split; [done | lia].
Qed.

(** The notification inside [check_acked_status], with its tests. *)
Lemma notify_stage s low :
  sw_ok cfg n (run_writer s) → sn_ok (next_all_acked_notify_sequence_ (run_writer s)) → sn_ok low →
  snz (next_all_acked_notify_sequence_ (run_writer s)) <= snz low →
  let h := history_ (run_writer s) in
  let min_seq := get_seq_num_min h in
  let next := next_all_acked_notify_sequence_ (run_writer s) in
  sn_ok min_seq → snz min_seq <= snz low →
  wp (let changes := wh_changes h in
      let end_seq := if (min_seq >? next)%sn then min_seq else next in
      match after_low_mark low changes with O => undefined | S cit' => notify_received cfg (S (length changes)) cit' end_seq end)
    (λ _ s', notified (run_effects s') = notified (run_effects s) ++ down_to next (List.filter (λ c, wnum c <? snz low + 1) (wh_changes h)) ∧
             sw_ok cfg n (run_writer s')) s.
Proof using Hlistener Hremoves.
  intros Hw Hnext Hlow Hle h min_seq next Hmin Hminle. pose proof (so_history _ _ _ Hw) as Hh. fold h in Hh.
  destruct (cut_at_low_mark _ h low Hh Hlow) as [Et Hc]. cbv zeta.
  destruct (seq_num_min_spec _ _ Hh) as [[_ E]|(c0 & Hc0 & Emin & Hfirst)].
  { exfalso. fold min_seq in E. rewrite E in Hmin. apply sn_ok_range in Hmin. change (snz sn_unknown) with (-4294967296) in Hmin. lia. }
  fold min_seq in Emin. rewrite sn_gtb_snz by (by apply sn_ok_wf). set (end_seq := if _ >? _ then _ else _).
  assert (sn_ok end_seq ∧ snz next <= snz end_seq ∧ snz min_seq <= snz end_seq ∧ (end_seq = min_seq ∨ end_seq = next)) as (He & H1 & H2 & H3).
  { unfold end_seq. destruct (Z.gtb_spec (snz min_seq) (snz next)); split_and!; try done; try lia; auto. }
  assert (∀ d, d ∈ wh_changes h → wnum d < snz end_seq → wnum d < snz next) as Hbelow.
  { intros d Hd Hlt. destruct H3 as [E|E]; rewrite E in Hlt; [|done]. rewrite Emin in Hlt. specialize (Hfirst d Hd). unfold wnum in *. lia. }
  destruct (after_low_mark low (wh_changes h)) as [|cit'].
  - exfalso. cbn in Et. assert (c0 ∈ List.filter (λ c, wnum c <? snz low + 1) (wh_changes h)) as Hin; [|rewrite <- Et in Hin; by apply elem_of_nil in Hin].
    apply list_elem_of_In, List.filter_In. rewrite <- list_elem_of_In. split; [done|]. rewrite Emin in Hminle. unfold wnum. lia.
  - destruct (lookup_lt_is_Some_2 (wh_changes h) cit') as [c Ec]; [lia|]. rewrite <- Et.
    apply (notify_down next end_seq Hnext He H1 cit' (S (length (wh_changes h))) s c); [lia|done|done|done| |].
    + intros d Ed. unfold min_seq, get_seq_num_min in H2. rewrite head_lookup in H2. fold h in Ed. rewrite Ed in H2. exact H2.
    + intros d Hd. apply Hbelow. fold h in Hd. rewrite <- (take_drop (S cit') (wh_changes h)). apply elem_of_app. by left.
Qed.

(** The end of [check_acked_status]: what becomes of the next number to notify. *)
Lemma acked_epilogue (all_acked something : bool) s (N R : list SequenceNumber_t) bound :
  notified (run_effects s) = N → sw_ok cfg n (run_writer s) → bound <= n →
  R = [] ∨ bound < snz (next_all_acked_notify_sequence_ (run_writer s)) →
  wp (when all_acked
        (modify (λ w, sw_set_ack (wh_next_sequence_number (history_ w)) (wh_next_sequence_number (history_ w) - 1)%sn true (may_remove_change_ w) w) ;;
         emit [AllAcked]) ;;
      when something (emit [MayRemove]))
    (λ _ s', notified (run_effects s') = N ∧ (R = [] ∨ bound < snz (next_all_acked_notify_sequence_ (run_writer s')))) s.
Proof.
  intros EN Hw Hb Hbound. destruct (next_spec _ _ _ Hw) as [_ En]. destruct all_acked, something; wpsteps; cbn; rewrite ?notified_app, ?app_nil_r.
  all: split; [done | first [exact Hbound | right; lia]].
Qed.

Lemma sw_ok_ack next low all_acked may_remove w : sw_ok cfg n w → sw_ok cfg n (sw_set_ack next low all_acked may_remove w).
Proof. by intros []. Qed.

Lemma check_acked_exact s :
  sw_ok cfg n (run_writer s) → sn_ok (next_all_acked_notify_sequence_ (run_writer s)) →
  wp (check_acked_status cfg)
    (λ _ s', notified (run_effects s') = notified (run_effects s) ++ received_numbers (run_writer s) ∧
             (received_numbers (run_writer s) = [] ∨
              snz (snd (scan_low_marks (run_writer s))) < snz (next_all_acked_notify_sequence_ (run_writer s')))) s.
Proof using Hlistener Hremoves.
  intros Hw Hnext. pose proof (scan_low_marks_spec _ Hw) as Hscan. unfold check_acked_status. wpsteps. unfold id, received_numbers.
  destruct (scan_low_marks (run_writer s)) as [all_acked low]. destruct Hscan as (Hlow & Hln & _). cbn [snd].
  pose proof (so_history _ _ _ Hw) as Hh. pose proof (sn_ok_range _ Hlow) as Hlr.
  destruct (seq_num_min_spec _ _ Hh) as [[Enil Emin]|(c0 & Hc0 & Emin & Hfirst)].
  { rewrite Emin, Enil. apply wp_bind, wp_when. apply acked_epilogue; [by rewrite app_nil_r | done | done | by left]. }
  destruct (wo_each _ _ Hh c0 Hc0) as (Hmin & Hmr & _). unfold wnum in Hmr, Hfirst. cbv zeta. rewrite Emin.
  rewrite sn_neb_snz, sn_leb_snz, sn_geb_snz by first [by apply sn_ok_wf | split; cbn; zwidth].
  replace (snz (sequenceNumber c0) =? snz sn_unknown) with false by (change (snz sn_unknown) with (-4294967296); lia). cbn [negb].
  set (R := down_to _ _). wpsteps. rewrite Hlistener, bool_decide_true by done.
  assert (snz low < snz (next_all_acked_notify_sequence_ (run_writer s)) ∨ snz low < snz (sequenceNumber c0) → R = []) as Hnil.
  { intros H. apply down_to_nil. intros d [Hd Hle]%list_elem_of_In%List.filter_In. apply list_elem_of_In, Hfirst in Hd. unfold wnum in *. lia. }
  assert (∀ s1 b, notified (run_effects s1) = notified (run_effects s) ++ R → sw_ok cfg n (run_writer s1) →
    R = [] ∨ snz low < snz (next_all_acked_notify_sequence_ (run_writer s1)) →
    wp (modify (λ w, sw_set_ack (next_all_acked_notify_sequence_ w) low (all_acked_ w) (b w) w))
      (λ _, wp (when all_acked (modify (λ w, sw_set_ack (wh_next_sequence_number (history_ w)) (wh_next_sequence_number (history_ w) - 1)%sn true (may_remove_change_ w) w) ;; emit [AllAcked]) ;;
                when (all_acked || true) (emit [MayRemove]))
         (λ _ s', notified (run_effects s') = notified (run_effects s) ++ R ∧ (R = [] ∨ snz low < snz (next_all_acked_notify_sequence_ (run_writer s'))))) s1) as Hend.
  { intros s1 b E1 Hw1 Hb. apply wp_modify, acked_epilogue; [done | by apply sw_ok_ack | done | done]. }
  destruct (Z.leb_spec (snz (next_all_acked_notify_sequence_ (run_writer s))) (snz low)) as [Hle|Hgt]; [|by apply Hend; [rewrite Hnil, app_nil_r by lia | |left; apply Hnil; lia]].
  wpsteps. destruct (Z.geb_spec (snz low) (snz (sequenceNumber c0))) as [Hge|Hlt]; cbn [andb].
  - pose proof (notify_stage s low Hw Hnext Hlow Hle ltac:(by rewrite Emin) ltac:(rewrite Emin; lia)) as Hst. cbv zeta in Hst.
    rewrite Emin in Hst. eapply wp_mono; [|exact Hst].
    intros [] s1 [E1 Hw1]. apply wp_modify, Hend; [done | by apply sw_ok_ack|]. right. cbn.
    destruct (sn_ok_add low 1 Hlow ltac:(zwidth)) as [_ ->]. lia.
  - apply wp_modify, Hend; [rewrite Hnil, app_nil_r by lia; done | by apply sw_ok_ack | left; apply Hnil; lia].
Qed.
End Notify.
