(* ===== verification/StatefulWriterRequests.v ===== *)
(** * Requests of the readers are answered

    From an ACKNACK to the answer of the writer: the changes of the request that were
    sent go back to the flow controller, and the numbers of the request that the reader
    will never get are announced with GAPs. *)

From Stdlib Require Import ZArith Lia ZifyBool.
From stdpp Require Import base numbers list option list_numbers.
From S2P Require Import Prelude SequenceNumber BitmapRange BitmapFacts SortedRange Guid CacheChange ChangeForReader GapBuilder ReaderHistory ReaderProxy ReaderProxyFacts ReaderProxyTheorems ReaderProxyHistory.
From S2P Require Import WriterHistory StatefulWriter StatefulWriterLogic StatefulWriterInvariant StatefulWriterSteps StatefulWriterTotal.

Open Scope Z_scope.
Open Scope writer_scope.

(** ** The effects of a program are added to those of the run *)

Definition grows {A} (m : M A) : Prop := ∀ s, run_effects s `prefix_of` run_effects (snd (m s)).

Lemma grows_bind {A B} (m : M A) (f : A → M B) : grows m → (∀ a, grows (f a)) → grows (bind m f).
Proof.
  intros Hm Hf s. unfold bind. specialize (Hm s). destruct (m s) as [[a| | |] s']; cbn in *; [|done..].
  etrans; [done | apply Hf].
Qed.

Lemma grows_here {A} (o : Outcome A) : grows (λ s, (o, s)).
Proof. intros s. done. Qed.

Lemma grows_gets {A} (f : StatefulWriter → A) : grows (gets f).
Proof. intros s. done. Qed.

Lemma grows_modify f : grows (modify f).
Proof. intros s. done. Qed.

Lemma grows_emit l : grows (emit l).
Proof. intros s. cbn. by apply prefix_app_r. Qed.

Lemma grows_for_each {A} (l : list A) f : (∀ x, grows (f x)) → grows (for_each l f).
Proof. intros Hf. induction l as [|x l IH]; cbn [for_each]; [apply grows_here | by apply grows_bind]. Qed.

Lemma grows_fold_each {A B} (l : list A) (f : B → A → M B) : (∀ b x, grows (f b x)) → ∀ b, grows (fold_each l f b).
Proof. intros Hf. induction l as [|x l IH]; intros b; cbn [fold_each]; [apply grows_here | by apply grows_bind]. Qed.

Ltac grows_step :=
  match goal with
  | |- grows (bind _ _) => apply grows_bind; [|intros ?]
  | |- grows (gets _) => apply grows_gets
  | |- grows (modify _) => apply grows_modify
  | |- grows (emit _) => apply grows_emit
  | |- grows (ret _) => apply grows_here
  | |- grows undefined => apply grows_here
  | |- grows out_of_fuel => apply grows_here
  | |- grows (when ?b _) => unfold when
  | |- grows (for_each _ _) => apply grows_for_each; intros ?
  | |- grows (fold_each _ _ _) => apply grows_fold_each; intros ? ?
  | |- grows (if ?b then _ else _) => destruct b
  | |- grows (match ?x with _ => _ end) => destruct x
  | |- grows _ => progress cbv zeta
  | |- grows _ => solve [auto]
  end.

Ltac grows := repeat grows_step.

Lemma wp_grows {A} (m : M A) (Q : A → Run → Prop) s :
  grows m → wp m Q s → wp m (λ a s', Q a s' ∧ run_effects s `prefix_of` run_effects s') s.
Proof. intros Hm. specialize (Hm s). unfold wp. by destruct (m s) as [[] s']. Qed.

Section Requests.
Context (cfg : WriterConfig).

Lemma grows_on_reader {A} p (f : WriterInfo → ReaderProxy → option (A * ReaderProxy * list RPEffect)) : grows (on_reader cfg p f).
Proof. unfold on_reader, the_reader. grows. Qed.

Lemma grows_removal c : grows (remove_change cfg c).
Proof.
  unfold remove_change, remove_change_nts, change_removed_by_history. grows; apply grows_on_reader.
Qed.

Lemma grows_check_acked : grows (check_acked_status cfg).
Proof.
  assert (∀ fuel cit e, grows (notify_received cfg fuel cit e)) as Hn.
  { pose proof grows_removal. induction fuel as [|fuel IH]; intros cit e; cbn [notify_received]; [apply grows_here|].
    unfold on_writer_change_received_by_all. grows. }
  unfold check_acked_status. grows.
Qed.

(** ** The second half: the changes requested by a reader go to the flow controller *)

Definition resend (k : Z) (p : Position) : M Z :=
  res <- on_reader cfg p (λ _ r, let '(k, r', calls) := perform_acknack_response r in Some ((k, calls), r', [])) ;;
  emit (FlowAddOld <$> (seq_num_ <$> snd res)) ;;
  ret (u32 (k + fst res)).

Lemma grows_resend k p : grows (resend k p).
Proof. unfold resend. grows. apply grows_on_reader. Qed.

Lemma resend_spec k p r s :
  reader_at p (run_writer s) = Some r →
  wp (resend k p)
    (λ _ s', (∀ c, c ∈ changes_for_reader_ r → status_ c = REQUESTED → FlowAddOld (seq_num_ c) ∈ run_effects s') ∧
             run_writer s' = set_reader p (snd (fst (perform_acknack_response r))) (run_writer s)) s.
Proof.
  intros Er. unfold resend. wpsteps. destruct (perform_acknack_response r) as [[m r'] calls] eqn:E.
  apply (wp_on_reader cfg p r _ (m, calls) r' []); [done | by rewrite E|]. wpsteps. split; [|done]. intros c Hc Hst. cbn.
  apply elem_of_app. right. apply list_elem_of_fmap. exists (seq_num_ c). split; [done|].
  unfold perform_acknack_response, convert_status_on_all_changes in E. injection E as _ _ <-.
  apply list_elem_of_fmap. exists (cfr_set_status UNSENT c). split; [done|]. apply list_elem_of_fmap. exists c. split; [done|].
  by apply list_elem_of_filter.
Qed.

Lemma resend_others p r l : ∀ k s,
  p ∉ l → reader_at p (run_writer s) = Some r → (∀ q, q ∈ l → is_Some (reader_at q (run_writer s))) →
  wp (fold_each l resend k) (λ _ s', reader_at p (run_writer s') = Some r) s.
Proof.
  induction l as [|q l IH]; intros k s Hp Er Hl; cbn [fold_each]; [done|]. rewrite not_elem_of_cons in Hp. destruct Hp as [Hne Hp].
  destruct (Hl q) as [rq Eq]; [left|]. apply wp_bind. eapply wp_mono; [|by apply (resend_spec k q rq)]. intros k' s' [_ Ew].
  apply IH; [done| |]; rewrite Ew.
  - rewrite reader_at_set. destruct (decide _); [congruence | done].
  - intros x Hx. rewrite reader_at_set. specialize (Hl x ltac:(by right)). destruct (decide _); [by rewrite fmap_is_Some | done].
Qed.

Lemma resend_all p r l : ∀ k s,
  NoDup l → p ∈ l → reader_at p (run_writer s) = Some r → (∀ q, q ∈ l → is_Some (reader_at q (run_writer s))) →
  wp (fold_each l resend k)
    (λ _ s', (∀ c, c ∈ changes_for_reader_ r → status_ c = REQUESTED → FlowAddOld (seq_num_ c) ∈ run_effects s') ∧
             reader_at p (run_writer s') = Some (snd (fst (perform_acknack_response r)))) s.
Proof.
  induction l as [|q l IH]; intros k s Hnd Hp Er Hl; cbn [fold_each]; [by apply elem_of_nil in Hp|].
  apply NoDup_cons in Hnd as [Hq Hnd]. destruct (Hl q) as [rq Eq]; [left|].
  apply wp_bind. eapply wp_mono; [|by apply (resend_spec k q rq)]. intros k' s' [Hadd Ew].
  assert (∀ x, x ∈ l → is_Some (reader_at x (run_writer s'))) as Hl'.
  { intros x Hx. rewrite Ew, reader_at_set. specialize (Hl x ltac:(by right)). destruct (decide _); [by rewrite fmap_is_Some | done]. }
  apply elem_of_cons in Hp as [->|Hp].
  - rewrite Er in Eq. injection Eq as <-.
    assert (reader_at q (run_writer s') = Some (snd (fst (perform_acknack_response r)))) as Er' by (rewrite Ew, reader_at_set, decide_True, Er; done).
    eapply wp_mono; [|apply wp_grows; [apply grows_fold_each, grows_resend | by eapply resend_others]].
    intros k2 s2 [E2 Hpre]. split; [|done]. intros c Hc Hst. destruct Hpre as [rest ->]. apply elem_of_app. left. by apply Hadd.
  - apply IH; [done..| |done]. rewrite Ew, reader_at_set, decide_False; [done | by intros ->].
Qed.

Lemma nack_response_spec i r s :
  reader_at (RemoteReader, i) (run_writer s) = Some r →
  wp (perform_nack_response cfg)
    (λ _ s', (∀ c, c ∈ changes_for_reader_ r → status_ c = REQUESTED → FlowAddOld (seq_num_ c) ∈ run_effects s') ∧
             reader_at (RemoteReader, i) (run_writer s') = Some (snd (fst (perform_acknack_response r)))) s.
Proof.
  intros Er. unfold perform_nack_response. wpsteps. eapply wp_mono; [|apply (resend_all (RemoteReader, i) r)].
  - intros k s' [H E]. wpsteps. split; [|done]. intros c Hc Hst. cbn. apply elem_of_app. left. by apply H.
  - unfold positions_of. apply NoDup_fmap_2; [intros a b; congruence | apply NoDup_seq].
  - apply elem_of_positions_of. by rewrite Er.
  - done.
  - by intros q [_ Hq]%elem_of_positions_of.
Qed.

(** ** The first half: the request is recorded and the holes are announced *)

Lemma acked_keeps wi s r c :
  rp_ok r → sn_ok s → 0 < snz s → c ∈ changes_for_reader_ r → snz s <= cz c → status_ c = UNACKNOWLEDGED →
  c ∈ changes_for_reader_ (acked_changes_set wi s r).
Proof.
  intros Hok Hs Hpos Hc Hle Hst. destruct (Z.ltb_spec (snz (changes_low_mark_ r)) (snz s)) as [Hlt|Hge].
  - destruct (acked_above_spec wi s r Hok Hs Hlt) as (_ & _ & Hel & Hack). apply Hel. split; [done|].
    destruct (Z.ltb_spec (snz (changes_low_mark_ (acked_changes_set wi s r))) (cz c)) as [|Hge]; [done|]. exfalso.
    assert (rp_acked (acked_changes_set wi s r) (cz c)) as [H|H]%Hack by (left; lia); [|lia].
    destruct H as [H|H]; [|by rewrite (H c Hc eq_refl) in Hst].
    pose proof (rp_above r Hok) as Ha. rewrite list.Forall_forall in Ha. specialize (Ha c Hc). cbn in Ha. lia.
  - unfold acked_changes_set. rewrite sn_gtb_snz, sn_eqb_snz by (apply sn_ok_wf; done || apply Hok || apply sn_ok_zero).
    replace (snz s >? snz (changes_low_mark_ r)) with false by lia. change (snz sn_zero) with 0.
    replace (snz s =? 0) with false by lia. done.
Qed.

Lemma acked_subset wi s r c :
  rp_ok r → sn_ok s → 0 < snz s → c ∈ changes_for_reader_ (acked_changes_set wi s r) → c ∈ changes_for_reader_ r.
Proof.
  intros Hok Hs Hpos. destruct (Z.ltb_spec (snz (changes_low_mark_ r)) (snz s)) as [Hlt|Hge].
  - destruct (acked_above_spec wi s r Hok Hs Hlt) as (_ & _ & Hel & _). rewrite Hel. tauto.
  - unfold acked_changes_set. rewrite sn_gtb_snz, sn_eqb_snz by (apply sn_ok_wf; done || apply Hok || apply sn_ok_zero).
    replace (snz s >? snz (changes_low_mark_ r)) with false by lia. change (snz sn_zero) with 0.
    by replace (snz s =? 0) with false by lia.
Qed.

(** A number the collection does not have stops the low mark. *)
Lemma skip_acked_stops l : ∀ m z,
  sn_wf m → cz_ok l → z ∉ cz <$> l → snz m <= z →
  sn_wf (snd (skip_acked l m)) ∧ snz m <= snz (snd (skip_acked l m)) <= z.
Proof.
  induction l as [|c l IH]; intros m z Hm Hl Hz Hle; cbn [skip_acked snd]; [split; [done | lia]|].
  apply Forall_cons_iff in Hl as [Hc Hl]. rewrite fmap_cons, not_elem_of_cons in Hz. destruct Hz as [Hne Hz].
  destruct ((seq_num_ c =? m)%sn && bool_decide (status_ c = ACKNOWLEDGED)) eqn:E; [|cbn [snd]; split; [done | lia]].
  apply andb_prop in E as [E _]. rewrite sn_eqb_snz in E by (first [done | by apply sn_ok_wf]). apply Z.eqb_eq in E.
  assert (sn_ok m) as Hok by (apply sn_ok_iff; [done|]; rewrite <- E; by apply sn_ok_range).
  destruct (sn_ok_add m 1 Hok ltac:(zwidth)) as [Hw1 E1]. rewrite sn_incr_add_u32 by apply Hok.
  destruct (IH (m + 1)%sn z) as [? ?]; [done..| unfold cz in *; lia|]. split; [done | lia].
Qed.

Lemma acked_low_below wi s r z :
  rp_ok r → sn_ok s → snz (changes_low_mark_ r) < snz s <= z → z ∉ cz <$> changes_for_reader_ r →
  snz (changes_low_mark_ (acked_changes_set wi s r)) < z.
Proof.
  intros Hok Hs Hlt Hz. unfold acked_changes_set. rewrite sn_gtb_snz by (apply sn_ok_wf; done || apply Hok).
  replace (snz s >? snz (changes_low_mark_ r)) with true by lia.
  set (l := drop _ _). pose proof (skip_acked_stops l s z) as Hstop.
  destruct (skip_acked l s) as [l' m']. cbn [changes_low_mark_ rp_set_changes snd] in *.
  destruct Hstop as [Hw Hm]; [by apply sn_ok_wf | apply Forall_drop, Hok | | lia|].
  - intros (x & -> & Hx)%list_elem_of_fmap. apply Hz, list_elem_of_fmap. exists x. split; [done | by eapply subseteq_drop].
  - pose proof (sn_ok_range _ (rp_low_ok r Hok)). destruct (sn_sub_u32_snz m' 1 Hw) as [_ E1]; [zwidth | lia|]. lia.
Qed.

Context (n : Z).

Lemma count_spec p count r s :
  sw_ok cfg n (run_writer s) → reader_at p (run_writer s) = Some r → next_expected_acknack_count_ r <= count →
  wp (on_reader cfg p (λ _ r, Some (check_and_set_acknack_count count r, [])))
    (λ fresh s', (fresh = true ∧ run_effects s' = run_effects s ∧ history_ (run_writer s') = history_ (run_writer s) ∧
                  next_all_acked_notify_sequence_ (run_writer s') = next_all_acked_notify_sequence_ (run_writer s) ∧
                  ∃ r', reader_at p (run_writer s') = Some r' ∧ rp_guid r' = rp_guid r ∧
                        changes_for_reader_ r' = changes_for_reader_ r ∧ changes_low_mark_ r' = changes_low_mark_ r) ∧
                 sw_ok cfg n (run_writer s')) s.
Proof.
  intros Hw Er Hcount. apply wp_stable; [|done|].
  - apply stable_on_reader. intros w r0 a r' eff Hw0 Hp ->%result_proxy. by apply listed_acknack_count, (so_readers _ _ _ Hw0 _ _ Hp).
  - set (r' := rp_set_counts (u32 (count + 1)) (last_nackfrag_count_ r) r). apply (wp_on_reader cfg p r _ true r' []); [done| |].
    + unfold check_and_set_acknack_count. by replace (count >=? next_expected_acknack_count_ r) with true by lia.
    + cbn. rewrite app_nil_r. split_and!; [done | done | by destruct p as [[] i] | by destruct p as [[] i]|].
      exists r'. rewrite reader_at_set, decide_True, Er by done. done.
Qed.

Lemma acked_spec p seq r s :
  sw_ok cfg n (run_writer s) → reader_at p (run_writer s) = Some r → sn_ok seq → snz seq <= n + 1 →
  wp (rp_acked_changes_set cfg p seq)
    (λ _ s', (run_effects s' = run_effects s ∧ history_ (run_writer s') = history_ (run_writer s) ∧
              next_all_acked_notify_sequence_ (run_writer s') = next_all_acked_notify_sequence_ (run_writer s) ∧
              reader_at p (run_writer s') = Some (acked_changes_set (writer_info cfg (run_writer s)) seq r)) ∧
             sw_ok cfg n (run_writer s')) s.
Proof.
  intros Hw Er Hs Hle. apply wp_stable; [by apply stable_acked | done|].
  apply (wp_on_reader cfg p r _ tt (acked_changes_set (writer_info cfg (run_writer s)) seq r) []); [done | done|].
  cbn. rewrite app_nil_r. split_and!; [done | by destruct p as [[] i] | by destruct p as [[] i]|].
  by rewrite reader_at_set, decide_True, Er.
Qed.

Context (Hgap : wc_add_gap cfg = λ _, true).

Lemma in_gap_numbers z (gaps : list Gap) : z ∈ concat (gap_numbers <$> gaps) → ∃ gap, gap ∈ gaps ∧ z ∈ gap_numbers gap.
Proof.
  rewrite list_elem_of_In, in_concat. intros (l & Hl & Hz). apply list_elem_of_In, list_elem_of_fmap in Hl as (gap & -> & Hg).
  exists gap. split; [done | by apply list_elem_of_In].
Qed.

(** What is known of the proxy [r] and of the effects once the request [set] has been recorded. *)
Definition recorded (set : SequenceNumberSet_t) (h : WriterHistory) (guid : GUID_t) (old : list ChangeForReader_t)
    (r : ReaderProxy) (effects : list SWEffect) : Prop :=
  (∀ c, c ∈ old → bm_bits set (cz c) = true → status_ c = UNACKNOWLEDGED →
     ∃ c', c' ∈ changes_for_reader_ r ∧ seq_num_ c' = seq_num_ c ∧ status_ c' = REQUESTED) ∧
  (∀ z, bm_bits set z = true → snz (get_seq_num_min h) <= z → snz (changes_low_mark_ r) < z →
     z ∉ cz <$> changes_for_reader_ r → ∃ gap, AddGap (ToReader guid) gap ∈ effects ∧ z ∈ gap_numbers gap).

(** After an acknowledgement up to [base] the proxy lists no new number, and a number it did not list
    is still above the low mark. *)
Definition keeps_above (base : Z) (r r' : ReaderProxy) : Prop :=
  (∀ z, z ∈ cz <$> changes_for_reader_ r' → z ∈ cz <$> changes_for_reader_ r) ∧
  (∀ z, snz (changes_low_mark_ r) < base <= z → z ∉ cz <$> changes_for_reader_ r → snz (changes_low_mark_ r') < z).

Lemma request_spec p set final r s :
  sw_ok cfg n (run_writer s) → reader_at p (run_writer s) = Some r → acknack_ok set → wh_changes (history_ (run_writer s)) ≠ [] →
  wp (request_changes cfg p set final)
    (λ _ s', (next_all_acked_notify_sequence_ (run_writer s') = next_all_acked_notify_sequence_ (run_writer s) ∧
              ∃ r', reader_at p (run_writer s') = Some r' ∧
                    changes_low_mark_ r' = changes_low_mark_ r ∧ cz <$> changes_for_reader_ r' = cz <$> changes_for_reader_ r ∧
                    recorded set (history_ (run_writer s)) (rp_guid r) (changes_for_reader_ r) r' (run_effects s')) ∧
             sw_ok cfg n (run_writer s')) s.
Proof using Hgap.
  intros Hw Er Hset Hne. apply wp_stable; [by apply stable_request_changes | done|]. destruct Hset as (Hset & Hbase & Hels).
  destruct (seq_num_min_spec _ _ (so_history _ _ _ Hw)) as [[? _]|(c0 & Hc0 & Emin & _)]; [done|].
  destruct (wo_each _ _ (so_history _ _ _ Hw) c0 Hc0) as (Hmin & _). rewrite <- Emin in Hmin.
  destruct (so_readers _ _ _ Hw p r Er) as [Hok _ _ _].
  pose proof (requested_changes_set_exact set (get_seq_num_min (history_ (run_writer s))) r Hok Hset Hels Hmin) as H.
  unfold request_changes. apply wp_bind, wp_gets, wp_bind, (wp_the_reader p r); [done|]. rewrite Hgap.
  destruct (requested_changes_set (λ _, true) set gb_make _ r) as [[[someone r'] g] sent] eqn:E. destruct H as (_ & Elow & Ech & Egap).
  apply wp_bind, (wp_on_reader cfg p r _ (someone, sent, snd (gb_flush (λ _, true) g)) r' []); [done | by rewrite E|]. wpsteps.
  split; [by destruct p as [[] i]|]. exists r'. split; [cbn; by rewrite reader_at_set, decide_True, Er|]. split; [done|]. split.
  { rewrite Ech, <- list_fmap_compose. apply list_fmap_ext. intros _ c _. cbn. destruct (_ && _); [|done].
    unfold request_change, markAllFragmentsAsUnsent. by destruct (negb _). }
  split.
  - intros c Hc Hbits Hst. exists (request_change c). rewrite Ech. split_and!; [|unfold request_change, markAllFragmentsAsUnsent; by destruct (negb _) | apply request_change_status].
    apply list_elem_of_fmap. exists c. rewrite Hbits, bool_decide_true by done. done.
  - intros z Hbits Hmz Hlow Hnot. rewrite Elow in Hlow.
    destruct (in_gap_numbers z (sent ++ snd (gb_flush (λ _, true) g))) as (gap & Hin & Hz); [|exists gap; split; [|done]].
    + rewrite Egap. apply list_elem_of_In, List.filter_In. rewrite <- list_elem_of_In. split; [by apply elem_for_each|].
      unfold irrelevant. rewrite bool_decide_false; [cbn; lia|]. intros (c & -> & Hc)%list_elem_of_fmap. apply Hnot, list_elem_of_fmap.
      rewrite Ech. eexists. split; [|apply list_elem_of_fmap; by exists c]. destruct (_ && _); [|done].
      unfold request_change, markAllFragmentsAsUnsent. by destruct (negb _).
    + cbn. rewrite !elem_of_app, !list_elem_of_fmap. apply elem_of_app in Hin as [Hin|Hin]; eauto 8.
Qed.

(** A listener that removes nothing. *)
Context (removes : list CacheChange_t → CacheChange_t → list SequenceNumber_t).
Context (Hlistener : wc_listener cfg = Some removes) (Hsilent : ∀ h c, removes h c = []).

Lemma check_acked_keeps_readers p r : stable (λ w, reader_at p w = Some r) (check_acked_status cfg).
Proof using Hlistener Hsilent.
  assert (∀ fuel cit e, stable (λ w, reader_at p w = Some r) (notify_received cfg fuel cit e)) as Hn.
  { induction fuel as [|fuel IH]; intros cit e; cbn [notify_received]; stable. unfold on_writer_change_received_by_all.
    rewrite Hlistener. apply stable_bind; [stable | intros _]. apply stable_gets. intros w' _. rewrite Hsilent. apply stable_ret. }
  unfold check_acked_status. stable; try apply Hn; by apply stable_modify.
Qed.

Lemma reader_acknack_spec p count set final r s :
  sw_ok cfg n (run_writer s) → sn_ok (next_all_acked_notify_sequence_ (run_writer s)) → reader_at p (run_writer s) = Some r →
  next_expected_acknack_count_ r <= count → acknack_ok set → 0 < snz (base_ set) <= n + 1 → wh_changes (history_ (run_writer s)) ≠ [] →
  wp (process_reader_acknack cfg p count set final)
    (λ _ s', ∃ r', reader_at p (run_writer s') = Some r' ∧ keeps_above (snz (base_ set)) r r' ∧
                   recorded set (history_ (run_writer s)) (rp_guid r) (changes_for_reader_ r) r' (run_effects s')) s.
Proof using Hgap Hlistener Hsilent.
  intros Hw Hnext Er Hcount Hset Hbase Hne. assert (sn_ok (base_ set)) as Hb by apply Hset. unfold process_reader_acknack.
  apply wp_bind. eapply wp_mono; [|by apply (count_spec p count r)]. intros fresh s1 [(-> & _ & Eh1 & En1 & r1 & Er1 & Eg1 & Ec1 & El1) Hw1].
  apply wp_when, wp_bind. eapply wp_mono; [|apply (acked_spec p (base_ set) r1); [done | done | done | lia]].
  intros [] s2 [(_ & Eh2 & En2 & Er2) Hw2]. apply wp_bind. rewrite sn_gtb_snz by first [by apply sn_ok_wf | apply sn_ok_wf, sn_ok_zero].
  change (snz sn_zero) with 0. replace (snz (base_ set) >? 0) with true by lia.
  set (r2 := acked_changes_set _ _ r1) in *.
  eapply wp_mono; [|apply (request_spec p set final r2 s2); [done | done | done | by rewrite Eh2, Eh1]].
  intros [] s3 [(En3 & r3 & Er3 & El3 & Ec3 & Hrec1 & Hrec2) Hw3].
  eapply wp_mono; [|apply wp_grows; [apply grows_check_acked|]; apply wp_stable;
    [apply (check_acked_keeps_readers p r3) | done | apply (check_acked_exact cfg n removes Hlistener); [by left; apply Hsilent | done | by rewrite En3, En2, En1]]].
  intros [] s4 [[_ Er4] [rest Hpre]]. exists r3. split; [done|]. destruct (so_readers _ _ _ Hw1 p r1 Er1) as [Hok1 _ _ _]. split; [split|split].
  - intros z. rewrite Ec3. unfold r2. rewrite <- Ec1. intros (c & -> & Hc)%list_elem_of_fmap. apply list_elem_of_fmap. exists c.
    split; [done|]. eapply acked_subset; [done | done | lia | exact Hc].
  - intros z Hz Hnot. rewrite El3. unfold r2. apply acked_low_below; [done | done | by rewrite El1 | by rewrite Ec1].
  - intros c Hc Hbits Hst. apply Hrec1; [|done|done]. unfold r2. apply acked_keeps; [apply (so_readers _ _ _ Hw1 p r1 Er1) | done | lia | by rewrite Ec1 | | done].
    apply bm_bits_bound in Hbits; [|apply Hset]. cbn in Hbits. lia.
  - intros z Hz Hmin Hlow Hnot. destruct (Hrec2 z) as (gap & Hin & Hg); [done | by rewrite Eh2, Eh1 | done | done|].
    exists gap. split; [|done]. rewrite Hpre. apply elem_of_app. left.
    assert (rp_guid r2 = rp_guid r) as <-; [|done]. rewrite <- Eg1. unfold r2, acked_changes_set. repeat case_match; done.
Qed.

Lemma request_answered w i r count set final :
  sw_ok cfg n w → sn_ok (next_all_acked_notify_sequence_ w) →
  reader_at (RemoteReader, i) w = Some r → find_reader (rp_guid r) w = Some (RemoteReader, i) →
  next_expected_acknack_count_ r <= count → acknack_ok set → 0 < snz (base_ set) →
  snz (if bm_empty set then base_ set else bm_max set) <= snz (wh_next_sequence_number (history_ w)) → wh_changes (history_ w) ≠ [] →
  wp (process_acknack cfg (wc_guid cfg) (rp_guid r) count set final ;; perform_nack_response cfg)
    (λ _ s', ∃ r', reader_at (RemoteReader, i) (run_writer s') = Some r' ∧ keeps_above (snz (base_ set)) r r' ∧
       (∀ c, c ∈ changes_for_reader_ r → bm_bits set (cz c) = true → status_ c = UNACKNOWLEDGED →
          FlowAddOld (seq_num_ c) ∈ run_effects s') ∧
       (∀ z, bm_bits set z = true → snz (get_seq_num_min (history_ w)) <= z → snz (changes_low_mark_ r') < z →
          z ∉ cz <$> changes_for_reader_ r' → ∃ gap, AddGap (ToReader (rp_guid r)) gap ∈ run_effects s' ∧ z ∈ gap_numbers gap)) (start_run w).
Proof using Hgap Hlistener Hsilent.
  intros Hw Hnext Er Ef Hcount Hset Hpos Hrec Hne. destruct (received_number set Hset) as [Hwf Hle]. cbn zeta in Hwf, Hle.
  destruct (next_spec _ _ _ Hw) as [Hnok En]. apply wp_bind. unfold process_acknack. rewrite guid_eqb_refl. apply wp_bind, wp_gets, wp_bind.
  cbn [run_writer start_run]. unfold id. rewrite sn_leb_snz by first [done | by apply sn_ok_wf]. rewrite (proj2 (Z.leb_le _ _) Hrec), Ef.
  eapply wp_mono; [|apply (reader_acknack_spec (RemoteReader, i) count set final r (start_run w)); [done | done | done | done | done | lia | done]].
  intros [] s1 (r1 & Er1 & Hkeep & Hreq & Hgaps). apply wp_ret.
  eapply wp_mono; [|apply wp_grows; [|apply (nack_response_spec i r1 s1 Er1)]].
  2: { unfold perform_nack_response. apply grows_bind; [apply grows_gets | intros ps]. apply grows_bind; [|intros k; apply grows_emit].
       apply grows_fold_each, grows_resend. }
  intros [] s2 [[Hadd Er2] [rest Hpre]]. eexists. split; [exact Er2|]. split; [|split].
  - destruct Hkeep as [Hsub Hlow]. split; [|exact Hlow]. intros z (c & -> & Hc)%list_elem_of_fmap. apply Hsub, list_elem_of_fmap.
    cbn in Hc. apply list_elem_of_fmap in Hc as (c0 & -> & Hc0). exists c0. split; [by destruct (decide _) | done].
  - intros c Hc Hbits Hst. destruct (Hreq c Hc Hbits Hst) as (c' & Hc' & <- & Hst'). by apply Hadd.
  - intros z Hbits Hmin Hlow Hnot. destruct (Hgaps z Hbits Hmin) as (gap & Hg & Hz); [done| |].
    + intros (c & -> & Hc)%list_elem_of_fmap. apply Hnot. cbn. apply list_elem_of_fmap. eexists. split; [|apply list_elem_of_fmap; by exists c].
      by destruct (decide _).
    + exists gap. rewrite Hpre. split; [apply elem_of_app; by left | done].
Qed.
End Requests.
