(* ===== verification/StatefulWriterTheorems.v ===== *)
(** * Theorems about the stateful writer

    The invariant of the reachable writers, and concrete runs in which the handlers
    do not do what they are meant to. *)

From Stdlib Require Import ZArith Lia ZifyBool.
From stdpp Require Import base numbers list option list_numbers.
From S2P Require Import Prelude SequenceNumber BitmapRange BitmapFacts SortedRange Guid TimedEvent Time CacheChange ChangeForReader GapBuilder ReaderHistory ReaderProxy ReaderProxyFacts ReaderProxyTheorems ReaderProxyHistory WriterHistory LocatorSelector StatefulWriter StatefulWriterLogic StatefulWriterInvariant StatefulWriterSteps StatefulWriterMatching StatefulWriterHistory StatefulWriterTotal StatefulWriterRequests.

Open Scope Z_scope.
Open Scope writer_scope.

(** ** Runs on concrete writers *)

Definition ex_guid (n : Z) : GUID_t := Guid (GuidPrefix (replicate 12 n)) (EntityId [0; 0; n; 7]).

Definition ex_locator (kind n : Z) : Locator_t := Locator kind 7400 (replicate 12 0 ++ [10; 0; 0; n]).

Definition ex_config (filter : option (CacheChange_t → GUID_t → bool))
    (listener : option (list CacheChange_t → CacheChange_t → list SequenceNumber_t)) (disable_positive_acks : bool) : WriterConfig := {|
  wc_history := {| wh_writer_guid := ex_guid 1; wh_preallocated := false; wh_payloadMaxSize := 1000;
                   wh_maximumReservedCaches := 100; wh_with_key := true; wh_max_allowed_payload_size := 100 |};
  wc_push_mode := true; wc_disable_heartbeat_piggyback := false; wc_disable_positive_acks := disable_positive_acks;
  wc_separate_sending := false; wc_durability := TRANSIENT_LOCAL; wc_max_readers := 10; wc_sendBufferSize := 1000;
  wc_datasharing_compatible := false; wc_finite_lease := false; wc_reader_events := None; wc_data_filter := filter;
  wc_should_intraprocess := λ _, false; wc_local_reader := λ _, None; wc_flow_remove := λ _, true; wc_add_gap := λ _, true;
  wc_transports := [(true, λ l, loc_kind l =? LOCATOR_KIND_UDPv4)]; wc_filter_remote_locators := λ l, l;
  wc_listener := listener
|}.

Definition ex_reader (kind n : Z) (disable_positive_acks : bool) : ReaderProxyData := {|
  rpd_guid := ex_guid n; rpd_unicast := [ex_locator kind n]; rpd_multicast := []; rpd_expects_inline_qos := false;
  rpd_durability := TRANSIENT_LOCAL; rpd_best_effort := false; rpd_disable_positive_acks := disable_positive_acks
|}.

Definition ex_change (kind : ChangeKind_t) (length : Z) : CacheChange_t := {|
  cc_kind := kind; writerGUID := ex_guid 1; instanceHandle := Some (replicate 16 1); sequenceNumber := sn_zero;
  serializedPayload := Payload 0 length (replicate (Z.to_nat length) 0) false; inline_qos := pl_default;
  sourceTimestamp := time_zero; vendor_id := [1; 15]; fragment_size_ := 0; fragment_count_ := 0; first_missing_fragment_ := 0
|}.

Definition ex_params : WriteParams :=
  {| wp_source_timestamp := time_zero; wp_related_sample_identity_known := false; wp_has_more_replies := false |}.

(** A sample is written, and the flow controller hands it back with a message group that takes everything. *)
Definition ex_write (cfg : WriterConfig) (change : CacheChange_t) : M unit := add_change_ cfg time_zero change ex_params ;; ret tt.

Definition ex_deliver (cfg : WriterConfig) (fuel : nat) (n : Z) : M unit :=
  o <- gets (λ w, wh_get_change (SeqNum 0 n) (ex_guid 1) (history_ w)) ;;
  match o with
  | Some c => deliver_sample_nts cfg (λ _, GAdded) (λ _, 0) fuel true false c ;; ret tt
  | None => ret tt
  end.

(** The numbers of the DATA submessages of a run. *)
Definition data_numbers (effects : list SWEffect) : list Z :=
  omap (λ e, match e with AddData _ seq _ => Some (snz seq) | _ => None end) effects.

(** A reader whose locators no transport can reach. *)
Definition ex_unreachable_config : WriterConfig := ex_config None None false.

Definition ex_unreachable : StatefulWriter :=
  after (matched_reader_add_edp ex_unreachable_config (ex_reader LOCATOR_KIND_TCPv4 2 false) false ;;
         ex_write ex_unreachable_config (ex_change ALIVE 210)) (sw_make ex_unreachable_config 0).

Definition ex_fragmented : CacheChange_t :=
  default (ex_change ALIVE 0) (wh_get_change (SeqNum 0 1) (ex_guid 1) (history_ ex_unreachable)).

(** ** The invariant *)

(** C5. Through any sequence of writes (with numbers below 2^63 - 2^32 - 3), removals, deliveries, ACKNACK
    and NACK_FRAG messages with well-formed sets, timer expirations, matchings and changes of the
    attributes, the history of a writer holds its own changes in the order of their numbers, from one up
    to the last number used; every matched reader's collection is sorted, above the reader's low mark and
    made of changes that are in the history, and the low mark is a number that has been used; the proxies
    in the pool are empty. This covers handlers that end because the message group throws. The timer of
    the acknowledgements may expire only while the number it stands at has been written: a change of the
    attributes can rearm it beyond, and then it acknowledges a number that is not written yet
    ([update_acknowledges_unwritten]). *)
Theorem writer_reachable_ok cfg w : sw_reachable cfg w → sw_ok cfg (last_number w) w.
Proof. apply sw_reachable_sw_ok. Qed.

Definition ex_matched : StatefulWriter :=
  after (matched_reader_add_edp (ex_config None None false) (ex_reader LOCATOR_KIND_UDPv4 2 false) false)
    (sw_make (ex_config None None false) 1).

Definition ex_written : StatefulWriter :=
  after (add_change_ (ex_config None None false) time_zero (ex_change ALIVE 10) ex_params) ex_matched.

Definition ex_acked : StatefulWriter :=
  after (process_acknack (ex_config None None false) (ex_guid 1) (ex_guid 2) 1 (bm_set_base (SeqNum 0 2)) false) ex_written.

Lemma writer_reachable_ok_witness :
  last_number ex_acked = 1 ∧ sw_ok (ex_config None None false) (last_number ex_acked) ex_acked.
Proof.
  split; [by vm_compute|]. apply (writer_reachable_ok (ex_config None None false) ex_acked).
  apply sw_reach_step with ex_written; [apply sw_reach_step with ex_matched; [apply sw_reach_step with (sw_make (ex_config None None false) 1)|]|].
  - apply sw_reach_make.
  - apply sw_step_match.
  - apply sw_step_add; [done|]. by vm_compute.
  - apply sw_step_acknack. split; [apply bm_set_base_ok; by vm_compute | split; [by vm_compute|]]. by apply list.Forall_nil.
Defined.

(** ** Requests and acknowledgements *)

(** C6. A remote reader that asks for changes with an ACKNACK gets an answer, when the history is not empty,
    the listener removes nothing and the message group takes every GAP. When the timer of the nack
    response expires, every requested change that is UNACKNOWLEDGED has been handed to the flow
    controller again; and every requested number from the first change of the history on that is above
    the reader's low mark and not in its collection (the change was removed, or is not relevant for the
    reader) is announced to that reader with a GAP. The code ignores requests for changes that
    are UNSENT or UNDERWAY, and nothing is claimed for numbers below the first change. *)
Theorem request_is_answered cfg n removes w i r count set final :
  sw_ok cfg n w → sn_ok (next_all_acked_notify_sequence_ w) → wh_changes (history_ w) ≠ [] →
  reader_at (RemoteReader, i) w = Some r → find_reader (rp_guid r) w = Some (RemoteReader, i) →
  next_expected_acknack_count_ r <= count → acknack_ok set → 0 < snz (base_ set) →
  snz (if bm_empty set then base_ set else bm_max set) <= snz (wh_next_sequence_number (history_ w)) →
  wc_add_gap cfg = (λ _, true) → wc_listener cfg = Some removes → (∀ h c, removes h c = []) →
  ∃ s' r', (process_acknack cfg (wc_guid cfg) (rp_guid r) count set final ;; perform_nack_response cfg) (start_run w) = (Done tt, s') ∧
    reader_at (RemoteReader, i) (run_writer s') = Some r' ∧
    (∀ c, c ∈ changes_for_reader_ r → bm_bits set (snz (seq_num_ c)) = true → status_ c = UNACKNOWLEDGED →
       FlowAddOld (seq_num_ c) ∈ run_effects s') ∧
    (∀ z, bm_bits set z = true → snz (get_seq_num_min (history_ w)) <= z → snz (changes_low_mark_ r') < z →
       z ∉ snz <$> (seq_num_ <$> changes_for_reader_ r') →
       ∃ gap, AddGap (ToReader (rp_guid r)) gap ∈ run_effects s' ∧ z ∈ gap_numbers gap).
Proof.
  intros Hw Hnext Hne Er Ef Hcount Hset Hpos Hrec Hgap Hl Hs.
  pose proof (request_answered cfg n Hgap removes Hl Hs w i r count set final Hw Hnext Er Ef Hcount Hset Hpos Hrec Hne) as H.
  unfold wp in H. destruct (bind _ _ (start_run w)) as [[[]| | |] s']; [|done..]. destruct H as (r' & Er' & _ & H1 & H2).
  exists s', r'. split_and!; [done | done | done|]. intros z. rewrite <- list_fmap_compose. apply H2.
Qed.

Definition ex_silent : WriterConfig := ex_config None (Some (λ _ _, [])) false.

(** Three samples have been sent to a reader, and the second one has been removed. *)
Definition ex_three_1 : StatefulWriter := after (matched_reader_add_edp ex_silent (ex_reader LOCATOR_KIND_UDPv4 2 false) false) (sw_make ex_silent 1).
Definition ex_three_2 : StatefulWriter := after (add_change_ ex_silent time_zero (ex_change ALIVE 10) ex_params) ex_three_1.
Definition ex_three_3 : StatefulWriter := after (add_change_ ex_silent time_zero (ex_change ALIVE 10) ex_params) ex_three_2.
Definition ex_three_4 : StatefulWriter := after (add_change_ ex_silent time_zero (ex_change ALIVE 10) ex_params) ex_three_3.

Definition ex_in_history (n : Z) (w : StatefulWriter) : CacheChange_t :=
  default (ex_change ALIVE 0) (wh_get_change (SeqNum 0 n) (ex_guid 1) (history_ w)).

Definition ex_sent (n : Z) (w : StatefulWriter) : StatefulWriter :=
  after (deliver_sample_nts ex_silent (λ _, GAdded) (λ _, 0) 5 true false (ex_in_history n w)) w.

Definition ex_three_7 : StatefulWriter := ex_sent 3 (ex_sent 2 (ex_sent 1 ex_three_4)).
Definition ex_three_8 : StatefulWriter := after (sw_perform_nack_supression ex_silent (ex_guid 2)) ex_three_7.
Definition ex_three : StatefulWriter := after (remove_change_by_number ex_silent (SeqNum 0 2)) ex_three_8.

Lemma ex_three_8_reachable : sw_reachable ex_silent ex_three_8.
Proof.
  assert (∀ n w, sw_reachable ex_silent w →
    bool_decide (is_Some (wh_get_change (SeqNum 0 n) (ex_guid 1) (history_ w))) = true → sw_reachable ex_silent (ex_sent n w)) as Hsent.
  { intros n w Hw [c Ec]%bool_decide_eq_true. eapply sw_reach_step, sw_step_deliver; [done|]. unfold ex_in_history. rewrite Ec.
    by apply wh_get_change_seq in Ec as [Hc _]. }
  assert (sw_reachable ex_silent ex_three_4) as H4.
  { eapply sw_reach_step, sw_step_add; [eapply sw_reach_step, sw_step_add; [eapply sw_reach_step, sw_step_add;
      [eapply sw_reach_step, sw_step_match; apply sw_reach_make|..]|..]|..]; first [done | by vm_compute]. }
  assert (sw_reachable ex_silent ex_three_7) as H7.
  { apply Hsent; [apply Hsent; [apply Hsent; [done|]|]|]; by vm_compute. }
  eapply sw_reach_step, sw_step_nack_supression. exact H7.
Qed.

Lemma ex_three_ok : sw_ok ex_silent 3 ex_three.
Proof.
  change 3 with (last_number ex_three). apply sw_reachable_sw_ok. eapply sw_reach_step, sw_step_remove_number. apply ex_three_8_reachable.
Qed.

(** A request of everything from one to three. *)
Definition ex_request : SequenceNumberSet_t := foldl (λ b n, fst (bm_add b (SeqNum 0 n))) (bm_make (SeqNum 0 1)) [1; 2; 3].

Lemma ex_request_ok : acknack_ok ex_request.
Proof.
  split; [|split; [by vm_compute | apply (bool_decide_unpack _); by vm_compute]]. unfold ex_request. cbn [foldl].
  repeat (apply bm_add_spec; [|split; [split; cbn; zwidth | by vm_compute]]).
  apply bm_make_ok; [split; [split; cbn; zwidth | by vm_compute] | by vm_compute].
Qed.

Definition ex_three_reader : ReaderProxy := nth 0 (matched_remote_readers_ ex_three) (fst (rp_make false None)).

Lemma request_is_answered_witness :
  ∃ s', (process_acknack ex_silent (ex_guid 1) (ex_guid 2) 1 ex_request false ;; perform_nack_response ex_silent) (start_run ex_three) = (Done tt, s') ∧
    FlowAddOld (SeqNum 0 1) ∈ run_effects s' ∧ FlowAddOld (SeqNum 0 3) ∈ run_effects s' ∧
    ∃ gap, AddGap (ToReader (ex_guid 2)) gap ∈ run_effects s' ∧ 2 ∈ gap_numbers gap.
Proof.
  destruct (request_is_answered ex_silent 3 (λ _ _, []) ex_three 0 ex_three_reader 1 ex_request false) as (s' & r' & E & Er' & Hadd & Hg);
    [apply ex_three_ok | by vm_compute | by vm_compute | by vm_compute | by vm_compute | by vm_compute | apply ex_request_ok
    | by vm_compute | by vm_compute | done | done | done |].
  assert (∀ c, c ∈ changes_for_reader_ ex_three_reader → FlowAddOld (seq_num_ c) ∈ run_effects s') as Hall.
  { assert (forallb (λ c, bm_bits ex_request (snz (seq_num_ c)) && bool_decide (status_ c = UNACKNOWLEDGED))
      (changes_for_reader_ ex_three_reader) = true) as H by (by vm_compute).
    intros c Hc. rewrite forallb_forall in H. specialize (H c (proj1 (list_elem_of_In _ _) Hc)).
    apply andb_true_iff in H as [Hb Hs%bool_decide_eq_true]. exact (Hadd c Hc Hb Hs). }
  exists s'. split_and!; [exact E | apply (Hall (nth 0 (changes_for_reader_ ex_three_reader) (cfr_make (ex_change ALIVE 0))))
    | apply (Hall (nth 1 (changes_for_reader_ ex_three_reader) (cfr_make (ex_change ALIVE 0)))) |].
  - vm_compute. left.
  - vm_compute. right. left.
  - apply Hg; [by vm_compute | by vm_compute | |].
    all: vm_compute in E; injection E as <-; vm_compute in Er'; injection Er' as <-.
    + by vm_compute.
    + by apply (bool_decide_unpack _).
Defined.

(** C24. Provided that the listener removes at most the change it is told about (a listener that removes
    more makes the code read past the end of the history, [received_by_all_past_end]),
    [check_acked_status] tells it about a change exactly when all the readers have it: the numbers it is
    told are those of the history from the next one to notify to the smallest low mark, from the last
    one to the first; each of them is acknowledged by every matched reader, and is below the next number
    to notify afterwards, so that none is told twice. *)
Theorem received_by_all_exact cfg n removes s :
  sw_ok cfg n (run_writer s) → sn_ok (next_all_acked_notify_sequence_ (run_writer s)) →
  wc_listener cfg = Some removes → (∀ h c, removes h c = [] ∨ removes h c = [sequenceNumber c]) →
  ∃ s', check_acked_status cfg s = (Done tt, s') ∧
    notified (run_effects s') = notified (run_effects s) ++ received_numbers (run_writer s) ∧
    ∀ q, q ∈ received_numbers (run_writer s) →
      (∀ r, r ∈ all_readers (run_writer s) → change_is_acked q r = true) ∧
      snz q < snz (next_all_acked_notify_sequence_ (run_writer s')).
Proof.
  intros Hw Hnext Hl Hr. pose proof (check_acked_exact cfg n removes Hl Hr s Hw Hnext) as H. pose proof (scan_low_marks_spec cfg n _ Hw) as Hscan.
  unfold wp in H. destruct (check_acked_status cfg s) as [[[]| | |] s']; [|done..]. destruct H as [E Hbound]. exists s'. split_and!; [done..|].
  intros q Hq. pose proof (proj1 (elem_of_received_numbers q _) Hq) as (c & Hc & -> & Hrange). destruct Hbound as [E0|Hb]; [by rewrite E0 in Hq; apply elem_of_nil in Hq|].
  destruct (wo_each _ _ (so_history _ _ _ Hw) c Hc) as (Hok & _). destruct (scan_low_marks (run_writer s)) as [aa low]. destruct Hscan as (_ & _ & Hlow).
  split; [|cbn in *; lia]. intros r Hin. pose proof (Hlow r Hin) as Hle. apply elem_of_all_readers in Hin as [p Hp].
  destruct (so_readers _ _ _ Hw p r Hp) as [Hrp _ _ _]. apply change_is_acked_spec; [done | done|]. left. cbn in Hrange. lia.
Qed.

(** The reader has acknowledged the first two of three samples. *)
Definition ex_half_acked : StatefulWriter :=
  after (rp_acked_changes_set ex_silent (RemoteReader, 0%nat) (SeqNum 0 3)) ex_three_8.

Lemma received_by_all_exact_witness :
  ∃ s', check_acked_status ex_silent (start_run ex_half_acked) = (Done tt, s') ∧
    notified (run_effects s') = [SeqNum 0 2; SeqNum 0 1].
Proof.
  destruct (received_by_all_exact ex_silent 3 (λ _ _, []) (start_run ex_half_acked)) as (s' & E & En & _).
  - change (sw_ok ex_silent 3 (after (rp_acked_changes_set ex_silent (RemoteReader, 0%nat) (SeqNum 0 3)) ex_three_8)).
    apply stable_after; [apply stable_acked; by vm_compute|]. change 3 with (last_number ex_three_8). apply sw_reachable_sw_ok, ex_three_8_reachable.
  - by vm_compute.
  - done.
  - by left.
  - exists s'. split; [exact E|]. rewrite En. by vm_compute.
Defined.

(** ** The history *)

(** C30. The GAPs that go with a heartbeat announce exactly the holes of the history: the numbers from
    the first change to the last one that are not the number of a change, each once and in order. *)
Theorem gaps_announce_holes cfg guid dst s c l :
  wh_ok guid (history_ (run_writer s)) → wh_changes (history_ (run_writer s)) = c :: l → (∀ g, wc_add_gap cfg g = true) →
  ∃ gaps, add_gaps_for_holes_in_history cfg dst s =
      (Done tt, {| run_writer := run_writer s; run_effects := run_effects s ++ (AddGap dst <$> gaps);
                   run_answers := run_answers s; run_sender := run_sender s |}) ∧
    concat (gap_numbers <$> gaps) =
    List.filter (not_among (c :: l)) (seqZ (wnum c) (end_of (wnum c) (c :: l) - wnum c)).
Proof. apply add_gaps_spec. Qed.

Lemma gaps_announce_holes_witness :
  ∃ gaps, run_effects (snd (add_gaps_for_holes_in_history ex_silent (ToReader (ex_guid 2)) (start_run ex_three))) =
      (AddGap (ToReader (ex_guid 2)) <$> gaps) ∧ concat (gap_numbers <$> gaps) = [2].
Proof.
  destruct (gaps_announce_holes ex_silent (ex_guid 1) (ToReader (ex_guid 2)) (start_run ex_three)
    (ex_in_history 1 ex_three) [ex_in_history 3 ex_three]) as (gaps & E & Eg).
  - apply (so_history _ _ _ ex_three_ok).
  - by vm_compute.
  - done.
  - exists gaps. split; [by rewrite E|]. rewrite Eg. by vm_compute.
Defined.

(** C31. A change that is added to the history is cut into fragments exactly when it does not fit the
    largest payload of a message, less what its inline QoS takes. The fragment size is then positive
    and at most that payload, and the fragments cover the payload with nothing left over: all of them
    but the last are full, and the last one is not empty. *)
Theorem fragments_cover_payload cfg now a wparams h c h' flow part output calculate extra :
  prepare_and_add_change cfg now a wparams h = (inr c, h') →
  wh_max_allowed_payload_size cfg = get_max_allowed_payload_size flow part output calculate extra →
  (∀ z, is_u32 (calculate z)) → 0 <= extra < 2 ^ 16 →
  high_mark_for_frag_ h = 0 ∨ high_mark_for_frag_ h = wh_max_allowed_payload_size cfg →
  0 <= pl_length (inline_qos a) < 2 ^ 16 → 0 <= pl_length (serializedPayload a) < 2 ^ 32 - 2 ^ 16 → fragment_size_ a = 0 →
  let final := final_high_mark_for_frag (wh_max_allowed_payload_size cfg) (inline_qos_size cfg wparams a) in
  let length := pl_length (serializedPayload a) in
  4 <= final ∧ high_mark_for_frag_ h' = wh_max_allowed_payload_size cfg ∧ serializedPayload c = serializedPayload a ∧
  ((length <= final ∧ fragment_size_ c = 0) ∨
   (final < length ∧ 0 < fragment_size_ c <= Z.min final get_max_fragment_payload_size ∧
    (fragment_count_ c - 1) * fragment_size_ c < length <= fragment_count_ c * fragment_size_ c)).
Proof.
  intros E Emax Hcalc Hextra Hmark Hqos Hlen Hsize final length. unfold prepare_and_add_change in E.
  destruct (guid_neb _ _); [done|]. destruct (_ && _); [done|]. destruct (wh_isHistoryFull h); [done|].
  pose proof (max_allowed_at_least_four flow part output calculate extra Hcalc Hextra) as Hmax. rewrite <- Emax in Hmax.
  set (a' := cc_numbered _ _ a) in E. pose proof (set_fragments_spec cfg wparams a' h Hmax Hmark Hqos Hlen) as H. cbv zeta in E, H.
  destruct (set_fragments cfg wparams a' h) as [c1 h1]. injection E as <- <-. destruct H as (H1 & H2 & H3).
  split_and!; [apply final_high_mark_range; [done | by apply inline_qos_size_range] | done | done|].
  destruct H3 as [[H3 ->]|H3]; [by left | by right].
Qed.

Lemma fragments_cover_payload_witness :
  fragment_count_ ex_fragmented = 3 ∧ fragment_size_ ex_fragmented = 100 ∧
  (fragment_count_ ex_fragmented - 1) * fragment_size_ ex_fragmented < 210 <= fragment_count_ ex_fragmented * fragment_size_ ex_fragmented.
Proof.
  split; [by vm_compute|]. split; [by vm_compute|].
  destruct (fragments_cover_payload (wc_history ex_unreachable_config) time_zero (ex_change ALIVE 210) ex_params wh_make ex_fragmented
    (history_ ex_unreachable) 65500 65500 65500 (λ _, 196) 0) as (_ & _ & _ & [[H _]|(_ & _ & H)]);
    [by vm_compute | by vm_compute | intros z; by vm_compute | lia | by left | by vm_compute | by vm_compute | done | | exact H].
  exfalso. by vm_compute in H.
Defined.

(** ** Runs that go wrong *)

(** The listener of a keyed [DataWriter]: when a change that unregisters an instance has been received
    by all, the changes of the instance up to it are removed. *)
Definition ex_instance_listener (h : list CacheChange_t) (c : CacheChange_t) : list SequenceNumber_t :=
  if bool_decide (cc_kind c = NOT_ALIVE_UNREGISTERED)
  then sequenceNumber <$> List.filter (λ d, bool_decide (instanceHandle d = instanceHandle c) &&
                                            (sequenceNumber d <=? sequenceNumber c)%sn) h
  else [].

Definition ex_unregister : M bool :=
  let cfg := ex_config None (Some ex_instance_listener) false in
  matched_reader_add_edp cfg (ex_reader LOCATOR_KIND_UDPv4 2 false) false ;;
  ex_write cfg (ex_change ALIVE 10) ;; ex_deliver cfg 20 1 ;;
  ex_write cfg (ex_change NOT_ALIVE_UNREGISTERED 10) ;; ex_deliver cfg 20 2 ;;
  process_acknack cfg (ex_guid 1) (ex_guid 2) 1 (bm_set_base (SeqNum 0 3)) false.

(** A keyed writer writes a sample and unregisters its instance, and one ACKNACK acknowledges both:
    [check_acked_status] tells the listener about the second change, the listener removes both from the
    history, and the loop goes on with an iterator that points past the end of the empty history. *)
Theorem received_by_all_past_end :
  let '(outcome, s) := ex_unregister (start_run (sw_make (ex_config None (Some ex_instance_listener) false) 0)) in
  outcome = Undefined ∧ wh_changes (history_ (run_writer s)) = [] ∧
  next_all_acked_notify_sequence_ (run_writer s) = SeqNum 0 1.
Proof. by vm_compute. Qed.

Definition ex_keep_duration : M unit :=
  let cfg := ex_config None None true in
  matched_reader_add_edp cfg (ex_reader LOCATOR_KIND_UDPv4 2 true) false ;;
  ex_write cfg (ex_change ALIVE 10) ;; ex_deliver cfg 20 1 ;;
  ack_timer_expired cfg (λ _, true) ;;
  update_positive_acks_times ;; ack_timer_expired cfg (λ _, true) ;;
  ex_write cfg (ex_change ALIVE 10) ;; ex_deliver cfg 20 2.

(** With positive acknowledgements disabled, an update of the writer's attributes restarts the
    acknowledgement event even when every sample has expired. Its next expiration acknowledges the
    number that the next sample will get: that sample is put in the collection of the reader below its
    low mark, is never sent, and counts as acknowledged. *)
Theorem update_acknowledges_unwritten :
  let '(outcome, s) := ex_keep_duration (start_run (sw_make (ex_config None None true) 0)) in
  outcome = Done tt ∧ data_numbers (run_effects s) = [1] ∧ wnum <$> wh_changes (history_ (run_writer s)) = [1; 2] ∧
  ((λ r, (changes_low_mark_ r, (λ c, (seq_num_ c, status_ c)) <$> changes_for_reader_ r, change_is_acked (SeqNum 0 2) r))
     <$> matched_remote_readers_ (run_writer s)) = [(SeqNum 0 2, [(SeqNum 0 2, UNSENT)], true)].
Proof. by vm_compute. Qed.

Definition ex_filter (c : CacheChange_t) (reader : GUID_t) : bool := guid_eqb reader (ex_guid 2).

(** Two readers, the given one first, and a sample that is relevant for the reader 2 only. *)
Definition ex_two_readers (first second : Z) : M unit :=
  let cfg := ex_config (Some ex_filter) None false in
  matched_reader_add_edp cfg (ex_reader LOCATOR_KIND_UDPv4 first false) false ;;
  matched_reader_add_edp cfg (ex_reader LOCATOR_KIND_UDPv4 second false) false ;;
  ex_write cfg (ex_change ALIVE 10) ;; ex_deliver cfg 20 1.

Definition ex_two_readers_run (first second : Z) : StatefulWriter :=
  after (ex_two_readers first second) (sw_make (ex_config (Some ex_filter) None false) 0).

(** Whether a change counts as fully delivered depends on the order in which the readers were
    matched: a reader that filters the change out is skipped if it comes before the reader that got
    the change, and makes the answer false if it comes after it, because [found] keeps its value from
    one reader to the next. *)
Lemma fully_delivered_depends_on_order :
  has_been_fully_delivered (SeqNum 0 1) (ex_two_readers_run 3 2) = true ∧
  has_been_fully_delivered (SeqNum 0 1) (ex_two_readers_run 2 3) = false.
Proof. by vm_compute. Qed.

(** The heartbeat that asserts the liveliness of the writer is not sent to all the readers: it goes
    through the locators selected for the last synchronous sample, and misses a reader that filtered
    that sample out. *)
Lemma liveliness_heartbeat_misses_reader :
  let w := ex_two_readers_run 2 3 in
  matched_readers_guids w = [ex_guid 2; ex_guid 3] ∧
  run_effects (snd (send_periodic_heartbeat (ex_config (Some ex_filter) None false) true true (start_run w))) =
    [AddHeartbeat (ToSelected [ex_guid 2]) (SeqNum 0 1) (SeqNum 0 1) 3 true true].
Proof. by vm_compute. Qed.

(** The writer after the first turn, which every other turn leaves as it is. *)
Definition ex_turning : StatefulWriter :=
  after (deliver_turn ex_unreachable_config (λ _, GAdded) (λ _, 0) true false ex_fragmented false) ex_unreachable.

Lemma unreachable_turn w need_reactivate effects k :
  w = ex_unreachable ∨ w = ex_turning →
  ∃ need_reactivate' effects' k',
    deliver_turn ex_unreachable_config (λ _, GAdded) (λ _, 0) true false ex_fragmented need_reactivate
      {| run_writer := w; run_effects := effects; run_answers := k; run_sender := None |} =
    (Done (DELIVERED, 1, need_reactivate'),
     {| run_writer := ex_turning; run_effects := effects'; run_answers := k'; run_sender := None |}).
Proof. intros [-> | ->]; eexists _, _, _; vm_compute; reflexivity. Qed.

Lemma unreachable_loop fuel : ∀ w fragment need_reactivate effects k,
  w = ex_unreachable ∨ w = ex_turning → fragment < 4 →
  fst (deliver_loop ex_unreachable_config (λ _, GAdded) (λ _, 0) fuel true false ex_fragmented DELIVERED fragment need_reactivate
    {| run_writer := w; run_effects := effects; run_answers := k; run_sender := None |}) = OutOfFuel.
Proof.
  induction fuel as [|fuel IH]; intros w fragment nr effects k Hw Hf; cbn [deliver_loop];
    replace (u32 (fragment_count_ ex_fragmented + 1)) with 4 by (by vm_compute);
    replace (fragment =? 4) with false by lia; rewrite bool_decide_true by done; cbn [negb andb]; [done|].
  destruct (unreachable_turn w nr effects k Hw) as (nr' & e' & k' & Et). unfold bind at 1. rewrite Et.
  apply IH; [by right | done].
Qed.

(** A sample that has to be sent in fragments to a reader with no locator in use is never done with:
    each turn of [deliver_sample_to_network] finds the first fragment unsent, sends nothing because there
    is no locator, and counts as delivered, so that the loop goes on for any number of turns. *)
Theorem unreachable_reader_hangs fuel :
  fragment_count_ ex_fragmented = 3 ∧ ex_fragmented ∈ wh_changes (history_ ex_unreachable) ∧
  fst (deliver_sample_to_network ex_unreachable_config (λ _, GAdded) (λ _, 0) fuel true false ex_fragmented
         (start_run ex_unreachable)) = OutOfFuel.
Proof.
  split; [by vm_compute|]. split; [vm_compute; by left|].
  unfold deliver_sample_to_network, bind at 1.
  assert (fst (deliver_loop ex_unreachable_config (λ _, GAdded) (λ _, 0) fuel true false ex_fragmented DELIVERED 0 false
    (start_run ex_unreachable)) = OutOfFuel) as E by (apply unreachable_loop; [by left | lia]).
  destruct (deliver_loop _ _ _ _ _ _ _ _ _ _ _) as [o s]. cbn in E. by rewrite E.
Qed.
