(* ===== verification/FlowQueue.v ===== *)
(** The queues of a flow controller: the intrusive doubly linked lists that
    chain the samples waiting to be sent.

    Source: src/src/cpp/rtps/flowcontrol/FlowControllerImpl.hpp (struct
    FlowQueue and its ListInfo) and the fields of CacheChange_t the lists use
    (src/include/fastdds/rtps/common/CacheChange.hpp).  A list is a pair of
    sentinels, and the links are fields of the samples, so every operation
    here acts on one shared [Store] of links.  [represents] relates a store to
    the sequences of samples its lists hold, and the lemmas at the end show
    what each pointer operation does to those sequences. *)

From Stdlib Require Import ZArith Lia ZifyBool.
From stdpp Require Import base numbers option functions sets list.
From S2P Require Import Prelude.

Local Open Scope Z_scope.

(** ** Nodes and links *)

(** The four lists of one FlowQueue. *)
Inductive ListKind :=
  | NewInterested
  | OldInterested
  | NewOnes
  | OldOnes.

(** A list of a queue; the queues of a scheduler are numbered. *)
Record ListId := mkListId {
  li_queue : Z;
  li_kind : ListKind
}.

(** What a link can point to: the sentinels of a list, or a sample. *)
Inductive Node :=
  | Head (l : ListId)
  | Tail (l : ListId)
  | Change (c : nat).

#[export] Instance ListKind_eq_dec : EqDecision ListKind.
Proof. solve_decision. Defined.

#[export] Instance ListId_eq_dec : EqDecision ListId.
Proof. solve_decision. Defined.

#[export] Instance Node_eq_dec : EqDecision Node.
Proof. solve_decision. Defined.

#[export] Instance Change_inj : Inj (=) (=) Change.
Proof. by intros ?? [= ->]. Qed.

(** The writer_info fields of every node; [None] is the null pointer. *)
Record Store := mkStore {
  nxt : Node → option Node;
  prv : Node → option Node;
  is_linked : nat → bool
}.

Definition set_next (x : Node) (y : option Node) (s : Store) : Store :=
  mkStore (<[x:=y]> (nxt s)) (prv s) (is_linked s).

Definition set_previous (x : Node) (y : option Node) (s : Store) : Store :=
  mkStore (nxt s) (<[x:=y]> (prv s)) (is_linked s).

Definition set_linked (c : nat) (b : bool) (s : Store) : Store :=
  mkStore (nxt s) (prv s) (<[c:=b]> (is_linked s)).

(** Every list is constructed empty, every sample unlinked. *)
Definition empty_store : Store :=
  mkStore
    (λ x, match x with Head l => Some (Tail l) | _ => None end)
    (λ x, match x with Tail l => Some (Head l) | _ => None end)
    (λ _, false).

(** ** ListInfo; an operation that follows a null pointer is [None] *)

Definition list_clear (l : ListId) (s : Store) : Store :=
  set_previous (Tail l) (Some (Head l)) (set_next (Head l) (Some (Tail l)) s).

Definition list_is_empty (l : ListId) (s : Store) : bool :=
  bool_decide (nxt s (Head l) = Some (Tail l)).

Definition list_add_change (l : ListId) (c : nat) (s : Store) : option Store :=
  if is_linked s c then Some s
  else
    let s := set_linked c true s in
    let s := set_previous (Change c) (prv s (Tail l)) s in
    p ← prv s (Change c);
    let s := set_next p (Some (Change c)) s in
    let s := set_previous (Tail l) (Some (Change c)) s in
    Some (set_next (Change c) (Some (Tail l)) s).

Definition list_add_list (l other : ListId) (s : Store) : option Store :=
  if list_is_empty other s then Some s
  else
    first ← nxt s (Head other);
    last ← prv s (Tail other);
    let s := set_previous first (prv s (Tail l)) s in
    p ← prv s first;
    let s := set_next p (Some first) s in
    let s := set_next last (Some (Tail l)) s in
    let s := set_previous (Tail l) (Some last) s in
    Some (list_clear other s).

(** The method is called swap; it takes the other list's samples and drops
    its own. *)
Definition list_swap (l other : ListId) (s : Store) : option Store :=
  if list_is_empty other s then Some (list_clear l s)
  else
    let s := set_next (Head l) (nxt s (Head other)) s in
    let s := set_previous (Tail l) (prv s (Tail other)) s in
    let s := list_clear other s in
    f ← nxt s (Head l);
    let s := set_previous f (Some (Head l)) s in
    b ← prv s (Tail l);
    Some (set_next b (Some (Tail l)) s).

(** ** FlowQueue *)

Definition queue_is_empty (q : Z) (s : Store) : bool :=
  list_is_empty (mkListId q NewOnes) s && list_is_empty (mkListId q OldOnes) s.

Definition queue_add_new_sample (q : Z) (c : nat) : Store → option Store :=
  list_add_change (mkListId q NewInterested) c.

Definition queue_add_old_sample (q : Z) (c : nat) : Store → option Store :=
  list_add_change (mkListId q OldInterested) c.

Definition queue_get_next_change (q : Z) (s : Store) : option Node :=
  if queue_is_empty q s then None
  else if list_is_empty (mkListId q NewOnes) s
       then nxt s (Head (mkListId q OldOnes))
       else nxt s (Head (mkListId q NewOnes)).

Definition queue_add_interested (q : Z) (s : Store) : option Store :=
  s ← list_add_list (mkListId q NewOnes) (mkListId q NewInterested) s;
  list_add_list (mkListId q OldOnes) (mkListId q OldInterested) s.

Definition queue_swap (q old : Z) (s : Store) : option Store :=
  s ← list_swap (mkListId q NewInterested) (mkListId old NewInterested) s;
  s ← list_swap (mkListId q OldInterested) (mkListId old OldInterested) s;
  s ← list_swap (mkListId q NewOnes) (mkListId old NewOnes) s;
  list_swap (mkListId q OldOnes) (mkListId old OldOnes) s.

(** A queue constructed in place. *)
Definition queue_init (q : Z) (s : Store) : Store :=
  list_clear (mkListId q NewInterested)
    (list_clear (mkListId q OldInterested)
      (list_clear (mkListId q NewOnes)
        (list_clear (mkListId q OldOnes) s))).

(** Taking a sample out of whichever list holds it, as remove_change_impl and
    run do, and putting it back between the nodes it was between. *)
Definition unlink (c : nat) (s : Store) : option Store :=
  p ← prv s (Change c);
  n ← nxt s (Change c);
  let s := set_next p (Some n) s in
  let s := set_previous n (Some p) s in
  let s := set_previous (Change c) None s in
  let s := set_next (Change c) None s in
  Some (set_linked c false s).

Definition relink (c : nat) (p n : Node) (s : Store) : Store :=
  let s := set_linked c true s in
  let s := set_next p (Some (Change c)) s in
  let s := set_previous n (Some (Change c)) s in
  let s := set_previous (Change c) (Some p) s in
  set_next (Change c) (Some n) s.

(** ** What a store represents *)

(** The samples [cs] are chained from node [a] to node [b], in both
    directions. *)
Fixpoint chain (s : Store) (a : Node) (cs : list nat) (b : Node) : Prop :=
  match cs with
  | [] => nxt s a = Some b ∧ prv s b = Some a
  | c :: cs =>
      nxt s a = Some (Change c) ∧ prv s (Change c) = Some a ∧
      chain s (Change c) cs b
  end.

(** The lists of [s] hold exactly the sequences [Q], in the order the samples
    will be taken: every list is well linked, no sample is in two lists or twice in one, and a sample is marked
    linked exactly when a list holds it. *)
Record represents (s : Store) (Q : ListId → list nat) : Prop := {
  rep_chain : ∀ l, chain s (Head l) (Q l) (Tail l);
  rep_nodup : ∀ l, NoDup (Q l);
  rep_disjoint : ∀ l1 l2 c, c ∈ Q l1 → c ∈ Q l2 → l1 = l2;
  rep_linked : ∀ c, is_linked s c = true ↔ ∃ l, c ∈ Q l
}.

(** The node before the samples that follow [cs], and the node after. *)
Definition last_node (a : Node) (cs : list nat) : Node :=
  match last cs with Some c => Change c | None => a end.

Definition first_node (cs : list nat) (b : Node) : Node :=
  match cs with c :: _ => Change c | [] => b end.

(** Both stores have the same links around the samples of a list. *)
Definition same_links (s s' : Store) (l : ListId) (cs : list nat) : Prop :=
  nxt s' (Head l) = nxt s (Head l) ∧ prv s' (Tail l) = prv s (Tail l) ∧
  ∀ c, c ∈ cs → nxt s' (Change c) = nxt s (Change c) ∧
                prv s' (Change c) = prv s (Change c).

Create HintDb flow.

(** Reads links back from a store built by updates. *)
Ltac links :=
  unfold set_next, set_previous, set_linked, insert, fn_insert in *;
  simpl in *; repeat (case_decide; simplify_eq; simpl in *); try done.

Lemma chain_app s a cs1 c cs2 b :
  chain s a (cs1 ++ c :: cs2) b ↔
  chain s a cs1 (Change c) ∧ chain s (Change c) cs2 b.
Proof. revert a; induction cs1 as [|d cs1 IH]; intros a; simpl; [tauto|]. rewrite IH; tauto. Qed.

Lemma chain_frame s s' a cs b :
  chain s a cs b → nxt s' a = nxt s a → prv s' b = prv s b →
  (∀ c, c ∈ cs → nxt s' (Change c) = nxt s (Change c) ∧
                 prv s' (Change c) = prv s (Change c)) →
  chain s' a cs b.
Proof.
  revert a; induction cs as [|c cs IH]; intros a Hc Ha Hb Hcs; simpl in *.
  - by rewrite Ha, Hb.
  - destruct (Hcs c) as [Hn Hp]; [apply list_elem_of_here|]. rewrite Ha, Hp.
    destruct Hc as (?&?&?). split; [done|split; [done|]].
    apply IH; auto. intros d Hd. by apply Hcs, list_elem_of_further.
Qed.

Lemma chain_prv_end s a cs b : chain s a cs b → prv s b = Some (last_node a cs).
Proof.
  induction cs as [|c cs _] using rev_ind; simpl; [by intros [??]|].
  rewrite chain_app. intros [_ [_ H]]. unfold last_node. by rewrite last_snoc.
Qed.

Lemma chain_nxt_start s a cs b : chain s a cs b → nxt s a = Some (first_node cs b).
Proof. destruct cs; simpl; tauto. Qed.

Lemma last_node_cons a c cs : last_node a (c :: cs) = last_node (Change c) cs.
Proof. unfold last_node. rewrite last_cons. by destruct (last cs). Qed.

Lemma last_node_elem a cs : last_node a cs = a ∨ ∃ c, c ∈ cs ∧ last_node a cs = Change c.
Proof.
  unfold last_node. destruct (last cs) as [c|] eqn:Hl; [right|by left].
  exists c. split; [|done]. by apply last_Some_elem_of.
Qed.

Lemma last_node_change f r : ∃ z, z ∈ f :: r ∧ last_node (Change f) r = Change z.
Proof.
  destruct (last_node_elem (Change f) r) as [->|(z&Hz&->)]; [exists f|exists z];
    by rewrite elem_of_cons; auto.
Qed.

(** Attaching the end of a chain to another node. *)
Lemma chain_retarget s s' a cs b b' :
  chain s a cs b → (∀ c, c ∈ cs → a ≠ Change c) → NoDup cs →
  (last_node a cs ≠ a → nxt s' a = nxt s a) →
  (∀ c, c ∈ cs → last_node a cs ≠ Change c → nxt s' (Change c) = nxt s (Change c)) →
  (∀ c, c ∈ cs → prv s' (Change c) = prv s (Change c)) →
  nxt s' (last_node a cs) = Some b' → prv s' b' = Some (last_node a cs) →
  chain s' a cs b'.
Proof.
  revert a; induction cs as [|c cs IH]; intros a Hch Ha Hnd Hna Hn Hp Hn' Hp'; [done|].
  destruct Hch as (H1&H2&H3). apply NoDup_cons in Hnd as [Hc Hnd].
  rewrite last_node_cons in Hna, Hn, Hn', Hp'.
  assert (last_node (Change c) cs ≠ a) as Hla.
  { destruct (last_node_elem (Change c) cs) as [->|(d&Hd&->)]; intros <-; eapply Ha; set_solver. }
  split; [by rewrite Hna|]. split; [rewrite Hp; [done|set_solver]|].
  apply IH; try done; [intros d ? [= ->]; done|..].
  - intros ?. by apply Hn; [set_solver|].
  - intros d ??. by apply Hn; [set_solver|].
  - intros d ?. apply Hp. set_solver.
Qed.

Lemma rep_empty : represents empty_store (λ _, []).
Proof.
  split; [done|intros; constructor|set_solver|].
  intros c; split; [done|]. intros [l ?]; set_solver.
Qed.

(** Changing the samples of one list. *)
Lemma rep_update s s' Q l cs :
  represents s Q →
  chain s' (Head l) cs (Tail l) → NoDup cs →
  (∀ l' c, l' ≠ l → c ∈ cs → c ∉ Q l') →
  (∀ l', l' ≠ l → same_links s s' l' (Q l')) →
  (∀ c, is_linked s' c = true ↔ c ∈ cs ∨ (is_linked s c = true ∧ c ∉ Q l)) →
  represents s' (<[l:=cs]> Q).
Proof.
  intros HR Hch Hnd Hdis Hsame Hlk. split.
  - intros l'. destruct (decide (l' = l)) as [->|Hne]; [by rewrite fn_lookup_insert|].
    rewrite fn_lookup_insert_ne by done. destruct (Hsame l' Hne) as (?&?&?).
    by eapply chain_frame; [apply HR|..].
  - intros l'. destruct (decide (l' = l)) as [->|Hne]; [by rewrite fn_lookup_insert|].
    rewrite fn_lookup_insert_ne by done. apply HR.
  - intros l1 l2 c. destruct (decide (l = l1)) as [<-|]; destruct (decide (l = l2)) as [<-|];
      rewrite ?fn_lookup_insert, ?fn_lookup_insert_ne by done; [done|..].
    + intros ??. by destruct (Hdis l2 c).
    + intros ??. by destruct (Hdis l1 c).
    + apply HR.
  - intros c. rewrite Hlk. split.
    + intros [?|[[l' ?]%(rep_linked s Q HR) ?]]; [exists l; by rewrite fn_lookup_insert|].
      exists l'. rewrite fn_lookup_insert_ne; [done|congruence].
    + intros [l' Hin]. destruct (decide (l = l')) as [<-|].
      * rewrite fn_lookup_insert in Hin. by left.
      * rewrite fn_lookup_insert_ne in Hin by done. right. split; [apply HR; eauto|].
        intros Hin'. by pose proof (rep_disjoint s Q HR l l' c Hin' Hin).
Qed.

Section Operations.
Context (s : Store) (Q : ListId → list nat) (HR : represents s Q).

Lemma rep_other l l' c d : l' ≠ l → c ∈ Q l → d ∈ Q l' → c ≠ d.
Proof. intros Hne ?? ->. apply Hne. by eapply HR. Qed.

Lemma list_is_empty_spec l : list_is_empty l s = bool_decide (Q l = []).
Proof.
  unfold list_is_empty. apply bool_decide_ext. pose proof (rep_chain s Q HR l) as Hch.
  rewrite (chain_nxt_start _ _ _ _ Hch). by destruct (Q l).
Qed.

Ltac apart :=
  exfalso;
  match goal with
  | H : ?c ∈ ?cs, Hn : ?c ∉ ?cs |- _ => by destruct (Hn H)
  | H : ?c ∈ ?R ?l, Hun : ∀ l, ?c ∉ ?R l |- _ => by destruct (Hun l H)
  | H1 : ?c ∈ ?cs1, H2 : ?c ∈ ?cs2, Hd : ∀ x, x ∈ ?cs1 → x ∉ ?cs2 |- _ =>
      by destruct (Hd c H1 H2)
  | H1 : ?c ∈ ?R ?l1, H2 : ?c ∈ ?R ?l2, Hne : ?l2 ≠ ?l1 |- _ =>
      by destruct (Hne (rep_disjoint s Q HR l2 l1 c H2 H1))
  end.

Ltac frame :=
  repeat (intro || split); unfold list_clear, relink in *; links; try apart.

Lemma rep_in_linked c l : c ∈ Q l → is_linked s c = true.
Proof. intros. apply HR. by exists l. Qed.

Lemma rep_ext Q' : (∀ l, Q' l = Q l) → represents s Q'.
Proof.
  intros HQ. split; intros; rewrite ?HQ in *; [apply HR|apply HR|by eapply HR|].
  rewrite (rep_linked s Q HR). by setoid_rewrite HQ.
Qed.

Lemma rep_unlinked c l : is_linked s c = false → c ∉ Q l.
Proof.
  intros Hc Hin. assert (is_linked s c = true) by (apply HR; eauto). congruence.
Qed.

Lemma rep_retarget l b' s' cs1 cs2 :
  Q l = cs1 ++ cs2 →
  (last_node (Head l) cs1 ≠ Head l → nxt s' (Head l) = nxt s (Head l)) →
  (∀ c, c ∈ cs1 → last_node (Head l) cs1 ≠ Change c → nxt s' (Change c) = nxt s (Change c)) →
  (∀ c, c ∈ cs1 → prv s' (Change c) = prv s (Change c)) →
  nxt s' (last_node (Head l) cs1) = Some b' →
  prv s' b' = Some (last_node (Head l) cs1) →
  chain s' (Head l) cs1 b'.
Proof.
  intros HQ ?????. pose proof (rep_chain s Q HR l) as Hch. pose proof (rep_nodup s Q HR l) as Hnd.
  rewrite HQ in Hch, Hnd. apply NoDup_app in Hnd as (Hnd&_&_).
  destruct cs2 as [|c cs2]; [rewrite app_nil_r in Hch|apply chain_app in Hch as [Hch _]];
    by eapply chain_retarget.
Qed.

Lemma rep_tail_retarget l f r b' s' :
  Q l = f :: r →
  (∀ c, c ∈ Q l → last_node (Change f) r ≠ Change c → nxt s' (Change c) = nxt s (Change c)) →
  (∀ c, c ∈ Q l → c ≠ f → prv s' (Change c) = prv s (Change c)) →
  nxt s' (last_node (Change f) r) = Some b' →
  prv s' b' = Some (last_node (Change f) r) →
  chain s' (Change f) r b'.
Proof.
  intros HQ Hn Hp ??. pose proof (rep_chain s Q HR l) as Hch.
  pose proof (rep_nodup s Q HR l) as Hnd. rewrite HQ in Hch, Hnd, Hn, Hp.
  destruct Hch as (_&_&Hch). apply NoDup_cons in Hnd as [Hf Hnd].
  eapply chain_retarget; try done.
  - congruence.
  - intros ?. by apply Hn; [apply list_elem_of_here|].
  - intros c ??. by apply Hn; [apply list_elem_of_further|].
  - intros c ?. apply Hp; [by apply list_elem_of_further|congruence].
Qed.

(** add_change appends an unlinked sample and leaves a linked one alone. *)
Lemma list_add_change_spec l c :
  ∃ s', list_add_change l c s = Some s' ∧
    represents s' (if is_linked s c then Q else <[l:=Q l ++ [c]]> Q).
Proof.
  unfold list_add_change. destruct (is_linked s c) eqn:Hc; [eauto|].
  pose proof (rep_chain s Q HR l) as Hch.
  pose proof (chain_prv_end _ _ _ _ Hch) as Hlast.
  set (s1 := set_previous _ _ _). assert (prv s1 (Change c) = prv s (Tail l)) as ->
    by (unfold s1; by links).
  rewrite Hlast. cbn [mbind option_bind]. eexists; split; [done|].
  pose proof (λ l, rep_unlinked c l Hc) as Hun. unfold s1; clear s1.
  change (prv (set_linked c true s) (Tail l)) with (prv s (Tail l)). rewrite Hlast.
  apply rep_update with s; [done|..].
  - apply chain_app; split; [apply rep_retarget with []; [by rewrite app_nil_r|..]|].
    all: destruct (last_node_elem (Head l) (Q l)) as [Hl|(d&Hd&Hl)]; rewrite ?Hl; by frame.
  - apply NoDup_app; split; [apply HR|split; [|apply NoDup_singleton]].
    intros d ? ->%list_elem_of_singleton. apart.
  - intros l' x Hne. rewrite elem_of_app, list_elem_of_singleton. intros [?| ->] ?; apart.
  - destruct (last_node_elem (Head l) (Q l)) as [Hl|(d&Hd&Hl)]; rewrite ?Hl; by frame.
  - intros d. pose proof (rep_in_linked d l). rewrite elem_of_app, list_elem_of_singleton.
    destruct (decide (d ∈ Q l)); links; intuition congruence.
Qed.

(** Moving the samples of one list to the end of another. *)
Lemma rep_move s' l other :
  l ≠ other →
  chain s' (Head l) (Q l ++ Q other) (Tail l) → chain s' (Head other) [] (Tail other) →
  (∀ l', l' ≠ l → l' ≠ other → same_links s s' l' (Q l')) →
  (∀ c, is_linked s' c = is_linked s c) →
  represents s' (<[other:=[]]> (<[l:=Q l ++ Q other]> Q)).
Proof.
  intros Hne Hl Ho Hsame Hlk.
  set (Q' := <[other:=[]]> _).
  assert (Q' l = Q l ++ Q other) as HQl by (unfold Q'; links).
  assert (Q' other = []) as HQo by (unfold Q'; links).
  assert (∀ l', l' ≠ l → l' ≠ other → Q' l' = Q l') as HQ' by (intros; unfold Q'; links).
  clearbody Q'.
  assert (∀ l' c, c ∈ Q' l' → l' ≠ other ∧ (c ∈ Q l' ∨ l' = l ∧ c ∈ Q other)) as Hin.
  { intros l' c. destruct (decide (l' = l)) as [->|]; [rewrite HQl, elem_of_app; tauto|].
    destruct (decide (l' = other)) as [->|]; [by rewrite HQo; intros ?%elem_of_nil|].
    rewrite HQ' by done. auto. }
  split.
  - intros l'. destruct (decide (l' = l)) as [->|]; [by rewrite HQl|].
    destruct (decide (l' = other)) as [->|]; [by rewrite HQo|].
    rewrite HQ' by done. destruct (Hsame l') as (?&?&?); [done..|].
    by eapply chain_frame; [apply HR|..].
  - intros l'. destruct (decide (l' = l)) as [->|].
    { rewrite HQl. apply NoDup_app. split; [apply HR|split; [|apply HR]]. intros c ??; apart. }
    destruct (decide (l' = other)) as [->|]; [rewrite HQo; constructor|].
    rewrite HQ' by done. apply HR.
  - intros l1 l2 c [? [?|[-> ?]]]%Hin [? [?|[-> ?]]]%Hin; try done; [by eapply HR|apart..].
  - intros c. rewrite Hlk, (rep_linked s Q HR). split; intros [l' Hc].
    + destruct (decide (l' = other)) as [->|]; [exists l; rewrite HQl, elem_of_app; auto|].
      exists l'. destruct (decide (l' = l)) as [->|]; [rewrite HQl, elem_of_app; auto|by rewrite HQ'].
    + apply Hin in Hc as [_ [?|[-> ?]]]; eauto.
Qed.

(** add_list moves the samples of [other] to the end of [l]. *)
Lemma list_add_list_spec l other :
  l ≠ other →
  ∃ s', list_add_list l other s = Some s' ∧
    represents s' (<[other:=[]]> (<[l:=Q l ++ Q other]> Q)).
Proof.
  intros Hne. unfold list_add_list. rewrite list_is_empty_spec.
  case_bool_decide as Hother.
  - eexists; split; [done|]. apply rep_ext. intros l'.
    rewrite Hother, app_nil_r. links; congruence.
  - pose proof (rep_chain s Q HR l) as Hch. pose proof (rep_chain s Q HR other) as Hcho.
    destruct (Q other) as [|f r] eqn:HQo; [done|]. destruct Hcho as (Hf&Hpf&Hr).
    rewrite Hf, (chain_prv_end _ _ _ _ Hr), (chain_prv_end _ _ _ _ Hch).
    cbn [mbind option_bind]. set (s1 := set_previous _ _ _).
    assert (prv s1 (Change f) = Some (last_node (Head l) (Q l))) as -> by (unfold s1; by links).
    cbn [mbind option_bind]. eexists; split; [done|].
    unfold s1; clear s1. rewrite <- HQo.
    assert (f ∈ Q other) as Hfo by (rewrite HQo; apply list_elem_of_here).
    destruct (last_node_change f r) as (z&Hz&Hlz); rewrite <- HQo in Hz.
    apply rep_move; [done|rewrite HQo; apply chain_app; split|..].
    1: apply rep_retarget with []; [by rewrite app_nil_r|..].
    6: apply rep_tail_retarget with other; [done|..].
    all: rewrite ?Hlz;
      destruct (last_node_elem (Head l) (Q l)) as [Hl|(d&Hd&Hl)]; rewrite ?Hl; by frame.
Qed.

(** swap moves the samples of [other] into an empty list. *)
Lemma list_swap_spec l other :
  l ≠ other → Q l = [] →
  ∃ s', list_swap l other s = Some s' ∧
    represents s' (<[other:=[]]> (<[l:=Q other]> Q)).
Proof.
  intros Hne Hl. unfold list_swap. rewrite list_is_empty_spec.
  assert (Q other = Q l ++ Q other) as Hcs by (by rewrite Hl).
  pose proof (rep_chain s Q HR l) as Hch. rewrite Hl in Hch. destruct Hch as [Hn Hp].
  case_bool_decide as Hother.
  - eexists; split; [done|]. rewrite Hcs. apply rep_move; [done|..].
    all: rewrite ?Hl, ?Hother; try by frame.
    pose proof (rep_chain s Q HR other) as Hcho. rewrite Hother in Hcho. destruct Hcho. by frame.
  - pose proof (rep_chain s Q HR other) as Hcho.
    destruct (Q other) as [|f r] eqn:HQo; [done|]. destruct Hcho as (Hf&Hpf&Hr).
    assert (f ∈ Q other) as Hfo by (rewrite HQo; apply list_elem_of_here).
    destruct (last_node_change f r) as (z&Hz&Hlz); rewrite <- HQo in Hz.
    rewrite Hf. change (prv (set_next _ _ s) (Tail other)) with (prv s (Tail other)).
    rewrite (chain_prv_end _ _ _ _ Hr).
    set (s1 := list_clear _ _).
    assert (nxt s1 (Head l) = Some (Change f)) as -> by (unfold s1; by frame).
    cbn [mbind option_bind]. set (s2 := set_previous _ _ s1).
    assert (prv s2 (Tail l) = Some (Change z)) as -> by (unfold s2, s1; rewrite Hlz; by frame).
    cbn [mbind option_bind]. eexists; split; [done|]. unfold s2, s1; clear s1 s2.
    rewrite Hcs, <- HQo, Hlz. apply rep_move; [done|..].
    1: rewrite Hl, HQo; split; [|split]; [..|apply rep_tail_retarget with other; [done|..]].
    all: rewrite ?Hlz; by frame.
Qed.

(** Taking a sample out leaves the others in order. *)
Lemma unlink_spec l cs1 c cs2 :
  Q l = cs1 ++ c :: cs2 →
  prv s (Change c) = Some (last_node (Head l) cs1) ∧
  nxt s (Change c) = Some (first_node cs2 (Tail l)) ∧
  ∃ s', unlink c s = Some s' ∧ represents s' (<[l:=cs1 ++ cs2]> Q) ∧
        prv s' (Change c) = None ∧ nxt s' (Change c) = None.
Proof.
  intros HQ. pose proof (rep_chain s Q HR l) as Hch. rewrite HQ in Hch.
  apply chain_app in Hch as [H1 H2].
  pose proof (chain_prv_end _ _ _ _ H1) as Hp. pose proof (chain_nxt_start _ _ _ _ H2) as Hn.
  split; [done|]. split; [done|]. unfold unlink. rewrite Hp, Hn. cbn [mbind option_bind].
  eexists; split; [done|]. split; [|by links].
  pose proof (rep_nodup s Q HR l) as Hnd. rewrite HQ in Hnd.
  apply NoDup_app in Hnd as (Hnd1&Hdj&[Hc2 Hnd2]%NoDup_cons).
  assert (c ∉ cs1) as Hc1 by (intros ?; destruct (Hdj c); [done|apply list_elem_of_here]).
  assert (∀ x, x ∈ cs1 → x ∉ cs2) as Hdj' by (intros x ??; apply (Hdj x); [done|by apply list_elem_of_further]).
  assert (∀ x, x ∈ Q l ↔ x ∈ cs1 ∨ x = c ∨ x ∈ cs2) as Hin
    by (intros x; by rewrite HQ, elem_of_app, elem_of_cons).
  apply rep_update with s; [done|..].
  - destruct cs2 as [|e cs2]; simpl in *.
    + rewrite app_nil_r. apply rep_retarget with [c]; [done|..].
      all: destruct (last_node_elem (Head l) cs1) as [Hl|(d&Hd&Hl)]; rewrite ?Hl; by frame.
    + destruct H2 as (_&_&H2). apply NoDup_cons in Hnd2 as [He Hnd2].
      assert (e ∉ cs1) by (intros Hx; by apply (Hdj' e Hx), list_elem_of_here).
      rewrite not_elem_of_cons in Hc2. destruct Hc2 as [Hce Hc2].
      assert (∀ x, x ∈ cs1 → x ∉ cs2) by (intros x Hx1 ?; by apply (Hdj' x Hx1), list_elem_of_further).
      apply chain_app; split; [apply rep_retarget with (c :: e :: cs2); [done|..]|
                               apply chain_frame with s; [done|..]].
      all: destruct (last_node_elem (Head l) cs1) as [Hl|(d&Hd&Hl)]; rewrite ?Hl; by frame.
  - by apply NoDup_app.
  - intros l' x Hne Hx ?. assert (x ∈ Q l) by (rewrite Hin; apply elem_of_app in Hx; tauto). apart.
  - assert (c ∈ Q l) by (rewrite Hin; auto).
    intros l' Hne. destruct (last_node_elem (Head l) cs1) as [Hl|(d&Hd&Hl)]; rewrite ?Hl;
      [|assert (d ∈ Q l) by (rewrite Hin; auto)].
    all: destruct cs2 as [|e cs2]; simpl; [by frame|].
    all: assert (e ∈ Q l) by (rewrite Hin, elem_of_cons; auto); by frame.
  - intros x. pose proof (rep_in_linked x l). specialize (Hin x). rewrite elem_of_app.
    links; [|destruct (decide (x ∈ Q l)); intuition congruence].
    split; [done|]. intros [[?|?]|[??]]; [apart..|tauto].
Qed.

(** Putting a sample back between the nodes it was between. *)
Lemma relink_spec l cs1 c cs2 :
  Q l = cs1 ++ cs2 → is_linked s c = false →
  represents (relink c (last_node (Head l) cs1) (first_node cs2 (Tail l)) s)
    (<[l:=cs1 ++ c :: cs2]> Q).
Proof.
  intros HQ Hc. pose proof (λ l, rep_unlinked c l Hc) as Hun.
  pose proof (rep_nodup s Q HR l) as Hnd. rewrite HQ in Hnd.
  apply NoDup_app in Hnd as (Hnd1&Hdj&Hnd2).
  assert (∀ x, x ∈ Q l ↔ x ∈ cs1 ∨ x ∈ cs2) as Hin by (intros x; by rewrite HQ, elem_of_app).
  assert ((c ∉ cs1) ∧ (c ∉ cs2)) as [Hc1 Hc2].
  { pose proof (Hun l) as Hcl. rewrite Hin in Hcl. tauto. }
  apply rep_update with s; [done|..].
  - destruct cs2 as [|e cs2]; simpl in *.
    + apply chain_app; split; [apply rep_retarget with []; [done|..]|].
      all: destruct (last_node_elem (Head l) cs1) as [Hl|(d&Hd&Hl)]; rewrite ?Hl; by frame.
    + apply NoDup_cons in Hnd2 as [He Hnd2]. rewrite not_elem_of_cons in Hc2. destruct Hc2.
      assert (e ∉ cs1) by (intros Hx; by apply (Hdj e Hx), list_elem_of_here).
      assert (∀ x, x ∈ cs1 → x ∉ cs2) by (intros x Hx1 ?; by apply (Hdj x Hx1), list_elem_of_further).
      pose proof (rep_chain s Q HR l) as Hch. rewrite HQ in Hch. apply chain_app in Hch as [_ Hch].
      apply chain_app; split; [apply rep_retarget with (e :: cs2); [done|..]|].
      6: split; [|split; [|apply chain_frame with s; [done|..]]].
      all: destruct (last_node_elem (Head l) cs1) as [Hl|(d&Hd&Hl)]; rewrite ?Hl; by frame.
  - apply NoDup_app; split; [done|split]; [|by apply NoDup_cons].
    intros x ?. rewrite elem_of_cons. intros [->|?]; apart.
  - intros l' x Hne. rewrite elem_of_app, elem_of_cons. intros Hx ?.
    destruct (decide (x = c)) as [->|]; [apart|]. assert (x ∈ Q l) by (rewrite Hin; tauto). apart.
  - intros l' Hne. destruct (last_node_elem (Head l) cs1) as [Hl|(d&Hd&Hl)]; rewrite ?Hl;
      [|assert (d ∈ Q l) by (rewrite Hin; auto)].
    all: destruct cs2 as [|e cs2]; simpl; [by frame|].
    all: assert (e ∈ Q l) by (rewrite Hin, elem_of_cons; auto); by frame.
  - intros x. pose proof (rep_in_linked x l). specialize (Hin x).
    rewrite elem_of_app, elem_of_cons. unfold relink.
    destruct (decide (x ∈ Q l)); links; intuition congruence.
Qed.

Lemma list_clear_spec l : Q l = [] → represents (list_clear l s) Q.
Proof.
  intros Hl. pose proof (rep_chain s Q HR l) as Hch. rewrite Hl in Hch. destruct Hch.
  split; [|apply HR|by eapply HR|apply HR].
  intros l'. destruct (decide (l' = l)) as [->|]; [rewrite Hl; by frame|].
  apply chain_frame with s; [apply HR|..]; by frame.
Qed.

Lemma list_head_spec l : nxt s (Head l) = Some (first_node (Q l) (Tail l)).
Proof. eapply chain_nxt_start, HR. Qed.
End Operations.

(** ** The queue operations on the sequences they hold *)

Definition contents_add (l : ListId) (c : nat) (Q : ListId → list nat) : ListId → list nat :=
  <[l:=Q l ++ [c]]> Q.

Definition contents_move (l other : ListId) (Q : ListId → list nat) : ListId → list nat :=
  <[other:=[]]> (<[l:=Q l ++ Q other]> Q).

Definition contents_merge (q : Z) (Q : ListId → list nat) : ListId → list nat :=
  contents_move (mkListId q OldOnes) (mkListId q OldInterested)
    (contents_move (mkListId q NewOnes) (mkListId q NewInterested) Q).

(** New samples go before the ones sent again. *)
Definition next_sample (q : Z) (Q : ListId → list nat) : option nat :=
  head (Q (mkListId q NewOnes) ++ Q (mkListId q OldOnes)).

Lemma queue_add_interested_spec s Q q :
  represents s Q →
  ∃ s', queue_add_interested q s = Some s' ∧ represents s' (contents_merge q Q).
Proof.
  intros HR. unfold queue_add_interested.
  destruct (list_add_list_spec s Q HR (mkListId q NewOnes) (mkListId q NewInterested))
    as (s1&->&HR1); [done|]. cbn [mbind option_bind].
  by apply (list_add_list_spec s1 _ HR1).
Qed.

Lemma queue_get_next_change_spec s Q q :
  represents s Q → queue_get_next_change q s = Change <$> next_sample q Q.
Proof.
  intros HR. unfold queue_get_next_change, queue_is_empty, next_sample.
  rewrite !(list_is_empty_spec s Q HR), !(list_head_spec s Q HR).
  destruct (Q (mkListId q NewOnes)), (Q (mkListId q OldOnes)); done.
Qed.

Lemma queue_init_spec s Q q :
  represents s Q → (∀ k, Q (mkListId q k) = []) → represents (queue_init q s) Q.
Proof. intros HR HQ. unfold queue_init. by repeat (apply list_clear_spec; [|done]). Qed.

(** The merged lists hold what the interested lists held, behind what they
    held before; the interested lists are left empty. *)
Lemma contents_merge_lookup q Q l :
  contents_merge q Q l =
  if decide (li_queue l = q) then
    match li_kind l with
    | NewOnes => Q (mkListId q NewOnes) ++ Q (mkListId q NewInterested)
    | OldOnes => Q (mkListId q OldOnes) ++ Q (mkListId q OldInterested)
    | _ => []
    end
  else Q l.
Proof.
  unfold contents_merge, contents_move, insert, fn_insert. destruct l as [q' k]; simpl.
  destruct (decide (q' = q)) as [->|Hne].
  - destruct k; repeat case_decide; simplify_eq; done.
  - repeat (rewrite decide_False by congruence). done.
Qed.

(** Moving a queue to a new place in memory keeps its samples and their
    order. *)
Lemma queue_swap_spec s Q q old :
  represents s Q → q ≠ old → (∀ k, Q (mkListId q k) = []) →
  ∃ s', queue_swap q old s = Some s' ∧
    represents s' (λ l, if decide (li_queue l = q) then Q (mkListId old (li_kind l))
                        else if decide (li_queue l = old) then [] else Q l).
Proof.
  intros HR Hne HQ. unfold queue_swap.
  destruct (list_swap_spec s Q HR (mkListId q NewInterested) (mkListId old NewInterested))
    as (s1&->&HR1); [congruence|done|]. cbn [mbind option_bind].
  destruct (list_swap_spec s1 _ HR1 (mkListId q OldInterested) (mkListId old OldInterested))
    as (s2&->&HR2); [congruence|by links|]. cbn [mbind option_bind].
  destruct (list_swap_spec s2 _ HR2 (mkListId q NewOnes) (mkListId old NewOnes))
    as (s3&->&HR3); [congruence|by links|]. cbn [mbind option_bind].
  destruct (list_swap_spec s3 _ HR3 (mkListId q OldOnes) (mkListId old OldOnes))
    as (s4&->&HR4); [congruence|by links|].
  exists s4. split; [done|]. eapply rep_ext; [done|]. intros [q' k]; simpl.
  destruct (decide (q' = q)) as [->|]; [destruct k; by links|].
  destruct (decide (q' = old)) as [->|]; [destruct k; by links|].
  unfold insert, fn_insert. by repeat (rewrite decide_False by congruence).
Qed.
