(* ===== verification/FlowScheduler.v ===== *)
(** The four sample schedulers of the flow controllers: FIFO, round robin,
    high priority, and priority with bandwidth reservation.

    Source: src/src/cpp/rtps/flowcontrol/FlowControllerImpl.hpp, structs
    FlowControllerFifoSchedule to FlowControllerPriorityWithReservationSchedule.
    The class [FlowScheduler] lists the operations the controller template
    calls on its scheduler parameter, with one instance per struct.  A queue
    is named by what identifies it in its container: the writer whose tuple
    holds it, or its priority.  Looking up a writer that is not there, which
    the source excludes with assertions, is [None]. *)

From Stdlib Require Import ZArith Lia ZifyBool.
From stdpp Require Import base numbers option functions list.
From S2P Require Import Prelude SequenceNumber Guid CacheChange FlowQueue.

Local Open Scope Z_scope.

(** ** Writers and their properties *)

(** A registered writer: its identity and the texts of the properties
    fastdds.sfc.priority and fastdds.sfc.bandwidth_reservation. *)
Record FlowWriter := mkFlowWriter {
  fw_id : Z;
  fw_priority : option (list Z);
  fw_reservation : option (list Z)
}.

Definition is_space (c : Z) : bool := (c =? 32) || ((9 <=? c) && (c <=? 13)).

Fixpoint skip_space (s : list Z) : list Z :=
  match s with
  | c :: r => if is_space c then skip_space r else s
  | [] => []
  end.

Fixpoint read_digits (acc : option Z) (s : list Z) : option Z :=
  match s with
  | c :: r =>
      if (48 <=? c) && (c <=? 57)
      then read_digits (Some (default 0 acc * 10 + (c - 48))) r
      else acc
  | [] => acc
  end.

(** The sign and the digits of a decimal number; [None] when there is no
    digit, which the callers see as an end pointer equal to the text. *)
Definition read_number (s : list Z) : option (bool * Z) :=
  match skip_space s with
  | 45 :: r => n ← read_digits None r; Some (true, n)
  | 43 :: r => n ← read_digits None r; Some (false, n)
  | r => n ← read_digits None r; Some (false, n)
  end.

Definition strtol (s : list Z) : option Z :=
  '(neg, n) ← read_number s;
  Some (Z.max (- 2 ^ 63) (Z.min (2 ^ 63 - 1) (if neg : bool then - n else n))).

Definition strtoul (s : list Z) : option Z :=
  '(neg, n) ← read_number s;
  Some (if 2 ^ 64 <=? n then 2 ^ 64 - 1 else if neg : bool then u64 (- n) else n).

Definition writer_priority (w : FlowWriter) : Z :=
  match fw_priority w with
  | None => 10
  | Some text =>
      match strtol text with
      | Some v =>
          let priority := i32 v in
          if (priority <? -10) || (10 <? priority) then 10 else priority
      | None => 10
      end
  end.

Definition writer_reservation (w : FlowWriter) : Z :=
  match fw_reservation w with
  | None => 0
  | Some text =>
      match strtoul text with
      | Some v => let reservation := u32 v in if 100 <? reservation then 0 else reservation
      | None => 0
      end
  end.

(** ** The interface *)

(** What FlowControllerImpl calls on its scheduler.  [sch_get_next] reads the
    sizes of the samples. *)
Class FlowScheduler (S : Type) := {
  sch_register : FlowWriter → S → Store → option (S * Store);
  sch_unregister : Z → S → option S;
  sch_work_done : S → option S;
  sch_add_new : Z → nat → S → Store → option Store;
  sch_add_old : Z → nat → S → Store → option Store;
  sch_get_next : (nat → CacheChange_t) → S → Store → option (option Node * S);
  sch_add_interested : S → Store → option Store;
  sch_set_limit : Z → S → S;
  sch_reset : S → S
}.

(** add_interested_changes_to_queue over the queues of a container. *)
Fixpoint merge_queues (qs : list Z) (s : Store) : option Store :=
  match qs with
  | [] => Some s
  | q :: qs => s ← queue_add_interested q s; merge_queues qs s
  end.

(** ** FIFO: one queue for every writer *)

Record FifoSchedule := mkFifo {}.

#[export] Instance fifo_scheduler : FlowScheduler FifoSchedule := {|
  sch_register := λ _ sc s, Some (sc, s);
  sch_unregister := λ _ sc, Some sc;
  sch_work_done := λ sc, Some sc;
  sch_add_new := λ _ c _ s, queue_add_new_sample 0 c s;
  sch_add_old := λ _ c _ s, queue_add_old_sample 0 c s;
  sch_get_next := λ _ sc s, Some (queue_get_next_change 0 s, sc);
  sch_add_interested := λ _ s, queue_add_interested 0 s;
  sch_set_limit := λ _ sc, sc;
  sch_reset := λ sc, sc
|}.

(** ** Round robin: a vector of writers and an iterator into it *)

(** [rr_next] equal to the length of the vector is its end iterator. *)
Record RoundRobinSchedule := mkRoundRobin {
  rr_writers : list Z;
  rr_next : nat
}.

(** std::find_if: the index of the writer, or the end. *)
Fixpoint rr_find (w : Z) (ws : list Z) : nat :=
  match ws with
  | [] => 0
  | x :: ws => if w =? x then 0 else S (rr_find w ws)
  end.

Definition rr_register (w : FlowWriter) (sc : RoundRobinSchedule) : RoundRobinSchedule :=
  let current_writer := rr_writers sc !! rr_next sc in
  let ws := rr_writers sc ++ [fw_id w] in
  mkRoundRobin ws
    match current_writer with
    | None => 0
    | Some current => rr_find current ws
    end.

(** Moving past the end of the vector is undefined. *)
Definition rr_set_next_writer (sc : RoundRobinSchedule) : option RoundRobinSchedule :=
  if decide (rr_next sc < length (rr_writers sc))%nat then
    let next := S (rr_next sc) in
    Some (mkRoundRobin (rr_writers sc)
            (if decide (next = length (rr_writers sc)) then 0%nat else next))
  else None.

Definition rr_unregister (w : Z) (sc : RoundRobinSchedule) : option RoundRobinSchedule :=
  current_writer ← rr_writers sc !! rr_next sc;
  let it := rr_find w (rr_writers sc) in
  if decide (it = length (rr_writers sc)) then None
  else
    sc ← (if decide (it = rr_next sc) then rr_set_next_writer sc else Some sc);
    current_writer ← rr_writers sc !! rr_next sc;
    let ws := delete it (rr_writers sc) in
    Some (mkRoundRobin ws (if w =? current_writer then 0%nat else rr_find current_writer ws)).

Definition rr_add (add : Z → nat → Store → option Store) (w : Z) (c : nat)
    (sc : RoundRobinSchedule) (s : Store) : option Store :=
  if decide (rr_find w (rr_writers sc) = length (rr_writers sc)) then None
  else add w c s.

(** The do-while loop of get_next_change_nts, [fuel] rounds at most. *)
Fixpoint rr_scan (fuel : nat) (start : nat) (sc : RoundRobinSchedule) (s : Store) :
    option (option Node * RoundRobinSchedule) :=
  match fuel with
  | O => None
  | S fuel =>
      w ← rr_writers sc !! rr_next sc;
      match queue_get_next_change w s with
      | Some n => Some (Some n, sc)
      | None =>
          sc ← rr_set_next_writer sc;
          if decide (start = rr_next sc) then Some (None, sc) else rr_scan fuel start sc s
      end
  end.

Definition rr_get_next (sc : RoundRobinSchedule) (s : Store) :
    option (option Node * RoundRobinSchedule) :=
  if decide (0 < length (rr_writers sc))%nat
  then rr_scan (length (rr_writers sc)) (rr_next sc) sc s
  else Some (None, sc).

#[export] Instance rr_scheduler : FlowScheduler RoundRobinSchedule := {|
  sch_register := λ w sc s, Some (rr_register w sc, queue_init (fw_id w) s);
  sch_unregister := rr_unregister;
  sch_work_done := rr_set_next_writer;
  sch_add_new := rr_add queue_add_new_sample;
  sch_add_old := rr_add queue_add_old_sample;
  sch_get_next := λ _, rr_get_next;
  sch_add_interested := λ sc, merge_queues (rr_writers sc);
  sch_set_limit := λ _ sc, sc;
  sch_reset := λ sc, sc
|}.

(** ** High priority: a queue per priority, lowest number first *)

(** [hp_queues] are the keys of the map of queues, in the map's order. *)
Record HighPrioritySchedule := mkHighPriority {
  hp_queues : list Z;
  hp_priorities : list (Z * Z)
}.

(** A key of an ordered map, created when it is not there. *)
Fixpoint key_insert (k : Z) (ks : list Z) : list Z :=
  match ks with
  | [] => [k]
  | x :: r => if k <? x then k :: ks else if k =? x then ks else x :: key_insert k r
  end.

Fixpoint assoc {A} (k : Z) (l : list (Z * A)) : option A :=
  match l with
  | [] => None
  | (x, a) :: l => if k =? x then Some a else assoc k l
  end.

Definition hp_register (w : FlowWriter) (sc : HighPrioritySchedule) (s : Store) :
    HighPrioritySchedule * Store :=
  let priority := writer_priority w in
  (mkHighPriority (key_insert priority (hp_queues sc))
     match assoc (fw_id w) (hp_priorities sc) with
     | Some _ => hp_priorities sc
     | None => (fw_id w, priority) :: hp_priorities sc
     end,
   if decide (priority ∈ hp_queues sc) then s else queue_init priority s).

Definition hp_unregister (w : Z) (sc : HighPrioritySchedule) : option HighPrioritySchedule :=
  _ ← assoc w (hp_priorities sc);
  Some (mkHighPriority (hp_queues sc) (filter (λ e, e.1 ≠ w) (hp_priorities sc))).

Definition hp_find_queue (w : Z) (sc : HighPrioritySchedule) : option Z :=
  priority ← assoc w (hp_priorities sc);
  if decide (priority ∈ hp_queues sc) then Some priority else None.

Definition hp_add (add : Z → nat → Store → option Store) (w : Z) (c : nat)
    (sc : HighPrioritySchedule) (s : Store) : option Store :=
  q ← hp_find_queue w sc; add q c s.

Fixpoint hp_get_next (qs : list Z) (s : Store) : option Node :=
  match qs with
  | [] => None
  | q :: qs =>
      match queue_get_next_change q s with
      | Some n => Some n
      | None => hp_get_next qs s
      end
  end.

#[export] Instance hp_scheduler : FlowScheduler HighPrioritySchedule := {|
  sch_register := λ w sc s, Some (hp_register w sc s);
  sch_unregister := hp_unregister;
  sch_work_done := λ sc, Some sc;
  sch_add_new := hp_add queue_add_new_sample;
  sch_add_old := hp_add queue_add_old_sample;
  sch_get_next := λ _ sc s, Some (hp_get_next (hp_queues sc) s, sc);
  sch_add_interested := λ sc, merge_queues (hp_queues sc);
  sch_set_limit := λ _ sc, sc;
  sch_reset := λ sc, sc
|}.

(** ** Priority with reservation *)

(** A writer's tuple: priority, reserved bytes and bytes used of them in the
    current period.  Its queue is named by the writer. *)
Record Reservation := mkReservation {
  rs_priority : Z;
  rs_bytes : Z;
  rs_used : Z
}.

Record PriorityReservationSchedule := mkPriorityReservation {
  pr_writers : list (Z * Reservation);
  pr_priorities : list (Z * list Z);
  bandwidth_limit_ : Z;
  writer_being_processed_ : option Z;
  size_being_processed_ : Z
}.

(** Both factors are 32-bit, and so is their product. *)
Definition reservation_bytes (limit reservation : Z) : Z :=
  if limit =? 0 then 0 else u32 (limit * reservation) / 100.

(** [priorities_[priority].push_back(writer)] *)
Fixpoint priority_push (priority w : Z) (l : list (Z * list Z)) : list (Z * list Z) :=
  match l with
  | [] => [(priority, [w])]
  | (p, ws) :: r =>
      if priority <? p then (priority, [w]) :: l
      else if priority =? p then (p, ws ++ [w]) :: r
      else (p, ws) :: priority_push priority w r
  end.

Definition pr_register (w : FlowWriter) (sc : PriorityReservationSchedule) (s : Store) :
    PriorityReservationSchedule * Store :=
  let priority := writer_priority w in
  let entry := mkReservation priority
    (reservation_bytes (bandwidth_limit_ sc) (writer_reservation w)) 0 in
  let fresh := match assoc (fw_id w) (pr_writers sc) with None => true | Some _ => false end in
  (mkPriorityReservation
     (if fresh then (fw_id w, entry) :: pr_writers sc else pr_writers sc)
     (priority_push priority (fw_id w) (pr_priorities sc))
     (bandwidth_limit_ sc) (writer_being_processed_ sc) (size_being_processed_ sc),
   if fresh then queue_init (fw_id w) s else s).

(** std::vector::erase of the element std::find returns. *)
Fixpoint erase_first (w : Z) (ws : list Z) : list Z :=
  match ws with
  | [] => []
  | x :: r => if w =? x then r else x :: erase_first w r
  end.

Definition pr_unregister (w : Z) (sc : PriorityReservationSchedule) :
    option PriorityReservationSchedule :=
  match assoc w (pr_writers sc) with
  | None => Some sc
  | Some entry =>
      ws ← assoc (rs_priority entry) (pr_priorities sc);
      if decide (w ∈ ws) then
        Some (mkPriorityReservation
                (filter (λ e, e.1 ≠ w) (pr_writers sc))
                ((λ e : Z * list Z,
                    if e.1 =? rs_priority entry then (e.1, erase_first w e.2) else e) <$>
                 pr_priorities sc)
                (bandwidth_limit_ sc) (writer_being_processed_ sc) (size_being_processed_ sc))
      else None
  end.

(** std::get<3>(writer->second) = f(...) *)
Definition pr_set_used (w : Z) (f : Z → Z) (l : list (Z * Reservation)) : list (Z * Reservation) :=
  (λ e : Z * Reservation,
     if e.1 =? w
     then (e.1, mkReservation (rs_priority e.2) (rs_bytes e.2) (f (rs_used e.2)))
     else e) <$> l.

Definition pr_work_done (sc : PriorityReservationSchedule) : PriorityReservationSchedule :=
  match writer_being_processed_ sc with
  | None => sc
  | Some w =>
      mkPriorityReservation
        (pr_set_used w (λ used, u32 (used + size_being_processed_ sc)) (pr_writers sc))
        (pr_priorities sc) (bandwidth_limit_ sc) None 0
  end.

Definition pr_add (add : Z → nat → Store → option Store) (w : Z) (c : nat)
    (sc : PriorityReservationSchedule) (s : Store) : option Store :=
  _ ← assoc w (pr_writers sc); add w c s.

Definition size_to_check (change : CacheChange_t) : Z :=
  if fragment_count_ change =? 0 then pl_length (serializedPayload change)
  else fragment_size_ change.

Definition change_of (n : Node) : option nat :=
  match n with Change c => Some c | _ => None end.

(** The loop over the writers of one priority: the first sample seen, and the
    sample, writer and size the loop stops at. *)
Fixpoint pr_scan_writers (sample : nat → CacheChange_t) (sc : PriorityReservationSchedule)
    (s : Store) (highest : option Node) (ws : list Z) :
    option (option Node * option (Node * Z * Z)) :=
  match ws with
  | [] => Some (highest, None)
  | w :: ws =>
      entry ← assoc w (pr_writers sc);
      let change := queue_get_next_change w s in
      let highest := match highest with None => change | Some _ => highest end in
      match change with
      | None => pr_scan_writers sample sc s highest ws
      | Some n =>
          c ← change_of n;
          let size := size_to_check (sample c) in
          if rs_bytes entry >? u32 (rs_used entry + size)
          then Some (highest, Some (n, w, size))
          else pr_scan_writers sample sc s highest ws
      end
  end.

Fixpoint pr_scan (sample : nat → CacheChange_t) (sc : PriorityReservationSchedule)
    (s : Store) (highest : option Node) (ps : list (Z * list Z)) :
    option (option Node * option (Node * Z * Z)) :=
  match ps with
  | [] => Some (highest, None)
  | (_, ws) :: ps =>
      '(highest, ret) ← pr_scan_writers sample sc s highest ws;
      match ret with
      | Some r => Some (highest, Some r)
      | None => pr_scan sample sc s highest ps
      end
  end.

Definition pr_get_next (sample : nat → CacheChange_t) (sc : PriorityReservationSchedule)
    (s : Store) : option (option Node * PriorityReservationSchedule) :=
  match pr_writers sc with
  | [] => Some (None, sc)
  | _ =>
      '(highest, ret) ← pr_scan sample sc s None (pr_priorities sc);
      match ret with
      | Some (n, w, size) =>
          Some (Some n, mkPriorityReservation (pr_writers sc) (pr_priorities sc)
                          (bandwidth_limit_ sc) (Some w) size)
      | None => Some (highest, sc)
      end
  end.

Definition pr_set_limit (limit : Z) (sc : PriorityReservationSchedule) :
    PriorityReservationSchedule :=
  mkPriorityReservation (pr_writers sc) (pr_priorities sc) limit
    (writer_being_processed_ sc) (size_being_processed_ sc).

Definition pr_reset (sc : PriorityReservationSchedule) : PriorityReservationSchedule :=
  mkPriorityReservation
    ((λ e : Z * Reservation, (e.1, mkReservation (rs_priority e.2) (rs_bytes e.2) 0)) <$>
     pr_writers sc)
    (pr_priorities sc) (bandwidth_limit_ sc)
    (writer_being_processed_ sc) (size_being_processed_ sc).

#[export] Instance pr_scheduler : FlowScheduler PriorityReservationSchedule := {|
  sch_register := λ w sc s, Some (pr_register w sc s);
  sch_unregister := pr_unregister;
  sch_work_done := λ sc, Some (pr_work_done sc);
  sch_add_new := pr_add queue_add_new_sample;
  sch_add_old := pr_add queue_add_old_sample;
  sch_get_next := pr_get_next;
  sch_add_interested := λ sc, merge_queues (pr_writers sc).*1;
  sch_set_limit := pr_set_limit;
  sch_reset := pr_reset
|}.
