(* ===== verification/FlowSchedulerLaws.v ===== *)
(** What a flow controller relies on in its scheduler, as a class of laws,
    and the proof that each of the four schedulers keeps them. *)

From Stdlib Require Import ZArith Lia ZifyBool Sorting.Sorted.
From stdpp Require Import base numbers option functions sets list.
From S2P Require Import Prelude SequenceNumber Guid CacheChange FlowQueue FlowScheduler.

Local Open Scope Z_scope.

(** [sch_inv sc ws]: the scheduler is consistent and [ws] are its writers.
    [sch_queue] is the queue of a writer, [sch_queues] every queue the
    scheduler looks at. *)
Class SchedulerLaws (S : Type) `{FlowScheduler S} := {
  sch_inv : S → list Z → Prop;
  sch_queue : S → Z → option Z;
  sch_queues : S → list Z;

  sch_queue_in sc ws w :
    sch_inv sc ws → w ∈ ws → ∃ q, sch_queue sc w = Some q ∧ q ∈ sch_queues sc;

  sch_add_new_spec sc ws w q c s :
    sch_inv sc ws → w ∈ ws → sch_queue sc w = Some q →
    sch_add_new w c sc s = queue_add_new_sample q c s;

  sch_add_old_spec sc ws w q c s :
    sch_inv sc ws → w ∈ ws → sch_queue sc w = Some q →
    sch_add_old w c sc s = queue_add_old_sample q c s;

  sch_add_interested_spec sc s :
    sch_add_interested sc s = merge_queues (sch_queues sc) s;

  (* a scheduler returns a sample from the front of one of its queues, and
     none only when all of them are empty *)
  sch_get_next_spec sample sc ws s Q :
    sch_inv sc ws → represents s Q →
    ∃ r sc', sch_get_next sample sc s = Some (Change <$> r, sc') ∧
      sch_inv sc' ws ∧ sch_queues sc' = sch_queues sc ∧
      (∀ w, sch_queue sc' w = sch_queue sc w) ∧
      match r with
      | None => ∀ q, q ∈ sch_queues sc → next_sample q Q = None
      | Some c => ∃ q, q ∈ sch_queues sc ∧ next_sample q Q = Some c
      end;

  sch_work_done_spec sc ws :
    sch_inv sc ws → ws ≠ [] →
    ∃ sc', sch_work_done sc = Some sc' ∧ sch_inv sc' ws ∧
      sch_queues sc' = sch_queues sc ∧ ∀ w, sch_queue sc' w = sch_queue sc w;

  sch_register_spec sc ws w s Q :
    sch_inv sc ws → fw_id w ∉ ws → represents s Q →
    (∀ l, li_queue l ∉ sch_queues sc → Q l = []) →
    ∃ sc' s', sch_register w sc s = Some (sc', s') ∧
      sch_inv sc' (fw_id w :: ws) ∧ represents s' Q ∧
      ∀ w', w' ∈ ws → sch_queue sc' w' = sch_queue sc w';

  sch_unregister_spec sc ws w :
    sch_inv sc ws → w ∈ ws →
    ∃ sc', sch_unregister w sc = Some sc' ∧
      sch_inv sc' (filter (λ x, x ≠ w) ws) ∧
      ∀ w', w' ∈ ws → w' ≠ w → sch_queue sc' w' = sch_queue sc w';

  sch_reset_spec sc ws :
    sch_inv sc ws →
    sch_inv (sch_reset sc) ws ∧ sch_queues (sch_reset sc) = sch_queues sc ∧
    ∀ w, sch_queue (sch_reset sc) w = sch_queue sc w;

  sch_limit_spec sc ws limit :
    sch_inv sc ws → sch_inv (sch_set_limit limit sc) ws
}.

(** ** FIFO *)

#[export] Instance fifo_laws : SchedulerLaws FifoSchedule.
Proof.
  apply (Build_SchedulerLaws _ _ (λ _ _, True) (λ _ _, Some 0) (λ _, [0])).
  - intros. exists 0. split; [done|apply list_elem_of_here].
  - by intros ?????? _ _ [= <-].
  - by intros ?????? _ _ [= <-].
  - intros. simpl. by destruct (queue_add_interested 0 s).
  - intros sample sc ws s Q _ HR. exists (next_sample 0 Q), sc. simpl.
    rewrite (queue_get_next_change_spec s Q 0 HR). do 4 (split; [done|]).
    destruct (next_sample 0 Q) eqn:Hn.
    + exists 0. split; [apply list_elem_of_here|done].
    + by intros q ->%list_elem_of_singleton.
  - intros sc ws _ _. by exists sc.
  - intros sc ws w s Q _ _ HR _. by exists sc, s.
  - intros sc ws w _ _. by exists sc.
  - done.
  - done.
Defined.

(** ** Round robin *)

Definition rr_inv (sc : RoundRobinSchedule) (ws : list Z) : Prop :=
  NoDup (rr_writers sc) ∧ (∀ w, w ∈ rr_writers sc ↔ w ∈ ws) ∧
  (rr_writers sc ≠ [] → (rr_next sc < length (rr_writers sc))%nat).

Lemma rr_find_in w ws : w ∈ ws → ws !! rr_find w ws = Some w.
Proof.
  induction ws as [|x ws IH]; [by intros ?%elem_of_nil|].
  rewrite elem_of_cons. simpl. destruct (Z.eqb_spec w x) as [->|]; [done|].
  intros [?|?]; [done|]. by apply IH.
Qed.

Lemma rr_find_notin w ws : w ∉ ws → rr_find w ws = length ws.
Proof.
  induction ws as [|x ws IH]; [done|]. rewrite not_elem_of_cons. intros [Hx Hw]. simpl.
  destruct (Z.eqb_spec w x); [done|]. by rewrite IH.
Qed.

Lemma rr_find_lt w ws : w ∈ ws → (rr_find w ws < length ws)%nat.
Proof. intros Hw. by eapply lookup_lt_Some, rr_find_in. Qed.

Lemma rr_next_spec sc :
  (rr_next sc < length (rr_writers sc))%nat →
  ∃ sc', rr_set_next_writer sc = Some sc' ∧ rr_writers sc' = rr_writers sc ∧
    (rr_next sc' < length (rr_writers sc))%nat ∧
    (rr_next sc' = (rr_next sc + 1) mod length (rr_writers sc))%nat.
Proof.
  intros Hlt. unfold rr_set_next_writer. rewrite decide_True by done.
  eexists; split; [done|]. split; [done|]. simpl.
  case_decide as Heq; (split; [lia|]).
  - by rewrite Nat.add_1_r, Heq, Nat.Div0.mod_same.
  - rewrite Nat.mod_small; lia.
Qed.

(** The cyclic position [k] places after [a]. *)
Definition rr_at (sc : RoundRobinSchedule) (a k : nat) : nat :=
  ((a + k) mod length (rr_writers sc))%nat.

Lemma rr_step_mod n a k :
  (0 < n)%nat → (((a + k) mod n + 1) mod n = (a + S k) mod n)%nat.
Proof. intros. rewrite Nat.Div0.add_mod_idemp_l. f_equal. lia. Qed.

Lemma rr_wrap_mod n a k :
  (a < n)%nat → (k < n)%nat → ((a + S k) mod n = a)%nat ↔ S k = n.
Proof.
  intros Ha Hk. split.
  - intros Heq. destruct (decide (a + S k < n)%nat); [rewrite Nat.mod_small in Heq; lia|].
    replace (a + S k)%nat with ((a + S k - n) + 1 * n)%nat in Heq by lia.
    rewrite Nat.Div0.mod_add, Nat.mod_small in Heq; lia.
  - intros <-. replace (a + S k)%nat with (a + 1 * S k)%nat by lia.
    rewrite Nat.Div0.mod_add. by apply Nat.mod_small.
Qed.

(** The loop returns the first pending sample in cyclic order, leaving the
    iterator on its writer. *)
Lemma rr_scan_spec s Q a fuel k sc :
  represents s Q →
  (a < length (rr_writers sc))%nat → (k + fuel = length (rr_writers sc))%nat →
  (k < length (rr_writers sc))%nat → rr_next sc = rr_at sc a k →
  ∃ r sc', rr_scan fuel a sc s = Some (Change <$> r, sc') ∧
    rr_writers sc' = rr_writers sc ∧
    match r with
    | None => rr_next sc' = a ∧
        ∀ j w, (k ≤ j < length (rr_writers sc))%nat →
          rr_writers sc !! rr_at sc a j = Some w → next_sample w Q = None
    | Some c => ∃ j w, (k ≤ j < length (rr_writers sc))%nat ∧
        rr_next sc' = rr_at sc a j ∧ rr_writers sc !! rr_at sc a j = Some w ∧
        next_sample w Q = Some c ∧
        ∀ i w', (k ≤ i < j)%nat →
          rr_writers sc !! rr_at sc a i = Some w' → next_sample w' Q = None
    end.
Proof.
  intros HR. revert k sc. induction fuel as [|fuel IH]; intros k sc Ha Hf Hk Hn; [lia|].
  assert (rr_next sc < length (rr_writers sc))%nat as Hlt
    by (rewrite Hn; apply Nat.mod_upper_bound; lia).
  destruct (lookup_lt_is_Some_2 _ _ Hlt) as [w Hw].
  simpl. rewrite Hw. cbn [mbind option_bind]. rewrite (queue_get_next_change_spec s Q w HR).
  destruct (next_sample w Q) as [c|] eqn:Hs; simpl.
  { exists (Some c), sc. split; [done|]. split; [done|]. exists k, w.
    rewrite <- Hn. repeat (split; [done || lia|]). intros; lia. }
  destruct (rr_next_spec sc Hlt) as (sc'&->&Hws&Hlt'&Hn'). cbn [mbind option_bind].
  assert (rr_next sc' = rr_at sc a (S k)) as Hsk
    by (rewrite Hn', Hn; apply rr_step_mod; lia).
  assert (∀ i w', (k ≤ i)%nat → (i < S k)%nat →
     rr_writers sc !! rr_at sc a i = Some w' → next_sample w' Q = None) as Hfirst.
  { intros i w' ??. replace i with k by lia. rewrite <- Hn, Hw. congruence. }
  case_decide as Hwrap.
  - exists None, sc'. split; [done|]. split; [done|]. split; [done|].
    rewrite Hsk in Hwrap. symmetry in Hwrap. apply rr_wrap_mod in Hwrap; [|lia..].
    intros j w' ?. apply Hfirst; lia.
  - assert (S k ≠ length (rr_writers sc)).
    { intros Hx. apply Hwrap. rewrite Hsk. symmetry. by apply rr_wrap_mod. }
    destruct (IH (S k) sc') as (r&sc''&->&Hws''&Hr); [rewrite ?Hws; try lia..|].
    { rewrite Hsk. unfold rr_at. by rewrite Hws. }
    unfold rr_at in *. rewrite Hws in *. exists r, sc''. split; [done|]. split; [done|].
    destruct r as [c|].
    + destruct Hr as (j&w'&?&?&?&?&Hr). exists j, w'. split; [lia|]. do 3 (split; [done|]).
      intros i w'' ??. destruct (decide (i = k)); [eapply (Hfirst i)|eapply (Hr i)]; (done || lia).
    + destruct Hr as [? Hr]. split; [done|].
      intros i w'' ??. destruct (decide (i = k)); [eapply (Hfirst i)|eapply (Hr i)]; (done || lia).
Qed.

Lemma rr_at_onto sc a w :
  w ∈ rr_writers sc → (a < length (rr_writers sc))%nat →
  ∃ j, (j < length (rr_writers sc))%nat ∧ rr_writers sc !! rr_at sc a j = Some w.
Proof.
  intros Hw Ha. pose proof (rr_find_in w _ Hw) as Hf. pose proof (rr_find_lt w _ Hw) as Hlt.
  set (n := length (rr_writers sc)) in *. set (i := rr_find w (rr_writers sc)) in *.
  exists ((i + n - a) mod n)%nat. split; [apply Nat.mod_upper_bound; lia|].
  unfold rr_at. fold n. rewrite Nat.Div0.add_mod_idemp_r.
  replace (a + (i + n - a))%nat with (i + 1 * n)%nat by lia.
  by rewrite Nat.Div0.mod_add, Nat.mod_small.
Qed.

(** What get_next_change_nts returns, by position after the iterator. *)
Lemma rr_get_next_spec s Q sc :
  represents s Q → (rr_writers sc ≠ [] → (rr_next sc < length (rr_writers sc))%nat) →
  ∃ r sc', rr_get_next sc s = Some (Change <$> r, sc') ∧
    rr_writers sc' = rr_writers sc ∧
    match r with
    | None => rr_next sc' = rr_next sc ∧ ∀ w, w ∈ rr_writers sc → next_sample w Q = None
    | Some c => ∃ j w, (j < length (rr_writers sc))%nat ∧
        rr_next sc' = rr_at sc (rr_next sc) j ∧
        rr_writers sc !! rr_at sc (rr_next sc) j = Some w ∧ next_sample w Q = Some c ∧
        ∀ i w', (i < j)%nat →
          rr_writers sc !! rr_at sc (rr_next sc) i = Some w' → next_sample w' Q = None
    end.
Proof.
  intros HR Hn. unfold rr_get_next. case_decide as Hlen.
  - assert (rr_next sc < length (rr_writers sc))%nat as Hlt
      by (apply Hn; intros Hx; rewrite Hx in Hlen; simpl in Hlen; lia).
    destruct (rr_scan_spec s Q (rr_next sc) (length (rr_writers sc)) 0 sc HR)
      as (r&sc'&->&Hws&Hr); [lia..| |].
    { unfold rr_at. rewrite Nat.add_0_r. symmetry. by apply Nat.mod_small. }
    exists r, sc'. split; [done|]. split; [done|]. destruct r as [c|].
    + destruct Hr as (j&w&?&?&?&?&Hr). exists j, w. split; [lia|]. do 3 (split; [done|]).
      intros i w' ?. apply Hr. lia.
    + destruct Hr as [? Hr]. split; [done|]. intros w Hw.
      destruct (rr_at_onto sc (rr_next sc) w Hw Hlt) as (j&?&Hj). by apply (Hr j); [lia|].
  - exists None, sc. split; [done|]. split; [done|]. split; [done|].
    destruct (rr_writers sc); simpl in *; [by intros w ?%elem_of_nil|lia].
Qed.

Lemma rr_register_inv w sc ws :
  rr_inv sc ws → fw_id w ∉ ws → rr_inv (rr_register w sc) (fw_id w :: ws).
Proof.
  intros (Hnd&Hin&Hn) Hw. unfold rr_register. split; [|split]; simpl.
  - apply NoDup_app. split; [done|]. split; [|apply NoDup_singleton].
    intros x Hx ->%list_elem_of_singleton. by apply Hw, Hin.
  - intros x. rewrite elem_of_app, elem_of_cons, elem_of_nil, elem_of_cons, Hin. tauto.
  - intros _. destruct (rr_writers sc !! rr_next sc) as [cur|] eqn:Hcur.
    + apply rr_find_lt, elem_of_app. left. by eapply list_elem_of_lookup_2.
    + rewrite length_app. simpl. lia.
Qed.

Lemma delete_in {A} (l : list A) i x y :
  NoDup l → l !! i = Some x → y ∈ delete i l ↔ y ∈ l ∧ y ≠ x.
Proof.
  intros Hnd Hi. pose proof (delete_Permutation l i x Hi) as Hp.
  rewrite Hp in Hnd. apply NoDup_cons in Hnd as [Hx _].
  rewrite Hp at 2. rewrite elem_of_cons. split; [|tauto].
  intros Hy. split; [by right|]. by intros ->.
Qed.

Lemma rr_unregister_inv w sc ws :
  rr_inv sc ws → w ∈ ws →
  ∃ sc', rr_unregister w sc = Some sc' ∧ rr_inv sc' (filter (λ x, x ≠ w) ws).
Proof.
  intros (Hnd&Hin&Hn) Hw. assert (w ∈ rr_writers sc) as Hw' by (by apply Hin).
  assert (rr_next sc < length (rr_writers sc))%nat as Hlt
    by (apply Hn; intros Hx; rewrite Hx in Hw'; by apply elem_of_nil in Hw').
  pose proof (rr_find_in w _ Hw') as Hf. pose proof (rr_find_lt w _ Hw') as Hfl.
  unfold rr_unregister. destruct (lookup_lt_is_Some_2 _ _ Hlt) as [cur ->].
  cbn [mbind option_bind]. rewrite decide_False by lia.
  assert (∃ sc', (if decide (rr_find w (rr_writers sc) = rr_next sc)
                  then rr_set_next_writer sc else Some sc) = Some sc' ∧
            rr_writers sc' = rr_writers sc ∧ (rr_next sc' < length (rr_writers sc))%nat)
    as (sc'&->&Hws&Hlt').
  { case_decide; [|by exists sc]. destruct (rr_next_spec sc Hlt) as (sc'&?&?&?&_). by exists sc'. }
  cbn [mbind option_bind]. rewrite Hws.
  destruct (lookup_lt_is_Some_2 _ _ Hlt') as [cur' Hcur]. rewrite Hcur.
  cbn [mbind option_bind]. eexists; split; [done|].
  assert (∀ x, x ∈ delete (rr_find w (rr_writers sc)) (rr_writers sc) ↔ x ∈ rr_writers sc ∧ x ≠ w)
    as Hdel by (intros x; by apply delete_in).
  split; [|split]; simpl.
  - apply sublist_NoDup with (rr_writers sc); [done|apply sublist_delete].
  - intros x. rewrite Hdel, list_elem_of_filter, Hin. tauto.
  - intros Hne. destruct (Z.eqb_spec w cur') as [->|].
    + destruct (delete _ _); simpl; [done|lia].
    + apply rr_find_lt, Hdel. split; [by eapply list_elem_of_lookup_2|done].
Qed.

Lemma rr_add_spec add w c sc ws s :
  rr_inv sc ws → w ∈ ws → rr_add add w c sc s = add w c s.
Proof.
  intros (_&Hin&_) Hw. unfold rr_add. rewrite decide_False; [done|].
  apply Hin, rr_find_lt in Hw. lia.
Qed.

#[export] Instance rr_laws : SchedulerLaws RoundRobinSchedule.
Proof.
  apply (Build_SchedulerLaws _ _ rr_inv (λ _ w, Some w) rr_writers).
  - intros sc ws w (_&Hin&_) Hw. exists w. split; [done|by apply Hin].
  - intros sc ws w q c s ?? [= <-]. by apply rr_add_spec with ws.
  - intros sc ws w q c s ?? [= <-]. by apply rr_add_spec with ws.
  - done.
  - intros sample sc ws s Q (Hnd&Hin&Hn) HR.
    destruct (rr_get_next_spec s Q sc HR Hn) as (r&sc'&Heq&Hws&Hr).
    exists r, sc'. split; [done|]. split; [|split; [done|split; [done|]]].
    + split; [by rewrite Hws|]. split; [by rewrite Hws|]. rewrite Hws. intros Hne.
      destruct r; [destruct Hr as (?&?&?&->&_)|destruct Hr as [-> _]; auto].
      apply Nat.mod_upper_bound. by destruct (rr_writers sc).
    + destruct r; [|apply Hr]. destruct Hr as (j&w&?&?&?&?&_). exists w.
      split; [by eapply list_elem_of_lookup_2|done].
  - intros sc ws (Hnd&Hin&Hn) Hne.
    assert (rr_next sc < length (rr_writers sc))%nat as Hlt.
    { apply Hn. intros Hx. destruct ws as [|w ws]; [done|].
      assert (w ∈ rr_writers sc) as Hw by (apply Hin, list_elem_of_here).
      rewrite Hx in Hw. by apply elem_of_nil in Hw. }
    destruct (rr_next_spec sc Hlt) as (sc'&?&Hws&?&_). exists sc'. split; [done|].
    split; [|done]. unfold rr_inv. rewrite Hws. by repeat (split; [done|]).
  - intros sc ws w s Q Hinv Hw HR HQ. eexists _, _. split; [done|].
    split; [by apply rr_register_inv|]. split; [|done].
    apply queue_init_spec; [done|]. intros k. apply HQ. simpl.
    destruct Hinv as (_&Hin&_). by rewrite Hin.
  - intros sc ws w Hinv Hw. destruct (rr_unregister_inv w sc ws Hinv Hw) as (sc'&?&?).
    by exists sc'.
  - done.
  - done.
Defined.

(** ** High priority *)

Definition hp_inv (sc : HighPrioritySchedule) (ws : list Z) : Prop :=
  (∀ w, is_Some (assoc w (hp_priorities sc)) ↔ w ∈ ws) ∧
  (∀ w p, assoc w (hp_priorities sc) = Some p → p ∈ hp_queues sc) ∧
  StronglySorted Z.lt (hp_queues sc).

Lemma key_insert_in k ks x : x ∈ key_insert k ks ↔ x = k ∨ x ∈ ks.
Proof.
  induction ks as [|y ks IH]; simpl; [by rewrite list_elem_of_singleton, elem_of_nil; tauto|].
  destruct (Z.ltb_spec k y); [by rewrite elem_of_cons|].
  destruct (Z.eqb_spec k y) as [->|]; rewrite !elem_of_cons; [tauto|]. rewrite IH. tauto.
Qed.

Lemma key_insert_sorted k ks : StronglySorted Z.lt ks → StronglySorted Z.lt (key_insert k ks).
Proof.
  induction 1 as [|y ks Hs IH Hy]; simpl; [by repeat constructor|].
  destruct (Z.ltb_spec k y).
  - constructor; [by constructor|]. constructor; [done|].
    eapply list.Forall_impl; [done|]. simpl. lia.
  - destruct (Z.eqb_spec k y); [by constructor|]. constructor; [done|].
    apply list.Forall_forall. intros x [->|Hx]%key_insert_in; [lia|].
    by rewrite list.Forall_forall in Hy; apply Hy.
Qed.

Lemma assoc_filter {A} w w' (l : list (Z * A)) :
  assoc w' (filter (λ e, e.1 ≠ w) l) = if decide (w' = w) then None else assoc w' l.
Proof.
  induction l as [|[x a] l IH]; [by case_decide|].
  rewrite filter_cons. simpl. destruct (decide (x = w)) as [->|Hx]; simpl.
  - rewrite decide_False by tauto. rewrite IH. case_decide; [done|].
    by destruct (Z.eqb_spec w' w).
  - rewrite decide_True by done. simpl. rewrite IH.
    destruct (Z.eqb_spec w' x) as [->|]; [by rewrite decide_False|done].
Qed.

(** The first queue of the list with a pending sample. *)
Lemma hp_get_next_spec s Q qs :
  represents s Q →
  ∃ r, hp_get_next qs s = Change <$> r ∧
    match r with
    | None => ∀ q, q ∈ qs → next_sample q Q = None
    | Some c => ∃ qs1 q qs2, qs = qs1 ++ q :: qs2 ∧ next_sample q Q = Some c ∧
        ∀ q', q' ∈ qs1 → next_sample q' Q = None
    end.
Proof.
  intros HR. induction qs as [|q qs (r&IHe&IH)]; simpl.
  { exists None. split; [done|]. by intros q ?%elem_of_nil. }
  rewrite (queue_get_next_change_spec s Q q HR).
  destruct (next_sample q Q) as [c|] eqn:Hq; simpl.
  - exists (Some c). split; [done|]. exists [], q, qs. split; [done|]. split; [done|].
    by intros q' ?%elem_of_nil.
  - exists r. split; [done|]. destruct r as [c|].
    + destruct IH as (qs1&q'&qs2&->&?&?). exists (q :: qs1), q', qs2.
      split; [done|]. split; [done|]. intros x [->|?]%elem_of_cons; auto.
    + intros x [->|?]%elem_of_cons; auto.
Qed.

Lemma hp_register_inv w sc ws s :
  hp_inv sc ws → fw_id w ∉ ws → hp_inv (hp_register w sc s).1 (fw_id w :: ws).
Proof.
  intros (Hin&Hp&Hs) Hw. unfold hp_register.
  destruct (assoc (fw_id w) (hp_priorities sc)) eqn:Ha.
  { destruct Hw. apply Hin. rewrite Ha. eauto. }
  split; [|split]; simpl.
  - intros w'. rewrite elem_of_cons, <- Hin. destruct (Z.eqb_spec w' (fw_id w)) as [->|].
    + split; [by left|eauto].
    + split; [by right|]. by intros [?|?].
  - intros w' p. rewrite key_insert_in. destruct (Z.eqb_spec w' (fw_id w)).
    + intros [= <-]. by left.
    + intros ?%Hp. by right.
  - by apply key_insert_sorted.
Qed.

Lemma hp_unregister_inv w sc ws :
  hp_inv sc ws → w ∈ ws →
  ∃ sc', hp_unregister w sc = Some sc' ∧ hp_inv sc' (filter (λ x, x ≠ w) ws) ∧
    ∀ w', w' ≠ w → assoc w' (hp_priorities sc') = assoc w' (hp_priorities sc).
Proof.
  intros (Hin&Hp&Hs) Hw. unfold hp_unregister. destruct (proj2 (Hin w) Hw) as [p ->].
  cbn [mbind option_bind]. eexists; split; [done|]. simpl. split.
  - split; [|split]; simpl; [|intros w' p'|done].
    + intros w'. rewrite assoc_filter, list_elem_of_filter, <- Hin.
      case_decide; [|tauto]. subst. split; [by intros [??]|tauto].
    + rewrite assoc_filter. case_decide; [done|]. apply Hp.
  - intros w' ?. by rewrite assoc_filter, decide_False.
Qed.

Lemma hp_add_spec add w q c sc ws s :
  hp_inv sc ws → w ∈ ws → assoc w (hp_priorities sc) = Some q → hp_add add w c sc s = add q c s.
Proof.
  intros (_&Hp&_) Hw Hq. unfold hp_add, hp_find_queue. rewrite Hq. cbn [mbind option_bind].
  by rewrite decide_True by eauto.
Qed.

#[export] Instance hp_laws : SchedulerLaws HighPrioritySchedule.
Proof.
  apply (Build_SchedulerLaws _ _ hp_inv (λ sc w, assoc w (hp_priorities sc)) hp_queues).
  - intros sc ws w (Hin&Hp&_) Hw. destruct (proj2 (Hin w) Hw) as [p Hpw]. eauto.
  - intros. by apply hp_add_spec with ws.
  - intros. by apply hp_add_spec with ws.
  - done.
  - intros sample sc ws s Q Hinv HR.
    destruct (hp_get_next_spec s Q (hp_queues sc) HR) as (r&Heq&Hr).
    exists r, sc. simpl. rewrite Heq. do 4 (split; [done|]).
    destruct r; [|done]. destruct Hr as (qs1&q&qs2&->&?&_). exists q.
    split; [apply elem_of_app; right; apply list_elem_of_here|done].
  - intros sc ws ? _. by exists sc.
  - intros sc ws w s Q Hinv Hw HR HQ.
    exists (hp_register w sc s).1, (hp_register w sc s).2. split; [done|].
    split; [by apply hp_register_inv|]. split.
    + simpl. case_decide as Hd; [done|]. apply queue_init_spec; [done|]. intros k. by apply HQ.
    + intros w' Hw'. unfold hp_register. simpl.
      destruct (assoc (fw_id w) (hp_priorities sc)); simpl; [done|].
      destruct (Z.eqb_spec w' (fw_id w)); [congruence|done].
  - intros sc ws w Hinv Hw. destruct (hp_unregister_inv w sc ws Hinv Hw) as (sc'&?&?&Hsame).
    exists sc'. split; [done|]. split; [done|]. intros; by apply Hsame.
  - done.
  - done.
Defined.

(** ** Priority with reservation *)

Record pr_inv (sc : PriorityReservationSchedule) (ws : list Z) : Prop := {
  pr_inv_writers : ∀ w, is_Some (assoc w (pr_writers sc)) ↔ w ∈ ws;
  pr_inv_sorted : StronglySorted Z.lt (pr_priorities sc).*1;
  pr_inv_nodup : ∀ p wl, assoc p (pr_priorities sc) = Some wl → NoDup wl;
  pr_inv_entry : ∀ p wl w, assoc p (pr_priorities sc) = Some wl → w ∈ wl →
    ∃ e, assoc w (pr_writers sc) = Some e ∧ rs_priority e = p;
  pr_inv_listed : ∀ w e, assoc w (pr_writers sc) = Some e →
    ∃ wl, assoc (rs_priority e) (pr_priorities sc) = Some wl ∧ w ∈ wl
}.

(** The writers in the order the scheduler visits them. *)
Definition pr_order (sc : PriorityReservationSchedule) : list Z := concat (pr_priorities sc).*2.

Definition first_pending (Q : ListId → list nat) (ws : list Z) : option nat :=
  head (omap (λ w, next_sample w Q) ws).

(** The writer's reservation covers a sample. *)
Definition covers (e : Reservation) (size : Z) : Prop := rs_bytes e > u32 (rs_used e + size).

Lemma assoc_in {A} w (l : list (Z * A)) : is_Some (assoc w l) ↔ w ∈ l.*1.
Proof.
  induction l as [|[x a] l IH]; simpl.
  - rewrite elem_of_nil. split; [by intros [??]|done].
  - rewrite elem_of_cons. destruct (Z.eqb_spec w x) as [->|]; [by split; eauto|].
    rewrite IH. split; [by right|]. by intros [?|?].
Qed.

Lemma assoc_elem {A} w (l : list (Z * A)) a : assoc w l = Some a → (w, a) ∈ l.
Proof.
  induction l as [|[x b] l IH]; simpl; [done|].
  destruct (Z.eqb_spec w x) as [->|].
  - intros [= ->]. apply list_elem_of_here.
  - intros ?. apply list_elem_of_further. auto.
Qed.

Lemma assoc_sorted {A} (l : list (Z * A)) w a :
  StronglySorted Z.lt l.*1 → (w, a) ∈ l → assoc w l = Some a.
Proof.
  induction l as [|[x b] l IH]; simpl; [by intros _ ?%elem_of_nil|].
  intros [Hs Hx]%StronglySorted_inv. rewrite elem_of_cons. intros [[= -> ->]|Hin].
  - by rewrite Z.eqb_refl.
  - destruct (Z.eqb_spec w x) as [->|]; [|by apply IH].
    rewrite list.Forall_forall in Hx. assert (x < x); [|lia].
    apply Hx, list_elem_of_fmap. by exists (x, a).
Qed.

Lemma pr_order_in sc ws w : pr_inv sc ws → w ∈ pr_order sc ↔ w ∈ ws.
Proof.
  intros Hinv. unfold pr_order. rewrite list_elem_of_In, in_concat, <- (pr_inv_writers sc ws Hinv).
  split.
  - intros (wl&Hwl&Hw). apply list_elem_of_In in Hwl, Hw.
    apply list_elem_of_fmap in Hwl as ([p wl']&->&Hin).
    apply (assoc_sorted _ _ _ (pr_inv_sorted sc ws Hinv)) in Hin.
    destruct (pr_inv_entry sc ws Hinv p wl' w Hin Hw) as (e&->&_). eauto.
  - intros [e He]. destruct (pr_inv_listed sc ws Hinv w e He) as (wl&Hwl&Hw).
    exists wl. split; apply list_elem_of_In; [|done].
    apply list_elem_of_fmap. exists (rs_priority e, wl). split; [done|]. by apply assoc_elem.
Qed.

Lemma pr_scan_writers_app sample sc s h ws1 ws2 :
  pr_scan_writers sample sc s h (ws1 ++ ws2) =
  ('(h', r) ← pr_scan_writers sample sc s h ws1;
   match r with
   | Some x => Some (h', Some x)
   | None => pr_scan_writers sample sc s h' ws2
   end).
Proof.
  revert h. induction ws1 as [|w ws1 IH]; intros h; [done|]. simpl.
  destruct (assoc w (pr_writers sc)) as [e|]; [|done]. cbn [mbind option_bind].
  destruct (queue_get_next_change w s) as [n|]; [|apply IH].
  destruct (change_of n) as [c|]; [|done]. cbn [mbind option_bind].
  destruct (rs_bytes e >? _); [done|apply IH].
Qed.

Lemma pr_scan_flat sample sc s h ps :
  pr_scan sample sc s h ps = pr_scan_writers sample sc s h (concat ps.*2).
Proof.
  revert h. induction ps as [|[p wl] ps IH]; intros h; [done|]. simpl.
  rewrite pr_scan_writers_app. destruct (pr_scan_writers sample sc s h wl) as [[h' [r|]]|]; try done.
  apply IH.
Qed.

(** The loop stops at the first writer whose reservation covers its next
    sample; without one it has noted the first pending sample. *)
Lemma pr_scan_writers_spec sample sc s Q h ws :
  represents s Q → (∀ w, w ∈ ws → is_Some (assoc w (pr_writers sc))) →
  ∃ h' r, pr_scan_writers sample sc s h ws = Some (h', r) ∧
    match r with
    | Some (n, w, size) =>
        ∃ ws1 ws2 c e, ws = ws1 ++ w :: ws2 ∧ n = Change c ∧ next_sample w Q = Some c ∧
          size = size_to_check (sample c) ∧ assoc w (pr_writers sc) = Some e ∧ covers e size ∧
          ∀ w' c' e', w' ∈ ws1 → next_sample w' Q = Some c' → assoc w' (pr_writers sc) = Some e' →
            ¬ covers e' (size_to_check (sample c'))
    | None =>
        h' = match h with None => Change <$> first_pending Q ws | Some _ => h end ∧
        ∀ w c e, w ∈ ws → next_sample w Q = Some c → assoc w (pr_writers sc) = Some e →
          ¬ covers e (size_to_check (sample c))
    end.
Proof.
  intros HR. revert h. induction ws as [|w ws IH]; intros h Hws; simpl.
  { exists h, None. split; [done|]. split; [by destruct h|]. by intros ??? ?%elem_of_nil. }
  destruct (Hws w) as [e He]; [apply list_elem_of_here|]. rewrite He. cbn [mbind option_bind].
  rewrite (queue_get_next_change_spec s Q w HR). unfold first_pending. simpl.
  assert (∀ w', w' ∈ ws → is_Some (assoc w' (pr_writers sc))) as Hws'
    by (intros; by apply Hws, list_elem_of_further).
  destruct (next_sample w Q) as [c|] eqn:Hw; simpl.
  - destruct (rs_bytes e >? u32 (rs_used e + size_to_check (sample c))) eqn:Hc.
    + eexists _, (Some _). split; [done|]. exists [], ws, c, e. do 5 (split; [done|]).
      split; [unfold covers; lia|]. by intros ??? ?%elem_of_nil.
    + destruct (IH (match h with None => Some (Change c) | Some _ => h end) Hws')
        as (h'&r&->&Hr). exists h', r. split; [done|].
      assert (∀ e', assoc w (pr_writers sc) = Some e' →
        ¬ covers e' (size_to_check (sample c))) as Hnot.
      { intros e' He'. rewrite He in He'. injection He' as <-. unfold covers. lia. }
      destruct r as [[[n w'] size]|].
      * destruct Hr as (ws1&ws2&c'&e'&->&?&?&?&?&?&Hr).
        exists (w :: ws1), ws2, c', e'. do 6 (split; [done|]).
        intros x cx ex [->|?]%elem_of_cons ??; [simplify_eq; auto|eauto].
      * destruct Hr as [-> Hr]. split; [by destruct h|].
        intros x cx ex [->|?]%elem_of_cons ??; [simplify_eq; auto|eauto].
  - destruct (IH (match h with None => None | Some _ => h end) Hws') as (h'&r&->&Hr).
    exists h', r. split; [done|]. destruct r as [[[n w'] size]|].
    + destruct Hr as (ws1&ws2&c'&e'&->&?&?&?&?&?&Hr).
      exists (w :: ws1), ws2, c', e'. do 6 (split; [done|]).
      intros x cx ex [->|?]%elem_of_cons ??; [congruence|eauto].
    + destruct Hr as [-> Hr]. split; [by destruct h|].
      intros x cx ex [->|?]%elem_of_cons ??; [congruence|eauto].
Qed.

Lemma first_pending_None Q ws :
  first_pending Q ws = None → ∀ w, w ∈ ws → next_sample w Q = None.
Proof.
  unfold first_pending. induction ws as [|x ws IH]; [by intros _ w ?%elem_of_nil|]. simpl.
  destruct (next_sample x Q) eqn:Hx; [done|]. intros ? w [->|?]%elem_of_cons; auto.
Qed.

Lemma first_pending_Some Q ws c :
  first_pending Q ws = Some c → ∃ w, w ∈ ws ∧ next_sample w Q = Some c.
Proof.
  unfold first_pending. induction ws as [|x ws IH]; simpl; [done|].
  destruct (next_sample x Q) eqn:Hx.
  - intros [= ->]. exists x. split; [apply list_elem_of_here|done].
  - intros (w&?&?)%IH. exists w. split; [by apply list_elem_of_further|done].
Qed.

(** get_next_change_nts: the reservation scan, and what it notes for
    work_done. *)
Lemma pr_get_next_spec sample sc ws s Q :
  pr_inv sc ws → represents s Q →
  ∃ r sc', pr_get_next sample sc s = Some (Change <$> r, sc') ∧
    pr_writers sc' = pr_writers sc ∧ pr_priorities sc' = pr_priorities sc ∧
    bandwidth_limit_ sc' = bandwidth_limit_ sc ∧
    ((∃ ws1 w ws2 c e, pr_order sc = ws1 ++ w :: ws2 ∧ r = Some c ∧
        next_sample w Q = Some c ∧ assoc w (pr_writers sc) = Some e ∧
        covers e (size_to_check (sample c)) ∧
        (∀ w' c' e', w' ∈ ws1 → next_sample w' Q = Some c' →
           assoc w' (pr_writers sc) = Some e' → ¬ covers e' (size_to_check (sample c'))) ∧
        writer_being_processed_ sc' = Some w ∧
        size_being_processed_ sc' = size_to_check (sample c)) ∨
     (r = first_pending Q (pr_order sc) ∧ sc' = sc ∧
        ∀ w c e, w ∈ ws → next_sample w Q = Some c → assoc w (pr_writers sc) = Some e →
          ¬ covers e (size_to_check (sample c)))).
Proof.
  intros Hinv HR. unfold pr_get_next. destruct (pr_writers sc) as [|e0 l] eqn:Hl.
  { assert (∀ w, w ∉ ws) as Hno.
    { intros w Hw. apply (pr_inv_writers sc ws Hinv) in Hw as [? Hw]. by rewrite Hl in Hw. }
    exists None, sc. split; [done|]. split; [done|]. do 2 (split; [done|]). right. split; [|split].
    - assert (pr_order sc = []) as ->; [|done].
      destruct (pr_order sc) as [|w wl] eqn:Ho; [done|]. destruct (Hno w).
      apply (pr_order_in sc ws w Hinv). rewrite Ho. apply list_elem_of_here.
    - done.
    - intros w c e Hw. by destruct (Hno w). }
  rewrite <- Hl. rewrite pr_scan_flat. fold (pr_order sc).
  destruct (pr_scan_writers_spec sample sc s Q None (pr_order sc) HR) as (h'&r&->&Hr).
  { intros w Hw. apply (pr_inv_writers sc ws Hinv). by apply (pr_order_in sc ws). }
  cbn [mbind option_bind]. destruct r as [[[n w] size]|].
  - destruct Hr as (ws1&ws2&c&e&Ho&->&?&->&?&?&Hr). eexists (Some c), _. split; [done|].
    do 3 (split; [done|]). left. exists ws1, w, ws2, c, e. by repeat (split; [done|]).
  - destruct Hr as [-> Hr]. exists (first_pending Q (pr_order sc)), sc. do 4 (split; [done|]).
    right. split; [done|]. split; [done|]. intros w c e Hw. apply Hr.
    by apply (pr_order_in sc ws).
Qed.

Lemma priority_push_keys p w l : (priority_push p w l).*1 = key_insert p l.*1.
Proof.
  induction l as [|[x wl] l IH]; [done|]. simpl.
  destruct (p <? x); [done|]. destruct (p =? x); [done|]. rewrite fmap_cons. simpl. by f_equal.
Qed.

Lemma assoc_below {A} p (l : list (Z * A)) : Forall (Z.lt p) l.*1 → assoc p l = None.
Proof.
  induction l as [|[x a] l IH]; [done|]. simpl. rewrite Forall_cons. intros [? ?].
  destruct (Z.eqb_spec p x); [lia|auto].
Qed.

Lemma assoc_push p w l p' :
  StronglySorted Z.lt l.*1 →
  assoc p' (priority_push p w l) =
  if decide (p' = p) then Some (default [] (assoc p l) ++ [w]) else assoc p' l.
Proof.
  induction l as [|[x wl] l IH]; simpl.
  { intros _. destruct (Z.eqb_spec p' p); case_decide; done. }
  intros [Hs Hx]%StronglySorted_inv. destruct (Z.ltb_spec p x).
  - simpl. destruct (Z.eqb_spec p' p); [|by rewrite decide_False]. rewrite decide_True by done.
    destruct (Z.eqb_spec p x); [lia|]. rewrite assoc_below; [done|].
    eapply list.Forall_impl; [done|]. simpl. lia.
  - destruct (Z.eqb_spec p x) as [->|]; simpl.
    + destruct (Z.eqb_spec p' x); case_decide; done.
    + rewrite IH by done. destruct (Z.eqb_spec p' x); [|done]. by rewrite decide_False by lia.
Qed.

Lemma pr_register_inv w sc ws s :
  pr_inv sc ws → fw_id w ∉ ws → pr_inv (pr_register w sc s).1 (fw_id w :: ws).
Proof.
  intros Hinv Hw. assert (assoc (fw_id w) (pr_writers sc) = None) as Hnone.
  { destruct (assoc _ _) eqn:Ha; [|done]. destruct Hw. apply (pr_inv_writers sc ws Hinv). eauto. }
  pose proof (pr_inv_sorted sc ws Hinv) as Hs.
  assert (∀ p wl, assoc p (pr_priorities sc) = Some wl → fw_id w ∉ wl) as Hfresh.
  { intros p wl Hwl Hin. destruct (pr_inv_entry sc ws Hinv _ _ _ Hwl Hin) as (?&?&_). congruence. }
  unfold pr_register. rewrite Hnone. split; simpl.
  - intros w'. rewrite elem_of_cons, <- (pr_inv_writers sc ws Hinv).
    destruct (Z.eqb_spec w' (fw_id w)) as [->|]; [split; [by left|eauto]|].
    split; [by right|]. by intros [?|?].
  - rewrite priority_push_keys. by apply key_insert_sorted.
  - intros p wl. rewrite assoc_push by done. case_decide; [|apply (pr_inv_nodup sc ws Hinv)].
    subst p. intros [= <-]. destruct (assoc (writer_priority w) (pr_priorities sc)) as [wl'|] eqn:Hp;
      simpl; [|apply NoDup_singleton].
    apply NoDup_app. split; [by eapply (pr_inv_nodup sc ws Hinv)|]. split; [|apply NoDup_singleton].
    intros x Hx ->%list_elem_of_singleton. by eapply Hfresh.
  - intros p wl w' Hwl Hin. rewrite assoc_push in Hwl by done.
    assert (w' ≠ fw_id w → ∃ e, assoc w' (pr_writers sc) = Some e ∧ rs_priority e = p) as Hold.
    { intros Hne. case_decide; [|by eapply (pr_inv_entry sc ws Hinv)]. subst p. injection Hwl as <-.
      apply elem_of_app in Hin as [Hin|?%list_elem_of_singleton]; [|done].
      destruct (assoc (writer_priority w) (pr_priorities sc)) as [wl'|] eqn:Hp;
        [by eapply (pr_inv_entry sc ws Hinv)|by apply elem_of_nil in Hin]. }
    destruct (Z.eqb_spec w' (fw_id w)) as [->|]; [|by apply Hold].
    eexists; split; [done|]. simpl. case_decide; [done|]. by destruct (Hfresh p wl).
  - intros w' e. rewrite assoc_push by done. destruct (Z.eqb_spec w' (fw_id w)) as [->|].
    + intros [= <-]. simpl. rewrite decide_True by done. eexists; split; [done|].
      apply elem_of_app. right. apply list_elem_of_here.
    + intros (wl&Hwl&Hin)%(pr_inv_listed sc ws Hinv). case_decide as Hd; [|eauto].
      eexists; split; [done|]. rewrite <- Hd, Hwl. apply elem_of_app. by left.
Qed.

Lemma erase_first_in w ws x : NoDup ws → x ∈ erase_first w ws ↔ x ∈ ws ∧ x ≠ w.
Proof.
  induction 1 as [|y ws Hy Hnd IH]; simpl; [rewrite elem_of_nil; tauto|].
  destruct (Z.eqb_spec w y) as [->|]; rewrite !elem_of_cons; [|rewrite IH; intuition congruence].
  split; [|intuition congruence]. intros Hx. split; [by right|]. by intros ->.
Qed.

Lemma erase_first_sublist w ws : erase_first w ws `sublist_of` ws.
Proof.
  induction ws as [|y ws IH]; simpl; [done|].
  destruct (w =? y); [by apply sublist_cons|by apply sublist_skip].
Qed.

Lemma assoc_erase w p (l : list (Z * list Z)) p' :
  assoc p' ((λ e : Z * list Z, if e.1 =? p then (e.1, erase_first w e.2) else e) <$> l) =
  if decide (p' = p) then erase_first w <$> assoc p' l else assoc p' l.
Proof.
  induction l as [|[x wl] l IH]; [by case_decide|]. rewrite fmap_cons. simpl.
  destruct (Z.eqb_spec x p) as [->|]; simpl; rewrite IH.
  - by destruct (Z.eqb_spec p' p); case_decide; simplify_eq.
  - by destruct (Z.eqb_spec p' x); case_decide; simplify_eq.
Qed.

Lemma pr_unregister_inv w sc ws :
  pr_inv sc ws → w ∈ ws →
  ∃ sc', pr_unregister w sc = Some sc' ∧ pr_inv sc' (filter (λ x, x ≠ w) ws).
Proof.
  intros Hinv Hw. unfold pr_unregister.
  destruct (proj2 (pr_inv_writers sc ws Hinv w) Hw) as [e He]. rewrite He.
  destruct (pr_inv_listed sc ws Hinv w e He) as (wl&Hwl&Hin). rewrite Hwl.
  cbn [mbind option_bind]. rewrite decide_True by done. eexists; split; [done|].
  pose proof (pr_inv_nodup sc ws Hinv) as Hnd. split; simpl.
  - intros x. rewrite assoc_filter, list_elem_of_filter, <- (pr_inv_writers sc ws Hinv).
    case_decide; [|tauto]. split; [by intros [??]|tauto].
  - rewrite <- list_fmap_compose.
    erewrite list_fmap_ext; [apply (pr_inv_sorted sc ws Hinv)|].
    intros i [p wl'] _. simpl. by destruct (p =? _).
  - intros p wl'. rewrite assoc_erase. case_decide; [|apply Hnd].
    destruct (assoc p _) as [wl''|] eqn:Hp; [|done]. intros [= <-].
    apply sublist_NoDup with wl''; [by eapply Hnd|apply erase_first_sublist].
  - intros p wl' x. rewrite assoc_erase, assoc_filter. case_decide as Hpe.
    + destruct (assoc p _) as [wl''|] eqn:Hp; [|done]. intros [= <-].
      rewrite erase_first_in by (by eapply Hnd). intros [Hx Hne]. rewrite decide_False by done.
      by eapply (pr_inv_entry sc ws Hinv).
    + intros Hp Hx. destruct (pr_inv_entry sc ws Hinv p wl' x Hp Hx) as (ex&Hex&<-).
      rewrite decide_False; [by eauto|]. intros ->. congruence.
  - intros x ex. rewrite assoc_filter, assoc_erase. case_decide as Hx; [done|].
    intros (wl'&Hwl'&Hin')%(pr_inv_listed sc ws Hinv). rewrite Hwl'. case_decide; [|by eauto].
    eexists; split; [done|]. apply erase_first_in; [by eapply Hnd|done].
Qed.

(** Invariance under changes to the counters. *)
Lemma pr_inv_ext sc sc' ws :
  (∀ w, rs_priority <$> assoc w (pr_writers sc') = rs_priority <$> assoc w (pr_writers sc)) →
  pr_priorities sc' = pr_priorities sc → pr_inv sc ws → pr_inv sc' ws.
Proof.
  intros Hw Hp Hinv. split; rewrite ?Hp; try apply Hinv.
  - intros w. rewrite <- (pr_inv_writers sc ws Hinv w). specialize (Hw w).
    destruct (assoc w (pr_writers sc')), (assoc w (pr_writers sc)); simpl in Hw; try done.
  - intros p wl w Hwl Hin. destruct (pr_inv_entry sc ws Hinv p wl w Hwl Hin) as (e&He&<-).
    specialize (Hw w). rewrite He in Hw. destruct (assoc w (pr_writers sc')); simplify_eq/=. eauto.
  - intros w e He. specialize (Hw w). rewrite He in Hw.
    destruct (assoc w (pr_writers sc)) as [e'|] eqn:He'; simplify_eq/=.
    rewrite Hw. by apply (pr_inv_listed sc ws Hinv).
Qed.

Lemma assoc_map {A} w (f : Z → A → A) (l : list (Z * A)) :
  assoc w ((λ e : Z * A, (e.1, f e.1 e.2)) <$> l) = f w <$> assoc w l.
Proof.
  induction l as [|[x a] l IH]; [done|]. rewrite fmap_cons. simpl.
  by destruct (Z.eqb_spec w x) as [->|].
Qed.

Lemma assoc_set_used w f l w' :
  assoc w' (pr_set_used w f l) =
  (λ e, if w' =? w then mkReservation (rs_priority e) (rs_bytes e) (f (rs_used e)) else e) <$>
  assoc w' l.
Proof.
  unfold pr_set_used. rewrite <- (assoc_map w'
    (λ x e, if x =? w then mkReservation (rs_priority e) (rs_bytes e) (f (rs_used e)) else e)).
  f_equal. apply list_fmap_ext. intros i [x e] _. simpl. by destruct (x =? w).
Qed.

Lemma pr_set_used_keys w f l : (pr_set_used w f l).*1 = l.*1.
Proof.
  unfold pr_set_used. rewrite <- list_fmap_compose. apply list_fmap_ext.
  intros i [x e] _. simpl. by destruct (x =? w).
Qed.

#[export] Instance pr_laws : SchedulerLaws PriorityReservationSchedule.
Proof.
  apply (Build_SchedulerLaws _ _ pr_inv (λ _ w, Some w) (λ sc, (pr_writers sc).*1)).
  - intros sc ws w Hinv Hw. exists w. split; [done|].
    apply assoc_in. by apply (pr_inv_writers sc ws Hinv).
  - intros sc ws w q c s Hinv Hw [= <-]. simpl. unfold pr_add.
    by destruct (proj2 (pr_inv_writers sc ws Hinv w) Hw) as [e ->].
  - intros sc ws w q c s Hinv Hw [= <-]. simpl. unfold pr_add.
    by destruct (proj2 (pr_inv_writers sc ws Hinv w) Hw) as [e ->].
  - done.
  - intros sample sc ws s Q Hinv HR. simpl.
    destruct (pr_get_next_spec sample sc ws s Q Hinv HR) as (r&sc'&->&Hw&Hp&_&Hr).
    exists r, sc'. split; [done|]. split; [apply pr_inv_ext with sc; by rewrite ?Hw|].
    split; [by rewrite Hw|]. split; [done|].
    assert (∀ w, w ∈ (pr_writers sc).*1 ↔ w ∈ pr_order sc) as Hq.
    { intros w. by rewrite (pr_order_in sc ws w Hinv), <- assoc_in, (pr_inv_writers sc ws Hinv). }
    destruct Hr as [(ws1&w&ws2&c&e&Ho&->&?&_)|(->&_)].
    + exists w. split; [|done]. rewrite Hq, Ho. apply elem_of_app. right. apply list_elem_of_here.
    + destruct (first_pending Q (pr_order sc)) as [c|] eqn:Hf.
      * apply first_pending_Some in Hf as (w&?&?). exists w. by rewrite Hq.
      * intros q. rewrite Hq. by apply first_pending_None.
  - intros sc ws Hinv _. exists (pr_work_done sc). split; [done|].
    unfold pr_work_done. destruct (writer_being_processed_ sc) as [w|]; [|done]. simpl.
    split; [|split; [apply pr_set_used_keys|done]]. apply pr_inv_ext with sc; [|done..].
    intros w'. simpl. rewrite assoc_set_used, <- option_fmap_compose.
    apply option_fmap_ext. intros e. simpl. by destruct (w' =? w).
  - intros sc ws w s Q Hinv Hw HR HQ.
    exists (pr_register w sc s).1, (pr_register w sc s).2. split; [done|].
    split; [by apply pr_register_inv|]. split; [|done].
    simpl. destruct (assoc (fw_id w) (pr_writers sc)) eqn:Ha; [done|].
    apply queue_init_spec; [done|]. intros k. apply HQ. simpl. rewrite <- assoc_in, Ha.
    by intros [??].
  - intros sc ws w Hinv Hw. destruct (pr_unregister_inv w sc ws Hinv Hw) as (sc'&?&?).
    by exists sc'.
  - intros sc ws Hinv. simpl. split; [|split; [|done]].
    + apply pr_inv_ext with sc; [|done..]. intros w. simpl.
      rewrite (assoc_map w (λ _ e, mkReservation (rs_priority e) (rs_bytes e) 0)).
      by destruct (assoc w (pr_writers sc)).
    + rewrite <- list_fmap_compose. by apply list_fmap_ext.
  - intros sc ws limit Hinv. by apply pr_inv_ext with sc.
Defined.
