(* ===== verification/FlowSchedulerTheorems.v ===== *)
(** What the choices of the schedulers mean: round robin serves every writer
    in turn, high priority never passes over a more urgent queue, and a
    reservation is charged to the writer that sends, within its budget. *)

From Stdlib Require Import ZArith Lia ZifyBool Sorting.Sorted.
From stdpp Require Import base numbers option functions sets list.
From S2P Require Import Prelude SequenceNumber Guid CacheChange FlowQueue FlowScheduler FlowSchedulerLaws.

Local Open Scope Z_scope.

(** ** Round robin *)

(** One sample chosen and delivered. *)
Definition rr_serve (s : Store) (sc : RoundRobinSchedule) :
    option (option Node * RoundRobinSchedule) :=
  '(n, sc) ← rr_get_next sc s;
  match n with
  | None => Some (None, sc)
  | Some n => sc ← rr_set_next_writer sc; Some (Some n, sc)
  end.

(** The samples chosen over a sequence of states of the queues. *)
Fixpoint rr_serves (ss : list Store) (sc : RoundRobinSchedule) : option (list (option Node)) :=
  match ss with
  | [] => Some []
  | s :: ss =>
      '(n, sc) ← rr_serve s sc;
      ns ← rr_serves ss sc;
      Some (n :: ns)
  end.

Lemma rr_at_at sc sc' a j k :
  rr_writers sc' = rr_writers sc → rr_at sc' (rr_at sc a j) k = rr_at sc a (j + k).
Proof.
  intros Hws. unfold rr_at. rewrite Hws, Nat.Div0.add_mod_idemp_l. f_equal. lia.
Qed.

(** Serving one sample: the waiting writer is served, or comes closer. *)
Lemma rr_serve_spec s Q sc d w :
  represents s Q → (rr_next sc < length (rr_writers sc))%nat →
  (d < length (rr_writers sc))%nat → rr_writers sc !! rr_at sc (rr_next sc) d = Some w →
  is_Some (next_sample w Q) →
  ∃ n sc', rr_serve s sc = Some (n, sc') ∧ rr_writers sc' = rr_writers sc ∧
    (rr_next sc' < length (rr_writers sc'))%nat ∧
    (n = queue_get_next_change w s ∨
     ∃ d', (d' < d)%nat ∧ rr_writers sc' !! rr_at sc' (rr_next sc') d' = Some w).
Proof.
  intros HR Hlt Hd Hw [c Hc]. unfold rr_serve.
  destruct (rr_get_next_spec s Q sc HR (λ _, Hlt)) as (r&sc1&->&Hws1&Hr).
  cbn [mbind option_bind]. destruct r as [c'|]; simpl.
  - destruct Hr as (j&w'&Hj&Hn1&Hw'&Hc'&Hbefore).
    assert (rr_next sc1 < length (rr_writers sc1))%nat as Hlt1.
    { rewrite Hws1, Hn1. apply Nat.mod_upper_bound. lia. }
    destruct (rr_next_spec sc1 Hlt1) as (sc2&->&Hws2&Hlt2&Hn2). cbn [mbind option_bind].
    exists (Some (Change c')), sc2. split; [done|]. split; [by rewrite Hws2|].
    split; [by rewrite Hws2|].
    destruct (decide (j = d)) as [->|Hjd].
    { left. assert (w' = w) as -> by congruence.
      by rewrite (queue_get_next_change_spec s Q w HR), Hc'. }
    right. destruct (decide (d < j)%nat) as [Hdj|].
    { specialize (Hbefore d w Hdj Hw). congruence. }
    exists (d - j - 1)%nat. split; [lia|].
    assert (rr_next sc2 = rr_at sc (rr_next sc) (j + 1)) as ->.
    { rewrite Hn2, Hn1, Hws1. unfold rr_at. rewrite rr_step_mod by lia. f_equal. lia. }
    rewrite rr_at_at by (by rewrite Hws2). rewrite Hws2, Hws1.
    replace (j + 1 + (d - j - 1))%nat with d by lia. done.
  - destruct Hr as [_ Hr]. specialize (Hr w). rewrite Hr in Hc; [done|].
    by eapply list_elem_of_lookup_2.
Qed.

Lemma rr_serves_spec ss : ∀ sc d w,
  (rr_next sc < length (rr_writers sc))%nat →
  (∀ s, s ∈ ss → ∃ Q, represents s Q ∧ is_Some (next_sample w Q)) →
  (d < length (rr_writers sc))%nat → (d < length ss)%nat →
  rr_writers sc !! rr_at sc (rr_next sc) d = Some w →
  ∀ ns, rr_serves ss sc = Some ns →
  ∃ i s, ss !! i = Some s ∧ ns !! i = Some (queue_get_next_change w s).
Proof.
  induction ss as [|s ss IH]; intros sc d w Hlt Hss Hd Hlen Hw ns; simpl in *; [lia|].
  destruct (Hss s) as (Q&HR&Hp); [apply list_elem_of_here|].
  destruct (rr_serve_spec s Q sc d w HR Hlt Hd Hw Hp) as (n&sc'&->&Hws&Hlt'&Hn).
  cbn [mbind option_bind]. destruct (rr_serves ss sc') as [ns'|] eqn:Hrest; [|done].
  intros [= <-]. destruct Hn as [->|(d'&Hd'&Hw')]; [by exists 0%nat, s|].
  edestruct (IH sc' d' w) as (i&s'&?&?); try done; [|rewrite Hws; lia|lia|].
  - intros s' Hs'. apply Hss. by apply list_elem_of_further.
  - by exists (Datatypes.S i), s'.
Qed.

Lemma rr_serves_total ss : ∀ sc,
  (rr_writers sc ≠ [] → (rr_next sc < length (rr_writers sc))%nat) →
  (∀ s, s ∈ ss → ∃ Q, represents s Q) → ∃ ns, rr_serves ss sc = Some ns.
Proof.
  induction ss as [|s ss IH]; intros sc Hlt Hss; simpl; [by exists []|].
  destruct (Hss s) as (Q&HR); [apply list_elem_of_here|].
  assert (∃ n sc', rr_serve s sc = Some (n, sc') ∧
    (rr_writers sc' ≠ [] → (rr_next sc' < length (rr_writers sc'))%nat)) as (n&sc'&->&Hlt').
  { unfold rr_serve. destruct (rr_get_next_spec s Q sc HR Hlt) as (r&sc1&->&Hws1&Hr).
    cbn [mbind option_bind]. destruct r as [c|]; simpl.
    - destruct Hr as (j&w&Hj&Hn1&_).
      assert (rr_next sc1 < length (rr_writers sc1))%nat as Hlt1.
      { rewrite Hws1, Hn1. apply Nat.mod_upper_bound. lia. }
      destruct (rr_next_spec sc1 Hlt1) as (sc2&->&Hws2&Hlt2&_). cbn [mbind option_bind].
      exists (Some (Change c)), sc2. split; [done|]. by rewrite Hws2.
    - exists None, sc1. split; [done|]. destruct Hr as [-> _]. by rewrite Hws1. }
  cbn [mbind option_bind].
  destruct (IH sc' Hlt') as [ns ->]; [intros; by apply Hss, list_elem_of_further|].
  by exists (n :: ns).
Qed.

(** C33. Round robin is fair: however the queues change between two choices, a
    writer that always has a sample waiting is served at least once in as many
    consecutive deliveries as there are writers. *)
Theorem round_robin_bounded_wait sc ws w ss :
  rr_inv sc ws → w ∈ ws → length ss = length (rr_writers sc) →
  (∀ s, s ∈ ss → ∃ Q, represents s Q ∧ is_Some (next_sample w Q)) →
  ∃ ns i s, rr_serves ss sc = Some ns ∧ ss !! i = Some s ∧
    ns !! i = Some (queue_get_next_change w s).
Proof.
  intros (Hnd&Hin&Hn) Hw Hlen Hss. apply Hin in Hw.
  assert (rr_next sc < length (rr_writers sc))%nat as Hlt.
  { apply Hn. intros Hx. rewrite Hx in Hw. by apply elem_of_nil in Hw. }
  destruct (rr_serves_total ss sc Hn) as [ns Hns].
  { intros s Hs. destruct (Hss s Hs) as (Q&?&_). by exists Q. }
  destruct (rr_at_onto sc (rr_next sc) w Hw Hlt) as (d&Hd&Hd').
  edestruct (rr_serves_spec ss sc d w) as (i&s&?&?); try done; [lia|].
  by exists ns, i, s.
Qed.

(** A store with one new sample waiting in queue [q]. *)
Definition example_store (q : Z) (c : nat) : Store :=
  default empty_store (list_add_change (mkListId q NewOnes) c empty_store).

Lemma example_store_rep q c :
  represents (example_store q c) (<[mkListId q NewOnes:=[c]]> (λ _, [])).
Proof.
  destruct (list_add_change_spec _ _ rep_empty (mkListId q NewOnes) c) as (s&Hs&HR).
  unfold example_store. by rewrite Hs.
Qed.

Lemma round_robin_bounded_wait_witness :
  ∃ ns i s, rr_serves [example_store 3 30; example_store 3 31; example_store 3 32]
      (mkRoundRobin [1; 2; 3] 0) = Some ns ∧
    [example_store 3 30; example_store 3 31; example_store 3 32] !! i = Some s ∧
    ns !! i = Some (queue_get_next_change 3 s).
Proof.
  apply (round_robin_bounded_wait _ [1; 2; 3]).
  - split; [apply (bool_decide_eq_true_1 (NoDup [1; 2; 3])); by vm_compute|].
    split; [done|]. simpl. lia.
  - apply (bool_decide_eq_true_1 (3 ∈ [1; 2; 3])). by vm_compute.
  - done.
  - intros s Hs. repeat (apply elem_of_cons in Hs as [->|Hs]); [..|by apply elem_of_nil in Hs].
    all: eexists; split; [apply example_store_rep|by eexists].
Defined.

(** ** High priority *)

(** The high priority scheduler takes a sample of the most urgent queue
    that has one: every queue of a lower number is empty, whatever its writers
    asked for; priorities outside of [-10, 10] and texts that are no numbers
    count as 10. *)
Lemma high_priority_first sc ws s Q c :
  hp_inv sc ws → represents s Q → hp_get_next (hp_queues sc) s = Some (Change c) →
  (∃ q, q ∈ hp_queues sc ∧ next_sample q Q = Some c ∧
     ∀ q', q' ∈ hp_queues sc → q' < q → next_sample q' Q = None) ∧
  ∀ w, -10 ≤ writer_priority w ≤ 10.
Proof.
  intros (_&_&Hs) HR Hc. split.
  - destruct (hp_get_next_spec s Q (hp_queues sc) HR) as (r&Heq&Hr).
    rewrite Hc in Heq. destruct r as [c'|]; [|done]. simplify_eq/=.
    destruct Hr as (qs1&q&qs2&Hqs&Hq&Hbefore). exists q.
    split; [rewrite Hqs; apply elem_of_app; right; apply list_elem_of_here|]. split; [done|].
    intros q' Hq' Hlt. rewrite Hqs in Hq', Hs.
    apply elem_of_app in Hq' as [?|Hq']; [by apply Hbefore|].
    apply elem_of_cons in Hq' as [->|Hq']; [lia|]. exfalso.
    assert (StronglySorted Z.lt (q :: qs2)) as [_ Hall]%StronglySorted_inv.
    { clear -Hs. induction qs1; [done|]. by apply StronglySorted_inv in Hs as [? _]; auto. }
    rewrite list.Forall_forall in Hall. specialize (Hall q' Hq'). lia.
  - intros w. unfold writer_priority. destruct (fw_priority w) as [text|]; [|lia].
    destruct (strtol text) as [v|]; [|lia]. case_match; lia.
Qed.

(** ** Priority with reservation *)

(** C34. When nothing is left over from an earlier choice, a delivery is charged
    to the writer whose sample was chosen, if its reservation covers the
    sample, and its budget is still not used up; otherwise no reservation
    covers the next sample of its writer, the sample is the first one in the
    order of priorities and registration, and nobody is charged. *)
Theorem reservation_charges_sender sample sc ws s Q c sc' :
  pr_inv sc ws → represents s Q → writer_being_processed_ sc = None →
  pr_get_next sample sc s = Some (Some (Change c), sc') →
  (∃ w e, next_sample w Q = Some c ∧ assoc w (pr_writers sc) = Some e ∧
     let used := u32 (rs_used e + size_to_check (sample c)) in
     used < rs_bytes e ∧
     assoc w (pr_writers (pr_work_done sc')) =
       Some (mkReservation (rs_priority e) (rs_bytes e) used) ∧
     ∀ w', w' ≠ w → assoc w' (pr_writers (pr_work_done sc')) = assoc w' (pr_writers sc)) ∨
  (first_pending Q (pr_order sc) = Some c ∧ pr_work_done sc' = sc ∧
   ∀ w c' e, w ∈ ws → next_sample w Q = Some c' → assoc w (pr_writers sc) = Some e →
     ¬ covers e (size_to_check (sample c'))).
Proof.
  intros Hinv HR Hnone Hget.
  destruct (pr_get_next_spec sample sc ws s Q Hinv HR) as (r&sc1&Heq&Hws&Hps&_&Hr).
  rewrite Hget in Heq. injection Heq as Hc <-. destruct r as [c1|]; [|done].
  injection Hc as <-.
  destruct Hr as [(ws1&w&ws2&c'&e&_&[= <-]&Hn&He&Hcov&_&Hwbp&Hsize)|(Hf&->&Hr)].
  - left. exists w, e. split; [done|]. split; [done|]. cbn zeta. unfold covers in Hcov.
    split; [lia|]. unfold pr_work_done. rewrite Hwbp. simpl. rewrite Hsize, Hws. split.
    + by rewrite assoc_set_used, He, Z.eqb_refl.
    + intros w' Hw'. rewrite assoc_set_used. destruct (Z.eqb_spec w' w); [done|].
      by destruct (assoc w' (pr_writers sc)).
  - right. split; [done|]. split; [|done]. unfold pr_work_done. by rewrite Hnone.
Qed.

Definition example_sample : nat → CacheChange_t := λ _,
  {| cc_kind := ALIVE; writerGUID := c_Guid_Unknown; instanceHandle := None;
     sequenceNumber := SeqNum 0 1; serializedPayload := Payload 1 100 [] false;
     inline_qos := pl_default; sourceTimestamp := Time.time_zero; vendor_id := [];
     fragment_size_ := 0; fragment_count_ := 0; first_missing_fragment_ := 0 |}.

Definition no_reservations (limit : Z) : PriorityReservationSchedule :=
  mkPriorityReservation [] [] limit None 0.

Lemma no_reservations_inv limit : pr_inv (no_reservations limit) [].
Proof.
  split; simpl; try done; [|constructor].
  intros w. rewrite elem_of_nil. split; [by intros [??]|done].
Qed.

(** The writer 1 has priority 0 and half of the bandwidth, the writer 2 the
    default priority and no reservation. *)
Definition example_writer1 : FlowWriter := mkFlowWriter 1 (Some [48]) (Some [53; 48]).
Definition example_writer2 : FlowWriter := mkFlowWriter 2 None None.

Definition example_reservations : PriorityReservationSchedule :=
  (pr_register example_writer1 (no_reservations 1000) empty_store).1.

Lemma reservation_charges_sender_witness :
  let Q := <[mkListId 1 NewOnes:=[7%nat]]> (λ _, []) in
  ∃ sc', pr_get_next example_sample example_reservations (example_store 1 7) =
           Some (Some (Change 7), sc') ∧
  ((∃ w e, next_sample w Q = Some 7%nat ∧ assoc w (pr_writers example_reservations) = Some e ∧
     let used := u32 (rs_used e + size_to_check (example_sample 7)) in
     used < rs_bytes e ∧
     assoc w (pr_writers (pr_work_done sc')) =
       Some (mkReservation (rs_priority e) (rs_bytes e) used) ∧
     ∀ w', w' ≠ w → assoc w' (pr_writers (pr_work_done sc')) =
       assoc w' (pr_writers example_reservations)) ∨
   (first_pending Q (pr_order example_reservations) = Some 7%nat ∧
    pr_work_done sc' = example_reservations ∧
    ∀ w c' e, w ∈ [1] → next_sample w Q = Some c' →
      assoc w (pr_writers example_reservations) = Some e →
      ¬ covers e (size_to_check (example_sample c')))).
Proof.
  intros Q. eexists. split; [by vm_compute|].
  eapply (reservation_charges_sender _ _ _ (example_store 1 7)); [..|by vm_compute].
  - apply (pr_register_inv example_writer1 _ []); [apply no_reservations_inv|apply not_elem_of_nil].
  - apply example_store_rep.
  - done.
Defined.

(** The reservation in bytes is the configured share of the limit as long
    as limit times percentage fits 32 bits; above that the product wraps: with
    a limit of 42949673 bytes or more, a writer that reserves the whole
    bandwidth gets less than the limit. *)
Theorem reservation_bytes_wraps :
  (∀ limit share, 0 ≤ limit → 0 ≤ share → limit * share < 2 ^ 32 →
     reservation_bytes limit share = limit * share / 100) ∧
  (∀ limit, 42949672 < limit → reservation_bytes limit 100 < limit) ∧
  reservation_bytes 100000000 50 = 7050327.
Proof.
  split; [|split].
  - intros limit share ???. unfold reservation_bytes. destruct (Z.eqb_spec limit 0) as [->|]; [done|].
    rewrite u32_small; [done|]. split; [nia|done].
  - intros limit Hl. unfold reservation_bytes. destruct (Z.eqb_spec limit 0); [lia|].
    pose proof (u32_range (limit * 100)) as [_ Hu].
    assert (u32 (limit * 100) / 100 ≤ (2 ^ 32 - 1) / 100) by (apply Z.div_le_mono; lia).
    change ((2 ^ 32 - 1) / 100) with 42949672 in *. lia.
  - by vm_compute.
Qed.
