(* ===== verification/FlowController.v ===== *)
(** The flow controller: the calls of the writers and of the history, the loop
    of the asynchronous thread, and their interleavings.

    Source: src/src/cpp/rtps/flowcontrol/FlowControllerImpl.hpp (the publish
    modes and FlowControllerImpl) and FlowControllerFactory.cpp.  The
    controller template takes any scheduler, here any [FlowScheduler].  The
    thread's loop is cut where it takes or releases a mutex, so [fc_step] is
    one critical section of one thread:

    - mutex_ is held by the asynchronous thread while it processes or delivers
      a sample, and protects registration and removal;
    - changes_interested_mutex protects adding samples, which is possible at
      any time;
    - the mutex of the writer whose sample is being delivered is held by the
      asynchronous thread, and every caller of add_new_sample, add_old_sample
      and remove_change holds the mutex of its writer.

    What the group and the writer do with a sample (the bytes used so far, the
    outcome of try_lock and of deliver_sample_nts) are arguments of the steps.
    Builds without HAVE_STRICT_REALTIME are modelled: locks wait. *)

From Stdlib Require Import ZArith Lia ZifyBool.
From stdpp Require Import base numbers option functions sets list.
From S2P Require Import Prelude SequenceNumber Guid CacheChange StatefulWriter FlowQueue FlowScheduler.

Local Open Scope Z_scope.

(** ** Publish modes *)

Inductive PublishMode :=
  | PureSyncMode
  | SyncMode
  | AsyncMode
  | LimitedAsyncMode (max_bytes_per_period : Z).

(** The mode has an asynchronous thread. *)
Definition has_thread (m : PublishMode) : bool :=
  match m with PureSyncMode => false | _ => true end.

(** New samples are sent by the thread that adds them. *)
Definition sends_new (m : PublishMode) : bool :=
  match m with PureSyncMode | SyncMode => true | _ => false end.

(** get_max_payload_impl *)
Definition get_max_payload (m : PublishMode) : Z :=
  match m with LimitedAsyncMode max => u32 max | _ => 2 ^ 32 - 1 end.

(** The bytes the fast check asks for: the payload, or its smallest
    fragment. *)
Definition slot_size (change : CacheChange_t) : Z :=
  if fragment_count_ change =? 0 then pl_length (serializedPayload change)
  else
    let rest := pl_length (serializedPayload change) mod fragment_size_ change in
    if rest =? 0 then fragment_size_ change else rest.

(** [bytes] is get_current_bytes_processed() of the group; the difference is
    unsigned. *)
Definition fast_check (m : PublishMode) (bytes : Z) (change : CacheChange_t) : bool :=
  match m with
  | LimitedAsyncMode max => u32 (max - bytes) >? slot_size change
  | _ => true
  end.

(** process_deliver_retcode and the failed fast check: does the thread have
    to wait for the next period? *)
Definition exceeds (m : PublishMode) (ret : DeliveryRetCode) : bool :=
  match m with
  | LimitedAsyncMode _ => bool_decide (ret = EXCEEDED_LIMIT)
  | _ => false
  end.

Definition is_limited (m : PublishMode) : bool :=
  match m with LimitedAsyncMode _ => true | _ => false end.

(** ** The controller *)

(** Where the asynchronous thread is: at the top of its loop, waiting for a
    sample or for the period, about to process a sample, or delivering one it
    has unlinked from between two nodes. *)
Inductive AsyncThread :=
  | Idle
  | Waiting
  | Processing (c : nat)
  | Delivering (c : nat) (previous next : Node).

Record Controller (S : Type) := mkController {
  fc_mode : PublishMode;
  fc_store : Store;
  fc_sched : S;
  fc_writers : list Z;
  fc_running : bool;
  fc_thread : AsyncThread;
  fc_notified : bool;
  fc_force_wait : bool
}.

Arguments mkController {S}.
Arguments fc_mode {S}.
Arguments fc_store {S}.
Arguments fc_sched {S}.
Arguments fc_writers {S}.
Arguments fc_running {S}.
Arguments fc_thread {S}.
Arguments fc_notified {S}.
Arguments fc_force_wait {S}.

Section Controller.
Context {S : Type} `{FlowScheduler S}.

(** The samples, and the writer their writerGUID names. *)
Context (sample : nat → CacheChange_t) (owner : nat → Z).

Implicit Types fc : Controller S.

Definition set_store (s : Store) fc : Controller S :=
  mkController (fc_mode fc) s (fc_sched fc) (fc_writers fc) (fc_running fc) (fc_thread fc)
    (fc_notified fc) (fc_force_wait fc).

Definition set_sched (sc : S) fc : Controller S :=
  mkController (fc_mode fc) (fc_store fc) sc (fc_writers fc) (fc_running fc) (fc_thread fc)
    (fc_notified fc) (fc_force_wait fc).

Definition set_writers (ws : list Z) fc : Controller S :=
  mkController (fc_mode fc) (fc_store fc) (fc_sched fc) ws (fc_running fc) (fc_thread fc)
    (fc_notified fc) (fc_force_wait fc).

Definition set_thread (t : AsyncThread) fc : Controller S :=
  mkController (fc_mode fc) (fc_store fc) (fc_sched fc) (fc_writers fc) (fc_running fc) t
    (fc_notified fc) (fc_force_wait fc).

Definition set_notified (b : bool) fc : Controller S :=
  mkController (fc_mode fc) (fc_store fc) (fc_sched fc) (fc_writers fc) (fc_running fc) (fc_thread fc)
    b (fc_force_wait fc).

Definition set_force_wait (b : bool) fc : Controller S :=
  mkController (fc_mode fc) (fc_store fc) (fc_sched fc) (fc_writers fc) (fc_running fc) (fc_thread fc)
    (fc_notified fc) b.

(** The constructor: a bandwidth limit reaches the scheduler. *)
Definition fc_new (m : PublishMode) (sc : S) : Controller S :=
  mkController m empty_store
    (if get_max_payload m =? 2 ^ 32 - 1 then sc else sch_set_limit (get_max_payload m) sc)
    [] false Idle false false.

(** initialize_async_thread *)
Definition fc_init fc : Controller S :=
  if has_thread (fc_mode fc) && negb (fc_running fc)
  then mkController (fc_mode fc) (fc_store fc) (fc_sched fc) (fc_writers fc) true Idle
         (fc_notified fc) (fc_force_wait fc)
  else fc.

(** ** Calls of the writers *)

Definition fc_register (w : FlowWriter) fc : option (Controller S) :=
  let fc := set_writers (fw_id w :: fc_writers fc) fc in
  if has_thread (fc_mode fc) then
    '(sc, s) ← sch_register w (fc_sched fc) (fc_store fc);
    Some (set_store s (set_sched sc fc))
  else Some fc.

Definition fc_unregister (w : Z) fc : option (Controller S) :=
  let fc := set_writers (filter (λ x, x ≠ w) (fc_writers fc)) fc in
  if has_thread (fc_mode fc) then
    sc ← sch_unregister w (fc_sched fc);
    Some (set_sched sc fc)
  else Some fc.

(** cv.notify_one() wakes the thread if it waits. *)
Definition notify_one fc : Controller S :=
  match fc_thread fc with
  | Waiting => set_notified true fc
  | _ => fc
  end.

Definition fc_enqueue_new (w : Z) (c : nat) fc : option (bool * Controller S) :=
  if has_thread (fc_mode fc) then
    s ← sch_add_new w c (fc_sched fc) (fc_store fc);
    Some (true, notify_one (set_store s fc))
  else Some (false, fc).

(** [ret] is what deliver_sample_nts returned to the calling thread, [None]
    when it ran out of time. *)
Definition fc_add_new (w : Z) (c : nat) (ret : option DeliveryRetCode) fc :
    option (bool * Controller S) :=
  if sends_new (fc_mode fc) then
    match ret with
    | None => Some (false, fc)
    | Some DELIVERED => Some (true, fc)
    | Some _ => fc_enqueue_new w c fc
    end
  else fc_enqueue_new w c fc.

Definition fc_add_old (w : Z) (c : nat) fc : option (bool * Controller S) :=
  if has_thread (fc_mode fc) then
    if is_linked (fc_store fc) c then Some (false, fc)
    else
      s ← sch_add_old w c (fc_sched fc) (fc_store fc);
      Some (true, notify_one (set_store s fc))
  else Some (false, fc).

Definition fc_remove (c : nat) fc : option (bool * Controller S) :=
  if has_thread (fc_mode fc) then
    if is_linked (fc_store fc) c then
      s ← unlink c (fc_store fc);
      Some (true, set_store s fc)
    else Some (true, fc)
  else Some (true, fc).

(** ** The loop of the asynchronous thread *)

(** The condition of the waiting loop, after the interested samples have been
    added to the queues. *)
Definition run_choose fc : option (Controller S) :=
  s ← sch_add_interested (fc_sched fc) (fc_store fc);
  let fc := set_store s fc in
  if fc_force_wait fc then Some (set_notified false (set_thread Waiting fc))
  else
    '(n, sc) ← sch_get_next sample (fc_sched fc) (fc_store fc);
    let fc := set_sched sc fc in
    match n with
    | None => Some (set_notified false (set_thread Waiting fc))
    | Some n => c ← change_of n; Some (set_thread (Processing c) fc)
    end.

(** async_mode.wait returned; [timeout] tells that the period ended. *)
Definition run_wake (timeout : bool) fc : option (Controller S) :=
  let reset := timeout && is_limited (fc_mode fc) in
  let fc := if reset then set_force_wait false (set_sched (sch_reset (fc_sched fc)) fc) else fc in
  run_choose fc.

(** One round of the inner loop up to the delivery: [bytes] as in
    [fast_check], [locked] the result of try_lock on the writer's mutex. *)
Definition run_process (bytes : Z) (locked : bool) (c : nat) fc : option (Controller S) :=
  if negb (fast_check (fc_mode fc) bytes (sample c)) then
    Some (set_thread Idle (set_force_wait true fc))
  else if decide (owner c ∈ fc_writers fc) then
    if negb locked then Some (set_thread Idle fc)
    else
      previous ← prv (fc_store fc) (Change c);
      next ← nxt (fc_store fc) (Change c);
      s ← unlink c (fc_store fc);
      Some (set_thread (Delivering c previous next) (set_store s fc))
  else None.

(** The rest of the round: [ret] is what deliver_sample_nts returned,
    [removing] tells that a writer waits to remove a sample. *)
Definition run_delivered (ret : DeliveryRetCode) (removing : bool) (c : nat)
    (previous next : Node) fc : option (Controller S) :=
  match ret with
  | DELIVERED =>
      sc ← sch_work_done (fc_sched fc);
      let fc := set_sched sc fc in
      if removing then Some (set_thread Idle fc)
      else
        s ← sch_add_interested (fc_sched fc) (fc_store fc);
        let fc := set_store s fc in
        '(n, sc) ← sch_get_next sample (fc_sched fc) (fc_store fc);
        let fc := set_sched sc fc in
        match n with
        | None => Some (set_thread Idle fc)
        | Some n => c ← change_of n; Some (set_thread (Processing c) fc)
        end
  | _ =>
      let fc := set_store (relink c previous next (fc_store fc)) fc in
      let fc := if exceeds (fc_mode fc) ret then set_force_wait true fc else fc in
      Some (set_thread Idle fc)
  end.

(** mutex_ is free. *)
Definition mutex_free fc : bool :=
  match fc_thread fc with Idle | Waiting => true | _ => false end.

(** The asynchronous thread does not hold the mutex of writer [w]. *)
Definition writer_free (w : Z) fc : bool :=
  match fc_thread fc with Delivering c _ _ => negb (owner c =? w) | _ => true end.

(** ** Steps *)

Inductive Event :=
  | EvRegister (w : FlowWriter)
  | EvUnregister (w : Z)
  | EvAddNew (w : Z) (c : nat) (ret : option DeliveryRetCode)
  | EvAddOld (w : Z) (c : nat)
  | EvRemove (c : nat)
  | EvChoose
  | EvWake (timeout : bool)
  | EvProcess (bytes : Z) (locked : bool)
  | EvDelivered (ret : DeliveryRetCode) (removing : bool).

(** When a call can be made, and not wait for a mutex: the documented
    conditions on registration, and the mutexes it takes. *)
Definition fc_enabled (ev : Event) fc : Prop :=
  match ev with
  | EvRegister w => mutex_free fc = true ∧ fw_id w ∉ fc_writers fc
  | EvUnregister w =>
      mutex_free fc = true ∧ w ∈ fc_writers fc ∧
      ∀ c, is_linked (fc_store fc) c = true → owner c ≠ w
  | EvAddNew w c _ | EvAddOld w c =>
      w ∈ fc_writers fc ∧ owner c = w ∧ writer_free w fc = true
  | EvRemove c =>
      writer_free (owner c) fc = true ∧
      (is_linked (fc_store fc) c = true → mutex_free fc = true)
  | EvChoose => fc_running fc = true ∧ fc_thread fc = Idle
  | EvWake _ => fc_running fc = true ∧ fc_thread fc = Waiting
  | EvProcess _ _ => ∃ c, fc_thread fc = Processing c
  | EvDelivered _ _ => ∃ c p n, fc_thread fc = Delivering c p n
  end.

Definition fc_exec (ev : Event) fc : option (Controller S) :=
  match ev with
  | EvRegister w => fc_register w fc
  | EvUnregister w => fc_unregister w fc
  | EvAddNew w c ret => snd <$> fc_add_new w c ret fc
  | EvAddOld w c => snd <$> fc_add_old w c fc
  | EvRemove c => snd <$> fc_remove c fc
  | EvChoose => run_choose fc
  | EvWake timeout => run_wake timeout fc
  | EvProcess bytes locked =>
      match fc_thread fc with
      | Processing c => run_process bytes locked c fc
      | _ => None
      end
  | EvDelivered ret removing =>
      match fc_thread fc with
      | Delivering c p n => run_delivered ret removing c p n fc
      | _ => None
      end
  end.

(** The states a controller reaches, with what happened on the way. *)
Inductive fc_run (fc0 : Controller S) : list Event → Controller S → Prop :=
  | fc_run_nil : fc_run fc0 [] fc0
  | fc_run_snoc evs ev fc fc' :
      fc_run fc0 evs fc → fc_enabled ev fc → fc_exec ev fc = Some fc' →
      fc_run fc0 (evs ++ [ev]) fc'.
End Controller.
