(* ===== verification/FlowControllerFactory.v ===== *)
(** The factory of flow controllers: which publish mode and scheduler a
    writer gets.

    Source: src/src/cpp/rtps/flowcontrol/FlowControllerFactory.cpp and .hpp,
    FlowControllerConsts.cpp. *)

From Stdlib Require Import ZArith Lia ZifyBool.
From stdpp Require Import base numbers option list strings.
From S2P Require Import Prelude FlowController.

Local Open Scope Z_scope.

Inductive FlowControllerSchedulerPolicy :=
  | FIFO
  | ROUND_ROBIN
  | HIGH_PRIORITY
  | PRIORITY_WITH_RESERVATION.

Record FlowControllerDescriptor := mkDescriptor {
  fd_name : string;
  fd_scheduler : FlowControllerSchedulerPolicy;
  fd_max_bytes_per_period : Z
}.

(** The template arguments of a controller, and whether its thread was
    started. *)
Record ControllerKind := mkKind {
  ck_mode : PublishMode;
  ck_scheduler : FlowControllerSchedulerPolicy;
  ck_initialized : bool
}.

Definition pure_sync_flow_controller_name : string := "PureSyncFlowController"%string.
Definition sync_flow_controller_name : string := "SyncFlowController"%string.
Definition async_flow_controller_name : string := "AsyncFlowController"%string.
Definition async_statistics_flow_controller_name : string := "AsyncStatisticsFlowController"%string.
Definition FASTDDS_FLOW_CONTROLLER_DEFAULT : string := "FastDDSFlowControllerDefault"%string.
Definition FASTDDS_STATISTICS_FLOW_CONTROLLER_DEFAULT : string := "FastDDSStatisticsFlowControllerDefault"%string.

Definition Factory : Type := list (string * ControllerKind).

Fixpoint factory_find (name : string) (f : Factory) : option ControllerKind :=
  match f with
  | [] => None
  | (n, k) :: f => if String.eqb name n then Some k else factory_find name f
  end.

(** std::map::insert keeps an element that is already there. *)
Definition factory_insert (name : string) (k : ControllerKind) (f : Factory) : Factory :=
  match factory_find name f with
  | Some _ => f
  | None => f ++ [(name, k)]
  end.

(** [statistics]: built with FASTDDS_STATISTICS. *)
Definition factory_init (statistics : bool) (f : Factory) : Factory :=
  let f := factory_insert pure_sync_flow_controller_name (mkKind PureSyncMode FIFO false) f in
  let f := factory_insert sync_flow_controller_name (mkKind SyncMode FIFO false) f in
  let f := factory_insert async_flow_controller_name (mkKind AsyncMode FIFO false) f in
  if statistics
  then factory_insert async_statistics_flow_controller_name (mkKind AsyncMode FIFO false) f
  else f.

Definition register_flow_controller (d : FlowControllerDescriptor) (f : Factory) : Factory :=
  match factory_find (fd_name d) f with
  | Some _ => f
  | None =>
      let mode := if 0 <? fd_max_bytes_per_period d
                  then LimitedAsyncMode (fd_max_bytes_per_period d) else AsyncMode in
      factory_insert (fd_name d) (mkKind mode (fd_scheduler d) false) f
  end.

(** The name under which retrieve_flow_controller looks a controller up. *)
Definition controller_name (statistics : bool) (name : string) (synchronous best_effort : bool) : string :=
  if String.eqb name FASTDDS_FLOW_CONTROLLER_DEFAULT then
    if synchronous
    then if best_effort then pure_sync_flow_controller_name else sync_flow_controller_name
    else async_flow_controller_name
  else if statistics && String.eqb name FASTDDS_STATISTICS_FLOW_CONTROLLER_DEFAULT
       then async_statistics_flow_controller_name
       else name.

(** The controller found, with its thread started if it has one. *)
Definition retrieve_flow_controller (statistics : bool) (name : string)
    (synchronous best_effort : bool) (f : Factory) : option ControllerKind * Factory :=
  let name := controller_name statistics name synchronous best_effort in
  let start k := mkKind (ck_mode k) (ck_scheduler k) (has_thread (ck_mode k)) in
  (start <$> factory_find name f,
   (λ e : string * ControllerKind, if String.eqb e.1 name then (e.1, start e.2) else e) <$> f).

(** ** Registering and retrieving *)

Lemma factory_find_app name f g :
  factory_find name (f ++ g) =
  match factory_find name f with Some k => Some k | None => factory_find name g end.
Proof. induction f as [|[n k] f IH]; simpl; [done|]. by destruct (String.eqb name n). Qed.

(** A controller registered under a new name, other than the names that stand
    for a default, is what its users get. *)
Lemma register_retrieve statistics d synchronous best_effort f :
  factory_find (fd_name d) f = None →
  fd_name d ≠ FASTDDS_FLOW_CONTROLLER_DEFAULT →
  fd_name d ≠ FASTDDS_STATISTICS_FLOW_CONTROLLER_DEFAULT →
  (retrieve_flow_controller statistics (fd_name d) synchronous best_effort
     (register_flow_controller d f)).1 =
  Some (mkKind (if 0 <? fd_max_bytes_per_period d
                then LimitedAsyncMode (fd_max_bytes_per_period d) else AsyncMode)
          (fd_scheduler d) true).
Proof.
  intros Hnew Hd Hs. unfold retrieve_flow_controller, controller_name. simpl.
  rewrite (proj2 (String.eqb_neq _ _) Hd), (proj2 (String.eqb_neq _ _) Hs), andb_false_r.
  unfold register_flow_controller, factory_insert. rewrite Hnew, factory_find_app, Hnew. simpl.
  rewrite String.eqb_refl. simpl. by destruct (0 <? _).
Qed.

(** Registering never changes what another name gives. *)
Lemma register_keeps name k d f :
  factory_find name f = Some k → factory_find name (register_flow_controller d f) = Some k.
Proof.
  intros Hf. unfold register_flow_controller, factory_insert.
  destruct (factory_find (fd_name d) f); [done|]. by rewrite factory_find_app, Hf.
Qed.

(** A controller registered under the default name of a descriptor is never
    retrieved. *)
Lemma default_name_is_shadowed statistics d synchronous best_effort f :
  fd_name d = FASTDDS_FLOW_CONTROLLER_DEFAULT →
  let f := factory_init statistics f in
  (retrieve_flow_controller statistics (fd_name d) synchronous best_effort
     (register_flow_controller d f)).1 =
  (retrieve_flow_controller statistics (fd_name d) synchronous best_effort f).1.
Proof.
  intros Hd f0. unfold retrieve_flow_controller, controller_name. rewrite Hd, String.eqb_refl. simpl.
  assert (∀ name, name ≠ FASTDDS_FLOW_CONTROLLER_DEFAULT →
    factory_find name (register_flow_controller d f0) = factory_find name f0) as Hsame.
  { intros name Hn. unfold register_flow_controller, factory_insert.
    destruct (factory_find (fd_name d) f0); [done|]. rewrite factory_find_app. simpl.
    destruct (factory_find name f0); [done|].
    destruct (String.eqb_spec name (fd_name d)); [congruence|done]. }
  destruct synchronous, best_effort; by rewrite Hsame.
Qed.
