(* ===== verification/FlowControllerFacts.v ===== *)
(** The invariant of the flow controller, for any scheduler that keeps the
    laws, and that every enabled step is defined and preserves it. *)

From Stdlib Require Import ZArith Lia ZifyBool.
From stdpp Require Import base numbers option functions sets list.
From S2P Require Import Prelude SequenceNumber Guid CacheChange StatefulWriter FlowQueue FlowScheduler FlowSchedulerLaws FlowController.

Local Open Scope Z_scope.

(** ** Merging the interested samples *)

Definition merged (qs : list Z) (Q : ListId → list nat) (l : ListId) : list nat :=
  if decide (li_queue l ∈ qs) then
    match li_kind l with
    | NewOnes => Q l ++ Q (mkListId (li_queue l) NewInterested)
    | OldOnes => Q l ++ Q (mkListId (li_queue l) OldInterested)
    | _ => []
    end
  else Q l.

Lemma merge_queues_spec qs s Q :
  represents s Q → ∃ s', merge_queues qs s = Some s' ∧ represents s' (merged qs Q).
Proof.
  revert s Q. induction qs as [|q qs IH]; intros s Q HR; simpl.
  { exists s. split; [done|]. eapply rep_ext; [done|]. intros l. unfold merged.
    rewrite decide_False; [done|]. apply not_elem_of_nil. }
  destruct (queue_add_interested_spec s Q q HR) as (s1&->&HR1). cbn [mbind option_bind].
  destruct (IH s1 _ HR1) as (s2&->&HR2). exists s2. split; [done|].
  eapply rep_ext; [done|]. intros [q' k]. unfold merged. simpl. rewrite !contents_merge_lookup. simpl.
  destruct (decide (q' = q)) as [->|Hne].
  - rewrite decide_True by apply list_elem_of_here. case_decide; destruct k; by rewrite ?app_nil_r.
  - destruct (decide (q' ∈ q :: qs)) as [Hin|Hin]; rewrite elem_of_cons in Hin.
    + rewrite decide_True by tauto. done.
    + rewrite decide_False by tauto. done.
Qed.

Lemma merged_in qs Q l c : c ∈ merged qs Q l → ∃ k, c ∈ Q (mkListId (li_queue l) k).
Proof.
  unfold merged. destruct l as [q k]; simpl. case_decide; [|eauto].
  destruct k; [by intros ?%elem_of_nil|by intros ?%elem_of_nil|..];
    rewrite elem_of_app; intros [?|?]; eauto.
Qed.

Lemma in_merged qs Q q k c : c ∈ Q (mkListId q k) → ∃ k', c ∈ merged qs Q (mkListId q k').
Proof.
  intros Hc. unfold merged. simpl. destruct (decide (q ∈ qs)); [|by exists k].
  destruct k; [exists NewOnes|exists OldOnes|exists NewOnes|exists OldOnes];
    simpl; apply elem_of_app; auto.
Qed.

Section Controller.
Context {S : Type} `{SchedulerLaws S}.
Context (sample : nat → CacheChange_t) (owner : nat → Z).

Implicit Types fc : Controller S.

(** Sample [c] is at the front of a list the scheduler takes samples from. *)
Definition at_front (Q : ListId → list nat) (c : nat) : Prop :=
  ∃ q, next_sample q Q = Some c.

(** The node before and after the sample being delivered are still
    neighbours: it was taken from the front of [l]. *)
Definition taken_from (Q : ListId → list nat) (l : ListId) (p n : Node) : Prop :=
  p = Head l ∧ n = first_node (Q l) (Tail l) ∧
  (li_kind l = NewOnes ∨
   li_kind l = OldOnes ∧ Q (mkListId (li_queue l) NewOnes) = []).

Record fc_ok fc (Q : ListId → list nat) : Prop := {
  ok_rep : represents (fc_store fc) Q;
  ok_sched : has_thread (fc_mode fc) = true → sch_inv (fc_sched fc) (fc_writers fc);
  ok_sync : has_thread (fc_mode fc) = false →
    fc_running fc = false ∧ fc_thread fc = Idle ∧ ∀ l, Q l = [];
  ok_owner : ∀ l c, c ∈ Q l →
    owner c ∈ fc_writers fc ∧ sch_queue (fc_sched fc) (owner c) = Some (li_queue l);
  ok_thread :
    match fc_thread fc with
    | Processing c => at_front Q c
    | Delivering c p n =>
        owner c ∈ fc_writers fc ∧ (∀ l, c ∉ Q l) ∧
        ∃ l, taken_from Q l p n ∧ sch_queue (fc_sched fc) (owner c) = Some (li_queue l)
    | _ => True
    end;
  ok_wakeup : fc_thread fc = Waiting → fc_force_wait fc = false →
    (∃ l, Q l ≠ []) → fc_notified fc = true
}.

Lemma at_front_split Q c :
  at_front Q c →
  ∃ l cs, Q l = c :: cs ∧
    (li_kind l = NewOnes ∨ li_kind l = OldOnes ∧ Q (mkListId (li_queue l) NewOnes) = []).
Proof.
  intros [q Hq]. unfold next_sample in Hq.
  destruct (Q (mkListId q NewOnes)) as [|x xs] eqn:Hn; simpl in Hq.
  - destruct (Q (mkListId q OldOnes)) as [|y ys] eqn:Ho; simplify_eq/=.
    exists (mkListId q OldOnes), ys. split; [done|]. by right.
  - simplify_eq. exists (mkListId q NewOnes), xs. split; [done|]. by left.
Qed.

(** Every list outside the scheduler's queues is empty. *)
Lemma ok_outside fc Q l :
  fc_ok fc Q → has_thread (fc_mode fc) = true → li_queue l ∉ sch_queues (fc_sched fc) → Q l = [].
Proof.
  intros Hok Hm Hl. destruct (Q l) as [|c cs] eqn:HQ; [done|]. exfalso. apply Hl.
  destruct (ok_owner fc Q Hok l c) as [Hw Hq]; [rewrite HQ; apply list_elem_of_here|].
  destruct (sch_queue_in _ _ _ (ok_sched fc Q Hok Hm) Hw) as (q&Hq'&?). congruence.
Qed.

Lemma linked_in fc Q c : fc_ok fc Q → is_linked (fc_store fc) c = true ↔ ∃ l, c ∈ Q l.
Proof. intros Hok. apply Hok. Qed.

Lemma fc_new_ok m sc : sch_inv sc [] → fc_ok (fc_new m sc) (λ _, []).
Proof.
  intros Hsc. split; simpl; try done; [apply rep_empty|..].
  - intros _. destruct (get_max_payload m =? 2 ^ 32 - 1); [done|by apply sch_limit_spec].
  - by intros l c ?%elem_of_nil.
Qed.

Lemma fc_init_ok fc Q : fc_ok fc Q → fc_ok (fc_init fc) Q.
Proof.
  intros Hok. unfold fc_init. destruct (has_thread (fc_mode fc)) eqn:Hm; [|done].
  destruct (fc_running fc); [done|]. split; simpl; try apply Hok; done || congruence.
Qed.

(** ** The specification: sequences of samples and the sample in flight *)

(** The list the sample being delivered was taken from. *)
Definition in_flight fc : option (nat * ListId) :=
  match fc_thread fc with
  | Delivering c (Head l) _ => Some (c, l)
  | _ => None
  end.

Definition queued (Q : ListId → list nat) (c : nat) : Prop := ∃ l, c ∈ Q l.

(** A call of add_new_sample leaves the sample to the asynchronous thread. *)
Definition enqueues (m : PublishMode) (ret : option DeliveryRetCode) : bool :=
  has_thread m &&
  (negb (sends_new m) || match ret with Some NOT_DELIVERED | Some EXCEEDED_LIMIT => true | _ => false end).

(** What every event does to the samples waiting in the lists ([Q] to [Q'])
    and in flight ([f] to [f']): a sample is appended, taken from the front of
    a list, put back at the front of that list, or removed; nothing else
    changes. *)
Definition spec_step fc (ev : Event) (Q : ListId → list nat) (f : option (nat * ListId))
    (Q' : ListId → list nat) (f' : option (nat * ListId)) : Prop :=
  match ev with
  | EvRegister _ | EvUnregister _ => (∀ l, Q' l = Q l) ∧ f' = f
  | EvAddNew w c ret =>
      f' = f ∧
      if enqueues (fc_mode fc) ret && negb (is_linked (fc_store fc) c) then
        ∃ q, sch_queue (fc_sched fc) w = Some q ∧
          ∀ l, Q' l = contents_add (mkListId q NewInterested) c Q l
      else ∀ l, Q' l = Q l
  | EvAddOld w c =>
      f' = f ∧
      if has_thread (fc_mode fc) && negb (is_linked (fc_store fc) c) then
        ∃ q, sch_queue (fc_sched fc) w = Some q ∧
          ∀ l, Q' l = contents_add (mkListId q OldInterested) c Q l
      else ∀ l, Q' l = Q l
  | EvRemove c =>
      f' = f ∧
      ((∃ l cs1 cs2, Q l = cs1 ++ c :: cs2 ∧ ∀ l', Q' l' = (<[l:=cs1 ++ cs2]> Q) l') ∨
       (¬ queued Q c ∧ ∀ l, Q' l = Q l))
  | EvChoose | EvWake _ =>
      f = None ∧ f' = None ∧ ∀ l, Q' l = merged (sch_queues (fc_sched fc)) Q l
  | EvProcess bytes locked =>
      f = None ∧
      ∃ c l cs, fc_thread fc = Processing c ∧ Q l = c :: cs ∧
        (li_kind l = NewOnes ∨ li_kind l = OldOnes ∧ Q (mkListId (li_queue l) NewOnes) = []) ∧
        if fast_check (fc_mode fc) bytes (sample c) && locked
        then f' = Some (c, l) ∧ ∀ l', Q' l' = (<[l:=cs]> Q) l'
        else f' = None ∧ ∀ l', Q' l' = Q l'
  | EvDelivered ret removing =>
      f' = None ∧
      ∃ c l, f = Some (c, l) ∧
        if decide (ret = DELIVERED) then
          if removing : bool then ∀ l', Q' l' = Q l'
          else ∀ l', Q' l' = merged (sch_queues (fc_sched fc)) Q l'
        else ∀ l', Q' l' = (<[l:=c :: Q l]> Q) l'
  end.

(** An event is defined, keeps the invariant, and does what is specified. *)
Definition refines ev fc Q : Prop :=
  ∃ fc' Q', fc_exec sample owner ev fc = Some fc' ∧ fc_ok fc' Q' ∧
    spec_step fc ev Q (in_flight fc) Q' (in_flight fc').

Lemma contents_add_in l c Q l' x :
  x ∈ contents_add l c Q l' ↔ x ∈ Q l' ∨ (l' = l ∧ x = c).
Proof.
  unfold contents_add. destruct (decide (l = l')) as [<-|].
  - rewrite fn_lookup_insert, elem_of_app, list_elem_of_singleton. tauto.
  - rewrite fn_lookup_insert_ne by done. intuition congruence.
Qed.

Lemma contents_add_ne l c Q l' : l' ≠ l → contents_add l c Q l' = Q l'.
Proof. intros. unfold contents_add. by apply fn_lookup_insert_ne. Qed.

(** Adding to an interested list does not disturb the asynchronous thread. *)
Lemma at_front_add q k c Q x :
  k = NewInterested ∨ k = OldInterested →
  at_front Q x → at_front (contents_add (mkListId q k) c Q) x.
Proof.
  intros Hk [q' Hq]. exists q'. unfold next_sample.
  rewrite !contents_add_ne; [done|..]; intros [= -> <-]; by destruct Hk.
Qed.

Lemma taken_from_add q k c Q l p n :
  k = NewInterested ∨ k = OldInterested →
  taken_from Q l p n → taken_from (contents_add (mkListId q k) c Q) l p n.
Proof.
  intros Hk (Hp&Hn&Hl). unfold taken_from. rewrite !contents_add_ne; [done|..]; intros Heq.
  - injection Heq as _ <-. by destruct Hk.
  - subst l. simpl in Hl. destruct Hk as [-> | ->]; by destruct Hl as [?|[??]].
Qed.

Lemma writer_not_in_flight fc w c p n :
  fc_thread fc = Delivering c p n → writer_free owner w fc = true → owner c ≠ w.
Proof. unfold writer_free. intros ->. lia. Qed.

Lemma enqueue_ok fc Q k w c q :
  fc_ok fc Q → has_thread (fc_mode fc) = true → k = NewInterested ∨ k = OldInterested →
  w ∈ fc_writers fc → owner c = w → writer_free owner w fc = true →
  sch_queue (fc_sched fc) w = Some q →
  ∃ s, list_add_change (mkListId q k) c (fc_store fc) = Some s ∧
    fc_ok (notify_one (set_store s fc))
      (if is_linked (fc_store fc) c then Q else contents_add (mkListId q k) c Q).
Proof.
  intros Hok Hm Hk Hw Hc Hfree Hq.
  destruct (list_add_change_spec _ _ (ok_rep fc Q Hok) (mkListId q k) c) as (s&Hs&HR).
  exists s. split; [done|]. fold (contents_add (mkListId q k) c Q) in HR.
  destruct (is_linked (fc_store fc) c) eqn:Hlk.
  { unfold list_add_change in Hs. rewrite Hlk in Hs. injection Hs as <-.
    unfold notify_one. simpl. destruct (fc_thread fc) eqn:Ht; split; simpl; try apply Hok; try done.
    all: pose proof (ok_thread fc Q Hok) as Hth; by rewrite Ht in Hth. }
  assert (∀ l x, x ∈ contents_add (mkListId q k) c Q l →
    owner x ∈ fc_writers fc ∧ sch_queue (fc_sched fc) (owner x) = Some (li_queue l)) as Hown.
  { intros l x [Hx|[-> ->]]%contents_add_in; [by apply Hok|]. by rewrite Hc. }
  pose proof (ok_thread fc Q Hok) as Hth. pose proof (ok_sched fc Q Hok) as Hsc.
  unfold notify_one. simpl. destruct (fc_thread fc) as [| |x|x p n] eqn:Ht.
  all: split; simpl; rewrite ?Ht; try done; try congruence.
  - by apply at_front_add.
  - destruct Hth as (?&Hx&l&?&?). split; [done|]. split.
    + intros l' [?|[-> ->]]%contents_add_in; [by destruct (Hx l')|].
      by eapply (writer_not_in_flight fc w c p n).
    + exists l. split; [by apply taken_from_add|done].
Qed.

Lemma in_flight_enqueue s fc : in_flight (notify_one (set_store s fc)) = in_flight fc.
Proof. unfold in_flight, notify_one. simpl. destruct (fc_thread fc) eqn:Ht; simpl; by rewrite ?Ht. Qed.

Lemma enqueue_new_refines w c fc Q :
  fc_ok fc Q → has_thread (fc_mode fc) = true →
  w ∈ fc_writers fc → owner c = w → writer_free owner w fc = true →
  ∃ fc' Q', fc_enqueue_new w c fc = Some (true, fc') ∧ fc_ok fc' Q' ∧ in_flight fc' = in_flight fc ∧
    if is_linked (fc_store fc) c then ∀ l, Q' l = Q l
    else ∃ q, sch_queue (fc_sched fc) w = Some q ∧
      ∀ l, Q' l = contents_add (mkListId q NewInterested) c Q l.
Proof.
  intros Hok Hm Hw Hc Hfree. pose proof (ok_sched fc Q Hok Hm) as Hsc.
  destruct (sch_queue_in _ _ _ Hsc Hw) as (q&Hq&_).
  destruct (enqueue_ok fc Q NewInterested w c q) as (s&Hs&Hok'); auto.
  unfold fc_enqueue_new. rewrite Hm, (sch_add_new_spec _ _ w q c _ Hsc Hw Hq).
  unfold queue_add_new_sample. rewrite Hs. cbn [mbind option_bind].
  eexists _, _. split; [done|]. split; [done|]. split; [apply in_flight_enqueue|].
  destruct (is_linked (fc_store fc) c); [done|]. by exists q.
Qed.

Lemma add_new_refines w c ret fc Q :
  fc_ok fc Q → fc_enabled owner (EvAddNew w c ret) fc → refines (EvAddNew w c ret) fc Q.
Proof.
  intros Hok (Hw&Hc&Hfree). unfold refines. simpl. unfold fc_add_new.
  assert (enqueues (fc_mode fc) ret = false → snd <$> fc_add_new w c ret fc = Some fc) as Hskip.
  { unfold enqueues, fc_add_new, fc_enqueue_new. intros He.
    destruct (fc_mode fc); simpl in *; try done; destruct ret as [[]|]; done. }
  fold (fc_add_new w c ret fc). destruct (enqueues (fc_mode fc) ret) eqn:He; simpl.
  - assert (fc_add_new w c ret fc = fc_enqueue_new w c fc) as ->.
    { unfold fc_add_new, enqueues in *. destruct (fc_mode fc); simpl in *; try done.
      by destruct ret as [[]|]. }
    destruct (enqueue_new_refines w c fc Q) as (fc'&Q'&->&Hok'&Hf&HQ); auto.
    { unfold enqueues in He. by destruct (fc_mode fc). }
    exists fc', Q'. split; [done|]. split; [done|]. split; [done|].
    by destruct (is_linked (fc_store fc) c).
  - rewrite Hskip by done. by exists fc, Q.
Qed.

Lemma add_old_refines w c fc Q :
  fc_ok fc Q → fc_enabled owner (EvAddOld w c) fc → refines (EvAddOld w c) fc Q.
Proof.
  intros Hok (Hw&Hc&Hfree). unfold refines. simpl. unfold fc_add_old.
  destruct (has_thread (fc_mode fc)) eqn:Hm; [|by exists fc, Q].
  destruct (is_linked (fc_store fc) c) eqn:Hlk; [by exists fc, Q|].
  pose proof (ok_sched fc Q Hok Hm) as Hsc. destruct (sch_queue_in _ _ _ Hsc Hw) as (q&Hq&_).
  destruct (enqueue_ok fc Q OldInterested w c q) as (s&Hs&Hok'); auto.
  rewrite (sch_add_old_spec _ _ w q c _ Hsc Hw Hq). unfold queue_add_old_sample. rewrite Hs.
  rewrite Hlk in Hok'. eexists _, _. split; [done|]. split; [done|].
  split; [apply in_flight_enqueue|]. by exists q.
Qed.

Lemma remove_refines c fc Q :
  fc_ok fc Q → fc_enabled owner (EvRemove c) fc → refines (EvRemove c) fc Q.
Proof.
  intros Hok (Hfree&Hmtx). unfold refines. simpl. unfold fc_remove.
  pose proof (linked_in fc Q c Hok) as Hin.
  destruct (has_thread (fc_mode fc)) eqn:Hm.
  - destruct (is_linked (fc_store fc) c) eqn:Hlk.
    + destruct (proj1 Hin eq_refl) as [l Hl]. specialize (Hmtx eq_refl).
      apply list_elem_of_split in Hl as (cs1&cs2&Hl).
      destruct (unlink_spec _ _ (ok_rep fc Q Hok) l cs1 c cs2 Hl) as (_&_&s&->&HR&_).
      eexists _, _. split; [done|]. split; [|split; [done|left; by exists l, cs1, cs2]].
      assert (∀ l' x, x ∈ (<[l:=cs1 ++ cs2]> Q) l' → x ∈ Q l') as Hsub.
      { intros l' x. destruct (decide (l = l')) as [<-|]; [|by rewrite fn_lookup_insert_ne].
        rewrite fn_lookup_insert, Hl, !elem_of_app, elem_of_cons. tauto. }
      unfold mutex_free in Hmtx.
      split; simpl; try done; try apply Hok; try congruence.
      * intros l' x Hx. apply Hok. by apply Hsub.
      * by destruct (fc_thread fc).
      * intros ?? (l'&Hne). apply Hok; [done..|]. exists l'. destruct ((<[l:=cs1 ++ cs2]> Q) l') as [|x xs] eqn:Hx; [done|].
        intros HQ. specialize (Hsub l' x). rewrite Hx, HQ in Hsub.
        by apply (elem_of_nil x), Hsub, list_elem_of_here.
    + exists fc, Q. split; [done|]. split; [done|]. split; [done|]. right. split; [|done].
      intros Hq. by apply Hin in Hq.
  - exists fc, Q. split; [done|]. split; [done|]. split; [done|]. right. split; [|done].
    intros [l Hl]. destruct (ok_sync fc Q Hok Hm) as (_&_&HQ). rewrite HQ in Hl.
    by apply elem_of_nil in Hl.
Qed.

Lemma register_refines w fc Q :
  fc_ok fc Q → fc_enabled owner (EvRegister w) fc → refines (EvRegister w) fc Q.
Proof.
  intros Hok (Hmtx&Hw). unfold refines. simpl. unfold fc_register. simpl.
  destruct (has_thread (fc_mode fc)) eqn:Hm.
  - destruct (sch_register_spec _ _ w _ _ (ok_sched fc Q Hok Hm) Hw (ok_rep fc Q Hok))
      as (sc&s&->&Hinv&HR&Hq); [intros; by eapply ok_outside|].
    eexists _, Q. split; [done|]. split; [|done].
    unfold mutex_free in Hmtx.
    split; simpl; try done; try apply Hok; try congruence.
    + intros l c (Hc&Hl)%(ok_owner fc Q Hok). rewrite Hq by done.
      split; [by apply list_elem_of_further|done].
    + by destruct (fc_thread fc).
  - eexists _, Q. split; [done|]. split; [|done].
    unfold mutex_free in Hmtx. destruct (ok_sync fc Q Hok Hm) as (?&?&HQ).
    split; simpl; try done; try apply Hok; try congruence.
    + intros l c Hc. rewrite HQ in Hc. by apply elem_of_nil in Hc.
    + by destruct (fc_thread fc).
Qed.

Lemma unregister_refines w fc Q :
  fc_ok fc Q → fc_enabled owner (EvUnregister w) fc → refines (EvUnregister w) fc Q.
Proof.
  intros Hok (Hmtx&Hw&Hno). unfold refines. simpl. unfold fc_unregister. simpl.
  unfold mutex_free in Hmtx.
  assert (∀ l c, c ∈ Q l → owner c ≠ w) as Howner.
  { intros l c Hc. apply Hno, (linked_in fc Q c Hok). by exists l. }
  destruct (has_thread (fc_mode fc)) eqn:Hm.
  - destruct (sch_unregister_spec _ _ w (ok_sched fc Q Hok Hm) Hw) as (sc&->&Hinv&Hq).
    eexists _, Q. split; [done|]. split; [|done].
    split; simpl; try done; try apply Hok; try congruence.
    + intros l c Hc. destruct (ok_owner fc Q Hok l c Hc) as [Hin Hl].
      rewrite Hq by eauto. split; [apply list_elem_of_filter; eauto|done].
    + by destruct (fc_thread fc).
  - eexists _, Q. split; [done|]. split; [|done]. destruct (ok_sync fc Q Hok Hm) as (?&?&HQ).
    split; simpl; try done; try apply Hok; try congruence.
    + intros l c Hc. rewrite HQ in Hc. by apply elem_of_nil in Hc.
    + by destruct (fc_thread fc).
Qed.

(** The part of the invariant that does not depend on where the thread is. *)
Record fc_base fc (Q : ListId → list nat) : Prop := {
  base_rep : represents (fc_store fc) Q;
  base_mode : has_thread (fc_mode fc) = true;
  base_sched : sch_inv (fc_sched fc) (fc_writers fc);
  base_owner : ∀ l c, c ∈ Q l →
    owner c ∈ fc_writers fc ∧ sch_queue (fc_sched fc) (owner c) = Some (li_queue l)
}.

Lemma ok_base fc Q : fc_ok fc Q → has_thread (fc_mode fc) = true → fc_base fc Q.
Proof. intros Hok Hm. split; [apply Hok|done|by apply Hok|apply Hok]. Qed.

Lemma ok_running fc Q :
  fc_ok fc Q → fc_running fc = true ∨ fc_thread fc ≠ Idle → fc_base fc Q.
Proof.
  intros Hok Hr. apply ok_base; [done|]. destruct (has_thread (fc_mode fc)) eqn:Hm; [done|].
  destruct (ok_sync fc Q Hok Hm) as (?&?&_). by destruct Hr; congruence.
Qed.

Lemma base_queue fc Q l : fc_base fc Q → Q l ≠ [] → li_queue l ∈ sch_queues (fc_sched fc).
Proof.
  intros Hb Hl. destruct (Q l) as [|c cs] eqn:HQ; [done|].
  destruct (base_owner fc Q Hb l c) as [Hw Hq]; [rewrite HQ; apply list_elem_of_here|].
  destruct (sch_queue_in _ _ _ (base_sched fc Q Hb) Hw) as (q&?&?). congruence.
Qed.

(** Adding the interested samples and asking the scheduler for the next one. *)
Lemma choose_spec fc Q :
  fc_base fc Q →
  ∃ s, sch_add_interested (fc_sched fc) (fc_store fc) = Some s ∧
    represents s (merged (sch_queues (fc_sched fc)) Q) ∧
    (∀ l c, c ∈ merged (sch_queues (fc_sched fc)) Q l →
       owner c ∈ fc_writers fc ∧ sch_queue (fc_sched fc) (owner c) = Some (li_queue l)) ∧
    ∃ r sc, sch_get_next sample (fc_sched fc) s = Some (Change <$> r, sc) ∧
      sch_inv sc (fc_writers fc) ∧ (∀ w, sch_queue sc w = sch_queue (fc_sched fc) w) ∧
      match r with
      | None => ∀ l, merged (sch_queues (fc_sched fc)) Q l = []
      | Some c => at_front (merged (sch_queues (fc_sched fc)) Q) c
      end.
Proof.
  intros Hb. rewrite sch_add_interested_spec.
  destruct (merge_queues_spec (sch_queues (fc_sched fc)) _ _ (base_rep fc Q Hb)) as (s&->&HR).
  exists s. split; [done|]. split; [done|]. split.
  { intros l c (k&Hc)%merged_in. by apply (base_owner fc Q Hb) in Hc. }
  destruct (sch_get_next_spec sample _ _ s _ (base_sched fc Q Hb) HR) as (r&sc&->&Hinv&_&Hq&Hr).
  exists r, sc. split; [done|]. split; [done|]. split; [done|].
  destruct r as [c|]; [by destruct Hr as (q&_&?); exists q|].
  intros l. unfold merged at 1. case_decide as Hl.
  - destruct l as [q k]; simpl in *. specialize (Hr q Hl). unfold next_sample, merged in Hr.
    simpl in Hr. rewrite !decide_True in Hr by done.
    destruct k; try done; destruct (Q (mkListId q NewOnes)); simpl in *; try done;
      destruct (Q (mkListId q NewInterested)); simpl in *; try done;
      destruct (Q (mkListId q OldOnes)); simpl in *; try done;
      by destruct (Q (mkListId q OldInterested)).
  - destruct (Q l) eqn:HQ; [done|]. destruct Hl. apply (base_queue fc Q l Hb). by rewrite HQ.
Qed.

Lemma run_choose_ok fc Q :
  fc_base fc Q →
  ∃ fc', run_choose sample fc = Some fc' ∧
    fc_ok fc' (merged (sch_queues (fc_sched fc)) Q) ∧ in_flight fc' = None.
Proof.
  intros Hb. destruct (choose_spec fc Q Hb) as (s&Hs&HR&Hown&r&sc&Hn&Hinv&Hq&Hr).
  pose proof (base_mode fc Q Hb) as Hm. unfold run_choose. rewrite Hs. cbn [mbind option_bind]. simpl.
  destruct (fc_force_wait fc) eqn:Hfw.
  - eexists. split; [done|]. split; [|done].
    split; simpl; try done; [by intros _; apply Hb|congruence..].
  - rewrite Hn. cbn [mbind option_bind].
    assert (∀ l c, c ∈ merged (sch_queues (fc_sched fc)) Q l →
      owner c ∈ fc_writers fc ∧ sch_queue sc (owner c) = Some (li_queue l)) as Hown'.
    { intros l c Hc. rewrite Hq. by apply Hown. }
    destruct r as [c|]; simpl; eexists; (split; [done|]); (split; [|done]).
    all: split; simpl; try done; try congruence.
    intros _ _ (l&Hl). by destruct (Hl (Hr l)).
Qed.

Lemma choose_refines fc Q :
  fc_ok fc Q → fc_enabled owner EvChoose fc → refines EvChoose fc Q.
Proof.
  intros Hok (Hr&Ht). destruct (run_choose_ok fc Q) as (fc'&He&Hok'&Hf).
  { apply ok_running; [done|]. by left. }
  exists fc', (merged (sch_queues (fc_sched fc)) Q). split; [done|]. split; [done|].
  split; [|done]. unfold in_flight. by rewrite Ht.
Qed.

Lemma wake_refines timeout fc Q :
  fc_ok fc Q → fc_enabled owner (EvWake timeout) fc → refines (EvWake timeout) fc Q.
Proof.
  intros Hok (Hr&Ht). assert (fc_base fc Q) as Hb by (apply ok_running; [done|by left]).
  unfold refines. simpl. unfold run_wake.
  assert (in_flight fc = None) as -> by (unfold in_flight; by rewrite Ht).
  destruct (timeout && is_limited (fc_mode fc)).
  - destruct (sch_reset_spec _ _ (base_sched fc Q Hb)) as (Hinv&Hqs&Hq).
    destruct (run_choose_ok (set_force_wait false (set_sched (sch_reset (fc_sched fc)) fc)) Q)
      as (fc'&He&Hok'&Hf).
    { split; simpl; try apply Hb; [done|]. intros l c Hc. rewrite Hq. by apply Hb. }
    rewrite He. exists fc', (merged (sch_queues (fc_sched fc)) Q). split; [done|].
    simpl in Hok'. rewrite Hqs in Hok'. split; [done|]. by split.
  - destruct (run_choose_ok fc Q Hb) as (fc'&He&Hok'&Hf).
    rewrite He. exists fc', (merged (sch_queues (fc_sched fc)) Q). split; [done|].
    split; [done|]. by split.
Qed.

(** Going back to the top of the loop. *)
Lemma idle_ok fc Q (b : bool) :
  fc_base fc Q → fc_ok (set_thread Idle (if b then set_force_wait true fc else fc)) Q.
Proof.
  intros Hb. pose proof (base_mode fc Q Hb). destruct b.
  all: split; simpl; try done; try congruence; [apply Hb|by intros _; apply Hb|apply Hb].
Qed.

Lemma process_refines bytes locked fc Q :
  fc_ok fc Q → fc_enabled owner (EvProcess bytes locked) fc → refines (EvProcess bytes locked) fc Q.
Proof.
  intros Hok [c Ht]. unfold refines. simpl. rewrite Ht.
  assert (fc_base fc Q) as Hb by (apply ok_running; [done|right; by rewrite Ht]).
  assert (in_flight fc = None) as -> by (unfold in_flight; by rewrite Ht).
  pose proof (ok_thread fc Q Hok) as Hfront. rewrite Ht in Hfront.
  destruct (at_front_split Q c Hfront) as (l&cs&Hl&Hk).
  assert (c ∈ Q l) as Hc by (rewrite Hl; apply list_elem_of_here).
  destruct (base_owner fc Q Hb l c Hc) as [Hw Hq].
  unfold run_process. rewrite (decide_True (P := owner c ∈ fc_writers fc)) by done.
  destruct (fast_check (fc_mode fc) bytes (sample c)) eqn:Hfast; simpl;
    [destruct locked; simpl|].
  - destruct (unlink_spec _ _ (base_rep fc Q Hb) l [] c cs Hl) as (Hp&Hn&s&Hs&HR&_).
    rewrite Hp, Hn, Hs. cbn [mbind option_bind].
    eexists _, (<[l:=cs]> Q). split; [done|]. split.
    2: { split; [done|]. exists c, l, cs. split; [done|]. split; [done|]. split; [done|].
         rewrite Hfast. done. }
    pose proof (rep_nodup _ _ (base_rep fc Q Hb) l) as Hnd. rewrite Hl in Hnd.
    apply NoDup_cons in Hnd as [Hcs _].
    assert (∀ l' x, x ∈ (<[l:=cs]> Q) l' → x ∈ Q l' ∧ x ≠ c) as Hsub.
    { intros l' x. destruct (decide (l = l')) as [<-|Hne].
      - rewrite fn_lookup_insert, Hl, elem_of_cons. intros Hx. split; [by right|]. by intros ->.
      - rewrite fn_lookup_insert_ne by done. intros Hx. split; [done|]. intros ->.
        apply Hne. by eapply (rep_disjoint _ _ (base_rep fc Q Hb)). }
    split; simpl; try done; try congruence.
    + intros _. apply Hb.
    + pose proof (base_mode fc Q Hb). congruence.
    + intros l' x [Hx _]%Hsub. by apply Hb.
    + split; [done|]. split; [by intros l' [_ ?]%Hsub|]. exists l. split; [|done].
      split; [done|]. split; [by rewrite fn_lookup_insert|].
      destruct Hk as [?|[Hk HQ]]; [by left|right]. split; [done|].
      rewrite fn_lookup_insert_ne; [done|]. intros Heq. apply (f_equal li_kind) in Heq. simpl in Heq. congruence.
  - eexists _, Q. split; [done|]. split; [by apply (idle_ok fc Q false)|].
    split; [done|]. exists c, l, cs. rewrite Hfast. done.
  - eexists _, Q. split; [done|]. split; [by apply (idle_ok fc Q true)|].
    split; [done|]. exists c, l, cs. rewrite Hfast. done.
Qed.

(** A sample that could not be delivered is put back where it was. *)
Lemma relink_ok fc Q c p n :
  fc_ok fc Q → fc_thread fc = Delivering c p n →
  ∃ l, in_flight fc = Some (c, l) ∧
    fc_base (set_store (relink c p n (fc_store fc)) fc) (<[l:=c :: Q l]> Q).
Proof.
  intros Hok Ht. pose proof (ok_thread fc Q Hok) as Hth. rewrite Ht in Hth.
  destruct Hth as (Hw&Hno&l&(->&->&Hk)&Hq).
  assert (fc_base fc Q) as Hb by (apply ok_running; [done|right; by rewrite Ht]).
  exists l. split; [unfold in_flight; by rewrite Ht|]. split; simpl; try apply Hb.
  - apply (relink_spec _ _ (base_rep fc Q Hb) l [] c (Q l)); [done|].
    destruct (is_linked (fc_store fc) c) eqn:Hlk; [|done].
    apply (linked_in fc Q c Hok) in Hlk as [l' ?]. by destruct (Hno l').
  - intros l' x. destruct (decide (l = l')) as [<-|Hne].
    + rewrite fn_lookup_insert, elem_of_cons. intros [->|Hx]; [done|by apply Hb].
    + rewrite fn_lookup_insert_ne by done. apply Hb.
Qed.

Lemma delivered_refines ret removing fc Q :
  fc_ok fc Q → fc_enabled owner (EvDelivered ret removing) fc →
  refines (EvDelivered ret removing) fc Q.
Proof.
  intros Hok (c&p&n&Ht). unfold refines. simpl. rewrite Ht.
  assert (fc_base fc Q) as Hb by (apply ok_running; [done|right; by rewrite Ht]).
  destruct (relink_ok fc Q c p n Hok Ht) as (l&Hf&Hrelink).
  destruct (decide (ret = DELIVERED)) as [->|Hret].
  2: { exists (set_thread Idle (if exceeds (fc_mode fc) ret then set_force_wait true (set_store (relink c p n (fc_store fc)) fc)
                else set_store (relink c p n (fc_store fc)) fc)), (<[l:=c :: Q l]> Q).
       split; [unfold run_delivered; by destruct ret|].
       split; [by apply (idle_ok (set_store _ fc) _ _)|]. split; [done|]. by exists c, l. }
  assert (fc_writers fc ≠ []) as Hne.
  { pose proof (ok_thread fc Q Hok) as Hth. rewrite Ht in Hth. destruct Hth as [Hw _].
    intros Hx. rewrite Hx in Hw. by apply elem_of_nil in Hw. }
  destruct (sch_work_done_spec _ _ (base_sched fc Q Hb) Hne) as (sc&Hsc&Hinv&Hqs&Hq).
  simpl. rewrite Hsc. cbn [mbind option_bind].
  assert (fc_base (set_sched sc fc) Q) as Hb'.
  { split; simpl; try apply Hb; [done|]. intros l' x Hx. rewrite Hq. by apply Hb. }
  destruct removing.
  - eexists _, Q. split; [done|]. split; [by apply (idle_ok (set_sched sc fc) Q false)|].
    split; [done|]. by exists c, l.
  - destruct (choose_spec _ Q Hb') as (s&Hs&HR&Hown&r&sc'&Hn&Hinv'&Hq'&Hr).
    simpl in *. rewrite Hs. cbn [mbind option_bind]. rewrite Hn. cbn [mbind option_bind].
    rewrite Hqs in *.
    assert (∀ l c, c ∈ merged (sch_queues (fc_sched fc)) Q l →
      owner c ∈ fc_writers fc ∧ sch_queue sc' (owner c) = Some (li_queue l)) as Hown'.
    { intros l' x Hx. rewrite Hq'. by apply Hown. }
    pose proof (base_mode fc Q Hb).
    destruct r as [x|]; simpl; eexists _, (merged (sch_queues (fc_sched fc)) Q);
      (split; [done|]); (split; [|split; [done|by exists c, l]]).
    all: split; simpl; try done; congruence.
Qed.

(** ** Every enabled event is defined, keeps the invariant and refines the
    specification *)
Lemma fc_step_refines ev fc Q :
  fc_ok fc Q → fc_enabled owner ev fc → refines ev fc Q.
Proof.
  destruct ev.
  - apply register_refines.
  - apply unregister_refines.
  - apply add_new_refines.
  - apply add_old_refines.
  - apply remove_refines.
  - apply choose_refines.
  - apply wake_refines.
  - apply process_refines.
  - apply delivered_refines.
Qed.
End Controller.
