(* ===== verification/FlowControllerTheorems.v ===== *)
(** What the flow controllers guarantee: the pointer structure implements
    queues, samples are sent in order and none is lost, waiting ends, and what
    each scheduler's choice means. *)

From Stdlib Require Import ZArith Lia ZifyBool Sorting.Sorted.
From stdpp Require Import base numbers option functions sets list.
From S2P Require Import Prelude SequenceNumber Guid CacheChange StatefulWriter FlowQueue FlowScheduler FlowSchedulerLaws FlowSchedulerTheorems FlowController FlowControllerFacts.

Local Open Scope Z_scope.

Section Controller.
Context {S : Type} `{SchedulerLaws S}.
Context (sample : nat → CacheChange_t) (owner : nat → Z).

Implicit Types fc : Controller S.

(** ** Reachable controllers *)

Lemma run_ok fc0 Q0 evs fc :
  fc_ok owner fc0 Q0 → fc_run sample owner fc0 evs fc → ∃ Q, fc_ok owner fc Q.
Proof.
  intros Hok. induction 1 as [|evs ev fc fc' _ [Q IH] Hen Hex]; [by exists Q0|].
  destruct (fc_step_refines sample owner ev fc Q IH Hen) as (fc''&Q'&Hex'&Hok'&_).
  exists Q'. congruence.
Qed.

Lemma started_ok m sc : sch_inv sc [] → fc_ok owner (fc_init (fc_new m sc)) (λ _, []).
Proof. intros. by apply fc_init_ok, fc_new_ok. Qed.

(** ** The order of the samples of a queue *)

(** The list a sample waits in before it is moved to list [k]. *)
Definition interested (k : ListKind) : ListKind :=
  match k with OldOnes => OldInterested | _ => NewInterested end.

(** The samples an event adds to queue [q], as new ones or to be sent
    again. *)
Definition added (q : Z) (k : ListKind) (ev : Event) fc : list nat :=
  match ev, k with
  | EvAddNew w c ret, NewOnes =>
      if enqueues (fc_mode fc) ret && negb (is_linked (fc_store fc) c)
         && bool_decide (sch_queue (fc_sched fc) w = Some q) then [c] else []
  | EvAddOld w c, OldOnes =>
      if has_thread (fc_mode fc) && negb (is_linked (fc_store fc) c)
         && bool_decide (sch_queue (fc_sched fc) w = Some q) then [c] else []
  | _, _ => []
  end.

(** The sample taken from list [k] of queue [q] that is being delivered. *)
Definition flying (q : Z) (k : ListKind) fc : list nat :=
  match in_flight fc with
  | Some (c, l) => if decide (l = mkListId q k) then [c] else []
  | None => []
  end.

(** The samples an event finishes delivering. *)
Definition sent (q : Z) (k : ListKind) (ev : Event) fc : list nat :=
  match ev with
  | EvDelivered DELIVERED _ => flying q k fc
  | _ => []
  end.

Definition is_remove (ev : Event) : bool :=
  match ev with EvRemove _ => true | _ => false end.

(** A run, with the samples added to a list of a queue, the samples sent from
    it, and whether no sample was removed. *)
Inductive fc_history (q : Z) (k : ListKind) (fc0 : Controller S) :
    list nat → list nat → bool → Controller S → Prop :=
  | history_start : fc_history q k fc0 [] [] true fc0
  | history_step a s clean ev fc fc' :
      fc_history q k fc0 a s clean fc → fc_enabled owner ev fc →
      fc_exec sample owner ev fc = Some fc' →
      fc_history q k fc0 (a ++ added q k ev fc) (s ++ sent q k ev fc)
        (clean && negb (is_remove ev)) fc'.

(** The samples of the queue still to be sent. *)
Definition pending (q : Z) (k : ListKind) fc (Q : ListId → list nat) : list nat :=
  flying q k fc ++ Q (mkListId q k) ++ Q (mkListId q (interested k)).

Lemma pending_merged q k qs Q :
  k = NewOnes ∨ k = OldOnes →
  merged qs Q (mkListId q k) ++ merged qs Q (mkListId q (interested k)) =
  Q (mkListId q k) ++ Q (mkListId q (interested k)).
Proof.
  intros Hk. unfold merged. simpl. case_decide; [|done].
  destruct Hk as [-> | ->]; simpl; by rewrite app_nil_r.
Qed.

Lemma interested_ne q k q' k' :
  k = NewOnes ∨ k = OldOnes → k' = NewOnes ∨ k' = OldOnes →
  mkListId q' k' ≠ mkListId q (interested k).
Proof. intros [-> | ->] [-> | ->]; done. Qed.

(** Enqueueing a sample adds it behind the pending ones of its queue. *)
Lemma pending_add q k k' q0 c (Q Q' : ListId → list nat) :
  k = NewOnes ∨ k = OldOnes → k' = NewOnes ∨ k' = OldOnes →
  (∀ l, Q' l = contents_add (mkListId q0 (interested k')) c Q l) →
  Q' (mkListId q k) ++ Q' (mkListId q (interested k)) =
  (Q (mkListId q k) ++ Q (mkListId q (interested k))) ++
  (if decide (q0 = q ∧ k' = k) then [c] else []).
Proof.
  intros Hk Hk' HQ. rewrite !HQ.
  rewrite (contents_add_ne _ _ _ (mkListId q k)) by (by apply interested_ne).
  case_decide as Hd.
  - destruct Hd as [-> ->]. unfold contents_add. by rewrite fn_lookup_insert, app_assoc.
  - rewrite contents_add_ne, app_nil_r; [done|]. intros [= -> Hi]. apply Hd. split; [done|].
    by destruct Hk as [-> | ->], Hk' as [-> | ->].
Qed.

Lemma list_id_eta l : mkListId (li_queue l) (li_kind l) = l.
Proof. by destruct l. Qed.

Lemma in_flight_kind fc Q c l :
  fc_ok owner fc Q → in_flight fc = Some (c, l) → li_kind l = NewOnes ∨ li_kind l = OldOnes.
Proof.
  intros Hok Hf. pose proof (ok_thread owner fc Q Hok) as Hth. unfold in_flight in Hf.
  destruct (fc_thread fc) as [| |x|x [l'|l'|y] n]; simplify_eq.
  destruct Hth as (_&_&l'&(Hl&_&Hk)&_). injection Hl as <-. tauto.
Qed.

Lemma added_lane {A} (q q0 : Z) (k k' : ListKind) (b : bool) (o : option Z) (x y : A) :
  o = Some q0 → bool_decide (o = Some q) && bool_decide (k' = k) = b →
  (if decide (q0 = q ∧ k' = k) then x else y) = if b then x else y.
Proof.
  intros -> <-. destruct (decide (k' = k)), (decide (q0 = q)); repeat case_decide;
    repeat case_bool_decide; simpl; (done || intuition congruence).
Qed.

(** An event that removes nothing: what it adds goes to the end, what it sends
    comes from the front. *)
Lemma pending_step q k ev fc Q fc' Q' :
  k = NewOnes ∨ k = OldOnes → is_remove ev = false → fc_ok owner fc Q →
  spec_step sample fc ev Q (in_flight fc) Q' (in_flight fc') →
  sent q k ev fc ++ pending q k fc' Q' = pending q k fc Q ++ added q k ev fc.
Proof.
  intros Hk Hrem Hok Hst. pose proof (in_flight_kind fc Q) as Hkind.
  unfold pending, sent, flying, added.
  destruct ev as [w|w|w c ret|w c|c| |timeout|bytes locked|ret removing]; simpl in Hst;
    simpl; rewrite ?app_nil_r.
  - destruct Hst as [HQ ->]. by rewrite !HQ.
  - destruct Hst as [HQ ->]. by rewrite !HQ.
  - destruct Hst as [-> Hst].
    destruct (enqueues (fc_mode fc) ret && negb (is_linked (fc_store fc) c)); simpl;
      [|rewrite !Hst; by destruct k; rewrite app_nil_r].
    destruct Hst as (q0&Hq0&HQ). rewrite (pending_add q k NewOnes q0 c Q Q') by auto.
    rewrite <- !app_assoc. do 3 f_equal. erewrite added_lane by done.
    destruct Hk as [-> | ->]; by destruct (bool_decide _).
  - destruct Hst as [-> Hst].
    destruct (has_thread (fc_mode fc) && negb (is_linked (fc_store fc) c)); simpl;
      [|rewrite !Hst; by destruct k; rewrite app_nil_r].
    destruct Hst as (q0&Hq0&HQ). rewrite (pending_add q k OldOnes q0 c Q Q') by auto.
    rewrite <- !app_assoc. do 3 f_equal. erewrite added_lane by done.
    destruct Hk as [-> | ->]; by destruct (bool_decide _).
  - done.
  - destruct Hst as (->&->&HQ). rewrite !HQ. by apply pending_merged.
  - destruct Hst as (->&->&HQ). rewrite !HQ. by apply pending_merged.
  - destruct Hst as (->&c&l&cs&_&Hl&Hlk&Hst).
    destruct (fast_check _ _ _ && locked); destruct Hst as [-> HQ]; rewrite !HQ; [|done].
    assert (l ≠ mkListId q (interested k)) as Hne.
    { rewrite <- (list_id_eta l). apply interested_ne; [done|]. tauto. }
    rewrite (fn_lookup_insert_ne _ l (mkListId q (interested k))) by done.
    case_decide as Hd; [subst l; by rewrite fn_lookup_insert, Hl|].
    by rewrite fn_lookup_insert_ne.
  - destruct Hst as (->&c&l&Hf&Hst). specialize (Hkind c l Hok Hf). rewrite Hf.
    assert (l ≠ mkListId q (interested k)) as Hne.
    { rewrite <- (list_id_eta l). by apply interested_ne. }
    destruct (decide (ret = DELIVERED)) as [->|Hret].
    + f_equal. destruct removing; rewrite !Hst; [done|]. by apply pending_merged.
    + rewrite !Hst, (fn_lookup_insert_ne _ l (mkListId q (interested k))) by done.
      destruct ret; [done|..].
      all: case_decide as Hd; [subst l; by rewrite fn_lookup_insert|by rewrite fn_lookup_insert_ne].
Qed.

(** Removing a sample keeps the others in order. *)
Lemma pending_remove q k c fc Q fc' Q' :
  spec_step sample fc (EvRemove c) Q (in_flight fc) Q' (in_flight fc') →
  pending q k fc' Q' `sublist_of` pending q k fc Q.
Proof.
  intros [Hf Hst]. unfold pending, flying. rewrite Hf. apply sublist_app; [done|].
  destruct Hst as [(l&cs1&cs2&Hl&HQ)|[_ HQ]]; rewrite !HQ; [|done].
  assert (∀ l', (<[l:=cs1 ++ cs2]> Q) l' `sublist_of` Q l') as Hsub.
  { intros l'. destruct (decide (l = l')) as [<-|]; [|by rewrite fn_lookup_insert_ne].
    rewrite fn_lookup_insert, Hl. apply sublist_app; [done|]. by apply sublist_cons. }
  by apply sublist_app.
Qed.

Lemma history_ok q k fc0 Q0 a s clean fc :
  fc_ok owner fc0 Q0 → (∀ l, Q0 l = []) → in_flight fc0 = None →
  k = NewOnes ∨ k = OldOnes → fc_history q k fc0 a s clean fc →
  ∃ Q, fc_ok owner fc Q ∧ s ++ pending q k fc Q `sublist_of` a ∧
    (clean = true → s ++ pending q k fc Q = a).
Proof.
  intros Hok HQ0 Hf0 Hk. induction 1 as [|a s clean ev fc fc' _ (Q&HokQ&Hsub&Heq) Hen Hex].
  { exists Q0. unfold pending, flying. rewrite Hf0, !HQ0. done. }
  destruct (fc_step_refines sample owner ev fc Q HokQ Hen) as (fc''&Q'&Hex'&Hok'&Hst).
  assert (fc'' = fc') as -> by congruence. exists Q'. split; [done|].
  destruct (is_remove ev) eqn:Hrem; simpl.
  - rewrite andb_false_r. split; [|done]. destruct ev; try done. simpl. rewrite !app_nil_r.
    etrans; [|done]. apply sublist_app; [done|]. by eapply pending_remove.
  - rewrite andb_true_r.
    pose proof (pending_step q k ev fc Q fc' Q' Hk Hrem HokQ Hst) as Hstep.
    rewrite <- app_assoc, Hstep, app_assoc. split; [by apply sublist_app|].
    intros Hc. by rewrite Heq.
Qed.

(** ** Emptying the queues *)

(** The asynchronous thread on its own, with every lock and every delivery
    succeeding, until it waits: the samples it delivers. *)
Fixpoint drain (fuel : nat) fc : option (list nat * Controller S) :=
  match fuel with
  | O => Some ([], fc)
  | Datatypes.S fuel =>
      match fc_thread fc with
      | Idle => fc ← run_choose sample fc; drain fuel fc
      | Waiting => Some ([], fc)
      | Processing c => fc ← run_process sample owner 0 true c fc; drain fuel fc
      | Delivering c p n =>
          fc ← run_delivered sample DELIVERED false c p n fc;
          '(cs, fc) ← drain fuel fc;
          Some (c :: cs, fc)
      end
  end.

(** [cs] are the samples waiting in the lists. *)
Definition holds_samples (Q : ListId → list nat) (cs : list nat) : Prop :=
  NoDup cs ∧ ∀ c, queued Q c ↔ c ∈ cs.

Lemma queued_merged fc Q c :
  fc_base owner fc Q → queued (merged (sch_queues (fc_sched fc)) Q) c ↔ queued Q c.
Proof.
  intros Hb. split; intros [[q k] Hl].
  - apply merged_in in Hl as [k' ?]. by eexists.
  - apply (in_merged (sch_queues (fc_sched fc))) in Hl as [k' ?]. by eexists.
Qed.

(** A thread that does not have to wait for a period. *)
Definition unlimited fc : Prop :=
  fc_running fc = true ∧ is_limited (fc_mode fc) = false ∧ fc_force_wait fc = false.

Lemma choose_drains fc Q cs :
  fc_ok owner fc Q → fc_thread fc = Idle → unlimited fc → holds_samples Q cs →
  ∃ fc' Q', run_choose sample fc = Some fc' ∧ fc_ok owner fc' Q' ∧ unlimited fc' ∧
    holds_samples Q' cs ∧
    ((fc_thread fc' = Waiting ∧ cs = []) ∨ ∃ c, fc_thread fc' = Processing c).
Proof.
  intros Hok Ht (Hr&Hm&Hfw) [Hnd Hcs].
  assert (fc_base owner fc Q) as Hb by (apply (ok_running owner fc Q Hok); by left).
  destruct (run_choose_ok sample owner fc Q Hb) as (fc'&He&Hok'&_).
  exists fc', (merged (sch_queues (fc_sched fc)) Q). split; [done|]. split; [done|].
  destruct (choose_spec sample owner fc Q Hb) as (s&Hs&HR&Hown&r&sc&Hn&Hinv&Hq&Hres).
  unfold run_choose in He. rewrite Hs in He. cbn [mbind option_bind] in He. simpl in He.
  rewrite Hfw, Hn in He. cbn [mbind option_bind] in He.
  assert (holds_samples (merged (sch_queues (fc_sched fc)) Q) cs) as Hcs'.
  { split; [done|]. intros c. by rewrite queued_merged. }
  destruct r as [c|]; simplify_eq/=.
  - split; [done|]. split; [done|]. right. by exists c.
  - split; [done|]. split; [done|]. left. split; [done|].
    destruct cs as [|c cs]; [done|]. exfalso. destruct Hcs' as [_ Hin].
    destruct (proj2 (Hin c)) as [l Hl]; [apply list_elem_of_here|].
    rewrite Hres in Hl. by apply elem_of_nil in Hl.
Qed.

Lemma process_drains fc Q cs c :
  fc_ok owner fc Q → fc_thread fc = Processing c → unlimited fc → holds_samples Q cs →
  ∃ fc' Q' cs' p n, run_process sample owner 0 true c fc = Some fc' ∧ fc_ok owner fc' Q' ∧
    unlimited fc' ∧ cs ≡ₚ c :: cs' ∧ holds_samples Q' cs' ∧ fc_thread fc' = Delivering c p n.
Proof.
  intros Hok Ht (Hr&Hm&Hfw) [Hnd Hcs].
  destruct (process_refines sample owner 0 true fc Q Hok) as (fc'&Q'&He&Hok'&_&c'&l&cl&Ht'&Hl&_&Hst);
    [by exists c|].
  simpl in He. rewrite Ht in He, Ht'. injection Ht' as <-. pose proof He as Hrun.
  assert (fast_check (fc_mode fc) 0 (sample c) = true) as Hfast by (by destruct (fc_mode fc)).
  rewrite Hfast in Hst. destruct Hst as [Hf HQ].
  assert (c ∈ cs) as Hin by (apply Hcs; exists l; rewrite Hl; apply list_elem_of_here).
  apply list_elem_of_split in Hin as (cs1&cs2&->).
  assert (cs1 ++ c :: cs2 ≡ₚ c :: cs1 ++ cs2) as Hp by (by rewrite Permutation_middle).
  unfold run_process in He. rewrite Hfast in He. simpl in He.
  destruct (decide (owner c ∈ fc_writers fc)); [|done].
  destruct (prv (fc_store fc) (Change c)) as [p|]; [|done]. cbn [mbind option_bind] in He.
  destruct (nxt (fc_store fc) (Change c)) as [n|]; [|done]. cbn [mbind option_bind] in He.
  destruct (unlink c (fc_store fc)) as [s|]; [|done]. simplify_eq/=.
  eexists _, Q', (cs1 ++ cs2), p, n. split; [exact Hrun|]. split; [done|]. split; [done|].
  split; [done|]. split; [|done].
  rewrite Hp in Hnd. apply NoDup_cons in Hnd as [Hc Hnd]. split; [done|].
  pose proof (ok_rep owner fc Q Hok) as HR. pose proof (rep_nodup _ _ HR l) as Hndl.
  rewrite Hl in Hndl. apply NoDup_cons in Hndl as [Hcl _].
  intros x. assert (x ∈ cs1 ++ cs2 ↔ queued Q x ∧ x ≠ c) as ->.
  { rewrite Hcs, Hp, elem_of_cons. split; [|tauto]. intros Hx. split; [by right|]. by intros ->. }
  split.
  - intros [l' Hx]. rewrite HQ in Hx. destruct (decide (l = l')) as [<-|Hne].
    + rewrite fn_lookup_insert in Hx. split; [exists l; rewrite Hl; by apply list_elem_of_further|].
      by intros ->.
    + rewrite fn_lookup_insert_ne in Hx by done. split; [by exists l'|]. intros ->. apply Hne.
      eapply (rep_disjoint _ _ HR); [|done]. rewrite Hl. apply list_elem_of_here.
  - intros [[l' Hx] Hne]. exists l'. rewrite HQ. destruct (decide (l = l')) as [<-|].
    + rewrite fn_lookup_insert. rewrite Hl, elem_of_cons in Hx. by destruct Hx.
    + by rewrite fn_lookup_insert_ne.
Qed.

Lemma delivered_drains fc Q cs c p n :
  fc_ok owner fc Q → fc_thread fc = Delivering c p n → unlimited fc → holds_samples Q cs →
  ∃ fc' Q', run_delivered sample DELIVERED false c p n fc = Some fc' ∧ fc_ok owner fc' Q' ∧
    unlimited fc' ∧ holds_samples Q' cs ∧
    (fc_thread fc' = Idle ∧ cs = [] ∨ ∃ c', fc_thread fc' = Processing c').
Proof.
  intros Hok Ht (Hr&Hm&Hfw) [Hnd Hcs].
  assert (fc_base owner fc Q) as Hb by (apply (ok_running owner fc Q Hok); by left).
  destruct (delivered_refines sample owner DELIVERED false fc Q Hok)
    as (fc'&Q'&He&Hok'&_&c'&l&Hf&HQ); [by exists c, p, n|].
  simpl in He. rewrite Ht in He. rewrite decide_True in HQ by done.
  exists fc', Q'. split; [done|]. split; [done|].
  assert (holds_samples Q' cs) as Hcs'.
  { split; [done|]. intros x. rewrite <- Hcs, <- (queued_merged fc Q x Hb).
    unfold queued. by setoid_rewrite HQ. }
  assert (fc_writers fc ≠ []) as Hne.
  { pose proof (ok_thread owner fc Q Hok) as Hth. rewrite Ht in Hth. destruct Hth as [Hw _].
    intros Hx. rewrite Hx in Hw. by apply elem_of_nil in Hw. }
  destruct (sch_work_done_spec _ _ (base_sched owner fc Q Hb) Hne) as (sc&Hsc&Hinv&Hqs&Hq).
  assert (fc_base owner (set_sched sc fc) Q) as Hb'.
  { split; simpl; try apply Hb; [done|]. intros l' x Hx. rewrite Hq. by apply Hb. }
  destruct (choose_spec sample owner _ Q Hb') as (s&Hs&_&_&r&sc'&Hn&_&_&Hres).
  simpl in *. rewrite Hsc in He. cbn [mbind option_bind] in He. rewrite Hs in He.
  cbn [mbind option_bind] in He. rewrite Hn in He. cbn [mbind option_bind] in He.
  rewrite Hqs in Hres. destruct r as [x|]; simplify_eq/=.
  - split; [done|]. split; [done|]. right. by exists x.
  - split; [done|]. split; [done|]. left. split; [done|].
    destruct cs as [|y cs]; [done|]. exfalso. destruct Hcs' as [_ Hin].
    destruct (proj2 (Hin y)) as [l' Hl]; [apply list_elem_of_here|].
    rewrite HQ, Hres in Hl. by apply elem_of_nil in Hl.
Qed.

(** From the top of its loop the thread delivers every waiting sample once,
    then waits with nothing left. *)
Lemma drain_processing fuel fc Q cs c :
  fc_ok owner fc Q → fc_thread fc = Processing c → unlimited fc → holds_samples Q cs →
  (2 * length cs + 1 ≤ fuel)%nat →
  ∃ ds fc' Q', drain fuel fc = Some (ds, fc') ∧ ds ≡ₚ cs ∧ fc_thread fc' = Waiting ∧
    fc_ok owner fc' Q' ∧ ∀ x, ¬ queued Q' x.
Proof.
  revert fuel fc Q c. induction cs as [cs IH] using (induction_ltof1 _ length).
  intros fuel fc Q c Hok Ht Hu Hcs Hfuel.
  destruct (process_drains fc Q cs c Hok Ht Hu Hcs)
    as (fc1&Q1&cs'&p&n&Hp&Hok1&Hu1&Hperm&Hcs1&Ht1).
  assert (length cs = Datatypes.S (length cs')) as Hlen by (by rewrite Hperm).
  destruct fuel as [|[|fuel]]; [lia..|]. cbn [drain]. rewrite Ht, Hp. cbn [mbind option_bind].
  rewrite Ht1.
  destruct (delivered_drains fc1 Q1 cs' c p n Hok1 Ht1 Hu1 Hcs1)
    as (fc2&Q2&Hd&Hok2&Hu2&Hcs2&Hnext).
  rewrite Hd. cbn [mbind option_bind]. destruct Hnext as [[Ht2 ->]|[c' Ht2]].
  - destruct (choose_drains fc2 Q2 [] Hok2 Ht2 Hu2 Hcs2) as (fc3&Q3&Hc3&Hok3&Hu3&Hcs3&Hw).
    destruct fuel as [|fuel]; [simpl in *; lia|]. cbn [drain]. rewrite Ht2, Hc3. cbn [mbind option_bind].
    assert (∀ x, ¬ queued Q3 x) as Hno.
    { intros x Hx. apply Hcs3 in Hx. by apply elem_of_nil in Hx. }
    destruct Hw as [[Ht3 _]|[c3 Ht3]].
    + exists [c], fc3, Q3. split; [destruct fuel; cbn [drain]; by rewrite ?Ht3|]. by rewrite Hperm.
    + exfalso. pose proof (ok_thread owner fc3 Q3 Hok3) as Hf. rewrite Ht3 in Hf.
      destruct (at_front_split Q3 c3 Hf) as (l&xs&Hl&_). apply (Hno c3). exists l.
      rewrite Hl. apply list_elem_of_here.
  - destruct (IH cs' ltac:(unfold ltof; lia) fuel fc2 Q2 c' Hok2 Ht2 Hu2 Hcs2)
      as (ds&fc'&Q'&Hdr&Hds&?&?&?); [lia|].
    rewrite Hdr. cbn [mbind option_bind]. exists (c :: ds), fc', Q'. split; [done|].
    split; [by rewrite Hds, Hperm|]. done.
Qed.

Lemma drain_idle fc Q cs :
  fc_ok owner fc Q → fc_thread fc = Idle → unlimited fc → holds_samples Q cs →
  ∃ ds fc' Q', drain (2 * length cs + 2) fc = Some (ds, fc') ∧ ds ≡ₚ cs ∧
    fc_thread fc' = Waiting ∧ fc_ok owner fc' Q' ∧ ∀ x, ¬ queued Q' x.
Proof.
  intros Hok Ht Hu Hcs. rewrite Nat.add_comm. cbn [drain Nat.add]. rewrite Ht.
  destruct (choose_drains fc Q cs Hok Ht Hu Hcs) as (fc1&Q1&Hc&Hok1&Hu1&Hcs1&Hn).
  rewrite Hc. cbn [mbind option_bind]. destruct Hn as [[Ht1 ->]|[c Ht1]].
  - exists [], fc1, Q1. cbn [drain Nat.add]. rewrite Ht1. split; [done|]. split; [done|].
    split; [done|]. split; [done|].
    intros x Hx. apply Hcs1 in Hx. by apply elem_of_nil in Hx.
  - eapply (drain_processing (1 + 2 * length cs) fc1 Q1 cs c); try done. lia.
Qed.

(** ** Replaying events *)

(** Decides [fc_enabled], except for unregistering. *)
Definition fc_ready (ev : Event) fc : bool :=
  match ev with
  | EvRegister w => mutex_free fc && bool_decide (fw_id w ∉ fc_writers fc)
  | EvUnregister w => false
  | EvAddNew w c _ | EvAddOld w c =>
      bool_decide (w ∈ fc_writers fc) && (owner c =? w) && writer_free owner w fc
  | EvRemove c =>
      writer_free owner (owner c) fc && (negb (is_linked (fc_store fc) c) || mutex_free fc)
  | EvChoose => fc_running fc && match fc_thread fc with Idle => true | _ => false end
  | EvWake _ => fc_running fc && match fc_thread fc with Waiting => true | _ => false end
  | EvProcess _ _ => match fc_thread fc with Processing _ => true | _ => false end
  | EvDelivered _ _ => match fc_thread fc with Delivering _ _ _ => true | _ => false end
  end.

Lemma fc_ready_enabled ev fc : fc_ready ev fc = true → fc_enabled owner ev fc.
Proof.
  destruct ev as [w|w|w c ret|w c|c| |timeout|bytes locked|ret removing]; simpl; try done.
  - intros [? ?%bool_decide_eq_true_1]%andb_true_iff. done.
  - intros [[?%bool_decide_eq_true_1 ?]%andb_true_iff ?]%andb_true_iff. by split; [|split; [lia|]].
  - intros [[?%bool_decide_eq_true_1 ?]%andb_true_iff ?]%andb_true_iff. by split; [|split; [lia|]].
  - intros [? Hm]%andb_true_iff. split; [done|]. by destruct (is_linked _ _).
  - intros [??]%andb_true_iff. by destruct (fc_thread fc).
  - intros [??]%andb_true_iff. by destruct (fc_thread fc).
  - destruct (fc_thread fc); eauto; done.
  - destruct (fc_thread fc); eauto; done.
Qed.

Fixpoint replay (q : Z) (k : ListKind) (evs : list Event)
    (h : list nat * list nat * bool * Controller S) :
    option (list nat * list nat * bool * Controller S) :=
  match evs with
  | [] => Some h
  | ev :: evs =>
      let '(a, s, clean, fc) := h in
      if fc_ready ev fc then
        fc' ← fc_exec sample owner ev fc;
        replay q k evs (a ++ added q k ev fc, s ++ sent q k ev fc, clean && negb (is_remove ev), fc')
      else None
  end.

Lemma replay_history q k fc0 evs a0 s0 clean0 fc1 a s clean fc :
  fc_history q k fc0 a0 s0 clean0 fc1 →
  replay q k evs (a0, s0, clean0, fc1) = Some (a, s, clean, fc) →
  fc_history q k fc0 a s clean fc.
Proof.
  revert a0 s0 clean0 fc1. induction evs as [|ev evs IH]; intros a0 s0 clean0 fc1 Hh; simpl.
  { by intros [= <- <- <- <-]. }
  destruct (fc_ready ev fc1) eqn:Hr; [|done].
  destruct (fc_exec sample owner ev fc1) as [fc'|] eqn:Hex; [|done]. cbn [mbind option_bind].
  apply IH. apply history_step; [done| |done]. by apply fc_ready_enabled.
Qed.

Lemma history_run q k fc0 a s clean fc :
  fc_history q k fc0 a s clean fc → ∃ evs, fc_run sample owner fc0 evs fc.
Proof.
  induction 1 as [|a s clean ev fc fc' _ [evs IH] Hen Hex]; [exists []; constructor|].
  exists (evs ++ [ev]). by econstructor.
Qed.
End Controller.

(** ** The properties *)

(** C7. Whatever the scheduler, the publish mode and the order of the calls and
    of the steps of the asynchronous thread: the linked lists stay well formed,
    no sample is in two lists, a sample is marked linked exactly when it is in
    one, every waiting sample belongs to a registered writer, a waiting thread
    with work to do has been notified, every call is defined (no null pointer
    is followed), and it does to the sequences of samples what is specified. *)
Theorem flow_controller_refines {S} `{SchedulerLaws S} sample owner m (sc : S) evs fc :
  sch_inv sc [] → fc_run sample owner (fc_init (fc_new m sc)) evs fc →
  ∃ Q, fc_ok owner fc Q ∧ ∀ ev, fc_enabled owner ev fc → refines sample owner ev fc Q.
Proof.
  intros Hsc Hrun. destruct (run_ok sample owner _ _ _ _ (started_ok owner m sc Hsc) Hrun) as [Q HQ].
  exists Q. split; [done|]. intros ev. by apply fc_step_refines.
Qed.

(** C8. The samples of a queue are sent in the order in which they were added,
    through failed deliveries, refused locks, limits and additions during a
    delivery: the samples sent, the one in flight and the waiting ones are, in
    this order, a subsequence of the added ones, and all of them when nothing
    was removed.  New samples and samples to be sent again each keep their
    order. *)
Theorem samples_sent_in_order {S} `{SchedulerLaws S} sample owner m (sc : S) q k a s clean fc :
  sch_inv sc [] → k = NewOnes ∨ k = OldOnes →
  fc_history sample owner q k (fc_init (fc_new m sc)) a s clean fc →
  ∃ Q, represents (fc_store fc) Q ∧
    let waiting := Q (mkListId q k) ++ Q (mkListId q (interested k)) in
    s ++ flying q k fc ++ waiting `sublist_of` a ∧
    (clean = true → s ++ flying q k fc ++ waiting = a).
Proof.
  intros Hsc Hk Hh.
  destruct (history_ok sample owner q k _ _ a s clean fc (started_ok owner m sc Hsc))
    as (Q&Hok&Hsub&Heq); [done| |done..|].
  - unfold in_flight, fc_init. by destruct (has_thread _ && _).
  - exists Q. split; [apply Hok|]. done.
Qed.


(** The samples 1 to 9 belong to writer 1, the others to writer 2. *)
Definition example_owner (c : nat) : Z := if decide (c < 10)%nat then 1 else 2.

(** An additional sample while another is being delivered, a delivery that
    fails, and a sample of each writer delivered. *)
Definition example_events : list Event :=
  [EvRegister example_writer1; EvRegister example_writer2;
   EvAddNew 1 1 None; EvAddNew 1 2 None; EvAddOld 2 10;
   EvChoose; EvProcess 0 true; EvAddNew 2 11 None; EvDelivered NOT_DELIVERED false;
   EvChoose; EvProcess 0 true; EvDelivered DELIVERED false;
   EvProcess 0 true; EvDelivered DELIVERED true].

Definition rr_start : Controller RoundRobinSchedule :=
  fc_init (fc_new AsyncMode (mkRoundRobin [] 0)).

Lemma rr_start_inv : sch_inv (mkRoundRobin [] 0) [].
Proof. split; [constructor|]. done. Qed.

(** A replay that ends with the expected values is a run with them. *)
Lemma replay_run {S} `{SchedulerLaws S} {A} sample owner q k evs (fc0 : Controller S) a s clean
    (view : Controller S → A) v :
  (λ h, (h.1, view h.2)) <$> replay sample owner q k evs ([], [], true, fc0) =
    Some (a, s, clean, v) →
  ∃ fc, fc_history sample owner q k fc0 a s clean fc ∧ view fc = v.
Proof.
  destruct (replay _ _ _ _ _ _) as [[[[a' s'] clean'] fc]|] eqn:E; [|done]. simpl.
  intros [= -> -> -> <-]. exists fc. split; [|done].
  eapply replay_history; [apply history_start|exact E].
Qed.

Lemma example_history_state :
  ∃ fc, fc_history example_sample example_owner 1 NewOnes rr_start [1; 2]%nat [1%nat] true fc ∧
    fc_thread fc = Idle.
Proof. apply (replay_run _ _ _ _ example_events). by vm_compute. Qed.

Lemma flow_controller_refines_witness :
  ∃ evs fc Q, fc_run example_sample example_owner rr_start evs fc ∧ fc_thread fc = Idle ∧
    fc_ok example_owner fc Q ∧
    ∀ ev, fc_enabled example_owner ev fc → refines example_sample example_owner ev fc Q.
Proof.
  destruct example_history_state as (fc&Hh&Ht).
  destruct (history_run _ _ _ _ _ _ _ _ _ Hh) as [evs Hrun].
  destruct (flow_controller_refines _ _ AsyncMode _ evs fc rr_start_inv Hrun) as (Q&?&?).
  by exists evs, fc, Q.
Defined.

Lemma samples_sent_in_order_witness :
  ∃ fc Q, represents (fc_store fc) Q ∧
    fc_history example_sample example_owner 1 NewOnes rr_start [1; 2]%nat [1%nat] true fc ∧
    let waiting := Q (mkListId 1 NewOnes) ++ Q (mkListId 1 (interested NewOnes)) in
    [1%nat] ++ flying 1 NewOnes fc ++ waiting `sublist_of` [1; 2]%nat ∧
    (true = true → [1%nat] ++ flying 1 NewOnes fc ++ waiting = [1; 2]%nat).
Proof.
  destruct example_history_state as (fc&Hh&_).
  destruct (samples_sent_in_order _ _ AsyncMode _ 1 NewOnes _ _ _ fc rr_start_inv (or_introl eq_refl) Hh)
    as (Q&?&?).
  by exists fc, Q.
Defined.


(** ** Charging the wrong writer *)

(** Writer 1, with half of the bandwidth reserved, has its sample chosen, but
    the lock of its mutex is refused; it then removes the sample.  The sample
    of writer 2 is delivered. *)
Definition stale_events : list Event :=
  [EvRegister example_writer1; EvRegister example_writer2;
   EvAddNew 1 1 None; EvAddNew 2 10 None;
   EvChoose; EvProcess 0 false; EvRemove 1;
   EvChoose; EvProcess 0 true; EvDelivered DELIVERED false].

(** The scheduler with reservations remembers the writer it chose until a
    delivery is done, also when the chosen sample is not delivered: after
    [stale_events] nothing of writer 1 has been sent and its only sample is
    gone, but it is charged the 100 bytes of the sample of writer 2, and writer
    2 is charged nothing. *)
Theorem delivery_charged_to_other_writer :
  ∃ fc : Controller PriorityReservationSchedule,
    fc_history example_sample example_owner 1 NewOnes
      (fc_init (fc_new (LimitedAsyncMode 1000) (no_reservations 0))) [1%nat] [] false fc ∧
    (rs_used <$> assoc 1 (pr_writers (fc_sched fc)), rs_used <$> assoc 2 (pr_writers (fc_sched fc)),
     fc_thread fc) = (Some 100, Some 0, Idle).
Proof. apply (replay_run _ _ _ _ stale_events). by vm_compute. Qed.
