(* ===== verification/ReliableExchange.v ===== *)
(** A reliable writer and a reliable reader together: one exchange of a
    HEARTBEAT, an ACKNACK and its answers.

    The reader's side is [process_heartbeat] and [missing_changes] of
    [WriterProxy], the writer's side [process_acknack] and
    [perform_nack_response] of [StatefulWriter], and what the writer answers
    arrives at the reader through [received_change_set] (and
    [irrelevant_change_set], which is the same for a tracker), in any order,
    repeated or mixed with other changes. *)

From Stdlib Require Import ZArith Lia ZifyBool.
From stdpp Require Import base numbers list option list_numbers.
From S2P Require Import Prelude SequenceNumber BitmapRange BitmapFacts SortedRange Guid TimedEvent Time CacheChange ChangeForReader GapBuilder ReaderHistory ReaderProxy ReaderProxyFacts WriterProxy WriterProxyFacts WriterProxyTheorems WriterHistory LocatorSelector StatefulWriter StatefulWriterLogic StatefulWriterInvariant StatefulWriterSteps StatefulWriterMatching StatefulWriterTotal StatefulWriterRequests StatefulWriterTheorems.

Open Scope Z_scope.
Open Scope writer_scope.

(** ** What arrives at the reader *)

Definition arrive_all (arrivals : list SequenceNumber_t) (c : WriterChanges) : WriterChanges :=
  foldl (λ c s, snd (received_change_set s c)) c arrivals.

(** The writer's answers settle number [s] for the reader: the change is
    handed to the flow controller, or announced to the reader in a GAP. *)
Definition answered (reader : GUID_t) (effects : list SWEffect) (s : SequenceNumber_t) : Prop :=
  FlowAddOld s ∈ effects ∨ ∃ gap, AddGap (ToReader reader) gap ∈ effects ∧ snz s ∈ gap_numbers gap.

Lemma arrive_all_spec arrivals c :
  wc_ok c → Forall sn_ok arrivals →
  wc_ok (arrive_all arrivals c) ∧
  ∀ z, wc_received (arrive_all arrivals c) z ↔ wc_received c z ∨ z ∈ snz <$> arrivals.
Proof.
  revert c. induction arrivals as [|s l IH]; intros c Hok Hl; cbn [arrive_all foldl].
  { split; [done|]. intros z. rewrite elem_of_nil. tauto. }
  apply Forall_cons in Hl as [Hs Hl]. pose proof (received_change_set_spec s c Hok Hs) as H.
  destruct (received_change_set s c) as [b c'] eqn:E. destruct H as (Hok' & _ & Hrec & _). cbn [snd].
  destruct (IH c' Hok' Hl) as [Hok2 Hrec2]. split; [done|]. intros z. rewrite Hrec2, Hrec, fmap_cons, elem_of_cons. tauto.
Qed.

(** A tracker that has every number up to [z] has its low mark there. *)
Lemma low_mark_reaches c z :
  wc_ok c → (∀ x, snz (available_changes_max c) < x <= z → wc_received c x) → z <= snz (available_changes_max c).
Proof.
  intros Hok Hall. unfold available_changes_max in *. destruct (Z.leb_spec z (snz (changes_from_writer_low_mark_ c))); [done|].
  destruct (Hall (snz (changes_from_writer_low_mark_ c) + 1)) as [|Hin]; [lia|lia|].
  apply list_elem_of_fmap in Hin as (s & Es & Hs). pose proof (wc_above c Hok) as Ha. rewrite Forall_forall in Ha.
  specialize (Ha s Hs). cbn in Ha. lia.
Qed.

(** ** The request of a reader is one the writer accepts *)

Lemma missing_changes_acknack c :
  wc_ok c → snz (max_sequence_number_ c) + 1 < 2 ^ 63 - 2 ^ 32 →
  acknack_ok (missing_changes c) ∧ snz (base_ (missing_changes c)) = snz (available_changes_max c) + 1 ∧
  snz (if bm_empty (missing_changes c) then base_ (missing_changes c) else bm_max (missing_changes c)) <=
    snz (max_sequence_number_ c) + 1.
Proof.
  intros Hok Hroom. destruct (missing_changes_spec c Hok) as (Hbm & Eb & _ & Hbits).
  pose proof (wc_low_max c Hok) as Hlm. pose proof (sn_ok_range _ (wc_low_ok c Hok)) as Hr.
  destruct (sn_ok_add (changes_from_writer_low_mark_ c) 1 (wc_low_ok c Hok)) as [Hw E1]; [by vm_compute|].
  unfold available_changes_max.
  split_and!.
  - split; [done|]. split; [rewrite Eb; apply sn_ok_iff; [done|]; rewrite E1; zwidth|].
    destruct (bm_for_each_val _ Hbm) as [Hwf _]. apply Forall_forall. intros s Hs.
    rewrite Forall_forall in Hwf. destruct (Hwf s Hs) as [Hsw _]. apply sn_ok_iff; [done|].
    assert (bm_bits (missing_changes c) (snz s) = true) as Hb.
    { apply elem_for_each; [done|]. apply list_elem_of_fmap. eauto. }
    pose proof (bm_bits_bound _ _ Hbm Hb) as Hlow. cbn in Hlow. rewrite Eb, E1 in Hlow. apply Hbits in Hb. zwidth.
  - by rewrite Eb.
  - destruct (bm_empty (missing_changes c)) eqn:Ee; [rewrite Eb; lia|].
    destruct (bm_max_spec _ Hbm Ee) as (_ & _ & Hb & _). apply Hbits in Hb as (_ & Hb & _).
    cbn [item_val SequenceNumber_laws] in Hb. lia.
Qed.

(** ** One exchange *)

(** The state of the two sides before the exchange: reader [r] of writer [w]
    and the reader's proxy [p] of the writer. The reader has not heard of more
    than the writer has; the writer does not take for acknowledged what the
    reader misses, and has sent what the reader may ask for. *)
Record exchange_ready (cfg : WriterConfig) (n : Z) (w : StatefulWriter) (i : nat) (r : ReaderProxy) (p : WriterProxy) : Prop := {
  xr_writer : sw_ok cfg n w;
  xr_next : sn_ok (next_all_acked_notify_sequence_ w);
  xr_history : wh_changes (history_ w) ≠ [];
  xr_reader : reader_at (RemoteReader, i) w = Some r;
  xr_found : find_reader (rp_guid r) w = Some (RemoteReader, i);
  xr_proxy : wp_ok p;
  xr_running : wp_state_ p ≠ STOPPED;
  xr_known : snz (max_sequence_number_ (wp_changes p)) <= snz (get_seq_num_max (history_ w));
  xr_acked : snz (changes_low_mark_ r) <= snz (available_changes_max (wp_changes p));
  xr_sent : ∀ c, c ∈ changes_for_reader_ r → snz (available_changes_max (wp_changes p)) < cz c → status_ c = UNACKNOWLEDGED
}.

Section Exchange.
Context (cfg : WriterConfig) (n : Z) (w : StatefulWriter) (i : nat) (r : ReaderProxy) (p : WriterProxy).
Context (Hx : exchange_ready cfg n w i r p).

Let first := get_seq_num_min (history_ w).
Let last := get_seq_num_max (history_ w).

Lemma announced_range :
  sn_ok first ∧ sn_ok last ∧ snz first <= snz last <= n ∧ snz last + 2 < 2 ^ 63 - 2 ^ 32.
Proof.
  pose proof (so_history _ _ _ (xr_writer _ _ _ _ _ _ Hx)) as Hh. pose proof (so_last _ _ _ (xr_writer _ _ _ _ _ _ Hx)) as Hl.
  destruct (seq_num_min_spec _ _ Hh) as [[? _]|(c & Hc & Emin & Hmin)]; [by destruct (xr_history _ _ _ _ _ _ Hx)|].
  assert (∃ d, d ∈ wh_changes (history_ w) ∧ last = sequenceNumber d) as (d & Hd & Emax).
  { unfold last, get_seq_num_max. destruct (list.last (wh_changes (history_ w))) as [d|] eqn:E.
    - exists d. split; [by apply last_Some_elem_of | done].
    - by apply last_None in E; destruct (xr_history _ _ _ _ _ _ Hx). }
  destruct (wo_each _ _ Hh c Hc) as (Hcok & _). destruct (wo_each _ _ Hh d Hd) as (Hdok & Hdr & _).
  pose proof (wo_room _ _ Hh). specialize (Hmin d Hd). unfold first. rewrite Emin, Emax. unfold wnum in *.
  split_and!; [done | done | lia | lia | lia].
Qed.

(** The reader's tracker after the heartbeat. *)
Lemma heartbeat_tracks count final live dp lost :
  last_heartbeat_count_ p < count →
  let c := wp_changes (snd (fst (process_heartbeat count first last final live dp lost p))) in
  wc_ok c ∧ snz (max_sequence_number_ c) = snz last ∧
  snz (available_changes_max (wp_changes p)) <= snz (available_changes_max c) ∧
  ∀ z, z < snz first → wc_received c z.
Proof.
  intros Hcount c. destruct announced_range as (Hf & Hl & Hle & _).
  pose proof (heartbeat_ok count first last final live dp lost p (xr_proxy _ _ _ _ _ _ Hx) Hf Hl) as Hok.
  pose proof (process_heartbeat_changes count first last final live dp lost p) as Ec. fold c in Ec.
  rewrite bool_decide_true in Ec by apply Hx. replace (last_heartbeat_count_ p <? count) with true in Ec by lia. cbn [andb] in Ec.
  pose proof (lost_changes_update_spec first _ (wp_changes_ok p (xr_proxy _ _ _ _ _ _ Hx)) Hf) as Hlost.
  destruct (lost_changes_update first (wp_changes p)) as [k c1]. destruct Hlost as (Hok1 & Hrec1 & _ & Hm1 & _ & Hlow1). cbn [snd] in Ec.
  destruct (missing_changes_update_spec last c1 Hok1 Hl) as (Hok2 & Hrec2 & Hm2 & _ & Hlow2).
  pose proof (xr_known _ _ _ _ _ _ Hx) as Hk. fold last in Hk. rewrite Ec. split_and!.
  - done.
  - rewrite Hm2, Hm1. lia.
  - unfold available_changes_max. by rewrite Hlow2.
  - intros z Hz. apply Hrec2, Hrec1. by right.
Qed.

(** Every number the reader asks for is answered. *)
Lemma all_answered removes count acknack final live dp lost last_final :
  wc_add_gap cfg = (λ _, true) → wc_listener cfg = Some removes → (∀ h c, removes h c = []) →
  last_heartbeat_count_ p < count → next_expected_acknack_count_ r <= acknack →
  let c := wp_changes (snd (fst (process_heartbeat count first last final live dp lost p))) in
  let set := missing_changes c in
  ∃ s', (process_acknack cfg (wc_guid cfg) (rp_guid r) acknack set last_final ;; perform_nack_response cfg) (start_run w) = (Done tt, s') ∧
    ∀ s, s ∈ bm_for_each set → answered (rp_guid r) (run_effects s') s.
Proof.
  intros Hgap Hl Hsilent Hcount Hack c set. destruct announced_range as (Hf & Hlast & Hle & Hroom).
  destruct (heartbeat_tracks count final live dp lost Hcount) as (Hok & Hmax & Hlow & Hbelow). fold c in Hok, Hmax, Hlow, Hbelow.
  destruct (missing_changes_acknack c Hok) as (Hset & Ebase & Hrec); [rewrite Hmax; zwidth|]. fold set in Hset, Ebase, Hrec.
  pose proof (xr_writer _ _ _ _ _ _ Hx) as Hw. destruct (next_spec _ _ _ Hw) as [_ En].
  pose proof (sn_ok_range _ (wc_low_ok c Hok)) as Hrange. fold (available_changes_max c) in Hrange.
  pose proof (request_answered cfg n Hgap removes Hl Hsilent w i r acknack set last_final Hw (xr_next _ _ _ _ _ _ Hx)
    (xr_reader _ _ _ _ _ _ Hx) (xr_found _ _ _ _ _ _ Hx) Hack Hset ltac:(lia) ltac:(lia) (xr_history _ _ _ _ _ _ Hx)) as H.
  unfold wp in H. destruct (bind _ _ (start_run w)) as [[[]| | |] s']; [|done..].
  destruct H as (r' & _ & [Hsub Hbound] & Hsend & Hgaps). exists s'. split; [done|]. intros s Hs.
  assert (bm_bits set (snz s) = true) as Hb by (apply elem_for_each; [apply Hset | apply list_elem_of_fmap; eauto]).
  destruct (missing_changes_spec c Hok) as (_ & _ & _ & Hbits). fold set in Hbits. destruct (proj1 (Hbits _) Hb) as (Hmiss & Hzmax & _).
  assert (snz (base_ set) <= snz s) as Hge by (pose proof (bm_bits_bound _ _ (proj1 Hset) Hb) as Hbb; cbn in Hbb; lia).
  destruct (decide (snz s ∈ cz <$> changes_for_reader_ r)) as [Hin|Hnot].
  - left. apply list_elem_of_fmap in Hin as (x & Ex & Hin). replace s with (seq_num_ x).
    + apply Hsend; [done | by rewrite <- Ex | apply (xr_sent _ _ _ _ _ _ Hx); [done | lia]].
    + destruct (so_readers _ _ _ Hw _ _ (xr_reader _ _ _ _ _ _ Hx)) as [Hrp _ _ _]. destruct Hset as (_ & _ & Hels).
      rewrite Forall_forall in Hels. apply sn_val_inj; [apply sn_ok_wf | apply sn_ok_wf, Hels | ]; [|done|done].
      pose proof (rp_elems r Hrp) as He. unfold cz_ok in He. rewrite Forall_forall in He. by apply He.
  - right. apply Hgaps; [done| | |].
    + destruct (Z.ltb_spec (snz s) (snz first)) as [Hlt|]; [by destruct (Hmiss (Hbelow _ Hlt)) | done].
    + apply Hbound; [|done]. pose proof (xr_acked _ _ _ _ _ _ Hx). lia.
    + intros Hin. by apply Hnot, Hsub.
Qed.
End Exchange.

(** C3. One exchange repairs the reader, under the conditions of [exchange_ready]: the writer's history is
    not empty, the reader is a remote one with a running proxy that knows of nothing the writer has not
    written and misses nothing the writer takes for acknowledged, and every change that the writer still lists for it above the reader's mark has been sent
    and is UNACKNOWLEDGED (the code ignores a request for a change that is UNDERWAY, which the nack
    suppression makes UNACKNOWLEDGED later). The listener removes nothing and the message group takes
    every GAP. Then the reader hears the HEARTBEAT and asks for what it misses; the writer answers every
    number of the request, with the sample or with a GAP; and when the answers reach the reader, in any
    order, repeated and mixed with whatever else arrives, the reader has everything up to the writer's
    last change, or 256 numbers more than before, the size of a request. *)
Theorem exchange_repairs cfg n w i r p removes count acknack final live dp lost last_final :
  exchange_ready cfg n w i r p →
  wc_add_gap cfg = (λ _, true) → wc_listener cfg = Some removes → (∀ h c, removes h c = []) →
  last_heartbeat_count_ p < count → next_expected_acknack_count_ r <= acknack →
  let first := get_seq_num_min (history_ w) in
  let last := get_seq_num_max (history_ w) in
  let c := wp_changes (snd (fst (process_heartbeat count first last final live dp lost p))) in
  ∃ s', (process_acknack cfg (wc_guid cfg) (rp_guid r) acknack (missing_changes c) last_final ;; perform_nack_response cfg)
          (start_run w) = (Done tt, s') ∧
    ∀ arrivals, Forall sn_ok arrivals →
      (∀ s, s ∈ bm_for_each (missing_changes c) → answered (rp_guid r) (run_effects s') s → s ∈ arrivals) →
      Z.min (snz last) (snz (available_changes_max c) + 256) <= snz (available_changes_max (arrive_all arrivals c)).
Proof.
  intros Hx Hgap Hl Hsilent Hcount Hack first last c.
  destruct (all_answered cfg n w i r p Hx removes count acknack final live dp lost last_final Hgap Hl Hsilent Hcount Hack) as (s' & Es & Hans).
  exists s'. split; [exact Es|]. intros arrivals Harr Hin.
  destruct (heartbeat_tracks cfg n w i r p Hx count final live dp lost Hcount) as (Hok & Hmax & _).
  change (wc_ok c) in Hok. change (snz (max_sequence_number_ c) = snz last) in Hmax.
  destruct (arrive_all_spec arrivals c Hok Harr) as [Hok' Hrec]. apply low_mark_reaches; [done|]. intros z Hz. apply Hrec.
  destruct (missing_changes_spec c Hok) as (Hbm & _ & _ & Hbits). fold (available_changes_max c) in Hbits.
  destruct (bm_bits (missing_changes c) z) eqn:Hb.
  - right. apply elem_for_each in Hb as (s & -> & Hs)%list_elem_of_fmap; [|done]. apply list_elem_of_fmap. exists s.
    split; [done|]. apply Hin; [done|]. by apply Hans.
  - left. assert (¬ ¬ wc_received c z) as Hnn.
    { intros Hno. apply not_true_iff_false in Hb. apply Hb, Hbits. split; [done|]. lia. }
    unfold wc_received in *. destruct (decide (z <= snz (changes_from_writer_low_mark_ c))); [by left|].
    destruct (decide (z ∈ snz <$> changes_received_ c)); [by right|]. tauto.
Qed.

(** A reader that has just matched the writer of [ex_three] (samples 1 and 3 in its history, 2 removed). *)
Definition ex_new_proxy : WriterProxy := fst (wp_start test_writer (SeqNum 0 0) false (fst (wp_make test_reader 0))).

Lemma ex_exchange_ready : exchange_ready ex_silent 3 ex_three 0 ex_three_reader ex_new_proxy.
Proof.
  split; [apply ex_three_ok | by vm_compute | by vm_compute | by vm_compute | by vm_compute | | by vm_compute..|].
  - apply wp_start_ok; [apply wp_make_ok | by vm_compute..].
  - intros c Hc _. assert (forallb (λ c, bool_decide (status_ c = UNACKNOWLEDGED)) (changes_for_reader_ ex_three_reader) = true) as H
      by (by vm_compute).
    rewrite forallb_forall in H. exact (bool_decide_eq_true_1 _ (H c (proj1 (list_elem_of_In _ _) Hc))).
Qed.

Lemma exchange_repairs_witness :
  let c := wp_changes (snd (fst (process_heartbeat 1 (SeqNum 0 1) (SeqNum 0 3) false false false 0 ex_new_proxy))) in
  ∃ s', (process_acknack ex_silent (ex_guid 1) (ex_guid 2) 1 (missing_changes c) false ;; perform_nack_response ex_silent)
          (start_run ex_three) = (Done tt, s') ∧
    ∀ arrivals, Forall sn_ok arrivals →
      (∀ s, s ∈ bm_for_each (missing_changes c) → answered (ex_guid 2) (run_effects s') s → s ∈ arrivals) →
      3 <= snz (available_changes_max (arrive_all arrivals c)).
Proof.
  exact (exchange_repairs ex_silent 3 ex_three 0 ex_three_reader ex_new_proxy (λ _ _, []) 1 1 false false false 0 false
    ex_exchange_ready eq_refl eq_refl (λ _ _, eq_refl) eq_refl ltac:(by vm_compute)).
Defined.
