(* ===== verification/ResourceEvent.v ===== *)
(** * The event thread (src/cpp/rtps/resources/ResourceEvent.cpp)

    [ResourceEvent] owns the thread that runs the callbacks of the timed events.
    Owners move an event with atomic exchanges and then tell the service about
    it; the service keeps the events it was told about in [pending_timers_] and
    the ones that wait for their time in [active_timers_], in the order of their
    times.

    The model is an interleaving of owners and service thread. A step is one
    atomic exchange or one region under the mutex of the service. The exchange
    and the notification of [TimedEvent::restart_timer] and [cancel_timer] are
    two steps: [re_inflight] holds the calls between the two. A callback is
    whatever steps happen between the start of a trigger ([EvTrigger]) and its
    return ([EvReturn]). Events are named by numbers, which stand for their
    addresses; time points are nanoseconds.

    The orders of [std::sort] for events with equal times are all allowed: the
    step [EvEnd] carries the order. *)

From Stdlib Require Import ZArith Lia ZifyBool Sorting.Sorted.
From stdpp Require Import base numbers option gmap sorting list.
From S2P Require Import Prelude SortedRange TimedEvent.

Open Scope Z_scope.

(** Where the service thread is in [event_service]. *)
Inductive Phase :=
  | Top                                       (* the head of the loop *)
  | Clocked                                   (* [current_time_] has been read *)
  | Triggering (rest : list nat) (did : bool) (* in the loop over the active timers *)
  | Calling (e : nat) (rest : list nat)       (* in the callback of [e] *)
  | Ending (did : bool)                       (* behind that loop *)
  | Acted                                     (* [do_timer_actions] has returned *)
  | Sleeping (since deadline : Z)             (* in [cv_.wait_until] *)
  | Stopped.                                  (* there is no thread *)

#[global] Instance Phase_eq_dec : EqDecision Phase.
Proof. solve_decision. Defined.

(** [re_notified]: [cv_] has been notified since the thread last began to wait. *)
Record ResourceEvent := ResourceEventMk {
  re_events : gmap nat TimedEventImpl;
  re_pending : list nat;
  re_active : list nat;
  re_timers_count : Z;
  re_current_time : Z;
  re_allow : bool;
  re_skip : bool;
  re_stop : bool;
  re_notified : bool;
  re_inflight : list nat;
  re_phase : Phase
}.

Definition re_make : ResourceEvent := ResourceEventMk ∅ [] [] 0 0 true false false false [] Stopped.

(** ** Updates of the members *)

Definition re_set_events (m : gmap nat TimedEventImpl) (s : ResourceEvent) : ResourceEvent :=
  ResourceEventMk m (re_pending s) (re_active s) (re_timers_count s) (re_current_time s) (re_allow s)
    (re_skip s) (re_stop s) (re_notified s) (re_inflight s) (re_phase s).
Definition re_set_pending (l : list nat) (s : ResourceEvent) : ResourceEvent :=
  ResourceEventMk (re_events s) l (re_active s) (re_timers_count s) (re_current_time s) (re_allow s)
    (re_skip s) (re_stop s) (re_notified s) (re_inflight s) (re_phase s).
Definition re_set_active (l : list nat) (s : ResourceEvent) : ResourceEvent :=
  ResourceEventMk (re_events s) (re_pending s) l (re_timers_count s) (re_current_time s) (re_allow s)
    (re_skip s) (re_stop s) (re_notified s) (re_inflight s) (re_phase s).
Definition re_set_count (n : Z) (s : ResourceEvent) : ResourceEvent :=
  ResourceEventMk (re_events s) (re_pending s) (re_active s) n (re_current_time s) (re_allow s)
    (re_skip s) (re_stop s) (re_notified s) (re_inflight s) (re_phase s).
Definition re_set_time (t : Z) (s : ResourceEvent) : ResourceEvent :=
  ResourceEventMk (re_events s) (re_pending s) (re_active s) (re_timers_count s) t (re_allow s)
    (re_skip s) (re_stop s) (re_notified s) (re_inflight s) (re_phase s).
Definition re_set_allow (b : bool) (s : ResourceEvent) : ResourceEvent :=
  ResourceEventMk (re_events s) (re_pending s) (re_active s) (re_timers_count s) (re_current_time s) b
    (re_skip s) (re_stop s) (re_notified s) (re_inflight s) (re_phase s).
Definition re_set_skip (b : bool) (s : ResourceEvent) : ResourceEvent :=
  ResourceEventMk (re_events s) (re_pending s) (re_active s) (re_timers_count s) (re_current_time s) (re_allow s)
    b (re_stop s) (re_notified s) (re_inflight s) (re_phase s).
Definition re_set_stop (b : bool) (s : ResourceEvent) : ResourceEvent :=
  ResourceEventMk (re_events s) (re_pending s) (re_active s) (re_timers_count s) (re_current_time s) (re_allow s)
    (re_skip s) b (re_notified s) (re_inflight s) (re_phase s).
Definition re_set_notified (b : bool) (s : ResourceEvent) : ResourceEvent :=
  ResourceEventMk (re_events s) (re_pending s) (re_active s) (re_timers_count s) (re_current_time s) (re_allow s)
    (re_skip s) (re_stop s) b (re_inflight s) (re_phase s).
Definition re_set_inflight (l : list nat) (s : ResourceEvent) : ResourceEvent :=
  ResourceEventMk (re_events s) (re_pending s) (re_active s) (re_timers_count s) (re_current_time s) (re_allow s)
    (re_skip s) (re_stop s) (re_notified s) l (re_phase s).
Definition re_set_phase (p : Phase) (s : ResourceEvent) : ResourceEvent :=
  ResourceEventMk (re_events s) (re_pending s) (re_active s) (re_timers_count s) (re_current_time s) (re_allow s)
    (re_skip s) (re_stop s) (re_notified s) (re_inflight s) p.

Definition re_store (e : nat) (ev : TimedEventImpl) (s : ResourceEvent) : ResourceEvent :=
  re_set_events (<[e := ev]> (re_events s)) s.

(** The time of an event. The collections hold addresses of live events only, which is part of
    the invariant; the default is never read. *)
Definition next_of (m : gmap nat TimedEventImpl) (e : nat) : Z :=
  match m !! e with Some ev => te_next ev | None => 0 end.

Definition event_compare (m : gmap nat TimedEventImpl) (lhs rhs : nat) : bool := next_of m lhs <? next_of m rhs.

(** [erase(find(...))], which leaves a collection without the event alone. *)
Fixpoint erase_event (e : nat) (l : list nat) : list nat :=
  match l with
  | [] => []
  | a :: l' => if decide (a = e) then l' else a :: erase_event e l'
  end.

Definition find_event (e : nat) (l : list nat) : bool := bool_decide (e ∈ l).

(** ** The calls of the owners *)

Definition register_timer (s : ResourceEvent) : ResourceEvent :=
  re_set_notified true (re_set_count (u64 (re_timers_count s + 1)) s).

(** [unregister_timer] behind the wait for [allow_vector_manipulation_], which is a condition of
    the step when the caller is not the service thread. *)
Definition unregister_timer (is_service_thread : bool) (e : nat) (s : ResourceEvent) : ResourceEvent :=
  let in_pending := find_event e (re_pending s) in
  let s := if in_pending then re_set_pending (erase_event e (re_pending s)) s else s in
  let in_active := find_event e (re_active s) in
  let s := if in_active
           then let s := re_set_active (erase_event e (re_active s)) s in
                if is_service_thread then re_set_skip true s else s
           else s in
  let s := re_set_count (u64 (re_timers_count s - 1)) s in
  if in_pending || in_active then re_set_notified true s else s.

Definition register_timer_nts (e : nat) (s : ResourceEvent) : bool * ResourceEvent :=
  if find_event e (re_pending s) then (false, s)
  else (true, re_set_pending (re_pending s ++ [e]) s).

Definition re_notify (e : nat) (s : ResourceEvent) : ResourceEvent :=
  let (registered, s') := register_timer_nts e s in
  if registered then re_set_notified true s' else s'.

(** ** do_timer_actions *)

Definition hours_24 : Z := 24 * 3600 * 1000000000.

Definition cancel_time (s : ResourceEvent) : Z := re_current_time s + hours_24.

(** One turn of the loop over the pending orders. *)
Definition process_pending (s : ResourceEvent) (tp : nat) : ResourceEvent :=
  let current_pos := lower_bound (λ a, event_compare (re_events s) a tp) (re_active s) in
  let s := re_set_active (take current_pos (re_active s) ++ erase_event tp (drop current_pos (re_active s))) s in
  match re_events s !! tp with
  | None => s
  | Some ev =>
      let (activate, ev') := te_update (re_current_time s) (cancel_time s) ev in
      let s := re_store tp ev' s in
      if activate
      then let low_bound := lower_bound (λ a, event_compare (re_events s) a tp) (re_active s) in
           re_set_active (insert_at low_bound tp (re_active s)) s
      else s
  end.

(** The region over the pending orders, and the entry of the loop over the active timers. *)
Definition process_all_pending (s : ResourceEvent) : ResourceEvent :=
  let s := re_set_skip false (re_set_pending [] (foldl process_pending s (re_pending s))) in
  re_set_phase (Triggering (re_active s) false) s.

(** The check of [skip_checking_active_timers_] behind a trigger. *)
Definition after_trigger (rest : list nat) (s : ResourceEvent) : ResourceEvent :=
  re_set_phase (if re_skip s then Ending true else Triggering rest true) s.

(** A turn of the loop over the active timers, up to the callback. *)
Definition trigger_start (rest : list nat) (did : bool) (s : ResourceEvent) : ResourceEvent :=
  match rest with
  | [] => re_set_phase (Ending did) s
  | tp :: rest' =>
      if next_of (re_events s) tp <=? re_current_time s then
        match re_events s !! tp with
        | None => s
        | Some ev =>
            if decide (te_state ev = WAITING)
            then re_set_phase (Calling tp rest') (re_store tp (te_set_state INACTIVE ev) s)
            else after_trigger rest' (re_store tp (te_set_next (cancel_time s) ev) s)
        end
      else re_set_phase (Ending did) s
  end.

(** The rest of [TimedEventImpl::trigger] behind the callback. *)
Definition trigger_return (restart : bool) (current_time cancel_time : Z) (ev : TimedEventImpl) : TimedEventImpl :=
  if restart then
    if decide (te_state ev = INACTIVE)
    then te_set_next (current_time + 1000 * te_interval ev) (te_set_state WAITING ev)
    else te_set_next cancel_time ev
  else te_set_next cancel_time ev.

Definition trigger_end (restart : bool) (tp : nat) (rest : list nat) (s : ResourceEvent) : ResourceEvent :=
  match re_events s !! tp with
  | None => s
  | Some ev => after_trigger rest (re_store tp (trigger_return restart (re_current_time s) (cancel_time s) ev) s)
  end.

(** [std::is_sorted] for [event_compare] *)
Fixpoint is_sorted (m : gmap nat TimedEventImpl) (l : list nat) : bool :=
  match l with
  | a :: (b :: _) as l' => negb (event_compare m b a) && is_sorted m l'
  | _ => true
  end.

(** [sort_timers] and the removal of the cancelled events; [sorted] is the order that the sort
    gives. *)
Definition sort_and_erase (did : bool) (sorted : list nat) (s : ResourceEvent) : option ResourceEvent :=
  if did then
    if decide (sorted ≡ₚ re_active s) then
      if is_sorted (re_events s) sorted
      then Some (re_set_phase Acted (re_set_active
             (take (lower_bound (λ a, next_of (re_events s) a <? cancel_time s) sorted) sorted) s))
      else None
    else None
  else if decide (sorted = re_active s) then Some (re_set_phase Acted s) else None.

(** ** event_service *)

Definition service_leave (s : ResourceEvent) : ResourceEvent := re_set_phase Stopped (re_set_allow true s).

(** The head of the loop and [update_current_time]; [now] is the reading of the steady clock. *)
Definition service_top (now : Z) (s : ResourceEvent) : ResourceEvent :=
  if re_stop s then service_leave s
  else re_set_phase Clocked (re_set_time now s).

(** The region behind [do_timer_actions], up to the wait. *)
Definition service_check (now : Z) (s : ResourceEvent) : ResourceEvent :=
  if re_stop s then service_leave s
  else match re_pending s with
       | _ :: _ => re_set_phase Top s
       | [] =>
           let next_trigger := match re_active s with
                               | [] => re_current_time s + 1000000000
                               | e :: _ => next_of (re_events s) e
                               end in
           let next_trigger := if now >? next_trigger then now + 10000 else next_trigger in
           re_set_phase (Sleeping now next_trigger) (re_set_notified false (re_set_allow true s))
       end.

Definition service_wake (s : ResourceEvent) : ResourceEvent := re_set_phase Top (re_set_allow false s).

Definition init_thread (s : ResourceEvent) : ResourceEvent :=
  re_set_phase Top (re_set_stop false (re_set_allow false s)).

(** [stop_thread] up to the join, which waits for the phase [Stopped]; without a thread it does
    nothing. *)
Definition stop_thread (s : ResourceEvent) : ResourceEvent :=
  if decide (re_phase s = Stopped) then s else re_set_notified true (re_set_stop true s).

(** ** The steps *)

Inductive Event :=
  | EvInit
  | EvStop
  | EvCreate (e : nat) (interval now : Z)       (* TimedEvent::TimedEvent *)
  | EvDestroy (service : bool) (e : nat)        (* TimedEvent::~TimedEvent *)
  | EvRecreate (service : bool) (e : nat)       (* TimedEvent::recreate_timer *)
  | EvInterval (e : nat) (interval : Z)         (* TimedEvent::update_interval *)
  | EvGoReady (e : nat)                         (* TimedEvent::restart_timer, its exchange *)
  | EvGoCancel (e : nat)                        (* TimedEvent::cancel_timer, its exchange *)
  | EvNotify (e : nat)                          (* the notification of one of the two *)
  | EvClock (now : Z)
  | EvPending
  | EvTrigger
  | EvReturn (restart : bool)
  | EvEnd (sorted : list nat)
  | EvCheck (now : Z)
  | EvWake.

(** The steps of the service thread. *)
Definition is_service (ev : Event) : bool :=
  match ev with
  | EvClock _ | EvPending | EvTrigger | EvReturn _ | EvEnd _ | EvCheck _ | EvWake => true
  | _ => false
  end.

(** Who may unregister an event: another thread while the service allows it, or the service
    thread from the callback of another event. An owner destroys an event only when none of its
    calls on it is under way. *)
Definition may_unregister (service : bool) (e : nat) (s : ResourceEvent) : bool :=
  if service then match re_phase s with Calling tp _ => negb (Nat.eqb tp e) | _ => false end
  else re_allow s.

(** The exchange of [restart_timer] or [cancel_timer]: a successful one is followed by a
    notification. *)
Definition re_exchange (exchange : TimedEventImpl → bool * TimedEventImpl) (e : nat) (s : ResourceEvent)
    : option ResourceEvent :=
  ev ← re_events s !! e;
  let (success, ev') := exchange ev in
  let s := re_store e ev' s in
  Some (if success then re_set_inflight (e :: re_inflight s) s else s).

Definition re_exec (ev : Event) (s : ResourceEvent) : option ResourceEvent :=
  match ev with
  | EvInit => if decide (re_phase s = Stopped) then Some (init_thread s) else None
  | EvStop => Some (stop_thread s)
  | EvCreate e interval now =>
      match re_events s !! e with
      | Some _ => None
      | None => Some (register_timer (re_store e (te_make interval now) s))
      end
  | EvDestroy service e =>
      if bool_decide (is_Some (re_events s !! e)) && negb (find_event e (re_inflight s)) && may_unregister service e s
      then let s := unregister_timer service e s in Some (re_set_events (delete e (re_events s)) s)
      else None
  | EvRecreate service e =>
      if may_unregister service e s
      then x ← re_events s !! e;
           Some (register_timer (re_store e (te_go_cancel x).2 (unregister_timer service e s)))
      else None
  | EvInterval e interval => x ← re_events s !! e; Some (re_store e (te_set_interval interval x) s)
  | EvGoReady e => re_exchange te_go_ready e s
  | EvGoCancel e => re_exchange te_go_cancel e s
  | EvNotify e =>
      if find_event e (re_inflight s)
      then Some (re_notify e (re_set_inflight (erase_event e (re_inflight s)) s))
      else None
  | EvClock now =>
      match re_phase s with
      | Top => if re_current_time s <=? now then Some (service_top now s) else None
      | _ => None
      end
  | EvPending => match re_phase s with Clocked => Some (process_all_pending s) | _ => None end
  | EvTrigger => match re_phase s with Triggering rest did => Some (trigger_start rest did s) | _ => None end
  | EvReturn restart => match re_phase s with Calling tp rest => Some (trigger_end restart tp rest s) | _ => None end
  | EvEnd sorted => match re_phase s with Ending did => sort_and_erase did sorted s | _ => None end
  | EvCheck now =>
      match re_phase s with
      | Acted => if re_current_time s <=? now then Some (service_check now s) else None
      | _ => None
      end
  | EvWake => match re_phase s with Sleeping _ _ => Some (service_wake s) | _ => None end
  end.

(** The event whose callback a step starts. *)
Definition re_fires (ev : Event) (s : ResourceEvent) : option nat :=
  match ev, re_phase s with
  | EvTrigger, Triggering (tp :: _) _ =>
      match re_events s !! tp with
      | Some x => if (te_next x <=? re_current_time s) && bool_decide (te_state x = WAITING) then Some tp else None
      | None => None
      end
  | _, _ => None
  end.

(** The runs of the service, with the callbacks they start. *)
Inductive re_run : ResourceEvent → list Event → list nat → ResourceEvent → Prop :=
  | re_run_nil s : re_run s [] [] s
  | re_run_cons s ev s1 evs fired s2 :
      re_exec ev s = Some s1 → re_run s1 evs fired s2 →
      re_run s (ev :: evs) (match re_fires ev s with Some e => e :: fired | None => fired end) s2.

(** The run of a list of steps, for evaluation. *)
Fixpoint re_replay (s : ResourceEvent) (evs : list Event) : option (list nat * ResourceEvent) :=
  match evs with
  | [] => Some ([], s)
  | ev :: evs' =>
      s1 ← re_exec ev s;
      '(fired, s2) ← re_replay s1 evs';
      Some (match re_fires ev s with Some e => e :: fired | None => fired end, s2)
  end.
