(* ===== verification/ResourceEventFacts.v ===== *)
(** * The collections of the event thread

    Facts about the sorted collection of active timers, the invariant of the
    event service and that every step preserves it. *)

From Stdlib Require Import ZArith Lia ZifyBool Sorting.Sorted.
From stdpp Require Import base numbers option gmap sorting list.
From S2P Require Import Prelude SortedRange TimedEvent ResourceEvent.

Open Scope Z_scope.

(** ** The trigger of an event in two parts *)

(** With a callback that only touches its own event, the two parts of a trigger are
    [TimedEventImpl::trigger]. *)
Lemma trigger_in_parts callback now cancel x :
  te_trigger callback now cancel x =
    if decide (te_state x = WAITING)
    then let (restart, x') := callback (te_set_state INACTIVE x) in trigger_return restart now cancel x'
    else te_set_next cancel x.
Proof. unfold te_trigger, trigger_return. by repeat case_decide || case_match. Qed.

(** ** Sorted collections *)

Definition nsorted (m : gmap nat TimedEventImpl) (l : list nat) : Prop :=
  StronglySorted (λ a b, next_of m a <= next_of m b) l.

Lemma nsorted_nil m : nsorted m [].
Proof. constructor. Qed.

Lemma nsorted_cons m a l : nsorted m (a :: l) ↔ nsorted m l ∧ ∀ b, b ∈ l → next_of m a <= next_of m b.
Proof.
  unfold nsorted. split.
  - intros Hs. inversion Hs as [|? ? Hl Ha]; subst. split; [done|]. by rewrite list.Forall_forall in Ha.
  - intros [Hl Ha]. constructor; [done|]. by apply list.Forall_forall.
Qed.

Lemma nsorted_app m l1 l2 :
  nsorted m (l1 ++ l2) ↔ nsorted m l1 ∧ nsorted m l2 ∧ ∀ a b, a ∈ l1 → b ∈ l2 → next_of m a <= next_of m b.
Proof.
  induction l1 as [|a l1 IH]; cbn [app].
  - split; [intros Hs; split_and!; [apply nsorted_nil | done | intros ? ? []%not_elem_of_nil] | by intros (_ & ? & _)].
  - rewrite !nsorted_cons, IH. split.
    + intros ((Hs1 & Hs2 & Hle) & Ha). split_and!; [done | | done |].
      * intros b Hb. apply Ha, elem_of_app. by left.
      * intros x b [->|Hx]%elem_of_cons Hb; [apply Ha, elem_of_app; by right | by apply Hle].
    + intros ((Hs1 & Ha) & Hs2 & Hle). split_and!; [done | done | |].
      * intros x b Hx Hb. apply Hle; [by apply elem_of_cons; right | done].
      * intros b [Hb|Hb]%elem_of_app; [by apply Ha | apply Hle; [apply elem_of_cons; by left | done]].
Qed.

Lemma nsorted_ext m m' l : (∀ a, a ∈ l → next_of m' a = next_of m a) → nsorted m l → nsorted m' l.
Proof.
  induction l as [|a l IH]; intros Hext; [intros; apply nsorted_nil|]. rewrite !nsorted_cons. intros [Hs Ha].
  split; [apply IH; [intros b Hb; apply Hext; by apply elem_of_cons; right | done]|].
  intros b Hb. rewrite !Hext; [by apply Ha | by apply elem_of_cons; right | apply elem_of_cons; by left].
Qed.

Lemma nsorted_sublist m l l' : l' `sublist_of` l → nsorted m l → nsorted m l'.
Proof.
  induction 1 as [|a l' l Hsub IH|a l' l Hsub IH]; [done| |]; rewrite !nsorted_cons; intros [Hs Ha].
  - split; [by apply IH|]. intros b Hb. apply Ha. by eapply elem_of_sublist.
  - by apply IH.
Qed.

Lemma is_sorted_spec m l : is_sorted m l = true ↔ nsorted m l.
Proof.
  induction l as [|a l IH]; [split; [intros; apply nsorted_nil | done]|].
  rewrite nsorted_cons. destruct l as [|b l].
  - split; [intros _; split; [apply nsorted_nil | intros ? []%not_elem_of_nil] | done].
  - change (is_sorted m (a :: b :: l)) with (negb (event_compare m b a) && is_sorted m (b :: l)).
    rewrite andb_true_iff, IH. unfold event_compare. split; intros [H1 H2].
    + split; [done|]. intros c [->|Hc]%elem_of_cons; [lia|].
      apply nsorted_cons in H2 as [_ H2]. specialize (H2 c Hc). lia.
    + specialize (H2 b ltac:(apply elem_of_cons; by left)). split; [lia | done].
Qed.

Lemma lower_bound_nsorted m k l :
  nsorted m l →
  (∀ a, a ∈ take (lower_bound (λ a, next_of m a <? k) l) l → next_of m a < k) ∧
  (∀ a, a ∈ drop (lower_bound (λ a, next_of m a <? k) l) l → k <= next_of m a).
Proof.
  induction l as [|a l IH]; [intros _; split; intros ? []%not_elem_of_nil|]. rewrite nsorted_cons. intros [Hs Ha].
  cbn [lower_bound]. destruct (Z.ltb_spec (next_of m a) k) as [Hlt|Hge]; cbn [take drop].
  - destruct (IH Hs) as [Ht Hd]. split; [|done]. intros b [->|Hb]%elem_of_cons; [done | by apply Ht].
  - split; [intros ? []%not_elem_of_nil|]. intros b [->|Hb]%elem_of_cons; [done|]. specialize (Ha b Hb). lia.
Qed.

Lemma insert_nsorted m e l :
  nsorted m l → nsorted m (insert_at (lower_bound (λ a, event_compare m a e) l) e l).
Proof.
  intros Hs. unfold event_compare. destruct (lower_bound_nsorted m (next_of m e) l Hs) as [Ht Hd].
  set (n := lower_bound _ l) in *. rewrite <- (take_drop n l) in Hs. apply nsorted_app in Hs as (Hs1 & Hs2 & Hle).
  unfold insert_at. apply nsorted_app. split_and!; [done | by apply nsorted_cons |].
  intros a b Ha [->|Hb]%elem_of_cons; [specialize (Ht a Ha); lia | by apply Hle].
Qed.

(** ** Erasing an event *)

Lemma erase_event_sublist e l : erase_event e l `sublist_of` l.
Proof. induction l as [|a l IH]; cbn; [done|]. case_decide; [by apply sublist_cons | by apply sublist_skip]. Qed.

Lemma elem_of_erase_event e a l : a ∈ erase_event e l → a ∈ l.
Proof. intros Ha. eapply elem_of_sublist; [exact Ha | apply erase_event_sublist]. Qed.

Lemma elem_of_erase_other e a l : a ≠ e → a ∈ l → a ∈ erase_event e l.
Proof.
  intros Hne. induction l as [|b l IH]; cbn; [done|]. rewrite elem_of_cons. case_decide as Hb.
  - intros [->|Ha]; done.
  - rewrite elem_of_cons. intros [->|Ha]; [by left | right; by apply IH].
Qed.

Lemma erase_event_NoDup e l : NoDup l → NoDup (erase_event e l).
Proof. intros Hl. eapply sublist_NoDup; [exact Hl | apply erase_event_sublist]. Qed.

Lemma not_elem_of_erase e l : NoDup l → e ∉ erase_event e l.
Proof.
  induction l as [|a l IH]; cbn; [intros _; apply not_elem_of_nil|]. rewrite NoDup_cons. intros [Ha Hl].
  case_decide as He; [by subst|]. rewrite not_elem_of_cons. split; [done | by apply IH].
Qed.

Lemma erase_event_absent e l : e ∉ l → erase_event e l = l.
Proof.
  induction l as [|a l IH]; [done|]. rewrite not_elem_of_cons. intros [Hne He]. cbn.
  rewrite decide_False by done. by rewrite IH.
Qed.

Lemma erase_event_app e l1 l2 : e ∉ l1 → erase_event e (l1 ++ l2) = l1 ++ erase_event e l2.
Proof.
  induction l1 as [|a l1 IH]; [done|]. rewrite not_elem_of_cons. intros [Hne He]. cbn.
  rewrite decide_False by done. by rewrite IH.
Qed.

Lemma elem_of_erase e a l : NoDup l → a ∈ erase_event e l ↔ a ∈ l ∧ a ≠ e.
Proof.
  intros Hl. split.
  - intros Ha. split; [by eapply elem_of_erase_event|]. intros ->. by eapply not_elem_of_erase.
  - intros [Ha Hne]. by apply elem_of_erase_other.
Qed.

Lemma find_event_spec e l : find_event e l = true ↔ e ∈ l.
Proof. unfold find_event. by rewrite bool_decide_eq_true. Qed.

Lemma find_event_false e l : find_event e l = false ↔ e ∉ l.
Proof. unfold find_event. by rewrite bool_decide_eq_false. Qed.

(** Searching from the position of [lower_bound] erases the event wherever it is. *)
Lemma erase_from_lower_bound m e l :
  nsorted m l →
  let n := lower_bound (λ a, event_compare m a e) l in take n l ++ erase_event e (drop n l) = erase_event e l.
Proof.
  intros Hs n. unfold event_compare in n. destruct (lower_bound_nsorted m (next_of m e) l Hs) as [Ht _]. fold n in Ht.
  rewrite <- (take_drop n l) at 3. rewrite erase_event_app; [done|]. intros He. specialize (Ht e He). lia.
Qed.

Lemma next_of_insert_other m e x a : a ≠ e → next_of (<[e := x]> m) a = next_of m a.
Proof. intros Hne. unfold next_of. by rewrite lookup_insert_ne by congruence. Qed.

Lemma next_of_insert m e x : next_of (<[e := x]> m) e = te_next x.
Proof. unfold next_of. by rewrite lookup_insert_eq. Qed.

Lemma next_of_insert_same m e x y a :
  m !! e = Some x → te_next y = te_next x → next_of (<[e := y]> m) a = next_of m a.
Proof.
  intros Hx Hy. destruct (decide (a = e)) as [->|Hne]; [|by apply next_of_insert_other].
  rewrite next_of_insert. unfold next_of. by rewrite Hx.
Qed.

(** ** The invariant *)

(** Intervals of less than a day, in microseconds. *)
Definition max_interval : Z := 24 * 3600 * 1000000.

(** What holds of the events [m], the active timers [A] and the calls in flight [F] at the time
    [now], with the pending orders [P]: the collections refer to live events; an event made ready
    is pending or about to be; a waiting event is active. *)
Record re_core (P : list nat) (m : gmap nat TimedEventImpl) (A F : list nat) (now : Z) : Prop := {
  core_active : NoDup A;
  core_live : ∀ e, e ∈ P ∨ e ∈ A ∨ e ∈ F → is_Some (m !! e);
  core_ready : ∀ e x, m !! e = Some x → te_state x = READY → e ∈ P ∨ e ∈ F;
  core_waiting : ∀ e x, m !! e = Some x → te_state x = WAITING → e ∈ A ∧ te_next x < now + hours_24;
  core_interval : ∀ e x, m !! e = Some x → te_interval x < max_interval
}.

Definition phase_ok (m : gmap nat TimedEventImpl) (A : list nat) (skip : bool) (p : Phase) : Prop :=
  match p with
  | Triggering rest did =>
      skip = false ∧ ∃ pre, A = pre ++ rest ∧ nsorted m rest ∧ (did = false → pre = [])
  | Calling e rest => e ∈ A ∧ (skip = false → ∃ pre, A = pre ++ e :: rest ∧ nsorted m rest)
  | Ending did => did = false → nsorted m A
  | Sleeping since deadline => nsorted m A ∧ ∀ e, e ∈ A → deadline <= Z.max (next_of m e) (since + 10000)
  | _ => nsorted m A
  end.

Definition resting (p : Phase) : Prop :=
  match p with Sleeping _ _ | Stopped => True | _ => False end.

Definition asleep (p : Phase) : Prop :=
  match p with Sleeping _ _ => True | _ => False end.

(** An event does not wait while its callback runs. *)
Definition idle_callee (m : gmap nat TimedEventImpl) (p : Phase) : Prop :=
  match p with Calling e _ => ∀ x, m !! e = Some x → te_state x ≠ WAITING | _ => True end.

(** The service: [re_core], no duplicates in the pending orders, the collections left to other
    threads only while the thread rests, a sleeping thread is woken for pending orders, and the
    order of the active timers. *)
Record re_ok (s : ResourceEvent) : Prop := {
  ok_pending : NoDup (re_pending s);
  ok_core : re_core (re_pending s) (re_events s) (re_active s) (re_inflight s) (re_current_time s);
  ok_allow : re_allow s = true → resting (re_phase s);
  ok_wake : asleep (re_phase s) → re_pending s ≠ [] → re_notified s = true;
  ok_phase : phase_ok (re_events s) (re_active s) (re_skip s) (re_phase s);
  ok_calling : idle_callee (re_events s) (re_phase s)
}.

Lemma re_make_ok : re_ok re_make.
Proof.
  constructor; cbn; try done; [constructor| |apply nsorted_nil].
  constructor; [constructor | by intros e [[]%not_elem_of_nil|[[]%not_elem_of_nil|[]%not_elem_of_nil]] | ..];
    intros e x Hx; by rewrite lookup_empty in Hx.
Qed.

Lemma idle_callee_insert m p e y :
  idle_callee m p → (te_state y = WAITING → ∃ x, m !! e = Some x ∧ te_state x = WAITING) → idle_callee (<[e := y]> m) p.
Proof.
  destruct p as [| | |a rest| | | |]; try done. cbn. intros Hp Hy z [[<- <-]|[Hne Hz]]%lookup_insert_Some; [|by apply Hp].
  intros E. destruct (Hy E) as (x & Hx & Hw). by apply (Hp x Hx).
Qed.

Lemma phase_ok_ext m m' A skip p :
  (∀ a, a ∈ A → next_of m' a = next_of m a) → phase_ok m A skip p → phase_ok m' A skip p.
Proof.
  intros Hext. destruct p as [| |rest did|e rest|did| |since d|]; cbn; try (by apply nsorted_ext).
  - intros (Hk & pre & -> & Hs & Hd). split; [done|]. exists pre. split_and!; [done | | done].
    eapply nsorted_ext; [|exact Hs]. intros a Ha. apply Hext, elem_of_app. by right.
  - intros [He Hk]. split; [done|]. intros E. destruct (Hk E) as (pre & -> & Hs). exists pre. split; [done|].
    eapply nsorted_ext; [|exact Hs]. intros a Ha. apply Hext, elem_of_app. right. by apply elem_of_cons; right.
  - intros Hs E. eapply nsorted_ext; [done|by apply Hs].
  - intros [Hs Hd]. split; [by eapply nsorted_ext|]. intros e He. rewrite Hext by done. by apply Hd.
Qed.

(** An owner changes one event, but not its time. *)
Lemma core_store P m A F F' now e x y :
  re_core P m A F now → m !! e = Some x →
  te_interval y < max_interval → te_next y = te_next x →
  (te_state y = READY → e ∈ P ∨ e ∈ F') → (te_state y = WAITING → te_state x = WAITING) →
  (∀ a, a ∈ F → a ∈ F') → (∀ a, a ∈ F' → a = e ∨ a ∈ F) →
  re_core P (<[e := y]> m) A F' now.
Proof.
  intros [HA HL HR HW HI] Hx Hi Hn Hr Hw HF1 HF2. constructor; [done|..].
  - intros a Ha. destruct (decide (a = e)) as [->|Hne]; [rewrite lookup_insert_eq; by eexists|].
    rewrite lookup_insert_ne by done. apply HL. destruct Ha as [?|[?|Ha]]; [auto..|]. destruct (HF2 a Ha) as [->|?]; [done | auto].
  - intros a z [[<- <-]|[Hne Hz]]%lookup_insert_Some; [done|]. intros Hs. destruct (HR a z Hz Hs); auto.
  - intros a z [[<- <-]|[Hne Hz]]%lookup_insert_Some; [|by apply HW]. intros Hs. rewrite Hn. by apply (HW e x), Hw.
  - intros a z [[<- <-]|[Hne Hz]]%lookup_insert_Some; [done | by eapply HI].
Qed.

Lemma core_pending P P' m A F now :
  re_core P m A F now → (∀ e, e ∈ P → e ∈ P') → (∀ e, e ∈ P' → is_Some (m !! e)) → re_core P' m A F now.
Proof.
  intros [HA HL HR HW HI] Hsub Hlive. constructor; try done.
  - intros e [He|He]; [by apply Hlive | apply HL; auto].
  - intros e x Hx Hs. destruct (HR e x Hx Hs); auto.
Qed.

Lemma core_time P m A F now now' : now <= now' → re_core P m A F now → re_core P m A F now'.
Proof.
  intros Hle [HA HL HR HW HI]. constructor; try done. intros e x Hx Hs. destruct (HW e x Hx Hs). split; [done | lia].
Qed.

(** ** The pending orders *)

(** A turn of the loop over the pending orders moves the event to its place. *)
Lemma process_pending_spec s tp P :
  re_core (tp :: P) (re_events s) (re_active s) (re_inflight s) (re_current_time s) →
  nsorted (re_events s) (re_active s) →
  let s' := process_pending s tp in
  re_core P (re_events s') (re_active s') (re_inflight s) (re_current_time s) ∧
  nsorted (re_events s') (re_active s') ∧
  s' = re_set_active (re_active s') (re_set_events (re_events s') s).
Proof.
  intros [HA HL HR HW HI] Hs s'. unfold s', process_pending. rewrite erase_from_lower_bound by done.
  cbn [re_events re_set_active re_active re_current_time]. destruct (HL tp) as [x Hx]; [left; apply elem_of_cons; by left|].
  rewrite Hx. set (A' := erase_event tp (re_active s)).
  assert (NoDup A') as HA' by by apply erase_event_NoDup.
  assert (tp ∉ A') as Htp by by apply not_elem_of_erase.
  assert (∀ y, nsorted (<[tp := y]> (re_events s)) A') as Hs'.
  { intros y. eapply nsorted_ext; [|eapply nsorted_sublist; [apply erase_event_sublist | exact Hs]].
    intros a Ha. apply next_of_insert_other. by intros ->. }
  assert (∀ y B, (te_state y ≠ READY) → (te_state y = WAITING → tp ∈ B ∧ te_next y < re_current_time s + hours_24) →
            te_interval y = te_interval x → NoDup B → (∀ a, a ∈ A' → a ∈ B) → (∀ a, a ∈ B → a = tp ∨ a ∈ A') →
            re_core P (<[tp := y]> (re_events s)) B (re_inflight s) (re_current_time s)) as Hcore.
  { intros y B Hy HyW HyI HB HB1 HB2. constructor; [done|..].
    - intros a Ha. destruct (decide (a = tp)) as [->|Hne]; [rewrite lookup_insert_eq; by eexists|].
      rewrite lookup_insert_ne by done. apply HL. destruct Ha as [?|[Ha|?]]; [left; by apply elem_of_cons; right| |auto].
      destruct (HB2 a Ha) as [->|Ha']; [done|]. right. left. by eapply elem_of_erase_event.
    - intros a z [[<- <-]|[Hne Hz]]%lookup_insert_Some E; [done|].
      destruct (HR a z Hz E) as [[->|?]%elem_of_cons|?]; [done | auto..].
    - intros a z [[<- <-]|[Hne Hz]]%lookup_insert_Some E; [by apply HyW|]. destruct (HW a z Hz E) as [Ha Hlt].
      split; [|done]. apply HB1. apply elem_of_erase; [done|]. split; [done|congruence].
    - intros a z [[<- <-]|[Hne Hz]]%lookup_insert_Some; [rewrite HyI|]; by eapply HI. }
  assert (∀ y, NoDup (insert_at (lower_bound (λ a, event_compare (<[tp := y]> (re_events s)) a tp) A') tp A') ∧
            nsorted (<[tp := y]> (re_events s))
              (insert_at (lower_bound (λ a, event_compare (<[tp := y]> (re_events s)) a tp) A') tp A')) as Hins.
  { intros y. split; [|by apply insert_nsorted]. unfold insert_at. set (n := lower_bound _ _).
    rewrite <- Permutation_middle, take_drop. by constructor. }
  unfold te_update. case_decide as HSt; [|case_decide as HSi];
    cbn [re_store re_set_events re_events re_active re_set_active re_current_time].
  - split_and!; [|apply Hins | done]. apply Hcore; [done | | done | apply Hins | |].
    + intros _. split; [apply elem_of_insert_at; by left|]. cbn. pose proof (HI tp x Hx).
      unfold max_interval, hours_24 in *. lia.
    + intros a Ha. apply elem_of_insert_at. by right.
    + intros a. by rewrite elem_of_insert_at.
  - split_and!; [|apply Hs' | done]. apply Hcore; [cbn; congruence | cbn; congruence | done | done | done | by right].
  - assert (te_state x = WAITING) as HSw by (destruct (te_state x); done).
    split_and!; [|apply Hins | done]. apply Hcore; [congruence | | done | apply Hins | |].
    + intros _. split; [apply elem_of_insert_at; by left|]. by apply (HW tp x).
    + intros a Ha. apply elem_of_insert_at. by right.
    + intros a. by rewrite elem_of_insert_at.
Qed.

Lemma process_pending_fold P s :
  re_core P (re_events s) (re_active s) (re_inflight s) (re_current_time s) →
  nsorted (re_events s) (re_active s) →
  let s' := foldl process_pending s P in
  re_core [] (re_events s') (re_active s') (re_inflight s) (re_current_time s) ∧
  nsorted (re_events s') (re_active s') ∧
  s' = re_set_active (re_active s') (re_set_events (re_events s') s).
Proof.
  revert s. induction P as [|tp P IH]; intros s Hc Hs; cbn [foldl]; [split_and!; [done | done | by destruct s]|].
  destruct (process_pending_spec s tp P Hc Hs) as (Hc1 & Hs1 & E1). set (s1 := process_pending s tp) in *.
  assert (re_inflight s1 = re_inflight s) as Ef by (by rewrite E1).
  assert (re_current_time s1 = re_current_time s) as Et by (by rewrite E1).
  destruct (IH s1) as (Hc2 & Hs2 & E2); [by rewrite Ef, Et | done|]. rewrite Ef, Et in Hc2.
  split_and!; [done | done |]. rewrite E2 at 1. by rewrite E1.
Qed.

(** ** Unregistering *)

Lemma unregister_fields service e s :
  let s' := unregister_timer service e s in
  re_events s' = re_events s ∧ re_pending s' = erase_event e (re_pending s) ∧
  re_active s' = erase_event e (re_active s) ∧ re_inflight s' = re_inflight s ∧
  re_current_time s' = re_current_time s ∧ re_phase s' = re_phase s ∧ re_allow s' = re_allow s ∧
  re_skip s' = (re_skip s || (service && find_event e (re_active s))) ∧
  (re_notified s = true → re_notified s' = true).
Proof.
  unfold unregister_timer. destruct (find_event e (re_pending s)) eqn:Ep, (find_event e (re_active s)) eqn:Ea;
    cbn; rewrite ?Ea; destruct service; cbn; rewrite ?orb_true_r, ?orb_false_r;
    try apply find_event_false in Ep; try apply find_event_false in Ea;
    split_and!; rewrite ?(erase_event_absent e) by done; done.
Qed.

(** An event leaves the collections, and memory or all activity with it. *)
Lemma core_drop P m m' A F now e :
  re_core P m A F now → NoDup P → (∀ a, a ≠ e → m' !! a = m !! a) →
  (m' !! e = None ∧ e ∉ F ∨ ∃ y, m' !! e = Some y ∧ te_state y = INACTIVE ∧ te_interval y < max_interval) →
  re_core (erase_event e P) m' (erase_event e A) F now.
Proof.
  intros [HA HL HR HW HI] HP Hm He.
  assert (∀ z, m' !! e = Some z → te_state z = INACTIVE ∧ te_interval z < max_interval) as Hez.
  { intros z Hz. destruct He as [[E _]|(y & E & ? & ?)]; rewrite Hz in E; by simplify_eq. }
  constructor; [by apply erase_event_NoDup|..].
  - intros a Ha. destruct (decide (a = e)) as [->|Hne].
    + destruct Ha as [Ha|[Ha|Ha]]; [by apply not_elem_of_erase in Ha..|].
      destruct He as [[_ ?]|(y & -> & _)]; [done | by eexists].
    + rewrite Hm by done. apply HL. destruct Ha as [?%elem_of_erase_event|[?%elem_of_erase_event|?]]; auto.
  - intros a z Hz E. destruct (decide (a = e)) as [->|Hne]; [destruct (Hez z Hz); congruence|].
    rewrite Hm in Hz by done. destruct (HR a z Hz E); [left; by apply elem_of_erase_other | by right].
  - intros a z Hz E. destruct (decide (a = e)) as [->|Hne]; [destruct (Hez z Hz); congruence|].
    rewrite Hm in Hz by done. destruct (HW a z Hz E). split; [by apply elem_of_erase_other | done].
  - intros a z Hz. destruct (decide (a = e)) as [->|Hne]; [by apply Hez|]. rewrite Hm in Hz by done. by eapply HI.
Qed.

Lemma phase_drop m m' A skip service e s :
  phase_ok m A skip (re_phase s) → NoDup A → (∀ a, a ≠ e → m' !! a = m !! a) →
  (re_allow s = true → resting (re_phase s)) → may_unregister service e s = true →
  phase_ok m' (erase_event e A) (skip || (service && find_event e A)) (re_phase s).
Proof.
  intros Hp HA Hm Hrest Hmay.
  assert (∀ a, a ∈ erase_event e A → next_of m' a = next_of m a) as Hext.
  { intros a [_ Hne]%elem_of_erase; [|done]. unfold next_of. by rewrite Hm. }
  apply phase_ok_ext with (m := m); [done|]. unfold may_unregister in Hmay.
  destruct service; cbn [andb]; [|rewrite orb_false_r].
  - destruct (re_phase s) as [| | |tp rest| | | |]; try done. apply negb_true_iff, Nat.eqb_neq in Hmay.
    cbn in *. destruct Hp as [Htp Hk]. split; [by apply elem_of_erase_other|].
    intros [-> Ha%find_event_false]%orb_false_iff. rewrite erase_event_absent by done. by apply Hk.
  - specialize (Hrest Hmay). destruct (re_phase s) as [| | | | | |since d|]; try done; cbn in *.
    + destruct Hp as [Hs Hd]. split; [eapply nsorted_sublist; [apply erase_event_sublist | done]|].
      intros a Ha%elem_of_erase_event. by apply Hd.
    + eapply nsorted_sublist; [apply erase_event_sublist | done].
Qed.

(** ** Every step preserves the invariant *)

(** The steps whose intervals are less than a day. *)
Definition short_interval (ev : Event) : Prop :=
  match ev with
  | EvCreate _ interval _ | EvInterval _ interval => interval < max_interval
  | _ => True
  end.

Lemma store_ok s e x y F' :
  re_ok s → re_events s !! e = Some x →
  te_interval y < max_interval → te_next y = te_next x →
  (te_state y = READY → e ∈ re_pending s ∨ e ∈ F') → (te_state y = WAITING → te_state x = WAITING) →
  (∀ a, a ∈ re_inflight s → a ∈ F') → (∀ a, a ∈ F' → a = e ∨ a ∈ re_inflight s) →
  re_ok (re_set_inflight F' (re_store e y s)).
Proof.
  intros [HP HC HA HW HF HK] Hx Hi Hn Hr Hw HF1 HF2. constructor; cbn; try done.
  - by eapply core_store.
  - eapply phase_ok_ext; [|exact HF]. intros a _. by eapply next_of_insert_same.
  - apply idle_callee_insert; [done|]. eauto.
Qed.

Lemma exchange_ok (exchange : TimedEventImpl → bool * TimedEventImpl) e s s' :
  (∀ x, let (b, y) := exchange x in
        te_interval y = te_interval x ∧ te_next y = te_next x ∧ te_state y ≠ WAITING ∨ (b, y) = (false, x)) →
  (∀ x y, exchange x = (false, y) → te_state y = READY → te_state x = READY) →
  re_ok s → re_exchange exchange e s = Some s' → re_ok s'.
Proof.
  intros Hex Hrd Hok He. unfold re_exchange in He. apply bind_Some in He as (x & Hx & He).
  pose proof (core_interval _ _ _ _ _ (ok_core _ Hok) e x Hx) as Hi. specialize (Hex x).
  destruct (exchange x) as [b y] eqn:E. injection He as <-.
  assert (∀ F', (∀ a, a ∈ re_inflight s → a ∈ F') → (∀ a, a ∈ F' → a = e ∨ a ∈ re_inflight s) →
            (te_state y = READY → e ∈ re_pending s ∨ e ∈ F') → re_ok (re_set_inflight F' (re_store e y s))) as Hgo.
  { intros F' HF1 HF2 Hr. destruct Hex as [(Ei & En & Hnw)|[= -> ->]];
      (eapply store_ok; [done | exact Hx | congruence | congruence || done | done | | done | done]); done. }
  destruct b.
  - apply Hgo; [intros; by apply elem_of_cons; right | intros a; by rewrite elem_of_cons |].
    intros _. right. apply elem_of_cons. by left.
  - replace (re_store e y s) with (re_set_inflight (re_inflight s) (re_store e y s)) by by destruct s.
    apply Hgo; [done | by right |]. intros Hr. by apply (core_ready _ _ _ _ _ (ok_core _ Hok) e x Hx), (Hrd x y).
Qed.

Lemma create_ok s e interval now :
  re_ok s → re_events s !! e = None → interval < max_interval →
  re_ok (register_timer (re_store e (te_make interval now) s)).
Proof.
  intros [HP [HA HL HR HW HI] Hal Hwk HF HK] Hnew Hi.
  assert (∀ a, e = a → ¬ (a ∈ re_pending s ∨ a ∈ re_active s ∨ a ∈ re_inflight s)) as Hout.
  { intros a <- Ha. destruct (HL e Ha) as [? E]. congruence. }
  constructor; cbn; try done.
  - constructor; [done|..].
    + intros a Ha. rewrite lookup_insert_ne; [by apply HL|]. intros <-. by eapply Hout.
    + intros a z [[<- <-]|[Hne Hz]]%lookup_insert_Some; [done | by apply HR].
    + intros a z [[<- <-]|[Hne Hz]]%lookup_insert_Some; [done | by apply HW].
    + intros a z [[<- <-]|[Hne Hz]]%lookup_insert_Some; [done | by eapply HI].
  - eapply phase_ok_ext; [|exact HF]. intros a Ha. apply next_of_insert_other. intros ->. eapply Hout; eauto.
  - by apply idle_callee_insert.
Qed.

(** The event is destroyed or recreated: the new store and the flags besides. *)
Lemma unregister_ok service e s s' m' :
  re_ok s → may_unregister service e s = true → s' = unregister_timer service e s →
  (∀ a, a ≠ e → m' !! a = re_events s !! a) →
  (m' !! e = None ∧ e ∉ re_inflight s ∨
   ∃ y, m' !! e = Some y ∧ te_state y = INACTIVE ∧ te_interval y < max_interval) →
  re_ok (re_set_events m' s').
Proof.
  intros [HP HC Hal Hwk HF HK] Hmay -> Hm He.
  destruct (unregister_fields service e s) as (Em & Ep & Ea & Ef & Et & Eph & Eal & Esk & En).
  constructor; cbn; rewrite ?Ep, ?Ea, ?Ef, ?Et, ?Eph, ?Eal, ?Esk.
  - by apply erase_event_NoDup.
  - by eapply core_drop.
  - done.
  - intros Hph Hne. apply En, Hwk; [done|]. by intros E; rewrite E in Hne.
  - eapply phase_drop; [done | apply HC | done..].
  - destruct (re_phase s) as [| | |tp rest| | | |]; try done. cbn in *. intros z Hz.
    destruct (decide (tp = e)) as [->|Hne]; [|rewrite Hm in Hz by done; by apply HK].
    destruct He as [[E _]|(y & E & Ey & _)]; rewrite Hz in E; by simplify_eq; rewrite Ey.
Qed.

Lemma register_ok s : re_ok s → re_ok (register_timer s).
Proof. intros [HP HC Hal Hwk HF HK]. by constructor. Qed.

Lemma notify_ok e s :
  re_ok s → e ∈ re_inflight s → re_ok (re_notify e (re_set_inflight (erase_event e (re_inflight s)) s)).
Proof.
  intros [HP [HA HL HR HW HI] Hal Hwk HF HK] He. unfold re_notify, register_timer_nts. cbn.
  assert (∀ P', (∀ a, a ∈ re_pending s → a ∈ P') → e ∈ P' → (∀ a, a ∈ P' → a = e ∨ a ∈ re_pending s) →
    re_core P' (re_events s) (re_active s) (erase_event e (re_inflight s)) (re_current_time s)) as Hcore.
  { intros P' HP1 HP2 HP3. constructor; try done.
    - intros a Ha. apply HL. destruct Ha as [Ha|[?|?%elem_of_erase_event]]; [|auto..].
      destruct (HP3 a Ha) as [->|?]; auto.
    - intros a x Hx Hs. destruct (decide (a = e)) as [->|Hne]; [by left|].
      destruct (HR a x Hx Hs); [left; auto | right; by apply elem_of_erase_other]. }
  destruct (find_event e (re_pending s)) eqn:Ef; cbn.
  - apply find_event_spec in Ef. constructor; cbn; try done. apply Hcore; [done | done | by right].
  - apply find_event_false in Ef. constructor; cbn; try done.
    + apply NoDup_app. split_and!; [done | by intros a Ha ->%list_elem_of_singleton | apply NoDup_singleton].
    + apply Hcore.
      * intros a Ha. apply elem_of_app. by left.
      * apply elem_of_app. right. by apply list_elem_of_singleton.
      * intros a [Ha|Ha%list_elem_of_singleton]%elem_of_app; [by right | by left].
Qed.

Lemma leave_ok s : re_ok s → nsorted (re_events s) (re_active s) → re_ok (service_leave s).
Proof. intros [HP HC Hal Hwk HF HK] Hs. by constructor. Qed.

Lemma top_ok now s : re_ok s → re_phase s = Top → re_current_time s <= now → re_ok (service_top now s).
Proof.
  intros Hok Hph Hle. pose proof Hok as [HP HC Hal Hwk HF HK]. rewrite Hph in HF. unfold service_top.
  destruct (re_stop s); [by apply leave_ok|]. constructor; cbn; try done.
  - by eapply core_time.
  - intros E. specialize (Hal E). by rewrite Hph in Hal.
Qed.

Lemma pending_ok s : re_ok s → re_phase s = Clocked → re_ok (process_all_pending s).
Proof.
  intros [HP HC Hal Hwk HF HK] Hph. rewrite Hph in HF, Hal. unfold process_all_pending.
  destruct (process_pending_fold (re_pending s) s HC HF) as (Hc & Hs & E).
  set (s' := foldl process_pending s (re_pending s)) in *.
  constructor; cbn; try done.
  - constructor.
  - rewrite E. exact Hc.
  - rewrite E. cbn. done.
  - split; [done|]. by exists [].
Qed.

(** The time of an event behind the active timers that are still to be looked at changes. *)
Lemma core_retime P m A F now e x y :
  re_core P m A F now → m !! e = Some x → e ∈ A → te_interval y = te_interval x →
  (te_state y = READY → te_state x = READY) → (te_state y = WAITING → te_next y < now + hours_24) →
  re_core P (<[e := y]> m) A F now.
Proof.
  intros [HA HL HR HW HI] Hx He Hi Hr Hw. constructor; [done|..].
  - intros a Ha. destruct (decide (a = e)) as [->|Hne]; [rewrite lookup_insert_eq; by eexists|].
    rewrite lookup_insert_ne by done. by apply HL.
  - intros a z [[<- <-]|[Hne Hz]]%lookup_insert_Some; [|by apply HR]. intros Hs. by apply (HR e x Hx), Hr.
  - intros a z [[<- <-]|[Hne Hz]]%lookup_insert_Some; [|by apply HW]. intros Hs. split; [done | by apply Hw].
  - intros a z [[<- <-]|[Hne Hz]]%lookup_insert_Some; [rewrite Hi|]; by eapply HI.
Qed.

Lemma after_trigger_phase (m : gmap nat TimedEventImpl) e y (A pre rest : list nat) :
  A = pre ++ e :: rest → NoDup A → nsorted m rest → nsorted (<[e := y]> m) rest.
Proof.
  intros -> HA Hs. eapply nsorted_ext; [|exact Hs]. intros a Ha. apply next_of_insert_other. intros ->.
  apply NoDup_app in HA as (_ & _ & [Hn _]%NoDup_cons). done.
Qed.

Lemma trigger_start_ok rest did s :
  re_ok s → re_phase s = Triggering rest did → re_ok (trigger_start rest did s).
Proof.
  intros [HP HC Hal Hwk HF HK] Hph. rewrite Hph in HF, Hal. cbn in HF. destruct HF as (Hk & pre & EA & Hs & Hd).
  assert (re_ok (re_set_phase (Ending did) s)) as Hend.
  { constructor; cbn; try done. intros E. rewrite EA, (Hd E). done. }
  unfold trigger_start. destruct rest as [|tp rest]; [done|]. destruct (_ <=? _); [|done].
  assert (tp ∈ re_active s) as Htp by (rewrite EA; apply elem_of_app; right; apply elem_of_cons; by left).
  destruct (core_live _ _ _ _ _ HC tp) as [x Hx]; [auto|]. rewrite Hx. apply nsorted_cons in Hs as [Hs _].
  pose proof (core_active _ _ _ _ _ HC) as HA.
  case_decide as Hst; [|unfold after_trigger; cbn; rewrite Hk]; (constructor; cbn; try done).
  - by eapply core_retime.
  - split; [done|]. intros _. exists pre. split; [done|]. by eapply after_trigger_phase.
  - intros z. rewrite lookup_insert_eq. by intros [= <-].
  - eapply core_retime; [done | done | done | done | done|]. cbn. done.
  - split; [done|]. exists (pre ++ [tp]). split_and!; [by rewrite <- app_assoc | by eapply after_trigger_phase | done].
Qed.

Lemma trigger_end_ok restart tp rest s :
  re_ok s → re_phase s = Calling tp rest → re_ok (trigger_end restart tp rest s).
Proof.
  intros [HP HC Hal Hwk HF HK] Hph. rewrite Hph in HF, Hal, HK. cbn in HF, HK. destruct HF as [Htp Hk].
  unfold trigger_end. destruct (core_live _ _ _ _ _ HC tp) as [x Hx]; [auto|]. rewrite Hx. specialize (HK x Hx).
  pose proof (core_active _ _ _ _ _ HC) as HA. set (y := trigger_return _ _ _ x).
  assert (re_core (re_pending s) (<[tp := y]> (re_events s)) (re_active s) (re_inflight s) (re_current_time s)) as HC'.
  { pose proof (core_interval _ _ _ _ _ HC tp x Hx) as Hi. unfold y, trigger_return.
    destruct restart; [case_decide as Hst|]; (eapply core_retime; [done | done | done | done | done |]);
      cbn; unfold hours_24, max_interval in *; [lia | done | done]. }
  unfold after_trigger. destruct (re_skip _) eqn:Esk; cbn in Esk; constructor; cbn; try done.
  rewrite Esk. split; [done|]. destruct (Hk eq_refl) as (pre & EA & Hs). exists (pre ++ [tp]).
  split_and!; [by rewrite <- app_assoc | by eapply after_trigger_phase | done].
Qed.

Lemma sort_and_erase_ok did sorted s s' :
  re_ok s → re_phase s = Ending did → sort_and_erase did sorted s = Some s' → re_ok s'.
Proof.
  intros [HP HC Hal Hwk HF HK] Hph E. rewrite Hph in HF, Hal. unfold sort_and_erase in E.
  destruct did; [|case_decide; [|done]; injection E as <-; constructor; cbn; try done; by apply HF].
  case_decide as Hperm; [|done]. destruct (is_sorted _ _) eqn:Hs; [|done]. injection E as <-.
  apply is_sorted_spec in Hs. destruct (lower_bound_nsorted _ (cancel_time s) sorted Hs) as [_ Hd].
  set (n := lower_bound _ sorted) in *. assert (∀ a, a ∈ take n sorted → a ∈ re_active s) as Hsub.
  { intros a Ha. rewrite <- Hperm. by eapply subseteq_take. }
  destruct HC as [HA HL HR HW HI]. constructor; cbn; try done.
  - constructor; try done.
    + eapply sublist_NoDup; [|apply sublist_take]. by rewrite Hperm.
    + intros e [?|[?|?]]; apply HL; auto.
    + intros e x Hx Hst. destruct (HW e x Hx Hst) as [He Hlt]. split; [|done].
      rewrite <- Hperm, <- (take_drop n sorted) in He. apply elem_of_app in He as [?|He]; [done|].
      specialize (Hd e He). unfold next_of, cancel_time in Hd. rewrite Hx in Hd. lia.
  - eapply nsorted_sublist; [apply sublist_take | done].
Qed.

Lemma check_ok now s : re_ok s → re_phase s = Acted → re_ok (service_check now s).
Proof.
  intros Hok Hph. pose proof Hok as [HP HC Hal Hwk HF HK]. rewrite Hph in HF, Hal. cbn in HF. unfold service_check.
  destruct (re_stop s); [by apply leave_ok|]. destruct (re_pending s) as [|p P] eqn:EP.
  - constructor; cbn; rewrite ?EP; try done. split; [done|]. intros e He. destruct (re_active s) as [|a A]; [by apply elem_of_nil in He|].
    apply nsorted_cons in HF as [_ HF]. assert (next_of (re_events s) a <= next_of (re_events s) e).
    { apply elem_of_cons in He as [->|He]; [done | by apply HF]. } zif; lia.
  - constructor; cbn; rewrite ?EP; try done.
Qed.

(** The invariant, for every step with intervals below a day. *)
Lemma exec_ok ev s s' : re_ok s → short_interval ev → re_exec ev s = Some s' → re_ok s'.
Proof.
  intros Hok Hi E. destruct ev as [| |e i now|svc e|svc e|e i|e|e|e|now| | |restart|sorted|now|]; cbn in E, Hi.
  - case_decide as Hp; [|done]. injection E as <-. destruct Hok as [HP HC Hal Hwk HF HK]. rewrite Hp in HF. by constructor.
  - injection E as <-. unfold stop_thread. case_decide; [done|]. by destruct Hok; constructor.
  - destruct (re_events s !! e) eqn:Ee; [done|]. injection E as <-. by apply create_ok.
  - destruct (_ && _) eqn:Eb in E; [|done]. injection E as <-. apply andb_true_iff in Eb as [[_ Hf]%andb_true_iff Hm].
    apply negb_true_iff, find_event_false in Hf. destruct (unregister_fields svc e s) as (Em & _). rewrite Em.
    eapply unregister_ok; [done | done | done | intros a Ha; by apply lookup_delete_ne |].
    left. split; [apply lookup_delete_eq | done].
  - destruct (may_unregister svc e s) eqn:Hm; [|done]. apply bind_Some in E as (x & Hx & E). injection E as <-.
    destruct (unregister_fields svc e s) as (Em & _). apply register_ok. unfold re_store. rewrite Em.
    eapply unregister_ok; [done | done | done | intros a Ha; by apply lookup_insert_ne |].
    right. eexists. split; [apply lookup_insert_eq|]. split; [done|]. apply (core_interval _ _ _ _ _ (ok_core _ Hok) e x Hx).
  - apply bind_Some in E as (x & Hx & E). injection E as <-.
    replace (re_store _ _ s) with (re_set_inflight (re_inflight s) (re_store e (te_set_interval i x) s)) by by destruct s.
    eapply store_ok; [done | exact Hx | done | done | | done | done | by right].
    apply (core_ready _ _ _ _ _ (ok_core _ Hok) e x Hx).
  - eapply exchange_ok; [| |exact Hok|exact E]; unfold te_go_ready; intros x.
    + case_decide; [left | right]; done.
    + intros y. case_decide; [done|]. by intros [= <-].
  - eapply exchange_ok; [| |exact Hok|exact E]; unfold te_go_cancel; intros x.
    + left. done.
    + by intros y [= _ <-].
  - destruct (find_event e (re_inflight s)) eqn:Ef; [|done]. injection E as <-. apply notify_ok; [done | by apply find_event_spec].
  - destruct (re_phase s) eqn:Hp; try done. destruct (Z.leb_spec (re_current_time s) now); [|done]. injection E as <-. by apply top_ok.
  - destruct (re_phase s) eqn:Hp; try done. injection E as <-. by apply pending_ok.
  - destruct (re_phase s) eqn:Hp; try done. injection E as <-. by apply trigger_start_ok.
  - destruct (re_phase s) eqn:Hp; try done. injection E as <-. by apply trigger_end_ok.
  - destruct (re_phase s) eqn:Hp; try done. by eapply sort_and_erase_ok.
  - destruct (re_phase s) eqn:Hp; try done. destruct (_ <=? _); [|done]. injection E as <-. by apply check_ok.
  - destruct (re_phase s) eqn:Hp; try done. injection E as <-. destruct Hok as [HP HC Hal Hwk HF HK].
    rewrite Hp in HF. destruct HF. by constructor.
Qed.

Lemma re_run_ok s evs fired s' : re_run s evs fired s' → re_ok s → Forall short_interval evs → re_ok s'.
Proof.
  induction 1 as [|s ev s1 evs fired s2 E Hr IH]; [done|]. intros Hok [Hi His]%Forall_cons.
  apply IH; [by eapply exec_ok | done].
Qed.
