(* ===== verification/ResourceEventTheorems.v ===== *)
(** * What the event thread promises

    No timer is lost: an event made ready is waiting for its time or about to be,
    the thread sleeps no longer than to the first of the waiting events, and it
    is never stuck. A waiting event whose time has come is triggered in the same
    pass. A cancelled event stays quiet until it is restarted. Events with a day
    or more to wait are an exception: the pass that triggers another event
    forgets them. *)

From Stdlib Require Import ZArith Lia ZifyBool Sorting.Sorted.
From stdpp Require Import base numbers option gmap sorting list.
From S2P Require Import Prelude SortedRange TimedEvent ResourceEvent ResourceEventFacts.

Open Scope Z_scope.

Lemma re_replay_run s evs fired s' : re_replay s evs = Some (fired, s') → re_run s evs fired s'.
Proof.
  revert s fired. induction evs as [|ev evs IH]; intros s fired; cbn [re_replay].
  - intros [= <- <-]. constructor.
  - intros (s1 & E & H1)%bind_Some. apply bind_Some in H1 as ([f s2] & Er & [= <- <-]).
    econstructor; [done | by apply IH].
Qed.

(** ** The thread goes on *)

Lemma sort_exists m l : ∃ l', l' ≡ₚ l ∧ is_sorted m l' = true.
Proof.
  set (R := λ a b, next_of m a <= next_of m b).
  assert (∀ a b, Decision (R a b)) as HR by (intros a b; unfold R; apply _).
  assert (Transitive R) by (intros a b c; unfold R; lia).
  assert (Total R) by (intros a b; unfold R; lia).
  exists (merge_sort R l). split; [apply merge_sort_Permutation|]. apply is_sorted_spec.
  by apply (StronglySorted_merge_sort R).
Qed.

Lemma service_enabled s : re_phase s ≠ Stopped → ∃ ev s', is_service ev = true ∧ re_exec ev s = Some s'.
Proof.
  intros Hp. destruct (re_phase s) as [| |rest did|e rest|did| |since d|] eqn:E; [| | | | | | |done].
  - exists (EvClock (re_current_time s)). cbn. rewrite E, Z.leb_refl. eauto.
  - exists EvPending. cbn. rewrite E. eauto.
  - exists EvTrigger. cbn. rewrite E. eauto.
  - exists (EvReturn false). cbn. rewrite E. eauto.
  - destruct (sort_exists (re_events s) (re_active s)) as (l & Hl & Hs).
    exists (EvEnd (if did then l else re_active s)). cbn. rewrite E. unfold sort_and_erase. destruct did.
    + rewrite decide_True, Hs by done. eauto.
    + rewrite decide_True by done. eauto.
  - exists (EvCheck (re_current_time s)). cbn. rewrite E, Z.leb_refl. eauto.
  - exists EvWake. cbn. rewrite E. eauto.
Qed.

(** ** Events whose time has come *)

(** The number of steps of the service thread. *)
Definition service_steps (evs : list Event) : nat := length (filter (λ ev, is_service ev = true) evs).

(** Steps that leave the schedule of the event [e] alone. *)
Definition undisturbed (e : nat) (ev : Event) : Prop :=
  match ev with
  | EvGoCancel a => a ≠ e
  | EvDestroy true _ | EvRecreate true _ => False
  | _ => True
  end.

(** The service thread reaches the due event [e] with its next [n] steps. *)
Definition ahead (e : nat) (s : ResourceEvent) (n : nat) : Prop :=
  (∃ x, re_events s !! e = Some x ∧ te_state x = WAITING ∧ te_next x <= re_current_time s) ∧
  ∃ pre post,
    (∃ did, re_phase s = Triggering (pre ++ e :: post) did ∧ n = (2 * length pre + 1)%nat) ∨
    (∃ tp, re_phase s = Calling tp (pre ++ e :: post) ∧ re_skip s = false ∧ n = (2 * length pre + 2)%nat).

Lemma ahead_not_resting e s n : ahead e s n → ¬ resting (re_phase s).
Proof. intros (_ & pre & post & [(did & Hp & _)|(tp & Hp & _)]) Hr; by rewrite Hp in Hr. Qed.

Lemma ahead_busy e s n a : re_ok s → ahead e s n → may_unregister false a s = false.
Proof.
  intros Hok Ha. cbn. destruct (re_allow s) eqn:E; [|done]. destruct (ahead_not_resting e s n Ha). by apply ok_allow.
Qed.

(** A step that changes neither the thread nor the schedule of the event. *)
Lemma ahead_frame e s s' n :
  ahead e s n → re_phase s' = re_phase s → re_skip s' = re_skip s → re_current_time s' = re_current_time s →
  (∀ x, re_events s !! e = Some x → te_state x = WAITING →
        ∃ y, re_events s' !! e = Some y ∧ te_state y = WAITING ∧ te_next y = te_next x) →
  ahead e s' n.
Proof.
  intros ((x & Hx & Hw & Hn) & Hp) Eph Esk Et Hev. destruct (Hev x Hx Hw) as (y & Hy & Hyw & Hyn).
  split; [exists y; rewrite Hyn, Et; done|]. by rewrite Eph, Esk.
Qed.

Lemma exchange_waiting exchange e a s s' :
  (∀ x, (exchange x).1 = false → (exchange x).2 = x) → (∀ x, te_state x = WAITING → a = e → (exchange x).2 = x) →
  re_exchange exchange a s = Some s' →
  re_phase s' = re_phase s ∧ re_skip s' = re_skip s ∧ re_current_time s' = re_current_time s ∧
  (∀ x, re_events s !! e = Some x → te_state x = WAITING →
        ∃ y, re_events s' !! e = Some y ∧ te_state y = WAITING ∧ te_next y = te_next x).
Proof.
  intros Hf Hw E. unfold re_exchange in E. apply bind_Some in E as (x & Hx & E).
  destruct (exchange x) as [b y] eqn:Ex. injection E as <-.
  assert (∀ z, re_events s !! e = Some z → te_state z = WAITING →
            ∃ y', <[a := y]> (re_events s) !! e = Some y' ∧ te_state y' = WAITING ∧ te_next y' = te_next z) as Hgo.
  { intros z Hz Hzw. destruct (decide (a = e)) as [->|Hne]; [|rewrite lookup_insert_ne by done; eauto].
    rewrite lookup_insert_eq. assert (z = x) as -> by congruence. specialize (Hw x Hzw eq_refl). rewrite Ex in Hw.
    cbn in Hw. subst y. eauto. }
  by destruct b.
Qed.

(** The other threads leave the event ahead. *)
Lemma ahead_other e s s' n ev :
  re_ok s → ahead e s n → undisturbed e ev → is_service ev = false → re_exec ev s = Some s' → ahead e s' n.
Proof.
  intros Hok Ha Hu Hsv E. pose proof (ahead_not_resting e s n Ha) as Hbusy.
  destruct ev as [| |a i now|[]a|[]a|a i|a|a|a|now| | |restart|sorted|now|]; cbn in E, Hu, Hsv; try done.
  - case_decide as Hp; [|done]. by rewrite Hp in Hbusy.
  - injection E as <-. unfold stop_thread. case_decide; [done|]. eapply ahead_frame; eauto.
  - destruct (re_events s !! a) eqn:Ea; [done|]. injection E as <-. eapply ahead_frame; [done..|].
    intros x Hx Hw. cbn. rewrite lookup_insert_ne by congruence. eauto.
  - pose proof (ahead_busy e s n a Hok Ha) as Hb. cbn in Hb. by rewrite Hb, andb_false_r in E.
  - pose proof (ahead_busy e s n a Hok Ha) as Hb. cbn in Hb. by rewrite Hb in E.
  - apply bind_Some in E as (x & Hx & E). injection E as <-. eapply ahead_frame; [done..|].
    intros z Hz Hw. cbn. destruct (decide (a = e)) as [->|Hne]; [|rewrite lookup_insert_ne by done; eauto].
    rewrite lookup_insert_eq. eexists. split; [done|]. by assert (z = x) as -> by congruence.
  - destruct (exchange_waiting te_go_ready e a s s') as (? & ? & ? & ?); [..|by eapply ahead_frame].
    + intros x. unfold te_go_ready. by case_decide.
    + intros x Hw _. unfold te_go_ready. rewrite decide_False by congruence. done.
    + done.
  - destruct (exchange_waiting te_go_cancel e a s s') as (? & ? & ? & ?); [..|by eapply ahead_frame].
    + intros x Hx. unfold te_go_cancel in *. cbn in *. apply bool_decide_eq_false in Hx. destruct x as [i nx []]; done || by destruct Hx.
    + done.
    + done.
  - destruct (find_event a _); [|done]. injection E as <-. unfold re_notify, register_timer_nts. cbn.
    destruct (find_event a _); (eapply ahead_frame; [done..|]; cbn; eauto).
Qed.

Lemma NoDup_two {A} (l1 l2 l3 : list A) a b : NoDup (l1 ++ a :: l2 ++ b :: l3) → a ≠ b.
Proof.
  intros (_ & _ & [Ha _]%NoDup_cons)%NoDup_app ->. apply Ha, elem_of_app. right. apply elem_of_cons. by left.
Qed.

(** The service thread comes closer to the event, or triggers it. *)
Lemma ahead_service e s s' n ev :
  re_ok s → ahead e s n → is_service ev = true → re_exec ev s = Some s' →
  re_fires ev s = Some e ∨ ∃ n', ahead e s' n' ∧ (n' < n)%nat.
Proof.
  intros Hok ((x & Hx & Hw & Hn) & pre & post & Hp) Hsv E. pose proof (ok_phase _ Hok) as HF.
  destruct Hp as [(did & Hp & ->)|(tp & Hp & Hsk & ->)]; rewrite Hp in HF; cbn in HF;
    destruct ev; cbn in Hsv; try done; cbn in E; rewrite Hp in E; try done; injection E as <-.
  - destruct HF as (Hsk & pre' & EA & Hs & _). pose proof (core_active _ _ _ _ _ (ok_core _ Hok)) as HA.
    destruct pre as [|tp pre]; cbn [app] in *.
    + left. unfold re_fires. rewrite Hp, Hx. rewrite (proj2 (Z.leb_le _ _) Hn). by rewrite bool_decide_eq_true_2.
    + right. assert (tp ∈ re_active s) as Htp by (rewrite EA; apply elem_of_app; right; apply elem_of_cons; by left).
      destruct (core_live _ _ _ _ _ (ok_core _ Hok) tp) as [z Hz]; [auto|].
      assert (tp ≠ e) as Hne by (eapply NoDup_two; by rewrite <- EA).
      apply nsorted_cons in Hs as [_ Hle]. specialize (Hle e ltac:(apply elem_of_app; right; apply elem_of_cons; by left)).
      unfold next_of in Hle. rewrite Hz, Hx in Hle.
      unfold trigger_start, next_of. rewrite Hz, (proj2 (Z.leb_le _ _)) by lia.
      case_decide as Hzw; [exists (2 * length pre + 2)%nat|exists (2 * length pre + 1)%nat];
        (split; [|cbn; lia]); (split; [exists x; cbn; by rewrite lookup_insert_ne|]); exists pre, post.
      * right. by exists tp.
      * left. exists true. unfold after_trigger. cbn. by rewrite Hsk.
  - right. destruct HF as [Htp HF]. destruct (HF Hsk) as (pre' & EA & _).
    destruct (core_live _ _ _ _ _ (ok_core _ Hok) tp) as [z Hz]; [auto|].
    assert (tp ≠ e) as Hne by (eapply (NoDup_two pre' pre); rewrite <- EA; apply (core_active _ _ _ _ _ (ok_core _ Hok))).
    unfold trigger_end. rewrite Hz. exists (2 * length pre + 1)%nat. split; [|lia].
    split; [exists x; cbn; by rewrite lookup_insert_ne|]. exists pre, post. left. exists true.
    unfold after_trigger. cbn. by rewrite Hsk.
Qed.

Lemma service_steps_cons ev evs :
  service_steps (ev :: evs) = ((if is_service ev then 1 else 0) + service_steps evs)%nat.
Proof. unfold service_steps. rewrite filter_cons. destruct (is_service ev); by case_decide. Qed.

Lemma ahead_fires s evs fired s' e n :
  re_run s evs fired s' → re_ok s → Forall short_interval evs → Forall (undisturbed e) evs →
  ahead e s n → (n <= service_steps evs)%nat → e ∈ fired.
Proof.
  intros Hr. revert n. induction Hr as [s|s ev s1 evs fired s2 E Hr IH]; intros n Hok Hi Hu Ha Hn.
  - destruct Ha as (_ & pre & post & [(did & _ & ->)|(tp & _ & _ & ->)]); cbn in Hn; lia.
  - apply Forall_cons in Hi as [Hi His]. apply Forall_cons in Hu as [Hu Hus].
    assert (re_ok s1) as Hok1 by (by eapply exec_ok).
    assert (e ∈ fired → e ∈ match re_fires ev s with Some a => a :: fired | None => fired end) as Hmore.
    { intros. destruct (re_fires ev s); [by apply elem_of_cons; right | done]. }
    rewrite service_steps_cons in Hn. destruct (is_service ev) eqn:Hsv.
    + destruct (ahead_service e s s1 n ev Hok Ha Hsv E) as [->|(n' & Ha' & Hlt)]; [apply elem_of_cons; by left|].
      apply Hmore, (IH n'); [done | done | done | done | lia].
    + apply Hmore, (IH n); [done | done | done | by eapply (ahead_other e s s1 n ev) | done].
Qed.

(** ** Cancelled events *)

Definition quiet (e : nat) (s : ResourceEvent) : Prop :=
  (∀ x, re_events s !! e = Some x → te_state x = INACTIVE) ∧ ∀ rest, re_phase s ≠ Calling e rest.

Lemma process_pending_lookup s tp a :
  re_events (process_pending s tp) !! a = re_events s !! a ∨
  a = tp ∧ ∃ x, re_events s !! tp = Some x ∧
    re_events (process_pending s tp) !! a = Some (te_update (re_current_time s) (cancel_time s) x).2.
Proof.
  unfold process_pending. cbn. destruct (re_events s !! tp) as [x|] eqn:Hx; [|by left].
  unfold cancel_time. cbn. destruct (te_update _ _ x) as [b y] eqn:E. destruct (decide (a = tp)) as [->|Hne].
  - right. split; [done|]. exists x. split; [done|]. rewrite E. destruct b; cbn; apply lookup_insert_eq.
  - left. destruct b; cbn; by apply lookup_insert_ne.
Qed.

Lemma update_inactive now cancel x : te_state x = INACTIVE → te_state (te_update now cancel x).2 = INACTIVE.
Proof. intros E. unfold te_update. rewrite decide_False by congruence. by rewrite decide_True. Qed.

Lemma process_pending_inactive P s e :
  (∀ x, re_events s !! e = Some x → te_state x = INACTIVE) →
  ∀ x, re_events (foldl process_pending s P) !! e = Some x → te_state x = INACTIVE.
Proof.
  revert s. induction P as [|tp P IH]; intros s He; [done|]. cbn [foldl]. apply IH. intros x Hx.
  destruct (process_pending_lookup s tp e) as [E|(-> & y & Hy & E)]; rewrite Hx in E; [by apply He|].
  injection E as ->. apply update_inactive. by apply He.
Qed.

Lemma insert_inactive (m : gmap nat TimedEventImpl) e a y :
  (∀ x, m !! e = Some x → te_state x = INACTIVE) → (a = e → te_state y = INACTIVE) →
  ∀ x, <[a := y]> m !! e = Some x → te_state x = INACTIVE.
Proof. intros Hm Hy x [[-> <-]|[_ Hx]]%lookup_insert_Some; [by apply Hy | by apply Hm]. Qed.

Lemma exchange_quiet exchange e a s s' :
  quiet e s → (a = e → ∀ x, te_state (exchange x).2 = INACTIVE) → re_exchange exchange a s = Some s' → quiet e s'.
Proof.
  intros [Hm Hp] Hy E. unfold re_exchange in E. apply bind_Some in E as (x & Hx & E).
  destruct (exchange x) as [b y] eqn:Ey. injection E as <-.
  assert (∀ z, <[a := y]> (re_events s) !! e = Some z → te_state z = INACTIVE) as Hm'.
  { apply insert_inactive; [done|]. intros Hae. specialize (Hy Hae x). by rewrite Ey in Hy. }
  by destruct b.
Qed.

Lemma unregister_quiet svc e a s : quiet e s → quiet e (unregister_timer svc a s).
Proof.
  intros [Hm Hp]. destruct (unregister_fields svc a s) as (Em & _ & _ & _ & _ & Eph & _).
  split; [by rewrite Em | by rewrite Eph].
Qed.

Lemma quiet_trigger e s rest did :
  quiet e s → re_phase s = Triggering rest did → quiet e (trigger_start rest did s) ∧ re_fires EvTrigger s ≠ Some e.
Proof.
  intros [Hm Hp] Eph. assert (quiet e (re_set_phase (Ending did) s)) as Hend by (by split).
  unfold trigger_start, re_fires. rewrite Eph. destruct rest as [|tp rest]; [done|]. unfold next_of.
  destruct (re_events s !! tp) as [x|] eqn:Hx; [|destruct (_ <=? _); (split; [by split | done])].
  destruct (_ <=? _); [|done]. cbn [andb]. case_decide as Hst.
  - rewrite bool_decide_eq_true_2 by done. assert (tp ≠ e) as Hne by (intros ->; specialize (Hm x Hx); congruence).
    split; [|congruence]. split; [by apply insert_inactive|]. cbn. congruence.
  - rewrite bool_decide_eq_false_2 by done. split; [|done]. unfold after_trigger. split; cbn.
    + apply insert_inactive; [done|]. intros ->. by apply (Hm x).
    + intros r. by destruct (re_skip s).
Qed.

Lemma quiet_step e s s' ev :
  quiet e s → ev ≠ EvGoReady e → re_exec ev s = Some s' → quiet e s' ∧ re_fires ev s ≠ Some e.
Proof.
  intros Hq Hev E. destruct ev as [| |a i now|svc a|svc a|a i|a|a|a|now| | |restart|sorted|now|]; cbn in E;
    try (split; [|done]).
  - case_decide; [|done]. injection E as <-. split; [apply Hq | done].
  - injection E as <-. unfold stop_thread. by case_decide.
  - destruct (re_events s !! a) eqn:Ea; [done|]. injection E as <-. split; [apply insert_inactive; [apply Hq | done] | apply Hq].
  - destruct (_ && _) in E; [|done]. injection E as <-. apply (unregister_quiet svc e a) in Hq as [Hm Hp].
    split; [|done]. cbn [re_events re_set_events]. intros x [_ Hx]%lookup_delete_Some. by apply Hm.
  - destruct (may_unregister _ _ _); [|done]. apply bind_Some in E as (x & Hx & E). injection E as <-.
    apply (unregister_quiet svc e a) in Hq as [Hm Hp]. split; [by apply insert_inactive | done].
  - apply bind_Some in E as (x & Hx & E). injection E as <-. split; [|apply Hq]. apply insert_inactive; [apply Hq|].
    intros ->. by apply (proj1 Hq x).
  - eapply exchange_quiet; [done| |done]. by intros ->.
  - eapply exchange_quiet; [done| |done]. done.
  - destruct (find_event a _); [|done]. injection E as <-. unfold re_notify, register_timer_nts. cbn.
    destruct (find_event a _); apply Hq.
  - destruct (re_phase s); try done. destruct (_ <=? _); [|done]. injection E as <-. unfold service_top, service_leave.
    destruct (re_stop s); split; done || apply Hq.
  - destruct (re_phase s); try done. injection E as <-. split; [|done]. cbn. by apply process_pending_inactive, Hq.
  - destruct (re_phase s) eqn:Eph; try done. injection E as <-. by apply quiet_trigger.
  - destruct (re_phase s) as [| | |tp rest| | | |] eqn:Eph; try done. injection E as <-. unfold trigger_end.
    destruct Hq as [Hm Hp]. destruct (re_events s !! tp) as [x|] eqn:Hx; [|done].
    assert (tp ≠ e) as Hne by (intros ->; by apply (Hp rest)).
    split; [by apply insert_inactive|]. intros r. unfold after_trigger. cbn. by destruct (re_skip s).
  - destruct (re_phase s) eqn:Eph; try done. unfold sort_and_erase in E. destruct did; [|].
    + case_decide; [|done]. destruct (is_sorted _ _); [|done]. injection E as <-. split; [apply Hq | done].
    + case_decide; [|done]. injection E as <-. split; [apply Hq | done].
  - destruct (re_phase s); try done. destruct (_ <=? _); [|done]. injection E as <-. unfold service_check, service_leave.
    destruct (re_stop s); [split; done || apply Hq|]. destruct (re_pending s); split; done || apply Hq.
  - destruct (re_phase s); try done. injection E as <-. split; [apply Hq | done].
Qed.

Lemma run_quiet e s evs fired s' :
  re_run s evs fired s' → quiet e s → EvGoReady e ∉ evs → e ∉ fired.
Proof.
  induction 1 as [s|s ev s1 evs fired s2 E Hr IH]; intros Hq Hev; [apply not_elem_of_nil|].
  apply not_elem_of_cons in Hev as [Hne Hev]. destruct (quiet_step e s s1 ev) as [Hq1 Hf]; [done..|].
  destruct (re_fires ev s) as [a|]; [|by apply IH]. apply not_elem_of_cons. split; [congruence | by apply IH].
Qed.

(** ** Events that the thread has forgotten *)

Definition forgotten (e : nat) (s : ResourceEvent) : Prop :=
  (∃ x, re_events s !! e = Some x ∧ te_state x = WAITING) ∧
  (e ∉ re_active s) ∧ (e ∉ re_pending s) ∧ (e ∉ re_inflight s) ∧
  match re_phase s with Triggering rest _ => e ∉ rest | Calling tp rest => tp ≠ e ∧ e ∉ rest | _ => True end.

(** Steps other than a cancellation of the event and its end. *)
Definition not_cancelling (e : nat) (ev : Event) : Prop :=
  match ev with EvGoCancel a | EvDestroy _ a | EvRecreate _ a => a ≠ e | _ => True end.

Lemma process_pending_away e P s :
  e ∉ P → e ∉ re_active s →
  let s' := foldl process_pending s P in re_events s' !! e = re_events s !! e ∧ (e ∉ re_active s') ∧ re_inflight s' = re_inflight s.
Proof.
  revert s. induction P as [|tp P IH]; intros s HP Ha; [done|]. apply not_elem_of_cons in HP as [Hne HP]. cbn [foldl].
  assert ((e ∉ re_active (process_pending s tp)) ∧ re_inflight (process_pending s tp) = re_inflight s) as [Ha1 Ef].
  { unfold process_pending. cbn. set (n := lower_bound _ _).
    assert (e ∉ take n (re_active s) ++ erase_event tp (drop n (re_active s))) as Hl.
    { rewrite elem_of_app. intros [H|H%elem_of_erase_event]; [by apply subseteq_take in H | by apply subseteq_drop in H]. }
    destruct (re_events s !! tp); [|done]. destruct (te_update _ _ _) as [[] y]; [|done].
    split; [|done]. by intros [?|?]%elem_of_insert_at. }
  destruct (IH (process_pending s tp) HP Ha1) as (E1 & E2 & E3). split_and!; [|done | congruence].
  rewrite E1. destruct (process_pending_lookup s tp e) as [?|[? _]]; done.
Qed.

Lemma forgotten_frame e s s' :
  forgotten e s → re_events s' !! e = re_events s !! e → (e ∈ re_active s' → e ∈ re_active s) →
  (e ∈ re_pending s' → e ∈ re_pending s) → (e ∈ re_inflight s' → e ∈ re_inflight s) →
  (re_phase s' = re_phase s ∨ match re_phase s' with Triggering _ _ | Calling _ _ => False | _ => True end) →
  forgotten e s'.
Proof.
  intros (Hx & Ha & Hp & Hf & Hph) Ex Ea Ep Ef Eph. split_and!; [by rewrite Ex | auto..|].
  destruct Eph as [->|Eph]; [done|]. by destruct (re_phase s').
Qed.

Lemma forgotten_unregister svc e a s : forgotten e s → forgotten e (unregister_timer svc a s).
Proof.
  intros Hfg. destruct (unregister_fields svc a s) as (Em & Ep & Ea & Ef & _ & Eph & _).
  apply (forgotten_frame e s); [done | by rewrite Em | rewrite Ea; apply elem_of_erase_event |
    rewrite Ep; apply elem_of_erase_event | by rewrite Ef | by left].
Qed.

Lemma forgotten_exchange exchange e a s s' :
  forgotten e s → (∀ x, te_state x = WAITING → a = e → exchange x = (false, x)) →
  re_exchange exchange a s = Some s' → forgotten e s'.
Proof.
  intros Hfg Hw E. unfold re_exchange in E. apply bind_Some in E as (x & Hx & E).
  destruct (decide (a = e)) as [->|Hne].
  - destruct Hfg as ((y & Hy & Hyw) & Hrest). assert (y = x) as -> by congruence.
    rewrite (Hw x Hyw eq_refl) in E. injection E as <-. split; [|done]. exists x. split; [apply lookup_insert_eq | done].
  - destruct (exchange x) as [b y]. injection E as <-.
    destruct b; (apply (forgotten_frame e s); [done | by apply lookup_insert_ne | done | done | | by left]); [|done].
    cbn. intros [?|?]%elem_of_cons; [by subst | done].
Qed.

Lemma forgotten_store e a s y p :
  forgotten e s → a ≠ e → match p with Triggering rest _ => e ∉ rest | Calling tp rest => tp ≠ e ∧ e ∉ rest | _ => True end →
  forgotten e (re_set_phase p (re_store a y s)).
Proof. intros (Hx & Ha & Hp & Hf & Hph) Hne Hph'. split_and!; try done. cbn. by rewrite lookup_insert_ne. Qed.

Lemma forgotten_trigger e s rest did :
  forgotten e s → re_phase s = Triggering rest did →
  forgotten e (trigger_start rest did s) ∧ re_fires EvTrigger s ≠ Some e.
Proof.
  intros Hfg Eph. assert (e ∉ rest) as Her by (destruct Hfg as (_ & _ & _ & _ & Hph); by rewrite Eph in Hph).
  assert (forgotten e (re_set_phase (Ending did) s)) as Hend by (by apply (forgotten_frame e s); [..|right]).
  unfold trigger_start, re_fires. rewrite Eph. destruct rest as [|tp rest]; [done|]. unfold next_of.
  apply not_elem_of_cons in Her as [Hne Her].
  destruct (re_events s !! tp) as [x|] eqn:Hx; [|destruct (_ <=? _); (split; [done | done])].
  destruct (te_next x <=? _); [|done]. cbn [andb].
  split; [|case_bool_decide; congruence]. case_decide; unfold after_trigger; apply forgotten_store; try done.
  by destruct (re_skip _).
Qed.

Ltac forgot e s := apply (forgotten_frame e s); try done; first [by left | by right | idtac].

Lemma forgotten_step e s s' ev :
  forgotten e s → not_cancelling e ev → re_exec ev s = Some s' → forgotten e s' ∧ re_fires ev s ≠ Some e.
Proof.
  intros Hfg Hev E. destruct ev as [| |a i now|svc a|svc a|a i|a|a|a|now| | |restart|sorted|now|]; cbn in E, Hev;
    try (split; [|done]).
  - case_decide; [|done]. injection E as <-. forgot e s.
  - injection E as <-. unfold stop_thread. case_decide; [done|]. forgot e s.
  - destruct (re_events s !! a) eqn:Ea; [done|]. injection E as <-. forgot e s.
    cbn. apply lookup_insert_ne. intros ->. destruct Hfg as ((x & Hx & _) & _). congruence.
  - destruct (_ && _) in E; [|done]. injection E as <-.
    apply (forgotten_frame e (unregister_timer svc a s)); [by apply forgotten_unregister | | done | done | done | by left].
    by apply lookup_delete_ne.
  - destruct (may_unregister _ _ _); [|done]. apply bind_Some in E as (x & Hx & E). injection E as <-.
    apply (forgotten_frame e (unregister_timer svc a s)); [by apply forgotten_unregister | | done | done | done | by left].
    by apply lookup_insert_ne.
  - apply bind_Some in E as (x & Hx & E). injection E as <-. destruct Hfg as ((y & Hy & Hyw) & Hrest). split; [|done].
    cbn. destruct (decide (a = e)) as [->|Hne]; [|rewrite lookup_insert_ne by done; eauto].
    rewrite lookup_insert_eq. eexists. split; [done|]. assert (y = x) as -> by congruence. done.
  - eapply forgotten_exchange; [done| |done]. intros x Hw _. unfold te_go_ready. by rewrite decide_False by congruence.
  - eapply forgotten_exchange; [done| |done]. done.
  - destruct (find_event a _) eqn:Ef; [|done]. injection E as <-. apply find_event_spec in Ef.
    assert (a ≠ e) as Hne by (intros ->; by destruct Hfg as (_ & _ & _ & ? & _)).
    unfold re_notify, register_timer_nts. cbn. destruct (find_event a _);
      (apply (forgotten_frame e s); [done | done | done | | apply elem_of_erase_event | by left]); [done|].
    cbn. intros [?|?%list_elem_of_singleton]%elem_of_app; [done | by subst].
  - destruct (re_phase s); try done. destruct (_ <=? _); [|done]. injection E as <-. unfold service_top.
    destruct (re_stop s); forgot e s.
  - destruct (re_phase s); try done. injection E as <-. destruct Hfg as (Hx & Ha & Hp & Hf & _).
    destruct (process_pending_away e (re_pending s) s Hp Ha) as (E1 & E2 & E3).
    split_and!; cbn; [by rewrite E1 | done | apply not_elem_of_nil | by rewrite E3 | done].
  - destruct (re_phase s) eqn:Eph; try done. injection E as <-. by apply forgotten_trigger.
  - destruct (re_phase s) as [| | |tp rest| | | |] eqn:Eph; try done. injection E as <-. unfold trigger_end.
    destruct (re_events s !! tp) as [x|]; [|done]. pose proof Hfg as (_ & _ & _ & _ & Hph). rewrite Eph in Hph.
    unfold after_trigger. apply forgotten_store; [done | apply Hph |]. destruct (re_skip _); [done | apply Hph].
  - destruct (re_phase s) eqn:Eph; try done. unfold sort_and_erase in E. destruct did; (case_decide as Hperm; [|done]).
    + destruct (is_sorted _ _); [|done]. injection E as <-. forgot e s.
      cbn. intros H%subseteq_take. by rewrite <- Hperm.
    + injection E as <-. forgot e s.
  - destruct (re_phase s); try done. destruct (_ <=? _); [|done]. injection E as <-. unfold service_check.
    destruct (re_stop s); [forgot e s|].
    destruct (re_pending s) eqn:Ep; forgot e s.
  - destruct (re_phase s); try done. injection E as <-. forgot e s.
Qed.

Lemma run_forgotten e s evs fired s' :
  re_run s evs fired s' → forgotten e s → Forall (not_cancelling e) evs → e ∉ fired.
Proof.
  induction 1 as [s|s ev s1 evs fired s2 E Hr IH]; intros Hf Hev; [apply not_elem_of_nil|].
  apply Forall_cons in Hev as [Hne Hev]. destruct (forgotten_step e s s1 ev) as [Hf1 Hn]; [done..|].
  destruct (re_fires ev s) as [a|]; [|by apply IH]. apply not_elem_of_cons. split; [congruence | by apply IH].
Qed.

(** ** The properties *)

(** C10. No timer is lost. Through any interleaving of the owners' calls and the steps of the
    service thread, with intervals below a day: an event made ready is in the pending orders or
    its notification is under way; a waiting event is among the active timers; a thread that
    sleeps with orders pending has been notified, and it sleeps no longer than to the time of the
    first waiting event (or ten microseconds when that time has passed). Until it is stopped the
    thread always has a next step. *)
Theorem no_timer_is_lost evs fired s :
  re_run re_make evs fired s → Forall short_interval evs →
  (∀ e x, re_events s !! e = Some x → te_state x = READY → e ∈ re_pending s ∨ e ∈ re_inflight s) ∧
  (∀ e x, re_events s !! e = Some x → te_state x = WAITING → e ∈ re_active s) ∧
  (∀ since deadline, re_phase s = Sleeping since deadline →
     (re_pending s ≠ [] → re_notified s = true) ∧
     ∀ e x, re_events s !! e = Some x → te_state x = WAITING → deadline <= Z.max (te_next x) (since + 10000)) ∧
  (re_phase s ≠ Stopped → ∃ ev s', is_service ev = true ∧ re_exec ev s = Some s').
Proof.
  intros Hr Hi. pose proof (re_run_ok _ _ _ _ Hr re_make_ok Hi) as [HP [HA HL HR HW HI] Hal Hwk HF HK].
  split; [done|]. split; [intros e x Hx Hs; by apply (HW e x)|]. split; [|apply service_enabled].
  intros since deadline Hp. rewrite Hp in HF, Hwk. split; [by apply Hwk|].
  intros e x Hx Hs. destruct HF as [_ Hd]. specialize (Hd e (proj1 (HW e x Hx Hs))). unfold next_of in Hd.
  by rewrite Hx in Hd.
Qed.

(** Two timers, one of which has been triggered. *)
Definition two_timers : list Event :=
  [EvInit; EvCreate 0 1000 0; EvCreate 1 5000 0; EvGoReady 1; EvGoReady 0; EvNotify 1; EvNotify 0;
   EvClock 0; EvPending; EvTrigger; EvEnd [0%nat; 1%nat]; EvCheck 100; EvWake;
   EvClock 1000500; EvPending; EvTrigger; EvGoReady 0; EvNotify 0; EvReturn false; EvTrigger;
   EvEnd [1%nat; 0%nat]; EvCheck 1000600; EvClock 1000700; EvPending; EvTrigger; EvEnd [0%nat; 1%nat]; EvCheck 1000800].

Definition state_after (s : ResourceEvent) (evs : list Event) : ResourceEvent :=
  match re_replay s evs with Some (_, s') => s' | None => s end.

Definition fired_in (s : ResourceEvent) (evs : list Event) : list nat :=
  match re_replay s evs with Some (fired, _) => fired | None => [] end.

Lemma state_after_run s evs : is_Some (re_replay s evs) → re_run s evs (fired_in s evs) (state_after s evs).
Proof. intros [[f s'] E]. unfold fired_in, state_after. rewrite E. by apply re_replay_run. Qed.

Lemma no_timer_is_lost_witness :
  re_phase (state_after re_make two_timers) = Sleeping 1000800 2000700 ∧
  (re_pending (state_after re_make two_timers) ≠ [] → re_notified (state_after re_make two_timers) = true).
Proof.
  split; [vm_compute; reflexivity|].
  destruct (no_timer_is_lost two_timers (fired_in re_make two_timers) (state_after re_make two_timers)) as (_ & _ & Hs & _).
  - apply state_after_run. vm_compute. eauto.
  - repeat constructor.
  - apply (Hs 1000800 2000700). vm_compute. reflexivity.
Defined.

(** C14. A due timer is triggered in the pass that finds it. When the region over the pending orders ends
    with a waiting event whose time has come, its callback is called within the next steps of the service
    thread, two for each active timer at most, however the owners interleave, provided that meanwhile the
    event is not cancelled, no callback destroys or recreates an event (the pass is then abandoned), and
    the intervals are below a day. *)
Theorem due_timer_is_triggered evs0 fired0 s s1 e x evs fired s2 :
  re_run re_make evs0 fired0 s → re_exec EvPending s = Some s1 →
  re_events s1 !! e = Some x → te_state x = WAITING → te_next x <= re_current_time s1 →
  re_run s1 evs fired s2 → Forall short_interval (evs0 ++ evs) → Forall (undisturbed e) evs →
  (2 * length (re_active s1) <= service_steps evs)%nat → e ∈ fired.
Proof.
  intros Hr0 E Hx Hw Hn Hr [Hi0 Hi]%Forall_app Hu Hlen.
  assert (re_ok s1) as Hok by (eapply exec_ok; [by eapply re_run_ok, Hi0; [|apply re_make_ok] | | exact E]; done).
  destruct (core_waiting _ _ _ _ _ (ok_core _ Hok) e x Hx Hw) as [He _].
  assert (re_phase s1 = Triggering (re_active s1) false) as Hp.
  { cbn in E. destruct (re_phase s); try done. by injection E as <-. }
  apply list_elem_of_split in He as (pre & post & EA).
  apply (ahead_fires s1 evs fired s2 e (2 * length pre + 1)%nat); [done..| |].
  - split; [by exists x|]. exists pre, post. left. exists false. by rewrite Hp, EA.
  - rewrite EA, length_app in Hlen. cbn in Hlen. lia.
Qed.

(** The events up to the reading of the clock at which both timers are due, and the pass that
    follows; an owner changes the interval of the second meanwhile. *)
Definition both_due : list Event :=
  [EvInit; EvCreate 0 1000 0; EvCreate 1 5000 0; EvGoReady 1; EvGoReady 0; EvNotify 1; EvNotify 0;
   EvClock 0; EvPending; EvTrigger; EvEnd [0%nat; 1%nat]; EvCheck 100; EvWake; EvClock 6000000].

Definition due_pass : list Event := [EvTrigger; EvInterval 1 700; EvReturn true; EvTrigger; EvReturn false].

Lemma due_timer_is_triggered_witness :
  1%nat ∈ fired_in (state_after re_make (both_due ++ [EvPending])) due_pass.
Proof.
  apply (due_timer_is_triggered both_due (fired_in re_make both_due) (state_after re_make both_due)
           (state_after re_make (both_due ++ [EvPending])) 1 (TimedEventMk 5000 5000000 WAITING) due_pass
           (fired_in (state_after re_make (both_due ++ [EvPending])) due_pass)
           (state_after (state_after re_make (both_due ++ [EvPending])) due_pass)).
  - apply state_after_run. vm_compute. eauto.
  - vm_compute. reflexivity.
  - vm_compute. reflexivity.
  - reflexivity.
  - vm_compute. discriminate.
  - apply state_after_run. vm_compute. eauto.
  - repeat constructor.
  - repeat constructor.
  - vm_compute. lia.
Defined.

(** C35. A cancelled timer stays quiet: once [cancel_timer] has made its exchange, outside of the
    callback of the event, the callback is not started again before a [restart_timer]. *)
Theorem cancelled_timer_is_quiet s s1 e evs fired s2 :
  (∀ rest, re_phase s ≠ Calling e rest) → re_exec (EvGoCancel e) s = Some s1 →
  re_run s1 evs fired s2 → EvGoReady e ∉ evs → e ∉ fired.
Proof.
  intros Hp E Hr Hev. eapply run_quiet; [exact Hr | | done]. cbn in E. unfold re_exchange in E.
  apply bind_Some in E as (x & Hx & E). destruct (te_go_cancel x) as [b y] eqn:Ey. injection Ey as Eb <-.
  injection E as <-. split; [|by destruct b]. intros z Hz.
  assert (<[e := te_set_state INACTIVE x]> (re_events s) !! e = Some z) as Hz' by (by destruct b).
  rewrite lookup_insert_eq in Hz'. by injection Hz' as <-.
Qed.

Lemma cancelled_timer_is_quiet_witness :
  1%nat ∉ fired_in (state_after re_make (both_due ++ [EvPending; EvTrigger; EvGoCancel 1])) [EvReturn true; EvTrigger].
Proof.
  apply (cancelled_timer_is_quiet (state_after re_make (both_due ++ [EvPending; EvTrigger]))
           (state_after re_make (both_due ++ [EvPending; EvTrigger; EvGoCancel 1])) 1 [EvReturn true; EvTrigger]
           (fired_in (state_after re_make (both_due ++ [EvPending; EvTrigger; EvGoCancel 1])) [EvReturn true; EvTrigger])
           (state_after (state_after re_make (both_due ++ [EvPending; EvTrigger; EvGoCancel 1])) [EvReturn true; EvTrigger])).
  - vm_compute. discriminate.
  - vm_compute. reflexivity.
  - apply state_after_run. vm_compute. eauto.
  - rewrite !not_elem_of_cons. split_and!; [done | done | apply not_elem_of_nil].
Defined.


(** A timer of two days next to one of a millisecond. *)
Definition two_days : list Event :=
  [EvInit; EvCreate 0 1000 0; EvCreate 1 172800000000 0; EvGoReady 1; EvGoReady 0; EvNotify 1; EvNotify 0;
   EvClock 0; EvPending; EvTrigger; EvEnd [0%nat; 1%nat]; EvCheck 100; EvWake;
   EvClock 2000000; EvPending; EvTrigger; EvReturn false; EvTrigger].

(** Four days later. *)
Definition four_days : list Event :=
  [EvCheck 2000100; EvWake; EvClock 345600000000000; EvPending; EvGoReady 1; EvTrigger; EvEnd []].

