(* ===== verification/ResourceLimitedVector.v ===== *)
(** * Vectors with limited resources
      (include/fastdds/utils/collections/ResourceLimitedVector.hpp)

    A [std::vector] that grows by a fixed increment up to a maximum. Elements are
    also referred to by address: an address is the number of the allocation and
    the index, and it is valid while the vector has not been reallocated and is
    long enough. Sizes are taken below the largest size of a vector. *)

From Stdlib Require Import ZArith Lia ZifyBool.
From stdpp Require Import base numbers option list.
From S2P Require Import Prelude.

Open Scope Z_scope.

Record ResourceLimitedContainerConfig := LimitsConfig {
  cfg_initial : Z;
  cfg_maximum : Z;
  cfg_increment : Z
}.

Definition cfg_default : ResourceLimitedContainerConfig := LimitsConfig 0 (2 ^ 64 - 1) 1.

Definition fixed_size_configuration (size : Z) : ResourceLimitedContainerConfig := LimitsConfig size size 0.

Definition dynamic_allocation_configuration (increment : Z) : ResourceLimitedContainerConfig :=
  LimitsConfig 0 (2 ^ 64 - 1) (if negb (increment =? 0) then increment else 1).

Section Vector.
Context {A : Type}.

Record ResourceLimitedVector := RlvMk {
  rlv_config : ResourceLimitedContainerConfig;
  rlv_items : list A;
  rlv_capacity : Z;
  rlv_allocation : nat
}.

Definition rlv_size (v : ResourceLimitedVector) : Z := Z.of_nat (length (rlv_items v)).

Definition rlv_set_items (l : list A) (v : ResourceLimitedVector) : ResourceLimitedVector :=
  RlvMk (rlv_config v) l (rlv_capacity v) (rlv_allocation v).

(** [std::vector::reserve]: a reallocation when the capacity is too small. *)
Definition rlv_reserve (cap : Z) (v : ResourceLimitedVector) : ResourceLimitedVector :=
  if rlv_capacity v <? cap then RlvMk (rlv_config v) (rlv_items v) cap (S (rlv_allocation v)) else v.

Definition rlv_make (cfg : ResourceLimitedContainerConfig) : ResourceLimitedVector :=
  rlv_reserve (cfg_initial cfg) (RlvMk cfg [] 0 0).

(** [ensure_capacity]: whether there is room for one item. *)
Definition ensure_capacity (v : ResourceLimitedVector) : bool * ResourceLimitedVector :=
  let size := rlv_size v in
  let cap := rlv_capacity v in
  if size =? cap then
    if cap <? cfg_maximum (rlv_config v)
    then let cap := u64 (cap + cfg_increment (rlv_config v)) in
         let cap := Z.min cap (cfg_maximum (rlv_config v)) in
         (true, rlv_reserve cap v)
    else (false, v)
  else (true, v).

(** [emplace_back] and [push_back]: [None] is the null pointer. *)
Definition emplace_back (a : A) (v : ResourceLimitedVector) : option nat * ResourceLimitedVector :=
  let (room, v1) := ensure_capacity v in
  if negb room then (None, v1)
  else (Some (length (rlv_items v1)), rlv_set_items (rlv_items v1 ++ [a]) v1).

(** [insert]: the position is that of the new element, or the end. *)
Definition rlv_insert (pos : nat) (a : A) (v : ResourceLimitedVector) : nat * ResourceLimitedVector :=
  let (room, v1) := ensure_capacity v in
  if negb room then (length (rlv_items v1), v1)
  else (pos, rlv_set_items (take pos (rlv_items v1) ++ a :: drop pos (rlv_items v1)) v1).

(** [do_remove] that keeps the order, and the one that moves the last element. *)
Definition do_remove_ordered (i : nat) (v : ResourceLimitedVector) : ResourceLimitedVector :=
  rlv_set_items (take i (rlv_items v) ++ drop (S i) (rlv_items v)) v.

Definition do_remove (i : nat) (v : ResourceLimitedVector) : ResourceLimitedVector :=
  let l := rlv_items v in
  let l := if negb (Nat.eqb i (length l - 1))
           then match last l with Some back => <[i := back]> l | None => l end
           else l in
  rlv_set_items (take (length l - 1) l) v.

(** [std::find_if] with a predicate that may write to the element and to a variable of its
    caller. *)
Fixpoint find_if {S} (pred : A → S → bool * A * S) (l : list A) (st : S) : option nat * list A * S :=
  match l with
  | [] => (None, [], st)
  | a :: l' =>
      let '(found, a', st') := pred a st in
      if found then (Some 0%nat, a' :: l', st')
      else let '(pos, l'', st'') := find_if pred l' st' in (Nat.succ <$> pos, a' :: l'', st'')
  end.

(** [remove_if] of the vector that does not keep the order. *)
Definition remove_if {S} (pred : A → S → bool * A * S) (st : S) (v : ResourceLimitedVector)
    : bool * S * ResourceLimitedVector :=
  let '(pos, l, st') := find_if pred (rlv_items v) st in
  let v1 := rlv_set_items l v in
  match pos with
  | Some i => (true, st', do_remove i v1)
  | None => (false, st', v1)
  end.

(** [assign(first, last)] *)
Definition rlv_assign (l : list A) (v : ResourceLimitedVector) : ResourceLimitedVector :=
  let n := Z.min (Z.of_nat (length l)) (cfg_maximum (rlv_config v)) in
  rlv_set_items (take (Z.to_nat n) l) (rlv_reserve n v).

(** ** Facts *)

Definition rlv_ok (v : ResourceLimitedVector) : Prop :=
  rlv_size v <= rlv_capacity v ∧ rlv_capacity v <= Z.max (cfg_initial (rlv_config v)) (cfg_maximum (rlv_config v)) ∧
  0 <= rlv_capacity v < 2 ^ 63 ∧ 0 <= cfg_increment (rlv_config v) < 2 ^ 63.

Lemma ensure_capacity_spec v :
  rlv_ok v → 0 < cfg_increment (rlv_config v) →
  let '(room, v') := ensure_capacity v in
  rlv_items v' = rlv_items v ∧ rlv_config v' = rlv_config v ∧
  (room = true → rlv_size v < rlv_capacity v') ∧
  (room = false → v' = v ∧ cfg_maximum (rlv_config v) <= rlv_size v).
Proof.
  intros (Hs & Hc & Hr & Hi) Hpos. unfold ensure_capacity, rlv_reserve.
  destruct (Z.eqb_spec (rlv_size v) (rlv_capacity v)) as [E|E]; [|by split_and!; [..|lia|]].
  destruct (Z.ltb_spec (rlv_capacity v) (cfg_maximum (rlv_config v))) as [Hlt|Hge].
  - rewrite u64_small by zwidth. zif; cbn; split_and!; done || lia.
  - split_and!; try done. intros _. split; [done | lia].
Qed.

Lemma emplace_back_items a v :
  rlv_items (emplace_back a v).2 = rlv_items v ++ [a] ∨ rlv_items (emplace_back a v).2 = rlv_items v.
Proof.
  unfold emplace_back, ensure_capacity, rlv_reserve.
  destruct (_ =? _); [destruct (_ <? cfg_maximum _); [destruct (_ <? _)|]|]; cbn; auto.
Qed.

(** The vector is full: adding an element moves the others. *)
Lemma emplace_back_moves a v :
  rlv_ok v → 0 < cfg_increment (rlv_config v) →
  rlv_size v = rlv_capacity v → rlv_capacity v < cfg_maximum (rlv_config v) →
  rlv_items (emplace_back a v).2 = rlv_items v ++ [a] ∧ rlv_allocation (emplace_back a v).2 = S (rlv_allocation v).
Proof.
  intros (Hs & Hc & Hr & Hi) Hpos Hf Hm. unfold emplace_back, ensure_capacity, rlv_reserve.
  rewrite Hf, Z.eqb_refl, (proj2 (Z.ltb_lt _ _) Hm), u64_small by zwidth.
  rewrite (proj2 (Z.ltb_lt _ (Z.min _ _))) by lia. done.
Qed.

Lemma do_remove_permutation i v a : rlv_items v !! i = Some a → rlv_items v ≡ₚ a :: rlv_items (do_remove i v).
Proof.
  intros Ha. unfold do_remove. cbn. destruct (rlv_items v) as [|x l] eqn:E using rev_ind; [done|clear IHl].
  rewrite last_snoc, length_app. cbn. replace (length l + 1 - 1)%nat with (length l) by lia.
  destruct (Nat.eqb_spec i (length l)) as [->|Hne]; cbn [negb].
  - rewrite lookup_app_r, Nat.sub_diag in Ha by done. cbn in Ha. injection Ha as ->.
    rewrite length_app. cbn. replace (length l + 1 - 1)%nat with (length l) by lia. rewrite take_app_length.
    rewrite Permutation_app_comm. done.
  - assert (i < length l)%nat as Hi by (apply lookup_lt_Some in Ha; rewrite length_app in Ha; cbn in Ha; lia).
    rewrite length_insert, length_app. cbn. replace (length l + 1 - 1)%nat with (length l) by lia.
    rewrite lookup_app_l in Ha by done. rewrite insert_app_l by done.
    rewrite take_app_length' by (by rewrite length_insert).
    rewrite <- (take_drop_middle l i a Ha) at 1. rewrite insert_take_drop by done.
    solve_Permutation.
Qed.
End Vector.

Arguments ResourceLimitedVector : clear implicits.
