(* ===== verification/LivelinessManager.v ===== *)
(** * Liveliness of writers (src/cpp/rtps/writer/LivelinessManager.cpp)

    The manager keeps a lease for every writer and one timed event, owned by the
    writer that is the next one to lose its liveliness. The owner is a pointer
    into the vector of writers: an address that a reallocation makes invalid. An
    access through an invalid pointer is no result.

    The readings of the steady clock are a sequence [clock]; the manager counts
    the readings it has made. Every operation is the composition of the regions
    between its locks ([add_region], [calculate_next], ...). The timed event is
    the one of [TimedEvent]; [lm_update] and [lm_trigger] are what the event
    thread does with it. *)

From Stdlib Require Import ZArith Lia ZifyBool.
From stdpp Require Import base numbers option list.
From S2P Require Import Prelude Guid TimedEvent Time WriterProxy ResourceEvent ResourceLimitedVector.

Open Scope Z_scope.

#[global] Instance LivelinessKind_eq_dec : EqDecision LivelinessKind.
Proof. solve_decision. Defined.

#[global] Instance Duration_eq_dec : EqDecision Duration_t.
Proof. solve_decision. Defined.

(** [LivelinessData::WriterStatus] *)
Inductive WriterStatus := NOT_ASSERTED | ALIVE | NOT_ALIVE.

#[global] Instance WriterStatus_eq_dec : EqDecision WriterStatus.
Proof. solve_decision. Defined.

Record LivelinessData := LivelinessDataMk {
  ld_guid : GUID_t;
  ld_kind : LivelinessKind;
  ld_lease : Duration_t;
  ld_count : Z;
  ld_status : WriterStatus;
  ld_time : Z
}.

Definition ld_make (guid : GUID_t) (kind : LivelinessKind) (lease : Duration_t) : LivelinessData :=
  LivelinessDataMk guid kind lease 1 NOT_ASSERTED 0.

Definition ld_set_count (n : Z) (w : LivelinessData) : LivelinessData :=
  LivelinessDataMk (ld_guid w) (ld_kind w) (ld_lease w) n (ld_status w) (ld_time w).
Definition ld_set_status (st : WriterStatus) (w : LivelinessData) : LivelinessData :=
  LivelinessDataMk (ld_guid w) (ld_kind w) (ld_lease w) (ld_count w) st (ld_time w).
Definition ld_set_time (t : Z) (w : LivelinessData) : LivelinessData :=
  LivelinessDataMk (ld_guid w) (ld_kind w) (ld_lease w) (ld_count w) (ld_status w) t.

(** The comparison of a writer with the arguments of an operation. *)
Definition ld_matches (guid : GUID_t) (kind : LivelinessKind) (lease : Duration_t) (w : LivelinessData) : bool :=
  guid_eqb (ld_guid w) guid && bool_decide (ld_kind w = kind) && bool_decide (ld_lease w = lease).

(** [dds::Time_t::to_ns] *)
Definition dur_to_ns (d : Duration_t) : Z :=
  let nano := i64 (dur_seconds d * C_NANOSECONDS_PER_SEC) in i64 (nano + dur_nanosec d).

Definition c_TimeInfinite : Duration_t := Duration 0x7fffffff 0xffffffff.

(** What the manager does to others: the callback and the notification of the event thread. *)
Inductive LivelinessEffect :=
  | LivelinessChanged (guid : GUID_t) (kind : LivelinessKind) (lease : Duration_t) (alive_change not_alive_change : Z)
  | TimerService (c : ServiceCall).

(** [lm_owner]: allocation and index of the writer pointed to. *)
Record LivelinessManager := LivelinessManagerMk {
  lm_callback : bool;
  lm_manage_automatic : bool;
  lm_writers : ResourceLimitedVector LivelinessData;
  lm_owner : option (nat * nat);
  lm_timer : TimedEventImpl;
  lm_readings : nat;
  lm_log : list LivelinessEffect
}.

Definition lm_items (s : LivelinessManager) : list LivelinessData := rlv_items (lm_writers s).

Definition lm_set_writers (v : ResourceLimitedVector LivelinessData) (s : LivelinessManager) : LivelinessManager :=
  LivelinessManagerMk (lm_callback s) (lm_manage_automatic s) v (lm_owner s) (lm_timer s) (lm_readings s) (lm_log s).
Definition lm_set_owner (p : option (nat * nat)) (s : LivelinessManager) : LivelinessManager :=
  LivelinessManagerMk (lm_callback s) (lm_manage_automatic s) (lm_writers s) p (lm_timer s) (lm_readings s) (lm_log s).
Definition lm_set_timer (e : TimedEventImpl) (s : LivelinessManager) : LivelinessManager :=
  LivelinessManagerMk (lm_callback s) (lm_manage_automatic s) (lm_writers s) (lm_owner s) e (lm_readings s) (lm_log s).
Definition lm_read (s : LivelinessManager) : LivelinessManager :=
  LivelinessManagerMk (lm_callback s) (lm_manage_automatic s) (lm_writers s) (lm_owner s) (lm_timer s)
    (S (lm_readings s)) (lm_log s).
Definition lm_emit (es : list LivelinessEffect) (s : LivelinessManager) : LivelinessManager :=
  LivelinessManagerMk (lm_callback s) (lm_manage_automatic s) (lm_writers s) (lm_owner s) (lm_timer s) (lm_readings s)
    (lm_log s ++ es).

Definition lm_set_items (l : list LivelinessData) (s : LivelinessManager) : LivelinessManager :=
  lm_set_writers (rlv_set_items l (lm_writers s)) s.

(** The callback, when there is one. *)
Definition lm_report (w : LivelinessData) (alive not_alive : Z) (s : LivelinessManager) : LivelinessManager :=
  if lm_callback s then lm_emit [LivelinessChanged (ld_guid w) (ld_kind w) (ld_lease w) alive not_alive] s else s.

(** The constructor; [now] is the time of the construction of the event. *)
Definition lm_make (callback manage_automatic : bool) (now : Z) : LivelinessManager :=
  LivelinessManagerMk callback manage_automatic (rlv_make cfg_default) None (te_make 0 now) 0 [].

Definition lm_cancel_timer (s : LivelinessManager) : LivelinessManager :=
  let (e, calls) := te_cancel_timer (lm_timer s) in lm_emit (TimerService <$> calls) (lm_set_timer e s).

Definition lm_restart_timer (s : LivelinessManager) : LivelinessManager :=
  let (e, calls) := te_restart_timer (lm_timer s) in lm_emit (TimerService <$> calls) (lm_set_timer e s).

(** The destructor; the event is destroyed after it. *)
Definition lm_destroy (s : LivelinessManager) : LivelinessManager := lm_cancel_timer (lm_set_owner None s).

(** The writer that the owner points to. *)
Definition lm_deref (p : nat * nat) (s : LivelinessManager) : option (nat * LivelinessData) :=
  if decide (p.1 = rlv_allocation (lm_writers s)) then w ← lm_items s !! p.2; Some (p.2, w) else None.

Section Clock.
Context (clock : nat → Z).

Definition lm_now (s : LivelinessManager) : Z := clock (lm_readings s).

Definition lm_assert_writer_liveliness (s : LivelinessManager) (i : nat) : LivelinessManager :=
  match lm_items s !! i with
  | None => s
  | Some w =>
      let status := ld_status w in
      let w' := ld_set_time (lm_now s + dur_to_ns (ld_lease w)) (ld_set_status ALIVE w) in
      let s := lm_read (lm_set_items (<[i := w']> (lm_items s)) s) in
      match status with
      | NOT_ASSERTED => lm_report w 1 0 s
      | NOT_ALIVE => lm_report w 1 (-1) s
      | ALIVE => s
      end
  end.

(** The loop of [calculate_next] over the writers from index [i] on: the least time, its owner
    and whether any writer is alive. *)
Fixpoint next_loop (l : list LivelinessData) (i : nat) (min_time : Z) (owner : option nat) (any_alive : bool)
    : Z * option nat * bool :=
  match l with
  | [] => (min_time, owner, any_alive)
  | w :: l' =>
      if decide (ld_status w = ALIVE)
      then if ld_time w <? min_time then next_loop l' (S i) (ld_time w) (Some i) true
           else next_loop l' (S i) min_time owner true
      else next_loop l' (S i) min_time owner any_alive
  end.

Definition calculate_next (s : LivelinessManager) : bool * LivelinessManager :=
  let min_time := lm_now s + dur_to_ns c_TimeInfinite in
  let '(_, owner, any_alive) := next_loop (lm_items s) 0 min_time None false in
  (any_alive, lm_set_owner ((λ i, (rlv_allocation (lm_writers s), i)) <$> owner) (lm_read s)).

(** The new interval of the timer, whole milliseconds up to the time of the writer [w]. *)
Definition lm_update_interval (w : LivelinessData) (s : LivelinessManager) : LivelinessManager :=
  let interval := ld_time w - lm_now s in
  lm_set_timer (te_update_interval_millisec (Z.quot interval 1000000) (lm_timer s)) (lm_read s).

(** The last region of the operations: the timer is set for its owner. *)
Definition arm_timer (s : LivelinessManager) : option LivelinessManager :=
  match lm_owner s with
  | None => Some s
  | Some p => '(_, w) ← lm_deref p s; Some (lm_restart_timer (lm_update_interval w s))
  end.

(** ** Operations *)

(** The first writer with the key has its count increased. *)
Fixpoint count_writer (guid : GUID_t) (kind : LivelinessKind) (lease : Duration_t) (l : list LivelinessData)
    : option (list LivelinessData) :=
  match l with
  | [] => None
  | w :: l' => if ld_matches guid kind lease w then Some (ld_set_count (u32 (ld_count w + 1)) w :: l')
               else l'' ← count_writer guid kind lease l'; Some (w :: l'')
  end.

(** The first region of [add_writer]: whether the writer has been counted. *)
Definition add_region (guid : GUID_t) (kind : LivelinessKind) (lease : Duration_t) (s : LivelinessManager)
    : bool * LivelinessManager :=
  match count_writer guid kind lease (lm_items s) with
  | Some l => (true, lm_set_items l s)
  | None => (false, lm_set_writers (emplace_back (ld_make guid kind lease) (lm_writers s)).2 s)
  end.

Definition add_writer (guid : GUID_t) (kind : LivelinessKind) (lease : Duration_t) (s : LivelinessManager)
    : option (bool * LivelinessManager) :=
  if negb (lm_manage_automatic s) && bool_decide (kind = AUTOMATIC_LIVELINESS) then Some (false, s)
  else
    let (counted, s1) := add_region guid kind lease s in
    if counted then Some (true, s1)
    else let (any_alive, s2) := calculate_next s1 in
         if negb any_alive then Some (true, lm_cancel_timer s2)
         else s3 ← arm_timer s2; Some (true, s3).

(** The predicate of [lm_remove_writer]: it notes the status and counts down a writer with the key. *)
Definition remove_pred (guid : GUID_t) (kind : LivelinessKind) (lease : Duration_t)
    (w : LivelinessData) (writer_status : WriterStatus) : bool * LivelinessData * WriterStatus :=
  if ld_matches guid kind lease w
  then let w' := ld_set_count (u32 (ld_count w - 1)) w in (ld_count w' =? 0, w', ld_status w)
  else (false, w, ld_status w).

(** [writer_status] is what the caller's variable holds before the call. *)
Definition lm_remove_writer (guid : GUID_t) (kind : LivelinessKind) (lease : Duration_t) (writer_status : WriterStatus)
    (s : LivelinessManager) : option (bool * WriterStatus * LivelinessManager) :=
  let '(removed, st, v) := remove_if (remove_pred guid kind lease) writer_status (lm_writers s) in
  let s1 := lm_set_writers v s in
  if negb removed then Some (false, st, s1)
  else match lm_owner s1 with
       | None => Some (true, st, s1)
       | Some _ =>
           let (any_alive, s2) := calculate_next s1 in
           if negb any_alive then Some (true, st, lm_cancel_timer s2)
           else s3 ← arm_timer s2; Some (true, st, s3)
       end.

(** The writers of a kind and a participant. *)
Definition of_participant (kind : LivelinessKind) (prefix : GuidPrefix_t) (w : LivelinessData) : bool :=
  bool_decide (ld_kind w = kind) && pfx_eqb (guidPrefix (ld_guid w)) prefix.

(** A loop over the writers that asserts the ones of a kind and a participant. *)
Definition assert_if (p : LivelinessData → bool) (s : LivelinessManager) (i : nat) : LivelinessManager :=
  match lm_items s !! i with
  | Some w => if p w then lm_assert_writer_liveliness s i else s
  | None => s
  end.

Definition assert_participant (kind : LivelinessKind) (prefix : GuidPrefix_t) (s : LivelinessManager) : LivelinessManager :=
  foldl (assert_if (of_participant kind prefix)) s (seq 0 (length (lm_items s))).

Fixpoint find_writer (guid : GUID_t) (kind : LivelinessKind) (lease : Duration_t) (l : list LivelinessData) : option nat :=
  match l with
  | [] => None
  | w :: l' => if ld_matches guid kind lease w then Some 0%nat else Nat.succ <$> find_writer guid kind lease l'
  end.

(** [assert_liveliness(guid, kind, lease_duration)] *)
Definition assert_liveliness (guid : GUID_t) (kind : LivelinessKind) (lease : Duration_t) (s : LivelinessManager)
    : option (bool * LivelinessManager) :=
  match find_writer guid kind lease (lm_items s) with
  | None => Some (false, s)
  | Some i =>
      let s1 := match kind with
                | MANUAL_BY_PARTICIPANT_LIVELINESS | AUTOMATIC_LIVELINESS => assert_participant kind (guidPrefix guid) s
                | MANUAL_BY_TOPIC_LIVELINESS => lm_assert_writer_liveliness s i
                end in
      let s2 := lm_cancel_timer s1 in
      let (any_alive, s3) := calculate_next s2 in
      if negb any_alive then Some (false, s3) else s4 ← arm_timer s3; Some (true, s4)
  end.

(** [assert_liveliness(kind, guid_prefix)] *)
Definition assert_liveliness_kind (kind : LivelinessKind) (prefix : GuidPrefix_t) (s : LivelinessManager)
    : option (bool * LivelinessManager) :=
  if negb (lm_manage_automatic s) && bool_decide (kind = AUTOMATIC_LIVELINESS) then Some (false, s)
  else match lm_items s with
       | [] => Some (true, s)
       | _ :: _ =>
           let s1 := lm_cancel_timer (assert_participant kind prefix s) in
           let (any_alive, s2) := calculate_next s1 in
           if negb any_alive then Some (false, s2) else s3 ← arm_timer s2; Some (true, s3)
       end.

(** The first region of [timer_expired]: [None] is the access through an invalid pointer, the
    inner [None] that there is no owner. *)
Definition expire_region (s : LivelinessManager) : option (option LivelinessData * LivelinessManager) :=
  match lm_owner s with
  | None => Some (None, s)
  | Some p => '(i, w) ← lm_deref p s;
              Some (Some w, lm_set_items (<[i := ld_set_status NOT_ALIVE w]> (lm_items s)) s)
  end.

Definition timer_expired (s : LivelinessManager) : option (bool * LivelinessManager) :=
  '(expired, s1) ← expire_region s;
  match expired with
  | None => Some (false, s1)
  | Some w =>
      let s2 := lm_report w (-1) 1 s1 in
      let (any_alive, s3) := calculate_next s2 in
      if any_alive
      then match lm_owner s3 with
           | None => Some (false, s3)
           | Some p => '(_, w') ← lm_deref p s3; Some (true, lm_update_interval w' s3)
           end
      else Some (false, s3)
  end.

Definition is_any_alive (kind : LivelinessKind) (s : LivelinessManager) : bool :=
  existsb (λ w, bool_decide (ld_kind w = kind) && bool_decide (ld_status w = ALIVE)) (lm_items s).

(** ** The event thread *)

(** The event thread takes up the timer at [current_time]. *)
Definition lm_update (current_time cancel_time : Z) (s : LivelinessManager) : LivelinessManager :=
  lm_set_timer (te_update current_time cancel_time (lm_timer s)).2 s.

(** The event thread triggers the timer. *)
Definition lm_trigger (current_time cancel_time : Z) (s : LivelinessManager) : option LivelinessManager :=
  if decide (te_state (lm_timer s) = WAITING) then
    '(restart, s') ← timer_expired (lm_set_timer (te_set_state INACTIVE (lm_timer s)) s);
    Some (lm_set_timer (trigger_return restart current_time cancel_time (lm_timer s')) s')
  else Some (lm_set_timer (te_set_next cancel_time (lm_timer s)) s).

(** ** Runs *)

Inductive LivelinessOp :=
  | OpAdd (guid : GUID_t) (kind : LivelinessKind) (lease : Duration_t)
  | OpRemove (guid : GUID_t) (kind : LivelinessKind) (lease : Duration_t) (writer_status : WriterStatus)
  | OpAssert (guid : GUID_t) (kind : LivelinessKind) (lease : Duration_t)
  | OpAssertKind (kind : LivelinessKind) (prefix : GuidPrefix_t)
  | OpUpdate (current_time cancel_time : Z)
  | OpTrigger (current_time cancel_time : Z).

(** An operation, and the status of the writer it removes. *)
Definition lm_exec (op : LivelinessOp) (s : LivelinessManager) : option (list WriterStatus * LivelinessManager) :=
  match op with
  | OpAdd guid kind lease => '(_, s') ← add_writer guid kind lease s; Some ([], s')
  | OpRemove guid kind lease st =>
      '(removed, st', s') ← lm_remove_writer guid kind lease st s; Some (if removed : bool then [st'] else [], s')
  | OpAssert guid kind lease => '(_, s') ← assert_liveliness guid kind lease s; Some ([], s')
  | OpAssertKind kind prefix => '(_, s') ← assert_liveliness_kind kind prefix s; Some ([], s')
  | OpUpdate now cancel => Some ([], lm_update now cancel s)
  | OpTrigger now cancel => s' ← lm_trigger now cancel s; Some ([], s')
  end.

Fixpoint lm_run (ops : list LivelinessOp) (s : LivelinessManager) : option (list WriterStatus * LivelinessManager) :=
  match ops with
  | [] => Some ([], s)
  | op :: ops' => '(gone, s1) ← lm_exec op s; '(gone', s2) ← lm_run ops' s1; Some (gone ++ gone', s2)
  end.
End Clock.
