(* ===== verification/LivelinessManagerFacts.v ===== *)
(** * The lease of every writer: the invariant of the liveliness manager

    The manager keeps one entry per writer, kind and lease; the entry of a live
    writer holds the time of its last assertion plus the lease; the timer belongs
    to the live writer with the least time; and what the callbacks have reported
    adds up to the status of the writers. *)

From Stdlib Require Import ZArith Lia ZifyBool.
From stdpp Require Import base numbers option list.
From S2P Require Import Prelude Guid TimedEvent Time WriterProxy ResourceEvent ResourceLimitedVector LivelinessManager.

Open Scope Z_scope.

(** ** Keys *)

Definition ld_key (w : LivelinessData) : GUID_t * LivelinessKind * Duration_t := (ld_guid w, ld_kind w, ld_lease w).

Definition lease_ok (d : Duration_t) : Prop := 0 <= dur_seconds d < 2 ^ 31 ∧ is_u32 (dur_nanosec d).

Lemma ld_matches_spec guid kind lease w :
  guid_ok guid → guid_ok (ld_guid w) → ld_matches guid kind lease w = true ↔ ld_key w = (guid, kind, lease).
Proof.
  intros H1 H2. unfold ld_matches, ld_key. rewrite !andb_true_iff, !bool_decide_eq_true, guid_eqb_eq by done.
  split; [by intros [[-> ->] ->] | by intros [= -> -> ->]].
Qed.

Lemma dur_to_ns_val d : lease_ok d → dur_to_ns d = dur_seconds d * 1000000000 + dur_nanosec d.
Proof.
  intros [Hs Hn]. unfold dur_to_ns, i64, C_NANOSECONDS_PER_SEC. width.
  rewrite (sext_small 64 (dur_seconds d * 1000000000)) by (change (64 - 1) with 63; zwidth).
  apply sext_small; [lia|]. change (64 - 1) with 63. zwidth.
Qed.

Lemma dur_to_ns_bound d : lease_ok d → 0 <= dur_to_ns d <= dur_to_ns c_TimeInfinite.
Proof.
  intros Hd. rewrite (dur_to_ns_val c_TimeInfinite) by (split; cbn; zwidth). rewrite dur_to_ns_val by done.
  destruct Hd. cbn. zwidth.
Qed.

Lemma elem_of_insert_inv {A} (l : list A) i x y : x ∈ <[i := y]> l → x = y ∨ x ∈ l.
Proof.
  intros (j & Hj)%list_elem_of_lookup. destruct (decide (i = j)) as [->|Hne].
  - left. assert (j < length l)%nat by (apply lookup_lt_Some in Hj; by rewrite length_insert in Hj).
    rewrite list_lookup_insert_eq in Hj by done. congruence.
  - right. rewrite list_lookup_insert_ne in Hj by done. by eapply list_elem_of_lookup_2.
Qed.

(** ** The owner of the timer *)

Definition alive (w : LivelinessData) : Prop := ld_status w = ALIVE.

(** What the loop finds: the first index of least time below the bound. *)
Lemma next_loop_spec l i m o b :
  let '(m', o', b') := next_loop l i m o b in
  (b' = true ↔ b = true ∨ ∃ w, w ∈ l ∧ alive w) ∧
  ((m' = m ∧ o' = o ∧ ∀ w, w ∈ l → alive w → m <= ld_time w) ∨
   ∃ j w, o' = Some (i + j)%nat ∧ l !! j = Some w ∧ alive w ∧ ld_time w = m' ∧ m' < m ∧
          ∀ w', w' ∈ l → alive w' → m' <= ld_time w').
Proof.
  revert i m o b. induction l as [|w l IH]; intros i m o b; cbn [next_loop].
  - split; [split; [by left | by intros [?|(w & []%not_elem_of_nil & _)]]|]. left. split_and!; try done.
    by intros w []%not_elem_of_nil.
  - assert (∀ b0 b1 : bool, (b1 = true ↔ b0 = true ∨ ∃ w', w' ∈ l ∧ alive w') →
              (b0 = true ↔ b = true ∨ alive w) → b1 = true ↔ b = true ∨ ∃ w', w' ∈ w :: l ∧ alive w') as Hany.
    { intros b0 b1 -> ->. split.
      - intros [[?|?]|(w' & ? & ?)]; [by left | right; exists w | right; exists w']; (split; [apply elem_of_cons|]); auto.
      - intros [?|(w' & [->|?]%elem_of_cons & ?)]; eauto. }
    case_decide as Hw; [destruct (Z.ltb_spec (ld_time w) m) as [Hlt|Hge]|].
    + specialize (IH (S i) (ld_time w) (Some i) true). destruct (next_loop l _ _ _ _) as [[m' o'] b'].
      destruct IH as [IHb IH]. split; [eapply Hany; [done|]; split; [by right | done]|]. right.
      destruct IH as [(-> & -> & Hmin)|(j & w' & -> & Hj & Ha & Ht & Hm & Hmin)].
      * exists 0%nat, w. rewrite Nat.add_0_r. split_and!; try done. intros w' [->|?]%elem_of_cons ?; [done | by apply Hmin].
      * exists (S j), w'. rewrite Nat.add_succ_comm. split_and!; try done; [lia|].
        intros w2 [->|?]%elem_of_cons ?; [lia | by apply Hmin].
    + specialize (IH (S i) m o true). destruct (next_loop l _ _ _ _) as [[m' o'] b'].
      destruct IH as [IHb IH]. split; [eapply Hany; [done|]; split; [by right | done]|].
      destruct IH as [(-> & -> & Hmin)|(j & w' & -> & Hj & Ha & Ht & Hm & Hmin)].
      * left. split_and!; try done. intros w' [->|?]%elem_of_cons ?; [done | by apply Hmin].
      * right. exists (S j), w'. rewrite Nat.add_succ_comm. split_and!; try done.
        intros w2 [->|?]%elem_of_cons ?; [lia | by apply Hmin].
    + specialize (IH (S i) m o b). destruct (next_loop l _ _ _ _) as [[m' o'] b'].
      destruct IH as [IHb IH]. split; [eapply Hany; [done|]; split; [by left | by intros [?|?]]|].
      destruct IH as [(-> & -> & Hmin)|(j & w' & -> & Hj & Ha & Ht & Hm & Hmin)].
      * left. split_and!; try done. intros w' [->|?]%elem_of_cons ?; [done | by apply Hmin].
      * right. exists (S j), w'. rewrite Nat.add_succ_comm. split_and!; try done.
        intros w2 [->|?]%elem_of_cons ?; [done | by apply Hmin].
Qed.

Section Clock.
Context (clock : nat → Z) (clock_mono : ∀ i j, (i <= j)%nat → clock i <= clock j).

(** The owner is a live writer of least time; without one, the live writers have an infinite
    lease. *)
Definition owner_ok (s : LivelinessManager) : Prop :=
  match lm_owner s with
  | None => ∀ w, w ∈ lm_items s → alive w → dur_to_ns (ld_lease w) = dur_to_ns c_TimeInfinite
  | Some p => p.1 = rlv_allocation (lm_writers s) ∧
              ∃ w, lm_items s !! p.2 = Some w ∧ alive w ∧ ∀ w', w' ∈ lm_items s → alive w' → ld_time w <= ld_time w'
  end.

(** The part of the invariant that does not speak of the owner, for [n] readings made. *)
Record writers_ok (n : nat) (l : list LivelinessData) : Prop := {
  wok_data : ∀ w, w ∈ l → guid_ok (ld_guid w) ∧ lease_ok (ld_lease w);
  wok_keys : NoDup (ld_key <$> l);
  wok_time : ∀ w, w ∈ l → alive w → ∃ k, (k < n)%nat ∧ ld_time w = clock k + dur_to_ns (ld_lease w)
}.

Lemma writers_ok_later n n' l : (n <= n')%nat → writers_ok n l → writers_ok n' l.
Proof.
  intros Hle [Hd Hk Ht]. constructor; [done..|]. intros w Hw Ha. destruct (Ht w Hw Ha) as (k & ? & ?).
  exists k. split; [lia | done].
Qed.

Lemma writers_ok_insert n l i w w' :
  writers_ok n l → l !! i = Some w → ld_key w' = ld_key w →
  (alive w' → ∃ k, (k < n)%nat ∧ ld_time w' = clock k + dur_to_ns (ld_lease w')) → writers_ok n (<[i := w']> l).
Proof.
  intros [Hd Hk Ht] Hi Ek Ha. pose proof Ek as Ek'. unfold ld_key in Ek'. injection Ek' as Eg _ El.
  constructor.
  - intros x [->|Hx]%elem_of_insert_inv; [|by apply Hd].
    rewrite Eg, El. by eapply Hd, list_elem_of_lookup_2.
  - rewrite list_fmap_insert, list_insert_id; [done|]. by rewrite list_lookup_fmap, Hi, Ek.
  - intros x [->|Hx]%elem_of_insert_inv; [done | by apply Ht].
Qed.

(** ** What the callbacks have reported *)

(** The change of the number of writers with a status, in one effect. *)
Definition change_of (st : WriterStatus) (e : LivelinessEffect) : Z :=
  match e, st with
  | LivelinessChanged _ _ _ alive_change _, ALIVE => alive_change
  | LivelinessChanged _ _ _ _ not_alive_change, NOT_ALIVE => not_alive_change
  | _, _ => 0
  end.

Definition sum_changes (st : WriterStatus) (log : list LivelinessEffect) : Z :=
  foldr (λ e n, change_of st e + n) 0 log.

Definition has_status (st : WriterStatus) (w : LivelinessData) : Z := if decide (ld_status w = st) then 1 else 0.

Definition count_status (st : WriterStatus) (l : list LivelinessData) : Z := foldr (λ w n, has_status st w + n) 0 l.

#[local] Arguments sum_changes : simpl never.
#[local] Arguments count_status : simpl never.

(** What has been reported and is not there. *)
Definition debt (st : WriterStatus) (s : LivelinessManager) : Z :=
  sum_changes st (lm_log s) - count_status st (lm_items s).

Lemma sum_changes_app st l1 l2 : sum_changes st (l1 ++ l2) = sum_changes st l1 + sum_changes st l2.
Proof.
  unfold sum_changes. induction l1 as [|e l1 IH]; [done|]. rewrite <- app_comm_cons. cbn [foldr]. rewrite IH. lia.
Qed.

Lemma sum_changes_one st e : sum_changes st [e] = change_of st e.
Proof. unfold sum_changes. cbn [foldr]. lia. Qed.

Lemma sum_changes_service st calls : sum_changes st (TimerService <$> calls) = 0.
Proof. unfold sum_changes. induction calls as [|c calls IH]; [done|]. cbn [fmap list_fmap foldr change_of]. rewrite IH. by destruct st. Qed.

Lemma count_status_app st l1 l2 : count_status st (l1 ++ l2) = count_status st l1 + count_status st l2.
Proof.
  unfold count_status. induction l1 as [|e l1 IH]; [done|]. rewrite <- app_comm_cons. cbn [foldr]. rewrite IH. lia.
Qed.

Lemma count_status_permutation st l1 l2 : l1 ≡ₚ l2 → count_status st l1 = count_status st l2.
Proof. unfold count_status. induction 1; cbn [foldr]; lia. Qed.

Lemma count_status_insert st l i w w' :
  l !! i = Some w → count_status st (<[i := w']> l) = count_status st l - has_status st w + has_status st w'.
Proof.
  unfold count_status. revert i. induction l as [|x l IH]; intros [|i] Hi; try done.
  - injection Hi as ->. cbn [insert list_insert foldr]. lia.
  - change (<[S i := w']> (x :: l)) with (x :: <[i := w']> l). cbn [foldr]. rewrite (IH i Hi). lia.
Qed.

(** ** Regions that leave the writers alone *)

Record lm_frame (s s' : LivelinessManager) : Prop := {
  fr_writers : lm_writers s' = lm_writers s;
  fr_owner : lm_owner s' = lm_owner s;
  fr_callback : lm_callback s' = lm_callback s;
  fr_automatic : lm_manage_automatic s' = lm_manage_automatic s;
  fr_readings : (lm_readings s <= lm_readings s')%nat;
  fr_log : ∀ st, sum_changes st (lm_log s') = sum_changes st (lm_log s)
}.

Lemma frame_cancel s : lm_frame s (lm_cancel_timer s).
Proof.
  unfold lm_cancel_timer. destruct (te_cancel_timer _) as [e calls]. constructor; try done. intros st. cbn.
  rewrite sum_changes_app, sum_changes_service. lia.
Qed.

Lemma frame_restart s : lm_frame s (lm_restart_timer s).
Proof.
  unfold lm_restart_timer. destruct (te_restart_timer _) as [e calls]. constructor; try done. intros st. cbn.
  rewrite sum_changes_app, sum_changes_service. lia.
Qed.

Lemma frame_interval w s : lm_frame s (lm_update_interval clock w s).
Proof. constructor; cbn; try done. lia. Qed.

Lemma frame_timer e s : lm_frame s (lm_set_timer e s).
Proof. by constructor. Qed.

Lemma frame_trans s1 s2 s3 : lm_frame s1 s2 → lm_frame s2 s3 → lm_frame s1 s3.
Proof. intros [] []. constructor; intros; try congruence. lia. Qed.

Definition lm_ok (s : LivelinessManager) : Prop := writers_ok (lm_readings s) (lm_items s) ∧ owner_ok s.

Lemma frame_ok s s' : lm_frame s s' → lm_ok s → lm_ok s'.
Proof.
  intros [Ew Eo _ _ Hr _] [Hw Ho]. unfold lm_ok, owner_ok, lm_items in *. rewrite Ew, Eo.
  split; [by eapply writers_ok_later | done].
Qed.

Lemma frame_debt st s s' : lm_frame s s' → debt st s' = debt st s.
Proof. intros [Ew _ _ _ _ Hl]. unfold debt, lm_items. by rewrite Ew, Hl. Qed.

(** A live owner can be followed. *)
Lemma owner_deref s p :
  owner_ok s → lm_owner s = Some p → ∃ w, lm_deref p s = Some (p.2, w) ∧ lm_items s !! p.2 = Some w ∧ alive w ∧
    ∀ w', w' ∈ lm_items s → alive w' → ld_time w <= ld_time w'.
Proof.
  intros Ho E. unfold owner_ok in Ho. rewrite E in Ho. destruct Ho as (Ha & w & Hw & Hal & Hmin). exists w.
  unfold lm_deref. rewrite decide_True by done. rewrite Hw. done.
Qed.

Lemma calculate_next_spec s :
  writers_ok (lm_readings s) (lm_items s) →
  let (any_alive, s') := calculate_next clock s in
  (any_alive = true ↔ ∃ w, w ∈ lm_items s ∧ alive w) ∧ lm_ok s' ∧ s' = lm_set_owner (lm_owner s') (lm_read s).
Proof.
  intros Hw. unfold calculate_next. pose proof (next_loop_spec (lm_items s) 0 (lm_now clock s + dur_to_ns c_TimeInfinite) None false) as Hl.
  destruct (next_loop _ _ _ _ _) as [[m' o'] b']. destruct Hl as [Hb Hl]. split_and!; [|split|done].
  - rewrite Hb. split; [intros [?|?]; done | by right].
  - eapply writers_ok_later; [|exact Hw]. cbn. lia.
  - destruct Hl as [(-> & -> & Hmin)|(j & w & -> & Hj & Ha & Ht & Hm & Hmin)]; cbn.
    + intros w Hin Ha. specialize (Hmin w Hin Ha). destruct (wok_time _ _ Hw w Hin Ha) as (k & Hk & Et).
      destruct (wok_data _ _ Hw w Hin) as [_ Hlease]. pose proof (dur_to_ns_bound _ Hlease).
      pose proof (clock_mono k (lm_readings s) ltac:(lia)). unfold lm_now in Hmin. lia.
    + split; [done|]. exists w. split_and!; [done | done |]. intros w' Hin Ha'. rewrite Ht. by apply Hmin.
Qed.

Lemma arm_timer_spec s : owner_ok s → ∃ s', arm_timer clock s = Some s' ∧ lm_frame s s'.
Proof.
  intros Ho. unfold arm_timer. destruct (lm_owner s) as [p|] eqn:E; [|exists s; split; [done | by constructor]].
  destruct (owner_deref s p Ho E) as (w & -> & _). cbn. eexists. split; [done|].
  eapply frame_trans; [apply frame_interval | apply frame_restart].
Qed.

(** [calculate_next] and the region behind it, as [add_writer], [lm_remove_writer] and the assertions
    end with. *)
Definition settles (s s' : LivelinessManager) : Prop :=
  lm_ok s' ∧ lm_writers s' = lm_writers s ∧ lm_callback s' = lm_callback s ∧ (∀ st, debt st s' = debt st s).

Lemma settle_calc s :
  writers_ok (lm_readings s) (lm_items s) → settles s (calculate_next clock s).2.
Proof.
  intros Hw. pose proof (calculate_next_spec s Hw) as Hc. destruct (calculate_next clock s) as [b s'].
  destruct Hc as (_ & Hok & E). cbn [snd]. split; [done|]. rewrite E. done.
Qed.

Lemma settle_frame s s1 s2 : settles s s1 → lm_frame s1 s2 → settles s s2.
Proof.
  intros (Hok & Ew & Ec & Hd) Hf. split; [by eapply frame_ok|]. split; [by rewrite (fr_writers _ _ Hf)|].
  split; [by rewrite (fr_callback _ _ Hf)|]. intros st. by rewrite (frame_debt st s1 s2).
Qed.

Lemma settle_arm s s1 : settles s s1 → ∃ s2, arm_timer clock s1 = Some s2 ∧ settles s s2.
Proof.
  intros Hs. destruct (arm_timer_spec s1) as (s2 & E & Hf); [apply Hs|]. exists s2. split; [done|].
  by eapply settle_frame.
Qed.

(** ** Assertions *)

(** The entry of a writer asserted at the reading [k]. *)
Definition asserted (k : nat) (w : LivelinessData) : LivelinessData :=
  ld_set_time (clock k + dur_to_ns (ld_lease w)) (ld_set_status ALIVE w).

(** What assertions leave alone: everything but the entries, the readings and the reports. *)
Record lm_asserts (s s' : LivelinessManager) : Prop := {
  as_allocation : rlv_allocation (lm_writers s') = rlv_allocation (lm_writers s);
  as_length : length (lm_items s') = length (lm_items s);
  as_timer : lm_timer s' = lm_timer s;
  as_callback : lm_callback s' = lm_callback s;
  as_automatic : lm_manage_automatic s' = lm_manage_automatic s;
  as_readings : (lm_readings s <= lm_readings s')%nat;
  as_ok : writers_ok (lm_readings s) (lm_items s) → writers_ok (lm_readings s') (lm_items s');
  as_debt : ∀ st, st ≠ NOT_ASSERTED → lm_callback s = true → debt st s' = debt st s
}.

Lemma asserts_refl s : lm_asserts s s.
Proof. by constructor. Qed.

Lemma asserts_trans s1 s2 s3 : lm_asserts s1 s2 → lm_asserts s2 s3 → lm_asserts s1 s3.
Proof.
  intros [] []. constructor; try congruence; [lia | auto|]. intros st Hst Hc.
  rewrite as_debt1; [auto | done | congruence].
Qed.

Lemma assert_writer_spec s i w :
  lm_items s !! i = Some w →
  let s' := lm_assert_writer_liveliness clock s i in
  lm_asserts s s' ∧ lm_items s' = <[i := asserted (lm_readings s) w]> (lm_items s) ∧ lm_readings s' = S (lm_readings s).
Proof.
  intros Hi s'. assert (lm_items s' = <[i := asserted (lm_readings s) w]> (lm_items s) ∧ lm_readings s' = S (lm_readings s)) as [Ei Er].
  { unfold s', lm_assert_writer_liveliness. rewrite Hi. unfold lm_report. cbn. by destruct (ld_status w), (lm_callback s). }
  split; [|done]. assert (writers_ok (lm_readings s) (lm_items s) → writers_ok (lm_readings s') (lm_items s')) as Hok.
  { rewrite Er, Ei. intros Hok. eapply writers_ok_insert; [by eapply writers_ok_later, Hok; lia | exact Hi | done |].
    intros _. exists (lm_readings s). split; [lia | done]. }
  constructor; try done.
  1, 3, 4, 5: unfold s', lm_assert_writer_liveliness; rewrite Hi; unfold lm_report; cbn;
    destruct (ld_status w), (lm_callback s) eqn:Ec; cbn; congruence.
  - rewrite Ei. apply length_insert.
  - lia.
  - intros st Hst Hc. unfold debt. rewrite Ei, (count_status_insert _ _ _ w) by done.
    assert (sum_changes st (lm_log s') = sum_changes st (lm_log s) + has_status st (asserted (lm_readings s) w) - has_status st w) as ->;
      [|lia].
    unfold s', lm_assert_writer_liveliness. rewrite Hi. unfold lm_report, has_status. cbn. rewrite Hc.
    destruct (ld_status w) eqn:Ew; cbn; rewrite ?sum_changes_app, ?sum_changes_one, ?Ew; destruct st; try done;
      repeat case_decide; try congruence; cbn [change_of]; lia.
Qed.

(** The loop over the writers of a participant: exactly these are asserted, at readings of the
    clock during the loop. *)
Lemma assert_loop_spec p s n i :
  (∀ k w, p (asserted k w) = p w) → (i + n <= length (lm_items s))%nat →
  let s' := foldl (assert_if clock p) s (seq i n) in
  lm_asserts s s' ∧
  ∀ j w, lm_items s !! j = Some w →
    if bool_decide (i <= j < i + n)%nat && p w
    then ∃ k, (lm_readings s <= k < lm_readings s')%nat ∧ lm_items s' !! j = Some (asserted k w)
    else lm_items s' !! j = Some w.
Proof.
  intros Hp. revert s i. induction n as [|n IH]; intros s i Hlen; cbn [seq foldl].
  - split; [apply asserts_refl|]. intros j w Hj. rewrite bool_decide_eq_false_2 by lia. done.
  - set (s1 := assert_if clock p s i). destruct (lookup_lt_is_Some_2 (lm_items s) i) as [wi Hi]; [lia|].
    assert (lm_asserts s s1 ∧ (lm_readings s <= lm_readings s1)%nat ∧ ∀ j w, lm_items s !! j = Some w →
              if bool_decide (j = i) && p w
              then (lm_readings s < lm_readings s1)%nat ∧ lm_items s1 !! j = Some (asserted (lm_readings s) w)
              else lm_items s1 !! j = Some w) as (Ha & Hr & Hone).
    { unfold s1, assert_if. rewrite Hi. destruct (p wi) eqn:Ep.
      - destruct (assert_writer_spec s i wi Hi) as (Ha & Ei & Er). split_and!; [done | lia|]. intros j w Hj.
        rewrite Ei, Er. destruct (decide (j = i)) as [->|Hne].
        + rewrite bool_decide_eq_true_2 by done. assert (w = wi) as -> by congruence. rewrite Ep. cbn. split; [lia|].
          apply list_lookup_insert_eq. by eapply lookup_lt_Some.
        + rewrite bool_decide_eq_false_2 by done. cbn. by rewrite list_lookup_insert_ne by congruence.
      - split_and!; [apply asserts_refl | lia|]. intros j w Hj. case_bool_decide as E; cbn; [|done]. subst.
        assert (w = wi) as -> by congruence. by rewrite Ep. }
    destruct (IH s1 (S i)) as [Ha2 Hrest]; [rewrite (as_length _ _ Ha); lia|]. split; [by eapply asserts_trans|].
    pose proof (as_readings _ _ Ha2) as Hr2. intros j w Hj. specialize (Hone j w Hj).
    destruct (p w) eqn:Epw; [|rewrite andb_false_r in *; specialize (Hrest j w Hone); by rewrite Epw, andb_false_r in Hrest].
    rewrite andb_true_r in *. destruct (decide (j = i)) as [->|Hne].
    + rewrite bool_decide_eq_true_2 in Hone by done. destruct Hone as [Hlt Hone]. specialize (Hrest i _ Hone).
      rewrite (bool_decide_eq_false_2 (S i <= i < _)%nat) in Hrest by lia. rewrite bool_decide_eq_true_2 by lia.
      exists (lm_readings s). split; [lia | done].
    + rewrite bool_decide_eq_false_2 in Hone by done. specialize (Hrest j w Hone). rewrite Epw, andb_true_r in Hrest.
      destruct (decide (S i <= j < S i + n)%nat).
      * rewrite bool_decide_eq_true_2 in Hrest by done. rewrite bool_decide_eq_true_2 by lia.
        destruct Hrest as (k & ? & ?). exists k. split; [lia | done].
      * rewrite bool_decide_eq_false_2 in Hrest by done. by rewrite bool_decide_eq_false_2 by lia.
Qed.

Lemma assert_participant_spec kind prefix s :
  let s' := assert_participant clock kind prefix s in
  lm_asserts s s' ∧
  ∀ j w, lm_items s !! j = Some w →
    if of_participant kind prefix w
    then ∃ k, (lm_readings s <= k < lm_readings s')%nat ∧ lm_items s' !! j = Some (asserted k w)
    else lm_items s' !! j = Some w.
Proof.
  destruct (assert_loop_spec (of_participant kind prefix) s (length (lm_items s)) 0) as [Ha Hl]; [done | done |].
  split; [done|]. intros j w Hj. specialize (Hl j w Hj). apply lookup_lt_Some in Hj.
  rewrite bool_decide_eq_true_2 in Hl by lia. done.
Qed.

(** ** Counting *)

(** Entries that differ in their count only. *)
Definition similar (w w' : LivelinessData) : Prop :=
  ld_key w' = ld_key w ∧ ld_status w' = ld_status w ∧ ld_time w' = ld_time w.

Lemma similar_refl w : similar w w.
Proof. done. Qed.

Lemma similar_list_refl l : Forall2 similar l l.
Proof. induction l; constructor; [apply similar_refl | done]. Qed.

Lemma similar_keys l l' : Forall2 similar l l' → ld_key <$> l' = ld_key <$> l.
Proof. induction 1 as [|w w' l l' (E & _) _ IH]; [done|]. cbn. by rewrite E, IH. Qed.

Lemma similar_elem l l' w' : Forall2 similar l l' → w' ∈ l' → ∃ w, w ∈ l ∧ similar w w'.
Proof.
  intros Hs (i & Hi)%list_elem_of_lookup. destruct (Forall2_lookup_r _ _ _ _ _ Hs Hi) as (w & Hw & Hsim).
  exists w. split; [by eapply list_elem_of_lookup_2 | done].
Qed.

Lemma similar_count st l l' : Forall2 similar l l' → count_status st l' = count_status st l.
Proof.
  unfold count_status. induction 1 as [|w w' l l' (_ & E & _) _ IH]; [done|]. cbn [foldr]. rewrite IH.
  unfold has_status. by rewrite E.
Qed.

Lemma similar_ok n l l' : Forall2 similar l l' → writers_ok n l → writers_ok n l'.
Proof.
  intros Hs [Hd Hk Ht]. constructor.
  - intros w' Hw'. destruct (similar_elem l l' w' Hs Hw') as (w & Hw & [= -> _ ->] & _). by apply Hd.
  - by rewrite (similar_keys l l').
  - intros w' Hw' Ha. destruct (similar_elem l l' w' Hs Hw') as (w & Hw & [= _ _ ->] & Est & ->). apply Ht; [done|].
    unfold alive in *. congruence.
Qed.

Lemma similar_owner l s : Forall2 similar (lm_items s) l → owner_ok s → owner_ok (lm_set_items l s).
Proof.
  intros Hs. unfold owner_ok. cbn. destruct (lm_owner s) as [p|].
  - intros (Ea & w & Hw & Hal & Hmin). split; [done|]. destruct (Forall2_lookup_l _ _ _ _ _ Hs Hw) as (w' & Hw' & _ & Est & Et).
    exists w'. split_and!; [done | unfold alive in *; congruence |]. intros x Hx Hxa.
    destruct (similar_elem _ _ x Hs Hx) as (y & Hy & _ & Eys & Eyt). rewrite Et, Eyt. apply Hmin; [done|].
    unfold alive in *. congruence.
  - intros Hinf x Hx Hxa. destruct (similar_elem _ _ x Hs Hx) as (y & Hy & [= _ _ ->] & Eys & _).
    apply Hinf; [done|]. unfold alive in *. congruence.
Qed.

Lemma count_writer_similar guid kind lease l l' : count_writer guid kind lease l = Some l' → Forall2 similar l l'.
Proof.
  revert l'. induction l as [|w l IH]; intros l'; cbn; [done|]. destruct (ld_matches _ _ _ w).
  - intros [= <-]. constructor; [done | apply similar_list_refl].
  - intros (l'' & Hl & [= <-])%bind_Some. constructor; [done | by apply IH].
Qed.

Lemma count_writer_none guid kind lease l w :
  count_writer guid kind lease l = None → w ∈ l → ld_matches guid kind lease w = false.
Proof.
  induction l as [|x l IH]; cbn; [by intros _ []%not_elem_of_nil|]. destruct (ld_matches _ _ _ x) eqn:E; [done|].
  intros Hn%bind_None [->|Hw]%elem_of_cons; [done|]. apply IH; [|done]. destruct Hn as [?|(y & ? & ?)]; done.
Qed.

Lemma remove_find_similar guid kind lease l st :
  let '(pos, l', st') := find_if (remove_pred guid kind lease) l st in
  Forall2 similar l l' ∧
  match pos with
  | Some i => ∃ w, l' !! i = Some w ∧ st' = ld_status w ∧ ld_matches guid kind lease w = true
  | None => st' = from_option ld_status st (last l)
  end.
Proof.
  revert st. induction l as [|w l IH]; intros st; cbn [find_if]; [done|]. unfold remove_pred at 1.
  destruct (ld_matches guid kind lease w) eqn:Em.
  - set (w' := ld_set_count _ w). destruct (ld_count w' =? 0).
    + split; [constructor; [done | apply similar_list_refl]|]. by exists w'.
    + specialize (IH (ld_status w)). destruct (find_if _ l _) as [[[i|] l'] st']; destruct IH as [Hs Hr];
        (split; [by constructor|]); [done|]. rewrite Hr. rewrite last_cons. by destruct (last l).
  - specialize (IH (ld_status w)). destruct (find_if _ l _) as [[[i|] l'] st']; destruct IH as [Hs Hr];
      (split; [by constructor|]); [done|]. rewrite Hr. rewrite last_cons. by destruct (last l).
Qed.
End Clock.

Arguments sum_changes : simpl never.
Arguments count_status : simpl never.
Arguments dur_to_ns : simpl never.
