(* ===== verification/LivelinessManagerTheorems.v ===== *)
(** * What the liveliness manager promises

    Every operation keeps the invariant and follows valid pointers only, as long
    as operations do not interleave; the callbacks add up; the timer is set for
    the writer that loses its liveliness first, to the millisecond. Three
    theorems show where it fails: a removed owner leaves its deadline to the next
    writer, and the timer may expire between the regions of [add_writer]. *)

From Stdlib Require Import ZArith Lia ZifyBool.
From stdpp Require Import base numbers option list.
From S2P Require Import Prelude Guid TimedEvent Time WriterProxy ResourceEvent ResourceLimitedVector LivelinessManager.
From S2P Require Import LivelinessManagerFacts.

Open Scope Z_scope.

(** Arguments of an operation that adds a writer. *)
Definition op_valid (op : LivelinessOp) : Prop :=
  match op with OpAdd guid _ lease => guid_ok guid ∧ lease_ok lease | _ => True end.

Definition count_in (st : WriterStatus) (gone : list WriterStatus) : Z :=
  Z.of_nat (length (filter (λ x, x = st) gone)).

Section Clock.
Context (clock : nat → Z) (clock_mono : ∀ i j, (i <= j)%nat → clock i <= clock j).

(** The result of an operation that removes the writers with the statuses [gone]: the invariant,
    and the reports are those of the changes. *)
Definition step_ok (s : LivelinessManager) (gone : list WriterStatus) (s' : LivelinessManager) : Prop :=
  lm_ok clock s' ∧ lm_callback s' = lm_callback s ∧
  ∀ st, st ≠ NOT_ASSERTED → lm_callback s = true → debt st s' = debt st s + count_in st gone.

Lemma step_ok_nil s s' :
  lm_ok clock s' → lm_callback s' = lm_callback s →
  (∀ st, st ≠ NOT_ASSERTED → lm_callback s = true → debt st s' = debt st s) → step_ok s [] s'.
Proof.
  intros Hok Ec Hd. split_and!; [done..|]. intros st Hst Hc. rewrite Hd by done.
  replace (count_in st []) with 0 by done. lia.
Qed.

(** The regions that the operations end with. *)
Lemma tail_ok s :
  writers_ok clock (lm_readings s) (lm_items s) →
  ∃ any_alive s2, calculate_next clock s = (any_alive, s2) ∧ settles clock s s2 ∧ settles clock s (lm_cancel_timer s2) ∧
    ∃ s3, arm_timer clock s2 = Some s3 ∧ settles clock s s3.
Proof.
  intros Hw. pose proof (settle_calc clock clock_mono s Hw) as Hs. destruct (calculate_next clock s) as [b s2].
  cbn [snd] in Hs. exists b, s2. split_and!; [done | done | | by apply settle_arm].
  eapply settle_frame; [exact Hs | apply frame_cancel].
Qed.

Lemma settles_step_ok s s1 s' gone :
  settles clock s1 s' → lm_callback s1 = lm_callback s →
  (∀ st, st ≠ NOT_ASSERTED → lm_callback s = true → debt st s1 = debt st s + count_in st gone) → step_ok s gone s'.
Proof.
  intros (Hok & _ & Ec & Hd) Ec1 Hd1. split_and!; [done | congruence |]. intros st Hst Hc. rewrite Hd. by apply Hd1.
Qed.

Lemma key_matches guid kind lease w :
  guid_ok guid → ld_guid w = guid → ld_kind w = kind → ld_lease w = lease → ld_matches guid kind lease w = true.
Proof. intros Hg <- <- <-. by apply ld_matches_spec. Qed.

Lemma add_region_ok guid kind lease s :
  writers_ok clock (lm_readings s) (lm_items s) → guid_ok guid → lease_ok lease →
  count_writer guid kind lease (lm_items s) = None →
  let s1 := lm_set_writers (emplace_back (ld_make guid kind lease) (lm_writers s)).2 s in
  writers_ok clock (lm_readings s1) (lm_items s1) ∧ ∀ st, st ≠ NOT_ASSERTED → debt st s1 = debt st s.
Proof.
  intros [Hd Hk Ht] Hg Hl Ec. unfold debt, lm_items. cbn.
  destruct (emplace_back_items (ld_make guid kind lease) (lm_writers s)) as [E|E]; rewrite E; fold (lm_items s); [|done].
  split; [constructor|].
  - intros w [Hw|Hw%list_elem_of_singleton]%elem_of_app; [by apply Hd | by subst].
  - rewrite fmap_app. apply NoDup_app. split_and!; [done| |apply NoDup_singleton].
    intros key (w & -> & Hw)%list_elem_of_fmap. intros Ek%list_elem_of_singleton. injection Ek as Eg Ekd El.
    pose proof (count_writer_none _ _ _ _ w Ec Hw) as Hm. rewrite key_matches in Hm; done.
  - intros w [Hw|Hw%list_elem_of_singleton]%elem_of_app Ha; [by apply Ht | by subst].
  - intros st Hst. rewrite count_status_app. assert (count_status st [ld_make guid kind lease] = 0) as -> by (by destruct st). lia.
Qed.

Lemma add_writer_ok guid kind lease s :
  lm_ok clock s → guid_ok guid → lease_ok lease →
  ∃ b s', add_writer clock guid kind lease s = Some (b, s') ∧ step_ok s [] s'.
Proof.
  intros [Hw Ho] Hg Hl. unfold add_writer. destruct (_ && _); [exists false, s; split; [done|]; by apply step_ok_nil|].
  unfold add_region. destruct (count_writer guid kind lease (lm_items s)) as [l'|] eqn:Ec.
  - apply count_writer_similar in Ec. eexists _, _. split; [done|]. apply step_ok_nil; [|done|].
    + split; [by eapply similar_ok | by apply similar_owner].
    + intros st _ _. unfold debt. cbn. by rewrite (similar_count st _ _ Ec).
  - destruct (add_region_ok guid kind lease s Hw Hg Hl Ec) as [Hw1 Hd1]. set (s1 := lm_set_writers _ s) in *.
    destruct (tail_ok s1 Hw1) as (b & s2 & -> & _ & Hs2 & s3 & Harm & Hs3). rewrite Harm.
    destruct b; cbn; (eexists _, _; split; [done|]); (eapply settles_step_ok; [eassumption | done|]);
      intros st Hst _; rewrite Hd1 by done; replace (count_in st []) with 0 by done; lia.
Qed.

Lemma writers_ok_sublist n l l' w : l ≡ₚ w :: l' → writers_ok clock n l → writers_ok clock n l'.
Proof.
  intros Hp [Hd Hk Ht]. assert (∀ x, x ∈ l' → x ∈ l) as Hsub by (intros x Hx; rewrite Hp; by apply elem_of_cons; right).
  constructor; [by auto | | by auto]. rewrite Hp in Hk. cbn in Hk. by apply NoDup_cons in Hk as [_ ?].
Qed.

Lemma remove_writer_ok guid kind lease st0 s :
  lm_ok clock s →
  ∃ removed st s', lm_remove_writer clock guid kind lease st0 s = Some (removed, st, s') ∧
    step_ok s (if removed : bool then [st] else []) s'.
Proof.
  intros [Hw Ho]. unfold lm_remove_writer, remove_if.
  pose proof (remove_find_similar guid kind lease (lm_items s) st0) as Hf. unfold lm_items at 1 in Hf.
  destruct (find_if _ _ _) as [[[i|] l'] st]; destruct Hf as [Hsim Hf]; fold (lm_items s) in Hsim.
  - destruct Hf as (w & Hi & -> & _). set (v := rlv_set_items l' (lm_writers s)).
    pose proof (do_remove_permutation i v w Hi) as Hperm. change (rlv_items v) with l' in Hperm.
    set (s1 := lm_set_writers (do_remove i v) s).
    assert (writers_ok clock (lm_readings s1) (lm_items s1)) as Hw1.
    { eapply writers_ok_sublist; [exact Hperm | by eapply similar_ok]. }
    assert (∀ st, st ≠ NOT_ASSERTED → lm_callback s = true → debt st s1 = debt st s + count_in st [ld_status w]) as Hd1.
    { intros st _ _. unfold debt. change (lm_log s1) with (lm_log s). change (lm_items s1) with (rlv_items (do_remove i v)).
      rewrite <- (similar_count st _ _ Hsim), (count_status_permutation st _ _ Hperm).
      unfold count_in. rewrite filter_cons, filter_nil. change (count_status st (w :: ?l)) with (has_status st w + count_status st l).
      unfold has_status. case_decide; cbn [length]; lia. }
    cbn [negb]. destruct (lm_owner s1) as [p|] eqn:Eo.
    + destruct (tail_ok s1 Hw1) as (b & s2 & -> & _ & Hs2 & s3 & Harm & Hs3). rewrite Harm.
      destruct b; cbn; (eexists _, _, _; split; [done|]); (eapply settles_step_ok; [eassumption | done | done]).
    + eexists _, _, _. split; [done|]. split_and!; [split; [done|] | done | done].
      unfold owner_ok in *. rewrite Eo. change (lm_owner s1) with (lm_owner s) in Eo. rewrite Eo in Ho.
      intros x Hx Ha. assert (x ∈ l') as Hx' by (rewrite Hperm; by apply elem_of_cons; right).
      destruct (similar_elem _ _ x Hsim Hx') as (y & Hy & [= _ _ ->] & Ey & _). apply Ho; [done|]. unfold alive in *. congruence.
  - cbn [negb]. eexists _, _, _. split; [done|]. apply step_ok_nil; [|done|].
    + split; [by eapply similar_ok | by apply (similar_owner l' s)].
    + intros st' _ _. unfold debt. cbn. by rewrite (similar_count st' _ _ Hsim).
Qed.

Lemma asserts_tail s s1 :
  lm_ok clock s → lm_asserts clock s s1 →
  ∃ b s2 s3, calculate_next clock (lm_cancel_timer s1) = (b, s2) ∧ arm_timer clock s2 = Some s3 ∧
    step_ok s [] s2 ∧ step_ok s [] s3.
Proof.
  intros [Hw Ho] Ha. pose proof (frame_cancel s1) as Hf. pose proof (as_ok _ _ _ Ha Hw) as Hw1.
  destruct (tail_ok (lm_cancel_timer s1)) as (b & s2 & E & Hs2 & _ & s3 & Harm & Hs3).
  { unfold lm_items. rewrite (fr_writers _ _ Hf). eapply writers_ok_later; [apply (fr_readings _ _ Hf) | done]. }
  exists b, s2, s3. split_and!; [done | done | |]; (eapply settles_step_ok; [eassumption | |]).
  1, 3: by rewrite (fr_callback _ _ Hf), (as_callback _ _ _ Ha).
  all: intros st Hst Hc; rewrite (frame_debt st _ _ Hf), (as_debt _ _ _ Ha) by done; replace (count_in st []) with 0 by done; lia.
Qed.

Lemma find_writer_spec guid kind lease l i :
  find_writer guid kind lease l = Some i → ∃ w, l !! i = Some w ∧ ld_matches guid kind lease w = true.
Proof.
  revert i. induction l as [|w l IH]; intros i; cbn; [done|]. destruct (ld_matches _ _ _ w) eqn:E.
  - intros [= <-]. by exists w.
  - intros (j & Hj & ->)%fmap_Some. by apply IH.
Qed.

Lemma assert_liveliness_ok guid kind lease s :
  lm_ok clock s → ∃ b s', assert_liveliness clock guid kind lease s = Some (b, s') ∧ step_ok s [] s'.
Proof.
  intros Hok. unfold assert_liveliness. destruct (find_writer _ _ _ _) as [i|] eqn:Ef;
    [|exists false, s; split; [done|]; by apply step_ok_nil].
  apply find_writer_spec in Ef as (w & Hi & _). set (s1 := match kind with MANUAL_BY_TOPIC_LIVELINESS => lm_assert_writer_liveliness clock s i
                       | _ => assert_participant clock kind (guidPrefix guid) s end).
  assert (lm_asserts clock s s1) as Ha.
  { destruct kind; [apply assert_participant_spec.. | by eapply assert_writer_spec]. }
  destruct (asserts_tail s s1 Hok Ha) as (b & s2 & s3 & -> & Harm & H2 & H3). rewrite Harm.
  destruct b; cbn; by eexists _, _.
Qed.

Lemma assert_liveliness_kind_ok kind prefix s :
  lm_ok clock s → ∃ b s', assert_liveliness_kind clock kind prefix s = Some (b, s') ∧ step_ok s [] s'.
Proof.
  intros Hok. unfold assert_liveliness_kind. destruct (_ && _); [exists false, s; split; [done|]; by apply step_ok_nil|].
  destruct (lm_items s) eqn:El; [exists true, s; split; [done|]; by apply step_ok_nil|].
  destruct (asserts_tail s (assert_participant clock kind prefix s) Hok) as (b & s2 & s3 & -> & Harm & H2 & H3);
    [apply assert_participant_spec|]. rewrite Harm. destruct b; cbn; by eexists _, _.
Qed.

(** The owner of the timer loses its liveliness. *)
Lemma timer_expired_spec s p w :
  lm_ok clock s → lm_owner s = Some p → lm_deref p s = Some (p.2, w) → lm_items s !! p.2 = Some w → alive w →
  ∃ b s', timer_expired clock s = Some (b, s') ∧ step_ok s [] s' ∧
    lm_items s' = <[p.2 := ld_set_status NOT_ALIVE w]> (lm_items s).
Proof.
  intros [Hw Ho] E Hdr Hi Hal. unfold timer_expired, expire_region. rewrite E, Hdr. cbn -[lm_report].
  set (s1 := lm_set_items _ s). set (s2 := lm_report w (-1) 1 s1).
  assert (lm_items s2 = <[p.2 := ld_set_status NOT_ALIVE w]> (lm_items s) ∧ lm_readings s2 = lm_readings s ∧
          lm_callback s2 = lm_callback s) as (Ei & Er & Ec).
  { unfold s2, lm_report. cbn. destruct (lm_callback s) eqn:Ec; by rewrite ?Ec. }
  assert (writers_ok clock (lm_readings s2) (lm_items s2)) as Hw2.
  { rewrite Ei, Er. by eapply writers_ok_insert. }
  assert (∀ st, st ≠ NOT_ASSERTED → lm_callback s = true → debt st s2 = debt st s + count_in st []) as Hd2.
  { intros st Hst Hc. unfold debt. rewrite Ei, (count_status_insert st _ _ w) by done.
    unfold s2, lm_report. cbn. rewrite Hc. cbn. rewrite sum_changes_app, sum_changes_one.
    replace (count_in st []) with 0 by done. unfold has_status. cbn. unfold alive in Hal. rewrite Hal.
    destruct st; [done|..]; repeat case_decide; try done; cbn [change_of]; lia. }
  destruct (tail_ok s2 Hw2) as (b & s3 & -> & Hs3 & _). destruct Hs3 as (Hok3 & Ew3 & Ec3 & Hd3).
  assert (step_ok s [] s3 ∧ lm_items s3 = lm_items s2) as [Hst3 Ei3].
  { split; [eapply settles_step_ok; [split_and!; eassumption | done | done] | unfold lm_items; by rewrite Ew3]. }
  destruct b; cbn; [|eexists _, _; split_and!; [done | done | congruence]].
  destruct (lm_owner s3) as [q|] eqn:Eq; [|eexists _, _; split_and!; [done | done | congruence]].
  destruct (owner_deref s3 q (proj2 Hok3) Eq) as (w' & -> & _). cbn. eexists _, _. split; [done|].
  split; [|by rewrite <- Ei, <- Ei3]. pose proof (frame_interval clock w' s3) as Hf.
  split_and!; [by eapply frame_ok | | ]; [cbn; congruence |]. intros st Hst Hc. rewrite (frame_debt st _ _ Hf). by apply Hst3.
Qed.

Lemma timer_expired_ok s : lm_ok clock s → ∃ b s', timer_expired clock s = Some (b, s') ∧ step_ok s [] s'.
Proof.
  intros Hok. destruct (lm_owner s) as [p|] eqn:E.
  - destruct (owner_deref s p (proj2 Hok) E) as (w & Hdr & Hi & Hal & _).
    destruct (timer_expired_spec s p w Hok E Hdr Hi Hal) as (b & s' & -> & Hs & _). by eexists _, _.
  - unfold timer_expired, expire_region. rewrite E. cbn. eexists _, _. split; [done|]. by apply step_ok_nil.
Qed.

Lemma step_ok_frame s gone s1 s2 : step_ok s gone s1 → lm_frame s1 s2 → step_ok s gone s2.
Proof.
  intros (Hok & Ec & Hd) Hf. split_and!; [by eapply frame_ok | by rewrite (fr_callback _ _ Hf)|].
  intros st Hst Hc. rewrite (frame_debt st _ _ Hf). by apply Hd.
Qed.

Lemma frame_step_ok s s' : lm_ok clock s → lm_frame s s' → step_ok s [] s'.
Proof. intros Hok Hf. eapply step_ok_frame; [by apply step_ok_nil | done]. Qed.

Lemma step_ok_trans s1 s2 s3 gone gone' : step_ok s1 gone s2 → step_ok s2 gone' s3 → step_ok s1 (gone ++ gone') s3.
Proof.
  intros (_ & Ec & Hd) (Hok & Ec' & Hd'). split_and!; [done | congruence |]. intros st Hst Hc.
  rewrite Hd', Hd by congruence. unfold count_in. rewrite filter_app, length_app. lia.
Qed.

Lemma lm_trigger_ok now cancel s : lm_ok clock s → ∃ s', lm_trigger clock now cancel s = Some s' ∧ step_ok s [] s'.
Proof.
  intros Hok. unfold lm_trigger. case_decide.
  - set (s0 := lm_set_timer _ s). pose proof (frame_step_ok s s0 Hok (frame_timer _ s)) as H0.
    destruct (timer_expired_ok s0 (proj1 H0)) as (b & s' & -> & Hs). cbn. eexists. split; [done|].
    eapply step_ok_frame; [exact (step_ok_trans _ _ _ _ _ H0 Hs) | apply frame_timer].
  - eexists. split; [done|]. apply frame_step_ok; [done | apply frame_timer].
Qed.

Lemma lm_exec_ok op s :
  lm_ok clock s → op_valid op → ∃ gone s', lm_exec clock op s = Some (gone, s') ∧ step_ok s gone s'.
Proof.
  intros Hok Hv. destruct op as [guid kind lease|guid kind lease st|guid kind lease|kind prefix|now cancel|now cancel]; cbn.
  - destruct Hv. destruct (add_writer_ok guid kind lease s) as (b & s' & -> & ?); [done..|]. by eexists _, _.
  - destruct (remove_writer_ok guid kind lease st s Hok) as (b & st' & s' & -> & ?). by eexists _, _.
  - destruct (assert_liveliness_ok guid kind lease s Hok) as (b & s' & -> & ?). by eexists _, _.
  - destruct (assert_liveliness_kind_ok kind prefix s Hok) as (b & s' & -> & ?). by eexists _, _.
  - eexists _, _. split; [done|]. apply frame_step_ok; [done | apply frame_timer].
  - destruct (lm_trigger_ok now cancel s Hok) as (s' & -> & ?). by eexists _, _.
Qed.

Lemma lm_run_ok ops s :
  lm_ok clock s → Forall op_valid ops → ∃ gone s', lm_run clock ops s = Some (gone, s') ∧ step_ok s gone s'.
Proof.
  revert s. induction ops as [|op ops IH]; intros s Hok Hv; cbn [lm_run].
  - eexists _, _. split; [done|]. by apply step_ok_nil.
  - apply Forall_cons in Hv as [Hv Hvs]. destruct (lm_exec_ok op s Hok Hv) as (gone & s1 & -> & H1). cbn.
    destruct (IH s1 (proj1 H1) Hvs) as (gone' & s2 & -> & H2). cbn. eexists _, _. split; [done|]. by eapply step_ok_trans.
Qed.

Lemma lm_make_ok callback automatic now : lm_ok clock (lm_make callback automatic now).
Proof.
  split; [constructor|]; cbn; [by intros w []%not_elem_of_nil | constructor | by intros w []%not_elem_of_nil..].
Qed.

(** ** The timer *)

(** [calculate_next] and [arm_timer] behind an event that is INACTIVE: the timer is READY, with
    the milliseconds that the owner has left. *)
Lemma calculate_next_timer s b s' : calculate_next clock s = (b, s') → lm_timer s' = lm_timer s.
Proof. unfold calculate_next. destruct (next_loop _ _ _ _ _) as [[? ?] ?]. by intros [= _ <-]. Qed.

Lemma arm_timer_sets s s' p w :
  arm_timer clock s = Some s' → lm_owner s = Some p → lm_deref p s = Some (p.2, w) →
  te_interval (lm_timer s') = Z.quot (ld_time w - clock (lm_readings s)) 1000000 * 1000 ∧
  te_next (lm_timer s') = te_next (lm_timer s) ∧
  te_state (lm_timer s') = (if decide (te_state (lm_timer s) = INACTIVE) then READY else te_state (lm_timer s)) ∧
  lm_readings s' = S (lm_readings s) ∧ lm_writers s' = lm_writers s ∧ lm_owner s' = lm_owner s.
Proof.
  intros E Eo Hdr. unfold arm_timer in E. rewrite Eo, Hdr in E. cbn -[lm_restart_timer lm_update_interval] in E. injection E as <-.
  unfold lm_restart_timer, te_restart_timer, te_go_ready. cbn. unfold lm_now. case_decide as Hst; cbn; done.
Qed.

(** ** One entry per key *)

Lemma key_unique l i j w w' :
  NoDup (ld_key <$> l) → l !! i = Some w → l !! j = Some w' → ld_key w = ld_key w' → i = j.
Proof.
  intros Hk Hi Hj E. eapply NoDup_lookup; [exact Hk | by rewrite list_lookup_fmap, Hi | ].
  by rewrite list_lookup_fmap, Hj, E.
Qed.

Lemma find_writer_key guid kind lease l i w :
  (∀ x, x ∈ l → guid_ok (ld_guid x) ∧ lease_ok (ld_lease x)) → NoDup (ld_key <$> l) →
  l !! i = Some w → ld_key w = (guid, kind, lease) → find_writer guid kind lease l = Some i.
Proof.
  intros Hd Hk Hi E. assert (guid_ok guid) as Hg.
  { injection E as <- _ _. by eapply Hd, list_elem_of_lookup_2. }
  destruct (find_writer guid kind lease l) as [j|] eqn:Ef.
  - apply find_writer_spec in Ef as (w' & Hj & Hm). f_equal. eapply key_unique; [exact Hk | exact Hj | exact Hi |].
    rewrite E. apply ld_matches_spec; [done | by eapply Hd, list_elem_of_lookup_2 | done].
  - exfalso. assert (ld_matches guid kind lease w = true) as Hm.
    { apply ld_matches_spec; [done | by eapply Hd, list_elem_of_lookup_2 | done]. }
    revert i Hi Ef. clear Hd Hk. induction l as [|x l IH]; intros [|i] Hi Ef; cbn in *; try done.
    + injection Hi as ->. by rewrite Hm in Ef.
    + destruct (ld_matches _ _ _ x); [done|]. apply fmap_None in Ef. by eapply IH.
Qed.

(** ** Which writers an assertion concerns *)

Definition concerned (kind : LivelinessKind) (guid : GUID_t) (i : nat) (j : nat) (w : LivelinessData) : bool :=
  match kind with
  | MANUAL_BY_TOPIC_LIVELINESS => Nat.eqb i j
  | _ => of_participant kind (guidPrefix guid) w
  end.

Lemma assertion_spec guid kind lease s i w0 :
  lm_ok clock s → lm_items s !! i = Some w0 → ld_key w0 = (guid, kind, lease) →
  ∃ s1 s2 s3, calculate_next clock (lm_cancel_timer s1) = (true, s2) ∧ arm_timer clock s2 = Some s3 ∧
    assert_liveliness clock guid kind lease s = Some (true, s3) ∧ lm_ok clock s2 ∧ lm_ok clock s3 ∧
    lm_writers s3 = lm_writers s1 ∧ lm_writers s2 = lm_writers s1 ∧ (lm_readings s1 <= lm_readings s3)%nat ∧
    ∀ j w, lm_items s !! j = Some w →
      if concerned kind guid i j w
      then ∃ k, (lm_readings s <= k < lm_readings s1)%nat ∧ lm_items s1 !! j = Some (asserted clock k w)
      else lm_items s1 !! j = Some w.
Proof.
  intros Hok Hi Ek. pose proof Hok as [Hw _]. unfold assert_liveliness.
  rewrite (find_writer_key guid kind lease (lm_items s) i w0) by (done || apply Hw).
  set (s1 := match kind with MANUAL_BY_TOPIC_LIVELINESS => lm_assert_writer_liveliness clock s i
                       | _ => assert_participant clock kind (guidPrefix guid) s end).
  assert (lm_asserts clock s s1 ∧ ∀ j w, lm_items s !! j = Some w →
      if concerned kind guid i j w
      then ∃ k, (lm_readings s <= k < lm_readings s1)%nat ∧ lm_items s1 !! j = Some (asserted clock k w)
      else lm_items s1 !! j = Some w) as [Ha Hj].
  { unfold s1. destruct kind; [apply assert_participant_spec..|].
    destruct (assert_writer_spec clock s i w0 Hi) as (Ha & Ei & Er). split; [done|]. intros j w Hj. cbn.
    rewrite Ei, Er. destruct (Nat.eqb_spec i j) as [<-|Hne].
    - exists (lm_readings s). split; [lia|]. assert (w = w0) as -> by congruence.
      apply list_lookup_insert_eq. by eapply lookup_lt_Some.
    - by rewrite list_lookup_insert_ne. }
  assert (concerned kind guid i i w0 = true) as Hc.
  { injection Ek as <- <- _. unfold concerned, of_participant. rewrite bool_decide_eq_true_2 by done.
    destruct (ld_kind w0); [| |apply Nat.eqb_refl]; apply pfx_eqb_eq; try done;
      apply (wok_data _ _ _ Hw w0); by eapply list_elem_of_lookup_2. }
  pose proof (Hj i w0 Hi) as Hi1. rewrite Hc in Hi1. destruct Hi1 as (k0 & _ & Hi1).
  pose proof (frame_cancel s1) as Hf. pose proof (as_ok _ _ _ Ha Hw) as Hw1.
  assert (writers_ok clock (lm_readings (lm_cancel_timer s1)) (lm_items (lm_cancel_timer s1))) as Hw1'.
  { unfold lm_items. rewrite (fr_writers _ _ Hf). eapply writers_ok_later; [apply (fr_readings _ _ Hf) | done]. }
  pose proof (calculate_next_spec clock clock_mono (lm_cancel_timer s1) Hw1') as Hcalc.
  destruct (calculate_next clock (lm_cancel_timer s1)) as [b s2] eqn:Ecalc. destruct Hcalc as (Hb & Hok2 & E2).
  assert (b = true) as ->.
  { apply Hb. exists (asserted clock k0 w0). split; [|done]. unfold lm_items. rewrite (fr_writers _ _ Hf).
    by eapply list_elem_of_lookup_2. }
  destruct (arm_timer_spec clock s2 (proj2 Hok2)) as (s3 & Harm & Hf3).
  assert (lm_writers s2 = lm_writers s1) as Ew2 by (rewrite E2; exact (fr_writers _ _ Hf)).
  exists s1, s2, s3. rewrite Harm. cbn. split_and!; try done.
  - by eapply frame_ok.
  - by rewrite (fr_writers _ _ Hf3).
  - pose proof (fr_readings _ _ Hf3). pose proof (fr_readings _ _ Hf).
    assert (lm_readings s2 = S (lm_readings (lm_cancel_timer s1))) by (by rewrite E2). lia.
Qed.
End Clock.

(** ** The properties *)

(** The steady clock does not go back. *)
Definition steady (clock : nat → Z) : Prop := ∀ i j, (i <= j)%nat → clock i <= clock j.

(** C15. The reports add up. After any sequence of additions, removals, assertions and expirations of the
    timer, one after the other (so that none of them follows an invalid pointer; the timer may also
    expire inside of [add_writer], which is [timer_expires_while_adding]), the changes reported to the
    callback sum up to the number of live and of lost writers, counting among them each removed writer
    with the status it had; and there is one entry per writer, kind and lease. *)
Theorem liveliness_changes_add_up clock automatic now ops :
  steady clock → Forall op_valid ops →
  ∃ gone s, lm_run clock ops (lm_make true automatic now) = Some (gone, s) ∧
    sum_changes ALIVE (lm_log s) = count_status ALIVE (lm_items s) + count_in ALIVE gone ∧
    sum_changes NOT_ALIVE (lm_log s) = count_status NOT_ALIVE (lm_items s) + count_in NOT_ALIVE gone ∧
    NoDup (ld_key <$> lm_items s).
Proof.
  intros Hc Hv. destruct (lm_run_ok clock Hc ops _ (lm_make_ok clock true automatic now) Hv) as (gone & s & E & [Hw _] & _ & Hd).
  exists gone, s. split; [done|]. pose proof (Hd ALIVE ltac:(done) eq_refl) as H1. pose proof (Hd NOT_ALIVE ltac:(done) eq_refl) as H2.
  unfold debt in H1, H2. cbn in H1, H2.
  split_and!; [|  | apply Hw]; change (sum_changes ?st []) with 0 in *; change (count_status ?st []) with 0 in *; lia.
Qed.

Definition ex_clock (n : nat) : Z := Z.of_nat n * 1000.

Lemma ex_clock_steady : steady ex_clock.
Proof. intros i j H. unfold ex_clock. lia. Qed.

Definition ex_writer (n : Z) : GUID_t := Guid (GuidPrefix (replicate 12 1)) (EntityId [0; 0; n; 2]).

(** Two writers of one participant with leases of half a second and of a second. *)
Definition ex_two : list LivelinessOp :=
  [OpAdd (ex_writer 1) AUTOMATIC_LIVELINESS (Duration 0 500000000);
   OpAdd (ex_writer 2) AUTOMATIC_LIVELINESS (Duration 1 0);
   OpAssert (ex_writer 1) AUTOMATIC_LIVELINESS (Duration 0 500000000);
   OpUpdate 10000 86400000010000].

Lemma ex_two_valid : Forall op_valid ex_two.
Proof.
  repeat constructor; cbn; try done; unfold is_u8, is_u32; lia.
Qed.

Definition ex_state (clock : nat → Z) (ops : list LivelinessOp) : LivelinessManager :=
  match lm_run clock ops (lm_make true true 0) with Some (_, s) => s | None => lm_make true true 0 end.

Lemma liveliness_changes_add_up_witness :
  sum_changes ALIVE (lm_log (ex_state ex_clock (ex_two ++ [OpTrigger 510000000 86400510000000]))) = 1 ∧
  ∃ gone s, lm_run ex_clock (ex_two ++ [OpTrigger 510000000 86400510000000]) (lm_make true true 0) = Some (gone, s) ∧
    sum_changes NOT_ALIVE (lm_log s) = count_status NOT_ALIVE (lm_items s) + count_in NOT_ALIVE gone.
Proof.
  split; [vm_compute; reflexivity|].
  destruct (liveliness_changes_add_up ex_clock true 0 (ex_two ++ [OpTrigger 510000000 86400510000000])) as (gone & s & E & _ & H & _).
  - apply ex_clock_steady.
  - apply Forall_app. split; [apply ex_two_valid | by repeat constructor].
  - by exists gone, s.
Defined.

(** C16. The timer belongs to the writer that loses its liveliness first. After any sequence of
    operations the owner of the timer is a live entry of the current vector and no live writer
    has an earlier time; without an owner the live writers have an infinite lease. The time of a
    live writer is that of its last assertion plus the lease. *)
Theorem timer_owner_is_next clock callback automatic now ops :
  steady clock → Forall op_valid ops →
  ∃ gone s, lm_run clock ops (lm_make callback automatic now) = Some (gone, s) ∧
    (∀ w, w ∈ lm_items s → ld_status w = ALIVE →
       ∃ k, (k < lm_readings s)%nat ∧ ld_time w = clock k + dur_to_ns (ld_lease w)) ∧
    match lm_owner s with
    | Some p => ∃ w, lm_deref p s = Some (p.2, w) ∧ ld_status w = ALIVE ∧
                  ∀ w', w' ∈ lm_items s → ld_status w' = ALIVE → ld_time w <= ld_time w'
    | None => ∀ w, w ∈ lm_items s → ld_status w = ALIVE → dur_to_ns (ld_lease w) = dur_to_ns c_TimeInfinite
    end.
Proof.
  intros Hc Hv. destruct (lm_run_ok clock Hc ops _ (lm_make_ok clock callback automatic now) Hv) as (gone & s & E & [Hw Ho] & _).
  exists gone, s. split_and!; [done | apply Hw|]. destruct (lm_owner s) as [p|] eqn:Eo.
  - destruct (owner_deref s p Ho Eo) as (w & ? & ? & ? & ?). eauto.
  - unfold owner_ok in Ho. by rewrite Eo in Ho.
Qed.

Lemma timer_owner_is_next_witness :
  lm_owner (ex_state ex_clock ex_two) = Some (2%nat, 0%nat) ∧
  ∃ gone s, lm_run ex_clock ex_two (lm_make true true 0) = Some (gone, s).
Proof.
  split; [vm_compute; reflexivity|].
  destruct (timer_owner_is_next ex_clock true true 0 ex_two ex_clock_steady ex_two_valid) as (gone & s & E & _).
  by exists gone, s.
Defined.

(** C17. An assertion revives exactly the writers it concerns, and sets the timer to the
    millisecond. Asserting a writer that the manager has makes alive, with a fresh time, that
    writer only if its liveliness is by topic, and all the writers of its participant with its
    kind otherwise; the other entries stay as they are. When the event thread takes up the timer
    after the last reading of the clock, it will trigger within the millisecond before the
    time of the first writer to lose its liveliness, later by as much as it was taken up later. *)
Theorem assertion_revives_exactly clock callback automatic now ops gone s guid kind lease i w0 :
  steady clock → Forall op_valid ops → lm_run clock ops (lm_make callback automatic now) = Some (gone, s) →
  lm_items s !! i = Some w0 → ld_key w0 = (guid, kind, lease) →
  ∃ s', assert_liveliness clock guid kind lease s = Some (true, s') ∧
    (∀ j w, lm_items s !! j = Some w →
       if concerned kind guid i j w
       then ∃ k, (lm_readings s <= k < lm_readings s')%nat ∧ lm_items s' !! j = Some (asserted clock k w)
       else lm_items s' !! j = Some w) ∧
    ∀ p w current cancel, lm_owner s' = Some p → lm_items s' !! p.2 = Some w →
      let t := clock (Nat.pred (lm_readings s')) in
      t <= ld_time w →
      te_state (lm_timer (lm_update current cancel s')) = WAITING ∧
      ld_time w + (current - t) - 1000000 < te_next (lm_timer (lm_update current cancel s')) <= ld_time w + (current - t).
Proof.
  intros Hc Hv E Hi Ek.
  destruct (lm_run_ok clock Hc ops _ (lm_make_ok clock callback automatic now) Hv) as (gone' & s0 & E' & Hst).
  assert (s0 = s) as -> by congruence.
  destruct (assertion_spec clock Hc guid kind lease s i w0 (proj1 Hst) Hi Ek)
    as (s1 & s2 & s3 & Ecalc & Harm & Ea & Hok2 & Hok3 & Ew3 & Ew2 & Hr & Hj).
  exists s3. split; [done|]. split.
  { intros j w Hjw. specialize (Hj j w Hjw). assert (lm_items s3 = lm_items s1) as -> by (unfold lm_items; by rewrite Ew3).
    destruct (concerned kind guid i j w); [|done]. destruct Hj as (k & ? & ?). exists k. split; [lia | done]. }
  intros p w current cancel Hp Hw t Ht. destruct (arm_timer_spec clock s2 (proj2 Hok2)) as (s3' & Harm' & Hf).
  assert (s3' = s3) as -> by congruence. pose proof (fr_owner _ _ Hf) as Eo. rewrite Hp in Eo. symmetry in Eo.
  destruct (owner_deref s2 p (proj2 Hok2) Eo) as (w' & Hdr & Hw' & _).
  destruct (arm_timer_sets clock s2 s3 p w' Harm Eo Hdr) as (Ei & _ & Est & Er & Ewr & _).
  assert (w' = w) as -> by (unfold lm_items in Hw, Hw'; rewrite Ewr in Hw; congruence).
  assert (te_state (lm_timer s2) = INACTIVE) as Hin.
  { rewrite (calculate_next_timer clock _ _ _ Ecalc). unfold lm_cancel_timer, te_cancel_timer, te_go_cancel. done. }
  rewrite Hin, decide_True in Est by done. unfold lm_update, te_update. rewrite decide_True by done. cbn. split; [done|].
  rewrite Ei. unfold t in *. rewrite Er in *. cbn [Nat.pred] in *.
  pose proof (Z.quot_rem' (ld_time w - clock (lm_readings s2)) 1000000).
  pose proof (Z.rem_bound_pos (ld_time w - clock (lm_readings s2)) 1000000 ltac:(lia) ltac:(lia)). lia.
Qed.

Lemma assertion_revives_exactly_witness :
  ∃ s', assert_liveliness ex_clock (ex_writer 1) AUTOMATIC_LIVELINESS (Duration 0 500000000)
          (ex_state ex_clock (take 2 ex_two)) = Some (true, s') ∧
    ∃ k, lm_items s' !! 1%nat = Some (asserted ex_clock k (ld_make (ex_writer 2) AUTOMATIC_LIVELINESS (Duration 1 0))).
Proof.
  destruct (assertion_revives_exactly ex_clock true true 0 (take 2 ex_two) [] (ex_state ex_clock (take 2 ex_two))
              (ex_writer 1) AUTOMATIC_LIVELINESS (Duration 0 500000000) 0
              (ld_make (ex_writer 1) AUTOMATIC_LIVELINESS (Duration 0 500000000))) as (s' & E & Hj & _).
  - apply ex_clock_steady.
  - apply Forall_take, ex_two_valid.
  - vm_compute. reflexivity.
  - vm_compute. reflexivity.
  - reflexivity.
  - exists s'. split; [done|].
    specialize (Hj 1%nat (ld_make (ex_writer 2) AUTOMATIC_LIVELINESS (Duration 1 0)) ltac:(vm_compute; reflexivity)).
    change (concerned _ _ _ _ _) with true in Hj. cbv iota in Hj. destruct Hj as (k & _ & Hk). by exists k.
Defined.

(** When a removal leaves an owner behind, the timer that was waiting still waits for the time it
    had. *)
Lemma removal_keeps_deadline clock guid kind lease st0 s st s' p' :
  steady clock → lm_ok clock s → te_state (lm_timer s) = WAITING →
  lm_remove_writer clock guid kind lease st0 s = Some (true, st, s') → lm_owner s' = Some p' →
  te_state (lm_timer s') = WAITING ∧ te_next (lm_timer s') = te_next (lm_timer s).
Proof.
  intros Hc Hok Hwt E Hp. pose proof (remove_writer_ok clock Hc guid kind lease st0 s Hok) as Hr.
  rewrite E in Hr. destruct Hr as (rm & st1 & s1' & [= <- <- <-] & Hok' & _). revert E. unfold lm_remove_writer.
  destruct (remove_if _ _ _) as [[removed st2] v]. set (s1 := lm_set_writers v s). destruct removed; cbn [negb]; [|done].
  destruct (lm_owner s1) as [q|] eqn:Eq; [|intros [= _ <-]; congruence].
  destruct (calculate_next clock s1) as [b s2] eqn:Ec. pose proof (calculate_next_timer clock _ _ _ Ec) as Et.
  assert (lm_writers s2 = lm_writers s1 ∧ (b = false → lm_owner s2 = None)) as [Ew2 Hb2].
  { revert Ec. unfold calculate_next. pose proof (next_loop_spec (lm_items s1) 0 (lm_now clock s1 + dur_to_ns c_TimeInfinite) None false) as Hl.
    destruct (next_loop _ _ _ _ _) as [[m o] any]. destruct Hl as [Hany Hl]. intros [= <- <-]. split; [done|]. intros ->. cbn.
    destruct Hl as [(_ & -> & _)|(j & w & _ & Hj & Ha & _)]; [done|]. exfalso.
    apply eq_true_false_abs with (b := false); [|done]. apply Hany. right. exists w. split; [by eapply list_elem_of_lookup_2 | done]. }
  destruct b; cbn [negb].
  - intros (s3 & Harm & [= _ <-])%bind_Some. unfold arm_timer in Harm. destruct (lm_owner s2) as [p|] eqn:Eo.
    + apply bind_Some in Harm as ([k w] & Hdr & [= <-]).
      unfold lm_restart_timer, te_restart_timer, te_go_ready. cbn. rewrite Et. cbn. by rewrite decide_False by (cbn; congruence).
    + injection Harm as <-. congruence.
  - intros [= _ <-]. unfold lm_cancel_timer in Hp. cbn in Hp. rewrite Hb2 in Hp by done. done.
Qed.

(** A removed writer leaves its deadline behind. When the owner of the waiting timer is removed and
    another writer becomes the owner, the timer is not set anew: [restart_timer] has no effect on
    a timer that waits. It is triggered at the old time, and the new owner, whose lease still
    runs, is declared not alive. *)
Theorem removal_leaves_old_deadline clock callback automatic now ops gone s guid kind lease st0 st s' p' w' cancel :
  steady clock → Forall op_valid ops → lm_run clock ops (lm_make callback automatic now) = Some (gone, s) →
  te_state (lm_timer s) = WAITING → lm_remove_writer clock guid kind lease st0 s = Some (true, st, s') →
  lm_owner s' = Some p' → lm_items s' !! p'.2 = Some w' → te_next (lm_timer s) < ld_time w' →
  te_next (lm_timer s') = te_next (lm_timer s) ∧
  ∃ s'', lm_trigger clock (te_next (lm_timer s')) cancel s' = Some s'' ∧
    lm_items s'' !! p'.2 = Some (ld_set_status NOT_ALIVE w') ∧ te_next (lm_timer s') < ld_time w'.
Proof.
  intros Hc Hv E Hwt Hrm Hp Hw' Hlt.
  destruct (lm_run_ok clock Hc ops _ (lm_make_ok clock callback automatic now) Hv) as (gone' & s0 & E' & Hok & _).
  assert (s0 = s) as -> by congruence.
  destruct (removal_keeps_deadline clock guid kind lease st0 s st s' p' Hc Hok Hwt Hrm Hp) as [Hwt' En]. split; [done|].
  pose proof (remove_writer_ok clock Hc guid kind lease st0 s Hok) as Hr.
  rewrite Hrm in Hr. destruct Hr as (rm & st1 & s1' & [= <- <- <-] & Hok' & _).
  destruct (owner_deref s' p' (proj2 Hok') Hp) as (w & Hdr & Hi & Ha & _). assert (w = w') as -> by congruence.
  unfold lm_trigger. rewrite decide_True by done. set (s0 := lm_set_timer _ s').
  destruct (timer_expired_spec clock Hc s0 p' w') as (b & s2 & E2 & _ & Ei); [by eapply frame_ok, Hok'; apply frame_timer | done..|].
  rewrite E2. cbn. eexists. split; [done|]. split; [|lia]. unfold lm_items in *. cbn. rewrite Ei.
  apply list_lookup_insert_eq. by eapply lookup_lt_Some.
Qed.

Lemma removal_leaves_old_deadline_witness :
  ∃ st s' s'', lm_remove_writer ex_clock (ex_writer 1) AUTOMATIC_LIVELINESS (Duration 0 500000000) NOT_ASSERTED
                 (ex_state ex_clock ex_two) = Some (true, st, s') ∧
    lm_trigger ex_clock (te_next (lm_timer s')) 0 s' = Some s'' ∧
    te_next (lm_timer s') = 500010000 - 1000000 ∧
    ((λ w, (ld_status w, ld_time w)) <$> lm_items s'') = [(NOT_ALIVE, 1000003000)].
Proof.
  destruct (lm_remove_writer ex_clock (ex_writer 1) AUTOMATIC_LIVELINESS (Duration 0 500000000) NOT_ASSERTED
              (ex_state ex_clock ex_two)) as [[[[] st] s']|] eqn:E; [|vm_compute in E; discriminate..].
  assert (s' = ex_state ex_clock (ex_two ++ [OpRemove (ex_writer 1) AUTOMATIC_LIVELINESS (Duration 0 500000000) NOT_ASSERTED])) as Es.
  { vm_compute in E. vm_compute. congruence. }
  destruct (removal_leaves_old_deadline ex_clock true true 0 ex_two [] (ex_state ex_clock ex_two) (ex_writer 1)
              AUTOMATIC_LIVELINESS (Duration 0 500000000) NOT_ASSERTED st s' (2%nat, 0%nat)
              (asserted ex_clock 3 (ld_make (ex_writer 2) AUTOMATIC_LIVELINESS (Duration 1 0))) 0) as [_ (s'' & Ht & _)].
  - apply ex_clock_steady.
  - apply ex_two_valid.
  - vm_compute. reflexivity.
  - vm_compute. reflexivity.
  - exact E.
  - rewrite Es. vm_compute. reflexivity.
  - rewrite Es. vm_compute. reflexivity.
  - vm_compute. reflexivity.
  - exists st, s', s''. split; [done|]. split; [done|]. rewrite Es in *. split; [vm_compute; reflexivity|].
    vm_compute in Ht. injection Ht as <-. reflexivity.
Defined.

(** The timer may expire between the regions of [add_writer]. When the vector of writers is
    full, adding a writer moves the entries to new memory, and until [calculate_next] has run the
    owner points to the old one; [add_writer] releases its locks in between. A timer that expires
    there follows an invalid pointer. *)
Theorem timer_expires_while_adding clock guid kind lease s p :
  rlv_config (lm_writers s) = cfg_default → rlv_size (lm_writers s) = rlv_capacity (lm_writers s) →
  rlv_capacity (lm_writers s) < 2 ^ 62 → count_writer guid kind lease (lm_items s) = None →
  lm_owner s = Some p → p.1 = rlv_allocation (lm_writers s) →
  timer_expired clock (add_region guid kind lease s).2 = None.
Proof.
  intros Hcf Hfull Hsz Hnew Hp Ha. unfold add_region. rewrite Hnew. cbn [snd].
  destruct (emplace_back_moves (ld_make guid kind lease) (lm_writers s)) as [_ Eal].
  - unfold rlv_ok. rewrite Hcf, Hfull. cbn. assert (0 <= rlv_capacity (lm_writers s)) by (unfold rlv_size in Hfull; lia).
    split_and!; lia.
  - by rewrite Hcf.
  - done.
  - rewrite Hcf. cbn. lia.
  - unfold timer_expired, expire_region. cbn. rewrite Hp. unfold lm_deref. cbn. rewrite Eal, decide_False by lia. done.
Qed.

Lemma timer_expires_while_adding_witness :
  timer_expired ex_clock (add_region (ex_writer 3) AUTOMATIC_LIVELINESS (Duration 1 0) (ex_state ex_clock ex_two)).2 = None.
Proof.
  apply (timer_expires_while_adding ex_clock (ex_writer 3) AUTOMATIC_LIVELINESS (Duration 1 0) (ex_state ex_clock ex_two)
           (2%nat, 0%nat)); vm_compute; reflexivity.
Defined.

(** A writer that stays, because another reader still counts it, is reported with the status of
    the last entry of the vector. *)
Lemma kept_writer_reports_last clock guid kind lease st0 s st s' :
  lm_remove_writer clock guid kind lease st0 s = Some (false, st, s') → st = from_option ld_status st0 (last (lm_items s)).
Proof.
  unfold lm_remove_writer, remove_if. pose proof (remove_find_similar guid kind lease (lm_items s) st0) as Hf.
  unfold lm_items at 1 in Hf. destruct (find_if _ _ _) as [[[i|] l'] st1]; destruct Hf as [_ Hf]; cbn [negb].
  - destruct (lm_owner _); [|done]. destruct (calculate_next _ _) as [[] s2]; cbn; [|done]. by intros (s3 & _ & ?)%bind_Some.
  - by intros [= <- _].
Qed.
