(* ===== verification/TopicPayloadPool.v ===== *)
(** * The pool of payloads of a topic (src/cpp/rtps/history/TopicPayloadPool.cpp and
      TopicPayloadPool_impl)

    Payloads are nodes with a reference counter, their size and their index in
    the vector of all the payloads. A node is named by a number that stands for
    its address, a new one for every allocation. Holders of a payload share it by
    reference. The four policies differ in the size they ask for, in whether a
    recycled payload may be resized and in what they do with a payload that
    nobody refers to any longer.

    What the allocator answers is an argument: whether a node could be created
    and whether a buffer could be resized. The calls are steps of their own: a node
    between the free payloads and a holder is seen by one thread only. Of the
    descriptor of a payload the node and the size are kept. An access outside of a vector, or to a
    node that has been deleted, is no result. *)

From Stdlib Require Import ZArith Lia ZifyBool.
From stdpp Require Import base numbers option gmap list.
From S2P Require Import Prelude.

Open Scope Z_scope.

Inductive MemoryManagementPolicy_t :=
  | PREALLOCATED_MEMORY_MODE
  | PREALLOCATED_WITH_REALLOC_MEMORY_MODE
  | DYNAMIC_RESERVE_MEMORY_MODE
  | DYNAMIC_REUSABLE_MEMORY_MODE.

#[global] Instance MemoryManagementPolicy_eq_dec : EqDecision MemoryManagementPolicy_t.
Proof. solve_decision. Defined.

Record PoolConfig := PoolConfigMk { pc_initial_size : Z; pc_maximum_size : Z }.

Record PayloadNode := PayloadNodeMk {
  ref_counter : Z;
  data_size : Z;
  data_index : Z;
  node_data : list Z
}.

Definition pn_set_ref (n : Z) (x : PayloadNode) : PayloadNode :=
  PayloadNodeMk n (data_size x) (data_index x) (node_data x).
Definition pn_set_index (i : Z) (x : PayloadNode) : PayloadNode :=
  PayloadNodeMk (ref_counter x) (data_size x) i (node_data x).
Definition pn_set_data (l : list Z) (x : PayloadNode) : PayloadNode :=
  PayloadNodeMk (ref_counter x) (data_size x) (data_index x) l.

(** The constructor, with a zeroed buffer. *)
Definition pn_make (size : Z) : PayloadNode := PayloadNodeMk 0 size 0 (replicate (Z.to_nat size) 0).

(** [resize] when the allocator has the memory: the new octets are zero. *)
Definition pn_resize (size : Z) (x : PayloadNode) : PayloadNode :=
  PayloadNodeMk (ref_counter x) size (data_index x) (node_data x ++ replicate (Z.to_nat (size - data_size x)) 0).

Definition pn_reference (x : PayloadNode) : PayloadNode := pn_set_ref (u32 (ref_counter x + 1)) x.

(** [dereference]: whether it was the last reference. *)
Definition pn_dereference (x : PayloadNode) : bool * PayloadNode :=
  (ref_counter x =? 1, pn_set_ref (u32 (ref_counter x - 1)) x).

Record TopicPayloadPool := TopicPayloadPoolMk {
  tp_nodes : gmap nat PayloadNode;
  tp_all : list nat;
  tp_free : list nat;
  tp_max : Z;
  tp_infinite : Z;
  tp_finite_max : Z;
  tp_minimum : Z;
  tp_next : nat
}.

Definition tp_make : TopicPayloadPool := TopicPayloadPoolMk ∅ [] [] 0 0 0 0 0.

Definition tp_set (nodes : gmap nat PayloadNode) (all free : list nat) (p : TopicPayloadPool) : TopicPayloadPool :=
  TopicPayloadPoolMk nodes all free (tp_max p) (tp_infinite p) (tp_finite_max p) (tp_minimum p) (tp_next p).
Definition tp_set_minimum (n : Z) (p : TopicPayloadPool) : TopicPayloadPool :=
  TopicPayloadPoolMk (tp_nodes p) (tp_all p) (tp_free p) (tp_max p) (tp_infinite p) (tp_finite_max p) n (tp_next p).
Definition tp_set_sizes (max infinite finite_max : Z) (p : TopicPayloadPool) : TopicPayloadPool :=
  TopicPayloadPoolMk (tp_nodes p) (tp_all p) (tp_free p) max infinite finite_max (tp_minimum p) (tp_next p).

Definition tp_size (p : TopicPayloadPool) : Z := Z.of_nat (length (tp_all p)).

(** ** Allocation *)

Definition do_allocate (created : bool) (size : Z) (p : TopicPayloadPool) : option nat * TopicPayloadPool :=
  if created
  then let n := tp_next p in
       (Some n, TopicPayloadPoolMk (<[n := pn_set_index (u32 (tp_size p)) (pn_make size)]> (tp_nodes p))
                  (tp_all p ++ [n]) (tp_free p) (tp_max p) (tp_infinite p) (tp_finite_max p) (tp_minimum p) (S n))
  else (None, p).

Definition tp_allocate (created : bool) (size : Z) (p : TopicPayloadPool) : option nat * TopicPayloadPool :=
  if tp_size p >=? tp_max p then (None, p) else do_allocate created size p.

(** ** Getting a payload *)

(** The payload handed out: the node and its size. The inner [None] is the result [false]. *)
Definition do_get_payload (created resized : bool) (size : Z) (resizeable : bool) (p : TopicPayloadPool)
    : option (option (nat * Z) * TopicPayloadPool) :=
  let '(node, p1) := match last (tp_free p) with
                     | None => tp_allocate created size p
                     | Some n => (Some n, tp_set (tp_nodes p) (tp_all p) (take (length (tp_free p) - 1) (tp_free p)) p)
                     end in
  match node with
  | None => Some (None, p1)
  | Some n =>
      x ← tp_nodes p1 !! n;
      if resizeable && (size >? data_size x) && negb resized
      then Some (None, tp_set (tp_nodes p1) (tp_all p1) (tp_free p1 ++ [n]) p1)
      else
        let x := if resizeable && (size >? data_size x) then pn_resize size x else x in
        Some (Some (n, data_size x), tp_set (<[n := pn_reference x]> (tp_nodes p1)) (tp_all p1) (tp_free p1) p1)
  end.

Section Policy.
Context (policy : MemoryManagementPolicy_t) (payload_size : Z).

(** [get_payload(size, payload)] of the four policies. *)
Definition get_payload (created resized : bool) (size : Z) (p : TopicPayloadPool)
    : option (option (nat * Z) * TopicPayloadPool) :=
  match policy with
  | PREALLOCATED_MEMORY_MODE => do_get_payload created resized payload_size false p
  | PREALLOCATED_WITH_REALLOC_MEMORY_MODE => do_get_payload created resized (Z.max size payload_size) true p
  | DYNAMIC_RESERVE_MEMORY_MODE | DYNAMIC_REUSABLE_MEMORY_MODE => do_get_payload created resized size true p
  end.

(** The removal of a node from the vector of all the payloads: the last one takes its place. *)
Definition remove_node (n : nat) (p : TopicPayloadPool) : option TopicPayloadPool :=
  x ← tp_nodes p !! n;
  back ← last (tp_all p);
  y ← tp_nodes p !! back;
  if data_index x <? tp_size p
  then let all := <[Z.to_nat (data_index x) := back]> (tp_all p) in
       let nodes := <[back := pn_set_index (data_index x) y]> (tp_nodes p) in
       Some (tp_set (delete n nodes) (take (length all - 1) all) (tp_free p) p)
  else None.

(** [release_payload]; the fields of the payload are reset. *)
Definition release_payload (n : nat) (p : TopicPayloadPool) : option TopicPayloadPool :=
  x ← tp_nodes p !! n;
  let (was_last, x') := pn_dereference x in
  let p1 := tp_set (<[n := x']> (tp_nodes p)) (tp_all p) (tp_free p) p in
  if was_last
  then match policy with
       | DYNAMIC_RESERVE_MEMORY_MODE =>
           node ← tp_all p1 !! Z.to_nat (data_index x'); remove_node node p1
       | _ => node ← tp_all p1 !! Z.to_nat (data_index x');
              Some (tp_set (tp_nodes p1) (tp_all p1) (tp_free p1 ++ [node]) p1)
       end
  else Some p1.

(** [get_payload(data, payload)] of a payload that this pool owns. *)
Definition share_payload (n : nat) (p : TopicPayloadPool) : option ((nat * Z) * TopicPayloadPool) :=
  x ← tp_nodes p !! n;
  Some ((n, data_size x), tp_set (<[n := pn_reference x]> (tp_nodes p)) (tp_all p) (tp_free p) p).

(** [SerializedPayload_t::copy] within the limits: [false] when the data does not fit. *)
Definition payload_copy (data : list Z) (n : nat) (p : TopicPayloadPool) : option (bool * TopicPayloadPool) :=
  x ← tp_nodes p !! n;
  if Z.of_nat (length data) >? data_size x then Some (false, p)
  else Some (true, tp_set (<[n := pn_set_data (data ++ drop (length data) (node_data x)) x]> (tp_nodes p))
                     (tp_all p) (tp_free p) p).

(** [get_payload(data, payload)] of the data of another owner. *)
Definition copy_payload (created resized : bool) (data : list Z) (p : TopicPayloadPool)
    : option (option (nat * Z) * TopicPayloadPool) :=
  '(got, p1) ← get_payload created resized (Z.of_nat (length data)) p;
  match got with
  | None => Some (None, p1)
  | Some (n, size) =>
      '(copied, p2) ← payload_copy data n p1;
      if copied : bool then Some (Some (n, size), p2)
      else p3 ← release_payload n p2; Some (None, p3)
  end.

(** ** Histories *)

Definition update_maximum_size (cfg : PoolConfig) (is_reserve : bool) (p : TopicPayloadPool) : TopicPayloadPool :=
  if is_reserve then
    if pc_maximum_size cfg =? 0
    then tp_set_sizes (2 ^ 32 - 1) (u32 (tp_infinite p + 1)) (tp_finite_max p) p
    else let finite := u32 (tp_finite_max p + Z.max (pc_initial_size cfg) (pc_maximum_size cfg)) in
         tp_set_sizes (if tp_infinite p =? 0 then finite else tp_max p) (tp_infinite p) finite p
  else
    let p1 := if pc_maximum_size cfg =? 0
              then tp_set_sizes (tp_max p) (u32 (tp_infinite p - 1)) (tp_finite_max p) p
              else tp_set_sizes (tp_max p) (tp_infinite p)
                     (u32 (tp_finite_max p - Z.max (pc_initial_size cfg) (pc_maximum_size cfg))) p in
    if tp_infinite p1 =? 0 then tp_set_sizes (tp_finite_max p1) (tp_infinite p1) (tp_finite_max p1) p1 else p1.

(** The loop of [reserve]; [created] has an answer for each allocation. *)
Fixpoint tp_reserve (created : list bool) (size : Z) (p : TopicPayloadPool) : TopicPayloadPool :=
  match created with
  | [] => p
  | b :: created' =>
      let '(node, p1) := do_allocate b size p in
      tp_reserve created' size match node with
                               | Some n => tp_set (tp_nodes p1) (tp_all p1) (tp_free p1 ++ [n]) p1
                               | None => p1
                               end
  end.

(** The number of turns of that loop. *)
Definition reserve_turns (min_num_payloads : Z) (p : TopicPayloadPool) : nat := Z.to_nat (min_num_payloads - tp_size p).

(** The loop of [shrink], with [turns] of them left: [None] when there is no free payload. *)
Fixpoint shrink (turns : nat) (p : TopicPayloadPool) : option TopicPayloadPool :=
  match turns with
  | O => Some p
  | S turns' =>
      n ← last (tp_free p);
      p1 ← remove_node n (tp_set (tp_nodes p) (tp_all p) (take (length (tp_free p) - 1) (tp_free p)) p);
      shrink turns' p1
  end.

Definition shrink_turns (max_num_payloads : Z) (p : TopicPayloadPool) : nat := Z.to_nat (tp_size p - max_num_payloads).

(** [created] answers the allocations of the policies that allocate in advance. *)
Definition reserve_history (created : list bool) (cfg : PoolConfig) (p : TopicPayloadPool) : option TopicPayloadPool :=
  let p1 := update_maximum_size cfg true p in
  match policy with
  | PREALLOCATED_MEMORY_MODE | PREALLOCATED_WITH_REALLOC_MEMORY_MODE =>
      let p2 := tp_set_minimum (u32 (tp_minimum p1 + pc_initial_size cfg)) p1 in
      if decide (length created = reserve_turns (tp_minimum p2) p2) then Some (tp_reserve created payload_size p2) else None
  | _ => Some p1
  end.

Definition release_history (cfg : PoolConfig) (p : TopicPayloadPool) : option TopicPayloadPool :=
  match policy with
  | DYNAMIC_RESERVE_MEMORY_MODE => Some (update_maximum_size cfg false p)
  | DYNAMIC_REUSABLE_MEMORY_MODE =>
      let p1 := update_maximum_size cfg false p in shrink (shrink_turns (tp_max p1) p1) p1
  | _ =>
      let p1 := update_maximum_size cfg false (tp_set_minimum (u32 (tp_minimum p - pc_initial_size cfg)) p) in
      shrink (shrink_turns (tp_max p1) p1) p1
  end.

(** ** Runs *)

Inductive PoolStep :=
  | PsGet (created resized : bool) (size : Z)
  | PsCopy (created resized : bool) (data : list Z)
  | PsShare (n : nat)
  | PsWrite (n : nat) (data : list Z)
  | PsRelease (n : nat)
  | PsReserve (created : list bool) (cfg : PoolConfig)
  | PsReleaseHistory (cfg : PoolConfig).

(** One holder of a payload less. *)
Fixpoint drop_holder (n : nat) (held : list nat) : list nat :=
  match held with
  | [] => []
  | m :: held' => if decide (m = n) then held' else m :: drop_holder n held'
  end.

(** The pool with the payloads that are held, one entry per holder. A holder may share, write and
    release what it holds; [None] is an access that is not valid. *)
Definition ps_exec (st : PoolStep) (s : list nat * TopicPayloadPool) : option (list nat * TopicPayloadPool) :=
  let '(held, p) := s in
  match st with
  | PsGet created resized size =>
      '(got, p') ← get_payload created resized size p;
      Some (match got with Some (n, _) => n :: held | None => held end, p')
  | PsCopy created resized data =>
      '(got, p') ← copy_payload created resized data p;
      Some (match got with Some (n, _) => n :: held | None => held end, p')
  | PsShare n => '(_, p') ← share_payload n p; Some (n :: held, p')
  | PsWrite n data => '(_, p') ← payload_copy data n p; Some (held, p')
  | PsRelease n => p' ← release_payload n p; Some (drop_holder n held, p')
  | PsReserve created cfg => p' ← reserve_history created cfg p; Some (held, p')
  | PsReleaseHistory cfg => p' ← release_history cfg p; Some (held, p')
  end.
End Policy.
