(* ===== verification/TopicPayloadPoolFacts.v ===== *)
(** * Payloads are shared but never reused while held: the invariant of the payload pool *)

From Stdlib Require Import ZArith Lia ZifyBool.
From stdpp Require Import base numbers option gmap list.
From S2P Require Import Prelude TopicPayloadPool.

Open Scope Z_scope.

(** The number of holders of a payload. *)
Definition holders (n : nat) (held : list nat) : Z := Z.of_nat (length (filter (eq n) held)).

(** The pool with the payloads [held], one entry per holder, and the payloads [out] that are
    neither free nor held: the vector of all the payloads has no duplicates and every node knows
    its place; the counter of a node is the number of its holders; a payload is free when nobody
    holds it. *)
Record pool_ok (held out : list nat) (p : TopicPayloadPool) : Prop := {
  pk_all : NoDup (tp_all p);
  pk_free : NoDup (tp_free p);
  pk_index : ∀ i n, tp_all p !! i = Some n → ∃ x, tp_nodes p !! n = Some x ∧ data_index x = Z.of_nat i;
  pk_node : ∀ n x, tp_nodes p !! n = Some x →
    n ∈ tp_all p ∧ (n < tp_next p)%nat ∧ ref_counter x = holders n held ∧
    0 <= data_size x ∧ length (node_data x) = Z.to_nat (data_size x);
  pk_avail : ∀ n, n ∈ tp_free p ↔ n ∈ tp_all p ∧ (n ∉ held) ∧ (n ∉ out);
  pk_held : ∀ n, n ∈ held ∨ n ∈ out → n ∈ tp_all p;
  pk_bounds : tp_size p < 2 ^ 32 ∧ 0 <= tp_max p < 2 ^ 32 ∧ 0 <= tp_minimum p < 2 ^ 32 ∧ 0 <= tp_finite_max p < 2 ^ 32
}.

Lemma tp_make_ok : pool_ok [] [] tp_make.
Proof.
  constructor; cbn; try done; try constructor.
  - by intros ?%elem_of_nil.
  - by intros [?%elem_of_nil _].
  - by intros n [?%elem_of_nil|?%elem_of_nil].
Qed.

Lemma holders_cons n m held : holders n (m :: held) = (if decide (n = m) then 1 else 0) + holders n held.
Proof. unfold holders. rewrite filter_cons. case_decide; cbn [length]; lia. Qed.

Lemma holders_zero n held : holders n held = 0 ↔ n ∉ held.
Proof.
  induction held as [|m held IH]; [split; [intros _; apply not_elem_of_nil | done]|].
  rewrite holders_cons, not_elem_of_cons, <- IH. unfold holders. case_decide; split; intros Hz; [lia | by destruct Hz | split; [done | lia] | lia].
Qed.

Lemma holders_bound n held : 0 <= holders n held <= Z.of_nat (length held).
Proof. unfold holders. pose proof (length_filter (eq n) held). lia. Qed.

Lemma drop_holder_count n m held : n ∈ held → holders m (drop_holder n held) = holders m held - (if decide (m = n) then 1 else 0).
Proof.
  induction held as [|k held IH]; [by intros ?%elem_of_nil|]. cbn [drop_holder]. destruct (decide (k = n)) as [->|E].
  - intros _. rewrite holders_cons. lia.
  - intros [?|Hn]%elem_of_cons; [congruence|]. rewrite !holders_cons, IH by done. lia.
Qed.

Lemma drop_holder_elem n m held : n ∈ held → m ∈ drop_holder n held → m ∈ held.
Proof.
  induction held as [|k held IH]; cbn; [done|]. case_decide; [intros _ ?; by apply elem_of_cons; right|].
  intros [?|?]%elem_of_cons; [congruence|]. rewrite !elem_of_cons. intros [?|?]; auto.
Qed.

(** ** The primitives *)

(** The contents of a node, its size and its counter change. *)
Lemma pool_ok_node held held' out out' p n x y :
  pool_ok held out p → tp_nodes p !! n = Some x → data_index y = data_index x →
  ref_counter y = holders n held' → (∀ m, m ≠ n → holders m held' = holders m held) →
  0 <= data_size y → length (node_data y) = Z.to_nat (data_size y) →
  (∀ m, (m ∈ held' ∨ m ∈ out') ↔ (m ∈ held ∨ m ∈ out)) →
  pool_ok held' out' (tp_set (<[n := y]> (tp_nodes p)) (tp_all p) (tp_free p) p).
Proof.
  intros [HA HF HI HN HV HH HB] Hx Ei Er Ho Hs Hl Hho. constructor; cbn; try done.
  - intros i m Hm. destruct (HI i m Hm) as (z & Hz & Ez). destruct (decide (m = n)) as [->|Hne].
    + exists y. rewrite lookup_insert_eq. split; [done|]. assert (z = x) as -> by congruence. congruence.
    + exists z. by rewrite lookup_insert_ne.
  - intros m z [[<- <-]|[Hne Hz]]%lookup_insert_Some.
    + destruct (HN n x Hx) as (? & ? & _). done.
    + destruct (HN m z Hz) as (? & ? & Hc & ? & ?). rewrite Ho by done. done.
  - intros m. rewrite HV. specialize (Hho m). tauto.
  - intros m Hm. apply HH. by apply Hho.
Qed.

(** A new node. *)
Lemma do_allocate_ok held size p :
  pool_ok held [] p → 0 <= size → tp_size p < 2 ^ 32 - 1 →
  ∃ n p', do_allocate true size p = (Some n, p') ∧ pool_ok held [n] p' ∧
    tp_nodes p' = <[n := pn_set_index (tp_size p) (pn_make size)]> (tp_nodes p) ∧ tp_nodes p !! n = None ∧
    tp_free p' = tp_free p ∧ tp_size p' = tp_size p + 1 ∧ tp_max p' = tp_max p ∧ tp_minimum p' = tp_minimum p.
Proof.
  intros [HA HF HI HN HV HH HB] Hs Hlen. eexists _, _. split; [done|]. cbn.
  assert (tp_nodes p !! tp_next p = None) as Hfresh.
  { destruct (tp_nodes p !! tp_next p) as [x|] eqn:E; [|done]. destruct (HN _ _ E) as (_ & ? & _). lia. }
  assert (tp_next p ∉ tp_all p) as Hall.
  { intros (i & Hi)%list_elem_of_lookup. destruct (HI i _ Hi) as (x & E & _). congruence. }
  assert (u32 (tp_size p) = tp_size p) as -> by (apply u32_small; unfold tp_size in *; zwidth).
  split_and!; try done; [|unfold tp_size; cbn; rewrite length_app; cbn; lia]. constructor; cbn.
  - apply NoDup_app. split_and!; [done | | apply NoDup_singleton]. by intros m Hm ->%list_elem_of_singleton.
  - done.
  - intros i m [Hi|(Hi & Hm)]%lookup_app_Some.
    + destruct (HI i m Hi) as (x & Hx & Ex). exists x. rewrite lookup_insert_ne; [done|]. intros <-. congruence.
    + apply list_lookup_singleton_Some in Hm as [Hi0 <-]. eexists. rewrite lookup_insert_eq. split; [done|].
      cbn. unfold tp_size. lia.
  - intros m x [[<- <-]|[Hne Hx]]%lookup_insert_Some.
    + split_and!; [apply elem_of_app; right; by apply list_elem_of_singleton | lia | | done | apply length_replicate].
      cbn. symmetry. apply holders_zero. intros Hin. by apply Hall, HH; left.
    + destruct (HN m x Hx) as (? & ? & ?). split_and!; try apply H1; [apply elem_of_app; by left | lia].
  - intros m. rewrite HV, elem_of_app, !list_elem_of_singleton. split.
    + intros (Hm & Hnh & _). split_and!; [by left | done |]. by intros ->.
    + intros ([Hm| ->] & Hnh & Hne); [|done]. split_and!; [done | done | apply not_elem_of_nil].
  - intros m [Hm|Hm%list_elem_of_singleton]; apply elem_of_app; [left; apply HH; by left | right; by apply list_elem_of_singleton].
  - unfold tp_size in *. cbn. rewrite length_app. cbn. lia.
Qed.

(** The last element of a list and the rest. *)
Lemma last_split {A} (l : list A) a : last l = Some a → l = take (length l - 1) l ++ [a].
Proof.
  intros (l' & ->)%last_Some. rewrite length_app. cbn. replace (length l' + 1 - 1)%nat with (length l') by lia.
  by rewrite take_app_length.
Qed.

(** The last free payload is taken. *)
Lemma take_free_ok held p n :
  pool_ok held [] p → last (tp_free p) = Some n →
  pool_ok held [n] (tp_set (tp_nodes p) (tp_all p) (take (length (tp_free p) - 1) (tp_free p)) p).
Proof.
  intros [HA HF HI HN HV HH HB] Hl. apply last_split in Hl. set (f := take _ _) in *.
  rewrite Hl in HF. apply NoDup_app in HF as (HF & Hd & _).
  assert (n ∈ tp_free p) as Hn by (rewrite Hl; apply elem_of_app; right; by apply list_elem_of_singleton).
  constructor; cbn; try done.
  - intros m. specialize (HV m). rewrite Hl, elem_of_app, list_elem_of_singleton in HV. rewrite list_elem_of_singleton. split.
    + intros Hm. destruct (proj1 HV (or_introl Hm)) as (? & ? & _). split_and!; [done | done|]. intros ->.
      apply (Hd n Hm). by apply list_elem_of_singleton.
    + intros (Hm & Hnh & Hne). destruct (proj2 HV) as [?| ->]; [|done | done]. split_and!; [done | done | apply not_elem_of_nil].
  - intros m [Hm|Hm%list_elem_of_singleton]; [apply HH; by left|]. subst. by apply HV.
Qed.

(** A payload becomes free. *)
Lemma give_back_ok held p n :
  pool_ok held [n] p → n ∉ held → pool_ok held [] (tp_set (tp_nodes p) (tp_all p) (tp_free p ++ [n]) p).
Proof.
  intros [HA HF HI HN HV HH HB] Hnh. constructor; cbn; try done.
  - apply NoDup_app. split_and!; [done | | apply NoDup_singleton]. intros m Hm Hmn. apply HV in Hm as (_ & _ & Hm). done.
  - intros m. rewrite elem_of_app, HV, list_elem_of_singleton. split.
    + intros [(? & ? & _)| ->]; [|split_and!; [apply HH; right; by apply list_elem_of_singleton | done | apply not_elem_of_nil]].
      split_and!; [done | done | apply not_elem_of_nil].
    + intros (? & ? & _). destruct (decide (m = n)) as [->|]; [by right | by left].
  - intros m [Hm|Hm%elem_of_nil]; [apply HH; by left | done].
Qed.

(** The node leaves the vector, and the last one takes its place. *)
Lemma remove_node_all (l : list nat) i n b :
  NoDup l → l !! i = Some n → last l = Some b →
  NoDup (take (length l - 1) (<[i := b]> l)) ∧
  (∀ m, m ∈ take (length l - 1) (<[i := b]> l) ↔ m ∈ l ∧ m ≠ n) ∧
  ∀ j m, take (length l - 1) (<[i := b]> l) !! j = Some m → (j = i ∧ m = b) ∨ (j ≠ i ∧ l !! j = Some m ∧ m ≠ b).
Proof.
  intros Hnd Hi (f & ->)%last_Some. rewrite length_app in *. cbn [length] in *.
  replace (length f + 1 - 1)%nat with (length f) by lia. apply NoDup_app in Hnd as (Hf & Hd & _).
  assert (∀ m, m ∈ f → m ≠ b) as Hnb by (intros m Hm ->; apply (Hd b Hm); by apply list_elem_of_singleton).
  destruct (decide (i = length f)) as [->|Hne].
  - rewrite lookup_app_r, Nat.sub_diag in Hi by done. injection Hi as <-.
    rewrite insert_app_r_alt, Nat.sub_diag by done. cbn. rewrite take_app_length. split_and!; [done| |].
    + intros m. rewrite elem_of_app, list_elem_of_singleton. split; [intros Hm; split; [by left | by apply Hnb] | by intros [[?|?] ?]].
    + intros j m Hj. right. pose proof (lookup_lt_Some _ _ _ Hj). split_and!; [lia | by rewrite lookup_app_l by lia |].
      apply Hnb. by eapply list_elem_of_lookup_2.
  - assert (i < length f)%nat as Hlt by (apply lookup_lt_Some in Hi; rewrite length_app in Hi; cbn in Hi; lia).
    rewrite lookup_app_l in Hi by done. rewrite insert_app_l by done.
    rewrite take_app_length' by (by rewrite length_insert).
    assert (∀ j m, <[i:=b]> f !! j = Some m → (j = i ∧ m = b) ∨ (j ≠ i ∧ f !! j = Some m)) as Hlk.
    { intros j m Hj. destruct (decide (j = i)) as [->|Hji]; [rewrite list_lookup_insert_eq in Hj by done; left; split; congruence|].
      rewrite list_lookup_insert_ne in Hj by done. by right. }
    split_and!.
    + apply NoDup_alt. intros j k m Hj Hk. apply Hlk in Hj as [[-> ->]|[Hj1 Hj2]], Hk as [[-> Hmb]|[Hk1 Hk2]]; try done.
      * exfalso. by apply (Hnb b); [eapply list_elem_of_lookup_2|].
      * exfalso. subst. by apply (Hnb b); [eapply list_elem_of_lookup_2|].
      * by eapply NoDup_lookup.
    + intros m. rewrite elem_of_app, list_elem_of_singleton. split.
      * intros (j & [[-> ->]|[Hj1 Hj2]]%Hlk)%list_elem_of_lookup.
        -- split; [by right|]. intros ->. by apply (Hnb n); [eapply list_elem_of_lookup_2|].
        -- split; [left; by eapply list_elem_of_lookup_2|]. intros ->. apply Hj1. by eapply NoDup_lookup.
      * intros [[(j & Hj)%list_elem_of_lookup| ->] Hm].
        -- apply list_elem_of_lookup. exists j. rewrite list_lookup_insert_ne; [done|]. intros <-. congruence.
        -- apply list_elem_of_lookup. exists i. by apply list_lookup_insert_eq.
    + intros j m [[-> ->]|[Hj1 Hj2]]%Hlk; [by left|]. right. pose proof (lookup_lt_Some _ _ _ Hj2).
      split_and!; [done | by rewrite lookup_app_l by lia |]. apply Hnb. by eapply list_elem_of_lookup_2.
Qed.

Lemma remove_node_ok held p n :
  pool_ok held [n] p → n ∉ held →
  ∃ p', remove_node n p = Some p' ∧ pool_ok held [] p' ∧ tp_free p' = tp_free p ∧ tp_size p' = tp_size p - 1 ∧
    tp_max p' = tp_max p ∧
    (∀ m x, m ≠ n → tp_nodes p !! m = Some x → ∃ y, tp_nodes p' !! m = Some y ∧ node_data y = node_data x ∧ data_size y = data_size x) ∧
    ∀ m y, tp_nodes p' !! m = Some y → ∃ x, tp_nodes p !! m = Some x ∧ data_size y = data_size x.
Proof.
  intros [HA HF HI HN HV HH HB] Hnh.
  assert (n ∈ tp_all p) as Hn by (apply HH; right; by apply list_elem_of_singleton).
  apply list_elem_of_lookup in Hn as (i & Hi). destruct (HI i n Hi) as (x & Hx & Ex).
  destruct (last (tp_all p)) as [b|] eqn:Hb; [|by apply last_None in Hb; rewrite Hb in Hi].
  pose proof (last_split _ _ Hb) as Esp.
  assert (tp_all p !! (length (tp_all p) - 1)%nat = Some b) as Hbi by (rewrite Nat.sub_1_r, <- last_lookup; done).
  destruct (HI _ b Hbi) as (y & Hy & Ey). pose proof (lookup_lt_Some _ _ _ Hi) as Hil.
  unfold remove_node. rewrite Hx. cbn. rewrite Hb. cbn. rewrite Hy. cbn. rewrite Ex, (proj2 (Z.ltb_lt _ _)) by (unfold tp_size; lia).
  rewrite Nat2Z.id, length_insert. destruct (remove_node_all (tp_all p) i n b HA Hi Hb) as (HA' & Hel & Hlk).
  eexists. split; [done|]. cbn.
  assert (∀ m z, m ≠ n → tp_nodes p !! m = Some z →
            delete n (<[b := pn_set_index (Z.of_nat i) y]> (tp_nodes p)) !! m =
            Some (if decide (m = b) then pn_set_index (Z.of_nat i) y else z)) as Hnode.
  { intros m z Hne Hz. rewrite lookup_delete_ne by done. case_decide; [subst; apply lookup_insert_eq|].
    by rewrite lookup_insert_ne. }
  split_and!; [|done|unfold tp_size; cbn; rewrite length_take, length_insert; lia | done| |].
  - constructor; cbn; try done.
    + intros j m Hj. assert (m ≠ n) as Hmn.
      { apply (Hel m). by eapply list_elem_of_lookup_2. }
      destruct (Hlk j m Hj) as [[-> ->]|(Hji & Hjm & Hmb)].
      * eexists. rewrite (Hnode b y) by done. rewrite decide_True by done. done.
      * destruct (HI j m Hjm) as (z & Hz & Ez). exists z. rewrite (Hnode m z) by done. by rewrite decide_False.
    + intros m z [Hne Hz]%lookup_delete_Some. rewrite Hel. apply lookup_insert_Some in Hz as [[<- <-]|[Hmb Hz]].
      * destruct (HN b y Hy) as (? & ? & ? & ? & ?). done.
      * destruct (HN m z Hz) as (? & ? & ? & ? & ?). done.
    + intros m. rewrite HV, Hel, list_elem_of_singleton. split; [intros (? & ? & ?); split_and!; try done; apply not_elem_of_nil|].
      intros ((? & ?) & ? & _). done.
    + intros m [Hm|Hm%elem_of_nil]; [|done]. apply Hel. split; [apply HH; by left|]. by intros ->.
    + unfold tp_size. cbn. rewrite length_take, length_insert. unfold tp_size in HB. lia.
  - intros m z Hne Hz. rewrite (Hnode m z) by done. case_decide; [|by exists z]. subst. assert (z = y) as -> by congruence. by eexists.
  - intros m z [Hne Hz]%lookup_delete_Some. apply lookup_insert_Some in Hz as [[<- <-]|[Hmb Hz]]; eauto.
Qed.

(** ** The operations *)

(** The sizes of all the payloads satisfy [Q]. *)
Definition sizes_in (Q : Z → Prop) (p : TopicPayloadPool) : Prop :=
  ∀ n x, tp_nodes p !! n = Some x → Q (data_size x).

(** The contents of a payload stay. *)
Definition same_data (n : nat) (p p' : TopicPayloadPool) : Prop :=
  ∀ x, tp_nodes p !! n = Some x → ∃ y, tp_nodes p' !! n = Some y ∧ node_data y = node_data x ∧ data_size y = data_size x.

Lemma same_data_refl n p p' : tp_nodes p' !! n = tp_nodes p !! n → same_data n p p'.
Proof. intros E x Hx. exists x. by rewrite E. Qed.

Lemma same_data_trans n p1 p2 p3 : same_data n p1 p2 → same_data n p2 p3 → same_data n p1 p3.
Proof.
  intros H12 H23 x Hx. destruct (H12 x Hx) as (y & Hy & E1 & E2). destruct (H23 y Hy) as (z & Hz & E3 & E4).
  exists z. split_and!; congruence.
Qed.

Lemma sizes_in_insert Q p n y : sizes_in Q p → Q (data_size y) → sizes_in Q (tp_set (<[n := y]> (tp_nodes p)) (tp_all p) (tp_free p) p).
Proof. intros Hs Hy m x. cbn. intros [[<- <-]|[_ Hx]]%lookup_insert_Some; [done | by eapply Hs]. Qed.

Lemma pool_node held out p n : pool_ok held out p → n ∈ tp_all p → ∃ x, tp_nodes p !! n = Some x.
Proof. intros Hok (i & Hi)%list_elem_of_lookup. destruct (pk_index _ _ _ Hok i n Hi) as (x & Hx & _). by exists x. Qed.

(** A node that is neither free nor held is referred to. *)
Lemma reference_ok held p n x :
  pool_ok held [n] p → tp_nodes p !! n = Some x → 0 <= data_size x → length (node_data x) = Z.to_nat (data_size x) →
  n ∉ held → ∀ y, data_index y = data_index x → ref_counter y = ref_counter x → 0 <= data_size y →
  length (node_data y) = Z.to_nat (data_size y) →
  pool_ok (n :: held) [] (tp_set (<[n := pn_reference y]> (tp_nodes p)) (tp_all p) (tp_free p) p).
Proof.
  intros Hok Hx _ _ Hnh y Ei Er Hs Hl. destruct (pk_node _ _ _ Hok n x Hx) as (_ & _ & Ec & _).
  pose proof (proj2 (holders_zero n held) Hnh) as Hz.
  eapply pool_ok_node; [exact Hok | exact Hx | done | | | done | done |].
  - cbn. rewrite Er, Ec, Hz, holders_cons, decide_True, Hz by done. done.
  - intros m Hne. rewrite holders_cons, decide_False by done. lia.
  - intros m. rewrite elem_of_cons, list_elem_of_singleton. split; [intros [[?|?]|?%elem_of_nil]; auto; done | intros [?|?]; auto].
Qed.

(** What [do_get_payload] promises: a payload that nobody holds, of the size asked for. *)
Definition got_ok (held : list nat) (Q : Z → Prop) (p : TopicPayloadPool) (got : option (nat * Z)) (p' : TopicPayloadPool) : Prop :=
  (∀ n, n ∈ held → same_data n p p') ∧ (sizes_in Q p → sizes_in Q p') ∧
  match got with
  | None => pool_ok held [] p'
  | Some (n, sz) => pool_ok (n :: held) [] p' ∧ (n ∉ held) ∧ ∃ x, tp_nodes p' !! n = Some x ∧ data_size x = sz
  end.

Lemma finish_get_ok held Q p p1 n x size resized resizeable :
  pool_ok held [n] p1 → n ∉ held → tp_nodes p1 !! n = Some x → 0 <= size → (Q size ∨ resizeable = false) →
  (∀ m, m ∈ held → same_data m p p1) → (sizes_in Q p → sizes_in Q p1) →
  ∃ got p', (if resizeable && (size >? data_size x) && negb resized
             then Some (None, tp_set (tp_nodes p1) (tp_all p1) (tp_free p1 ++ [n]) p1)
             else let y := if resizeable && (size >? data_size x) then pn_resize size x else x in
                  Some (Some (n, data_size y), tp_set (<[n := pn_reference y]> (tp_nodes p1)) (tp_all p1) (tp_free p1) p1))
            = Some (got, p') ∧ got_ok held Q p got p' ∧
    match got with Some (_, sz) => (resizeable = true → size <= sz) ∧ (resizeable = false → sz = data_size x) | None => True end.
Proof.
  intros Hok Hnh Hx Hs HQ Hsame Hsz. destruct (pk_node _ _ _ Hok n x Hx) as (_ & _ & _ & Hd & Hl).
  destruct (resizeable && (size >? data_size x)) eqn:Er; cbn [andb].
  - apply andb_true_iff in Er as [-> Hgt]. destruct HQ as [HQ|?]; [|done]. destruct resized; cbn [negb].
    + eexists _, _. split; [done|]. split; [|done]. split; [|split].
      * intros m Hm. eapply same_data_trans; [by apply Hsame|]. apply same_data_refl. cbn. apply lookup_insert_ne. by intros ->.
      * intros Hq. apply sizes_in_insert; [by apply Hsz | done].
      * split_and!; [|done|eexists; cbn; rewrite lookup_insert_eq; done].
        eapply (reference_ok held p1 n x); try done. cbn. rewrite length_app, length_replicate, Hl. lia.
    + eexists _, _. split; [done|]. split; [|done]. split; [|split; [by apply Hsz|by apply give_back_ok]].
      intros m Hm. eapply same_data_trans; [by apply Hsame|]. by apply same_data_refl.
  - eexists _, _. split; [done|]. split; [|split; [intros ->; cbn in Er; lia | done]]. split; [|split].
    + intros m Hm. eapply same_data_trans; [by apply Hsame|]. apply same_data_refl. cbn. apply lookup_insert_ne. by intros ->.
    + intros Hq. apply sizes_in_insert; [by apply Hsz | by apply (Hsz Hq n x)].
    + split_and!; [|done|eexists; cbn; rewrite lookup_insert_eq; done]. by eapply (reference_ok held p1 n x).
Qed.

Lemma do_get_payload_ok held Q created resized size resizeable p :
  pool_ok held [] p → 0 <= size → Q size →
  ∃ got p', do_get_payload created resized size resizeable p = Some (got, p') ∧ got_ok held Q p got p' ∧
    match got with Some (_, sz) => resizeable = true ∨ sizes_in (λ z, size <= z) p → size <= sz | None => True end.
Proof.
  intros Hok Hs HQ. unfold do_get_payload. destruct (last (tp_free p)) as [n|] eqn:Hlast.
  - pose proof (take_free_ok held p n Hok Hlast) as Hok1. set (p1 := tp_set _ _ _ p) in *.
    assert (n ∈ tp_free p) as Hn by (apply last_split in Hlast; rewrite Hlast; apply elem_of_app; right; by apply list_elem_of_singleton).
    apply (pk_avail _ _ _ Hok) in Hn as (Hall & Hnh & _). apply list_elem_of_lookup in Hall as (i & Hi).
    destruct (pk_index _ _ _ Hok i n Hi) as (x & Hx & _). change (tp_nodes p) with (tp_nodes p1) in Hx.
    destruct (finish_get_ok held Q p p1 n x size resized resizeable) as (got & p' & E & Hg & Hsz); try done; [by left | intros; by apply same_data_refl |].
    rewrite Hx. exists got, p'. split; [exact E|]. split; [done|]. destruct got as [[n' sz]|]; [|done].
    destruct Hsz as [Hsz1 Hsz2]. destruct resizeable; [by auto|]. intros [?|Hall]; [done|]. rewrite (Hsz2 eq_refl). by apply (Hall n x).
  - unfold tp_allocate. destruct (Z.geb_spec (tp_size p) (tp_max p)) as [Hge|Hlt].
    { eexists _, _. split; [done|]. split; [|done]. split_and!; [intros; by apply same_data_refl | done | done]. }
    destruct created; [|eexists _, _; split; [done|]; split; [|done]; split_and!; [intros; by apply same_data_refl | done | done]].
    destruct (do_allocate_ok held size p Hok Hs) as (n & p1 & E1 & Hok1 & En & Hnew & _); [pose proof (pk_bounds _ _ _ Hok); lia|].
    assert (n ∉ held) as Hnh.
    { intros Hin. destruct (pool_node held [] p n Hok) as (x & Hx); [apply (pk_held _ _ _ Hok); by left | congruence]. }
    set (x := pn_set_index (tp_size p) (pn_make size)) in *.
    assert (tp_nodes p1 !! n = Some x) as Hx by (rewrite En; apply lookup_insert_eq).
    destruct (finish_get_ok held Q p p1 n x size resized resizeable) as (got & p' & E & Hg & Hsz); try done; [by left | | |].
    + intros m Hm. apply same_data_refl. rewrite En. apply lookup_insert_ne. by intros ->.
    + intros Hq m z. rewrite En. intros [[<- <-]|[_ Hz]]%lookup_insert_Some; [done | by eapply Hq].
    + rewrite E1, Hx. exists got, p'. split; [exact E|]. split; [done|].
      destruct got as [[n' sz]|]; [|done]. destruct Hsz as [Hsz1 Hsz2]. intros _. destruct resizeable; [by auto|].
      by rewrite (Hsz2 eq_refl).
Qed.
