(* ===== verification/TopicPayloadPoolTheorems.v ===== *)
(** * What the payload pool promises

    A payload is handed out only while nobody holds it, it is large enough, and
    its contents stay as long as somebody holds it; no payload is lost. *)

From Stdlib Require Import ZArith Lia ZifyBool.
From stdpp Require Import base numbers option gmap list.
From S2P Require Import Prelude TopicPayloadPool TopicPayloadPoolFacts.

Open Scope Z_scope.

(** ** Sharing, writing, releasing *)

Lemma share_payload_ok held p n :
  pool_ok held [] p → n ∈ held → Z.of_nat (length held) < 2 ^ 32 - 1 →
  ∃ sz p', share_payload n p = Some ((n, sz), p') ∧ pool_ok (n :: held) [] p' ∧
    (∀ m, same_data m p p') ∧ ∀ Q, sizes_in Q p → sizes_in Q p'.
Proof.
  intros Hok Hn Hlen. destruct (pool_node held [] p n Hok) as (x & Hx); [apply (pk_held _ _ _ Hok); by left|].
  destruct (pk_node _ _ _ Hok n x Hx) as (_ & _ & Ec & Hs & Hl). unfold share_payload. rewrite Hx. cbn.
  pose proof (holders_bound n held) as Hb. eexists _, _. split; [done|]. split_and!.
  - eapply pool_ok_node; [exact Hok | exact Hx | done | | | done | done |].
    + cbn. rewrite Ec, holders_cons, decide_True by done. rewrite u32_small by zwidth. lia.
    + intros m Hne. rewrite holders_cons, decide_False by done. lia.
    + intros m. rewrite elem_of_cons. split; [intros [[->|?]|?]; auto | intros [?|?]; auto].
  - intros m z Hz. cbn. destruct (decide (m = n)) as [->|Hne].
    + eexists. rewrite lookup_insert_eq. split; [done|]. by assert (z = x) as -> by congruence.
    + exists z. by rewrite lookup_insert_ne.
  - intros Q HQ. apply sizes_in_insert; [done|]. by apply (HQ n x).
Qed.

Lemma payload_copy_ok held p n data :
  pool_ok held [] p → n ∈ held →
  ∃ b p', payload_copy data n p = Some (b, p') ∧ pool_ok held [] p' ∧ (∀ m, m ≠ n → same_data m p p') ∧
    (∀ Q, sizes_in Q p → sizes_in Q p') ∧ (tp_nodes p' !! n = None ↔ tp_nodes p !! n = None) ∧
    (∀ x, tp_nodes p !! n = Some x → b = negb (Z.of_nat (length data) >? data_size x) ∧
       ∀ y, b = true → tp_nodes p' !! n = Some y → take (length data) (node_data y) = data).
Proof.
  intros Hok Hn. destruct (pool_node held [] p n Hok) as (x & Hx); [apply (pk_held _ _ _ Hok); by left|].
  destruct (pk_node _ _ _ Hok n x Hx) as (_ & _ & Ec & Hs & Hl). unfold payload_copy. rewrite Hx. cbn.
  destruct (Z.gtb_spec (Z.of_nat (length data)) (data_size x)) as [Hgt|Hle].
  - eexists _, _. split; [done|]. split; [done|]. split; [intros; by apply same_data_refl|]. split; [done|].
    split; [by rewrite ?Hx|]. intros z [= <-]. split; [|done]. rewrite (proj2 (Z.gtb_lt _ _)) by lia. done.
  - eexists _, _. split; [done|]. split; [|split; [|split; [|split]]].
    + eapply pool_ok_node; [exact Hok | exact Hx | done | done | done | done | | done].
      cbn. rewrite length_app, length_drop, Hl. lia.
    + intros m Hne. apply same_data_refl. cbn. by rewrite lookup_insert_ne.
    + intros Q HQ. apply sizes_in_insert; [done|]. by apply (HQ n x).
    + cbn. by rewrite lookup_insert_eq.
    + intros z [= <-]. split; [destruct (Z.gtb_spec (Z.of_nat (length data)) (data_size x)); [lia | done]|].
      intros y _. cbn. rewrite lookup_insert_eq. intros [= <-]. cbn. by rewrite take_app_length.
Qed.

Lemma release_payload_ok policy held p n :
  pool_ok held [] p → n ∈ held → Z.of_nat (length held) < 2 ^ 32 →
  ∃ p', release_payload policy n p = Some p' ∧ pool_ok (drop_holder n held) [] p' ∧
    (∀ m, m ∈ drop_holder n held → same_data m p p') ∧ (∀ Q, sizes_in Q p → sizes_in Q p').
Proof.
  intros Hok Hn Hlen. destruct (pool_node held [] p n Hok) as (x & Hx); [apply (pk_held _ _ _ Hok); by left|].
  destruct (pk_node _ _ _ Hok n x Hx) as (Hall & _ & Ec & Hs & Hl). unfold release_payload. rewrite Hx. cbn -[remove_node].
  pose proof (holders_bound n held) as Hb.
  assert (holders n held ≠ 0) as Hnz by (intros Hz%holders_zero; done).
  set (x' := pn_set_ref (u32 (ref_counter x - 1)) x). set (p1 := tp_set (<[n := x']> (tp_nodes p)) (tp_all p) (tp_free p) p).
  assert (∀ m, same_data m p p1) as Hsame1.
  { intros m z Hz. cbn. destruct (decide (m = n)) as [->|Hne]; [|exists z; by rewrite lookup_insert_ne].
    exists x'. rewrite lookup_insert_eq. split; [done|]. by assert (z = x) as -> by congruence. }
  assert (∀ Q, sizes_in Q p → sizes_in Q p1) as Hsz1 by (intros Q HQ; apply sizes_in_insert; [done | by apply (HQ n x)]).
  assert (∀ out, (∀ m, (m ∈ drop_holder n held ∨ m ∈ out) ↔ (m ∈ held ∨ m ∈ [])) → pool_ok (drop_holder n held) out p1) as Hok1.
  { intros out Hout. eapply pool_ok_node; [exact Hok | exact Hx | done | | | done | done | done].
    - cbn. rewrite Ec, drop_holder_count, decide_True by done. apply u32_small. zwidth.
    - intros m Hne. rewrite drop_holder_count, decide_False by done. lia. }
  assert (∀ m, m ≠ n → m ∈ held → m ∈ drop_holder n held) as Hkeep.
  { intros m Hne Hm. destruct (decide (m ∈ drop_holder n held)) as [|Hnot]; [done|]. apply holders_zero in Hnot.
    rewrite drop_holder_count, decide_False in Hnot by done. apply (holders_zero m held) in Hm; [done|lia]. }
  rewrite Ec. destruct (Z.eqb_spec (holders n held) 1) as [E1|E1].
  - assert (n ∉ drop_holder n held) as Hnd by (apply holders_zero; rewrite drop_holder_count, decide_True by done; lia).
    assert (pool_ok (drop_holder n held) [n] p1) as Hok2.
    { apply Hok1. intros m. rewrite list_elem_of_singleton. split.
      - intros [Hm| ->]; [left; by eapply drop_holder_elem | by left].
      - intros [Hm|?%elem_of_nil]; [|done]. destruct (decide (m = n)) as [->|]; [by right | left; by apply Hkeep]. }
    apply list_elem_of_lookup in Hall as (i & Hi). destruct (pk_index _ _ _ Hok i n Hi) as (z & Hz & Ez).
    assert (z = x) as -> by congruence. rewrite Ez, Nat2Z.id.
    destruct (remove_node_ok (drop_holder n held) p1 n Hok2 Hnd) as (p2 & E2 & Hok3 & _ & _ & _ & Hdata & Hback).
    pose proof (give_back_ok _ _ _ Hok2 Hnd) as Hgb.
    assert (∀ m, m ∈ drop_holder n held → same_data m p p2) as Hsame2.
    { intros m Hm. eapply same_data_trans; [apply Hsame1|]. intros z' Hz'. apply Hdata; [|done]. by intros ->. }
    destruct policy; rewrite Hi; cbn [mbind option_bind];
      try (eexists; split; [done|]; split_and!; [done | intros m _; eapply same_data_trans; [apply Hsame1 | by apply same_data_refl] | done]).
    exists p2. split; [done|]. split_and!; [done | done|]. intros Q HQ m y Hy.
    destruct (Hback m y Hy) as (z' & Hz' & ->). by apply (Hsz1 Q HQ m z').
  - eexists. split; [done|]. split_and!; [|intros m _; apply Hsame1 | done]. apply Hok1. intros m. split.
    + intros [Hm|?]; [left; by eapply drop_holder_elem | auto].
    + intros [Hm|?]; [|auto]. left. destruct (decide (m = n)) as [->|]; [|by apply Hkeep].
      destruct (decide (n ∈ drop_holder n held)) as [|Hnot]; [done|]. apply holders_zero in Hnot.
      rewrite drop_holder_count, decide_True in Hnot by done. lia.
Qed.

(** ** Histories *)

Lemma pool_ok_sizes held p p' :
  pool_ok held [] p → tp_nodes p' = tp_nodes p → tp_all p' = tp_all p → tp_free p' = tp_free p → tp_next p' = tp_next p →
  0 <= tp_max p' < 2 ^ 32 → 0 <= tp_minimum p' < 2 ^ 32 → 0 <= tp_finite_max p' < 2 ^ 32 → pool_ok held [] p'.
Proof.
  intros [HA HF HI HN HV HH HB] En Ea Ef Ex H1 H2 H3. constructor; rewrite ?En, ?Ea, ?Ef, ?Ex; try done.
  split; [|done]. unfold tp_size in *. rewrite Ea. lia.
Qed.

Lemma update_maximum_size_fields cfg is_reserve p :
  let p' := update_maximum_size cfg is_reserve p in
  tp_nodes p' = tp_nodes p ∧ tp_all p' = tp_all p ∧ tp_free p' = tp_free p ∧ tp_next p' = tp_next p ∧ tp_minimum p' = tp_minimum p.
Proof. unfold update_maximum_size. destruct is_reserve; zif; done. Qed.

Lemma update_maximum_size_ok held cfg is_reserve p : pool_ok held [] p → pool_ok held [] (update_maximum_size cfg is_reserve p).
Proof.
  intros Hok. pose proof (pk_bounds _ _ _ Hok) as (_ & Hm & Hmin & Hf).
  destruct (update_maximum_size_fields cfg is_reserve p) as (En & Ea & Efr & Ex & Emin).
  eapply pool_ok_sizes; [exact Hok | done | done | done | done | | by rewrite Emin|];
    unfold update_maximum_size; destruct is_reserve; zif; cbn; try done; apply u32_range.
Qed.

Lemma set_minimum_ok held n p : pool_ok held [] p → pool_ok held [] (tp_set_minimum (u32 n) p).
Proof.
  intros Hok. pose proof (pk_bounds _ _ _ Hok) as (_ & Hm & Hmin & Hf).
  eapply pool_ok_sizes; try done; [apply u32_range].
Qed.

Lemma tp_reserve_ok held size created p :
  pool_ok held [] p → 0 <= size → tp_size p + Z.of_nat (length created) < 2 ^ 32 →
  pool_ok held [] (tp_reserve created size p) ∧ (∀ n, n ∈ held → same_data n p (tp_reserve created size p)) ∧
  ∀ Q : Z → Prop, Q size → sizes_in Q p → sizes_in Q (tp_reserve created size p).
Proof.
  revert p. induction created as [|b created IH]; intros p Hok Hs Hlen; cbn [tp_reserve].
  - split_and!; [done | intros; by apply same_data_refl | done].
  - cbn [length] in Hlen. destruct b; [|cbn; apply IH; [done | done | lia]].
    destruct (do_allocate_ok held size p Hok Hs) as (n & p1 & E1 & Hok1 & En & Hnew & _ & Esz & _); [lia|]. rewrite E1.
    assert (n ∉ held) as Hnh.
    { intros Hin. destruct (pool_node held [] p n Hok) as (x & Hx); [apply (pk_held _ _ _ Hok); by left | congruence]. }
    pose proof (give_back_ok held p1 n Hok1 Hnh) as Hok2. set (p2 := tp_set _ _ _ p1) in *.
    destruct (IH p2) as (Hok3 & Hsame & Hsz); [done | done | change (tp_size p2) with (tp_size p1); lia|].
    split_and!; [done | |].
    + intros m Hm. eapply same_data_trans; [|by apply Hsame]. apply same_data_refl. cbn. rewrite En. apply lookup_insert_ne.
      by intros ->.
    + intros Q HQ Hall. apply Hsz; [done|]. intros m z. cbn. rewrite En.
      intros [[<- <-]|[_ Hz]]%lookup_insert_Some; [done | by eapply Hall].
Qed.

Lemma shrink_ok held turns p :
  pool_ok held [] p → (turns <= length (tp_free p))%nat →
  ∃ p', shrink turns p = Some p' ∧ pool_ok held [] p' ∧ tp_size p' = tp_size p - Z.of_nat turns ∧ tp_max p' = tp_max p ∧
    (∀ n, n ∈ held → same_data n p p') ∧ ∀ Q, sizes_in Q p → sizes_in Q p'.
Proof.
  revert p. induction turns as [|turns IH]; intros p Hok Hlen; cbn [shrink].
  - eexists. split; [done|]. split_and!; [done | lia | done | intros; by apply same_data_refl | done].
  - destruct (last (tp_free p)) as [n|] eqn:Hl; [|apply last_None in Hl; rewrite Hl in Hlen; cbn in Hlen; lia].
    cbn [mbind option_bind]. pose proof (take_free_ok held p n Hok Hl) as Hok1. set (p1 := tp_set _ _ _ p) in *.
    assert (n ∉ held) as Hnh.
    { apply last_split in Hl. assert (n ∈ tp_free p) as Hn by (rewrite Hl; apply elem_of_app; right; by apply list_elem_of_singleton).
      by apply (pk_avail _ _ _ Hok) in Hn as (_ & ? & _). }
    destruct (remove_node_ok held p1 n Hok1 Hnh) as (p2 & E2 & Hok2 & Efr & Esz & Emx & Hdata & Hback).
    rewrite E2. cbn [mbind option_bind].
    destruct (IH p2) as (p3 & E3 & Hok3 & Esz3 & Emx3 & Hsame & Hsz); [done | rewrite Efr; cbn; rewrite length_take; lia|].
    exists p3. split; [done|]. split_and!; [done | rewrite Esz3, Esz; change (tp_size p1) with (tp_size p); lia | by rewrite Emx3, Emx | |].
    + intros m Hm. eapply same_data_trans; [|by apply Hsame]. intros x Hx. apply (Hdata m x); [|done]. by intros ->.
    + intros Q HQ. apply Hsz. intros m y Hy. destruct (Hback m y Hy) as (x & Hx & ->). by apply (HQ m x).
Qed.

(** ** Steps *)

Section Policy.
Context (policy : MemoryManagementPolicy_t) (payload_size : Z).

(** The payloads of the policy that never resizes have the configured size. *)
Definition size_ok (sz : Z) : Prop := policy = PREALLOCATED_MEMORY_MODE → sz = payload_size.

(** What the callers keep to: sizes are not negative, fewer than 2^32 - 1 references are held, a payload is used by
    its holders only, every allocation in advance has an answer, and a history is released when
    enough payloads are free for the new maximum. *)
Definition step_valid (st : PoolStep) (s : list nat * TopicPayloadPool) : bool :=
  (Z.of_nat (length s.1) <? 2 ^ 32 - 1) &&
  match st with
  | PsGet _ _ size => 0 <=? size
  | PsCopy _ _ _ => true
  | PsShare n | PsWrite n _ | PsRelease n => bool_decide (n ∈ s.1)
  | PsReserve created cfg =>
      bool_decide ((policy = PREALLOCATED_MEMORY_MODE ∨ policy = PREALLOCATED_WITH_REALLOC_MEMORY_MODE) →
        length created = reserve_turns (u32 (tp_minimum s.2 + pc_initial_size cfg)) s.2)
  | PsReleaseHistory cfg =>
      tp_size s.2 - Z.of_nat (length (tp_free s.2)) <=? tp_max (update_maximum_size cfg false s.2)
  end.

Fixpoint ps_run (steps : list PoolStep) (s : list nat * TopicPayloadPool) : option (list nat * TopicPayloadPool) :=
  match steps with
  | [] => Some s
  | st :: steps' => s' ← ps_exec policy payload_size st s; ps_run steps' s'
  end.

(** The callers keep to it in every step of a run. *)
Fixpoint run_valid (steps : list PoolStep) (s : list nat * TopicPayloadPool) : bool :=
  match steps with
  | [] => true
  | st :: steps' =>
      step_valid st s && match ps_exec policy payload_size st s with Some s' => run_valid steps' s' | None => true end
  end.

(** Nobody writes the payload [n] in the run and somebody holds it after every step. *)
Fixpoint kept (n : nat) (steps : list PoolStep) (s : list nat * TopicPayloadPool) : bool :=
  match steps with
  | [] => true
  | st :: steps' =>
      match st with PsWrite m _ => negb (m =? n)%nat | _ => true end &&
      match ps_exec policy payload_size st s with Some s' => bool_decide (n ∈ s'.1) && kept n steps' s' | None => true end
  end.

Lemma get_payload_ok held created resized size p :
  0 <= payload_size → pool_ok held [] p → sizes_in size_ok p → 0 <= size →
  ∃ got p', get_payload policy payload_size created resized size p = Some (got, p') ∧ got_ok held size_ok p got p' ∧
    match got with
    | Some (_, sz) => if decide (policy = PREALLOCATED_MEMORY_MODE) then sz = payload_size else size <= sz
    | None => True
    end.
Proof.
  intros Hps Hok Hsz Hs. unfold get_payload.
  destruct policy eqn:Ep.
  - destruct (do_get_payload_ok held size_ok created resized payload_size false p) as (got & p' & E & Hg & _); [done | done | done|].
    rewrite E. exists got, p'. split; [done|]. split; [done|]. destruct got as [[n sz]|]; [|done]. rewrite decide_True by done.
    destruct Hg as (_ & Hq & _ & _ & x & Hx & <-). apply (Hq Hsz n x Hx). done.
  - destruct (do_get_payload_ok held size_ok created resized (Z.max size payload_size) true p) as (got & p' & E & Hg & Hle);
      [done | lia | intros E'; congruence |].
    rewrite E. exists got, p'. split; [done|]. split; [done|]. destruct got as [[n sz]|]; [|done]. rewrite decide_False by done.
    specialize (Hle (or_introl eq_refl)). lia.
  - destruct (do_get_payload_ok held size_ok created resized size true p) as (got & p' & E & Hg & Hle); [done | lia | intros E'; congruence |].
    rewrite E. exists got, p'. split; [done|]. split; [done|]. destruct got as [[n sz]|]; [|done]. rewrite decide_False by done.
    by apply Hle; left.
  - destruct (do_get_payload_ok held size_ok created resized size true p) as (got & p' & E & Hg & Hle); [done | lia | intros E'; congruence |].
    rewrite E. exists got, p'. split; [done|]. split; [done|]. destruct got as [[n sz]|]; [|done]. rewrite decide_False by done.
    by apply Hle; left.
Qed.
Lemma copy_payload_ok held created resized data p :
  0 <= payload_size → pool_ok held [] p → sizes_in size_ok p → Z.of_nat (length held) < 2 ^ 32 - 1 →
  ∃ got p', copy_payload policy payload_size created resized data p = Some (got, p') ∧ got_ok held size_ok p got p' ∧
    match got with
    | Some (n, _) => ∀ y, tp_nodes p' !! n = Some y → take (length data) (node_data y) = data
    | None => True
    end.
Proof.
  intros Hps Hok Hsz Hlen. unfold copy_payload.
  destruct (get_payload_ok held created resized (Z.of_nat (length data)) p) as (got & p1 & E1 & (Hsame & Hs & Hg) & _); [done | done | done | lia|].
  rewrite E1. cbn -[payload_copy release_payload].
  destruct got as [[n sz]|]; [|eexists _, _; split; [done|]; by split; [split|]].
  destruct Hg as (Hok1 & Hnh & x & Hx & Ex).
  destruct (payload_copy_ok (n :: held) p1 n data Hok1) as (b & p2 & E2 & Hok2 & Hsame2 & Hs2 & _ & Hb); [by left|].
  rewrite E2. cbn -[release_payload]. destruct (Hb x Hx) as (Eb & Hdata).
  assert (∀ m, m ∈ held → same_data m p p2) as Hsame'.
  { intros m Hm. eapply same_data_trans; [by apply Hsame|]. apply Hsame2. by intros ->. }
  destruct b.
  - eexists _, _. split; [done|]. split; [|intros y Hy; by apply Hdata]. split; [done|]. split; [auto|]. split; [done|]. split; [done|].
    destruct (pool_node (n :: held) [] p2 n Hok2) as (y & Hy); [apply (pk_held _ _ _ Hok2); left; by left|].
    exists y. split; [done|].
    unfold payload_copy in E2. rewrite Hx in E2. cbn in E2. destruct (_ >? _); [done|]. injection E2 as <-. cbn in Hy.
    rewrite lookup_insert_eq in Hy. by injection Hy as <-.
  - destruct (release_payload_ok policy (n :: held) p2 n Hok2) as (p3 & E3 & Hok3 & Hsame3 & Hs3); [by left | cbn [length]; lia|].
    rewrite E3. cbn. cbn [drop_holder] in Hok3, Hsame3. rewrite decide_True in Hok3, Hsame3 by done.
    eexists _, _. split; [done|]. split; [|done]. split; [|split; [auto | done]].
    intros m Hm. eapply same_data_trans; [by apply Hsame' | by apply Hsame3].
Qed.

Lemma reserve_history_ok held created cfg p :
  0 <= payload_size → pool_ok held [] p → sizes_in size_ok p →
  ((policy = PREALLOCATED_MEMORY_MODE ∨ policy = PREALLOCATED_WITH_REALLOC_MEMORY_MODE) →
   length created = reserve_turns (u32 (tp_minimum p + pc_initial_size cfg)) p) →
  ∃ p', reserve_history policy payload_size created cfg p = Some p' ∧ pool_ok held [] p' ∧ sizes_in size_ok p' ∧
    ∀ n, n ∈ held → same_data n p p'.
Proof.
  intros Hps Hok Hsz Hlen. unfold reserve_history.
  destruct (update_maximum_size_fields cfg true p) as (En & Ea & Efr & Ex & Emin).
  pose proof (update_maximum_size_ok held cfg true p Hok) as Hok1. set (p1 := update_maximum_size cfg true p) in *.
  assert (sizes_in size_ok p1) as Hsz1 by (unfold sizes_in; by rewrite En).
  assert (∀ n, same_data n p p1) as Hs1 by (intros n; apply same_data_refl; by rewrite En).
  pose proof (set_minimum_ok held (tp_minimum p1 + pc_initial_size cfg) p1 Hok1) as Hok2. set (p2 := tp_set_minimum _ p1) in *.
  assert (reserve_turns (u32 (tp_minimum p + pc_initial_size cfg)) p = reserve_turns (tp_minimum p2) p2) as Et.
  { unfold reserve_turns. change (tp_size p2) with (tp_size p1).
    change (tp_minimum p2) with (u32 (tp_minimum p1 + pc_initial_size cfg)). unfold tp_size. by rewrite Ea, Emin. }
  assert (length created = reserve_turns (tp_minimum p2) p2 →
    ∃ p', (if decide (length created = reserve_turns (tp_minimum p2) p2) then Some (tp_reserve created payload_size p2) else None) = Some p' ∧
      pool_ok held [] p' ∧ sizes_in size_ok p' ∧ ∀ n, n ∈ held → same_data n p p') as Hres.
  { intros El. rewrite decide_True by done. pose proof (pk_bounds _ _ _ Hok2) as (Hb1 & _ & Hb2 & _).
    destruct (tp_reserve_ok held payload_size created p2) as (Hok3 & Hsame & Hs3);
      [done | done | rewrite El; unfold reserve_turns; lia|].
    eexists. split; [done|]. split; [done|]. split; [by apply Hs3|].
    intros n Hn. eapply same_data_trans; [apply Hs1|]. by apply (Hsame n Hn). }
  destruct policy eqn:Ep; [apply Hres; rewrite <- Et; apply Hlen; by left | apply Hres; rewrite <- Et; apply Hlen; by right | |];
    (eexists; split; [done|]; split; [done|]; split; [done|]; intros; apply Hs1).
Qed.

Lemma release_history_ok held cfg p :
  pool_ok held [] p → sizes_in size_ok p →
  tp_size p - Z.of_nat (length (tp_free p)) <= tp_max (update_maximum_size cfg false p) →
  ∃ p', release_history policy cfg p = Some p' ∧ pool_ok held [] p' ∧ sizes_in size_ok p' ∧
    (∀ n, n ∈ held → same_data n p p') ∧ (policy ≠ DYNAMIC_RESERVE_MEMORY_MODE → tp_size p' <= tp_max p').
Proof.
  intros Hok Hsz Hfit. unfold release_history.
  assert (∀ p0, pool_ok held [] p0 → tp_nodes p0 = tp_nodes p → tp_all p0 = tp_all p → tp_free p0 = tp_free p →
    tp_max (update_maximum_size cfg false p0) = tp_max (update_maximum_size cfg false p) →
    ∃ p', (let p1 := update_maximum_size cfg false p0 in shrink (shrink_turns (tp_max p1) p1) p1) = Some p' ∧ pool_ok held [] p' ∧
      sizes_in size_ok p' ∧ (∀ n, n ∈ held → same_data n p p') ∧ (policy ≠ DYNAMIC_RESERVE_MEMORY_MODE → tp_size p' <= tp_max p')) as Hsh.
  { intros p0 Hok0 En0 Ea0 Ef0 Em0. destruct (update_maximum_size_fields cfg false p0) as (En & Ea & Ef & _).
    pose proof (update_maximum_size_ok held cfg false p0 Hok0) as Hok1. cbv zeta.
    set (p1 := update_maximum_size cfg false p0) in *.
    assert (tp_size p1 = tp_size p) as Esz by (unfold tp_size; by rewrite Ea, Ea0).
    destruct (shrink_ok held (shrink_turns (tp_max p1) p1) p1 Hok1) as (p' & E & Hok' & Es & Em & Hsame & Hq).
    { unfold shrink_turns. rewrite Ef, Ef0, Esz, Em0. unfold tp_size in *. lia. }
    exists p'. split; [done|]. split; [done|]. split; [apply Hq; unfold sizes_in; by rewrite En, En0|]. split.
    - intros n Hn. eapply same_data_trans; [|by apply Hsame]. apply same_data_refl. by rewrite En, En0.
    - intros _. rewrite Es, Em. unfold shrink_turns. lia. }
  destruct (update_maximum_size_fields cfg false p) as (En & _).
  destruct policy eqn:Ep; [apply Hsh; [by apply set_minimum_ok | done..|] | apply Hsh; [by apply set_minimum_ok | done..|] | | by apply Hsh].
  1,2: unfold update_maximum_size; destruct (pc_maximum_size cfg =? 0); cbn -[u32];
    [destruct (u32 (tp_infinite p - 1) =? 0) | destruct (tp_infinite p =? 0)]; done.
  eexists. split; [done|]. split; [by apply update_maximum_size_ok|]. split; [unfold sizes_in; by rewrite En|]. split; [|done].
  intros n _. apply same_data_refl. by rewrite En.
Qed.

(** ** A step, a run *)

Lemma ps_exec_ok st held p :
  0 <= payload_size → pool_ok held [] p → sizes_in size_ok p → step_valid st (held, p) = true →
  ∃ held' p', ps_exec policy payload_size st (held, p) = Some (held', p') ∧ pool_ok held' [] p' ∧ sizes_in size_ok p' ∧
    ∀ n, n ∈ held → n ∈ held' → match st with PsWrite m _ => m ≠ n | _ => True end → same_data n p p'.
Proof.
  intros Hps Hok Hsz (Hlen & Hv)%andb_true_iff. cbn [fst snd] in *.
  destruct st as [created resized size|created resized data|n|n data|n|created cfg|cfg];
    cbn -[get_payload copy_payload share_payload payload_copy release_payload reserve_history release_history drop_holder update_maximum_size] in *.
  - destruct (get_payload_ok held created resized size p) as (got & p' & E & (Hsame & Hs & Hg) & _); [done | done | done | lia|].
    rewrite E. cbn. eexists _, _. split; [done|]. destruct got as [[n sz]|]; split; [apply Hg | | done|]; (split; [by apply Hs | auto]).
  - destruct (copy_payload_ok held created resized data p) as (got & p' & E & (Hsame & Hs & Hg) & _); [done | done | done | lia|].
    rewrite E. cbn. eexists _, _. split; [done|]. destruct got as [[n sz]|]; split; [apply Hg | | done|]; (split; [by apply Hs | auto]).
  - apply bool_decide_eq_true in Hv. destruct (share_payload_ok held p n) as (sz & p' & E & Hok' & Hsame & Hs); [done | done | lia|].
    rewrite E. cbn. eexists _, _. split; [done|]. auto.
  - apply bool_decide_eq_true in Hv. destruct (payload_copy_ok held p n data) as (b & p' & E & Hok' & Hsame & Hs & _); [done | done|].
    rewrite E. cbn. eexists _, _. split; [done|]. auto.
  - apply bool_decide_eq_true in Hv. destruct (release_payload_ok policy held p n) as (p' & E & Hok' & Hsame & Hs); [done | done | lia|].
    rewrite E. cbn -[drop_holder]. eexists _, _. split; [done|]. auto.
  - apply bool_decide_eq_true in Hv. destruct (reserve_history_ok held created cfg p) as (p' & E & Hok' & Hs & Hsame); [done..|].
    rewrite E. cbn. eexists _, _. split; [done|]. auto.
  - destruct (release_history_ok held cfg p) as (p' & E & Hok' & Hs & Hsame & _); [done | done | lia|].
    rewrite E. cbn. eexists _, _. split; [done|]. auto.
Qed.

Lemma ps_run_ok steps held p :
  0 <= payload_size → pool_ok held [] p → sizes_in size_ok p → run_valid steps (held, p) = true →
  ∃ held' p', ps_run steps (held, p) = Some (held', p') ∧ pool_ok held' [] p' ∧ sizes_in size_ok p' ∧
    ∀ n, n ∈ held → kept n steps (held, p) = true → same_data n p p'.
Proof.
  intros Hps. revert held p. induction steps as [|st steps IH]; intros held p Hok Hsz Hv.
  - eexists _, _. split; [done|]. split; [done|]. split; [done|]. intros; by apply same_data_refl.
  - cbn [run_valid] in Hv. apply andb_true_iff in Hv as (Hst & Hv).
    destruct (ps_exec_ok st held p Hps Hok Hsz Hst) as (held1 & p1 & E & Hok1 & Hsz1 & Hsame).
    rewrite E in Hv. destruct (IH held1 p1 Hok1 Hsz1 Hv) as (held' & p' & E' & Hok' & Hsz' & Hsame').
    exists held', p'. cbn [ps_run kept]. rewrite E. split; [done|]. split; [done|]. split; [done|].
    intros n Hn (Hw & (Hin%bool_decide_eq_true & Hk)%andb_true_iff)%andb_true_iff.
    eapply same_data_trans; [|by apply Hsame']. apply Hsame; [done | done|]. destruct st; try done. intros ->.
    by rewrite Nat.eqb_refl in Hw.
Qed.

Lemma start_ok steps :
  0 <= payload_size → run_valid steps ([], tp_make) = true →
  ∃ held p, ps_run steps ([], tp_make) = Some (held, p) ∧ pool_ok held [] p ∧ sizes_in size_ok p.
Proof.
  intros Hps Hv. destruct (ps_run_ok steps [] tp_make) as (held & p & E & Hok & Hsz & _);
    [done | apply tp_make_ok | by intros ? ? ? | done|].
  by exists held, p.
Qed.
End Policy.

(** ** Properties *)

(** C18. Whatever the policy and whatever the allocator answers, no call of a valid run (payloads got, copied,
    shared, written and released, histories reserved and released) accesses a deleted payload or
    leaves the vectors. At the end every held payload exists, is not free and counts exactly its
    holders; every payload is held or free exactly once, so none is lost. *)
Theorem payloads_live_while_held policy payload_size steps :
  0 <= payload_size → run_valid policy payload_size steps ([], tp_make) = true →
  ∃ held p, ps_run policy payload_size steps ([], tp_make) = Some (held, p) ∧
    (∀ n, n ∈ held → ∃ x, tp_nodes p !! n = Some x ∧ ref_counter x = holders n held ∧ n ∉ tp_free p) ∧
    (∀ n x, tp_nodes p !! n = Some x → n ∈ held ∨ n ∈ tp_free p) ∧
    NoDup (tp_free p) ∧ ∀ n, n ∈ tp_free p → is_Some (tp_nodes p !! n).
Proof.
  intros Hps Hv. destruct (start_ok policy payload_size steps Hps Hv) as (held & p & E & Hok & _).
  exists held, p. split; [done|]. split; [|split; [|split]].
  - intros n Hn. destruct (pool_node held [] p n Hok) as (x & Hx); [apply (pk_held _ _ _ Hok); by left|].
    exists x. split; [done|]. split; [by apply (pk_node _ _ _ Hok n x)|]. by intros (_ & ? & _)%(pk_avail _ _ _ Hok).
  - intros n x Hx. destruct (decide (n ∈ held)) as [|Hn]; [by left|]. right. apply (pk_avail _ _ _ Hok).
    split_and!; [by apply (pk_node _ _ _ Hok n x) | done | apply not_elem_of_nil].
  - apply (pk_free _ _ _ Hok).
  - intros n (Hn & _)%(pk_avail _ _ _ Hok). by apply (pool_node held [] p).
Qed.

(** Two histories and three payloads: one is shared, one is copied, the first goes back and is recycled larger. *)
Definition pool_run : list PoolStep :=
  [PsReserve [true] (PoolConfigMk 1 2); PsReserve [true] (PoolConfigMk 1 2); PsGet true true 4; PsShare 1; PsCopy true true [7; 8];
   PsWrite 1 [1; 2; 3]; PsRelease 1; PsRelease 0; PsGet true true 9; PsCopy true false [5]; PsRelease 0; PsReleaseHistory (PoolConfigMk 1 2)].

Lemma payloads_live_while_held_witness :
  ∃ held p, ps_run PREALLOCATED_WITH_REALLOC_MEMORY_MODE 4 pool_run ([], tp_make) = Some (held, p) ∧
    (∀ n, n ∈ held → ∃ x, tp_nodes p !! n = Some x ∧ ref_counter x = holders n held ∧ n ∉ tp_free p) ∧
    (∀ n x, tp_nodes p !! n = Some x → n ∈ held ∨ n ∈ tp_free p) ∧
    NoDup (tp_free p) ∧ ∀ n, n ∈ tp_free p → is_Some (tp_nodes p !! n).
Proof. apply payloads_live_while_held; [lia | vm_compute; reflexivity]. Defined.

(** C19. As long as somebody holds a payload, its octets and its size stay through any run of calls that do not
    write it, releases of other payloads, allocations, shrinking and the moves in the vector included. *)
Theorem held_contents_are_kept policy payload_size before after n held p x :
  0 <= payload_size → run_valid policy payload_size before ([], tp_make) = true →
  ps_run policy payload_size before ([], tp_make) = Some (held, p) → n ∈ held → tp_nodes p !! n = Some x →
  run_valid policy payload_size after (held, p) = true → kept policy payload_size n after (held, p) = true →
  ∃ held' p' y, ps_run policy payload_size after (held, p) = Some (held', p') ∧ tp_nodes p' !! n = Some y ∧
    node_data y = node_data x ∧ data_size y = data_size x.
Proof.
  intros Hps Hv E Hn Hx Hv' Hk. destruct (start_ok policy payload_size before Hps Hv) as (held0 & p0 & E0 & Hok & Hsz).
  rewrite E0 in E. injection E as -> ->.
  destruct (ps_run_ok policy payload_size after held p Hps Hok Hsz Hv') as (held' & p' & E' & _ & _ & Hsame).
  destruct (Hsame n Hn Hk x Hx) as (y & Hy & ?). by exists held', p', y.
Qed.

Definition before_run : list PoolStep :=
  [PsReserve [] (PoolConfigMk 1 3); PsReserve [] (PoolConfigMk 1 3); PsGet true true 2; PsGet true true 2; PsCopy true true [7; 8]; PsShare 2].
Definition after_run : list PoolStep :=
  [PsRelease 0; PsRelease 1; PsGet true true 5; PsWrite 3 [9; 9]; PsRelease 2; PsReleaseHistory (PoolConfigMk 1 3)].

Lemma held_contents_are_kept_witness :
  ∃ held' p' y, ps_run DYNAMIC_RESERVE_MEMORY_MODE 4 (before_run ++ after_run) ([], tp_make) = Some (held', p') ∧
    tp_nodes p' !! 2%nat = Some y ∧ node_data y = [7; 8].
Proof.
  edestruct (held_contents_are_kept DYNAMIC_RESERVE_MEMORY_MODE 4 before_run after_run 2) as (held' & p' & y & E & Hy & Ed & _);
    [lia | vm_compute; reflexivity | vm_compute; reflexivity | apply (bool_decide_unpack _); vm_compute; exact I
    | vm_compute; reflexivity | vm_compute; reflexivity | vm_compute; reflexivity|].
  exists held', p', y. split; [exact E|]. split; [exact Hy | exact Ed].
Defined.

(** C20. A payload that is handed out is one that nobody holds. It has at least the size that was asked for,
    except when the payloads are preallocated without reallocation: then it has exactly the configured
    size, which may be less than the size asked for, against what the interface promises. A copy has the
    octets of the original. When the pool cannot hand one out, the holders of the others do not notice. *)
Theorem handed_out_payload policy payload_size steps held p created resized size data :
  0 <= payload_size → run_valid policy payload_size steps ([], tp_make) = true →
  ps_run policy payload_size steps ([], tp_make) = Some (held, p) → 0 <= size → Z.of_nat (length held) < 2 ^ 32 - 1 →
  (∃ got p', get_payload policy payload_size created resized size p = Some (got, p') ∧ (∀ n, n ∈ held → same_data n p p') ∧
     match got with
     | Some (n, sz) => (n ∉ held) ∧ (∃ x, tp_nodes p' !! n = Some x ∧ data_size x = sz ∧ ref_counter x = 1) ∧
         if decide (policy = PREALLOCATED_MEMORY_MODE) then sz = payload_size else size <= sz
     | None => True
     end) ∧
  ∃ got p', copy_payload policy payload_size created resized data p = Some (got, p') ∧ (∀ n, n ∈ held → same_data n p p') ∧
    match got with
    | Some (n, _) => (n ∉ held) ∧ ∃ x, tp_nodes p' !! n = Some x ∧ ref_counter x = 1 ∧ take (length data) (node_data x) = data
    | None => True
    end.
Proof.
  intros Hps Hv E Hs Hlen. destruct (start_ok policy payload_size steps Hps Hv) as (held0 & p0 & E0 & Hok & Hsz).
  rewrite E0 in E. injection E as -> ->.
  assert (∀ n p', pool_ok (n :: held) [] p' → n ∉ held → ∀ x, tp_nodes p' !! n = Some x → ref_counter x = 1) as Hone.
  { intros n p' Hok' Hn x Hx. destruct (pk_node _ _ _ Hok' n x Hx) as (_ & _ & -> & _).
    rewrite holders_cons, decide_True, (proj2 (holders_zero n held)) by done. done. }
  split.
  - destruct (get_payload_ok policy payload_size held created resized size p) as (got & p' & E & (Hsame & _ & Hg) & Hsize); [done..|].
    exists got, p'. split; [done|]. split; [done|]. destruct got as [[n sz]|]; [|done].
    destruct Hg as (Hok' & Hn & x & Hx & Ex). split; [done|]. split; [|done]. exists x. eauto.
  - destruct (copy_payload_ok policy payload_size held created resized data p) as (got & p' & E & (Hsame & _ & Hg) & Hdata); [done..|].
    exists got, p'. split; [done|]. split; [done|]. destruct got as [[n sz]|]; [|done].
    destruct Hg as (Hok' & Hn & x & Hx & Ex). split; [done|]. exists x. eauto.
Qed.

Lemma handed_out_payload_witness :
  (∃ got p', get_payload DYNAMIC_RESERVE_MEMORY_MODE 4 true true 6
     (match ps_run DYNAMIC_RESERVE_MEMORY_MODE 4 before_run ([], tp_make) with Some (_, p) => p | None => tp_make end) = Some (got, p') ∧
     match got with Some (n, sz) => (n ∉ [2; 2; 1; 0]%nat) ∧ 6 <= sz | None => False end).
Proof.
  edestruct (handed_out_payload DYNAMIC_RESERVE_MEMORY_MODE 4 before_run) as [(got & p' & E & _ & Hg) _];
    [lia | vm_compute; reflexivity | vm_compute; reflexivity | | vm_compute; reflexivity | exists got, p'; split; [exact E|]]; [lia|].
  destruct got as [[n sz]|]; [|vm_compute in E; discriminate]. destruct Hg as (Hn & _ & Hsz). split; [exact Hn | exact Hsz].
  Unshelve. exact [].
Defined.
