(* ===== verification/CacheChangePool.v ===== *)
(** * The pool of changes of a history (src/cpp/rtps/history/CacheChangePool.cpp)

    The pool has the changes themselves, named by a number that stands for their
    address, the vector of all of them and the vector of the free ones. Two
    policies allocate in groups and keep what comes back, one allocates on demand
    and keeps it, one deletes it. Taking the last element of an empty vector, using
    a change that was deleted and a floating point number that does not fit the
    integer it is converted to have no result. *)

From Stdlib Require Import ZArith Lia ZifyBool.
From stdpp Require Import base numbers option gmap list.
From S2P Require Import Prelude SequenceNumber Guid Time CacheChange ParameterList.
From S2P Require Import TopicPayloadPool.

Open Scope Z_scope.

Record CacheChangePool := CacheChangePoolMk {
  cp_changes : gmap nat CacheChange_t;
  all_caches_ : list nat;
  free_caches_ : list nat;
  current_pool_size_ : Z;
  max_pool_size_ : Z;
  memory_mode_ : MemoryManagementPolicy_t;
  cp_next : nat
}.

Definition cp_set (changes : gmap nat CacheChange_t) (all free : list nat) (current : Z) (p : CacheChangePool) : CacheChangePool :=
  CacheChangePoolMk changes all free current (max_pool_size_ p) (memory_mode_ p) (cp_next p).

(** A new change. *)
Definition create_change : CacheChange_t :=
  {| cc_kind := ALIVE; writerGUID := c_Guid_Unknown; instanceHandle := None; sequenceNumber := sn_zero;
     serializedPayload := pl_default; inline_qos := Payload PL_CDR_LE 0 [] false; sourceTimestamp := time_zero;
     vendor_id := c_VendorId_Unknown; fragment_size_ := 0; fragment_count_ := 0; first_missing_fragment_ := 0 |}.

(** A new change that is added to the pool, and to the free ones when [is_free]. *)
Definition cp_create (is_free : bool) (p : CacheChangePool) : CacheChangePool :=
  let n := cp_next p in
  CacheChangePoolMk (<[n := create_change]> (cp_changes p)) (all_caches_ p ++ [n])
    (if is_free then free_caches_ p ++ [n] else free_caches_ p) (u32 (current_pool_size_ p + 1)) (max_pool_size_ p) (memory_mode_ p) (S n).

(** The loop of [allocateGroup]. *)
Fixpoint create_group (turns : nat) (p : CacheChangePool) : CacheChangePool :=
  match turns with O => p | S turns' => create_group turns' (cp_create true p) end.

Definition allocateGroup (group_size : Z) (p : CacheChangePool) : bool * CacheChangePool :=
  let desired_size := u32 (current_pool_size_ p + group_size) in
  let '(desired_size, group_size) :=
    if desired_size >? max_pool_size_ p then (max_pool_size_ p, u32 (max_pool_size_ p - current_pool_size_ p))
    else (desired_size, group_size) in
  if group_size <=? 0 then (false, p)
  else (true, create_group (Z.to_nat (desired_size - current_pool_size_ p)) p).

Definition allocateSingle (p : CacheChangePool) : option nat * CacheChangePool :=
  if current_pool_size_ p <? max_pool_size_ p then (Some (cp_next p), cp_create false p) else (None, p).

(** [init] of a pool. *)
Definition cp_init (policy : MemoryManagementPolicy_t) (cfg : PoolConfig) : CacheChangePool :=
  let pool_size := pc_initial_size cfg in
  let max_pool_size := pc_maximum_size cfg in
  let max := if max_pool_size >? 0 then if pool_size >? max_pool_size then pool_size else max_pool_size else 2 ^ 32 - 1 in
  let p := CacheChangePoolMk ∅ [] [] 0 max policy 0 in
  match policy with
  | PREALLOCATED_MEMORY_MODE | PREALLOCATED_WITH_REALLOC_MEMORY_MODE =>
      (allocateGroup (if pool_size =? 0 then 1 else pool_size) p).2
  | DYNAMIC_RESERVE_MEMORY_MODE | DYNAMIC_REUSABLE_MEMORY_MODE => p
  end.

(** [(uint16_t)(ceil((float)current_pool_size_ / 10) + 10)]: below the limit the quotient in single
    precision has the exact ceiling, above it the sum does not fit 16 bits. *)
Definition next_group (current : Z) : option Z :=
  let size := (current + 9) / 10 + 10 in
  if size <? 2 ^ 16 then Some size else None.

(** The change is made as new, but for its payload and the buffer of its inline QoS. *)
Definition cc_reset (c : CacheChange_t) : option CacheChange_t :=
  setFragmentSize 0 false
    {| cc_kind := ALIVE; writerGUID := c_Guid_Unknown; instanceHandle := None; sequenceNumber := SeqNum 0 0;
       serializedPayload := serializedPayload c;
       inline_qos := Payload (pl_encapsulation (inline_qos c)) 0 (pl_data (inline_qos c)) (pl_is_serialized_key (inline_qos c));
       sourceTimestamp := time_zero; vendor_id := c_VendorId_Unknown; fragment_size_ := fragment_size_ c;
       fragment_count_ := fragment_count_ c; first_missing_fragment_ := first_missing_fragment_ c |}.

Definition return_cache_to_pool (n : nat) (p : CacheChangePool) : option CacheChangePool :=
  c ← cp_changes p !! n;
  c' ← cc_reset c;
  Some (cp_set (<[n := c']> (cp_changes p)) (all_caches_ p) (free_caches_ p ++ [n]) (current_pool_size_ p) p).

(** The last free change is taken. *)
Definition take_back (p : CacheChangePool) : option (option nat * CacheChangePool) :=
  n ← last (free_caches_ p);
  Some (Some n, cp_set (cp_changes p) (all_caches_ p) (take (length (free_caches_ p) - 1) (free_caches_ p)) (current_pool_size_ p) p).

(** The inner [None] is the result [false]. *)
Definition reserve_cache (p : CacheChangePool) : option (option nat * CacheChangePool) :=
  if decide (free_caches_ p = []) then
    match memory_mode_ p with
    | PREALLOCATED_MEMORY_MODE | PREALLOCATED_WITH_REALLOC_MEMORY_MODE =>
        group ← next_group (current_pool_size_ p);
        let '(done, p1) := allocateGroup group p in
        if done : bool then take_back p1 else Some (None, p1)
    | DYNAMIC_RESERVE_MEMORY_MODE | DYNAMIC_REUSABLE_MEMORY_MODE => Some (allocateSingle p)
    end
  else take_back p.

Definition release_cache (n : nat) (p : CacheChangePool) : option (bool * CacheChangePool) :=
  match memory_mode_ p with
  | PREALLOCATED_MEMORY_MODE | PREALLOCATED_WITH_REALLOC_MEMORY_MODE | DYNAMIC_REUSABLE_MEMORY_MODE =>
      p' ← return_cache_to_pool n p; Some (true, p')
  | DYNAMIC_RESERVE_MEMORY_MODE =>
      match list_find (eq n) (all_caches_ p) with
      | Some (i, _) =>
          back ← last (all_caches_ p);
          let all := <[i := back]> (all_caches_ p) in
          Some (true, cp_set (delete n (cp_changes p)) (take (length all - 1) all) (free_caches_ p) (u32 (current_pool_size_ p - 1)) p)
      | None => Some (false, p)
      end
  end.

(** ** Runs *)

(** A change is reserved, filled by its holder, released. *)
Inductive ChangePoolStep :=
  | CpReserve
  | CpFill (n : nat) (c : CacheChange_t)
  | CpRelease (n : nat).

(** The pool with the changes that are held. *)
Definition cp_exec (st : ChangePoolStep) (s : list nat * CacheChangePool) : option (list nat * CacheChangePool) :=
  let '(held, p) := s in
  match st with
  | CpReserve => '(got, p') ← reserve_cache p; Some (match got with Some n => n :: held | None => held end, p')
  | CpFill n c =>
      _ ← cp_changes p !! n;
      Some (held, cp_set (<[n := c]> (cp_changes p)) (all_caches_ p) (free_caches_ p) (current_pool_size_ p) p)
  | CpRelease n => '(_, p') ← release_cache n p; Some (drop_holder n held, p')
  end.

Fixpoint cp_run (steps : list ChangePoolStep) (s : list nat * CacheChangePool) : option (list nat * CacheChangePool) :=
  match steps with
  | [] => Some s
  | st :: steps' => s' ← cp_exec st s; cp_run steps' s'
  end.
