(* ===== verification/CacheChangePoolTheorems.v ===== *)
(** * What the pool of changes promises

    A change has at most one holder and stays while it is held; what is handed out
    is as new; the pool refuses a change exactly when its maximum is in use. *)

From Stdlib Require Import ZArith Lia ZifyBool.
From stdpp Require Import base numbers option gmap list.
From S2P Require Import Prelude SequenceNumber Guid Time CacheChange ParameterList.
From S2P Require Import TopicPayloadPool TopicPayloadPoolFacts CacheChangePool.

Open Scope Z_scope.

(** A change as a new one, its payload and the buffer of its inline QoS apart. *)
Definition as_new (c : CacheChange_t) : Prop :=
  cc_kind c = ALIVE ∧ writerGUID c = c_Guid_Unknown ∧ instanceHandle c = None ∧ sequenceNumber c = sn_zero ∧
  pl_length (inline_qos c) = 0 ∧ sourceTimestamp c = time_zero ∧ vendor_id c = c_VendorId_Unknown ∧
  fragment_size_ c = 0 ∧ fragment_count_ c = 0 ∧ first_missing_fragment_ c = 0.

(** The pool with the changes [held]: all the changes are there once, the free ones are those that
    nobody holds and are as new, and the size counts them. *)
Record cp_ok (held : list nat) (p : CacheChangePool) : Prop := {
  ck_all : NoDup (all_caches_ p);
  ck_split : all_caches_ p ≡ₚ held ++ free_caches_ p;
  ck_dom : ∀ n, n ∈ all_caches_ p ↔ is_Some (cp_changes p !! n);
  ck_next : ∀ n, n ∈ all_caches_ p → (n < cp_next p)%nat;
  ck_new : ∀ n c, n ∈ free_caches_ p → cp_changes p !! n = Some c → as_new c;
  ck_size : current_pool_size_ p = Z.of_nat (length (all_caches_ p));
  ck_max : current_pool_size_ p <= max_pool_size_ p < 2 ^ 32
}.

Lemma cp_ok_perm held held' p : held ≡ₚ held' → cp_ok held p → cp_ok held' p.
Proof. intros Hp [HA HS HD HN HC HZ HM]. constructor; try done. by rewrite <- Hp. Qed.

Lemma cp_used held p : cp_ok held p → Z.of_nat (length held) = current_pool_size_ p - Z.of_nat (length (free_caches_ p)).
Proof. intros Hok. rewrite (ck_size _ _ Hok), (ck_split _ _ Hok), length_app. lia. Qed.

Lemma drop_holder_perm n held : n ∈ held → held ≡ₚ n :: drop_holder n held.
Proof.
  induction held as [|m held IH]; [by intros ?%elem_of_nil|]. cbn [drop_holder]. destruct (decide (m = n)) as [->|Hne]; [done|].
  intros [?|Hn]%elem_of_cons; [congruence|]. transitivity (m :: n :: drop_holder n held); [constructor; by apply IH | apply Permutation_swap].
Qed.

Lemma cp_create_ok held (is_free : bool) p :
  cp_ok held p → current_pool_size_ p < max_pool_size_ p → cp_ok (if is_free then held else cp_next p :: held) (cp_create is_free p).
Proof.
  intros [HA HS HD HN HC HZ HM] Hlt.
  assert (cp_next p ∉ all_caches_ p) as Hnew by (intros Hn; specialize (HN _ Hn); lia).
  constructor; cbn [cp_changes all_caches_ free_caches_ current_pool_size_ max_pool_size_ cp_next cp_create].
  - apply NoDup_app. split_and!; [done | | apply NoDup_singleton]. intros m Hm ->%list_elem_of_singleton. done.
  - destruct is_free; rewrite HS; [by rewrite app_assoc|]. rewrite <- Permutation_cons_append. done.
  - intros n. rewrite elem_of_app, list_elem_of_singleton, HD, lookup_insert_is_Some'. split; intros [?|?]; auto.
  - intros n. rewrite elem_of_app, list_elem_of_singleton. intros [Hn| ->]; [specialize (HN _ Hn)|]; lia.
  - intros n c Hn. assert (n = cp_next p ∨ n ≠ cp_next p ∧ n ∈ free_caches_ p) as [->|(Hne & Hin)].
    + destruct (decide (n = cp_next p)) as [->|]; [by left|]. right. split; [done|]. destruct is_free; [|done].
      apply elem_of_app in Hn as [?|?%list_elem_of_singleton]; done.
    + rewrite lookup_insert_eq. intros [= <-]. done.
    + rewrite lookup_insert_ne by done. by apply HC.
  - rewrite length_app, HZ. cbn. rewrite u32_small by zwidth. lia.
  - rewrite u32_small by zwidth. lia.
Qed.

Lemma create_group_ok held turns p :
  cp_ok held p → current_pool_size_ p + Z.of_nat turns <= max_pool_size_ p →
  cp_ok held (create_group turns p) ∧ length (free_caches_ (create_group turns p)) = (length (free_caches_ p) + turns)%nat ∧
  max_pool_size_ (create_group turns p) = max_pool_size_ p ∧ memory_mode_ (create_group turns p) = memory_mode_ p ∧
  ∀ n, n ∈ held → cp_changes (create_group turns p) !! n = cp_changes p !! n.
Proof.
  revert p. induction turns as [|turns IH]; intros p Hok Hle; cbn [create_group]; [split_and!; (done || lia)|].
  pose proof (cp_create_ok held true p Hok ltac:(lia)) as Hok1.
  assert (current_pool_size_ (cp_create true p) = current_pool_size_ p + 1) as E.
  { cbn. apply u32_small. pose proof (ck_max _ _ Hok). pose proof (ck_size _ _ Hok). zwidth. }
  destruct (IH (cp_create true p) Hok1) as (H1 & H2 & H3 & H4 & H5); [rewrite E; cbn; lia|].
  split_and!; [done | rewrite H2; cbn; rewrite length_app; cbn; lia | done | done|].
  intros n Hn. rewrite H5 by done. cbn. apply lookup_insert_ne. intros <-.
  assert (cp_next p ∈ all_caches_ p) as Hin by (rewrite (ck_split _ _ Hok); apply elem_of_app; by left).
  pose proof (ck_next _ _ Hok _ Hin). lia.
Qed.

Lemma allocateGroup_ok held group p :
  cp_ok held p → 0 < group → current_pool_size_ p + group < 2 ^ 32 →
  ∃ p', allocateGroup group p = (current_pool_size_ p <? max_pool_size_ p, p') ∧ cp_ok held p' ∧
    (current_pool_size_ p < max_pool_size_ p → (length (free_caches_ p) < length (free_caches_ p'))%nat) ∧
    max_pool_size_ p' = max_pool_size_ p ∧ memory_mode_ p' = memory_mode_ p ∧
    ∀ n, n ∈ held → cp_changes p' !! n = cp_changes p !! n.
Proof.
  intros Hok Hg Hw. pose proof (ck_max _ _ Hok) as Hm. pose proof (ck_size _ _ Hok) as Hz. unfold allocateGroup.
  rewrite u32_small by zwidth. rewrite (u32_small (max_pool_size_ p - _)) by zwidth.
  assert (∀ d, d <= max_pool_size_ p → current_pool_size_ p < d → current_pool_size_ p < max_pool_size_ p →
    ∃ p', (true, create_group (Z.to_nat (d - current_pool_size_ p)) p) = (current_pool_size_ p <? max_pool_size_ p, p') ∧ cp_ok held p' ∧
    (current_pool_size_ p < max_pool_size_ p → (length (free_caches_ p) < length (free_caches_ p'))%nat) ∧
    max_pool_size_ p' = max_pool_size_ p ∧ memory_mode_ p' = memory_mode_ p ∧
    ∀ n, n ∈ held → cp_changes p' !! n = cp_changes p !! n) as Hgrow.
  { intros d Hd Hlt Hlt'. eexists. split; [f_equal; lia|].
    destruct (create_group_ok held (Z.to_nat (d - current_pool_size_ p)) p Hok) as (H1 & H2 & H3 & H4 & H5); [lia|].
    split_and!; [done | intros _; rewrite H2; lia | done | done | done]. }
  destruct (Z.gtb_spec (current_pool_size_ p + group) (max_pool_size_ p)) as [Hgt|Hle]; cbn [fst snd].
  - destruct (Z.leb_spec (max_pool_size_ p - current_pool_size_ p) 0) as [Hfull|Hroom]; [|apply Hgrow; lia].
    exists p. split; [f_equal; lia|]. split_and!; [done | lia | done | done | done].
  - destruct (Z.leb_spec group 0); [lia|]. apply Hgrow; lia.
Qed.

Lemma cp_init_ok policy cfg :
  0 <= pc_initial_size cfg < 2 ^ 32 → 0 <= pc_maximum_size cfg < 2 ^ 32 →
  cp_ok [] (cp_init policy cfg) ∧ memory_mode_ (cp_init policy cfg) = policy ∧
  max_pool_size_ (cp_init policy cfg) =
    if pc_maximum_size cfg =? 0 then 2 ^ 32 - 1 else Z.max (pc_initial_size cfg) (pc_maximum_size cfg).
Proof.
  intros Hi Hm. unfold cp_init. set (mx := if pc_maximum_size cfg >? 0 then _ else _).
  assert (mx = if pc_maximum_size cfg =? 0 then 2 ^ 32 - 1 else Z.max (pc_initial_size cfg) (pc_maximum_size cfg)) as Emx
    by (unfold mx; zif; lia).
  rewrite <- Emx. set (p := CacheChangePoolMk ∅ [] [] 0 mx policy 0).
  assert (cp_ok [] p) as Hok.
  { constructor; cbn.
    - constructor.
    - done.
    - intros n. rewrite lookup_empty. split; [by intros ?%elem_of_nil | by intros (? & ?)].
    - by intros n ?%elem_of_nil.
    - by intros n c ?%elem_of_nil.
    - done.
    - rewrite Emx; zif; lia. }
  destruct (allocateGroup_ok [] (if pc_initial_size cfg =? 0 then 1 else pc_initial_size cfg) p Hok) as (p' & E & Hok' & _ & H3 & H4 & _);
    [zif; lia | cbn; zif; lia|].
  destruct policy; rewrite ?E; done.
Qed.

Lemma take_back_ok held p :
  cp_ok held p → free_caches_ p ≠ [] →
  ∃ n p' c, take_back p = Some (Some n, p') ∧ cp_ok (n :: held) p' ∧ cp_changes p' = cp_changes p ∧
    cp_changes p !! n = Some c ∧ as_new c ∧ max_pool_size_ p' = max_pool_size_ p ∧ memory_mode_ p' = memory_mode_ p.
Proof.
  intros Hok Hne. pose proof Hok as [HA HS HD HN HC HZ HM]. unfold take_back.
  destruct (last (free_caches_ p)) as [n|] eqn:Hl; [|by apply last_None in Hl]. cbn [mbind option_bind].
  apply last_split in Hl. set (f := take _ _) in *.
  assert (n ∈ free_caches_ p) as Hn by (rewrite Hl; apply elem_of_app; right; by apply list_elem_of_singleton).
  assert (n ∈ all_caches_ p) as Hna by (rewrite HS; apply elem_of_app; by right).
  apply HD in Hna as (c & Hc). eexists n, _, c. split; [done|]. split_and!; try done; [|by apply (HC n)].
  constructor; cbn; try done.
  - rewrite HS, Hl, app_assoc, <- Permutation_cons_append. done.
  - intros m c' Hm. apply HC. rewrite Hl. apply elem_of_app. by left.
Qed.

(** Up to this number of changes in use the size of the next group fits its 16 bits. *)
Definition group_limit : Z := 655250.

Lemma next_group_some current : 0 <= current <= group_limit → ∃ g, next_group current = Some g ∧ 0 < g < 2 ^ 16.
Proof.
  unfold group_limit, next_group. intros Hc. destruct (Z.ltb_spec ((current + 9) / 10 + 10) (2 ^ 16)) as [Hlt|Hge].
  - eexists. split; [done|]. split; [|done]. pose proof (Z.div_pos (current + 9) 10). lia.
  - assert ((current + 9) / 10 < 65526) by (apply Z.div_lt_upper_bound; lia). lia.
Qed.

(** What [reserve_cache] answers: a change that is as new while fewer than the maximum are held, [None] when the
    maximum is; the changes of the holders stay. *)
Definition reserved_ok (held : list nat) (p : CacheChangePool) (r : option (option nat * CacheChangePool)) : Prop :=
  ∃ got p', r = Some (got, p') ∧ max_pool_size_ p' = max_pool_size_ p ∧
    (∀ n, n ∈ held → cp_changes p' !! n = cp_changes p !! n) ∧
    match got with
    | Some n => cp_ok (n :: held) p' ∧ Z.of_nat (length held) < max_pool_size_ p ∧ ∃ c, cp_changes p' !! n = Some c ∧ as_new c
    | None => cp_ok held p' ∧ Z.of_nat (length held) = max_pool_size_ p
    end.

Lemma take_back_reserved held p p1 :
  cp_ok held p1 → free_caches_ p1 ≠ [] → max_pool_size_ p1 = max_pool_size_ p →
  (∀ n, n ∈ held → cp_changes p1 !! n = cp_changes p !! n) → Z.of_nat (length held) < max_pool_size_ p →
  reserved_ok held p (take_back p1).
Proof.
  intros Hok Hf Em Hsame Hlt. destruct (take_back_ok held p1 Hok Hf) as (n & p' & c & E & Hok' & Ech & Hc & Hnew & Emx & _).
  exists (Some n), p'. split; [done|]. split; [congruence|]. split; [intros m Hm; rewrite Ech; by apply Hsame|].
  split; [done|]. split; [done|]. exists c. by rewrite Ech.
Qed.

Lemma allocateSingle_reserved held p :
  cp_ok held p → Z.of_nat (length held) = current_pool_size_ p → reserved_ok held p (Some (allocateSingle p)).
Proof.
  intros Hok Hused. pose proof (ck_max _ _ Hok) as Hm. unfold allocateSingle.
  destruct (Z.ltb_spec (current_pool_size_ p) (max_pool_size_ p)) as [Hlt|Hge]; eexists _, _; (split; [done|]); (split; [done|]).
  - split; [|split; [by apply (cp_create_ok held false) | split; [lia|]]].
    + intros n Hn. cbn. apply lookup_insert_ne. intros <-.
      assert (cp_next p ∈ all_caches_ p) as Hin by (rewrite (ck_split _ _ Hok); apply elem_of_app; by left).
      pose proof (ck_next _ _ Hok _ Hin). lia.
    + eexists. cbn. rewrite lookup_insert_eq. done.
  - split; [done|]. split; [done | lia].
Qed.

Lemma reserve_cache_ok held p :
  cp_ok held p → Z.of_nat (length held) <= group_limit → reserved_ok held p (reserve_cache p).
Proof.
  intros Hok Hlim. pose proof (ck_max _ _ Hok) as Hm. pose proof (cp_used held p Hok) as Hused. unfold reserve_cache.
  destruct (decide (free_caches_ p = [])) as [Hf|Hf].
  - rewrite Hf, Z.sub_0_r in Hused. pose proof (allocateSingle_reserved held p Hok Hused) as Hsingle.
    destruct (next_group_some (current_pool_size_ p)) as (g & Eg & Hg); [lia|]. rewrite Eg. cbn [mbind option_bind].
    destruct (allocateGroup_ok held g p Hok) as (p1 & E1 & Hok1 & Hroom & Emx & _ & Hsame); [lia | unfold group_limit in *; lia|].
    assert (reserved_ok held p (let '(done, p1) := allocateGroup g p in if done : bool then take_back p1 else Some (None, p1)))
      as Hgroup; [|destruct (memory_mode_ p); done].
    rewrite E1. destruct (Z.ltb_spec (current_pool_size_ p) (max_pool_size_ p)) as [Hlt|Hge].
    + apply take_back_reserved; try done; [|lia]. intros E0. specialize (Hroom Hlt). rewrite E0 in Hroom. cbn in Hroom. lia.
    + eexists _, _. split; [done|]. split; [done|]. split; [done|]. split; [done | lia].
  - apply take_back_reserved; try done. destruct (free_caches_ p); [done|]. cbn in Hused. lia.
Qed.

Lemma cc_reset_new c : ∃ c', cc_reset c = Some c' ∧ as_new c'.
Proof. eexists. split; [done|]. done. Qed.

Lemma release_cache_ok held p n :
  cp_ok held p → n ∈ held →
  ∃ p', release_cache n p = Some (true, p') ∧ cp_ok (drop_holder n held) p' ∧ max_pool_size_ p' = max_pool_size_ p ∧
    ∀ m, m ∈ drop_holder n held → cp_changes p' !! m = cp_changes p !! m.
Proof.
  intros Hok Hn. pose proof (cp_ok_perm _ _ p (drop_holder_perm n held Hn) Hok) as [HA HS HD HN HC HZ HM]. cbn [app] in HS.
  set (held' := drop_holder n held) in *.
  assert (NoDup (n :: held' ++ free_caches_ p)) as (Hnin & Hnd)%NoDup_cons by (by rewrite <- HS).
  assert (n ∈ all_caches_ p) as Hna by (rewrite HS; by left).
  assert (∀ m, m ∈ held' → m ≠ n) as Hne by (intros m Hm ->; apply Hnin, elem_of_app; by left).
  assert (∃ p', (p' ← return_cache_to_pool n p; Some (true, p')) = Some (true, p') ∧ cp_ok held' p' ∧
    max_pool_size_ p' = max_pool_size_ p ∧ ∀ m, m ∈ held' → cp_changes p' !! m = cp_changes p !! m) as Hback.
  { unfold return_cache_to_pool. destruct (proj1 (HD n) Hna) as (c & Hc). destruct (cc_reset_new c) as (c' & Ec & Hnew).
    rewrite Hc. cbn [mbind option_bind]. rewrite Ec. cbn [mbind option_bind]. eexists. split; [done|].
    split; [|split; [done | intros m Hm; cbn; apply lookup_insert_ne; symmetry; by apply Hne]].
    constructor; cbn; try done.
    - rewrite HS, app_assoc, <- Permutation_cons_append. done.
    - intros m. rewrite lookup_insert_is_Some', HD. split; [by right | intros [<-|?]; [by apply HD | done]].
    - intros m c0 Hm. destruct (decide (n = m)) as [<-|]; [rewrite lookup_insert_eq; by intros [= <-]|].
      rewrite lookup_insert_ne by done. apply HC. apply elem_of_app in Hm as [?|?%list_elem_of_singleton]; congruence. }
  unfold release_cache. destruct (memory_mode_ p); [done | done | | done].
  destruct (list_find_elem_of (eq n) (all_caches_ p) n Hna eq_refl) as ((i & n') & Hfind). rewrite Hfind.
  apply list_find_Some in Hfind as (Hi & <- & _).
  destruct (last (all_caches_ p)) as [b|] eqn:Hl; [|apply last_None in Hl; rewrite Hl in Hna; by apply elem_of_nil in Hna].
  cbn [mbind option_bind]. destruct (remove_node_all (all_caches_ p) i n b HA Hi Hl) as (H1 & H2 & _).
  eexists. split; [done|]. rewrite length_insert.
  split; [|split; [done | intros m Hm; cbn; apply lookup_delete_ne; symmetry; by apply Hne]].
  assert (length (all_caches_ p) ≠ 0)%nat as Hlen by (rewrite HS; cbn; lia).
  constructor; cbn.
  - done.
  - apply NoDup_Permutation; [done | done|]. intros m. rewrite H2, HS, elem_of_cons. split; [intros ([?|?] & ?); done|].
    intros Hm. split; [by right | by intros ->].
  - intros m. rewrite H2, HD, lookup_delete_is_Some. split; intros (? & ?); done.
  - intros m (Hm & _)%H2. by apply HN.
  - intros m c Hm. rewrite lookup_delete_ne; [by apply HC|]. intros ->. by apply Hnin, elem_of_app; right.
  - rewrite length_take, length_insert, HZ, u32_small by zwidth. lia.
  - rewrite u32_small by zwidth. lia.
Qed.

(** ** Runs *)

(** A change is filled and released by its holder; changes are reserved while at most [group_limit] are held. *)
Definition cp_step_valid (st : ChangePoolStep) (held : list nat) : bool :=
  match st with
  | CpReserve => Z.of_nat (length held) <=? group_limit
  | CpFill n _ | CpRelease n => bool_decide (n ∈ held)
  end.

Fixpoint cp_run_valid (steps : list ChangePoolStep) (s : list nat * CacheChangePool) : bool :=
  match steps with
  | [] => true
  | st :: steps' => cp_step_valid st s.1 && match cp_exec st s with Some s' => cp_run_valid steps' s' | None => true end
  end.

Lemma cp_exec_ok st held p :
  cp_ok held p → cp_step_valid st held = true →
  ∃ held' p', cp_exec st (held, p) = Some (held', p') ∧ cp_ok held' p' ∧ max_pool_size_ p' = max_pool_size_ p.
Proof.
  intros Hok Hv. destruct st as [|n c|n]; cbn -[reserve_cache release_cache drop_holder] in *.
  - destruct (reserve_cache_ok held p Hok) as (got & p' & E & Em & _ & Hg); [lia|]. rewrite E. cbn.
    destruct got as [n|]; eexists _, _; (split; [done|]); by destruct Hg.
  - apply bool_decide_eq_true in Hv.
    assert (n ∈ all_caches_ p) as Hn by (rewrite (ck_split _ _ Hok); apply elem_of_app; by left).
    destruct (proj1 (ck_dom _ _ Hok n) Hn) as (c0 & Hc0). rewrite Hc0. cbn.
    eexists _, _. split; [done|]. split; [|done]. destruct Hok as [HA HS HD HN HC HZ HM]. constructor; cbn; try done.
    + intros m. rewrite lookup_insert_is_Some', HD. split; [by right | intros [<-|?]; [by apply HD | done]].
    + intros m c1 Hm. rewrite lookup_insert_ne; [by apply HC|]. intros <-.
      rewrite HS in HA. apply NoDup_app in HA as (_ & Hd & _). by apply (Hd n).
  - apply bool_decide_eq_true in Hv. destruct (release_cache_ok held p n Hok Hv) as (p' & E & Hok' & Em & _).
    rewrite E. cbn -[drop_holder]. by eexists _, _.
Qed.

Lemma cp_run_ok steps held p :
  cp_ok held p → cp_run_valid steps (held, p) = true →
  ∃ held' p', cp_run steps (held, p) = Some (held', p') ∧ cp_ok held' p' ∧ max_pool_size_ p' = max_pool_size_ p.
Proof.
  revert held p. induction steps as [|st steps IH]; intros held p Hok Hv; [by exists held, p|].
  cbn [cp_run_valid fst] in Hv. apply andb_true_iff in Hv as (Hst & Hv).
  destruct (cp_exec_ok st held p Hok Hst) as (held1 & p1 & E & Hok1 & Em). rewrite E in Hv.
  destruct (IH held1 p1 Hok1 Hv) as (held' & p' & E' & Hok' & Em'). exists held', p'. cbn [cp_run]. rewrite E.
  split; [done|]. split; [done | congruence].
Qed.

(** ** Properties *)


Definition change_run : list ChangePoolStep :=
  [CpReserve; CpReserve; CpReserve; CpRelease 1; CpReserve; CpFill 1 create_change; CpReserve].


(** Beyond it a pool that grows in groups converts a number that does not fit 16 bits, far below a maximum that
    is not limited. *)
Lemma growth_beyond_limit p :
  memory_mode_ p = PREALLOCATED_MEMORY_MODE ∨ memory_mode_ p = PREALLOCATED_WITH_REALLOC_MEMORY_MODE →
  free_caches_ p = [] → group_limit < current_pool_size_ p → reserve_cache p = None.
Proof.
  intros Hm Hf Hc. unfold reserve_cache. rewrite decide_True by done.
  assert (next_group (current_pool_size_ p) = None) as ->; [|by destruct Hm as [-> | ->]].
  unfold next_group, group_limit in *. destruct (Z.ltb_spec ((current_pool_size_ p + 9) / 10 + 10) (2 ^ 16)) as [Hlt|]; [|done].
  assert (65526 <= (current_pool_size_ p + 9) / 10) by (apply Z.div_le_lower_bound; lia). lia.
Qed.
